(* ===== verification/_CoqProject ===== *)
-Q . S2P
Prelude.v
SecuSnow3gTables.v
SecuSnow3g.v
SecuSnow3gSpec.v
SecuSnow3gProps.v
SecuSnow3gCipher.v
SecuSnow3gMac.v
SecuSnow3gUia.v
TimeStat.v
RlcPdu.v
RlcSdu.v
RlcReassembly.v
RlcRxList.v
RlcProps.v
RlcEntity.v
RlcTm.v
RlcUm.v
RlcUmTx.v
RlcUmRx.v
RlcUmProps.v
RlcAm.v
RlcAmCtrl.v
RlcAmRecv.v
RlcAmStatus.v
RlcAmSend.v
RlcBearer.v
RlcManager.v
RlcManagerSpec.v
RlcManagerRel.v
RlcManagerMain.v
HashTable.v
F1apIds.v
SeqArr.v
RlcAmQueue.v
RlcAmTx.v
RlcAmWalk.v
RlcAmCtrlProps.v
RlcAmReport.v
RlcAmRx.v
RlcAmStatusProps.v
RlcAmProps.v
RlcAmRecovery.v
SecuNas.v
SecuNasProps.v
Pdcp.v
PdcpSecurity.v
PdcpRx.v
PdcpRecv.v
PdcpSend.v
PdcpEnd.v
PdcpProps.v
PdcpExamples.v
Sdap.v
SdapList.v
SdapRefine.v
SdapProps.v
SdapTyped.v
PqcDispatch.v
Dtls.v
DtlsProps.v
Sctp.v
SctpProps.v
SctpEnd.v
SctpMain.v
Crc.v
CrcBits.v
CrcTables.v
CrcClmul.v
CrcIntel.v
CrcCheck.v
CrcMain.v
NrSegmentation.v
NrSegSizes.v
NrSegBlocks.v
NrSegMain.v
NrTbs.v
NrRateMatching.v
NrRateProps.v
NrCodeword.v
NrCodewordMain.v
