(* ===== verification/Prelude.v ===== *)
(** * The Q-RAN base station: a verification library

    Q-RAN is a 5G base station in C, an OpenAirInterface derivative whose SCTP
    interfaces run through a DTLS layer with post-quantum key exchange.  This
    library models the parts of it that have a contract of their own, function
    by function, and proves those contracts.

    ** How the parts interact

    A packet for the radio goes down: SDAP chooses the bearer of its QoS flow,
    PDCP numbers, protects and ciphers it (SNOW 3G or AES), RLC cuts it into PDUs
    that fit the grants of the MAC and, in acknowledged mode, sends again what
    the peer reports missing; the MAC computes the size of the transport block;
    the PHY attaches a CRC to it, divides it into code blocks, and after LDPC
    coding selects, interleaves and concatenates the bits that are sent.
    Reception is the same way up.  Beside the data
    path, the SCTP task carries the signalling messages of NGAP, F1AP and so on,
    through a DTLS client per association.  Every layer is a state and a set of
    operations; callbacks to the layer above and messages to other tasks are
    events that the model records in order.

    ** Conventions (Prelude.v)

    A C function is a Rocq function from the memory and arguments it uses to an
    [outcome]: [Ok] of the result and the new state, or a [Fault] that says how
    the process ends (an assertion, NULL, an access outside of an object, a
    freed object, an unwritten byte, a loop that does not end).  A theorem that
    says [= Ok _] therefore excludes all of them.  Integers are [Z], with the
    wrap-around of their width written out ([u8], [u16], [u32], [u64], [i32]).
    Memory is a [list Z] of bytes, read and written by [zget], [zset], [zslice],
    [zblit], which are [None] outside.  Structs are records with the C names of
    their fields and the notation [r <| f := v |>].  Where C objects are shared
    or freed, the model has a heap (RlcSdu.v for SDUs, PdcpSecurity.v for
    security contexts).  A loop without a structural bound has fuel, computed
    from its arguments; running out is [Fault Diverge], and the theorems show
    that it does not happen.

    ** Files, and what each group of theorems shows

    - common/utils/time_stat.c: TimeStat.v.  The ring buffer of samples is a
      queue, also when it grows while it wraps around.
    - openair2/LAYER2/nr_rlc.  RlcPdu.v (nr_rlc_pdu.c: bit coding of headers and
      the list of received PDUs), RlcSdu.v (nr_rlc_sdu.c: reference counted
      SDUs), RlcReassembly.v and RlcRxList.v (the scans of the reception list that
      the AM and UM entities share), with properties in RlcProps.v: bits written
      are read back and reads stay inside, no use after free or leak, and an SDU
      is found complete exactly when it is.  RlcEntity.v: what the entities share.
    - RlcTm.v (nr_rlc_entity_tm.c): the entity refines a bounded queue.
    - RlcUm.v (nr_rlc_entity_um.c), proofs in RlcUmTx.v, RlcUmRx.v, RlcUmProps.v: the transmitter never faults and never exceeds a grant; for any
      admissible order of arrival the receiver delivers SDUs as sent, at most
      once; what one side generates the other reads; grants empty the queue.
    - RlcAm.v, RlcAmCtrl.v, RlcAmRecv.v, RlcAmStatus.v, RlcAmSend.v
      (nr_rlc_entity_am.c: state, status reports received, data received, status
      reports sent, transmission and timers); proofs in RlcAmQueue.v, RlcAmTx.v
      (transmitter), RlcAmWalk.v, RlcAmCtrlProps.v, RlcAmReport.v
      (what a report does, against a walk through two lists), RlcAmRx.v
      (receiver), RlcAmStatusProps.v; properties in RlcAmProps.v,
      RlcAmRecovery.v: exactly the peer's SDUs, each once; no fault on any report;
      gaps are reported; bounds of windows and buffers.
    - RlcBearer.v (asn1_utils.c, and the functions every entity has), RlcManager.v
      (nr_rlc_ue_manager.c, nr_rlc_oai_api.c: the table of UEs, what MAC, PDCP and
      RRC call, what the entities call back) against RlcManagerSpec.v, finite maps
      without pointers; RlcManagerRel.v (the relation between the two),
      RlcManagerMain.v: the code refines the maps for entities of any kind, and
      its memory is exactly what the table reaches.
    - common/utils/hashtable/hashtable.c: HashTable.v.  The chains of nodes refine
      a finite map, for any number of buckets and any hash function.
      openair2/F1AP/f1ap_ids.c: F1apIds.v.  The two tables of identifiers are two
      finite maps; that of the DU is what RlcManager.v reads.
    - common/utils/ds/seq_arr.c, common/utils/alg: SeqArr.v.  The growing and
      shrinking array refines a list, for elements of up to 33 bytes; it does not
      beyond.
    - openair3/SECU.  SecuSnow3gTables.v and SecuSnow3g.v (snow3g.c) against
      SecuSnow3gSpec.v, the specification without tables; proofs in
      SecuSnow3gProps.v, SecuSnow3gCipher.v, SecuSnow3gMac.v,
      SecuSnow3gUia.v: the code computes UEA2 and UIA2.  SecuNas.v, SecuNasProps.v
      (nas_stream_*.c, secu_defs.c, aes_128_*.c): the algorithms and contexts.
    - openair2/LAYER2/nr_pdcp.  Pdcp.v (nr_pdcp_entity.c and its security files);
      proofs in PdcpSecurity.v, PdcpRx.v, PdcpRecv.v, PdcpSend.v;
      properties in PdcpEnd.v and PdcpProps.v, their witnesses and the behaviour
      outside of their hypotheses in PdcpExamples.v: over a channel that loses,
      reorders and duplicates, what is delivered is what was sent, in order; any
      bytes are survived; COUNT is recovered; contexts are never leaked.
    - openair2/SDAP/nr_sdap.  Sdap.v; SdapList.v and SdapRefine.v (the linked list
      refines a finite map from UE and PDU session to entity), SdapProps.v (data
      path, reflective mapping), SdapTyped.v (well-formed calls never fail).
    - pqc/dtls.  PqcDispatch.v (pqc_obf.h, pqc_dispatch.h, pqc_dispatch.c), Dtls.v,
      DtlsProps.v (dtls.c: handshake, encryption, decryption; an instance of
      OpenSSL's laws).
    - openair3/SCTP/sctp_eNB_task.c.  Sctp.v; SctpProps.v, SctpEnd.v, SctpMain.v:
      what is sent and handed over, over two ends of an association, and how the
      handshake ends.
    - openair1/PHY/CODING/crc_byte.c, crc.h.  Crc.v; CrcBits.v (the register,
      linearity over GF(2)), CrcTables.v (tables), CrcClmul.v, CrcIntel.v
      (carry-less multiplication), CrcCheck.v, CrcMain.v:
      every CRC is the one of the shift register; what [check_crc] accepts.
    - openair1/PHY/CODING/nr_segmentation.c, PHY/NR_TRANSPORT, SCHED_NR.
      NrSegmentation.v; NrSegSizes.v (sizes of TS 38.212), NrSegBlocks.v,
      NrSegMain.v: a transport block through code blocks and back,
      in any order.
    - openair2/LAYER2/NR_MAC_COMMON/nr_compute_tbs_common.c, get_BG.  NrTbs.v: the
      size of a transport block suits segmentation.
    - openair1/PHY/CODING/nr_rate_matching.c, PHY/NR_TRANSPORT (nr_tbs_tools.c, the
      coding threads of nr_dlsch_coding.c, nr_processULSegment up to the decoder).
      NrRateMatching.v; NrRateProps.v (the bits of the circular buffer that are
      sent, in order, and that both directions follow that order), NrCodeword.v
      (interleaving and its inverse, one block, and where blocks lie),
      NrCodewordMain.v: the threads, in any
      order, fill the codeword, and the receiver of a block adds each soft value
      to the place of the bit it belongs to.

    ** Interfaces

    The UE manager of the RLC is defined and proved against the class [RlcEntity]
    of RlcBearer.v, the table of functions of nr_rlc_entity.h; [bearer_entity]
    is its instance, the TM, UM and AM entities of this library, with which the
    witnesses compute.  PDCP uses the ciphers and MACs of SecuNas.v over the
    class [OpenSSL]; the SCTP task uses Dtls.v over the class [Dtls].

    ** Parameters

    Code that is not in the repository is a class with its laws: [OpenSSL] and
    [OpenSSLLaws] of SecuNas.v (AES counter mode and CMAC: the length of the
    output, deciphering, a function of the arguments), [Dtls] and [DtlsLaws] of
    Dtls.v (SSL objects and memory BIOs).  PdcpExamples.v and DtlsProps.v give
    instances that satisfy them, which the witnesses use.  The instructions
    of SSE in Crc.v are defined as the processor does.  [use_intel] is the macro
    USE_INTEL_CRC.  The clock is an argument of the operations that read it, and
    so are the kernel's answers in Sctp.v.

    ** Bounds and fuel

    SDUs of the RLC have 1 to 16000 bytes ([NR_SDU_MAX]).  PDCP and SNOW 3G:
    messages shorter than 2^28 bytes, so that a length in bits fits 32 bits;
    COUNT below its limit, as the code asserts it for AES.  DTLS messages fit the
    arrays of 8192 bytes of the SCTP task.  CRCs: fewer than 2^31 bits.
    Transport blocks: at most 2^30 bits, so that no product of nr_segmentation
    wraps around.  Rate matching: a lifting size up to 384, fewer than 256
    blocks, a limit on the buffer below 2^30 and fewer than 2^28 bits in a
    codeword, so that neither products nor offsets wrap around; the repetitions
    have fuel E, as each of them copies a bit.
    Hash tables: fewer than 2^31 buckets, as an iterator counts them in an int.
    Growing arrays: fewer than 2^30 bytes pushed, as distances are ints.
    The fuel of a loop is the length of the list it walks, the
    number of bytes left to read, or the size of the sequence number space
    between two variables; the walk of an AM entity through its wait and
    retransmit lists has a step for each of their segments and three more.

    ** Not modelled

    The scheduler of the MAC, RRC and the application protocols (F1AP, NGAP, E1AP,
    X2AP ...) work on types that the build generates from ASN.1, which are not in
    the repository.  GTP-U, the radio drivers, the executables and the logging are
    I/O and threads.  LDPC, polar and LTE coding and the signal processing of the
    PHY are SIMD code over large generated tables; the outputs of the LDPC encoder
    are arguments of NrRateMatching.v.  nr_get_R_ldpc_decoder, which chooses among
    the decoder's tables, computes in floating point; in NrTbs.v the comparisons
    of get_BG are those of the fractions and log2 is the integer part.  The UE manager of PDCP
    (with its threads, queues and tunnels), the creation of DTLS contexts and the
    sockets of the SCTP task are left.  In RlcManager.v the callbacks of a call run
    when its entity has done its work; none of them changes an entity or the table.
    It has the table of identifiers of F1apIds.v as a finite map, which F1apIds.v
    shows it to be.  The text that hashtable_dump_content prints is left.  Logging, tracing and performance counters
    have no effect on the state and are omitted from the functions that are
    modelled; so are the locks, since each operation runs under its lock. *)

From stdpp Require Export base gmap list sorting.
From Stdlib Require Export ZArith Lia.

#[export] Set Default Goal Selector "!".
Open Scope Z_scope.

(** ** Machine integers *)

(** [uint32_t] and [uint64_t] arithmetic wraps around. *)
Definition u32 (x : Z) : Z := x mod 2 ^ 32.
Definition u64 (x : Z) : Z := x mod 2 ^ 64.
Definition u8 (x : Z) : Z := x mod 256.
Definition u16 (x : Z) : Z := x mod 2 ^ 16.

Lemma u32_small x : 0 <= x < 2 ^ 32 -> u32 x = x.
Proof. apply Z.mod_small. Qed.

Lemma u32_range x : 0 <= u32 x < 2 ^ 32.
Proof. apply Z.mod_pos_bound. lia. Qed.

(** A [uint32_t] value read as an [int]. *)
Definition i32 (x : Z) : Z := if x <? 2 ^ 31 then x else x - 2 ^ 32.

(** C's [int] used as a truth value, and back. *)
Definition b2z (b : bool) : Z := if b then 1 else 0.
Definition z2b (x : Z) : bool := negb (x =? 0).

(** ** Outcomes of C code

    A C function either returns or ends the process: [exit(1)] and failed
    assertions, and the undefined behaviours the models keep visible. *)
Inductive fault : Type :=
| Exit                 (* exit(1), AssertFatal, DevAssert *)
| NullDeref            (* dereference of a null pointer *)
| OutOfBounds          (* access outside of an allocated object *)
| Dangling             (* use of a freed object, or a list end pointer that is
                          not an element of its list *)
| Uninit               (* read of memory that was not written *)
| Diverge.             (* the loop's fuel ran out *)

Inductive outcome (A : Type) : Type :=
| Ok (a : A)
| Fault (f : fault).
Arguments Ok {A} a.
Arguments Fault {A} f.

#[export] Instance fault_eq_dec : EqDecision fault.
Proof. solve_decision. Defined.
#[export] Instance outcome_eq_dec {A} `{EqDecision A} : EqDecision (outcome A).
Proof. solve_decision. Defined.

#[export] Instance outcome_ret : MRet outcome := fun A a => Ok a.
#[export] Instance outcome_bind : MBind outcome := fun A B k m =>
  match m with Ok a => k a | Fault f => Fault f end.

Definition of_option {A} (f : fault) (o : option A) : outcome A :=
  match o with Some a => Ok a | None => Fault f end.

(** [require c f]: the C code ends with fault [f] unless [c]. *)
Definition require (c : bool) (f : fault) : outcome unit :=
  if c then Ok tt else Fault f.

Lemma bind_Ok {A B} (k : A -> outcome B) (m : outcome A) b :
  mbind k m = Ok b <-> exists a, m = Ok a /\ k a = Ok b.
Proof. destruct m; cbn; naive_solver. Qed.

Lemma require_Ok c f u : require c f = Ok u <-> c = true.
Proof. destruct c, u; naive_solver. Qed.

Lemma of_option_Ok {A} f (o : option A) a : of_option f o = Ok a <-> o = Some a.
Proof. destruct o; naive_solver. Qed.

(** [for (i = lo; i < lo + n; i++) a = body(i, a)] *)
Fixpoint cfor {A} (n : nat) (lo : Z) (body : Z -> A -> outcome A) (a : A) : outcome A :=
  match n with
  | O => Ok a
  | S n => a ← body lo a; cfor n (lo + 1) body a
  end.

Lemma cfor_inv {A} (P : Z -> A -> Prop) n lo (body : Z -> A -> outcome A) a :
  P lo a ->
  (forall i b, lo <= i < lo + Z.of_nat n -> P i b -> exists b', body i b = Ok b' /\ P (i + 1) b') ->
  exists a', cfor n lo body a = Ok a' /\ P (lo + Z.of_nat n) a'.
Proof.
  revert lo a. induction n as [|n IH]; intros lo a Ha Hbody.
  - exists a. rewrite Z.add_0_r. done.
  - cbn [cfor]. destruct (Hbody lo a) as (b & -> & Hb); [lia|done|]. cbn [mbind outcome_bind].
    destruct (IH (lo + 1) b Hb) as (a' & -> & Ha').
    + intros i c Hi. apply Hbody. lia.
    + exists a'. split; [done|]. by replace (lo + Z.of_nat (S n)) with (lo + 1 + Z.of_nat n) by lia.
Qed.

(** ** Record update

    [r <| f := v |>] is the C assignment [r->f = v].  The updater of a field
    is derived from the eta expansion registered for the record. *)
Class RecordEta (R : Type) := record_eta : R -> R.
Class FieldUpdate {R T : Type} (p : R -> T) := field_update : (T -> T) -> R -> R.

Definition fld {R A B : Type} (mk : R -> A -> B) (p : R -> A) : R -> B :=
  fun r => mk r (p r).

Ltac derive_field_update :=
  lazymatch goal with
  | |- @FieldUpdate ?R ?T ?p =>
      let e := constr:(_ : RecordEta R) in
      let e := eval hnf in e in
      lazymatch eval pattern p in e with
      | ?g _ =>
          let body := constr:(fun (h : T -> T) => g (fun r => h (p r))) in
          let body := eval cbv beta iota delta [fld] in body in
          exact body
      end
  end.

#[export] Hint Extern 1 (FieldUpdate _) => derive_field_update : typeclass_instances.

Definition upd {R T : Type} (p : R -> T) {u : FieldUpdate p} (h : T -> T) : R -> R := u h.
Arguments upd : simpl never.

Declare Scope c_scope.
Delimit Scope c_scope with c.
Open Scope c_scope.

Notation "r <| p := v |>" := (upd p (fun _ => v) r)
  (at level 1, left associativity, p constr at level 0, v at level 200,
   format "r  <| p  :=  v |>") : c_scope.
Notation "r <| p ::= h |>" := (upd p h r)
  (at level 1, left associativity, p constr at level 0, h at level 200,
   format "r  <| p  ::=  h |>") : c_scope.

(** [field_simpl]: reads of an updated record. *)
(** A field of a record with a parameter (a class instance) is the projection
    applied to it; the files that have such records say which parameters. *)
Ltac is_param a := fail.
Ltac is_field p :=
  lazymatch p with
  | ?f ?a => is_param a; is_const f
  | _ => is_const p
  end;
  lazymatch type of p with
  | _ -> _ -> _ => fail
  | _ -> _ => idtac
  end.

(** The equation is stated for any record: comparing two updates of one record
    by conversion is exponential in their number. *)
Ltac field_eq p q u h :=
  lazymatch constr:((p, q)) with
  | (?f, ?f) => constr:((fun x => eq_refl (h (p x))) : forall x, p (@upd _ _ q u h x) = h (p x))
  | _ => constr:((fun x => eq_refl (p x)) : forall x, p (@upd _ _ q u h x) = p x)
  end.

Ltac field_step p q u h r :=
  is_field p;
  let E := field_eq p q u h in
  pattern (p (@upd _ _ q u h r)); refine (eq_ind_r _ _ (E r)); cbv beta.

Ltac field_step_in H p q u h r :=
  is_field p;
  let E := field_eq p q u h in
  pattern (p (@upd _ _ q u h r)) in H;
  lazymatch type of H with
  | ?P _ =>
      let H' := fresh in
      pose proof (eq_ind _ P H _ (E r)) as H'; clear H; rename H' into H; cbv beta in H
  end.

Ltac field_simpl :=
  repeat match goal with
  | |- context [ ?p (@upd _ _ ?q ?u ?h ?r) ] => field_step p q u h r
  end.

Ltac field_simpl_in H :=
  repeat match type of H with
  | context [ ?p (@upd _ _ ?q ?u ?h ?r) ] => field_step_in H p q u h r
  end.

Ltac field_simpl_all :=
  repeat match goal with
  | |- context [ ?p (@upd _ _ ?q ?u ?h ?r) ] => field_step p q u h r
  | H : context [ ?p (@upd _ _ ?q ?u ?h ?r) ] |- _ => field_step_in H p q u h r
  end.

(** ** Inversion of successful computations *)
Ltac bind_inv :=
  repeat match goal with
  | H : mbind _ _ = Ok _ |- _ =>
      apply bind_Ok in H; destruct H as (? & ? & H)
  | H : require _ _ = Ok _ |- _ => apply require_Ok in H
  | H : of_option _ _ = Ok _ |- _ => apply of_option_Ok in H
  | H : Ok _ = Ok _ |- _ => injection H as H
  | H : mret _ = Ok _ |- _ => injection H as H
  | H : Fault _ = Ok _ |- _ => discriminate H
  | H : (match ?x with _ => _ end) = Ok _ |- _ => destruct x eqn:?
  end.

(** The first step of the goal is the computation [H] is about, up to
    conversion. *)
Ltac bind_with H :=
  match goal with
  | |- context [mbind _ ?m] =>
      let E := fresh in
      assert (E : m = _) by exact H; rewrite E; clear E
  end; cbn [mbind outcome_bind].

(** Boolean tests of the code, as propositions. *)
Ltac zify_bool :=
  repeat match goal with
  | H : (_ <? _) = true |- _ => apply Z.ltb_lt in H
  | H : (_ <? _) = false |- _ => apply Z.ltb_ge in H
  | H : (_ <=? _) = true |- _ => apply Z.leb_le in H
  | H : (_ <=? _) = false |- _ => apply Z.leb_gt in H
  | H : (_ >? _) = true |- _ => rewrite Z.gtb_lt in H
  | H : (_ >? _) = false |- _ => rewrite Z.gtb_ltb in H; apply Z.ltb_ge in H
  | H : (_ >=? _) = true |- _ => rewrite Z.geb_le in H
  | H : (_ >=? _) = false |- _ => rewrite Z.geb_leb in H; apply Z.leb_gt in H
  | H : (_ =? _) = true |- _ => apply Z.eqb_eq in H
  | H : (_ =? _) = false |- _ => apply Z.eqb_neq in H
  | H : _ && _ = true |- _ => apply andb_true_iff in H; destruct H
  | H : _ || _ = false |- _ => apply orb_false_iff in H; destruct H
  | H : negb _ = true |- _ => apply negb_true_iff in H
  | H : negb _ = false |- _ => apply negb_false_iff in H
  end.

(** The first conditional of the goal, or of a hypothesis. *)
Ltac case_if :=
  match goal with
  | |- context [if ?b then _ else _] => destruct b eqn:?; zify_bool
  | _ : context [if ?b then _ else _] |- _ => destruct b eqn:?; zify_bool
  end.

(** ** Bytes and buffers *)

Definition is_byte (b : Z) : Prop := 0 <= b < 256.
Abbreviation bytes_ok := (Forall is_byte).

(** Length of a buffer, as the [int] the code carries along. *)
Definition zlen {A} (l : list A) : Z := Z.of_nat (length l).

(** [buf[i]], [None] out of range. *)
Definition zget {A} (l : list A) (i : Z) : option A :=
  if 0 <=? i then l !! Z.to_nat i else None.

(** [buf[i] = x], [None] out of range. *)
Definition zset {A} (l : list A) (i : Z) (x : A) : option (list A) :=
  if (0 <=? i) && (i <? zlen l) then Some (<[Z.to_nat i := x]> l) else None.

(** The [len] bytes at [buf + off], [None] when one of them is outside. *)
Definition zslice {A} (l : list A) (off len : Z) : option (list A) :=
  if (0 <=? off) && (0 <=? len) && (off + len <=? zlen l)
  then Some (take (Z.to_nat len) (drop (Z.to_nat off) l)) else None.

(** [memcpy(buf + off, src, |src|)], [None] when it would overflow. *)
Definition zblit {A} (l : list A) (off : Z) (src : list A) : option (list A) :=
  if (0 <=? off) && (off + zlen src <=? zlen l)
  then Some (take (Z.to_nat off) l ++ src ++ drop (Z.to_nat off + length src) l)
  else None.

Lemma zlen_nonneg {A} (l : list A) : 0 <= zlen l.
Proof. unfold zlen. lia. Qed.

Lemma zlen_nil {A} : zlen (@nil A) = 0.
Proof. reflexivity. Qed.

Lemma zlen_cons {A} (x : A) l : zlen (x :: l) = zlen l + 1.
Proof. unfold zlen. cbn [length]. lia. Qed.

Lemma zlen_app {A} (l1 l2 : list A) : zlen (l1 ++ l2) = zlen l1 + zlen l2.
Proof. unfold zlen. rewrite length_app. lia. Qed.

Lemma zlen_take {A} n (l : list A) : 0 <= n <= zlen l -> zlen (take (Z.to_nat n) l) = n.
Proof. unfold zlen. intros. rewrite length_take. lia. Qed.

Lemma zlen_drop {A} n (l : list A) : 0 <= n <= zlen l -> zlen (drop (Z.to_nat n) l) = zlen l - n.
Proof. unfold zlen. intros. rewrite length_drop. lia. Qed.

Lemma firstn_split {A} (l : list A) n : 0 <= n <= zlen l -> exists l1 l2, l = l1 ++ l2 /\ zlen l1 = n.
Proof.
  intros Hn. exists (take (Z.to_nat n) l), (drop (Z.to_nat n) l). rewrite take_drop, zlen_take by done. done.
Qed.

Lemma zslice_Some {A} (l : list A) off len s :
  zslice l off len = Some s <->
  0 <= off /\ 0 <= len /\ off + len <= zlen l /\
  s = take (Z.to_nat len) (drop (Z.to_nat off) l).
Proof.
  unfold zslice. destruct (_ && _) eqn:E.
  - rewrite !andb_true_iff, !Z.leb_le in E. naive_solver.
  - split; [done|]. intros (?&?&?&?).
    assert ((0 <=? off) && (0 <=? len) && (off + len <=? zlen l) = true); [|congruence].
    rewrite !andb_true_iff, !Z.leb_le. lia.
Qed.

Lemma zslice_ok {A} (l : list A) off len :
  0 <= off -> 0 <= len -> off + len <= zlen l ->
  zslice l off len = Some (take (Z.to_nat len) (drop (Z.to_nat off) l)).
Proof. intros. by apply zslice_Some. Qed.

Lemma zslice_len {A} (l : list A) off len s : zslice l off len = Some s -> zlen s = len.
Proof.
  rewrite zslice_Some. intros (?&?&?&->). unfold zlen in *.
  rewrite length_take, length_drop. lia.
Qed.

Lemma zslice_app {A} (l : list A) off n m s t :
  zslice l off n = Some s -> zslice l (off + n) m = Some t ->
  zslice l off (n + m) = Some (s ++ t).
Proof.
  rewrite !zslice_Some. intros (?&?&?&->) (?&?&?&->).
  split_and!; try lia.
  rewrite (Z2Nat.inj_add n m), (Z2Nat.inj_add off n) by lia.
  rewrite <- drop_drop. by rewrite take_take_drop.
Qed.

Lemma zslice_all {A} (l : list A) : zslice l 0 (zlen l) = Some l.
Proof.
  apply zslice_Some. pose proof (zlen_nonneg l). split_and!; try lia.
  unfold zlen. rewrite Nat2Z.id. change (Z.to_nat 0) with 0%nat.
  by rewrite drop_0, firstn_all.
Qed.

(** A slice of a slice. *)
Lemma zslice_zslice {A} (l s : list A) o n o' n' :
  zslice l o n = Some s -> 0 <= o' -> 0 <= n' -> o' + n' <= n ->
  zslice s o' n' = zslice l (o + o') n'.
Proof.
  intros Hs ???. pose proof (zslice_len _ _ _ _ Hs) as Hl.
  apply zslice_Some in Hs as (?&?&?&->).
  rewrite (zslice_ok l) by lia. rewrite zslice_ok; [|lia..].
  f_equal. rewrite Z2Nat.inj_add by lia.
  rewrite skipn_firstn_comm, take_take, drop_drop.
  f_equal. lia.
Qed.

Lemma zslice_app_r {A} (l1 l2 : list A) len :
  len = zlen l2 -> zslice (l1 ++ l2) (zlen l1) len = Some l2.
Proof.
  intros ->. apply zslice_Some.
  pose proof (zlen_nonneg l1). pose proof (zlen_nonneg l2).
  rewrite zlen_app. split_and!; try lia.
  unfold zlen. rewrite !Nat2Z.id, drop_app_length, firstn_all. done.
Qed.

Lemma zslice_mid {A} (a b c : list A) off len :
  off = zlen a -> len = zlen b -> zslice (a ++ b ++ c) off len = Some b.
Proof.
  intros -> ->. apply zslice_Some. pose proof (zlen_nonneg a). pose proof (zlen_nonneg b).
  pose proof (zlen_nonneg c). rewrite !zlen_app. split_and!; try lia.
  unfold zlen. rewrite !Nat2Z.id, drop_app_length, take_app_length. done.
Qed.

Lemma zlen_fmap {A B} (f : A -> B) l : zlen (f <$> l) = zlen l.
Proof. unfold zlen. by rewrite length_fmap. Qed.

Lemma zget_Some {A} (l : list A) i x :
  zget l i = Some x <-> 0 <= i < zlen l /\ l !! Z.to_nat i = Some x.
Proof.
  unfold zget, zlen. destruct (0 <=? i) eqn:E; zify_bool; [|naive_solver lia].
  split; [|naive_solver]. intros H. pose proof (lookup_lt_Some _ _ _ H). split; [lia|done].
Qed.

Lemma zget_ok {A} (l : list A) i : 0 <= i < zlen l -> is_Some (zget l i).
Proof.
  intros H. unfold zget, zlen in *. destruct (0 <=? i) eqn:E; zify_bool; [|lia].
  apply lookup_lt_is_Some. lia.
Qed.

Lemma zset_ok {A} (l : list A) i x :
  0 <= i < zlen l -> zset l i x = Some (<[Z.to_nat i := x]> l).
Proof.
  intros H. unfold zset. destruct (_ && _) eqn:E; [done|].
  apply andb_false_iff in E as [E|E]; zify_bool; lia.
Qed.

Lemma zset_Some {A} (l : list A) i x l' :
  zset l i x = Some l' -> 0 <= i < zlen l /\ l' = <[Z.to_nat i := x]> l.
Proof. unfold zset. destruct (_ && _) eqn:E; [|done]. zify_bool. naive_solver. Qed.

Lemma zset_len {A} (l : list A) i x l' : zset l i x = Some l' -> zlen l' = zlen l.
Proof. intros [_ ->]%zset_Some. unfold zlen. by rewrite length_insert. Qed.

Lemma zblit_Some {A} (l : list A) off src l' :
  zblit l off src = Some l' <->
  0 <= off /\ off + zlen src <= zlen l /\
  l' = take (Z.to_nat off) l ++ src ++ drop (Z.to_nat off + length src) l.
Proof.
  unfold zblit. destruct (_ && _) eqn:E; zify_bool; [naive_solver|].
  split; [done|]. intros (?&?&?). apply andb_false_iff in E as [E|E]; zify_bool; lia.
Qed.

Lemma zblit_len {A} (l : list A) off src l' : zblit l off src = Some l' -> zlen l' = zlen l.
Proof.
  rewrite zblit_Some. intros (?&?&->). unfold zlen in *.
  rewrite !length_app, length_take, length_drop. lia.
Qed.

Lemma zblit_ok {A} (l : list A) off src :
  0 <= off -> off + zlen src <= zlen l ->
  zblit l off src = Some (take (Z.to_nat off) l ++ src ++ drop (Z.to_nat off + length src) l).
Proof. intros. by apply zblit_Some. Qed.

(** The prefix up to the end of what was copied. *)
Lemma zblit_prefix {A} (l : list A) off src l' :
  zblit l off src = Some l' ->
  take (Z.to_nat (off + zlen src)) l' = take (Z.to_nat off) l ++ src.
Proof.
  rewrite zblit_Some. intros (?&?&->). unfold zlen in *.
  rewrite app_assoc, take_app_le.
  - rewrite take_ge; [done|]. rewrite length_app, length_take. lia.
  - rewrite length_app, length_take. lia.
Qed.

(** ** Sums over lists *)
Definition zsum {A} (f : A -> Z) (l : list A) : Z := foldr (fun x s => f x + s) 0 l.

Lemma zsum_nil {A} (f : A -> Z) : zsum f [] = 0.
Proof. reflexivity. Qed.

Lemma zsum_cons {A} (f : A -> Z) x l : zsum f (x :: l) = f x + zsum f l.
Proof. reflexivity. Qed.

Lemma zsum_app {A} (f : A -> Z) l1 l2 : zsum f (l1 ++ l2) = zsum f l1 + zsum f l2.
Proof. induction l1 as [|x l1 IH]; cbn; [done|]. unfold zsum in *. lia. Qed.

Lemma zsum_nonneg {A} (f : A -> Z) l : (forall x, x ∈ l -> 0 <= f x) -> 0 <= zsum f l.
Proof.
  induction l as [|x l IH]; intros H; [done|]. rewrite zsum_cons.
  pose proof (H x). specialize (IH (fun y Hy => H y ltac:(set_solver))).
  assert (0 <= f x) by (apply H; set_solver). lia.
Qed.

Lemma zsum_ext {A} (f g : A -> Z) l : (forall x, x ∈ l -> f x = g x) -> zsum f l = zsum g l.
Proof.
  induction l as [|x l IH]; intros H; [done|]. rewrite !zsum_cons.
  rewrite (H x), IH; set_solver.
Qed.

#[export] Instance zsum_perm {A} (f : A -> Z) : Proper ((≡ₚ) ==> (=)) (zsum f).
Proof. induction 1; rewrite ?zsum_cons; try congruence. lia. Qed.

(** ** Bits *)

Lemma testbit_land_ones x k n : 0 <= k -> 0 <= n ->
  Z.testbit (Z.land x (Z.ones k)) n = (n <? k) && Z.testbit x n.
Proof.
  intros Hk Hn. rewrite Z.land_spec, Z.testbit_ones_nonneg by lia. apply andb_comm.
Qed.

Lemma testbit_land_255 x n : 0 <= n -> Z.testbit (Z.land x 255) n = (n <? 8) && Z.testbit x n.
Proof. intros Hn. change 255 with (Z.ones 8). by apply testbit_land_ones. Qed.

Lemma testbit_byte b n : is_byte b -> 8 <= n -> Z.testbit b n = false.
Proof.
  intros Hb Hn. apply Z.testbit_false; [lia|]. rewrite Z.div_small; [done|].
  split; [apply Hb|]. unfold is_byte in Hb. assert (2 ^ 8 <= 2 ^ n) by (apply Z.pow_le_mono_r; lia). lia.
Qed.

Lemma land_255_byte x : is_byte (Z.land x 255).
Proof.
  change 255 with (Z.ones 8). rewrite Z.land_ones by lia. apply Z.mod_pos_bound. lia.
Qed.

Lemma byte_of_bits x : 0 <= x -> (forall n, 8 <= n -> Z.testbit x n = false) -> is_byte x.
Proof.
  intros Hx H. assert (E : x = Z.land x 255); [|rewrite E; apply land_255_byte].
  apply Z.bits_inj'. intros n Hn. rewrite testbit_land_255 by done.
  destruct (n <? 8) eqn:E; zify_bool; [done|]. rewrite H by lia. done.
Qed.

Lemma lxor_is_byte a b : is_byte a -> is_byte b -> is_byte (Z.lxor a b).
Proof.
  intros Ha Hb. apply byte_of_bits; [apply Z.lxor_nonneg; unfold is_byte in *; lia|].
  intros n Hn. by rewrite Z.lxor_spec, !testbit_byte.
Qed.

(** [lxor] is associative and commutative. *)
Ltac lxor_solve :=
  apply Z.bits_inj'; intros ? ?; rewrite ?Z.lxor_spec, ?Z.bits_0;
  repeat match goal with |- context [Z.testbit ?x ?n] => destruct (Z.testbit x n) end; reflexivity.

Lemma range_bits n x : 0 <= n -> 0 <= x < 2 ^ n <-> (0 <= x /\ forall m, n <= m -> Z.testbit x m = false).
Proof.
  intros Hn. split.
  - intros Hx. split; [lia|]. intros m Hm. rewrite <- (Z.mod_small x (2 ^ n)) by done.
    apply Z.mod_pow2_bits_high. lia.
  - intros [Hx Hb]. assert (E : x = x mod 2 ^ n); [|rewrite E; apply Z.mod_pos_bound; lia].
    apply Z.bits_inj'. intros m Hm. destruct (Z.lt_ge_cases m n).
    + by rewrite Z.mod_pow2_bits_low by lia.
    + by rewrite Z.mod_pow2_bits_high, Hb by lia.
Qed.

Lemma lxor_range n x y : 0 <= n -> 0 <= x < 2 ^ n -> 0 <= y < 2 ^ n -> 0 <= Z.lxor x y < 2 ^ n.
Proof.
  intros Hn Hx Hy. apply range_bits in Hx as [Hx Hx'], Hy as [Hy Hy']; [|done..].
  apply range_bits; [done|]. split; [by apply Z.lxor_nonneg|].
  intros m Hm. by rewrite Z.lxor_spec, Hx', Hy'.
Qed.

(** ** Modular arithmetic on sequence numbers *)
Lemma mod_sub_cases a b m :
  0 <= a < m -> 0 <= b < m -> (a - b) mod m = if a <? b then a - b + m else a - b.
Proof.
  intros. destruct (a <? b) eqn:E; zify_bool.
  - symmetry. apply Z.mod_unique with (-1); lia.
  - apply Z.mod_small. lia.
Qed.

Lemma mod_succ a m : 0 <= a < m -> (a + 1) mod m = if a + 1 =? m then 0 else a + 1.
Proof.
  intros. destruct (a + 1 =? m) eqn:E; zify_bool.
  - rewrite E. apply Z.mod_same. lia.
  - apply Z.mod_small. lia.
Qed.

Lemma mod_add_cases a b m :
  0 <= a < m -> 0 <= b <= m -> (a + b) mod m = if a + b <? m then a + b else a + b - m.
Proof.
  intros. destruct (a + b <? m) eqn:E; zify_bool.
  - apply Z.mod_small. lia.
  - symmetry. apply Z.mod_unique with 1; lia.
Qed.

Create HintDb qran discriminated.
Create Rewrite HintDb qranr.
#[export] Hint Resolve zlen_nonneg : qran.
#[export] Hint Rewrite @zlen_nil @zlen_cons @zlen_app @zsum_nil @zsum_cons @zsum_app : qranr.

(** Lengths and sums, then linear arithmetic. *)
Ltac zsolve := autorewrite with qranr in *; zify_bool; try lia.
