(* ===== verification/SecuSnow3g.v ===== *)
(** * SNOW 3G (openair3/SECU/snow3g.c): ciphering and integrity

    The stream cipher and the MAC behind NEA1/NIA1 (and EEA1/EIA1): the
    feedback shift register kept in an array twice its size, over which a
    pointer slides, the finite state machine, the initialisation, the keystream,
    and the polynomial evaluation with its precomputed table. *)

From S2P Require Import Prelude SecuSnow3gTables.

(** [htonl], seen as bytes. *)
Definition word_bytes (w : Z) : list Z :=
  [Z.land (Z.shiftr w 24) 255; Z.land (Z.shiftr w 16) 255; Z.land (Z.shiftr w 8) 255; Z.land w 255].

Definition table (t : list Z) (i : Z) : outcome Z := of_option OutOfBounds (zget t i).

Definition s1 (w : Z) : outcome Z :=
  let w0 := Z.land (Z.shiftr w 24) 255 in
  let w1 := Z.land (Z.shiftr w 16) 255 in
  let w2 := Z.land (Z.shiftr w 8) 255 in
  let w3 := Z.land w 255 in
  a ← table s1_t0 w3; b ← table s1_t1 w2; c ← table s1_t2 w1; d ← table s1_t3 w0;
  Ok (Z.lxor (Z.lxor (Z.lxor a b) c) d).

Definition s2 (w : Z) : outcome Z :=
  let w0 := Z.land (Z.shiftr w 24) 255 in
  let w1 := Z.land (Z.shiftr w 16) 255 in
  let w2 := Z.land (Z.shiftr w 8) 255 in
  let w3 := Z.land w 255 in
  a ← table s2_t0 w3; b ← table s2_t1 w2; c ← table s2_t2 w1; d ← table s2_t3 w0;
  Ok (Z.lxor (Z.lxor (Z.lxor a b) c) d).

Definition MULa (c : Z) : outcome Z := table mula c.
Definition DIVa (c : Z) : outcome Z := table diva c.

(** ** State *)

Record snow3g_t := mk_snow3g {
  sn_array : list (option Z);    (* _s, None where it was not written *)
  sn_s : Z;                      (* the index of s in _s *)
  sn_r1 : Z;
  sn_r2 : Z;
  sn_r3 : Z;
}.
#[export] Instance eta_snow3g : RecordEta snow3g_t :=
  fld (fld (fld (fld (fld (fun _ => mk_snow3g) sn_array) sn_s) sn_r1) sn_r2) sn_r3.

(** [s->s[i]] *)
Definition sn_get (s : snow3g_t) (i : Z) : outcome Z :=
  o ← of_option OutOfBounds (zget (sn_array s) (sn_s s + i));
  of_option Uninit o.

(** [s->s[i] = v] *)
Definition sn_set (s : snow3g_t) (i v : Z) : outcome snow3g_t :=
  l ← of_option OutOfBounds (zset (sn_array s) (sn_s s + i) (Some v));
  Ok (s <| sn_array := l |>).

(** The new word of the shift register, without [f]. *)
Definition lfsr_word (s : snow3g_t) : outcome Z :=
  s0 ← sn_get s 0;
  s11 ← sn_get s 11;
  s2 ← sn_get s 2;
  let s0_0 := Z.land (Z.shiftr s0 24) 255 in
  let s0_1 := Z.land (Z.shiftr s0 16) 255 in
  let s0_2 := Z.land (Z.shiftr s0 8) 255 in
  let s0_3 := Z.land s0 255 in
  let s11_0 := Z.land (Z.shiftr s11 24) 255 in
  let s11_1 := Z.land (Z.shiftr s11 16) 255 in
  let s11_2 := Z.land (Z.shiftr s11 8) 255 in
  let s11_3 := Z.land s11 255 in
  let v0 := Z.lor (Z.lor (Z.shiftl s0_1 24) (Z.shiftl s0_2 16)) (Z.shiftl s0_3 8) in
  let v11 := Z.lor (Z.lor (Z.shiftl s11_0 16) (Z.shiftl s11_1 8)) s11_2 in
  m ← MULa s0_0;
  d ← DIVa s11_3;
  Ok (Z.lxor (Z.lxor (Z.lxor (Z.lxor v0 m) s2) v11) d).

(** [v] enters the register: it is written twice, and the pointer slides. *)
Definition lfsr_shift (s : snow3g_t) (v : Z) : outcome snow3g_t :=
  s ← sn_set s 0 v;
  s ← sn_set s 16 v;
  let s := s <| sn_s := sn_s s + 1 |> in
  Ok (if sn_s s =? 16 then s <| sn_s := 0 |> else s).

Definition lfsr_init (s : snow3g_t) (f : Z) : outcome snow3g_t :=
  v ← lfsr_word s; lfsr_shift s (Z.lxor v f).

Definition lfsr_keystream (s : snow3g_t) : outcome snow3g_t :=
  v ← lfsr_word s; lfsr_shift s v.

Definition clock_fsm (s : snow3g_t) : outcome (Z * snow3g_t) :=
  s15 ← sn_get s 15;
  s5 ← sn_get s 5;
  let f := Z.lxor (u32 (s15 + sn_r1 s)) (sn_r2 s) in
  let r := u32 (sn_r2 s + Z.lxor (sn_r3 s) s5) in
  r3 ← s2 (sn_r2 s);
  r2 ← s1 (sn_r1 s);
  Ok (f, s <| sn_r3 := r3 |> <| sn_r2 := r2 |> <| sn_r1 := r |>).

Definition GET32 (b : list Z) (off : Z) : outcome Z :=
  b0 ← of_option OutOfBounds (zget b off);
  b1 ← of_option OutOfBounds (zget b (off + 1));
  b2 ← of_option OutOfBounds (zget b (off + 2));
  b3 ← of_option OutOfBounds (zget b (off + 3));
  Ok (Z.lor (Z.lor (Z.lor (Z.shiftl b0 24) (Z.shiftl b1 16)) (Z.shiftl b2 8)) b3).

(** The sixteen words the register starts with. *)
Definition snow3g_start (k0 k1 k2 k3 iv0 iv1 iv2 iv3 : Z) : list Z :=
  let m := 0xffffffff in
  [Z.lxor k0 m; Z.lxor k1 m; Z.lxor k2 m; Z.lxor k3 m; k0; k1; k2; k3;
   Z.lxor k0 m; Z.lxor (Z.lxor k1 m) iv3; Z.lxor (Z.lxor k2 m) iv2; Z.lxor k3 m;
   Z.lxor k0 iv1; k1; k2; Z.lxor k3 iv0].

Definition init_round (s : snow3g_t) : outcome snow3g_t :=
  '(f, s) ← clock_fsm s; lfsr_init s f.

Definition snow3g_init (k iv : list Z) : outcome snow3g_t :=
  k0 ← GET32 k 0; k1 ← GET32 k 4; k2 ← GET32 k 8; k3 ← GET32 k 12;
  iv0 ← GET32 iv 0; iv1 ← GET32 iv 4; iv2 ← GET32 iv 8; iv3 ← GET32 iv 12;
  let s := mk_snow3g ((Some <$> snow3g_start k0 k1 k2 k3 iv0 iv1 iv2 iv3) ++ replicate 16 None) 0 0 0 0 in
  s ← cfor 32 0 (fun _ => init_round) s;
  (* start keystream generation *)
  '(_, s) ← clock_fsm s;
  lfsr_keystream s.

Definition generate_keystream_step (s : snow3g_t) : outcome (Z * snow3g_t) :=
  '(f, s) ← clock_fsm s;
  s0 ← sn_get s 0;
  s ← lfsr_keystream s;
  Ok (Z.lxor f s0, s).

(** [n] words of the keystream. *)
Fixpoint generate_keystream (n : nat) (s : snow3g_t) : outcome (list Z) :=
  match n with
  | O => Ok []
  | S n =>
      '(z, s) ← generate_keystream_step s;
      l ← generate_keystream n s;
      Ok (z :: l)
  end.

(** The key with its words in reverse order. *)
Definition key_words (key : list Z) : outcome (list Z) :=
  mapM (fun i => of_option OutOfBounds (zget key i)) [12; 13; 14; 15; 8; 9; 10; 11; 4; 5; 6; 7; 0; 1; 2; 3].

Definition ciphering_iv (count bearer direction : Z) : list Z :=
  let b := Z.land (Z.lor (Z.shiftl bearer 3) (Z.shiftl direction 2)) 255 in
  [b; 0; 0; 0] ++ word_bytes count ++ [b; 0; 0; 0] ++ word_bytes count.

Definition snow3g_ciphering (count bearer direction : Z) (key : list Z) (length : Z) (input : list Z)
    : outcome (list Z) :=
  k ← key_words key;
  s ← snow3g_init k (ciphering_iv count bearer direction);
  words ← generate_keystream (Z.to_nat ((length + 3) / 4)) s;
  let keystream := words ≫= word_bytes in
  input ← of_option OutOfBounds (zslice input 0 length);
  keystream ← of_option OutOfBounds (zslice keystream 0 length);
  Ok (zip_with Z.lxor input keystream).

(** ** Integrity *)

(** Up to eight bytes, big endian; the missing ones are zero. *)
Definition get64_byte (p : list Z) (off : Z) (available_bytes i : Z) : outcome Z :=
  if (1 <=? available_bytes) && (available_bytes <=? 8) && (i <? available_bytes)
  then of_option OutOfBounds (zget p (off + i)) else Ok 0.

Definition GET64 (p : list Z) (off available_bytes : Z) : outcome Z :=
  a ← get64_byte p off available_bytes 0; b ← get64_byte p off available_bytes 1;
  c ← get64_byte p off available_bytes 2; d ← get64_byte p off available_bytes 3;
  e ← get64_byte p off available_bytes 4; f ← get64_byte p off available_bytes 5;
  g ← get64_byte p off available_bytes 6; h ← get64_byte p off available_bytes 7;
  Ok (Z.lor (Z.lor (Z.lor (Z.lor (Z.lor (Z.lor (Z.lor (Z.shiftl a (32 + 24)) (Z.shiftl b (32 + 16)))
      (Z.shiftl c (32 + 8))) (Z.shiftl d 32)) (Z.shiftl e 24)) (Z.shiftl f 16)) (Z.shiftl g 8)) h).

Definition MULx64 (v c : Z) : Z :=
  if z2b (Z.land v (Z.shiftl 1 63)) then Z.lxor (u64 (Z.shiftl v 1)) c else u64 (Z.shiftl v 1).

Fixpoint MULxPOW64 (v : Z) (i : nat) (c : Z) : Z :=
  match i with
  | O => v
  | S i => MULx64 (MULxPOW64 v i c) c
  end.

Definition MUL64 (v p c : Z) : Z :=
  foldl (fun result i =>
      if z2b (Z.land (Z.shiftr p (Z.of_nat i)) 1) then Z.lxor result (MULxPOW64 v i c) else result)
    0 (seq 0 64).

(** [uint64_t pm[8][256]], not initialised. *)
Abbreviation pm_t := (gmap (Z * Z) Z).

Definition pm_get (pm : pm_t) (i x : Z) : outcome Z :=
  _ ← require ((0 <=? i) && (i <? 8) && (0 <=? x) && (x <? 256)) OutOfBounds;
  of_option Uninit (pm !! (i, x)).

Definition pm_set (pm : pm_t) (i x v : Z) : outcome pm_t :=
  _ ← require ((0 <=? i) && (i <? 8) && (0 <=? x) && (x <? 256)) OutOfBounds;
  Ok (<[(i, x) := v]> pm).

Definition pm_power (i : Z) (pm : pm_t) : outcome pm_t :=
  prev ← pm_get pm (Z.shiftr (i - 1) 3) (Z.shiftl 1 (Z.land (i - 1) 7));
  pm ← pm_set pm (Z.shiftr i 3) (Z.shiftl 1 (Z.land i 7)) (u64 (Z.shiftl prev 1));
  if z2b (Z.land prev 0x8000000000000000) then
    v ← pm_get pm (Z.shiftr i 3) (Z.shiftl 1 (Z.land i 7));
    pm_set pm (Z.shiftr i 3) (Z.shiftl 1 (Z.land i 7)) (Z.lxor v 0x1b)
  else Ok pm.

Definition pm_sum (i j k : Z) (pm : pm_t) : outcome pm_t :=
  a ← pm_get pm i (Z.shiftl 1 j);
  b ← pm_get pm i k;
  pm_set pm i (Z.shiftl 1 j + k) (Z.lxor a b).

(** The precomputation table of the multiplication by [p]. *)
Definition pm_table (p : Z) : outcome pm_t :=
  pm ← cfor 8 0 (fun i pm => pm_set pm i 0 0) ∅;
  pm ← pm_set pm 0 1 p;
  pm ← cfor 63 1 pm_power pm;
  cfor 8 0 (fun i => cfor 7 1 (fun j => cfor (Z.to_nat (Z.shiftl 1 j - 1)) 1 (pm_sum i j))) pm.

Definition mul_p (pm : pm_t) (x : Z) : outcome Z :=
  let x0 := Z.land (Z.shiftr x (32 + 24)) 255 in
  let x1 := Z.land (Z.shiftr x (32 + 16)) 255 in
  let x2 := Z.land (Z.shiftr x (32 + 8)) 255 in
  let x3 := Z.land (Z.shiftr x 32) 255 in
  let x4 := Z.land (Z.shiftr x 24) 255 in
  let x5 := Z.land (Z.shiftr x 16) 255 in
  let x6 := Z.land (Z.shiftr x 8) 255 in
  let x7 := Z.land x 255 in
  a ← pm_get pm 0 x7; b ← pm_get pm 1 x6; c ← pm_get pm 2 x5; d ← pm_get pm 3 x4;
  e ← pm_get pm 4 x3; f ← pm_get pm 5 x2; g ← pm_get pm 6 x1; h ← pm_get pm 7 x0;
  Ok (Z.lxor (Z.lxor (Z.lxor (Z.lxor (Z.lxor (Z.lxor (Z.lxor a b) c) d) e) f) g) h).

Definition integrity_iv (count fresh direction : Z) : list Z :=
  let d := Z.shiftl (Z.land direction 1) 7 in
  [Z.land (Z.shiftr fresh 24) 255; Z.land (Z.shiftr fresh 16) 255;
   Z.lxor (Z.land (Z.shiftr fresh 8) 255) d; Z.land fresh 255;
   Z.lxor (Z.land (Z.shiftr count 24) 255) d; Z.land (Z.shiftr count 16) 255;
   Z.land (Z.shiftr count 8) 255; Z.land count 255] ++ word_bytes fresh ++ word_bytes count.

Definition integrity_eval (pm : pm_t) (input : list Z) (length : Z) : outcome Z :=
  let d := Z.quot (length * 8 + 63) 64 + 1 in
  eval ← cfor (Z.to_nat (d - 2)) 0
    (fun i eval => m ← GET64 input (i * 8) 8; mul_p pm (Z.lxor eval m)) 0;
  m ← GET64 input ((d - 2) * 8) (Z.min 8 (length - (d - 2) * 8));
  mul_p pm (Z.lxor eval m).

Definition _snow3g_integrity (count fresh direction : Z) (key : list Z) (length : Z) (input : list Z)
    : outcome (list Z) :=
  k ← key_words key;
  s ← snow3g_init k (integrity_iv count fresh direction);
  z ← generate_keystream 5 s;
  match z with
  | [z0; z1; z2; z3; z4] =>
      let p := Z.lor (Z.shiftl z0 32) z1 in
      let q := Z.lor (Z.shiftl z2 32) z3 in
      pm ← pm_table p;
      eval ← integrity_eval pm input length;
      let eval := Z.lxor eval (u64 (length * 8)) in
      let eval := MUL64 eval q 0x1b in
      let eval := Z.lxor (Z.shiftr eval 32) z4 in
      Ok (word_bytes eval)
  | _ => Fault OutOfBounds
  end.

Definition snow3g_integrity (count bearer direction : Z) (key : list Z) (length : Z) (input : list Z)
    : outcome (list Z) :=
  _snow3g_integrity count (u32 (Z.shiftl bearer 27)) direction key length input.
