(* ===== verification/SecuSnow3gSpec.v ===== *)
(** * SNOW 3G: the specification

    The cipher as ETSI/SAGE specifies it, without tables and with a shift
    register that moves: bytes are polynomials over GF(2), S1 is built from the
    Rijndael S-box (inversion and an affine map) and S2 from a Dickson
    polynomial, alpha is a root of the feedback polynomial.  The tables of
    SecuSnow3gTables.v are checked against these definitions. *)

From S2P Require Import Prelude SecuSnow3gTables SecuSnow3g.

(** ** Bytes as polynomials *)

Definition MULx (v c : Z) : Z :=
  if Z.testbit v 7 then Z.lxor (Z.land (Z.shiftl v 1) 255) c else Z.land (Z.shiftl v 1) 255.

Fixpoint MULxPOW (v : Z) (i : nat) (c : Z) : Z :=
  match i with O => v | S i => MULx (MULxPOW v i c) c end.

(** The product modulo x^8 + c. *)
Definition gf_mul (a b c : Z) : Z :=
  foldr (fun i s => if Z.testbit b (Z.of_nat i) then Z.lxor (MULxPOW a i c) s else s) 0 (seq 0 8).

Fixpoint gf_pow (a : Z) (n : positive) (c : Z) : Z :=
  match n with
  | xH => a
  | xO n => let b := gf_pow a n c in gf_mul b b c
  | xI n => let b := gf_pow a n c in gf_mul a (gf_mul b b c) c
  end.

(** ** S-boxes *)

Definition rotl8 (x : Z) (n : Z) : Z := Z.lor (Z.land (Z.shiftl x n) 255) (Z.shiftr x (8 - n)).

(** The Rijndael S-box: the inverse (x^254) modulo x^8 + x^4 + x^3 + x + 1, then
    an affine map. *)
Definition SR (x : Z) : Z :=
  let y := gf_pow x 254 0x1b in
  foldr Z.lxor 0x63 [y; rotl8 y 1; rotl8 y 2; rotl8 y 3; rotl8 y 4].

(** The Dickson polynomial of degree 49 modulo x^8 + x^6 + x^5 + x^3 + 1. *)
Definition SQ (x : Z) : Z :=
  foldr (fun n s => Z.lxor (gf_pow x n 0x69) s) 0x25 [1; 9; 13; 15; 33; 41; 45; 47; 49]%positive.

Definition word (b0 b1 b2 b3 : Z) : Z :=
  Z.lor (Z.lor (Z.lor (Z.shiftl b0 24) (Z.shiftl b1 16)) (Z.shiftl b2 8)) b3.

Definition byte (w : Z) (i : Z) : Z := Z.land (Z.shiftr w (24 - 8 * i)) 255.

(** S1 with [S] the Rijndael S-box and [c] = 0x1b, S2 with SQ and 0x69. *)
Definition mix (S : Z -> Z) (c w : Z) : Z :=
  let a0 := S (byte w 0) in let a1 := S (byte w 1) in
  let a2 := S (byte w 2) in let a3 := S (byte w 3) in
  word (Z.lxor (Z.lxor (Z.lxor (MULx a0 c) a1) a2) (Z.lxor (MULx a3 c) a3))
       (Z.lxor (Z.lxor (Z.lxor (Z.lxor (MULx a0 c) a0) (MULx a1 c)) a2) a3)
       (Z.lxor (Z.lxor (Z.lxor a0 (Z.lxor (MULx a1 c) a1)) (MULx a2 c)) a3)
       (Z.lxor (Z.lxor (Z.lxor a0 a1) (Z.lxor (MULx a2 c) a2)) (MULx a3 c)).

Definition S1 : Z -> Z := mix SR 0x1b.
Definition S2 : Z -> Z := mix SQ 0x69.

Definition MULalpha (c : Z) : Z :=
  word (MULxPOW c 23 0xA9) (MULxPOW c 245 0xA9) (MULxPOW c 48 0xA9) (MULxPOW c 239 0xA9).
Definition DIValpha (c : Z) : Z :=
  word (MULxPOW c 16 0xA9) (MULxPOW c 39 0xA9) (MULxPOW c 6 0xA9) (MULxPOW c 64 0xA9).

(** ** The tables *)

(** The columns of the MixColumn matrix, one for each byte of the word. *)
Definition column (c i a : Z) : Z :=
  let m := MULx a c in let n := Z.lxor m a in
  if i =? 3 then word n a a m else if i =? 2 then word a a m n
  else if i =? 1 then word a m n a else word m n a a.

Definition bytes : list Z := Z.of_nat <$> seq 0 256.

Definition agrees (t : list Z) (x v : Z) : bool :=
  match zget t x with Some v' => v' =? v | None => false end.

Definition sbox_tables (S : Z -> Z) (c : Z) (t0 t1 t2 t3 : list Z) : bool :=
  forallb (fun x => let a := S x in
      (0 <=? a) && (a <? 256) &&
      agrees t0 x (column c 3 a) && agrees t1 x (column c 2 a) &&
      agrees t2 x (column c 1 a) && agrees t3 x (column c 0 a)) bytes.

Lemma s1_tables_ok : sbox_tables SR 0x1b s1_t0 s1_t1 s1_t2 s1_t3 = true.
Proof. vm_compute. reflexivity. Qed.

Lemma s2_tables_ok : sbox_tables SQ 0x69 s2_t0 s2_t1 s2_t2 s2_t3 = true.
Proof. vm_compute. reflexivity. Qed.

Lemma alpha_tables_ok :
  forallb (fun x => agrees mula x (MULalpha x) && agrees diva x (DIValpha x)) bytes = true.
Proof. vm_compute. reflexivity. Qed.

(** ** The generator *)

(** The sixteen words of the register, and the registers of the finite state
    machine. *)
Record spec_state := mk_spec {
  sp_reg : list Z;
  sp_r1 : Z;
  sp_r2 : Z;
  sp_r3 : Z;
}.

(** The word that enters the register, which moves by one place. *)
Definition spec_word (reg : list Z) : Z :=
  let s0 := nth 0 reg 0 in let s2 := nth 2 reg 0 in let s11 := nth 11 reg 0 in
  foldr Z.lxor 0 [Z.land (Z.shiftl s0 8) 0xffffffff; MULalpha (byte s0 0); s2;
                  Z.land (Z.shiftr s11 8) 0xffffff; DIValpha (byte s11 3)].

Definition spec_lfsr (s : spec_state) (f : Z) : spec_state :=
  mk_spec (tail (sp_reg s) ++ [Z.lxor (spec_word (sp_reg s)) f]) (sp_r1 s) (sp_r2 s) (sp_r3 s).

Definition spec_fsm (s : spec_state) : Z * spec_state :=
  (Z.lxor (u32 (nth 15 (sp_reg s) 0 + sp_r1 s)) (sp_r2 s),
   mk_spec (sp_reg s) (u32 (sp_r2 s + Z.lxor (sp_r3 s) (nth 5 (sp_reg s) 0))) (S1 (sp_r1 s)) (S2 (sp_r2 s))).

(** 32 rounds in which the output of the FSM enters the register, then one in
    which it is dropped. *)
Fixpoint spec_rounds (n : nat) (s : spec_state) : spec_state :=
  match n with
  | O => s
  | S n => let '(f, s) := spec_fsm s in spec_rounds n (spec_lfsr s f)
  end.

Definition spec_init (k0 k1 k2 k3 iv0 iv1 iv2 iv3 : Z) : spec_state :=
  let s := spec_rounds 32 (mk_spec (snow3g_start k0 k1 k2 k3 iv0 iv1 iv2 iv3) 0 0 0) in
  spec_lfsr (spec_fsm s).2 0.

Fixpoint spec_keystream (n : nat) (s : spec_state) : list Z :=
  match n with
  | O => []
  | S n =>
      let '(f, s) := spec_fsm s in
      Z.lxor f (nth 0 (sp_reg s) 0) :: spec_keystream n (spec_lfsr s 0)
  end.
