(* ===== verification/SecuSnow3gProps.v ===== *)
(** * SNOW 3G: the code implements the specification *)

From S2P Require Import Prelude SecuSnow3gTables SecuSnow3g SecuSnow3gSpec.

Lemma MULx_byte v c : is_byte c -> is_byte (MULx v c).
Proof.
  intros Hc. unfold MULx. destruct (Z.testbit v 7); [apply lxor_is_byte; [|done]|]; apply land_255_byte.
Qed.

Lemma word_testbit b0 b1 b2 b3 n :
  is_byte b0 -> is_byte b1 -> is_byte b2 -> is_byte b3 -> 0 <= n ->
  Z.testbit (word b0 b1 b2 b3) n =
    if n <? 8 then Z.testbit b3 n else if n <? 16 then Z.testbit b2 (n - 8)
    else if n <? 24 then Z.testbit b1 (n - 16) else Z.testbit b0 (n - 24).
Proof.
  intros H0 H1 H2 H3 Hn. unfold word. rewrite !Z.lor_spec, !Z.shiftl_spec by done.
  assert (Hneg : forall b m, m < 0 -> Z.testbit b m = false) by (intros; by apply Z.testbit_neg_r).
  repeat case_if; zify_bool.
  all: rewrite ?(Hneg b0), ?(Hneg b1), ?(Hneg b2) by lia.
  all: rewrite ?(testbit_byte b1), ?(testbit_byte b2), ?(testbit_byte b3) by (done || lia).
  all: by rewrite ?orb_false_r.
Qed.

Lemma word_lxor a0 a1 a2 a3 b0 b1 b2 b3 :
  is_byte a0 -> is_byte a1 -> is_byte a2 -> is_byte a3 ->
  is_byte b0 -> is_byte b1 -> is_byte b2 -> is_byte b3 ->
  Z.lxor (word a0 a1 a2 a3) (word b0 b1 b2 b3)
  = word (Z.lxor a0 b0) (Z.lxor a1 b1) (Z.lxor a2 b2) (Z.lxor a3 b3).
Proof.
  intros. apply Z.bits_inj'. intros n Hn.
  rewrite Z.lxor_spec, !word_testbit by (done || by apply lxor_is_byte).
  repeat case_if; by rewrite Z.lxor_spec.
Qed.

(** ** Tables *)

Lemma agrees_lookup t x v : agrees t x v = true -> table t x = Ok v.
Proof.
  unfold agrees, table. destruct (zget t x) as [v'|]; [|done]. intros H. zify_bool. by subst.
Qed.

Lemma bytes_forall (P : Z -> bool) x : forallb P bytes = true -> is_byte x -> P x = true.
Proof.
  intros H Hx. rewrite forallb_forall in H. apply H. unfold bytes, is_byte in *.
  apply list_elem_of_In, list_elem_of_fmap. exists (Z.to_nat x).
  split; [lia|]. apply elem_of_seq. lia.
Qed.

Lemma byte_is_byte w i : is_byte (byte w i).
Proof. apply land_255_byte. Qed.

(** The columns of four bytes, with [mi] the double of [ai]. *)
Lemma columns_sum a0 a1 a2 a3 m0 m1 m2 m3 :
  Forall is_byte [a0; a1; a2; a3; m0; m1; m2; m3] ->
  Z.lxor (Z.lxor (Z.lxor (word (Z.lxor m3 a3) a3 a3 m3) (word a2 a2 m2 (Z.lxor m2 a2)))
            (word a1 m1 (Z.lxor m1 a1) a1)) (word m0 (Z.lxor m0 a0) a0 a0)
  = word (Z.lxor (Z.lxor (Z.lxor m0 a1) a2) (Z.lxor m3 a3))
         (Z.lxor (Z.lxor (Z.lxor (Z.lxor m0 a0) m1) a2) a3)
         (Z.lxor (Z.lxor (Z.lxor a0 (Z.lxor m1 a1)) m2) a3)
         (Z.lxor (Z.lxor (Z.lxor a0 a1) (Z.lxor m2 a2)) m3).
Proof.
  rewrite !Forall_cons. intros (?&?&?&?&?&?&?&?&_).
  assert (Hl : forall a b, is_byte a -> is_byte b -> is_byte (Z.lxor a b)) by exact lxor_is_byte.
  rewrite (word_lxor (Z.lxor m3 a3)) by auto 2.
  rewrite (word_lxor (Z.lxor (Z.lxor m3 a3) a2)) by auto 3.
  rewrite (word_lxor (Z.lxor (Z.lxor (Z.lxor m3 a3) a2) a1)) by auto 4.
  f_equal; lxor_solve.
Qed.

Lemma column_mix S c w :
  is_byte c -> (forall x, is_byte x -> is_byte (S x)) ->
  Z.lxor (Z.lxor (Z.lxor (column c 3 (S (byte w 3))) (column c 2 (S (byte w 2))))
            (column c 1 (S (byte w 1)))) (column c 0 (S (byte w 0)))
  = mix S c w.
Proof.
  intros Hc HS. apply columns_sum.
  repeat constructor; try (apply HS, byte_is_byte); apply MULx_byte, Hc.
Qed.

Lemma sbox_tables_mix S c t0 t1 t2 t3 w :
  is_byte c -> sbox_tables S c t0 t1 t2 t3 = true ->
  (a ← table t0 (byte w 3); b ← table t1 (byte w 2); c ← table t2 (byte w 1); d ← table t3 (byte w 0);
   Ok (Z.lxor (Z.lxor (Z.lxor a b) c) d)) = Ok (mix S c w).
Proof.
  intros Hc Ht.
  assert (H : forall x, is_byte x -> is_byte (S x) /\ table t0 x = Ok (column c 3 (S x)) /\
    table t1 x = Ok (column c 2 (S x)) /\ table t2 x = Ok (column c 1 (S x)) /\ table t3 x = Ok (column c 0 (S x))).
  { intros x Hx. pose proof (bytes_forall _ x Ht Hx) as E. cbv beta zeta in E.
    rewrite !andb_true_iff in E. destruct E as (((((? & ?) & H0) & H1) & H2) & H3). zify_bool.
    split; [done|]. by rewrite !(agrees_lookup _ _ _ H0), (agrees_lookup _ _ _ H1),
      (agrees_lookup _ _ _ H2), (agrees_lookup _ _ _ H3). }
  destruct (H _ (byte_is_byte w 3)) as (_ & -> & _). destruct (H _ (byte_is_byte w 2)) as (_ & _ & -> & _).
  destruct (H _ (byte_is_byte w 1)) as (_ & _ & _ & -> & _). destruct (H _ (byte_is_byte w 0)) as (_ & _ & _ & _ & ->).
  cbn [mbind outcome_bind]. f_equal. apply column_mix; [done|]. intros x Hx. by apply H.
Qed.

Lemma s1_correct w : s1 w = Ok (S1 w).
Proof. unfold s1, S1. apply (sbox_tables_mix SR 0x1b s1_t0 s1_t1 s1_t2 s1_t3 w), s1_tables_ok. by split. Qed.

Lemma s2_correct w : s2 w = Ok (S2 w).
Proof. unfold s2, S2. apply (sbox_tables_mix SQ 0x69 s2_t0 s2_t1 s2_t2 s2_t3 w), s2_tables_ok. by split. Qed.

Lemma alpha_correct x : is_byte x -> MULa x = Ok (MULalpha x) /\ DIVa x = Ok (DIValpha x).
Proof.
  intros Hx. pose proof (bytes_forall _ x alpha_tables_ok Hx) as E. cbv beta in E.
  apply andb_true_iff in E as [H1 H2]. split; by apply agrees_lookup.
Qed.

#[local] Opaque S1 S2 MULalpha DIValpha.

(** ** The shift register *)

(** The array holds the register from [s] on, and what is before [s] is also
    sixteen places further. *)
Record sn_rel (s : snow3g_t) (sp : spec_state) : Prop := {
  rel_len : length (sn_array s) = 32%nat;
  rel_s : 0 <= sn_s s < 16;
  rel_reg : length (sp_reg sp) = 16%nat;
  rel_window : forall i, (i < 16)%nat ->
    sn_array s !! (Z.to_nat (sn_s s) + i)%nat = Some (Some (nth i (sp_reg sp) 0));
  rel_twice : forall i, (i < Z.to_nat (sn_s s))%nat -> sn_array s !! i = sn_array s !! (i + 16)%nat;
  rel_r1 : sn_r1 s = sp_r1 sp;
  rel_r2 : sn_r2 s = sp_r2 sp;
  rel_r3 : sn_r3 s = sp_r3 sp;
}.

Lemma sn_get_rel s sp i : sn_rel s sp -> 0 <= i < 16 -> sn_get s i = Ok (nth (Z.to_nat i) (sp_reg sp) 0).
Proof.
  intros Hr Hi. pose proof (rel_s _ _ Hr). unfold sn_get, zget.
  destruct (0 <=? sn_s s + i) eqn:E; zify_bool; [|lia].
  rewrite Z2Nat.inj_add, (rel_window _ _ Hr) by lia. done.
Qed.

Lemma shl8_bytes x :
  Z.lor (Z.lor (Z.shiftl (Z.land (Z.shiftr x 16) 255) 24) (Z.shiftl (Z.land (Z.shiftr x 8) 255) 16))
    (Z.shiftl (Z.land x 255) 8) = Z.land (Z.shiftl x 8) 0xffffffff.
Proof.
  transitivity (word (Z.land (Z.shiftr x 16) 255) (Z.land (Z.shiftr x 8) 255) (Z.land x 255) 0);
    [by unfold word; rewrite Z.lor_0_r|].
  apply Z.bits_inj'. intros n Hn.
  rewrite word_testbit by (apply land_255_byte || done).
  change 0xffffffff with (Z.ones 32). rewrite testbit_land_ones, Z.shiftl_spec by lia.
  repeat case_if; rewrite ?testbit_land_255, ?Z.shiftr_spec, ?Z.bits_0 by lia;
    repeat match goal with |- context [?a <? ?b] => destruct (Z.ltb_spec a b); try lia end;
    cbn [andb]; first [done | by rewrite Z.testbit_neg_r by lia | f_equal; lia].
Qed.

Lemma shr8_bytes x :
  Z.lor (Z.lor (Z.shiftl (Z.land (Z.shiftr x 24) 255) 16) (Z.shiftl (Z.land (Z.shiftr x 16) 255) 8))
    (Z.land (Z.shiftr x 8) 255) = Z.land (Z.shiftr x 8) 0xffffff.
Proof.
  transitivity (word 0 (Z.land (Z.shiftr x 24) 255) (Z.land (Z.shiftr x 16) 255) (Z.land (Z.shiftr x 8) 255));
    [done|].
  apply Z.bits_inj'. intros n Hn.
  rewrite word_testbit by (apply land_255_byte || done).
  change 0xffffff with (Z.ones 24). rewrite testbit_land_ones by lia.
  repeat case_if; rewrite ?testbit_land_255, ?Z.shiftr_spec, ?Z.bits_0 by lia;
    repeat match goal with |- context [?a <? ?b] => destruct (Z.ltb_spec a b); try lia end;
    cbn [andb]; first [done | f_equal; lia].
Qed.

Lemma lfsr_word_rel s sp : sn_rel s sp -> lfsr_word s = Ok (spec_word (sp_reg sp)).
Proof.
  intros Hr. unfold lfsr_word, spec_word.
  rewrite !(sn_get_rel s sp) by (done || lia). cbn [mbind outcome_bind].
  change (Z.to_nat 0) with 0%nat. change (Z.to_nat 2) with 2%nat. change (Z.to_nat 11) with 11%nat.
  generalize (nth 0 (sp_reg sp) 0) as s0, (nth 2 (sp_reg sp) 0) as s2, (nth 11 (sp_reg sp) 0) as s11.
  intros s0 s2 s11. rewrite shl8_bytes, shr8_bytes.
  rewrite (proj1 (alpha_correct (Z.land (Z.shiftr s0 24) 255) (land_255_byte _))). cbn [mbind outcome_bind].
  rewrite (proj2 (alpha_correct (Z.land s11 255) (land_255_byte _))). cbn [mbind outcome_bind].
  change (byte s0 0) with (Z.land (Z.shiftr s0 24) 255). change (byte s11 3) with (Z.land (Z.shiftr s11 0) 255).
  rewrite Z.shiftr_0_r. cbn [foldr]. f_equal. rewrite !Z.lxor_assoc, Z.lxor_0_r. done.
Qed.

Lemma lfsr_shift_rel s sp v :
  sn_rel s sp ->
  exists s', lfsr_shift s v = Ok s' /\
    sn_rel s' (mk_spec (tail (sp_reg sp) ++ [v]) (sp_r1 sp) (sp_r2 sp) (sp_r3 sp)).
Proof.
  intros [Hlen Hs Hreg Hwin Htw H1 H2 H3]. destruct s as [l p r1 r2 r3], sp as [reg q1 q2 q3]; cbn in *.
  unfold lfsr_shift, sn_set. cbn [sn_array sn_s].
  assert (Hz : zlen l = 32) by (unfold zlen; lia).
  rewrite Z.add_0_r, zset_ok by lia. cbn [mbind outcome_bind of_option]. field_simpl.
  cbn [sn_array sn_s]. rewrite zset_ok by (unfold zlen in *; rewrite length_insert; lia).
  cbn [mbind outcome_bind of_option]. field_simpl. cbn [sn_array sn_s].
  eexists. split; [reflexivity|].
  set (n := Z.to_nat p) in *. replace (Z.to_nat (p + 16)) with (n + 16)%nat by lia.
  assert (Hout : forall i, i <> n -> i <> (n + 16)%nat -> <[(n + 16)%nat:=Some v]> (<[n:=Some v]> l) !! i = l !! i).
  { intros i Hi Hi'. by rewrite !list_lookup_insert_ne by lia. }
  assert (Hp : <[(n + 16)%nat:=Some v]> (<[n:=Some v]> l) !! n = Some (Some v)).
  { rewrite list_lookup_insert_ne, list_lookup_insert_eq by lia. done. }
  assert (Hp' : <[(n + 16)%nat:=Some v]> (<[n:=Some v]> l) !! (n + 16)%nat = Some (Some v)).
  { rewrite list_lookup_insert_eq; [done|]. rewrite length_insert. lia. }
  assert (Hl' : length (<[(n + 16)%nat:=Some v]> (<[n:=Some v]> l)) = 32%nat) by (by rewrite !length_insert).
  assert (Hnew : forall i, (i < 16)%nat ->
    <[(n + 16)%nat:=Some v]> (<[n:=Some v]> l) !! (n + 1 + i)%nat = Some (Some (nth i (tail reg ++ [v]) 0))).
  { intros i Hi. destruct reg as [|w reg]; [done|]. cbn [tail length] in *.
    destruct (decide (i = 15%nat)) as [->|].
    - replace (n + 1 + 15)%nat with (n + 16)%nat by lia. rewrite Hp', app_nth2 by lia.
      by replace (15 - length reg)%nat with 0%nat by lia.
    - rewrite Hout, app_nth1 by lia. replace (n + 1 + i)%nat with (n + S i)%nat by lia.
      rewrite (Hwin (S i)) by lia. done. }
  assert (Hdup : forall i, (i < n + 1)%nat ->
    <[(n + 16)%nat:=Some v]> (<[n:=Some v]> l) !! i = <[(n + 16)%nat:=Some v]> (<[n:=Some v]> l) !! (i + 16)%nat).
  { intros i Hi. destruct (decide (i = n)) as [->|]; [by rewrite Hp, Hp'|].
    rewrite !Hout by lia. apply Htw. lia. }
  revert Hout Hp Hp' Hl' Hnew Hdup. generalize (<[(n + 16)%nat:=Some v]> (<[n:=Some v]> l)).
  intros l' Hout Hp Hp' Hl' Hnew Hdup.
  assert (Hreg' : length (tail reg ++ [v]) = 16%nat).
  { rewrite length_app. destruct reg; [done|]. cbn in *. lia. }
  destruct (p + 1 =? 16) eqn:E; zify_bool; split; field_simpl; cbn [sn_array sn_s sp_reg sp_r1 sp_r2 sp_r3];
    try done; try lia.
  - intros i Hi. change (Z.to_nat 0 + i)%nat with i. rewrite Hdup by lia.
    replace (i + 16)%nat with (n + 1 + i)%nat by lia. by apply Hnew.
  - intros i Hi. replace (Z.to_nat (p + 1) + i)%nat with (n + 1 + i)%nat by lia. by apply Hnew.
  - intros i Hi. apply Hdup. lia.
Qed.

(** ** The generator *)

Lemma clock_fsm_rel s sp :
  sn_rel s sp ->
  exists s', clock_fsm s = Ok ((spec_fsm sp).1, s') /\ sn_rel s' (spec_fsm sp).2.
Proof.
  intros Hr. unfold clock_fsm. rewrite !(sn_get_rel s sp) by (done || lia).
  cbn [mbind outcome_bind]. rewrite s2_correct. cbn [mbind outcome_bind]. rewrite s1_correct.
  cbn [mbind outcome_bind]. rewrite (rel_r1 _ _ Hr), (rel_r2 _ _ Hr), (rel_r3 _ _ Hr).
  eexists. split; [reflexivity|]. destruct Hr. split; field_simpl; first [assumption | reflexivity].
Qed.

Lemma lfsr_init_rel s sp f :
  sn_rel s sp -> exists s', lfsr_init s f = Ok s' /\ sn_rel s' (spec_lfsr sp f).
Proof.
  intros Hr. unfold lfsr_init. rewrite (lfsr_word_rel s sp Hr). cbn [mbind outcome_bind].
  by apply lfsr_shift_rel.
Qed.

Lemma lfsr_keystream_rel s sp :
  sn_rel s sp -> exists s', lfsr_keystream s = Ok s' /\ sn_rel s' (spec_lfsr sp 0).
Proof.
  intros Hr. unfold lfsr_keystream. rewrite (lfsr_word_rel s sp Hr). cbn [mbind outcome_bind].
  unfold spec_lfsr. rewrite Z.lxor_0_r. by apply lfsr_shift_rel.
Qed.

Lemma init_round_rel s sp :
  sn_rel s sp ->
  exists s', init_round s = Ok s' /\ sn_rel s' (spec_lfsr (spec_fsm sp).2 (spec_fsm sp).1).
Proof.
  intros Hr. unfold init_round. destruct (clock_fsm_rel s sp Hr) as (s1 & -> & Hr1).
  cbn [mbind outcome_bind]. by apply lfsr_init_rel.
Qed.

Lemma init_rounds_rel n lo s sp :
  sn_rel s sp -> exists s', cfor n lo (fun _ => init_round) s = Ok s' /\ sn_rel s' (spec_rounds n sp).
Proof.
  revert lo s sp. induction n as [|n IH]; intros lo s sp Hr; [by exists s|].
  cbn [cfor spec_rounds]. cbv beta. destruct (init_round_rel s sp Hr) as (s1 & -> & Hr1).
  cbn [mbind outcome_bind]. destruct (spec_fsm sp) as [f sp1]. by apply IH.
Qed.

Lemma generate_keystream_rel n s sp :
  sn_rel s sp -> generate_keystream n s = Ok (spec_keystream n sp).
Proof.
  revert s sp. induction n as [|n IH]; intros s sp Hr; [done|].
  cbn [generate_keystream spec_keystream]. unfold generate_keystream_step.
  destruct (clock_fsm_rel s sp Hr) as (s1 & -> & Hr1). cbn [mbind outcome_bind].
  destruct (spec_fsm sp) as [f sp1]. cbn [fst snd] in *.
  rewrite (sn_get_rel s1 sp1) by (done || lia). cbn [mbind outcome_bind].
  destruct (lfsr_keystream_rel s1 sp1 Hr1) as (s2 & -> & Hr2). cbn [mbind outcome_bind].
  by rewrite (IH s2 _ Hr2).
Qed.

(** The four words of sixteen bytes. *)
Definition word_at (b : list Z) (i : nat) : Z :=
  word (nth (4 * i) b 0) (nth (4 * i + 1) b 0) (nth (4 * i + 2) b 0) (nth (4 * i + 3) b 0).

Lemma zget_nth (l : list Z) i : 0 <= i < zlen l -> zget l i = Some (nth (Z.to_nat i) l 0).
Proof.
  intros H. apply zget_Some. split; [done|]. unfold zlen in H.
  destruct (lookup_lt_is_Some_2 l (Z.to_nat i)) as [x Hx]; [lia|].
  by rewrite (nth_lookup_Some _ _ _ _ Hx).
Qed.

Lemma GET32_ok b i : zlen b = 16 -> (i < 4)%nat -> GET32 b (4 * Z.of_nat i) = Ok (word_at b i).
Proof.
  intros Hb Hi. unfold GET32. rewrite !zget_nth by lia. cbn [mbind outcome_bind of_option].
  unfold word_at, word.
  replace (Z.to_nat (4 * Z.of_nat i)) with (4 * i)%nat by lia.
  replace (Z.to_nat (4 * Z.of_nat i + 1)) with (4 * i + 1)%nat by lia.
  replace (Z.to_nat (4 * Z.of_nat i + 2)) with (4 * i + 2)%nat by lia.
  by replace (Z.to_nat (4 * Z.of_nat i + 3)) with (4 * i + 3)%nat by lia.
Qed.

Lemma GET32_words b :
  zlen b = 16 ->
  GET32 b 0 = Ok (word_at b 0) /\ GET32 b 4 = Ok (word_at b 1) /\
  GET32 b 8 = Ok (word_at b 2) /\ GET32 b 12 = Ok (word_at b 3).
Proof.
  intros Hb. pose proof (GET32_ok b 0 Hb). pose proof (GET32_ok b 1 Hb).
  pose proof (GET32_ok b 2 Hb). pose proof (GET32_ok b 3 Hb).
  cbn [Z.of_nat Z.mul Pos.of_succ_nat Pos.mul Pos.add Pos.succ] in *. split_and!; auto with lia.
Qed.

(** The generator started with sixteen bytes of key and of vector. *)
Definition spec_start (k iv : list Z) : spec_state :=
  spec_init (word_at k 0) (word_at k 1) (word_at k 2) (word_at k 3)
            (word_at iv 0) (word_at iv 1) (word_at iv 2) (word_at iv 3).

Lemma snow3g_init_rel k iv :
  zlen k = 16 -> zlen iv = 16 ->
  exists s, snow3g_init k iv = Ok s /\ sn_rel s (spec_start k iv).
Proof.
  intros Hk Hiv. unfold snow3g_init.
  destruct (GET32_words k Hk) as (-> & -> & -> & ->), (GET32_words iv Hiv) as (-> & -> & -> & ->).
  cbn [mbind outcome_bind].
  unfold spec_start, spec_init. set (l := snow3g_start _ _ _ _ _ _ _ _).
  assert (Hl : length l = 16%nat) by done. clearbody l.
  destruct (init_rounds_rel 32 0 (mk_snow3g ((Some <$> l) ++ replicate 16 None) 0 0 0 0) (mk_spec l 0 0 0))
    as (s & -> & Hr).
  { split; cbn [sn_array sn_s sn_r1 sn_r2 sn_r3 sp_reg sp_r1 sp_r2 sp_r3]; try done; try lia.
    - by rewrite length_app, length_fmap, length_replicate, Hl.
    - intros i Hi. change (Z.to_nat 0 + i)%nat with i.
      destruct (lookup_lt_is_Some_2 l i) as [x Hx]; [lia|].
      rewrite lookup_app_l by (rewrite length_fmap; lia).
      by rewrite list_lookup_fmap, Hx, (nth_lookup_Some _ _ _ _ Hx). }
  cbn [mbind outcome_bind]. destruct (clock_fsm_rel s _ Hr) as (s1 & -> & Hr1). cbn [mbind outcome_bind].
  by apply lfsr_keystream_rel.
Qed.
