(* ===== verification/SecuSnow3gCipher.v ===== *)
(** * SNOW 3G: ciphering

    [snow3g_ciphering] is the exclusive or of the input with the keystream of
    the specification (UEA2, NEA1), and undoes itself. *)

From S2P Require Import Prelude SecuSnow3gTables SecuSnow3g SecuSnow3gSpec SecuSnow3gProps.

(** ** Key, vector and keystream *)

(** UEA2: K0 .. K3 are the words of the key from the last to the first, IV3 and
    IV1 are COUNT, IV2 and IV0 are BEARER || DIRECTION || 0. *)
Definition uea2_start (count bearer direction : Z) (key : list Z) : spec_state :=
  let b := Z.lor (Z.shiftl bearer 27) (Z.shiftl direction 26) in
  spec_init (word_at key 3) (word_at key 2) (word_at key 1) (word_at key 0) b count b count.

Definition uea2_keystream (count bearer direction : Z) (key : list Z) (length : Z) : list Z :=
  take (Z.to_nat length)
    (spec_keystream (Z.to_nat ((length + 3) / 4)) (uea2_start count bearer direction key) ≫= word_bytes).

Lemma key_words_ok key :
  zlen key = 16 ->
  exists k, key_words key = Ok k /\ zlen k = 16 /\
    word_at k 0 = word_at key 3 /\ word_at k 1 = word_at key 2 /\
    word_at k 2 = word_at key 1 /\ word_at k 3 = word_at key 0.
Proof.
  unfold zlen. intros H. do 16 (destruct key as [|? key]; [cbn in H; lia|]).
  destruct key; [|cbn in H; lia]. clear H. unfold key_words. cbn.
  eexists. split; [reflexivity|]. done.
Qed.

Lemma word_of_bytes w :
  0 <= w < 2 ^ 32 ->
  word (Z.land (Z.shiftr w 24) 255) (Z.land (Z.shiftr w 16) 255) (Z.land (Z.shiftr w 8) 255) (Z.land w 255) = w.
Proof.
  intros Hw. apply Z.bits_inj'. intros n Hn. rewrite word_testbit by (apply land_255_byte || done).
  destruct (Z.ltb_spec n 32).
  - repeat case_if; rewrite ?testbit_land_255, ?Z.shiftr_spec by lia;
      repeat match goal with |- context [?a <? ?b] => destruct (Z.ltb_spec a b); try lia end;
      cbn [andb]; f_equal; lia.
  - repeat case_if; try lia. rewrite testbit_land_255 by lia.
    destruct (Z.ltb_spec (n - 24) 8); [lia|]. cbn [andb]. symmetry.
    rewrite <- (Z.mod_small w (2 ^ 32)) by done. by apply Z.mod_pow2_bits_high.
Qed.

Lemma range_forall (P : Z -> bool) n x : forallb P (Z.of_nat <$> seq 0 n) = true -> 0 <= x < Z.of_nat n -> P x = true.
Proof.
  intros H Hx. rewrite forallb_forall in H. apply H.
  apply list_elem_of_In, list_elem_of_fmap. exists (Z.to_nat x). split; [lia|]. apply elem_of_seq. lia.
Qed.

Lemma bearer_byte bearer direction :
  0 <= bearer < 32 -> 0 <= direction < 2 ->
  word (Z.land (Z.lor (Z.shiftl bearer 3) (Z.shiftl direction 2)) 255) 0 0 0
  = Z.lor (Z.shiftl bearer 27) (Z.shiftl direction 26).
Proof.
  intros Hb Hd.
  pose proof (range_forall (fun b => forallb (fun d =>
    word (Z.land (Z.lor (Z.shiftl b 3) (Z.shiftl d 2)) 255) 0 0 0 =? Z.lor (Z.shiftl b 27) (Z.shiftl d 26))
    (Z.of_nat <$> seq 0 2)) 32 bearer) as H.
  pose proof (range_forall _ 2 direction (H ltac:(vm_compute; reflexivity) Hb) Hd) as E. by apply Z.eqb_eq.
Qed.

Lemma ciphering_iv_words count bearer direction :
  0 <= count < 2 ^ 32 -> 0 <= bearer < 32 -> 0 <= direction < 2 ->
  let b := Z.lor (Z.shiftl bearer 27) (Z.shiftl direction 26) in
  let iv := ciphering_iv count bearer direction in
  zlen iv = 16 /\ word_at iv 0 = b /\ word_at iv 1 = count /\ word_at iv 2 = b /\ word_at iv 3 = count.
Proof.
  intros Hc Hb Hd. cbv zeta. rewrite <- (bearer_byte bearer direction Hb Hd).
  unfold word_at, ciphering_iv, word_bytes. cbn [nth app Nat.mul Nat.add].
  rewrite (word_of_bytes count) by done. done.
Qed.

Lemma spec_keystream_len n s : length (spec_keystream n s ≫= word_bytes) = (4 * n)%nat.
Proof.
  revert s. induction n as [|n IH]; intros s; [done|]. cbn [spec_keystream].
  destruct (spec_fsm s) as [f s']. cbn [mbind list_bind]. rewrite length_app, IH.
  unfold word_bytes. cbn [length]. lia.
Qed.

(** ** The cipher *)

Section parameters.
Context (count bearer direction : Z) (key : list Z).
Context (Hcount : 0 <= count < 2 ^ 32) (Hbearer : 0 <= bearer < 32) (Hdirection : 0 <= direction < 2).
Context (Hkey : zlen key = 16).

Lemma ciphering_xor length input :
  0 <= length <= zlen input ->
  snow3g_ciphering count bearer direction key length input
  = Ok (zip_with Z.lxor (take (Z.to_nat length) input) (uea2_keystream count bearer direction key length)).
Proof.
  intros Hl. unfold snow3g_ciphering.
  destruct (key_words_ok key Hkey) as (k & -> & Hk16 & E0 & E1 & E2 & E3). cbn [mbind outcome_bind].
  destruct (ciphering_iv_words count bearer direction Hcount Hbearer Hdirection) as (Hiv & I0 & I1 & I2 & I3).
  destruct (snow3g_init_rel k _ Hk16 Hiv) as (s & -> & Hr). cbn [mbind outcome_bind].
  rewrite (generate_keystream_rel _ _ _ Hr). cbn [mbind outcome_bind].
  unfold spec_start in *. rewrite E0, E1, E2, E3, I0, I1, I2, I3 in *.
  rewrite (zslice_ok input 0 length) by lia. cbn [mbind outcome_bind of_option].
  rewrite zslice_ok; [reflexivity|lia..|].
  unfold zlen. rewrite spec_keystream_len. pose proof (Z.mod_pos_bound (length + 3) 4).
  pose proof (Z.div_mod (length + 3) 4). lia.
Qed.

Lemma uea2_keystream_len len :
  0 <= len -> length (uea2_keystream count bearer direction key len) = Z.to_nat len.
Proof.
  intros H. unfold uea2_keystream. rewrite length_take, spec_keystream_len.
  pose proof (Z.mod_pos_bound (len + 3) 4). pose proof (Z.div_mod (len + 3) 4). lia.
Qed.
End parameters.

Lemma zip_lxor_twice (a k : list Z) :
  length a = length k -> zip_with Z.lxor (zip_with Z.lxor a k) k = a.
Proof.
  revert k. induction a as [|x a IH]; intros [|y k] H; try done. cbn in *.
  rewrite IH by lia. f_equal. by rewrite Z.lxor_assoc, Z.lxor_nilpotent, Z.lxor_0_r.
Qed.

(** C22: for a 16-byte key and parameters of the widths of the standard,
    [snow3g_ciphering] never fails (in particular it reads no word of the
    doubled register that was not written, and stays inside its tables) and
    its output is the input xor the keystream of the specification, where the
    register moves and no table is used. *)
Theorem snow3g_ciphering_correct count bearer direction key length input :
  0 <= count < 2 ^ 32 -> 0 <= bearer < 32 -> 0 <= direction < 2 ->
  zlen key = 16 -> 0 <= length <= zlen input ->
  snow3g_ciphering count bearer direction key length input
  = Ok (zip_with Z.lxor (take (Z.to_nat length) input) (uea2_keystream count bearer direction key length)).
Proof. intros. by apply ciphering_xor. Qed.

(** Deciphering is ciphering again: with the same key and parameters the
    output of [snow3g_ciphering] is turned back into the bytes it came from. *)
Theorem snow3g_ciphering_involutive count bearer direction key length input :
  0 <= count < 2 ^ 32 -> 0 <= bearer < 32 -> 0 <= direction < 2 -> zlen key = 16 ->
  0 <= length <= zlen input ->
  exists out,
    snow3g_ciphering count bearer direction key length input = Ok out /\ zlen out = length /\
    snow3g_ciphering count bearer direction key length out = Ok (take (Z.to_nat length) input).
Proof.
  intros Hc Hb Hd Hk Hl. eexists. split; [by apply ciphering_xor|].
  set (ks := uea2_keystream count bearer direction key length).
  assert (Hks : List.length ks = Z.to_nat length) by (apply uea2_keystream_len; lia).
  assert (Hin : List.length (take (Z.to_nat length) input) = Z.to_nat length).
  { rewrite length_take. unfold zlen in Hl. lia. }
  assert (Hout : zlen (zip_with Z.lxor (take (Z.to_nat length) input) ks) = length).
  { unfold zlen. rewrite length_zip_with, Hin, Hks. lia. }
  split; [done|]. rewrite ciphering_xor by (done || lia). fold ks.
  rewrite take_ge by (unfold zlen in Hout; lia). rewrite zip_lxor_twice by congruence. done.
Qed.

(** ** The first test set of UEA2 *)
Definition uea2_key : list Z :=
  [0xD3; 0xC5; 0xD5; 0x92; 0x32; 0x7F; 0xB1; 0x1C; 0x40; 0x35; 0xC6; 0x68; 0x0A; 0xF8; 0xC6; 0xD1].
Definition uea2_plain : list Z := [0x98; 0x1B; 0xA6; 0x82; 0x4C; 0x1B; 0xFB; 0x1A; 0xB4].

Example uea2_test_set_1 :
  snow3g_ciphering 0x398A59B4 0x15 1 uea2_key 8 uea2_plain
  = Ok [0x5D; 0x5B; 0xFE; 0x75; 0xEB; 0x04; 0xF6; 0x8C].
Proof. vm_compute. reflexivity. Qed.

Lemma snow3g_ciphering_correct_witness :
  snow3g_ciphering 0x398A59B4 0x15 1 uea2_key 9 uea2_plain
  = Ok (zip_with Z.lxor uea2_plain (uea2_keystream 0x398A59B4 0x15 1 uea2_key 9)).
Proof. apply (snow3g_ciphering_correct 0x398A59B4 0x15 1 uea2_key 9 uea2_plain); vm_compute; intuition congruence. Defined.

Lemma snow3g_ciphering_involutive_witness :
  exists out,
    snow3g_ciphering 0x398A59B4 0x15 1 uea2_key 9 uea2_plain = Ok out /\ zlen out = 9 /\
    snow3g_ciphering 0x398A59B4 0x15 1 uea2_key 9 out = Ok uea2_plain.
Proof. apply (snow3g_ciphering_involutive 0x398A59B4 0x15 1 uea2_key 9 uea2_plain); vm_compute; intuition congruence. Defined.
