(* ===== verification/SecuSnow3gMac.v ===== *)
(** * SNOW 3G: multiplication in GF(2^64), and the polynomial of the MAC

    [mul_p] with its precomputed table, [MUL64], and their algebra. *)

From S2P Require Import Prelude SecuSnow3gTables SecuSnow3g SecuSnow3gSpec SecuSnow3gProps SecuSnow3gCipher.

(** ** Sums over the bits of a number *)

(** The xor of [f i] over the bits [i < n] that are set in [x]. *)
Fixpoint bitsum (f : nat -> Z) (x : Z) (n : nat) : Z :=
  match n with
  | O => 0
  | S n => Z.lxor (bitsum f x n) (if Z.testbit x (Z.of_nat n) then f n else 0)
  end.

Lemma bitsum_ext f g x y n :
  (forall i, (i < n)%nat -> Z.testbit x (Z.of_nat i) = Z.testbit y (Z.of_nat i)) ->
  (forall i, (i < n)%nat -> f i = g i) -> bitsum f x n = bitsum g y n.
Proof.
  induction n as [|n IH]; intros Hx Hf; [done|]. cbn [bitsum].
  rewrite IH, Hx, Hf by auto with lia. done.
Qed.

Lemma bitsum_split f x m n :
  bitsum f x (m + n) = Z.lxor (bitsum f x m) (bitsum (fun j => f (m + j)%nat) (Z.shiftr x (Z.of_nat m)) n).
Proof.
  induction n as [|n IH]; [by rewrite Nat.add_0_r, Z.lxor_0_r|].
  rewrite Nat.add_succ_r. cbn [bitsum]. rewrite IH, Z.shiftr_spec, Z.lxor_assoc by lia.
  by replace (Z.of_nat n + Z.of_nat m) with (Z.of_nat (m + n)) by lia.
Qed.

Lemma bitsum_lxor_f f g x n :
  bitsum (fun i => Z.lxor (f i) (g i)) x n = Z.lxor (bitsum f x n) (bitsum g x n).
Proof.
  induction n as [|n IH]; [done|]. cbn [bitsum]. rewrite IH.
  destruct (Z.testbit x (Z.of_nat n)); lxor_solve.
Qed.

Lemma bitsum_zero x n : bitsum (fun _ => 0) x n = 0.
Proof. induction n as [|n IH]; [done|]. cbn [bitsum]. rewrite IH. by destruct (Z.testbit _ _). Qed.

Lemma bitsum_of_0 f n : bitsum f 0 n = 0.
Proof. induction n as [|n IH]; [done|]. cbn [bitsum]. by rewrite IH, Z.bits_0. Qed.

Lemma bitsum_lxor_x f x y n : bitsum f (Z.lxor x y) n = Z.lxor (bitsum f x n) (bitsum f y n).
Proof.
  induction n as [|n IH]; [done|]. cbn [bitsum]. rewrite IH, Z.lxor_spec.
  destruct (Z.testbit x (Z.of_nat n)), (Z.testbit y (Z.of_nat n)); cbn [xorb]; lxor_solve.
Qed.

Lemma bitsum_swap (g : nat -> nat -> Z) x m y n :
  bitsum (fun i => bitsum (g i) y n) x m = bitsum (fun j => bitsum (fun i => g i j) x m) y n.
Proof.
  induction m as [|m IH]; cbn [bitsum]; [by rewrite bitsum_zero|].
  rewrite IH, bitsum_lxor_f. f_equal. destruct (Z.testbit x (Z.of_nat m)); [done|]. by rewrite bitsum_zero.
Qed.

Lemma bitsum_pow2 x n m :
  0 <= m -> Z.testbit (bitsum (fun j => 2 ^ Z.of_nat j) x n) m = (m <? Z.of_nat n) && Z.testbit x m.
Proof.
  intros Hm. induction n as [|n IH]; cbn [bitsum].
  - rewrite Z.bits_0. destruct (Z.ltb_spec m (Z.of_nat 0)); [lia|done].
  - rewrite Z.lxor_spec, IH. destruct (Z.eq_dec m (Z.of_nat n)) as [->|Hne].
    + destruct (Z.ltb_spec (Z.of_nat n) (Z.of_nat n)); [lia|].
      destruct (Z.ltb_spec (Z.of_nat n) (Z.of_nat (S n))); [|lia]. cbn [andb xorb].
      destruct (Z.testbit x (Z.of_nat n)) eqn:E; [|apply Z.bits_0]. by rewrite Z.pow2_bits_true by lia.
    + assert (E : Z.testbit (if Z.testbit x (Z.of_nat n) then 2 ^ Z.of_nat n else 0) m = false).
      { destruct (Z.testbit x (Z.of_nat n)); [by apply Z.pow2_bits_false|apply Z.bits_0]. }
      rewrite E, xorb_false_r.
      destruct (Z.ltb_spec m (Z.of_nat n)), (Z.ltb_spec m (Z.of_nat (S n))); done || lia.
Qed.

(** ** Ranges *)

Definition is_u64 (x : Z) : Prop := 0 <= x < 2 ^ 64.

Lemma bitsum_range f x n : (forall i, is_u64 (f i)) -> is_u64 (bitsum f x n).
Proof.
  intros Hf. induction n as [|n IH]; [done|]. cbn [bitsum]. apply (lxor_range 64); [done|done|].
  destruct (Z.testbit _ _); [apply Hf|done].
Qed.

(** A number below 2^64 is the sum of its bits. *)
Lemma bitsum_id x : is_u64 x -> x = bitsum (fun j => 2 ^ Z.of_nat j) x 64.
Proof.
  intros Hx. apply Z.bits_inj'. intros m Hm. rewrite bitsum_pow2 by done.
  destruct (Z.ltb_spec m (Z.of_nat 64)); [done|]. apply (range_bits 64) in Hx; [|done].
  apply Hx. lia.
Qed.

(** ** [MULx64] *)

Lemma z2b_testbit v k : 0 <= k -> z2b (Z.land v (Z.shiftl 1 k)) = Z.testbit v k.
Proof.
  intros Hk. rewrite Z.shiftl_1_l. unfold z2b.
  destruct (Z.testbit v k) eqn:E.
  - destruct (Z.eqb_spec (Z.land v (2 ^ k)) 0) as [H0|]; [|done].
    assert (Z.testbit (Z.land v (2 ^ k)) k = true) by (by rewrite Z.land_spec, E, Z.pow2_bits_true).
    rewrite H0, Z.bits_0 in *. done.
  - assert (H0 : Z.land v (2 ^ k) = 0); [|by rewrite H0].
    apply Z.bits_inj'. intros n Hn. rewrite Z.land_spec, Z.bits_0.
    destruct (Z.eq_dec n k) as [->|]; [by rewrite E|].
    rewrite Z.pow2_bits_false by lia. apply andb_false_r.
Qed.

Lemma testbit_u64_shl v n : 0 <= n -> Z.testbit (u64 (Z.shiftl v 1)) n = (n <? 64) && Z.testbit v (n - 1).
Proof.
  intros Hn. unfold u64. change (2 ^ 64) with (2 ^ (64)). destruct (Z.ltb_spec n 64).
  - by rewrite Z.mod_pow2_bits_low, Z.shiftl_spec by lia.
  - by rewrite Z.mod_pow2_bits_high by lia.
Qed.

Lemma MULx64_bits v c n :
  0 <= n ->
  Z.testbit (MULx64 v c) n = xorb ((n <? 64) && Z.testbit v (n - 1)) (Z.testbit v 63 && Z.testbit c n).
Proof.
  intros Hn. unfold MULx64. rewrite z2b_testbit by done.
  destruct (Z.testbit v 63); rewrite ?Z.lxor_spec, testbit_u64_shl by done; [done|].
  by rewrite xorb_false_r.
Qed.

Lemma MULx64_lxor a b c : MULx64 (Z.lxor a b) c = Z.lxor (MULx64 a c) (MULx64 b c).
Proof.
  apply Z.bits_inj'. intros n Hn. rewrite Z.lxor_spec, !MULx64_bits, !Z.lxor_spec by done.
  destruct (n <? 64), (Z.testbit a (n - 1)), (Z.testbit b (n - 1)), (Z.testbit a 63), (Z.testbit b 63),
    (Z.testbit c n); done.
Qed.

Lemma MULx64_0 c : MULx64 0 c = 0.
Proof. done. Qed.

Lemma MULx64_range v c : is_u64 c -> is_u64 (MULx64 v c).
Proof.
  intros Hc. unfold MULx64. assert (is_u64 (u64 (Z.shiftl v 1))) by (by apply Z.mod_pos_bound).
  destruct (z2b _); [by apply (lxor_range 64)|done].
Qed.

Lemma MULxPOW64_lxor a b i c : MULxPOW64 (Z.lxor a b) i c = Z.lxor (MULxPOW64 a i c) (MULxPOW64 b i c).
Proof. induction i as [|i IH]; [done|]. cbn [MULxPOW64]. by rewrite IH, MULx64_lxor. Qed.

Lemma MULxPOW64_0 i c : MULxPOW64 0 i c = 0.
Proof. induction i as [|i IH]; [done|]. cbn [MULxPOW64]. by rewrite IH. Qed.

Lemma MULxPOW64_add v i j c : MULxPOW64 (MULxPOW64 v j c) i c = MULxPOW64 v (i + j) c.
Proof. induction i as [|i IH]; [done|]. cbn [MULxPOW64 Nat.add]. by rewrite IH. Qed.

Lemma MULxPOW64_range v i c : is_u64 v -> is_u64 c -> is_u64 (MULxPOW64 v i c).
Proof. intros Hv Hc. destruct i; [done|]. cbn [MULxPOW64]. by apply MULx64_range. Qed.

Lemma MULxPOW64_1 j c : (j < 64)%nat -> MULxPOW64 1 j c = 2 ^ Z.of_nat j.
Proof.
  induction j as [|j IH]; intros Hj; [done|]. cbn [MULxPOW64]. rewrite IH by lia.
  unfold MULx64. rewrite z2b_testbit, Z.pow2_bits_false by lia.
  rewrite Z.shiftl_mul_pow2 by done. unfold u64. rewrite Z.mod_small; [rewrite Nat2Z.inj_succ, Z.pow_succ_r; lia|].
  split; [lia|]. rewrite <- Z.pow_add_r by lia. apply Z.pow_lt_mono_r; lia.
Qed.

Lemma MULxPOW64_bitsum f x n i c :
  MULxPOW64 (bitsum f x n) i c = bitsum (fun j => MULxPOW64 (f j) i c) x n.
Proof.
  induction n as [|n IH]; cbn [bitsum]; [apply MULxPOW64_0|].
  rewrite MULxPOW64_lxor, IH. destruct (Z.testbit _ _); [done|]. by rewrite MULxPOW64_0.
Qed.

(** ** [MUL64] *)

Lemma MUL64_bitsum v p c : MUL64 v p c = bitsum (fun i => MULxPOW64 v i c) p 64.
Proof.
  unfold MUL64. generalize 64%nat as n. induction n as [|n IH]; [done|].
  rewrite seq_S, foldl_app. cbn [foldl bitsum Nat.add]. rewrite IH.
  assert (E : z2b (Z.land (Z.shiftr p (Z.of_nat n)) 1) = Z.testbit p (Z.of_nat n)).
  { change 1 with (Z.shiftl 1 0). rewrite z2b_testbit, Z.shiftr_spec by lia. done. }
  rewrite E. destruct (Z.testbit p (Z.of_nat n)); [done|]. by rewrite Z.lxor_0_r.
Qed.

Lemma MUL64_range v p c : is_u64 v -> is_u64 c -> is_u64 (MUL64 v p c).
Proof. intros Hv Hc. rewrite MUL64_bitsum. apply bitsum_range. intros i. by apply MULxPOW64_range. Qed.

Lemma MUL64_sums v p c :
  is_u64 v -> MUL64 v p c = bitsum (fun i => bitsum (fun j => MULxPOW64 1 (i + j) c) v 64) p 64.
Proof.
  intros Hv. rewrite MUL64_bitsum. apply bitsum_ext; [done|]. intros i _.
  rewrite (bitsum_id v) at 1 by done. rewrite MULxPOW64_bitsum. apply bitsum_ext; [done|].
  intros j Hj. by rewrite <- (MULxPOW64_1 j c), MULxPOW64_add.
Qed.

Lemma MUL64_comm v p c : is_u64 v -> is_u64 p -> MUL64 v p c = MUL64 p v c.
Proof.
  intros Hv Hp. rewrite !MUL64_sums by done. rewrite bitsum_swap.
  apply bitsum_ext; [done|]. intros i _. apply bitsum_ext; [done|]. intros j _. by rewrite Nat.add_comm.
Qed.

(** ** SNOW 3G: integrity

    [pm_table] and [mul_p] compute the multiplication of the specification, and
    [_snow3g_integrity] the MAC of UIA2 (EIA2, NIA2's polynomial sibling NIA1). *)

(** ** The precomputed table *)

Section pm_table.
Context (p : Z) (Hp : is_u64 p).

(** What the entry [pm[i][x]] must be: the product of [p] and [x * 2^(8i)]. *)
Definition pm_entry (i x : Z) : Z :=
  bitsum (fun j => MULxPOW64 p (8 * Z.to_nat i + j) 0x1b) x 8.

Definition in_pm (i x : Z) : Prop := 0 <= i < 8 /\ 0 <= x < 256.

(** Every entry that was written is right. *)
Definition pm_right (pm : pm_t) : Prop := forall i x v, pm !! (i, x) = Some v -> v = pm_entry i x.

Definition has (pm : pm_t) (i x : Z) : Prop := is_Some (pm !! (i, x)).

Lemma pm_get_right pm i x : pm_right pm -> in_pm i x -> has pm i x -> pm_get pm i x = Ok (pm_entry i x).
Proof.
  intros Hr [Hi Hx] [v Hv]. unfold pm_get.
  assert ((0 <=? i) && (i <? 8) && (0 <=? x) && (x <? 256) = true) as ->.
  { rewrite !andb_true_iff, !Z.leb_le, !Z.ltb_lt. lia. }
  cbn [require mbind outcome_bind]. by rewrite Hv, (Hr _ _ _ Hv).
Qed.

Lemma pm_set_ok pm i x v : in_pm i x -> pm_set pm i x v = Ok (<[(i, x) := v]> pm).
Proof.
  intros [Hi Hx]. unfold pm_set.
  assert ((0 <=? i) && (i <? 8) && (0 <=? x) && (x <? 256) = true) as ->; [|done].
  rewrite !andb_true_iff, !Z.leb_le, !Z.ltb_lt. lia.
Qed.

Lemma insert_right pm i x v : pm_right pm -> v = pm_entry i x -> pm_right (<[(i, x) := v]> pm).
Proof.
  intros Hr Hv i' x' v'. destruct (decide ((i, x) = (i', x'))) as [[= <- <-]|].
  - rewrite lookup_insert_eq. congruence.
  - rewrite lookup_insert_ne by done. apply Hr.
Qed.

Lemma insert_has pm i x v : has (<[(i, x) := v]> pm) i x.
Proof. unfold has. by rewrite lookup_insert_eq. Qed.

Lemma insert_keeps pm i x v i' x' : has pm i' x' -> has (<[(i, x) := v]> pm) i' x'.
Proof. unfold has. intros H. by apply lookup_insert_is_Some'; right. Qed.

Lemma pm_entry_0 i : pm_entry i 0 = 0.
Proof. apply bitsum_of_0. Qed.

Lemma bitsum_single f k n : (k < n)%nat -> bitsum f (2 ^ Z.of_nat k) n = f k.
Proof.
  induction n as [|n IH]; intros Hk; [lia|]. cbn [bitsum].
  destruct (decide (k = n)) as [->|].
  - rewrite Z.pow2_bits_true by lia. rewrite (bitsum_ext f f _ 0), bitsum_of_0; [done| |done].
    intros i Hi. by rewrite Z.pow2_bits_false, Z.bits_0 by lia.
  - rewrite IH, Z.pow2_bits_false, Z.lxor_0_r by lia. done.
Qed.

Lemma index8 m : 0 <= m -> m = 8 * Z.shiftr m 3 + Z.land m 7 /\ 0 <= Z.shiftr m 3 /\ 0 <= Z.land m 7 < 8.
Proof.
  intros Hm. change 7 with (Z.ones 3). rewrite Z.land_ones, Z.shiftr_div_pow2 by lia.
  change (2 ^ 3) with 8. pose proof (Z.mod_pos_bound m 8). pose proof (Z.div_mod m 8).
  pose proof (Z.div_pos m 8). lia.
Qed.

Lemma shl_index m : 0 <= m < 64 -> in_pm (Z.shiftr m 3) (Z.shiftl 1 (Z.land m 7)).
Proof.
  intros Hm. destruct (index8 m) as (E & H1 & H2); [lia|]. rewrite Z.shiftl_1_l.
  assert (2 ^ Z.land m 7 <= 2 ^ 7) by (apply Z.pow_le_mono_r; lia). split; lia.
Qed.

Lemma pm_entry_power m :
  0 <= m -> pm_entry (Z.shiftr m 3) (Z.shiftl 1 (Z.land m 7)) = MULxPOW64 p (Z.to_nat m) 0x1b.
Proof.
  intros Hm. destruct (index8 m) as (E & H1 & H2); [lia|]. unfold pm_entry. rewrite Z.shiftl_1_l.
  rewrite <- (Z2Nat.id (Z.land m 7)) by lia. rewrite bitsum_single by lia. f_equal. lia.
Qed.

Lemma pm_power_ok i pm :
  pm_right pm -> 1 <= i < 64 -> has pm (Z.shiftr (i - 1) 3) (Z.shiftl 1 (Z.land (i - 1) 7)) ->
  exists v, pm_power i pm = Ok (<[(Z.shiftr i 3, Z.shiftl 1 (Z.land i 7)) := v]> pm) /\
    v = pm_entry (Z.shiftr i 3) (Z.shiftl 1 (Z.land i 7)).
Proof.
  intros Hr Hi Hh. exists (MULx64 (MULxPOW64 p (Z.to_nat (i - 1)) 0x1b) 0x1b). split.
  - unfold pm_power. rewrite pm_get_right by (done || apply shl_index; lia). cbn [mbind outcome_bind].
    rewrite pm_entry_power by lia. set (q := MULxPOW64 p _ _).
    rewrite !pm_set_ok by (apply shl_index; lia). cbn [mbind outcome_bind].
    unfold MULx64. change 0x8000000000000000 with (Z.shiftl 1 63). destruct (z2b _); [|done].
    set (m := <[_ := _]> pm). unfold pm_get.
    assert ((0 <=? Z.shiftr i 3) && (Z.shiftr i 3 <? 8) && (0 <=? Z.shiftl 1 (Z.land i 7))
      && (Z.shiftl 1 (Z.land i 7) <? 256) = true) as ->.
    { rewrite !andb_true_iff, !Z.leb_le, !Z.ltb_lt. pose proof (shl_index i) as [? ?]; lia. }
    cbn [require mbind outcome_bind]. unfold m. rewrite lookup_insert_eq. cbn [of_option mbind outcome_bind].
    rewrite pm_set_ok by (apply shl_index; lia). by rewrite insert_insert_eq.
  - rewrite pm_entry_power by lia. by replace (Z.to_nat i) with (S (Z.to_nat (i - 1))) by lia.
Qed.

Lemma pow2_add j k : 0 <= j -> 0 <= k < 2 ^ j -> 2 ^ j + k = Z.lxor (2 ^ j) k.
Proof.
  intros Hj Hk. apply Z.add_nocarry_lxor. apply Z.bits_inj'. intros n Hn.
  rewrite Z.land_spec, Z.bits_0. destruct (Z.eq_dec n j) as [->|].
  - apply (range_bits j) in Hk as [_ Hk]; [|done]. by rewrite Hk, andb_false_r.
  - by rewrite Z.pow2_bits_false by lia.
Qed.

Lemma pm_sum_ok i j k pm :
  pm_right pm -> 0 <= i < 8 -> 0 <= j < 8 -> 0 <= k < 2 ^ j ->
  has pm i (2 ^ j) -> has pm i k ->
  exists v, pm_sum i j k pm = Ok (<[(i, 2 ^ j + k) := v]> pm) /\ v = pm_entry i (2 ^ j + k).
Proof.
  intros Hr Hi Hj Hk Hh1 Hh2. assert (2 ^ j <= 2 ^ 7) by (apply Z.pow_le_mono_r; lia).
  eexists. unfold pm_sum. rewrite Z.shiftl_1_l.
  rewrite (pm_get_right pm i (2 ^ j)) by (done || split; lia). cbn [mbind outcome_bind].
  rewrite (pm_get_right pm i k) by (done || split; lia). cbn [mbind outcome_bind].
  rewrite pm_set_ok by (split; lia). split; [reflexivity|].
  rewrite pow2_add by lia. unfold pm_entry. by rewrite bitsum_lxor_x.
Qed.

(** The table is filled in three steps: the zeros, the powers of two, the sums. *)
Definition zeros (n : Z) (pm : pm_t) : Prop :=
  pm_right pm /\ forall i, 0 <= i < n -> has pm i 0.

Definition powers (n : Z) (pm : pm_t) : Prop :=
  zeros 8 pm /\ forall m, 0 <= m < n -> has pm (Z.shiftr m 3) (Z.shiftl 1 (Z.land m 7)).

Definition rows (n : Z) (pm : pm_t) : Prop :=
  powers 64 pm /\ forall i x, 0 <= i < n -> 0 <= x < 256 -> has pm i x.

Definition prefix (i n : Z) (pm : pm_t) : Prop :=
  rows i pm /\ forall x, 0 <= x < n -> has pm i x.

Lemma powers_insert n pm i x v : powers n pm -> v = pm_entry i x -> powers n (<[(i, x) := v]> pm).
Proof.
  intros [[Hr Hz] Hh] Hv. repeat split; [by apply insert_right|..];
    intros; apply insert_keeps; auto.
Qed.

Lemma prefix_insert i n pm x v :
  prefix i n pm -> v = pm_entry i x -> prefix i n (<[(i, x) := v]> pm).
Proof.
  intros [[Hp' Hr] Hh] Hv. split; [split; [by apply powers_insert|]|]; intros; apply insert_keeps; auto.
Qed.

Lemma has_power pm i j : powers 64 pm -> 0 <= i < 8 -> 0 <= j < 8 -> has pm i (2 ^ j).
Proof.
  intros [_ H] Hi Hj. specialize (H (8 * i + j) ltac:(lia)).
  destruct (index8 (8 * i + j)) as (E & H1 & H2); [lia|]. rewrite Z.shiftl_1_l in H.
  assert (Z.shiftr (8 * i + j) 3 = i) as E1 by lia. assert (Z.land (8 * i + j) 7 = j) as E2 by lia.
  by rewrite E1, E2 in H.
Qed.

Lemma pm_row_step i j pm :
  0 <= i < 8 -> 1 <= j <= 7 -> prefix i (2 ^ j) pm ->
  exists pm', cfor (Z.to_nat (Z.shiftl 1 j - 1)) 1 (pm_sum i j) pm = Ok pm' /\ prefix i (2 ^ (j + 1)) pm'.
Proof.
  intros Hi Hj Hpre. assert (0 < 2 ^ j) by lia.
  destruct (cfor_inv (fun k pm => prefix i (2 ^ j + k) pm) (Z.to_nat (Z.shiftl 1 j - 1)) 1 (pm_sum i j) pm)
    as (pm' & E & H').
  - destruct Hpre as [Hrows Hx]. split; [done|]. intros x Hx'.
    destruct (decide (x = 2 ^ j)) as [->|]; [apply has_power; [apply Hrows|lia..]|apply Hx; lia].
  - rewrite Z.shiftl_1_l. intros k b Hk Hb.
    destruct (pm_sum_ok i j k b) as (v & -> & Hv); try lia; try apply Hb; try lia.
    eexists. split; [done|]. pose proof (prefix_insert _ _ _ _ _ Hb Hv) as [Hrows' Hx'].
    split; [done|]. intros x Hx. destruct (decide (x = 2 ^ j + k)) as [->|]; [apply insert_has|apply Hx'; lia].
  - exists pm'. split; [done|]. rewrite Z.shiftl_1_l in H'.
    replace (2 ^ (j + 1)) with (2 ^ j + (1 + Z.of_nat (Z.to_nat (2 ^ j - 1)))); [done|].
    rewrite Z.pow_add_r by lia. lia.
Qed.

Lemma pm_row i pm :
  0 <= i < 8 -> rows i pm ->
  exists pm', cfor 7 1 (fun j => cfor (Z.to_nat (Z.shiftl 1 j - 1)) 1 (pm_sum i j)) pm = Ok pm' /\
    rows (i + 1) pm'.
Proof.
  intros Hi Hrows.
  destruct (cfor_inv (fun j pm => prefix i (2 ^ j) pm) 7 1
    (fun j => cfor (Z.to_nat (Z.shiftl 1 j - 1)) 1 (pm_sum i j)) pm) as (pm' & E & [[Hpow Hr] Hx]).
  - split; [done|]. intros x Hx. destruct Hrows as [Hpow _].
    assert (x = 0 \/ x = 2 ^ 0) as [->| ->] by (change (2 ^ 1) with 2 in Hx; lia).
    + apply Hpow. lia.
    + apply has_power; [done|lia..].
  - intros j b Hj Hb. apply pm_row_step; [lia..|done].
  - exists pm'. split; [done|]. split; [done|]. intros i' x Hi' Hx'.
    destruct (decide (i' = i)) as [->|]; [by apply Hx|apply Hr; lia].
Qed.

Lemma pm_table_ok : exists pm, pm_table p = Ok pm /\ pm_right pm /\ forall i x, in_pm i x -> has pm i x.
Proof.
  unfold pm_table.
  destruct (cfor_inv zeros 8 0 (fun i pm => pm_set pm i 0 0) ∅) as (pm0 & -> & Hr0 & Hz0).
  { split; [intros i x v; by rewrite lookup_empty|lia]. }
  { intros i b Hi [Hr Hz]. rewrite pm_set_ok by (split; lia). eexists. split; [done|].
    split; [apply insert_right; [done|by rewrite pm_entry_0]|]. intros i' Hi'.
    destruct (decide (i' = i)) as [->|]; [apply insert_has|apply insert_keeps, Hz; lia]. }
  cbn [mbind outcome_bind]. rewrite pm_set_ok by (split; lia). cbn [mbind outcome_bind].
  destruct (cfor_inv powers 63 1 pm_power (<[(0, 1) := p]> pm0)) as (pm1 & -> & Hpow).
  { repeat split.
    - apply insert_right; [done|]. symmetry. apply (pm_entry_power 0). lia.
    - intros i Hi. apply insert_keeps, Hz0. lia.
    - intros m Hm. assert (m = 0) as -> by lia. apply insert_has. }
  { intros i b Hi Hb. destruct (pm_power_ok i b) as (v & -> & Hv); [apply Hb|lia|apply Hb; lia|].
    eexists. split; [done|]. pose proof (powers_insert _ _ _ _ _ Hb Hv) as [Hz Hh]. split; [done|].
    intros m Hm. destruct (decide (m = i)) as [->|]; [apply insert_has|apply Hh; lia]. }
  cbn [mbind outcome_bind].
  destruct (cfor_inv rows 8 0
    (fun i => cfor 7 1 (fun j => cfor (Z.to_nat (Z.shiftl 1 j - 1)) 1 (pm_sum i j))) pm1)
    as (pm2 & -> & [[[Hr _] _] Hh]).
  { split; [done|lia]. }
  { intros i b Hi Hb. apply pm_row; [lia|done]. }
  exists pm2. split; [done|]. split; [done|]. intros i x [? ?]. by apply Hh.
Qed.

(** ** [mul_p] *)

Lemma bitsum_byte f x : bitsum f (Z.land x 255) 8 = bitsum f x 8.
Proof.
  apply bitsum_ext; [|done]. intros i Hi. rewrite testbit_land_255 by lia.
  destruct (Z.ltb_spec (Z.of_nat i) 8); [done|lia].
Qed.

Lemma land_255_in i x : 0 <= i < 8 -> in_pm i (Z.land x 255).
Proof. intros Hi. split; [done|apply land_255_byte]. Qed.

Lemma mul_p_MUL64 pm x :
  pm_right pm -> (forall i x, in_pm i x -> has pm i x) -> mul_p pm x = Ok (MUL64 p x 0x1b).
Proof.
  intros Hr Hh. unfold mul_p.
  assert (Hget : forall i y, 0 <= i < 8 ->
    pm_get pm i (Z.land y 255) = Ok (bitsum (fun j => MULxPOW64 p (8 * Z.to_nat i + j) 0x1b) y 8)).
  { intros i y Hi. rewrite pm_get_right by (done || apply Hh, land_255_in || apply land_255_in; done).
    unfold pm_entry. by rewrite bitsum_byte. }
  rewrite !Hget by lia. cbn [mbind outcome_bind]. f_equal.
  rewrite MUL64_bitsum. change 64%nat with (8 + (8 + (8 + (8 + (8 + (8 + (8 + 8)))))))%nat.
  rewrite !bitsum_split, !Z.shiftr_shiftr by lia. rewrite <- !Z.lxor_assoc. done.
Qed.
End pm_table.
