(* ===== verification/SecuSnow3gUia.v ===== *)
(** * SNOW 3G: the MAC of UIA2 (EIA2, NIA1)

    [_snow3g_integrity] is the polynomial evaluation of the specification. *)

From S2P Require Import Prelude SecuSnow3gTables SecuSnow3g SecuSnow3gSpec SecuSnow3gProps SecuSnow3gCipher SecuSnow3gMac.

(** ** The words of the generator are 32 bits wide *)

Definition is_u32 (x : Z) : Prop := 0 <= x < 2 ^ 32.

Record spec_wf (s : spec_state) : Prop := {
  wf_len : length (sp_reg s) = 16%nat;
  wf_reg : Forall is_u32 (sp_reg s);
  wf_r1 : is_u32 (sp_r1 s);
  wf_r2 : is_u32 (sp_r2 s);
  wf_r3 : is_u32 (sp_r3 s);
}.

Lemma lxor_u32 x y : is_u32 x -> is_u32 y -> is_u32 (Z.lxor x y).
Proof. by apply (lxor_range 32). Qed.

Lemma u32_is_u32 x : is_u32 (u32 x).
Proof. by apply Z.mod_pos_bound. Qed.

Lemma word_u32 b0 b1 b2 b3 : is_byte b0 -> is_byte b1 -> is_byte b2 -> is_byte b3 -> is_u32 (word b0 b1 b2 b3).
Proof.
  intros H0 H1 H2 H3. apply (range_bits 32); [done|]. split.
  - unfold is_byte in *. unfold word. rewrite !Z.lor_nonneg, !Z.shiftl_nonneg. lia.
  - intros m Hm. rewrite word_testbit by (done || lia).
    repeat case_if; try lia. by rewrite testbit_byte by (done || lia).
Qed.

Lemma nth_u32 l i : Forall is_u32 l -> is_u32 (nth i l 0).
Proof.
  intros H. destruct (nth_in_or_default i l 0) as [Hi|E]; [|by rewrite E].
  rewrite Forall_forall in H. by apply H, list_elem_of_In.
Qed.

Lemma sbox_byte S c t0 t1 t2 t3 x : sbox_tables S c t0 t1 t2 t3 = true -> is_byte x -> is_byte (S x).
Proof.
  intros Ht Hx. pose proof (bytes_forall _ x Ht Hx) as E. cbv beta zeta in E. zify_bool. by split.
Qed.

Lemma mix_u32 S c w : is_byte c -> (forall x, is_byte x -> is_byte (S x)) -> is_u32 (mix S c w).
Proof.
  intros Hc HS. assert (Ha : forall i, is_byte (S (byte w i))) by (intros; apply HS, byte_is_byte).
  assert (Hm : forall i, is_byte (MULx (S (byte w i)) c)) by (intros; apply MULx_byte, Hc).
  unfold mix. cbv zeta.
  apply word_u32; repeat match goal with |- is_byte (Z.lxor _ _) => apply lxor_is_byte end;
    first [apply Ha | apply Hm].
Qed.

Lemma S1_u32 w : is_u32 (S1 w).
Proof.
  apply mix_u32; [done|]. intros x. apply (sbox_byte SR 0x1b s1_t0 s1_t1 s1_t2 s1_t3), s1_tables_ok.
Qed.

Lemma S2_u32 w : is_u32 (S2 w).
Proof.
  apply mix_u32; [done|]. intros x. apply (sbox_byte SQ 0x69 s2_t0 s2_t1 s2_t2 s2_t3), s2_tables_ok.
Qed.

Lemma MULxPOW_byte v i c : is_byte v -> is_byte c -> is_byte (MULxPOW v i c).
Proof. intros Hv Hc. induction i; [done|]. by apply MULx_byte. Qed.

#[local] Opaque S1 S2 MULxPOW.

Lemma MULalpha_u32 c : is_byte c -> is_u32 (MULalpha c).
Proof.
  intros Hc. unfold MULalpha, DIValpha. assert (H : is_byte 0xA9) by (by split).
  apply word_u32; (apply MULxPOW_byte; [exact Hc|exact H]).
Qed.

Lemma DIValpha_u32 c : is_byte c -> is_u32 (DIValpha c).
Proof.
  intros Hc. unfold MULalpha, DIValpha. assert (H : is_byte 0xA9) by (by split).
  apply word_u32; (apply MULxPOW_byte; [exact Hc|exact H]).
Qed.

Lemma land_ones_u32 x n : 0 <= n <= 32 -> is_u32 (Z.land x (Z.ones n)).
Proof.
  intros Hn. rewrite Z.land_ones by lia. unfold is_u32.
  pose proof (Z.mod_pos_bound x (2 ^ n)). assert (2 ^ n <= 2 ^ 32) by (apply Z.pow_le_mono_r; lia). lia.
Qed.

Lemma spec_word_u32 reg : Forall is_u32 reg -> is_u32 (spec_word reg).
Proof.
  intros Hr. unfold spec_word. cbn [foldr].
  change 0xffffffff with (Z.ones 32). change 0xffffff with (Z.ones 24).
  repeat apply lxor_u32; try done; try (by apply land_ones_u32); try (by apply nth_u32).
  - apply MULalpha_u32, byte_is_byte.
  - apply DIValpha_u32, byte_is_byte.
Qed.

Lemma spec_lfsr_wf s f : spec_wf s -> is_u32 f -> spec_wf (spec_lfsr s f).
Proof.
  intros [Hl Hr H1 H2 H3] Hf. split; cbn [spec_lfsr sp_reg sp_r1 sp_r2 sp_r3]; try done.
  - rewrite length_app. destruct (sp_reg s); [done|]. cbn in *. lia.
  - apply Forall_app. split; [destruct Hr; [done|done]|].
    constructor; [|done]. by apply lxor_u32; [apply spec_word_u32|].
Qed.

Lemma spec_fsm_wf s : spec_wf s -> is_u32 (spec_fsm s).1 /\ spec_wf (spec_fsm s).2.
Proof.
  intros [Hl Hr H1 H2 H3]. split; cbn [spec_fsm fst snd].
  - apply lxor_u32; [apply u32_is_u32|done].
  - split; cbn [sp_reg sp_r1 sp_r2 sp_r3]; try done; [apply u32_is_u32|apply S1_u32|apply S2_u32].
Qed.

Lemma spec_rounds_wf n s : spec_wf s -> spec_wf (spec_rounds n s).
Proof.
  revert s. induction n as [|n IH]; intros s Hs; [done|]. cbn [spec_rounds].
  pose proof (spec_fsm_wf s Hs) as [Hf Hs']. destruct (spec_fsm s) as [f s']. by apply IH, spec_lfsr_wf.
Qed.

Lemma spec_keystream_u32 n s : spec_wf s -> Forall is_u32 (spec_keystream n s).
Proof.
  revert s. induction n as [|n IH]; intros s Hs; [constructor|]. cbn [spec_keystream].
  pose proof (spec_fsm_wf s Hs) as [Hf Hs']. destruct (spec_fsm s) as [f s']. constructor.
  - apply lxor_u32; [done|]. apply nth_u32, Hs'.
  - by apply IH, spec_lfsr_wf.
Qed.

Lemma spec_init_wf k0 k1 k2 k3 iv0 iv1 iv2 iv3 :
  Forall is_u32 [k0; k1; k2; k3; iv0; iv1; iv2; iv3] -> spec_wf (spec_init k0 k1 k2 k3 iv0 iv1 iv2 iv3).
Proof.
  rewrite !Forall_cons. intros (?&?&?&?&?&?&?&?&_). unfold spec_init.
  apply spec_lfsr_wf; [|done]. apply spec_fsm_wf, spec_rounds_wf.
  assert (is_u32 0xffffffff) by done.
  split; try done. cbn [sp_reg]. unfold snow3g_start. cbv zeta. rewrite !Forall_cons, Forall_nil.
  split_and!; auto using lxor_u32.
Qed.

Lemma spec_keystream_count n s : length (spec_keystream n s) = n.
Proof.
  revert s. induction n as [|n IH]; intros s; [done|]. cbn [spec_keystream].
  destruct (spec_fsm s) as [f s']. cbn. by rewrite IH.
Qed.

(** ** The specification of the MAC *)

(** UIA2: IV3 = COUNT, IV2 = FRESH, and the direction flips a bit of the others. *)
Definition uia2_start (count fresh direction : Z) (key : list Z) : spec_state :=
  spec_init (word_at key 3) (word_at key 2) (word_at key 1) (word_at key 0)
    (Z.lxor fresh (Z.shiftl direction 15)) (Z.lxor count (Z.shiftl direction 31)) fresh count.

(** The message as 64-bit words; the last one is padded with zeros. *)
Definition block (message : list Z) (i : nat) : Z :=
  let m := drop (8 * i) message in
  Z.lor (Z.shiftl (word_at m 0) 32) (word_at m 1).

Definition uia2_eval (p : Z) (message : list Z) : Z :=
  foldl (fun eval i => MUL64 (Z.lxor eval (block message i)) p 0x1b) 0
    (seq 0 (Z.to_nat ((zlen message + 7) / 8))).

Definition uia2_mac (count fresh direction : Z) (key message : list Z) : Z :=
  match spec_keystream 5 (uia2_start count fresh direction key) with
  | [z1; z2; z3; z4; z5] =>
      let p := Z.lor (Z.shiftl z1 32) z2 in
      let q := Z.lor (Z.shiftl z3 32) z4 in
      let eval := MUL64 (Z.lxor (uia2_eval p message) (zlen message * 8)) q 0x1b in
      Z.lxor (Z.shiftr eval 32) z5
  | _ => 0
  end.

(** ** The message *)

Lemma two_words_u64 a b : is_u32 a -> is_u32 b -> is_u64 (Z.lor (Z.shiftl a 32) b).
Proof.
  intros Ha Hb. apply (range_bits 64); [done|]. split.
  - unfold is_u32 in *. rewrite Z.lor_nonneg, Z.shiftl_nonneg. lia.
  - intros m Hm. rewrite Z.lor_spec, Z.shiftl_spec by lia.
    apply (range_bits 32) in Ha as [_ Ha], Hb as [_ Hb]; [|done..]. rewrite Ha, Hb by lia. done.
Qed.

Lemma nth_byte l i : bytes_ok l -> is_byte (nth i l 0).
Proof.
  intros H. destruct (nth_in_or_default i l 0) as [Hi|E]; [|by rewrite E].
  rewrite Forall_forall in H. by apply H, list_elem_of_In.
Qed.

Lemma word_at_u32 b i : bytes_ok b -> is_u32 (word_at b i).
Proof. intros H. unfold word_at. apply word_u32; apply nth_byte, H. Qed.

Lemma block_u64 m i : bytes_ok m -> is_u64 (block m i).
Proof. intros H. unfold block. apply two_words_u64; apply word_at_u32, Forall_drop, H. Qed.

Lemma get64_byte_ok p off n i :
  0 <= off -> 1 <= n <= 8 -> 0 <= i < 8 -> off + n <= zlen p ->
  get64_byte p off n i = Ok (nth (Z.to_nat i) (take (Z.to_nat n) (drop (Z.to_nat off) p)) 0).
Proof.
  intros Ho Hn Hi Hl. unfold get64_byte.
  assert ((1 <=? n) && (n <=? 8) = true) as ->; [rewrite andb_true_iff, !Z.leb_le; lia|].
  cbn [andb]. destruct (Z.ltb_spec i n).
  - rewrite zget_nth by lia. cbn [of_option]. f_equal.
    rewrite nth_firstn. destruct (Nat.ltb_spec (Z.to_nat i) (Z.to_nat n)); [|lia].
    rewrite nth_skipn. f_equal. lia.
  - rewrite nth_overflow; [done|]. rewrite length_take. lia.
Qed.

Lemma GET64_ok p off n :
  0 <= off -> 1 <= n <= 8 -> off + n <= zlen p ->
  GET64 p off n = Ok (block (take (Z.to_nat n) (drop (Z.to_nat off) p)) 0).
Proof.
  intros Ho Hn Hl. unfold GET64. rewrite !get64_byte_ok by lia. cbn [mbind outcome_bind]. f_equal.
  unfold block, word_at, word. cbn [Nat.mul drop Nat.add Z.to_nat Pos.to_nat Pos.iter_op].
  rewrite !Z.shiftl_lor, !Z.shiftl_shiftl by lia. rewrite !Z.lor_assoc. done.
Qed.

(** Restricting the message to a block does not change the block. *)
Lemma block_take m i : block (take 8 (drop (8 * i) m)) 0 = block m i.
Proof.
  unfold block. change (8 * 0)%nat with 0%nat. rewrite drop_0. unfold word_at.
  rewrite !nth_firstn. done.
Qed.

Lemma block_0_drop m i : block (drop (8 * i) m) 0 = block m i.
Proof. unfold block. change (8 * 0)%nat with 0%nat. by rewrite drop_0. Qed.

(** ** The MAC *)

Lemma spec_key_wf key : bytes_ok key -> Forall is_u32 [word_at key 3; word_at key 2; word_at key 1; word_at key 0].
Proof. intros H. repeat constructor; apply word_at_u32, H. Qed.

Lemma integrity_iv_words count fresh direction :
  is_u32 count -> is_u32 fresh -> 0 <= direction < 2 ->
  let iv := integrity_iv count fresh direction in
  zlen iv = 16 /\ word_at iv 0 = Z.lxor fresh (Z.shiftl direction 15) /\
  word_at iv 1 = Z.lxor count (Z.shiftl direction 31) /\ word_at iv 2 = fresh /\ word_at iv 3 = count.
Proof.
  intros Hc Hf Hd. cbv zeta. assert (Hb : forall x, is_byte (Z.land x 255)) by apply land_255_byte.
  assert (E : direction = 0 \/ direction = 1) by lia.
  unfold word_at, integrity_iv, word_bytes. cbn [nth app Nat.mul Nat.add].
  rewrite (word_of_bytes fresh), (word_of_bytes count) by done.
  split; [done|]. rewrite <- (word_of_bytes fresh Hf) at 5. rewrite <- (word_of_bytes count Hc) at 5.
  assert (Hd15 : Z.shiftl direction 15 = word 0 0 (Z.shiftl (Z.land direction 1) 7) 0) by (by destruct E as [->| ->]).
  assert (Hd31 : Z.shiftl direction 31 = word (Z.shiftl (Z.land direction 1) 7) 0 0 0) by (by destruct E as [->| ->]).
  assert (Hd8 : is_byte (Z.shiftl (Z.land direction 1) 7)) by (by destruct E as [->| ->]).
  assert (H0 : is_byte 0) by (by split).
  rewrite Hd15, Hd31, !word_lxor by auto. by rewrite !Z.lxor_0_r.
Qed.

Lemma uia2_start_wf count fresh direction key :
  is_u32 count -> is_u32 fresh -> 0 <= direction < 2 -> bytes_ok key ->
  spec_wf (uia2_start count fresh direction key).
Proof.
  intros Hc Hf Hd Hk. assert (E : direction = 0 \/ direction = 1) by lia.
  assert (is_u32 (Z.shiftl direction 15)) by (by destruct E as [->| ->]).
  assert (is_u32 (Z.shiftl direction 31)) by (by destruct E as [->| ->]).
  unfold uia2_start. apply spec_init_wf. pose proof (spec_key_wf key Hk) as Hkw. rewrite !Forall_cons in *.
  destruct Hkw as (?&?&?&?&_). split_and!; auto using lxor_u32.
Qed.

(** A block of the message is read from the buffer. *)
Lemma GET64_block input length i n :
  (8 * i < Z.to_nat length)%nat -> length <= zlen input -> n = Z.min 8 (length - Z.of_nat i * 8) ->
  GET64 input (Z.of_nat i * 8) n = Ok (block (take (Z.to_nat length) input) i).
Proof.
  intros Hi Hl ->. rewrite GET64_ok by lia. f_equal.
  replace (Z.to_nat (Z.of_nat i * 8)) with (8 * i)%nat by lia.
  rewrite <- (block_take (take (Z.to_nat length) input)), skipn_firstn_comm, take_take.
  do 2 f_equal. lia.
Qed.

Lemma uia2_eval_snoc p message n :
  Z.to_nat ((zlen message + 7) / 8) = S n ->
  uia2_eval p message =
    MUL64 (Z.lxor (foldl (fun eval i => MUL64 (Z.lxor eval (block message i)) p 0x1b) 0 (seq 0 n))
             (block message n)) p 0x1b.
Proof. intros E. unfold uia2_eval. by rewrite E, seq_S, foldl_app. Qed.

(** The evaluation of the message, the last block with what is left of it. *)
Lemma integrity_eval_ok p pm input length :
  is_u64 p -> pm_right p pm -> (forall i x, in_pm i x -> has pm i x) ->
  0 < length <= zlen input -> bytes_ok input ->
  integrity_eval pm input length = Ok (uia2_eval p (take (Z.to_nat length) input)).
Proof.
  intros Hp Hr Hh Hl Hb. unfold integrity_eval.
  set (m := take (Z.to_nat length) input). assert (Hm : zlen m = length) by (unfold m; apply zlen_take; lia).
  pose proof (Z.div_mod (length + 7) 8 ltac:(done)). pose proof (Z.mod_pos_bound (length + 7) 8 ltac:(done)).
  pose proof (Z.div_mod (length * 8 + 63) 64 ltac:(done)).
  pose proof (Z.mod_pos_bound (length * 8 + 63) 64 ltac:(done)).
  set (n := Z.to_nat ((length + 7) / 8 - 1)). assert (Hn1 : Z.to_nat ((length + 7) / 8) = S n) by lia.
  assert (Hn : 8 * Z.of_nat n < length <= 8 * Z.of_nat n + 8) by lia.
  assert (Hd : Z.quot (length * 8 + 63) 64 + 1 = Z.of_nat n + 2) by (rewrite Z.quot_div_nonneg by lia; lia).
  clearbody n.
  rewrite Hd. replace (Z.of_nat n + 2 - 2) with (Z.of_nat n) by lia. rewrite Nat2Z.id.
  assert (Hbm : bytes_ok m) by (by apply Forall_take).
  set (step := fun eval i => MUL64 (Z.lxor eval (block m i)) p 0x1b).
  assert (Hrange : forall k, is_u64 (foldl step 0 (seq 0 k))).
  { induction k as [|k IH]; [done|]. rewrite seq_S, foldl_app. apply MUL64_range; [|done].
    apply (lxor_range 64); [done|done|]. by apply block_u64. }
  assert (Hstep : forall k, mul_p pm (Z.lxor (foldl step 0 (seq 0 k)) (block m k)) = Ok (foldl step 0 (seq 0 (S k)))).
  { intros k. rewrite (mul_p_MUL64 p) by done. rewrite seq_S, foldl_app. cbn [foldl]. unfold step at 2.
    rewrite MUL64_comm; [done|done|]. apply (lxor_range 64); [done|apply Hrange|by apply block_u64]. }
  destruct (cfor_inv (fun i eval => eval = foldl step 0 (seq 0 (Z.to_nat i))) n 0
    (fun i eval => m ← GET64 input (i * 8) 8; mul_p pm (Z.lxor eval m)) 0) as (eval & -> & ->).
  - done.
  - intros i eval Hi ->. exists (foldl step 0 (seq 0 (S (Z.to_nat i)))).
    rewrite <- (Z2Nat.id i) at 1 by lia.
    rewrite (GET64_block input length) by lia. cbn [mbind outcome_bind]. rewrite Hstep. split; [done|].
    by replace (Z.to_nat (i + 1)) with (S (Z.to_nat i)) by lia.
  - cbn [mbind outcome_bind]. rewrite (GET64_block input length) by lia. cbn [mbind outcome_bind].
    replace (Z.to_nat (0 + Z.of_nat n)) with n by lia. fold m. rewrite Hstep.
    rewrite (uia2_eval_snoc p m n) by (by rewrite Hm). by rewrite seq_S, foldl_app.
Qed.

Section parameters.
Context (count fresh direction : Z) (key : list Z).
Context (Hcount : 0 <= count < 2 ^ 32) (Hfresh : 0 <= fresh < 2 ^ 32) (Hdirection : 0 <= direction < 2).
Context (Hkey : zlen key = 16) (Hbytes : bytes_ok key).

Lemma integrity_mac length input :
  0 < length < 2 ^ 28 -> length <= zlen input -> bytes_ok input ->
  _snow3g_integrity count fresh direction key length input
  = Ok (word_bytes (uia2_mac count fresh direction key (take (Z.to_nat length) input))).
Proof.
  intros Hl Hin Hb. unfold _snow3g_integrity, uia2_mac.
  destruct (key_words_ok key Hkey) as (k & -> & Hk16 & E0 & E1 & E2 & E3). cbn [mbind outcome_bind].
  destruct (integrity_iv_words count fresh direction Hcount Hfresh Hdirection) as (Hiv & I0 & I1 & I2 & I3).
  destruct (snow3g_init_rel k _ Hk16 Hiv) as (s & -> & Hr). cbn [mbind outcome_bind].
  rewrite (generate_keystream_rel _ _ _ Hr). cbn [mbind outcome_bind].
  unfold spec_start in *. rewrite E0, E1, E2, E3, I0, I1, I2, I3 in *.
  fold (uia2_start count fresh direction key).
  pose proof (spec_keystream_u32 5 _ (uia2_start_wf count fresh direction key Hcount Hfresh Hdirection Hbytes)) as Hz.
  pose proof (spec_keystream_count 5 (uia2_start count fresh direction key)) as Hn.
  destruct (spec_keystream 5 _) as [|z1 [|z2 [|z3 [|z4 [|z5 [|? ?]]]]]]; try discriminate Hn.
  rewrite !Forall_cons in Hz. destruct Hz as (?&?&?&?&?&_).
  assert (Hp : is_u64 (Z.lor (Z.shiftl z1 32) z2)) by (by apply two_words_u64).
  destruct (pm_table_ok (Z.lor (Z.shiftl z1 32) z2)) as (pm & -> & Hright & Hhas). cbn [mbind outcome_bind].
  rewrite (integrity_eval_ok _ pm input length Hp Hright Hhas) by (done || lia). cbn [mbind outcome_bind].
  rewrite zlen_take by lia. unfold u64. rewrite Z.mod_small by lia. done.
Qed.
End parameters.

(** C23: for a 16-byte key, parameters of the widths of the standard and a
    message that is not empty, [_snow3g_integrity] never fails (it reads no
    entry of its table that was not computed and no byte after the message)
    and its four bytes are the MAC of UIA2: the table of 8 x 256 products is
    the multiplication by P in GF(2^64), and the blocks, the last one of them
    padded with zeros, are evaluated as the specification does. *)
Theorem snow3g_integrity_correct count fresh direction key length input :
  0 <= count < 2 ^ 32 -> 0 <= fresh < 2 ^ 32 -> 0 <= direction < 2 ->
  zlen key = 16 -> bytes_ok key ->
  0 < length < 2 ^ 28 -> length <= zlen input -> bytes_ok input ->
  _snow3g_integrity count fresh direction key length input
  = Ok (word_bytes (uia2_mac count fresh direction key (take (Z.to_nat length) input))).
Proof. intros. by apply integrity_mac. Qed.

(** [mul_p] with the table of [p] is the multiplication by [p] of the
    specification, for every 64-bit [p] and [x]; the multiplication commutes. *)
Theorem mul_p_correct p x :
  is_u64 p -> is_u64 x ->
  exists pm, pm_table p = Ok pm /\ mul_p pm x = Ok (MUL64 x p 0x1b) /\ MUL64 x p 0x1b = MUL64 p x 0x1b.
Proof.
  intros Hp Hx. destruct (pm_table_ok p) as (pm & -> & Hr & Hh). exists pm.
  rewrite (mul_p_MUL64 p) by done. by rewrite (MUL64_comm x p).
Qed.

Lemma mul_p_correct_witness :
  exists pm, pm_table 0x8000000000000003 = Ok pm /\
    mul_p pm 0xF000000000000001 = Ok (MUL64 0xF000000000000001 0x8000000000000003 0x1b) /\
    MUL64 0xF000000000000001 0x8000000000000003 0x1b = MUL64 0x8000000000000003 0xF000000000000001 0x1b.
Proof. apply (mul_p_correct 0x8000000000000003 0xF000000000000001); vm_compute; intuition congruence. Defined.

(** ** Test set 4 of UIA2 *)
Definition uia2_key : list Z :=
  [0xC7; 0x36; 0xC6; 0xAA; 0xB2; 0x2B; 0xFF; 0xF9; 0x1E; 0x26; 0x98; 0xD2; 0xE2; 0x2A; 0xD5; 0x7E].
Definition uia2_message : list Z :=
  [0xD0; 0xA7; 0xD4; 0x63; 0xDF; 0x9F; 0xB2; 0xB2; 0x78; 0x83; 0x3F; 0xA0; 0x2E; 0x23; 0x5A; 0xA1;
   0x72; 0xBD; 0x97; 0x0C; 0x14; 0x73; 0xE1; 0x29; 0x07; 0xFB; 0x64; 0x8B; 0x65; 0x99; 0xAA; 0xA0;
   0xB2; 0x4A; 0x03; 0x86; 0x65; 0x42; 0x2B; 0x20; 0xA4; 0x99; 0x27; 0x6A; 0x50; 0x42; 0x70; 0x09].

Example uia2_test_set_4 :
  _snow3g_integrity 0x14793E41 0x0397E8FD 1 uia2_key 48 uia2_message = Ok [0x38; 0xB5; 0x54; 0xC0].
Proof. vm_compute. reflexivity. Qed.

(** With length 0 the last block is read eight bytes before the buffer. *)
Example snow3g_integrity_empty :
  snow3g_integrity 0x14793E41 1 1 uia2_key 0 uia2_message = Fault OutOfBounds.
Proof. vm_compute. reflexivity. Qed.

Lemma snow3g_integrity_correct_witness :
  _snow3g_integrity 0x14793E41 0x0397E8FD 1 uia2_key 45 uia2_message
  = Ok (word_bytes (uia2_mac 0x14793E41 0x0397E8FD 1 uia2_key (take 45 uia2_message))).
Proof.
  apply (snow3g_integrity_correct 0x14793E41 0x0397E8FD 1 uia2_key 45 uia2_message);
    first [split; reflexivity | reflexivity | repeat constructor; discriminate | vm_compute; intuition congruence].
Defined.
