(* ===== verification/TimeStat.v ===== *)
(** * Windowed time averages (src/common/utils/time_stat.c)

    The ring buffer behind the RLC waiting-time statistics.  [ring_list] is the
    queue it implements; the theorems say that adding and expiring samples are
    queue operations, also when the buffer is grown while it wraps around, and
    that [accumulated_value] is the sum of the queue. *)

From S2P Require Import Prelude.

(** ** Data *)

Record time_value_t := mk_time_value { tv_time : Z; tv_value : Z }.

Record time_ring_t := mk_time_ring {
  r_head : Z;
  r_tail : Z;
  r_buffer : list time_value_t;
  r_maxsize : Z;
  r_size : Z;
}.
#[export] Instance eta_time_ring : RecordEta time_ring_t :=
  fld (fld (fld (fld (fld (fun _ => mk_time_ring) r_head) r_tail) r_buffer) r_maxsize) r_size.

Record time_average_t := mk_time_average {
  ta_duration : Z;               (* unit: microsecond *)
  ta_r : time_ring_t;
  ta_accumulated_value : Z;
}.
#[export] Instance eta_time_average : RecordEta time_average_t :=
  fld (fld (fld (fun _ => mk_time_average) ta_duration) ta_r) ta_accumulated_value.

(** What [calloc] and the fresh part of [realloc] hold. *)
Definition tv_blank : time_value_t := mk_time_value 0 0.

(** ** Operations *)

Definition time_average_new (duration initial_size : Z) : outcome time_average_t :=
  if z2b (Z.land initial_size (initial_size - 1)) then Fault Exit
  else Ok (mk_time_average duration
             (mk_time_ring (initial_size - 1) 0
                (replicate (Z.to_nat initial_size) tv_blank) initial_size 0) 0).

Definition time_average_reset (t : time_average_t) : time_average_t :=
  t <| ta_r := (ta_r t) <| r_head := r_maxsize (ta_r t) - 1 |>
                        <| r_tail := 0 |> <| r_size := 0 |> |>
    <| ta_accumulated_value := 0 |>.

(** The loop of [remove_old]; one round per sample, [fuel] is their number. *)
Fixpoint remove_old_loop (fuel : nat) (t : time_average_t) (time : Z) : outcome time_average_t :=
  let r := ta_r t in
  if r_size r =? 0 then Ok t
  else
    match fuel with
    | O => Fault Diverge
    | S fuel =>
        v ← of_option OutOfBounds (zget (r_buffer r) (r_tail r));
        if tv_time v <? u64 (time - ta_duration t) then
          let t := t <| ta_accumulated_value := u64 (ta_accumulated_value t - tv_value v) |> in
          let r := r <| r_size := r_size r - 1 |> in
          let r := r <| r_tail := (r_tail r + 1) mod r_maxsize r |> in
          remove_old_loop fuel (t <| ta_r := r |>) time
        else Ok t
    end.

Definition remove_old (t : time_average_t) (time : Z) : outcome time_average_t :=
  remove_old_loop (Z.to_nat (r_size (ta_r t))) t time.

(** The buffer doubles when it is full; a wrapped prefix moves behind it. *)
Definition ring_grow (r : time_ring_t) : outcome time_ring_t :=
  if r_size r =? r_maxsize r then
    let r := r <| r_maxsize := r_maxsize r * 2 |>
               <| r_buffer := r_buffer r ++ replicate (length (r_buffer r)) tv_blank |> in
    if r_head r <? r_tail r then
      src ← of_option OutOfBounds (zslice (r_buffer r) 0 (r_head r + 1));
      buffer ← of_option OutOfBounds (zblit (r_buffer r) (r_size r) src);
      Ok (r <| r_buffer := buffer |> <| r_head := r_head r + r_size r |>)
    else Ok r
  else Ok r.

Definition time_average_add (t : time_average_t) (time value : Z) : outcome time_average_t :=
  t ← remove_old t time;
  r ← ring_grow (ta_r t);
  let r := r <| r_head := (r_head r + 1) mod r_maxsize r |> in
  buffer ← of_option OutOfBounds (zset (r_buffer r) (r_head r) (mk_time_value time value));
  let r := r <| r_buffer := buffer |> <| r_size := r_size r + 1 |> in
  Ok (t <| ta_r := r |>
        <| ta_accumulated_value := u64 (ta_accumulated_value t + value) |>).

(** The average as numerator and denominator, [None] for the C 0. *)
Definition time_average_get_average (t : time_average_t) (time : Z)
    : outcome (option (Z * Z) * time_average_t) :=
  t ← remove_old t time;
  if r_size (ta_r t) =? 0 then Ok (None, t)
  else Ok (Some (ta_accumulated_value t, r_size (ta_r t)), t).

(** ** The queue *)

Definition ring_index (r : time_ring_t) (i : nat) : Z := (r_tail r + Z.of_nat i) mod r_maxsize r.

Definition ring_list (r : time_ring_t) : list time_value_t :=
  (fun i => default tv_blank (zget (r_buffer r) (ring_index r i))) <$> seq 0 (Z.to_nat (r_size r)).

Definition ring_ok (r : time_ring_t) : Prop :=
  0 < r_maxsize r /\ zlen (r_buffer r) = r_maxsize r /\
  0 <= r_size r <= r_maxsize r /\ 0 <= r_tail r < r_maxsize r /\
  r_head r = (r_tail r + r_size r - 1) mod r_maxsize r.

Definition average_ok (t : time_average_t) : Prop :=
  ring_ok (ta_r t) /\
  ta_accumulated_value t = u64 (zsum tv_value (ring_list (ta_r t))).

(** The samples that are not too old, as a queue operation. *)
Fixpoint expire (limit : Z) (l : list time_value_t) : list time_value_t :=
  match l with
  | v :: l' => if tv_time v <? limit then expire limit l' else l
  | [] => []
  end.

Lemma ring_list_cons r :
  ring_ok r -> 0 < r_size r ->
  exists v, zget (r_buffer r) (r_tail r) = Some v /\
    let r' := r <| r_size := r_size r - 1 |> <| r_tail := (r_tail r + 1) mod r_maxsize r |> in
    ring_ok r' /\ ring_list r = v :: ring_list r'.
Proof.
  intros (Hm & Hl & Hs & Ht & Hh) Hpos.
  destruct (zget_ok (r_buffer r) (r_tail r)) as [v Hv]; [lia|].
  exists v. split; [done|]. intros r'. split.
  - unfold ring_ok, r'. field_simpl. split_and!; try lia; try (by apply Z.mod_pos_bound).
    rewrite Hh, <- (Z.add_sub_assoc (_ mod _)), Zplus_mod_idemp_l. f_equal. lia.
  - unfold ring_list. unfold r' at 2. field_simpl.
    replace (Z.to_nat (r_size r)) with (S (Z.to_nat (r_size r - 1))) by lia.
    cbn [seq]. rewrite fmap_cons. f_equal.
    + unfold ring_index. rewrite Z.add_0_r, Z.mod_small by lia. by rewrite Hv.
    + rewrite <- fmap_S_seq, <- list_fmap_compose. apply list_fmap_ext. intros _ i _.
      cbn. unfold r', ring_index. field_simpl. do 2 f_equal.
      rewrite Zplus_mod_idemp_l. f_equal. lia.
Qed.

Lemma ring_list_nil r : r_size r = 0 -> ring_list r = [].
Proof. unfold ring_list. by intros ->. Qed.

Lemma ring_list_length r : 0 <= r_size r -> zlen (ring_list r) = r_size r.
Proof. intros. unfold ring_list, zlen. rewrite length_fmap, length_seq. lia. Qed.

Lemma remove_old_loop_correct fuel t time :
  average_ok t -> r_size (ta_r t) <= Z.of_nat fuel ->
  exists t', remove_old_loop fuel t time = Ok t' /\ average_ok t' /\
    ta_duration t' = ta_duration t /\
    ring_list (ta_r t') = expire (u64 (time - ta_duration t)) (ring_list (ta_r t)).
Proof.
  revert t. induction fuel as [|fuel IH]; intros t [Hr Hacc] Hf; cbn [remove_old_loop].
  - pose proof Hr as (?&?&?&?&?). destruct (_ =? 0) eqn:E; zify_bool; [|lia].
    exists t. rewrite ring_list_nil by done. by split_and!.
  - destruct (_ =? 0) eqn:E; zify_bool.
    { exists t. rewrite ring_list_nil by done. by split_and!. }
    destruct (ring_list_cons (ta_r t) Hr) as (v & Hv & Hok & Hlist).
    { destruct Hr as (?&?&?&?&?). lia. }
    rewrite Hv. cbn [of_option mbind outcome_bind]. rewrite Hlist. cbn [expire].
    destruct (_ <? _) eqn:El; [|exists t; rewrite Hlist; by split_and!].
    field_simpl.
    match goal with |- exists _, remove_old_loop _ ?t1 _ = _ /\ _ => destruct (IH t1) as (t' & H & ?) end.
    + split; [done|]. field_simpl. rewrite Hacc, Hlist, zsum_cons. unfold u64.
      rewrite Zminus_mod_idemp_l. f_equal. lia.
    + field_simpl. lia.
    + exists t'. split; [exact H|done].
Qed.

(** Removing what is too old is the queue operation, and always returns. *)
Lemma remove_old_correct t time :
  average_ok t ->
  exists t', remove_old t time = Ok t' /\ average_ok t' /\ ta_duration t' = ta_duration t /\
    ring_list (ta_r t') = expire (u64 (time - ta_duration t)) (ring_list (ta_r t)).
Proof.
  intros H. apply remove_old_loop_correct; [done|].
  destruct H as [(?&?&?&?&?) _]. lia.
Qed.

(** The element of the grown buffer where the wrapped prefix was. *)
Lemma zget_replicate {A} (l : list A) n x i :
  0 <= i < zlen l -> zget (l ++ replicate n x) i = zget l i.
Proof.
  intros. unfold zget, zlen in *. destruct (0 <=? i) eqn:E; [|done].
  apply lookup_app_l. lia.
Qed.

Lemma zget_zblit {A} (l src l' : list A) off i :
  zblit l off src = Some l' ->
  zget l' i = if (off <=? i) && (i <? off + zlen src) then zget src (i - off) else zget l i.
Proof.
  rewrite zblit_Some. intros (Ho & Hl & ->). unfold zget, zlen in *.
  destruct (0 <=? i) eqn:E0; zify_bool.
  2: { destruct (_ && _) eqn:E; zify_bool; [lia|done]. }
  destruct (_ && _) eqn:E; zify_bool.
  - destruct (0 <=? i - off) eqn:E1; zify_bool; [|lia].
    rewrite lookup_app_r by (rewrite length_take; lia). rewrite length_take.
    rewrite lookup_app_l by lia. f_equal. lia.
  - apply andb_false_iff in E as [E|E]; zify_bool.
    + rewrite lookup_app_l by (rewrite length_take; lia). rewrite lookup_take_lt by lia. done.
    + rewrite lookup_app_r by (rewrite length_take; lia). rewrite length_take.
      rewrite lookup_app_r by lia. rewrite lookup_drop. f_equal. lia.
Qed.

Lemma zget_zslice {A} (l s : list A) off len i :
  zslice l off len = Some s -> 0 <= i < len -> zget s i = zget l (off + i).
Proof.
  rewrite zslice_Some. intros (?&?&?&->) Hi. unfold zget.
  destruct (0 <=? i) eqn:E0, (0 <=? off + i) eqn:E1; zify_bool; try lia.
  rewrite lookup_take_lt by lia. rewrite lookup_drop. f_equal. lia.
Qed.

Lemma ring_list_ext r r' :
  r_size r = r_size r' ->
  (forall i, (i < Z.to_nat (r_size r))%nat ->
     zget (r_buffer r) (ring_index r i) = zget (r_buffer r') (ring_index r' i)) ->
  ring_list r = ring_list r'.
Proof.
  intros Hs H. unfold ring_list. rewrite <- Hs. apply list_fmap_ext. intros j i Hi.
  apply lookup_seq in Hi as [Ei Hi]. cbn in Ei. subst i. by rewrite H.
Qed.

(** Growing keeps the queue and leaves room. *)
Lemma ring_grow_correct r :
  ring_ok r ->
  exists r', ring_grow r = Ok r' /\ ring_ok r' /\ r_size r' = r_size r /\
    r_size r' < r_maxsize r' /\ ring_list r' = ring_list r.
Proof.
  intros (Hm & Hl & Hs & Ht & Hh). unfold ring_grow.
  destruct (r_size r =? r_maxsize r) eqn:E; zify_bool.
  2: { exists r. split_and!; try done; lia. }
  field_simpl. set (buf := r_buffer r ++ _).
  assert (Hbuf : zlen buf = r_maxsize r * 2).
  { unfold buf. rewrite zlen_app. unfold zlen at 2. rewrite length_replicate.
    change (Z.of_nat (length (r_buffer r))) with (zlen (r_buffer r)). lia. }
  assert (Hhead : r_head r = if r_tail r =? 0 then r_maxsize r - 1 else r_tail r - 1).
  { rewrite Hh. destruct (_ =? 0) eqn:E0; zify_bool.
    - rewrite Z.mod_small; lia.
    - symmetry. apply Z.mod_unique with 1; lia. }
  assert (Hidx : forall i, (i < Z.to_nat (r_size r))%nat ->
    ring_index r i = if r_tail r + Z.of_nat i <? r_maxsize r then r_tail r + Z.of_nat i
                     else r_tail r + Z.of_nat i - r_maxsize r).
  { intros i Hi. unfold ring_index. apply mod_add_cases; lia. }
  assert (Hidx2 : forall i, (i < Z.to_nat (r_size r))%nat ->
    (r_tail r + Z.of_nat i) mod (r_maxsize r * 2) = r_tail r + Z.of_nat i).
  { intros i Hi. apply Z.mod_small. lia. }
  destruct (r_head r <? r_tail r) eqn:E1; zify_bool.
  - destruct (r_tail r =? 0) eqn:E0; zify_bool; [lia|].
    assert (Hsrc : exists src, zslice buf 0 (r_head r + 1) = Some src).
    { eexists. apply zslice_ok; lia. }
    destruct Hsrc as [src Hsrc]. pose proof (zslice_len _ _ _ _ Hsrc) as Hsl.
    assert (Hb' : exists buf', zblit buf (r_size r) src = Some buf').
    { eexists. apply zblit_ok; lia. }
    destruct Hb' as [buf' Hb'].
    rewrite Hsrc. cbn [of_option mbind outcome_bind]. rewrite Hb'. cbn [of_option mbind outcome_bind].
    eexists. split; [done|]. field_simpl. split_and!; try lia.
    + unfold ring_ok. field_simpl. rewrite (zblit_len _ _ _ _ Hb'). split_and!; try lia.
      rewrite Z.mod_small; lia.
    + symmetry. apply ring_list_ext; [done|]. intros i Hi. unfold ring_index at 2. field_simpl.
      rewrite Hidx, Hidx2 by done. rewrite (zget_zblit _ _ _ _ _ Hb'), Hsl.
      destruct (_ && _) eqn:E2; zify_bool.
      * destruct (_ <? r_maxsize r) eqn:E3; zify_bool; [lia|].
        rewrite (zget_zslice _ _ _ _ _ Hsrc) by lia. unfold buf.
        rewrite zget_replicate by lia. f_equal. lia.
      * destruct (_ <? r_maxsize r) eqn:E3; zify_bool.
        -- unfold buf. by rewrite zget_replicate by lia.
        -- apply andb_false_iff in E2 as [E2|E2]; zify_bool; lia.
  - destruct (r_tail r =? 0) eqn:E0; zify_bool; [|lia].
    eexists. split; [done|]. field_simpl. split_and!; try lia.
    + unfold ring_ok. field_simpl. split_and!; try lia. rewrite Z.mod_small; lia.
    + symmetry. apply ring_list_ext; [done|]. intros i Hi. unfold ring_index at 2. field_simpl.
      rewrite Hidx, Hidx2 by done. destruct (_ <? r_maxsize r) eqn:E3; zify_bool; [|lia].
      unfold buf. by rewrite zget_replicate by lia.
Qed.

(** A sample is queued behind those that are still in the window: the ring
    buffer is a queue, whatever its wrap-around and growth. *)
Lemma add_sample_correct t time value :
  average_ok t ->
  exists t', time_average_add t time value = Ok t' /\ average_ok t' /\
    ta_duration t' = ta_duration t /\
    ring_list (ta_r t') = expire (u64 (time - ta_duration t)) (ring_list (ta_r t))
                          ++ [mk_time_value time value].
Proof.
  intros H. unfold time_average_add.
  destruct (remove_old_correct t time H) as (t1 & -> & [Hr1 Hacc1] & Hd1 & Hl1).
  cbn [mbind outcome_bind].
  destruct (ring_grow_correct _ Hr1) as (r & -> & Hr & Hs & Hroom & Hl).
  cbn [mbind outcome_bind]. field_simpl. pose proof Hr as (Hm & Hbl & Hsz & Ht & Hh).
  assert (Hhead : (r_head r + 1) mod r_maxsize r = (r_tail r + r_size r) mod r_maxsize r).
  { rewrite Hh, Zplus_mod_idemp_l. f_equal. lia. }
  rewrite Hhead.
  pose proof (Z.mod_pos_bound (r_tail r + r_size r) (r_maxsize r) Hm).
  rewrite zset_ok by lia. cbn [of_option mbind outcome_bind].
  set (h := (r_tail r + r_size r) mod r_maxsize r) in *.
  set (v := mk_time_value time value).
  set (r2 := ((r <| r_head := h |>) <| r_buffer := <[Z.to_nat h := v]> (r_buffer r) |>)
               <| r_size := r_size r + 1 |>).
  assert (Hlist : ring_list r2 = ring_list r ++ [v]).
  { unfold ring_list, r2. field_simpl.
    replace (Z.to_nat (r_size r + 1)) with (Z.to_nat (r_size r) + 1)%nat by lia.
    rewrite seq_app, fmap_app. f_equal.
    - apply list_fmap_ext. intros j i Hi. apply lookup_seq in Hi as [Ei Hi]. cbn in Ei. subst i.
      unfold ring_index. field_simpl. unfold zget. destruct (0 <=? _); [|done].
      rewrite list_lookup_insert_ne; [done|].
      unfold h. rewrite !mod_add_cases by lia. repeat case_if; lia.
    - cbn. unfold ring_index. field_simpl. rewrite Z2Nat.id by lia.
      change ((r_tail r + r_size r) mod r_maxsize r) with h.
      unfold zget. destruct (0 <=? h) eqn:E; zify_bool; [|lia].
      rewrite list_lookup_insert_eq; [done|]. unfold zlen in Hbl. lia. }
  eexists. split; [reflexivity|]. field_simpl. split_and!; [|done|].
  - split; field_simpl.
    + unfold ring_ok, r2. field_simpl. unfold zlen in *. rewrite length_insert.
      split_and!; try lia. unfold h. f_equal. lia.
    + rewrite Hlist, Hl, zsum_app, Hacc1. unfold u64.
      rewrite Zplus_mod_idemp_l. f_equal. cbn. lia.
  - by rewrite Hlist, Hl, Hl1.
Qed.

Lemma average_ok_new duration size :
  0 < size ->
  match time_average_new duration size with
  | Ok t => average_ok t /\ ring_list (ta_r t) = [] /\ Z.land size (size - 1) = 0
  | Fault f => f = Exit /\ Z.land size (size - 1) <> 0
  end.
Proof.
  intros H. unfold time_average_new, z2b.
  destruct (_ =? 0) eqn:E; zify_bool; cbn [negb]; [|done].
  split_and!; try done. unfold average_ok, ring_ok. cbn.
  unfold zlen. rewrite length_replicate. split; [|done].
  split_and!; try lia. apply Z.mod_unique with (-1); lia.
Qed.
