(* ===== verification/RlcPdu.v ===== *)
(** * RLC PDU bit coding (src/openair2/LAYER2/nr_rlc/nr_rlc_pdu.c)

    The bit decoder and encoder every RLC header goes through, and the record
    of a received PDU.  [bits_of] and [buffer_bits] give the reference
    semantics: a buffer is the list of its bits, most significant first. *)

From S2P Require Import Prelude.

(** ** Data *)

Record nr_rlc_pdu_t := mk_nr_rlc_pdu {
  pdu_sn : Z;
  pdu_data : option (list Z);    (* SDU bytes; None is the null pointer *)
  pdu_size : Z;
  pdu_so : Z;
  pdu_is_first : bool;
  pdu_is_last : bool;
}.
#[export] Instance eta_nr_rlc_pdu : RecordEta nr_rlc_pdu_t :=
  fld (fld (fld (fld (fld (fld (fun _ => mk_nr_rlc_pdu)
    pdu_sn) pdu_data) pdu_size) pdu_so) pdu_is_first) pdu_is_last.

Record nr_rlc_pdu_decoder_t := mk_decoder {
  dec_error : bool;
  dec_byte : Z;                  (* next byte to decode *)
  dec_bit : Z;                   (* next bit in next byte to decode *)
  dec_buffer : list Z;
  dec_size : Z;
}.
#[export] Instance eta_decoder : RecordEta nr_rlc_pdu_decoder_t :=
  fld (fld (fld (fld (fld (fun _ => mk_decoder)
    dec_error) dec_byte) dec_bit) dec_buffer) dec_size.

Record nr_rlc_pdu_encoder_t := mk_encoder {
  enc_byte : Z;                  (* next byte to encode *)
  enc_bit : Z;                   (* next bit in next byte to encode *)
  enc_buffer : list Z;
  enc_size : Z;
}.
#[export] Instance eta_encoder : RecordEta nr_rlc_pdu_encoder_t :=
  fld (fld (fld (fld (fun _ => mk_encoder) enc_byte) enc_bit) enc_buffer) enc_size.

(** ** Received PDUs *)

(** [malloc] does not fail in the model. *)
Definition nr_rlc_new_pdu (sn so : Z) (is_first is_last : bool) (data : list Z) (size : Z)
    : nr_rlc_pdu_t :=
  mk_nr_rlc_pdu sn (Some data) size so is_first is_last.

(** Insertion in the reception list: before the first element that is greater
    in the order of [sn_compare], then of [so]. *)
Fixpoint nr_rlc_pdu_list_add (sn_compare : Z -> Z -> Z) (l : list nr_rlc_pdu_t)
    (pdu : nr_rlc_pdu_t) : list nr_rlc_pdu_t :=
  match l with
  | [] => [pdu]
  | cur :: next =>
      if (sn_compare (pdu_sn cur) (pdu_sn pdu) >? 0)
         || ((pdu_sn cur =? pdu_sn pdu) && (pdu_so cur >? pdu_so pdu))
      then pdu :: l
      else cur :: nr_rlc_pdu_list_add sn_compare next pdu
  end.

(** ** Decoder *)

Definition nr_rlc_pdu_decoder_init (buffer : list Z) (size : Z) : nr_rlc_pdu_decoder_t :=
  mk_decoder false 0 0 buffer size.

Definition get_bit (d : nr_rlc_pdu_decoder_t) : outcome (Z * nr_rlc_pdu_decoder_t) :=
  if dec_byte d >=? dec_size d
  then Ok (0, d <| dec_error := true |>)
  else
    b ← of_option OutOfBounds (zget (dec_buffer d) (dec_byte d));
    let ret := Z.land (Z.shiftr b (7 - dec_bit d)) 1 in
    let d := d <| dec_bit := dec_bit d + 1 |> in
    if dec_bit d =? 8
    then Ok (ret, d <| dec_bit := 0 |> <| dec_byte := dec_byte d + 1 |>)
    else Ok (ret, d).

(** The loop of [nr_rlc_pdu_decoder_get_bits]: [n] bits left, [ret] so far. *)
Fixpoint get_bits_loop (n : nat) (ret : Z) (d : nr_rlc_pdu_decoder_t)
    : outcome (Z * nr_rlc_pdu_decoder_t) :=
  match n with
  | O => Ok (ret, d)
  | S n =>
      '(b, d) ← get_bit d;
      let ret := Z.lor (Z.shiftl ret 1) b in
      if dec_error d then Ok (-1, d) else get_bits_loop n ret d
  end.

Definition nr_rlc_pdu_decoder_get_bits (d : nr_rlc_pdu_decoder_t) (count : Z)
    : outcome (Z * nr_rlc_pdu_decoder_t) :=
  if count >? 31 then Fault Exit
  else get_bits_loop (Z.to_nat count) 0 d.

(** ** Encoder *)

Definition nr_rlc_pdu_encoder_init (buffer : list Z) (size : Z) : nr_rlc_pdu_encoder_t :=
  mk_encoder 0 0 buffer size.

Definition put_bit (e : nr_rlc_pdu_encoder_t) (bit : Z) : outcome nr_rlc_pdu_encoder_t :=
  if enc_byte e =? enc_size e then Fault Exit
  else
    b ← of_option OutOfBounds (zget (enc_buffer e) (enc_byte e));
    let b := Z.land (Z.shiftl b 1) 255 in
    let b := if z2b bit then Z.lor b 1 else b in
    buffer ← of_option OutOfBounds (zset (enc_buffer e) (enc_byte e) b);
    let e := e <| enc_buffer := buffer |> <| enc_bit := enc_bit e + 1 |> in
    if enc_bit e =? 8
    then Ok (e <| enc_bit := 0 |> <| enc_byte := enc_byte e + 1 |>)
    else Ok e.

Fixpoint put_bits_loop (n : nat) (x value : Z) (e : nr_rlc_pdu_encoder_t)
    : outcome nr_rlc_pdu_encoder_t :=
  match n with
  | O => Ok e
  | S n =>
      e ← put_bit e (Z.land value x);
      put_bits_loop n (Z.shiftr x 1) value e
  end.

Definition nr_rlc_pdu_encoder_put_bits (e : nr_rlc_pdu_encoder_t) (value count : Z)
    : outcome nr_rlc_pdu_encoder_t :=
  if count >? 31 then Fault Exit
  else put_bits_loop (Z.to_nat count) (Z.shiftl 1 (count - 1)) value e.

(** A sequence of [put_bits] calls, as (value, count) pairs. *)
Fixpoint put_fields (e : nr_rlc_pdu_encoder_t) (fields : list (Z * Z))
    : outcome nr_rlc_pdu_encoder_t :=
  match fields with
  | [] => Ok e
  | (value, count) :: fields =>
      e ← nr_rlc_pdu_encoder_put_bits e value count;
      put_fields e fields
  end.

(** ** Reference semantics: buffers as bit strings *)

Fixpoint bits_of (v : Z) (n : nat) : list bool :=
  match n with
  | O => []
  | S n => Z.testbit v (Z.of_nat n) :: bits_of v n
  end.

Fixpoint bits_val (bits : list bool) : Z :=
  match bits with
  | [] => 0
  | b :: bits => b2z b * 2 ^ zlen bits + bits_val bits
  end.

Definition buffer_bits (l : list Z) : list bool := l ≫= (fun b => bits_of b 8).

Definition fields_bits (fields : list (Z * Z)) : list bool :=
  fields ≫= (fun f => bits_of f.1 (Z.to_nat f.2)).

Lemma length_bits_of v n : length (bits_of v n) = n.
Proof. induction n; cbn; congruence. Qed.

Lemma length_buffer_bits l : length (buffer_bits l) = (8 * length l)%nat.
Proof.
  induction l as [|b l IH]; [done|].
  unfold buffer_bits in *. cbn [mbind list_bind]. rewrite length_app, IH, length_bits_of.
  cbn [length]. lia.
Qed.

Lemma buffer_bits_app l1 l2 : buffer_bits (l1 ++ l2) = buffer_bits l1 ++ buffer_bits l2.
Proof. apply bind_app. Qed.

Lemma fields_bits_cons v n fs : fields_bits ((v, n) :: fs) = bits_of v (Z.to_nat n) ++ fields_bits fs.
Proof. reflexivity. Qed.

Lemma bits_of_ext v w n :
  (forall i, 0 <= i < Z.of_nat n -> Z.testbit v i = Z.testbit w i) -> bits_of v n = bits_of w n.
Proof.
  induction n as [|n IH]; intros H; [done|]. cbn [bits_of].
  f_equal; [apply H; lia | apply IH; intros; apply H; lia].
Qed.

Lemma bits_of_snoc v b n :
  bits_of (2 * v + b2z b) (S n) = bits_of v n ++ [b].
Proof.
  induction n as [|n IH].
  - cbn. rewrite Z.testbit_odd, Z.shiftr_0_r.
    rewrite Z.odd_add, Z.odd_mul. by destruct b.
  - cbn [bits_of app] in *. rewrite <- IH.
    f_equal. rewrite Nat2Z.inj_succ. destruct b; cbn [b2z].
    + by rewrite Z.testbit_odd_succ by lia.
    + by rewrite Z.add_0_r, Z.testbit_even_succ by lia.
Qed.

Lemma bits_val_bits_of v n : 0 <= v < 2 ^ Z.of_nat n -> bits_val (bits_of v n) = v.
Proof.
  revert v. induction n as [|n IH]; intros v Hv.
  - cbn in *. lia.
  - cbn [bits_of bits_val].
    assert (H2 : 2 ^ Z.of_nat (S n) = 2 * 2 ^ Z.of_nat n).
    { rewrite Nat2Z.inj_succ, Z.pow_succ_r by lia. done. }
    assert (Hp : 0 < 2 ^ Z.of_nat n) by (apply Z.pow_pos_nonneg; lia).
    rewrite (bits_of_ext v (v mod 2 ^ Z.of_nat n)).
    2: { intros i Hi. by rewrite Z.mod_pow2_bits_low by lia. }
    rewrite IH by (apply Z.mod_pos_bound; lia).
    unfold zlen. rewrite length_bits_of.
    rewrite Z.testbit_eqb by lia. unfold b2z.
    rewrite (Z.div_mod v (2 ^ Z.of_nat n)) at 3 by lia.
    assert (v / 2 ^ Z.of_nat n < 2) by (apply Z.div_lt_upper_bound; lia).
    assert (0 <= v / 2 ^ Z.of_nat n) by (apply Z.div_pos; lia).
    rewrite (Z.mod_small (v / _)) by lia.
    destruct (v / 2 ^ Z.of_nat n =? 1) eqn:E; zify_bool; nia.
Qed.

Lemma bits_val_bound bits : 0 <= bits_val bits < 2 ^ zlen bits.
Proof.
  induction bits as [|b bits IH]; [done|].
  cbn [bits_val]. rewrite zlen_cons, Z.pow_add_r by (auto with qran; lia).
  destruct b; cbn [b2z]; lia.
Qed.

(** ** Correctness of the encoder *)

(** [e] has written exactly [bits]; the current byte holds its low bits. *)
Definition enc_repr (e : nr_rlc_pdu_encoder_t) (bits : list bool) : Prop :=
  0 <= enc_bit e < 8 /\ 0 <= enc_byte e <= enc_size e /\
  enc_size e <= zlen (enc_buffer e) /\
  (enc_bit e <> 0 -> enc_byte e < enc_size e) /\
  bytes_ok (enc_buffer e) /\
  bits = buffer_bits (take (Z.to_nat (enc_byte e)) (enc_buffer e))
         ++ bits_of (default 0 (zget (enc_buffer e) (enc_byte e))) (Z.to_nat (enc_bit e)).

(** What an encoder step leaves alone. *)
Definition enc_frame (e e' : nr_rlc_pdu_encoder_t) : Prop :=
  enc_size e' = enc_size e /\ zlen (enc_buffer e') = zlen (enc_buffer e).

Lemma enc_repr_init buffer size :
  0 <= size <= zlen buffer -> bytes_ok buffer ->
  enc_repr (nr_rlc_pdu_encoder_init buffer size) [].
Proof. intros ??. unfold enc_repr. cbn. split_and!; try lia; done. Qed.

Lemma enc_repr_len e bits : enc_repr e bits -> zlen bits = 8 * enc_byte e + enc_bit e.
Proof.
  intros (?&?&?&?&?&->). rewrite zlen_app. unfold zlen at 1 2.
  rewrite length_buffer_bits, length_bits_of, length_take.
  unfold zlen in *. lia.
Qed.

Lemma lor_bit (w : Z) (b : bool) : Z.lor (2 * w) (b2z b) = 2 * w + b2z b.
Proof.
  destruct b; cbn [b2z]; [|by rewrite Z.lor_0_r, Z.add_0_r].
  apply Z.bits_inj'; intros i Hi. rewrite Z.lor_spec.
  destruct (Z.eq_dec i 0) as [->|].
  - rewrite Z.testbit_even_0, Z.testbit_odd_0. done.
  - replace i with (Z.succ (Z.pred i)) by lia.
    change 1 with (2 * 0 + 1) at 1.
    rewrite Z.testbit_even_succ, !Z.testbit_odd_succ, Z.bits_0 by lia.
    apply orb_false_r.
Qed.

Lemma shifted_byte (v : Z) (b : bool) :
  is_byte v ->
  (let s := Z.land (Z.shiftl v 1) 255 in if b then Z.lor s 1 else s)
  = (2 * v + b2z b) mod 256.
Proof.
  intros Hv. cbv zeta.
  change 255 with (Z.ones 8). rewrite Z.land_ones by lia.
  rewrite Z.shiftl_mul_pow2 by lia. change (2 ^ 1) with 2. change (2 ^ 8) with 256.
  assert (E : exists w, v * 2 mod 256 = 2 * w /\ (2 * v + b2z b) mod 256 = 2 * w + b2z b).
  { exists (v mod 128). unfold is_byte in Hv. destruct b; cbn [b2z];
    Z.div_mod_to_equations; lia. }
  destruct E as (w & -> & ->). destruct b; cbn [b2z]; [|lia].
  apply (lor_bit w true).
Qed.

Lemma put_bit_correct e bits v :
  enc_repr e bits -> enc_byte e < enc_size e ->
  exists e', put_bit e v = Ok e' /\ enc_repr e' (bits ++ [z2b v]) /\ enc_frame e e'.
Proof.
  intros (Hbit & Hbyte & Hsize & Hpart & Hok & ->) Hlt.
  unfold put_bit. destruct (_ =? _) eqn:E; zify_bool; [lia|].
  destruct (zget_ok (enc_buffer e) (enc_byte e)) as [b Hb]; [lia|].
  rewrite Hb. cbn [of_option mbind outcome_bind default].
  pose proof Hb as (_ & Hlk)%zget_Some.
  assert (Hbb : is_byte b) by (eapply Forall_lookup_1; eauto).
  pose proof (shifted_byte b (z2b v) Hbb) as Hs. cbv zeta in Hs. rewrite Hs.
  set (b' := (2 * b + b2z (z2b v)) mod 256) in *.
  rewrite zset_ok by lia. cbn [of_option mbind outcome_bind].
  assert (Hb' : is_byte b') by (apply Z.mod_pos_bound; lia).
  assert (Hbits : forall n, (n < 8)%nat -> bits_of b' (S n) = bits_of b n ++ [z2b v]).
  { intros n Hn. rewrite <- bits_of_snoc. apply bits_of_ext. intros i Hi.
    unfold b'. change 256 with (2 ^ 8). rewrite Z.mod_pow2_bits_low by lia. done. }
  assert (Hok' : bytes_ok (<[Z.to_nat (enc_byte e) := b']> (enc_buffer e)))
    by (apply Forall_insert; done).
  assert (Htk : take (Z.to_nat (enc_byte e)) (<[Z.to_nat (enc_byte e) := b']> (enc_buffer e))
                = take (Z.to_nat (enc_byte e)) (enc_buffer e)).
  { rewrite take_insert_ge; [done|lia]. }
  assert (Hlen : zlen (<[Z.to_nat (enc_byte e) := b']> (enc_buffer e)) = zlen (enc_buffer e)).
  { unfold zlen. by rewrite length_insert. }
  field_simpl. destruct (enc_bit e + 1 =? 8) eqn:E8; zify_bool; (eexists; split; [done|]);
    unfold enc_repr, enc_frame; field_simpl; rewrite Hlen.
  - split; [|done]. split_and!; try lia; [done|].
    assert (Hn : (Z.to_nat (enc_bit e) < 8)%nat) by lia.
    change (Z.to_nat 0) with 0%nat. cbn [bits_of]. rewrite app_nil_r.
    rewrite Z2Nat.inj_add by lia. change (Z.to_nat 1) with 1%nat.
    rewrite Nat.add_1_r, (take_S_r _ _ b').
    2: { apply list_lookup_insert_eq. unfold zlen in *. lia. }
    rewrite Htk, buffer_bits_app, <- app_assoc. f_equal.
    unfold buffer_bits. cbn [mbind list_bind]. rewrite app_nil_r.
    replace 8%nat with (S (Z.to_nat (enc_bit e))) by lia. by rewrite Hbits by lia.
  - split; [|done]. split_and!; try lia; [done|].
    assert (Hn : (Z.to_nat (enc_bit e) < 8)%nat) by lia.
    rewrite Htk, <- app_assoc. f_equal.
    unfold zget. destruct (0 <=? enc_byte e) eqn:E0; zify_bool; [|lia].
    rewrite list_lookup_insert_eq by (unfold zlen in *; lia). cbn [default].
    rewrite Z2Nat.inj_add by lia. change (Z.to_nat 1) with 1%nat.
    rewrite Nat.add_1_r. by rewrite Hbits by lia.
Qed.

Lemma enc_frame_trans e1 e2 e3 : enc_frame e1 e2 -> enc_frame e2 e3 -> enc_frame e1 e3.
Proof. unfold enc_frame. intuition congruence. Qed.

(** Bits still free in the encoder. *)
Definition enc_room (e : nr_rlc_pdu_encoder_t) : Z := 8 * enc_size e - (8 * enc_byte e + enc_bit e).

Lemma land_pow2_bit v n :
  0 <= n -> z2b (Z.land v (Z.shiftl 1 n)) = Z.testbit v n.
Proof.
  intros Hn. rewrite Z.shiftl_1_l. unfold z2b.
  destruct (Z.testbit v n) eqn:E.
  - destruct (_ =? 0) eqn:E0; [|done]. zify_bool. exfalso.
    assert (H : Z.testbit (Z.land v (2 ^ n)) n = true)
      by (rewrite Z.land_spec, E, Z.pow2_bits_true by lia; done).
    rewrite E0, Z.bits_0 in H. done.
  - replace (Z.land v (2 ^ n)) with 0; [done|].
    symmetry. apply Z.bits_inj'. intros i Hi. rewrite Z.land_spec, Z.bits_0.
    destruct (Z.eq_dec i n) as [->|]; [by rewrite E|].
    rewrite Z.pow2_bits_false by lia. apply andb_false_r.
Qed.

Lemma put_bits_loop_correct n e bits v :
  enc_repr e bits -> Z.of_nat n <= enc_room e ->
  exists e', put_bits_loop n (Z.shiftl 1 (Z.of_nat n - 1)) v e = Ok e'
             /\ enc_repr e' (bits ++ bits_of v n) /\ enc_frame e e'.
Proof.
  revert e bits. induction n as [|n IH]; intros e bits He Hroom.
  - cbn. eexists. rewrite app_nil_r. by split_and!.
  - cbn [put_bits_loop bits_of]. unfold enc_room in *.
    destruct (put_bit_correct e bits (Z.land v (Z.shiftl 1 (Z.of_nat (S n) - 1))))
      as (e1 & -> & He1 & Hf1); [done|destruct He; lia|].
    cbn [mbind outcome_bind].
    replace (Z.of_nat (S n) - 1) with (Z.of_nat n) in * by lia.
    rewrite land_pow2_bit in He1 by lia.
    destruct (IH e1 (bits ++ [Z.testbit v (Z.of_nat n)])) as (e2 & H2 & He2 & Hf2); [done|..].
    { apply enc_repr_len in He, He1. rewrite zlen_app in He1. change (zlen [_]) with 1 in He1.
      destruct Hf1 as [Hs _]. lia. }
    exists e2. split_and!.
    + rewrite <- H2. f_equal. rewrite Z.shiftr_shiftl_l by lia. done.
    + rewrite <- app_assoc in He2. done.
    + by eapply enc_frame_trans.
Qed.

Lemma put_bits_correct e bits v count :
  enc_repr e bits -> 0 <= count <= 31 -> count <= enc_room e ->
  exists e', nr_rlc_pdu_encoder_put_bits e v count = Ok e'
             /\ enc_repr e' (bits ++ bits_of v (Z.to_nat count)) /\ enc_frame e e'.
Proof.
  intros He Hc Hroom. unfold nr_rlc_pdu_encoder_put_bits.
  destruct (count >? 31) eqn:E; zify_bool; [lia|].
  destruct (put_bits_loop_correct (Z.to_nat count) e bits v) as (e' & H & ?); [done|lia|].
  rewrite Z2Nat.id in H by lia. eauto.
Qed.

Definition fields_ok (fields : list (Z * Z)) : Prop := Forall (fun f => 0 <= f.2 <= 31) fields.

Lemma put_fields_correct fields e bits :
  enc_repr e bits -> fields_ok fields -> zsum snd fields <= enc_room e ->
  exists e', put_fields e fields = Ok e'
             /\ enc_repr e' (bits ++ fields_bits fields) /\ enc_frame e e'.
Proof.
  revert e bits. induction fields as [|[v n] fields IH]; intros e bits He Hok Hroom.
  - cbn. eexists. rewrite app_nil_r. by split_and!.
  - apply Forall_cons in Hok as [Hn Hok]. rewrite zsum_cons in Hroom. cbn in Hn, Hroom.
    assert (0 <= zsum snd fields).
    { apply zsum_nonneg. intros x Hx. rewrite Forall_forall in Hok. by apply Hok. }
    destruct (put_bits_correct e bits v n) as (e1 & H1 & He1 & Hf1); [done|done|lia|].
    cbn [put_fields]. rewrite H1. cbn [mbind outcome_bind].
    destruct (IH e1 (bits ++ bits_of v (Z.to_nat n))) as (e2 & H2 & He2 & Hf2); [done..| |].
    { apply enc_repr_len in He, He1. rewrite zlen_app in He1. unfold zlen in He1 at 2.
      rewrite length_bits_of in He1. unfold enc_room in *. destruct Hf1 as [-> _]. lia. }
    exists e2. rewrite fields_bits_cons, app_assoc. eauto using enc_frame_trans.
Qed.

Lemma put_fields_app e f1 f2 :
  put_fields e (f1 ++ f2) = e ← put_fields e f1; put_fields e f2.
Proof.
  revert e. induction f1 as [|[v n] f1 IH]; intros e; [done|].
  cbn [app put_fields]. destruct (nr_rlc_pdu_encoder_put_bits e v n); cbn; auto.
Qed.

(** ** Correctness of the decoder *)

(** The bits of [d]'s buffer not decoded yet. *)
Definition dec_repr (d : nr_rlc_pdu_decoder_t) (bits : list bool) : Prop :=
  dec_error d = false /\ 0 <= dec_bit d < 8 /\ 0 <= dec_byte d <= dec_size d /\
  (dec_bit d <> 0 -> dec_byte d < dec_size d) /\
  dec_size d = zlen (dec_buffer d) /\
  bits = drop (Z.to_nat (8 * dec_byte d + dec_bit d)) (buffer_bits (dec_buffer d)).

Definition dec_frame (d d' : nr_rlc_pdu_decoder_t) (n : Z) : Prop :=
  dec_size d' = dec_size d /\ dec_buffer d' = dec_buffer d /\
  8 * dec_byte d' + dec_bit d' = 8 * dec_byte d + dec_bit d + n.

Lemma dec_repr_init buffer size :
  size = zlen buffer -> dec_repr (nr_rlc_pdu_decoder_init buffer size) (buffer_bits buffer).
Proof.
  intros ->. unfold dec_repr. cbn. pose proof (zlen_nonneg buffer).
  split_and!; try lia; done.
Qed.

Lemma dec_repr_len d bits :
  dec_repr d bits -> zlen bits = 8 * dec_size d - (8 * dec_byte d + dec_bit d).
Proof.
  intros (_&?&?&?&?&->). unfold zlen in *. rewrite length_drop, length_buffer_bits. lia.
Qed.

Lemma drop_buffer_bits l i b n :
  l !! i = Some b -> (n < 8)%nat ->
  drop (8 * i + n) (buffer_bits l) = bits_of b (8 - n) ++ buffer_bits (drop (S i) l).
Proof.
  intros Hi Hn. rewrite <- (take_drop_middle l i b Hi) at 1.
  pose proof (lookup_lt_Some _ _ _ Hi).
  rewrite buffer_bits_app, <- drop_drop.
  rewrite drop_app_length'.
  2: { rewrite length_buffer_bits, length_take. lia. }
  unfold buffer_bits at 1. cbn [mbind list_bind].
  rewrite drop_app_le by (rewrite length_bits_of; lia). f_equal.
  assert (H8 : forall m k, (k <= m)%nat -> drop k (bits_of b m) = bits_of b (m - k)).
  { induction m as [|m IH]; intros k Hk; destruct k; try done.
    cbn. apply IH. lia. }
  apply H8. lia.
Qed.

Lemma get_bit_correct d b bits :
  dec_repr d (b :: bits) ->
  exists d', get_bit d = Ok (b2z b, d') /\ dec_repr d' bits /\ dec_frame d d' 1.
Proof.
  intros Hd. pose proof (dec_repr_len _ _ Hd) as Hlen.
  rewrite zlen_cons in Hlen. pose proof (zlen_nonneg bits).
  destruct Hd as (Herr & Hbit & Hbyte & Hpart & Hsize & Hbits).
  unfold get_bit. destruct (_ >=? _) eqn:E; zify_bool; [lia|].
  destruct (zget_ok (dec_buffer d) (dec_byte d)) as [v Hv]; [lia|]. rewrite Hv.
  cbn [of_option mbind outcome_bind].
  apply zget_Some in Hv as [_ Hv].
  rewrite Z2Nat.inj_add, Z2Nat.inj_mul in Hbits by lia.
  change (Z.to_nat 8) with 8%nat in Hbits.
  rewrite (drop_buffer_bits _ _ v) in Hbits by (done || lia).
  assert (H8 : (8 - Z.to_nat (dec_bit d) = S (7 - Z.to_nat (dec_bit d)))%nat) by lia.
  rewrite H8 in Hbits. cbn [bits_of app] in Hbits. injection Hbits as Hb Hrest.
  assert (Hret : Z.land (Z.shiftr v (7 - dec_bit d)) 1 = b2z b).
  { change 1 with (Z.ones 1) at 1. rewrite Z.land_ones by lia. change (2 ^ 1) with 2.
    rewrite Hb. replace (Z.of_nat (7 - Z.to_nat (dec_bit d))) with (7 - dec_bit d) by lia.
    rewrite <- Z.bit0_mod, Z.shiftr_spec, Z.add_0_l by lia. by destruct (Z.testbit _ _). }
  rewrite Hret. cbv zeta. field_simpl.
  destruct (dec_bit d + 1 =? 8) eqn:E8; zify_bool; (eexists; split; [done|]);
    unfold dec_repr, dec_frame; field_simpl; (split; [|split_and!; [done|done|lia]]);
    (split_and!; try done; try lia); rewrite Hrest.
  - replace (7 - Z.to_nat (dec_bit d))%nat with 0%nat by lia. cbn [bits_of app].
    replace (Z.to_nat (8 * (dec_byte d + 1) + 0)) with (8 * S (Z.to_nat (dec_byte d)))%nat by lia.
    unfold buffer_bits. generalize (S (Z.to_nat (dec_byte d))) as k.
    clear. intros k. revert k. induction (dec_buffer d) as [|x l IH]; intros [|k]; try done.
    cbn [drop mbind list_bind].
    replace (8 * S k)%nat with (8 + 8 * k)%nat by lia. rewrite <- drop_drop.
    by rewrite IH, (drop_app_length' (bits_of x 8)) by (by rewrite length_bits_of).
  - replace (Z.to_nat (8 * dec_byte d + (dec_bit d + 1))) with (8 * Z.to_nat (dec_byte d) + S (Z.to_nat (dec_bit d)))%nat by lia.
    rewrite (drop_buffer_bits _ _ v) by (done || lia). do 2 f_equal; lia.
Qed.

Lemma get_bits_loop_correct bits d post ret :
  dec_repr d (bits ++ post) ->
  exists d', get_bits_loop (length bits) ret d = Ok (ret * 2 ^ zlen bits + bits_val bits, d')
             /\ dec_repr d' post /\ dec_frame d d' (zlen bits).
Proof.
  revert d ret. induction bits as [|b bits IH]; intros d ret Hd.
  - cbn. exists d. rewrite Z.mul_1_r, Z.add_0_r. unfold dec_frame. rewrite zlen_nil.
    split_and!; [done|done|done|done|lia].
  - cbn [length get_bits_loop]. destruct (get_bit_correct _ _ _ Hd) as (d1 & -> & Hd1 & Hf1).
    cbn [mbind outcome_bind]. pose proof Hd1 as [-> _].
    destruct (IH d1 (Z.lor (Z.shiftl ret 1) (b2z b)) Hd1) as (d2 & H2 & Hd2 & Hf2).
    exists d2. rewrite H2. split_and!; [|done|].
    + rewrite Z.shiftl_mul_pow2 by lia. change (2 ^ 1) with 2. rewrite (Z.mul_comm ret 2), lor_bit.
      do 2 f_equal. cbn [bits_val]. rewrite zlen_cons, Z.pow_add_r by (auto with qran; lia).
      change (2 ^ 1) with 2. lia.
    + unfold dec_frame in *. rewrite zlen_cons. intuition (congruence || lia).
Qed.

Lemma get_bits_correct d bits post :
  dec_repr d (bits ++ post) -> zlen bits <= 31 ->
  exists d', nr_rlc_pdu_decoder_get_bits d (zlen bits) = Ok (bits_val bits, d')
             /\ dec_repr d' post /\ dec_frame d d' (zlen bits).
Proof.
  intros Hd Hn. unfold nr_rlc_pdu_decoder_get_bits.
  destruct (_ >? _) eqn:E; zify_bool; [lia|].
  destruct (get_bits_loop_correct bits d post 0 Hd) as (d' & H & ?).
  exists d'. unfold zlen at 1. by rewrite Nat2Z.id, H, Z.mul_0_l, Z.add_0_l.
Qed.

Lemma get_bits_loop_short bits d ret n :
  dec_repr d bits -> (length bits < n)%nat ->
  exists d', get_bits_loop n ret d = Ok (-1, d') /\ dec_error d' = true.
Proof.
  revert d ret n. induction bits as [|b bits IH]; intros d ret n Hd Hn;
    (destruct n as [|n]; [cbn in Hn; lia|]); cbn [get_bits_loop].
  - unfold get_bit. pose proof (dec_repr_len _ _ Hd) as Hl. destruct Hd as (_&?&?&?&_).
    rewrite zlen_nil in Hl.
    destruct (_ >=? _) eqn:E; zify_bool; [|lia]. cbn [mbind outcome_bind].
    field_simpl. eauto.
  - destruct (get_bit_correct _ _ _ Hd) as (d1 & -> & Hd1 & _).
    cbn [mbind outcome_bind]. pose proof Hd1 as [-> _]. cbn [length] in Hn.
    apply (IH d1); [done|lia].
Qed.

(** Reading [count] bits always returns: the value when the buffer holds them,
    -1 and the error flag when it does not. *)
Lemma get_bits_total d bits count :
  dec_repr d bits -> 0 <= count <= 31 ->
  exists r d', nr_rlc_pdu_decoder_get_bits d count = Ok (r, d') /\
    (if dec_error d' then r = -1 /\ zlen bits < count
     else count <= zlen bits /\ r = bits_val (take (Z.to_nat count) bits) /\
          0 <= r < 2 ^ count /\
          dec_repr d' (drop (Z.to_nat count) bits) /\ dec_frame d d' count).
Proof.
  intros Hd Hc. destruct (decide (count <= zlen bits)) as [Hle|Hgt].
  - assert (Hz : zlen (take (Z.to_nat count) bits) = count) by (apply zlen_take; lia).
    rewrite <- (take_drop (Z.to_nat count) bits) in Hd.
    destruct (get_bits_correct _ _ _ Hd) as (d' & H & Hd' & Hf); [lia|].
    rewrite Hz in *. exists (bits_val (take (Z.to_nat count) bits)), d'.
    rewrite H. split; [done|]. pose proof Hd' as [-> _].
    pose proof (bits_val_bound (take (Z.to_nat count) bits)) as [Hb1 Hb2]. rewrite Hz in Hb2.
    by split_and!.
  - unfold nr_rlc_pdu_decoder_get_bits. destruct (_ >? _) eqn:E; zify_bool; [lia|].
    destruct (get_bits_loop_short bits d 0 (Z.to_nat count)) as (d' & H & He); [done| |].
    { unfold zlen in Hgt. lia. }
    exists (-1), d'. rewrite H, He. split_and!; [done|done|lia].
Qed.

(** The decoder reads back a field the encoder wrote. *)
Lemma get_field d v count post :
  dec_repr d (bits_of v (Z.to_nat count) ++ post) ->
  0 <= count <= 31 -> 0 <= v < 2 ^ count ->
  exists d', nr_rlc_pdu_decoder_get_bits d count = Ok (v, d')
             /\ dec_repr d' post /\ dec_frame d d' count.
Proof.
  intros Hd Hc Hv.
  assert (Hz : zlen (bits_of v (Z.to_nat count)) = count).
  { unfold zlen. rewrite length_bits_of. lia. }
  destruct (get_bits_correct _ _ _ Hd) as (d' & H & ?); [lia|].
  rewrite Hz, bits_val_bits_of in H by (rewrite Z2Nat.id by lia; done).
  rewrite Hz in *. eauto.
Qed.

(** Reading a field off the front of the bits left. *)
Lemma read_field d d0 v count post n :
  dec_repr d (bits_of v (Z.to_nat count) ++ post) -> dec_frame d0 d n ->
  0 <= count <= 31 -> 0 <= v < 2 ^ count ->
  exists d', nr_rlc_pdu_decoder_get_bits d count = Ok (v, d') /\ dec_error d' = false /\
    dec_repr d' post /\ dec_frame d0 d' (n + count).
Proof.
  intros Hd Hf Hc Hv. destruct (get_field d v count post Hd Hc Hv) as (d' & -> & Hd' & Hf').
  exists d'. split_and!; try done; [by apply Hd'|].
  destruct Hf as (? & ? & ?), Hf' as (? & ? & ?). unfold dec_frame. split_and!; congruence || lia.
Qed.

Lemma dec_byte_of d bits n hs :
  dec_repr d bits -> dec_frame (nr_rlc_pdu_decoder_init (dec_buffer d) (dec_size d)) d n ->
  n = 8 * hs -> dec_byte d = hs.
Proof. intros (_ & ? & _) (_ & _ & Hf) ->. cbn in Hf. lia. Qed.

(** A byte-aligned header, followed by data. *)
Lemma put_header_data buffer size fields hs data :
  bytes_ok buffer -> size <= zlen buffer -> fields_ok fields -> zsum snd fields = 8 * hs ->
  hs + zlen data <= size ->
  exists enc buffer' hdr,
    put_fields (nr_rlc_pdu_encoder_init buffer size) fields = Ok enc /\
    enc_byte enc = hs /\ zblit (enc_buffer enc) hs data = Some buffer' /\
    zlen buffer' = zlen buffer /\ zlen hdr = hs /\ buffer_bits hdr = fields_bits fields /\
    take (Z.to_nat (hs + zlen data)) buffer' = hdr ++ data.
Proof.
  intros Hb Hsize Hf Hsum Hfit. pose proof (zlen_nonneg data).
  assert (0 <= zsum snd fields).
  { apply zsum_nonneg. intros f Hin. unfold fields_ok in Hf. rewrite Forall_forall in Hf.
    by apply Hf. }
  destruct (put_fields_correct fields (nr_rlc_pdu_encoder_init buffer size) [])
    as (enc & Henc & Hrepr & Hframe); [apply enc_repr_init; [lia|done]|done| |].
  { unfold enc_room. cbn. lia. }
  rewrite app_nil_l in Hrepr. pose proof (enc_repr_len _ _ Hrepr) as Hlen.
  assert (Hbits : zlen (fields_bits fields) = 8 * hs).
  { rewrite <- Hsum. clear -Hf. induction Hf as [|[v n] fields Hn _ IH]; [done|].
    rewrite fields_bits_cons, zlen_app, IH, zsum_cons. unfold zlen. rewrite length_bits_of.
    cbn in Hn |- *. lia. }
  destruct Hrepr as (Hbit & Hbyte & Hsz & _ & Hok & Heq).
  destruct Hframe as [Hfsize Hflen]. cbn in Hfsize, Hflen.
  assert (Hz : enc_bit enc = 0) by lia. assert (Hhs : enc_byte enc = hs) by lia.
  rewrite Hz in Heq. cbn [bits_of Z.to_nat] in Heq. rewrite app_nil_r, Hhs in Heq.
  destruct (zblit (enc_buffer enc) hs data) as [buffer'|] eqn:Hblit.
  2: { rewrite zblit_ok in Hblit by lia. done. }
  exists enc, buffer', (take (Z.to_nat hs) (enc_buffer enc)). split_and!; try done.
  - pose proof (zblit_len _ _ _ _ Hblit). lia.
  - apply zlen_take. lia.
  - by apply zblit_prefix in Hblit.
Qed.
