(* ===== verification/RlcSdu.v ===== *)
(** * RLC transmit SDUs and their segments
    (src/openair2/LAYER2/nr_rlc/nr_rlc_sdu.c)

    An SDU is allocated once and shared by the segments it is cut into, so it
    lives in a heap: segments point to it by address, [ref_count] counts the
    segments ever made and [free_count] the freed ones.  Segments are the cells
    of the transmit lists; the C end pointers ([tx_end], [wait_end]) are the
    address of a cell. *)

From S2P Require Import Prelude.

(** ** Data *)

Record nr_rlc_sdu_t := mk_nr_rlc_sdu {
  sdu_sn : Z;                    (* -1 until a sequence number is assigned *)
  upper_layer_id : Z;
  sdu_data : list Z;
  sdu_size : Z;
  retx_count : Z;
  ref_count : Z;
  free_count : Z;
  time_of_arrival : Z;
}.
#[export] Instance eta_nr_rlc_sdu : RecordEta nr_rlc_sdu_t :=
  fld (fld (fld (fld (fld (fld (fld (fld (fun _ => mk_nr_rlc_sdu)
    sdu_sn) upper_layer_id) sdu_data) sdu_size) retx_count) ref_count) free_count)
    time_of_arrival.

Record nr_rlc_sdu_segment_t := mk_segment {
  seg_addr : Z;                  (* the cell's own address *)
  seg_sdu : Z;                   (* the address of its SDU *)
  seg_size : Z;
  seg_so : Z;
  is_first : bool;
  is_last : bool;
}.
#[export] Instance eta_segment : RecordEta nr_rlc_sdu_segment_t :=
  fld (fld (fld (fld (fld (fld (fun _ => mk_segment)
    seg_addr) seg_sdu) seg_size) seg_so) is_first) is_last.

(** The allocations of one entity. *)
Record sdu_heap := mk_sdu_heap {
  heap_sdus : gmap Z nr_rlc_sdu_t;
  heap_next : Z;                 (* next free address *)
}.
#[export] Instance eta_sdu_heap : RecordEta sdu_heap :=
  fld (fld (fun _ => mk_sdu_heap) heap_sdus) heap_next.

Definition empty_heap : sdu_heap := mk_sdu_heap ∅ 0.

(** ** Operations *)

(** [seg->sdu->...] *)
Definition deref_sdu (h : sdu_heap) (s : nr_rlc_sdu_segment_t) : outcome nr_rlc_sdu_t :=
  of_option Dangling (heap_sdus h !! seg_sdu s).

(** [seg->sdu->field = ...] *)
Definition set_sdu (h : sdu_heap) (s : nr_rlc_sdu_segment_t) (u : nr_rlc_sdu_t) : sdu_heap :=
  h <| heap_sdus := <[seg_sdu s := u]> (heap_sdus h) |>.

Definition nr_rlc_new_sdu (h : sdu_heap) (buffer : list Z) (size upper_layer_id : Z)
    : outcome (sdu_heap * nr_rlc_sdu_segment_t) :=
  data ← of_option OutOfBounds (zslice buffer 0 size);
  let a := heap_next h in
  let sdu := mk_nr_rlc_sdu (-1) upper_layer_id data size (-1) 1 0 0 in
  let ret := mk_segment (a + 1) a size 0 true true in
  Ok (mk_sdu_heap (<[a := sdu]> (heap_sdus h)) (a + 2), ret).

(** Returns whether the SDU has been freed too. *)
Definition nr_rlc_free_sdu_segment (h : sdu_heap) (s : nr_rlc_sdu_segment_t)
    : outcome (sdu_heap * bool) :=
  u ← deref_sdu h s;
  let u := u <| free_count := free_count u + 1 |> in
  if free_count u =? ref_count u
  then Ok (h <| heap_sdus := delete (seg_sdu s) (heap_sdus h) |>, true)
  else Ok (set_sdu h s u, false).

(** The cells of [l] up to the one at address [a]. *)
Fixpoint list_upto (a : Z) (l : list nr_rlc_sdu_segment_t)
    : option (list nr_rlc_sdu_segment_t) :=
  match l with
  | [] => None
  | s :: l => if seg_addr s =? a then Some [s] else (s ::.) <$> list_upto a l
  end.

(** [( *end)->next = sdu; *end = sdu]: what follows [end] is unlinked. *)
Definition nr_rlc_sdu_segment_list_append (l : list nr_rlc_sdu_segment_t) (e : option Z)
    (sdu : nr_rlc_sdu_segment_t) : outcome (list nr_rlc_sdu_segment_t * option Z) :=
  match l with
  | [] => Ok ([sdu], Some (seg_addr sdu))
  | _ =>
      a ← of_option NullDeref e;
      l ← of_option Dangling (list_upto a l);
      Ok (l ++ [sdu], Some (seg_addr sdu))
  end.

Fixpoint nr_rlc_free_sdu_segment_list (h : sdu_heap) (l : list nr_rlc_sdu_segment_t)
    : outcome sdu_heap :=
  match l with
  | [] => Ok h
  | cur :: l =>
      '(h, _) ← nr_rlc_free_sdu_segment h cur;
      nr_rlc_free_sdu_segment_list h l
  end.

(** The cell an end pointer designates, for [(end)->...]. *)
Definition deref_end (l : list nr_rlc_sdu_segment_t) (a : Z)
    : outcome nr_rlc_sdu_segment_t :=
  match list_upto a l with
  | Some l => of_option Dangling (last l)
  | None => Fault Dangling
  end.

(** The search of discard_sdu: the transmit list around the first segment of the SDU [sdu_id]. *)
Fixpoint find_upper_layer_id (h : sdu_heap) (sdu_id : Z) (before l : list nr_rlc_sdu_segment_t)
    : outcome (option (list nr_rlc_sdu_segment_t * nr_rlc_sdu_segment_t
                       * list nr_rlc_sdu_segment_t)) :=
  match l with
  | [] => Ok None
  | cur :: next =>
      u ← deref_sdu h cur;
      if upper_layer_id u =? sdu_id then Ok (Some (before, cur, next))
      else find_upper_layer_id h sdu_id (before ++ [cur]) next
  end.

(** ** Invariant

    [heap_inv h l]: [l] is, in any order, the live segments of the SDUs of
    [h].  Every live segment is a range of its SDU, flagged as first and last
    accordingly; two segments of an SDU do not overlap; an SDU is allocated as
    long as one of its segments is, and its counters say how many are. *)

Definition seg_end (s : nr_rlc_sdu_segment_t) : Z := seg_so s + seg_size s.

Definition seg_refs (k : Z) (l : list nr_rlc_sdu_segment_t) : Z :=
  zsum (fun s => b2z (seg_sdu s =? k)) l.

Definition seg_disjoint (s t : nr_rlc_sdu_segment_t) : Prop :=
  seg_sdu s = seg_sdu t -> seg_end s <= seg_so t \/ seg_end t <= seg_so s.

(** [s] as a range of [u]. *)
Definition seg_range (s : nr_rlc_sdu_segment_t) (u : nr_rlc_sdu_t) : Prop :=
  0 <= seg_so s /\ 0 <= seg_size s /\ seg_end s <= sdu_size u /\
  (is_first s = true <-> seg_so s = 0) /\
  (is_last s = true <-> seg_end s = sdu_size u) /\
  (0 < seg_size s \/ is_first s = true /\ is_last s = true).

Definition seg_wf (h : sdu_heap) (s : nr_rlc_sdu_segment_t) : Prop :=
  seg_addr s < heap_next h /\
  exists u, heap_sdus h !! seg_sdu s = Some u /\ seg_range s u.

Definition sdu_wf (h : sdu_heap) (l : list nr_rlc_sdu_segment_t) (k : Z) (u : nr_rlc_sdu_t) : Prop :=
  k < heap_next h /\ zlen (sdu_data u) = sdu_size u /\
  ref_count u - free_count u = seg_refs k l /\ 0 < seg_refs k l.

Record heap_inv (h : sdu_heap) (l : list nr_rlc_sdu_segment_t) : Prop := {
  heap_segs : Forall (seg_wf h) l;
  heap_sdu : forall k u, heap_sdus h !! k = Some u -> sdu_wf h l k u;
  heap_disjoint : forall s t, s ∈ l -> t ∈ l -> seg_addr s <> seg_addr t -> seg_disjoint s t;
  heap_nodup : NoDup (seg_addr <$> l);
}.

(** Bytes held by the heap. *)
Definition heap_bytes (h : sdu_heap) : Z :=
  map_fold (fun _ u n => sdu_size u + n) 0 (heap_sdus h).

(** The end pointer of a list designates its last cell. *)
Definition end_ok (l : list nr_rlc_sdu_segment_t) (e : option Z) : Prop :=
  e = seg_addr <$> last l.

#[export] Instance seg_refs_perm k : Proper ((≡ₚ) ==> (=)) (seg_refs k).
Proof. intros l l' H. unfold seg_refs. by rewrite H. Qed.

#[export] Instance heap_inv_perm h : Proper ((≡ₚ) ==> iff) (heap_inv h).
Proof.
  intros l l' H. split; intros [A B C D]; constructor.
  - by rewrite <- H.
  - intros k u Hk. specialize (B k u Hk). unfold sdu_wf in *. by rewrite <- H.
  - intros s t. rewrite <- !H. apply C.
  - by rewrite <- H.
  - by rewrite H.
  - intros k u Hk. specialize (B k u Hk). unfold sdu_wf in *. by rewrite H.
  - intros s t. rewrite !H. apply C.
  - by rewrite H.
Qed.

Lemma heap_inv_empty : heap_inv empty_heap [].
Proof.
  constructor; [constructor| |set_solver|constructor].
  intros k u H. cbn in H. by rewrite lookup_empty in H.
Qed.

Lemma seg_refs_cons k s l : seg_refs k (s :: l) = b2z (seg_sdu s =? k) + seg_refs k l.
Proof. reflexivity. Qed.

Lemma seg_refs_nonneg k l : 0 <= seg_refs k l.
Proof. apply zsum_nonneg. intros s _. destruct (_ =? _); cbn; lia. Qed.

Lemma seg_refs_none k l : (forall s, s ∈ l -> seg_sdu s <> k) -> seg_refs k l = 0.
Proof.
  induction l as [|s l IH]; intros H; [done|]. rewrite seg_refs_cons.
  rewrite IH by set_solver. destruct (_ =? _) eqn:E; zify_bool; [|done].
  exfalso. apply (H s); [set_solver|done].
Qed.

Lemma heap_inv_deref h s l :
  heap_inv h (s :: l) ->
  exists u, deref_sdu h s = Ok u /\ heap_sdus h !! seg_sdu s = Some u
            /\ seg_range s u /\ sdu_wf h (s :: l) (seg_sdu s) u.
Proof.
  intros H. pose proof (heap_segs _ _ H) as Hs. apply Forall_cons in Hs as [[_ (u & Hu & Hr)] _].
  exists u. unfold deref_sdu. rewrite Hu. split_and!; try done. by apply (heap_sdu _ _ H).
Qed.

(** The live segments determine what an update of an SDU must keep. *)
Lemma heap_inv_set h l s u u' :
  heap_inv h l -> heap_sdus h !! seg_sdu s = Some u ->
  sdu_data u' = sdu_data u -> sdu_size u' = sdu_size u ->
  ref_count u' - free_count u' = ref_count u - free_count u ->
  heap_inv (set_sdu h s u') l.
Proof.
  intros H Hu Hd Hz Hr. unfold set_sdu. constructor; field_simpl.
  - eapply Forall_impl; [apply H|]. intros t (Ha & v & Hv & Hrange). unfold seg_wf. field_simpl.
    split; [done|]. destruct (decide (seg_sdu s = seg_sdu t)) as [E|E].
    + rewrite E, lookup_insert_eq. exists u'. split; [done|].
      rewrite E in Hu. unfold seg_range in *. by simplify_eq; rewrite Hz.
    + rewrite lookup_insert_ne by done. eauto.
  - intros k v Hk. unfold sdu_wf. field_simpl.
    destruct (decide (seg_sdu s = k)) as [<-|E].
    + rewrite lookup_insert_eq in Hk. simplify_eq. rewrite Hd, Hz, Hr. by apply (heap_sdu _ _ H).
    + rewrite lookup_insert_ne in Hk by done. by apply (heap_sdu _ _ H).
  - apply H.
  - apply H.
Qed.

(** Bytes held, under insertion and deletion. *)
Lemma heap_bytes_insert (m : gmap Z nr_rlc_sdu_t) n k u :
  m !! k = None ->
  heap_bytes (mk_sdu_heap (<[k := u]> m) n) = sdu_size u + heap_bytes (mk_sdu_heap m n).
Proof.
  intros Hk. unfold heap_bytes. cbn. rewrite map_fold_insert_L; [done| |done].
  intros. lia.
Qed.

Lemma heap_bytes_next m n n' : heap_bytes (mk_sdu_heap m n) = heap_bytes (mk_sdu_heap m n').
Proof. reflexivity. Qed.

Lemma heap_bytes_delete h k u :
  heap_sdus h !! k = Some u ->
  heap_bytes h = sdu_size u + heap_bytes (h <| heap_sdus := delete k (heap_sdus h) |>).
Proof.
  intros Hk. destruct h as [m n]. cbn in Hk.
  rewrite <- (insert_id m k u Hk) at 1. rewrite <- insert_delete_eq.
  rewrite heap_bytes_insert by apply lookup_delete_eq. done.
Qed.

Lemma heap_bytes_set h s u u' :
  heap_sdus h !! seg_sdu s = Some u -> sdu_size u' = sdu_size u ->
  heap_bytes (set_sdu h s u') = heap_bytes h.
Proof.
  intros Hk Hz. destruct h as [m n]. unfold set_sdu. cbn in Hk |- *.
  change (upd heap_sdus _ _) with (mk_sdu_heap (<[seg_sdu s := u']> m) n).
  rewrite <- insert_delete_eq, heap_bytes_insert by apply lookup_delete_eq.
  rewrite (heap_bytes_delete (mk_sdu_heap m n) (seg_sdu s) u) by done.
  rewrite Hz. done.
Qed.

Lemma heap_bytes_nonneg h l : heap_inv h l -> 0 <= heap_bytes h.
Proof.
  intros H. unfold heap_bytes.
  assert (Hz : forall k u, heap_sdus h !! k = Some u -> 0 <= sdu_size u).
  { intros k u Hk. apply (heap_sdu _ _ H) in Hk as (_ & <- & _). auto with qran. }
  revert Hz. generalize (heap_sdus h). intros m.
  apply (map_fold_weak_ind (fun n m => (forall k u, m !! k = Some u -> 0 <= sdu_size u) -> 0 <= n)).
  - done.
  - intros k u m' r Hk IH Hz.
    assert (0 <= sdu_size u) by (eapply (Hz k), lookup_insert_eq).
    assert (0 <= r); [|lia]. apply IH. intros k' u' Hk'. apply (Hz k').
    rewrite lookup_insert_ne; [done|congruence].
Qed.

(** What a surviving SDU keeps. *)
Definition sdu_same (u u' : nr_rlc_sdu_t) : Prop :=
  sdu_sn u' = sdu_sn u /\ sdu_data u' = sdu_data u /\ sdu_size u' = sdu_size u /\
  upper_layer_id u' = upper_layer_id u /\ retx_count u' = retx_count u.

Definition heap_same (h h' : sdu_heap) (l : list nr_rlc_sdu_segment_t) : Prop :=
  heap_next h <= heap_next h' /\
  forall t u, t ∈ l -> heap_sdus h !! seg_sdu t = Some u ->
    exists u', heap_sdus h' !! seg_sdu t = Some u' /\ sdu_same u u'.

Lemma seg_wf_other (h h' : sdu_heap) s :
  heap_next h <= heap_next h' -> heap_sdus h' !! seg_sdu s = heap_sdus h !! seg_sdu s ->
  seg_wf h s -> seg_wf h' s.
Proof. intros ? Hk (? & u & Hu & ?). split; [lia|]. exists u. by rewrite Hk. Qed.

Lemma NoDup_seg_addr_head s (l : list nr_rlc_sdu_segment_t) t :
  NoDup (seg_addr <$> s :: l) -> t ∈ l -> seg_addr s <> seg_addr t.
Proof.
  intros [Hn _]%NoDup_cons Ht E. apply Hn. rewrite E. by apply list_elem_of_fmap_2.
Qed.

(** Freeing a segment. *)
Lemma free_correct h s l :
  heap_inv h (s :: l) ->
  exists h' r u, nr_rlc_free_sdu_segment h s = Ok (h', r) /\
    heap_sdus h !! seg_sdu s = Some u /\
    heap_inv h' l /\ heap_same h h' l /\
    heap_bytes h' = heap_bytes h - (if r then sdu_size u else 0) /\
    (r = true <-> forall t, t ∈ l -> seg_sdu t <> seg_sdu s).
Proof.
  intros H. destruct (heap_inv_deref _ _ _ H) as (u & Hd & Hu & Hr & Hlt & Hz & Href & Hpos).
  unfold nr_rlc_free_sdu_segment. rewrite Hd. cbn [mbind outcome_bind]. field_simpl.
  rewrite seg_refs_cons, Z.eqb_refl in Href. cbn [b2z] in Href.
  pose proof H as [Hsegs Hsdu Hdisj Hnd].
  apply Forall_cons in Hsegs as [_ Hsegs].
  assert (Hother : forall k v, k <> seg_sdu s -> heap_sdus h !! k = Some v -> sdu_wf h l k v).
  { intros k v Hk Hv. apply Hsdu in Hv as (?&?&Hrk&?). rewrite seg_refs_cons in *.
    destruct (_ =? k) eqn:E; zify_bool; [congruence|]. by split_and!. }
  destruct (_ =? _) eqn:E; zify_bool.
  - exists (h <| heap_sdus := delete (seg_sdu s) (heap_sdus h) |>), true, u.
    assert (Hnone : forall t, t ∈ l -> seg_sdu t <> seg_sdu s).
    { intros t Ht Et. assert (Hp : seg_refs (seg_sdu s) l = 0) by lia.
      apply list_elem_of_split in Ht as (l1 & l2 & ->).
      unfold seg_refs in Hp. rewrite zsum_app, zsum_cons in Hp.
      change (zsum _ l1) with (seg_refs (seg_sdu s) l1) in Hp.
      change (zsum _ l2) with (seg_refs (seg_sdu s) l2) in Hp.
      pose proof (seg_refs_nonneg (seg_sdu s) l1). pose proof (seg_refs_nonneg (seg_sdu s) l2).
      rewrite Et, Z.eqb_refl in Hp. cbn [b2z] in Hp. lia. }
    split_and!; [done|done| | | |done].
    + constructor; field_simpl.
      * rewrite Forall_forall in Hsegs |- *. intros t Ht.
        apply (seg_wf_other h); field_simpl; [lia| |by apply Hsegs].
        rewrite lookup_delete_ne; [done|]. intros E'. by apply (Hnone t).
      * intros k v Hk. apply lookup_delete_Some in Hk as [Hne Hk].
        unfold sdu_wf. field_simpl. by apply Hother.
      * set_solver.
      * by apply NoDup_cons in Hnd as [_ ?].
    + split; field_simpl; [lia|]. intros t v Ht Hv. exists v.
      rewrite lookup_delete_ne; [by split_and!|]. intros E'. by apply (Hnone t).
    + rewrite (heap_bytes_delete h (seg_sdu s) u) by done. lia.
  - exists (set_sdu h s (u <| free_count := free_count u + 1 |>)), false, u.
    split_and!; [done|done| | | |].
    + constructor; unfold set_sdu; field_simpl.
      * rewrite Forall_forall in Hsegs |- *. intros t Ht.
        destruct (Hsegs t Ht) as (? & v & Hv & Hrange). split; [done|]. field_simpl.
        destruct (decide (seg_sdu s = seg_sdu t)) as [Et|Et].
        -- rewrite Et in *. rewrite lookup_insert_eq. eexists. split; [done|].
           simplify_eq. done.
        -- rewrite lookup_insert_ne by done. eauto.
      * intros k v Hk. destruct (decide (seg_sdu s = k)) as [<-|Ek].
        -- rewrite lookup_insert_eq in Hk. simplify_eq. unfold sdu_wf. field_simpl.
           pose proof (seg_refs_nonneg (seg_sdu s) l). split_and!; try done; lia.
        -- rewrite lookup_insert_ne in Hk by done.
           unfold sdu_wf. field_simpl. by apply Hother.
      * set_solver.
      * by apply NoDup_cons in Hnd as [_ ?].
    + unfold set_sdu. split; field_simpl; [lia|]. intros t v Ht Hv.
      destruct (decide (seg_sdu s = seg_sdu t)) as [Et|Et].
      * rewrite Et in *. rewrite lookup_insert_eq. eexists. split; [done|]. by simplify_eq.
      * rewrite lookup_insert_ne by done. exists v. by split_and!.
    + rewrite (heap_bytes_set _ _ u); [lia|done|done].
    + split; [done|]. intros Hall. exfalso.
      rewrite (seg_refs_none (seg_sdu s) l) in Href by done. lia.
Qed.

(** Allocating an SDU. *)
Lemma new_sdu_correct h l buffer size id :
  heap_inv h l -> size = zlen buffer ->
  exists h' s u, nr_rlc_new_sdu h buffer size id = Ok (h', s) /\
    heap_inv h' (s :: l) /\ heap_same h h' l /\
    heap_sdus h' !! seg_sdu s = Some u /\
    sdu_sn u = -1 /\ sdu_data u = buffer /\ sdu_size u = size /\ upper_layer_id u = id /\
    seg_so s = 0 /\ seg_size s = size /\ is_first s = true /\ is_last s = true /\
    (forall t, t ∈ l -> seg_sdu t <> seg_sdu s) /\
    heap_bytes h' = heap_bytes h + size.
Proof.
  intros [Hsegs Hsdu Hdisj Hnd] ->. unfold nr_rlc_new_sdu.
  rewrite zslice_all. cbn [of_option mbind outcome_bind].
  set (a := heap_next h).
  set (u := mk_nr_rlc_sdu (-1) id buffer (zlen buffer) (-1) 1 0 0).
  assert (Hfresh : heap_sdus h !! a = None).
  { destruct (heap_sdus h !! a) as [v|] eqn:E; [|done]. apply Hsdu in E as [? _]. lia. }
  assert (Hne : forall t, t ∈ l -> seg_sdu t <> a /\ seg_addr t < a).
  { intros t Ht. rewrite Forall_forall in Hsegs. destruct (Hsegs t Ht) as (? & v & Hv & _).
    split; [|done]. intros E. congruence. }
  pose proof (zlen_nonneg buffer).
  eexists _, _, u. split; [done|]. cbn [heap_sdus seg_sdu seg_so seg_size is_first is_last].
  rewrite lookup_insert_eq. split_and!; try done.
  - constructor; cbn [heap_sdus].
    + constructor.
      * split; cbn; [lia|]. exists u. rewrite lookup_insert_eq. split; [done|].
        unfold seg_range, seg_end. cbn. split_and!; try lia; try done.
      * rewrite Forall_forall in Hsegs |- *. intros t Ht. destruct (Hne t Ht).
        apply (seg_wf_other h); cbn; [lia|by rewrite lookup_insert_ne|by apply Hsegs].
    + intros k v Hk. unfold sdu_wf. cbn [heap_next]. rewrite seg_refs_cons. cbn [seg_sdu].
      destruct (decide (a = k)) as [<-|Ek].
      * rewrite lookup_insert_eq in Hk. simplify_eq. rewrite Z.eqb_refl.
        rewrite seg_refs_none by (intros t Ht; by apply Hne). cbn. split_and!; try done; lia.
      * rewrite lookup_insert_ne in Hk by done. destruct (Hsdu k v Hk) as (?&?&?&?).
        destruct (a =? k) eqn:E; zify_bool; [done|]. cbn. split_and!; try done; lia.
    + intros s t Hs Ht Hst. rewrite elem_of_cons in Hs, Ht.
      destruct Hs as [->|Hs], Ht as [->|Ht]; try done; try (by apply Hdisj);
        intros E; cbn in E; exfalso.
      * by destruct (Hne t Ht).
      * by destruct (Hne s Hs).
    + rewrite fmap_cons. apply NoDup_cons. split; [|done].
      intros (t & Et & Ht)%list_elem_of_fmap. destruct (Hne t Ht). cbn in Et. lia.
  - split; cbn; [lia|]. intros t v Ht Hv. destruct (Hne t Ht).
    exists v. rewrite lookup_insert_ne by done. by split_and!.
  - intros t Ht. by apply Hne.
  - rewrite heap_bytes_insert by done. rewrite (heap_bytes_next _ _ (heap_next h)).
    destruct h; cbn. lia.
Qed.

(** Cutting a segment in two, after [n] bytes. *)
Definition seg_head (s : nr_rlc_sdu_segment_t) (n : Z) : nr_rlc_sdu_segment_t :=
  s <| seg_size := n |> <| is_last := false |>.
Definition seg_tail (s : nr_rlc_sdu_segment_t) (a n : Z) : nr_rlc_sdu_segment_t :=
  s <| seg_addr := a |> <| seg_size := seg_size s - n |>
    <| seg_so := seg_so s + n |> <| is_first := false |>.

Lemma seg_cut_range s a n u :
  seg_range s u -> 0 < n < seg_size s ->
  seg_range (seg_head s n) u /\ seg_range (seg_tail s a n) u.
Proof.
  unfold seg_range, seg_head, seg_tail, seg_end. field_simpl.
  intros (?&?&?&Hf&Hl&?) ?.
  split; split_and!; try lia; try done;
    split; intros E; try done; try lia; first [apply Hl; lia | rewrite Hl in E; lia].
Qed.

Lemma heap_inv_split h s l u n :
  heap_inv h (s :: l) -> heap_sdus h !! seg_sdu s = Some u -> 0 < n < seg_size s ->
  let h' := (set_sdu h s (u <| ref_count := ref_count u + 1 |>)) <| heap_next := heap_next h + 1 |> in
  heap_inv h' (seg_head s n :: seg_tail s (heap_next h) n :: l) /\
  heap_same h h' (s :: l) /\ heap_bytes h' = heap_bytes h.
Proof.
  intros H Hu Hn h'. pose proof H as [Hsegs Hsdu Hdisj Hnd].
  apply Forall_cons in Hsegs as [(Has & u0 & Hu0 & Hrange) Hsegs]. simplify_eq.
  destruct (seg_cut_range s (heap_next h) n u Hrange Hn) as [Hr1 Hr2].
  assert (Hlk : forall k, heap_sdus h' !! k =
    if decide (seg_sdu s = k) then Some (u <| ref_count := ref_count u + 1 |>)
    else heap_sdus h !! k).
  { intros k. unfold h', set_sdu. field_simpl. by rewrite lookup_insert. }
  assert (Hnext : heap_next h' = heap_next h + 1) by done.
  assert (Hwf : forall t v, heap_sdus h !! seg_sdu t = Some v -> seg_range t v ->
    seg_addr t < heap_next h + 1 -> seg_wf h' t).
  { intros t v Hv Hr Ha. split; [by rewrite Hnext|]. rewrite Hlk. case_decide as E; [|eauto].
    eexists. split; [done|]. by rewrite <- E in Hv; simplify_eq. }
  split_and!.
  - constructor.
    + constructor; [apply (Hwf _ u); [done|done|unfold seg_head; field_simpl; lia]|].
      constructor; [apply (Hwf _ u); [done|done|unfold seg_tail; field_simpl; lia]|].
      eapply Forall_impl; [exact Hsegs|]. intros t (? & v & Hv & ?). eapply Hwf; [done..|lia].
    + intros k v Hk. rewrite Hlk in Hk. unfold sdu_wf. rewrite Hnext, !seg_refs_cons.
      change (seg_sdu (seg_head s n)) with (seg_sdu s).
      change (seg_sdu (seg_tail s (heap_next h) n)) with (seg_sdu s).
      case_decide as E.
      * subst k. injection Hk as <-. destruct (Hsdu _ _ Hu) as (?&?&Hr&?).
        rewrite seg_refs_cons, Z.eqb_refl in *. cbn [b2z] in *. field_simpl.
        split_and!; try done; lia.
      * destruct (Hsdu k v Hk) as (?&?&Hr&?). rewrite seg_refs_cons in *.
        destruct (seg_sdu s =? k) eqn:Ek; zify_bool; [done|]. cbn [b2z] in *.
        split_and!; try done; lia.
    + assert (Hs : forall t, t ∈ l -> seg_disjoint s t).
      { intros t Ht. apply Hdisj; [set_solver..|]. by eapply NoDup_seg_addr_head. }
      intros x y. rewrite !elem_of_cons.
      unfold seg_disjoint, seg_end in *.
      intros [->|[->|Hx]] [->|[->|Hy]] Hxy Exy; try done;
        unfold seg_head, seg_tail in *; field_simpl_all; try lia.
      * specialize (Hs y Hy Exy). lia.
      * specialize (Hs y Hy Exy). lia.
      * specialize (Hs x Hx (eq_sym Exy)). lia.
      * specialize (Hs x Hx (eq_sym Exy)). lia.
      * apply (Hdisj x y); set_solver.
    + rewrite !fmap_cons in *. apply NoDup_cons in Hnd as [Hna Hnd].
      change (seg_addr (seg_head s n)) with (seg_addr s).
      change (seg_addr (seg_tail s (heap_next h) n)) with (heap_next h).
      apply NoDup_cons. split.
      * rewrite elem_of_cons. intros [E|E]; [lia|done].
      * apply NoDup_cons. split; [|done].
        intros (t & Et & Ht)%list_elem_of_fmap. rewrite Forall_forall in Hsegs.
        destruct (Hsegs t Ht). lia.
  - split; [rewrite Hnext; lia|]. intros t v Ht Hv. rewrite Hlk. case_decide as E; [|].
    + eexists. split; [done|]. rewrite <- E in Hv. by simplify_eq.
    + exists v. by split_and!.
  - unfold h'. rewrite <- (heap_bytes_set h s u (u <| ref_count := ref_count u + 1 |>)); done.
Qed.

(** What is sent of the head of the list, and what is left of it. *)
Definition seg_sent (s s1 : nr_rlc_sdu_segment_t) (l l' : list nr_rlc_sdu_segment_t) : Prop :=
  seg_sdu s1 = seg_sdu s /\ seg_so s1 = seg_so s /\ is_first s1 = is_first s /\
  ((s1 = s /\ l' = l) \/
   (is_last s1 = false /\ exists s2, l' = s2 :: l /\ seg_sdu s2 = seg_sdu s /\
    seg_so s2 = seg_end s1 /\ seg_end s2 = seg_end s /\ is_first s2 = false /\
    is_last s2 = is_last s)).

Lemma seg_sent_head s l n a :
  seg_sent s (seg_head s n) l (seg_tail s a n :: l).
Proof.
  unfold seg_sent, seg_head, seg_tail, seg_end. field_simpl. split_and!; try done. right. split; [done|].
  eexists. split; [done|]. field_simpl. split_and!; try done. lia.
Qed.

Lemma seg_sent_whole s l : seg_sent s s l l.
Proof. unfold seg_sent. split_and!; try done. by left. Qed.

(** ** List ends *)

Lemma list_upto_last (l : list nr_rlc_sdu_segment_t) s :
  NoDup (seg_addr <$> l ++ [s]) -> list_upto (seg_addr s) (l ++ [s]) = Some (l ++ [s]).
Proof.
  induction l as [|t l IH]; intros Hnd; cbn.
  - by rewrite Z.eqb_refl.
  - cbn in Hnd. apply NoDup_cons in Hnd as [Hn Hnd].
    destruct (_ =? _) eqn:E; zify_bool.
    + exfalso. apply Hn. rewrite E. apply list_elem_of_fmap_2. set_solver.
    + by rewrite IH.
Qed.

Lemma append_correct l e s :
  end_ok l e -> NoDup (seg_addr <$> l) ->
  nr_rlc_sdu_segment_list_append l e s = Ok (l ++ [s], Some (seg_addr s)).
Proof.
  unfold end_ok. intros -> Hnd. destruct l as [|t l _] using rev_ind; [done|].
  rewrite last_snoc. cbn [fmap option_fmap option_map of_option].
  unfold nr_rlc_sdu_segment_list_append.
  destruct (l ++ [t]) as [|x y] eqn:E; [by destruct l|]. rewrite <- E in *. clear x y E.
  cbn [mbind outcome_bind of_option]. by rewrite list_upto_last.
Qed.

Lemma deref_end_correct l e a :
  end_ok l e -> e = Some a -> NoDup (seg_addr <$> l) ->
  exists s, last l = Some s /\ deref_end l a = Ok s.
Proof.
  unfold end_ok. intros -> He Hnd. destruct l as [|t l _] using rev_ind; [done|].
  rewrite last_snoc in He |- *. cbn in He. injection He as <-. exists t. split; [done|].
  unfold deref_end. rewrite list_upto_last by done. by rewrite last_snoc.
Qed.

Lemma end_ok_snoc l s : end_ok (l ++ [s]) (Some (seg_addr s)).
Proof. unfold end_ok. by rewrite last_snoc. Qed.

Lemma end_ok_cons_ne s l e : l <> [] -> end_ok l e -> end_ok (s :: l) e.
Proof. unfold end_ok. destruct l; [done|]. intros _ ->. by rewrite last_cons_cons. Qed.

(** Freeing a whole list. *)
Lemma free_list_correct h l r :
  heap_inv h (l ++ r) ->
  exists h', nr_rlc_free_sdu_segment_list h l = Ok h' /\ heap_inv h' r /\ heap_same h h' r.
Proof.
  revert h. induction l as [|s l IH]; intros h H.
  - exists h. split_and!; [done|done|]. split; [lia|]. intros t u _ Hu. exists u. by split_and!.
  - destruct (free_correct _ _ _ H) as (h1 & b & u & H1 & Hu & Hinv & Hsame & _).
    destruct (IH h1 Hinv) as (h2 & H2 & Hinv2 & Hsame2).
    exists h2. cbn [nr_rlc_free_sdu_segment_list]. rewrite H1. cbn [mbind outcome_bind].
    split_and!; [done|done|]. destruct Hsame as [? Hs], Hsame2 as [? Hs2].
    split; [lia|]. intros t v Ht Hv.
    destruct (Hs t v ltac:(set_solver) Hv) as (v1 & Hv1 & ?).
    destruct (Hs2 t v1 Ht Hv1) as (v2 & Hv2 & ?). exists v2. split; [done|].
    unfold sdu_same in *. intuition congruence.
Qed.

(** No live segment, no allocated SDU: nothing leaks. *)
Lemma heap_inv_nil_empty h : heap_inv h [] -> heap_sdus h = ∅.
Proof.
  intros H. apply map_empty. intros k. destruct (heap_sdus h !! k) as [u|] eqn:E; [|done].
  apply (heap_sdu _ _ H) in E as (_ & _ & _ & Hp). cbn in Hp. lia.
Qed.

Lemma NoDup_addr_inj (l : list nr_rlc_sdu_segment_t) s t :
  NoDup (seg_addr <$> l) -> s ∈ l -> t ∈ l -> seg_addr s = seg_addr t -> s = t.
Proof.
  intros Hnd (i & Hi)%list_elem_of_lookup (j & Hj)%list_elem_of_lookup E.
  assert (i = j); [|congruence].
  eapply NoDup_lookup; [exact Hnd| |]; rewrite list_lookup_fmap, ?Hi, ?Hj; cbn; by rewrite ?E.
Qed.

(** The end pointer after an element has left the list. *)
Lemma end_ok_remove before s next e :
  NoDup (seg_addr <$> before ++ s :: next) -> end_ok (before ++ s :: next) e ->
  end_ok (before ++ next) (if decide (e = Some (seg_addr s)) then seg_addr <$> last before else e).
Proof.
  unfold end_ok. intros Hnd ->. destruct next as [|t next _] using rev_ind.
  - rewrite last_snoc, app_nil_r. cbn. by destruct (decide _).
  - rewrite app_comm_cons, !app_assoc, !last_snoc. cbn [fmap option_fmap option_map].
    destruct (decide _) as [E|]; [exfalso|done]. injection E as E.
    assert (t = s) as ->.
    { eapply NoDup_addr_inj; [exact Hnd| | |done]; set_solver. }
    rewrite fmap_app, fmap_cons, fmap_app in Hnd. apply NoDup_app in Hnd as (_ & _ & Hnd).
    apply NoDup_cons in Hnd as [Hn _]. apply Hn. set_solver.
Qed.

Lemma free_map_Forall P h s h' b :
  nr_rlc_free_sdu_segment h s = Ok (h', b) ->
  (forall k u n, P k u -> P k (u <| free_count := n |>)) ->
  map_Forall P (heap_sdus h) -> map_Forall P (heap_sdus h').
Proof.
  unfold nr_rlc_free_sdu_segment, deref_sdu. intros H HP Hall. bind_inv; simplify_eq.
  - unfold map_Forall in *. field_simpl. intros k v [_ Hk]%lookup_delete_Some. by apply Hall.
  - unfold set_sdu. field_simpl. apply map_Forall_insert_2; [|done]. by apply HP, Hall.
Qed.

Lemma find_upper_layer_id_correct h sdu_id before l r :
  Forall (fun s => is_Some (heap_sdus h !! seg_sdu s)) l ->
  exists o, find_upper_layer_id h sdu_id before l = Ok o /\
    (o = r -> match r with
     | None => Forall (fun s => upper_layer_id <$> heap_sdus h !! seg_sdu s <> Some sdu_id) l
     | Some (before', cur, next) =>
         before' ++ cur :: next = before ++ l /\
         upper_layer_id <$> heap_sdus h !! seg_sdu cur = Some sdu_id
     end).
Proof.
  intros Hl. revert before. induction Hl as [|s l [u Hu] _ IH]; intros before;
    cbn [find_upper_layer_id].
  - eexists. split; [done|]. by intros <-.
  - unfold deref_sdu. rewrite Hu. cbn [of_option mbind outcome_bind].
    destruct (_ =? sdu_id) eqn:E; zify_bool.
    + eexists. split; [done|]. intros <-. split; [done|]. rewrite Hu. cbn. by rewrite E.
    + destruct (IH (before ++ [s])) as (o & -> & Ho). exists o. split; [done|].
      intros Hr. specialize (Ho Hr). destruct r as [[[b' c'] n']|].
      * by rewrite <- app_assoc in Ho.
      * constructor; [|done]. rewrite Hu. cbn. congruence.
Qed.
