(* ===== verification/RlcReassembly.v ===== *)
(** * SDU reassembly, shared by the AM and UM receivers

    nr_rlc_entity_am.c and nr_rlc_entity_um.c hold the same functions on the
    reception list; both models use the definitions below.  [genuine d p] says
    that the PDU [p] is a segment of the SDU [d]; against it, the scan of the
    list finds an SDU complete exactly when every byte is there, and
    reassembly returns the SDU. *)

From S2P Require Import Prelude RlcPdu.

Definition NR_SDU_MAX : Z := 16000.

(** ** Operations *)

(** The list from its first PDU of SDU [sn] on. *)
Fixpoint skip_to (sn : Z) (l : list nr_rlc_pdu_t) : list nr_rlc_pdu_t :=
  match l with
  | [] => []
  | p :: next => if pdu_sn p =? sn then l else skip_to sn next
  end.

Fixpoint segment_already_received (l : list nr_rlc_pdu_t) (sn so size : Z) : bool :=
  if size >? 0 then
    match l with
    | [] => size <=? 0
    | p :: next =>
        if pdu_sn p =? sn then
          if (pdu_so p <=? so) && (so <? pdu_so p + pdu_size p) then
            let covered := pdu_size p - (so - pdu_so p) in
            segment_already_received next sn (so + covered) (size - covered)
          else if (pdu_so p <=? so + size - 1) && (so + size - 1 <? pdu_so p + pdu_size p) then
            let covered := size - (pdu_so p - so) in
            segment_already_received next sn so (size - covered)
          else segment_already_received next sn so size
        else segment_already_received next sn so size
    end
  else size <=? 0.

(** The loop of [sdu_full]. *)
Fixpoint full_scan (sn last_byte : Z) (l : list nr_rlc_pdu_t) : bool :=
  match l with
  | [] => false
  | p :: next =>
      if pdu_sn p =? sn then
        if pdu_so p >? last_byte + 1 then false
        else if pdu_is_last p then true
        else
          let new_last_byte := pdu_so p + pdu_size p - 1 in
          full_scan sn (if new_last_byte >? last_byte then new_last_byte else last_byte) next
      else false
  end.

(** [l != NULL && l->data == NULL] *)
Definition head_processed (l : list nr_rlc_pdu_t) : bool :=
  match l with
  | p :: _ => match pdu_data p with None => true | Some _ => false end
  | [] => false
  end.

Definition sdu_full (l : list nr_rlc_pdu_t) (sn : Z) : bool :=
  let l := skip_to sn l in
  if head_processed l then false else full_scan sn (-1) l.

Definition sdu_delivered (l : list nr_rlc_pdu_t) (sn : Z) : bool :=
  head_processed (skip_to sn l).

(** The loop of [sdu_has_missing_bytes]. *)
Fixpoint missing_scan (sn last_byte : Z) (l : list nr_rlc_pdu_t) : bool :=
  match l with
  | [] => false
  | p :: next =>
      if pdu_sn p =? sn then
        if pdu_so p >? last_byte + 1 then true
        else
          let new_last_byte := pdu_so p + pdu_size p - 1 in
          missing_scan sn (if new_last_byte >? last_byte then new_last_byte else last_byte) next
      else false
  end.

Definition sdu_has_missing_bytes (l : list nr_rlc_pdu_t) (sn : Z) : bool :=
  let l := skip_to sn l in
  if head_processed l then false else missing_scan sn (-1) l.

(** [while (sdu_delivered(entity, sn)) sn = (sn + 1) % sn_modulus] *)
Fixpoint skip_delivered (fuel : nat) (sn_modulus : Z) (l : list nr_rlc_pdu_t) (sn : Z)
    : outcome Z :=
  match fuel with
  | O => Fault Diverge
  | S fuel =>
      if sdu_delivered l sn
      then skip_delivered fuel sn_modulus l (Z.rem (sn + 1) sn_modulus)
      else Ok sn
  end.

(** The distinct delivered SNs are SNs of the list. *)
Definition first_not_delivered (sn_modulus : Z) (l : list nr_rlc_pdu_t) (sn : Z) : outcome Z :=
  skip_delivered (S (length l)) sn_modulus l sn.

(** The reassembly loop: [sdu] holds the first [so] bytes of the SDU.
    [clear_size]: the UM entity also zeroes the size of what it processed. *)
Fixpoint reassemble (clear_size : bool) (sn : Z) (l : list nr_rlc_pdu_t)
    (rx_size : Z) (bad_sdu : bool) (sdu : list Z)
    : outcome (list nr_rlc_pdu_t * Z * bool * list Z) :=
  match l with
  | [] => Ok ([], rx_size, bad_sdu, sdu)
  | pdu :: next =>
      if pdu_sn pdu =? sn then
        let so := zlen sdu in
        let len := pdu_size pdu - (so - pdu_so pdu) in
        let bad_sdu := bad_sdu || (so + len >? NR_SDU_MAX) in
        sdu ← (if negb bad_sdu && (len >? 0) then
                 data ← of_option NullDeref (pdu_data pdu);
                 bytes ← of_option OutOfBounds (zslice data (so - pdu_so pdu) len);
                 Ok (sdu ++ bytes)
               else Ok sdu);
        let rx_size := rx_size - pdu_size pdu in
        let pdu := pdu <| pdu_data := None |> in
        let pdu := if clear_size then pdu <| pdu_size := 0 |> else pdu in
        '(next, rx_size, bad_sdu, sdu) ← reassemble clear_size sn next rx_size bad_sdu sdu;
        Ok (pdu :: next, rx_size, bad_sdu, sdu)
      else Ok (l, rx_size, bad_sdu, sdu)
  end.

(** From the head of the reception list: reassembly starts at the first PDU of
    [sn], which has to exist.  Returns the list, the occupancy of the buffer,
    and the SDU unless it was too big. *)
Fixpoint reassemble_list (clear_size : bool) (sn : Z) (l : list nr_rlc_pdu_t) (rx_size : Z)
    : outcome (list nr_rlc_pdu_t * Z * option (list Z)) :=
  match l with
  | [] => Fault NullDeref
  | pdu :: next =>
      if pdu_sn pdu =? sn then
        '(l, rx_size, bad_sdu, sdu) ← reassemble clear_size sn l rx_size false [];
        Ok (l, rx_size, if (bad_sdu : bool) then None else Some sdu)
      else
        '(next, rx_size, sdu) ← reassemble_list clear_size sn next rx_size;
        Ok (pdu :: next, rx_size, sdu)
  end.

(** ** Segments of an SDU *)

Definition pdu_end (p : nr_rlc_pdu_t) : Z := pdu_so p + pdu_size p.

(** [p] is a segment of the SDU [d], whatever became of its data. *)
Definition seg_of (d : list Z) (p : nr_rlc_pdu_t) : Prop :=
  0 <= pdu_so p /\ 0 < pdu_size p /\ pdu_end p <= zlen d /\
  (pdu_is_last p = true <-> pdu_end p = zlen d).

Definition genuine (d : list Z) (p : nr_rlc_pdu_t) : Prop :=
  seg_of d p /\ pdu_data p <> None /\ pdu_data p = zslice d (pdu_so p) (pdu_size p).

(** Byte [i] of SDU [sn] is in a PDU of [l]. *)
Definition byte_in (l : list nr_rlc_pdu_t) (sn i : Z) : Prop :=
  exists p, p ∈ l /\ pdu_sn p = sn /\ pdu_so p <= i < pdu_end p.

(** [l = pre ++ grp ++ post] where [grp] is all of SDU [sn]. *)
Definition grouped (sn : Z) (pre grp post : list nr_rlc_pdu_t) : Prop :=
  Forall (fun p => pdu_sn p <> sn) pre /\ Forall (fun p => pdu_sn p = sn) grp /\
  Forall (fun p => pdu_sn p <> sn) post.

Definition so_sorted (l : list nr_rlc_pdu_t) : Prop :=
  StronglySorted (fun p q => pdu_so p <= pdu_so q) l.

Definition all_processed (l : list nr_rlc_pdu_t) : Prop := Forall (fun p => pdu_data p = None) l.

(** ** Soundness of the duplicate test: a PDU is discarded as already received
    only when each of its bytes is in the list. *)
Lemma already_received_sound l sn so size i :
  segment_already_received l sn so size = true -> so <= i < so + size -> byte_in l sn i.
Proof.
  revert so size. induction l as [|p l IH]; intros so size; cbn [segment_already_received];
    (destruct (size >? 0) eqn:Es; [|intros; zify_bool; lia]).
  - intros; zify_bool; lia.
  - assert (Hcons : byte_in l sn i -> byte_in (p :: l) sn i).
    { intros (q & ? & ?). exists q. split; [set_solver|done]. }
    assert (Hhead : pdu_sn p = sn -> pdu_so p <= i < pdu_end p -> byte_in (p :: l) sn i).
    { intros. exists p. split_and!; [set_solver|done|lia|lia]. }
    destruct (_ =? sn) eqn:En; zify_bool; [|intros; eauto].
    destruct ((_ <=? so) && _) eqn:E1; [|destruct ((_ <=? so + size - 1) && _) eqn:E2]; zify_bool;
      unfold pdu_end in Hhead; intros Hrec Hi.
    + destruct (decide (i < pdu_so p + pdu_size p)); [apply Hhead; [done|lia]|].
      apply Hcons. eapply IH; [exact Hrec|lia].
    + destruct (decide (pdu_so p <= i)); [apply Hhead; [done|lia]|].
      apply Hcons. eapply IH; [exact Hrec|lia].
    + eauto.
Qed.

(** ** Completeness test *)

Lemma byte_in_cons p l sn i :
  byte_in (p :: l) sn i <-> (pdu_sn p = sn /\ pdu_so p <= i < pdu_end p) \/ byte_in l sn i.
Proof.
  split.
  - intros (q & Hq & Hsn & Hi). apply elem_of_cons in Hq as [->|Hq]; [by left|right].
    by exists q.
  - intros [[? ?]|(q & Hq & ?)].
    + exists p. split_and!; [set_solver|done|lia|lia].
    + exists q. split; [set_solver|done].
Qed.

Lemma byte_in_nil sn i : ~ byte_in [] sn i.
Proof. intros (p & Hp & _). set_solver. Qed.

Lemma full_scan_sound d sn grp last_byte i :
  Forall (seg_of d) grp -> full_scan sn last_byte grp = true ->
  last_byte < i < zlen d -> byte_in grp sn i.
Proof.
  revert last_byte. induction grp as [|p grp IH]; intros last_byte Hseg; [done|].
  apply Forall_cons in Hseg as [(Hso & Hsz & Hend & Hlast) Hseg].
  cbn [full_scan]. rewrite byte_in_cons.
  destruct (_ =? sn) eqn:En; [|done]. destruct (_ >? last_byte + 1) eqn:E; [done|]. zify_bool.
  unfold pdu_end in *. destruct (pdu_is_last p) eqn:El.
  - intros _ ?. left. assert (pdu_so p + pdu_size p = zlen d) by by apply Hlast. split; [done|lia].
  - intros Hrec Hi. destruct (decide (i < pdu_so p + pdu_size p)); [left; split; [done|lia]|].
    right. eapply (IH _ Hseg Hrec). case_if; lia.
Qed.

Lemma full_scan_complete d sn grp last_byte :
  Forall (seg_of d) grp -> Forall (fun p => pdu_sn p = sn) grp -> so_sorted grp ->
  last_byte + 1 < zlen d ->
  (forall i, last_byte < i < zlen d -> byte_in grp sn i) -> full_scan sn last_byte grp = true.
Proof.
  revert last_byte. induction grp as [|p grp IH]; intros last_byte Hseg Hsn Hsort Hlt Hcov.
  - exfalso. apply (byte_in_nil sn (last_byte + 1)), Hcov. lia.
  - apply Forall_cons in Hseg as [(Hso & Hsz & Hend & Hlast) Hseg].
    apply Forall_cons in Hsn as [Hp Hsn]. apply StronglySorted_inv in Hsort as [Hsort Hle].
    cbn [full_scan]. rewrite Hp, Z.eqb_refl. unfold pdu_end in *.
    destruct (_ >? last_byte + 1) eqn:E; zify_bool.
    { exfalso. destruct (Hcov (last_byte + 1)) as (q & Hq & _ & Hqi); [lia|].
      rewrite Forall_forall in Hle. apply elem_of_cons in Hq as [->|Hq]; [lia|].
      specialize (Hle q Hq). lia. }
    destruct (pdu_is_last p) eqn:El; [done|].
    assert (pdu_so p + pdu_size p <> zlen d) by (intros ?%Hlast; congruence).
    apply IH; [done|done|done| |].
    + case_if; lia.
    + intros i Hi. destruct (Hcov i) as (q & Hq & Hqs & Hqi);
        [case_if; lia|].
      apply elem_of_cons in Hq as [->|Hq]; [|by exists q].
      unfold pdu_end in *. case_if; lia.
Qed.

(** ** Reassembly of genuine segments *)

Definition processed (clear_size : bool) (p : nr_rlc_pdu_t) : nr_rlc_pdu_t :=
  let p := p <| pdu_data := None |> in if clear_size then p <| pdu_size := 0 |> else p.

Lemma reassemble_stop cl sn post rx b sdu :
  Forall (fun p => pdu_sn p <> sn) post ->
  reassemble cl sn post rx b sdu = Ok (post, rx, b, sdu).
Proof.
  destruct post as [|p post]; [done|]. intros [Hp _]%Forall_cons. cbn [reassemble].
  by destruct (_ =? sn) eqn:E; zify_bool.
Qed.

(** Too big: the rest is only dropped. *)
Lemma reassemble_bad cl sn grp post rx sdu :
  Forall (fun p => pdu_sn p = sn) grp -> Forall (fun p => pdu_sn p <> sn) post ->
  reassemble cl sn (grp ++ post) rx true sdu
  = Ok ((processed cl <$> grp) ++ post, rx - zsum pdu_size grp, true, sdu).
Proof.
  revert rx. induction grp as [|p grp IH]; intros rx Hsn Hpost.
  - cbn [app fmap list_fmap]. by rewrite reassemble_stop, zsum_nil, Z.sub_0_r.
  - apply Forall_cons in Hsn as [Hp Hsn]. cbn [app reassemble]. rewrite Hp, Z.eqb_refl.
    cbn [orb negb andb mbind outcome_bind]. rewrite IH by done. cbn [mbind outcome_bind].
    rewrite fmap_cons, zsum_cons. cbn [app]. do 4 f_equal. lia.
Qed.

Lemma reassemble_genuine cl d sn grp post rx sdu :
  Forall (genuine d) grp -> Forall (fun p => pdu_sn p = sn) grp ->
  Forall (fun p => pdu_sn p <> sn) post ->
  sdu = take (Z.to_nat (zlen sdu)) d -> zlen sdu <= zlen d ->
  zlen sdu = zlen d \/ full_scan sn (zlen sdu - 1) grp = true ->
  exists b s,
    reassemble cl sn (grp ++ post) rx false sdu
    = Ok ((processed cl <$> grp) ++ post, rx - zsum pdu_size grp, b, s) /\
    (zlen d <= NR_SDU_MAX -> b = false /\ s = d) /\
    (zlen sdu <= NR_SDU_MAX < zlen d -> b = true).
Proof.
  revert rx sdu. induction grp as [|p grp IH]; intros rx sdu Hg Hsn Hpost Hsdu Hlen Hfull.
  - cbn [app fmap list_fmap]. rewrite reassemble_stop, zsum_nil, Z.sub_0_r by done.
    exists false, sdu. split; [done|]. destruct Hfull as [Hf|]; [|done].
    split; [|lia]. intros _. split; [done|]. rewrite Hsdu, Hf.
    unfold zlen. by rewrite Nat2Z.id, firstn_all.
  - apply Forall_cons in Hg as [((Hso & Hsz & Hend & Hlast) & Hne & Hdata) Hg].
    apply Forall_cons in Hsn as [Hp Hsn]. cbn [app reassemble]. rewrite Hp, Z.eqb_refl.
    cbn [orb]. set (len := pdu_size p - (zlen sdu - pdu_so p)).
    unfold pdu_end in *. assert (Hl : zlen sdu + len = pdu_so p + pdu_size p) by lia.
    assert (Hgap : zlen sdu = zlen d \/ pdu_so p <= zlen sdu).
    { destruct Hfull as [|Hf]; [by left|right]. cbn [full_scan] in Hf.
      rewrite Hp, Z.eqb_refl in Hf. destruct (_ >? _) eqn:E; [done|]. zify_bool. lia. }
    assert (Hnext : forall k, k = Z.max (zlen sdu) (pdu_so p + pdu_size p) ->
      k = zlen d \/ full_scan sn (k - 1) grp = true).
    { intros k Hk. destruct Hfull as [Hf|Hf]; [left; lia|]. cbn [full_scan] in Hf.
      rewrite Hp, Z.eqb_refl in Hf. destruct (_ >? _) eqn:E in Hf; [done|].
      destruct (pdu_is_last p) eqn:El.
      - left. assert (pdu_so p + pdu_size p = zlen d) by by apply Hlast. lia.
      - right. rewrite <- Hf. f_equal. case_if; lia. }
    destruct (zlen sdu + len >? NR_SDU_MAX) eqn:Ebig; zify_bool; cbn [negb andb].
    + cbn [mbind outcome_bind]. rewrite reassemble_bad by done. cbn [mbind outcome_bind].
      exists true, sdu. rewrite fmap_cons, zsum_cons. cbn [app].
      split; [do 4 f_equal; lia|]. split; [lia|done].
    + destruct (len >? 0) eqn:Epos; zify_bool.
      * destruct (pdu_data p) as [bytes|] eqn:Ed; [|done].
        assert (Hb : zslice bytes (zlen sdu - pdu_so p) len = zslice d (zlen sdu) len).
        { rewrite (zslice_zslice d bytes (pdu_so p) (pdu_size p)) by (done || lia).
          f_equal. lia. }
        pose proof (zlen_nonneg sdu).
        rewrite (zslice_ok d) in Hb by lia.
        cbn [of_option mbind outcome_bind]. rewrite Hb. cbn [of_option mbind outcome_bind].
        set (sdu' := sdu ++ _).
        assert (Hlen' : zlen sdu' = zlen sdu + len).
        { unfold sdu'. rewrite zlen_app, zlen_take; [done|].
          rewrite zlen_drop by lia. lia. }
        destruct (IH (rx - pdu_size p) sdu') as (b & s & -> & Hok & Hbad);
          [done|done|done| | | |].
        { rewrite Hlen', Z2Nat.inj_add by lia. rewrite <- take_take_drop. unfold sdu'.
          f_equal. done. }
        { lia. }
        { rewrite Hlen'. apply Hnext. lia. }
        cbn [mbind outcome_bind]. exists b, s. rewrite fmap_cons, zsum_cons. cbn [app].
        split; [do 4 f_equal; lia|]. split; [done|]. intros. apply Hbad. lia.
      * cbn [mbind outcome_bind].
        destruct (IH (rx - pdu_size p) sdu) as (b & s & -> & Hok & Hbad); [done..| |].
        { apply Hnext. lia. }
        cbn [mbind outcome_bind]. exists b, s. rewrite fmap_cons, zsum_cons. cbn [app].
        split; [do 4 f_equal; lia|]. done.
Qed.

(** ** Completeness of the duplicate test: once an SDU is complete, every one
    of its segments is recognised. *)
Lemma already_received_skip pre l sn so size :
  Forall (fun p => pdu_sn p <> sn) pre ->
  segment_already_received (pre ++ l) sn so size = segment_already_received l sn so size.
Proof.
  induction pre as [|p pre IH]; [done|]. intros [Hp Hpre]%Forall_cons.
  cbn [app segment_already_received].
  destruct (size >? 0) eqn:E.
  - destruct (_ =? sn) eqn:En; zify_bool; [done|]. by apply IH.
  - destruct l; cbn; by rewrite E.
Qed.

Lemma already_received_empty l sn so size :
  size <= 0 -> segment_already_received l sn so size = true.
Proof.
  intros. destruct l; cbn; destruct (size >? 0) eqn:?; zify_bool; try lia;
    by apply Z.leb_le.
Qed.

Lemma already_received_complete d sn grp post last_byte so size :
  Forall (seg_of d) grp -> Forall (fun p => pdu_sn p = sn) grp ->
  full_scan sn last_byte grp = true -> last_byte < so -> so + size <= zlen d ->
  segment_already_received (grp ++ post) sn so size = true.
Proof.
  revert last_byte so size. induction grp as [|p grp IH]; intros last_byte so size Hseg Hsn; [done|].
  apply Forall_cons in Hseg as [(Hso & Hsz & Hend & Hlast) Hseg].
  apply Forall_cons in Hsn as [Hp Hsn].
  cbn [full_scan app segment_already_received]. rewrite Hp, Z.eqb_refl. unfold pdu_end in *.
  destruct (_ >? last_byte + 1) eqn:E; [done|]. intros Hfull Hgt Hle.
  destruct (size >? 0) eqn:Es; zify_bool; [|by apply Z.leb_le].
  assert (Hl : pdu_is_last p = true -> pdu_so p + pdu_size p = zlen d) by apply Hlast.
  destruct (pdu_is_last p).
  - specialize (Hl eq_refl).
    destruct ((_ <=? so) && _) eqn:E1; zify_bool.
    + apply already_received_empty. lia.
    + apply andb_false_iff in E1 as [E1|E1]; zify_bool; lia.
  - destruct ((_ <=? so) && _) eqn:E1; zify_bool.
    + eapply IH; [done|done|exact Hfull| |]; repeat case_if; lia.
    + destruct ((_ <=? so + size - 1) && _) eqn:E2; zify_bool.
      * apply andb_false_iff in E1 as [E1|E1]; zify_bool; lia.
      * eapply IH; [done|done|exact Hfull| |lia].
        apply andb_false_iff in E1 as [E1|E1]; zify_bool; case_if; lia.
Qed.

(** ** The reception list as sorted groups *)

Lemma skip_to_none sn l : Forall (fun p => pdu_sn p <> sn) l -> skip_to sn l = [].
Proof.
  induction 1 as [|p l Hp _ IH]; [done|]. cbn [skip_to].
  by destruct (_ =? sn) eqn:E; zify_bool.
Qed.

Lemma skip_to_grouped sn pre grp post :
  grouped sn pre grp post -> grp <> [] -> skip_to sn (pre ++ grp ++ post) = grp ++ post.
Proof.
  intros (Hpre & Hgrp & _) Hne. induction Hpre as [|p pre Hp _ IH]; cbn [app skip_to].
  - destruct grp as [|g grp]; [done|]. apply Forall_cons in Hgrp as [Hg _].
    cbn [app skip_to]. by rewrite Hg, Z.eqb_refl.
  - by destruct (_ =? sn) eqn:E; zify_bool.
Qed.

Lemma skip_to_ungrouped sn pre post :
  grouped sn pre [] post -> skip_to sn (pre ++ [] ++ post) = [].
Proof. intros (? & _ & ?). apply skip_to_none, Forall_app. by split. Qed.

Lemma full_scan_app sn last_byte grp post :
  Forall (fun p => pdu_sn p <> sn) post ->
  full_scan sn last_byte (grp ++ post) = full_scan sn last_byte grp.
Proof.
  intros Hpost. revert last_byte. induction grp as [|p grp IH]; intros last_byte; cbn [app full_scan].
  - destruct Hpost as [|q post Hq _]; [done|]. cbn [full_scan].
    by destruct (_ =? sn) eqn:E; zify_bool.
  - by rewrite IH.
Qed.

Lemma byte_in_grouped sn pre grp post i :
  grouped sn pre grp post -> byte_in (pre ++ grp ++ post) sn i <-> byte_in grp sn i.
Proof.
  intros (Hpre & _ & Hpost). rewrite Forall_forall in Hpre, Hpost.
  split; intros (p & Hp & Hsn & Hi); exists p; (split; [|done]).
  - rewrite !elem_of_app in Hp. destruct Hp as [Hp|[Hp|Hp]]; [|done|];
      exfalso; [apply (Hpre p)|apply (Hpost p)]; done.
  - set_solver.
Qed.

Lemma list_add_ext f g l p :
  (forall q, q ∈ l -> f (pdu_sn q) (pdu_sn p) = g (pdu_sn q) (pdu_sn p)) ->
  nr_rlc_pdu_list_add f l p = nr_rlc_pdu_list_add g l p.
Proof.
  induction l as [|q l IH]; intros H; cbn; [done|]. rewrite (H q) by set_solver.
  case_if; [done|]. rewrite IH; [done|]. intros r Hr. apply H. set_solver.
Qed.

Section sorted_list.
Context (key : Z -> Z).

(** The order of the reception list: by SN in the receiver's modulus order,
    then by segment offset. *)
Definition pdu_le (p q : nr_rlc_pdu_t) : Prop :=
  key (pdu_sn p) < key (pdu_sn q) \/ (pdu_sn p = pdu_sn q /\ pdu_so p <= pdu_so q).

Definition rx_sorted (l : list nr_rlc_pdu_t) : Prop := StronglySorted pdu_le l.

Lemma rx_sorted_grouped l sn :
  rx_sorted l -> exists pre grp post,
    l = pre ++ grp ++ post /\ grouped sn pre grp post /\ so_sorted grp.
Proof.
  induction 1 as [|p l Hsort (pre & grp & post & -> & Hg & Hso) Hle].
  - exists [], [], []. split; [done|]. split; [|constructor]. repeat constructor.
  - destruct Hg as (Hpre & Hgrp & Hpost). rewrite Forall_forall in Hle.
    destruct (decide (pdu_sn p = sn)) as [E|E].
    + destruct grp as [|g grp].
      * exists [], [p], (pre ++ post). split; [done|]. split.
        -- split_and!; [constructor|by repeat constructor|by apply Forall_app].
        -- repeat constructor.
      * assert (pre = []) as ->.
        { destruct pre as [|q pre]; [done|exfalso]. cbn [app] in Hsort, Hle.
          apply Forall_cons in Hpre as [Hq _]. apply Forall_cons in Hgrp as [Hgs _].
          apply StronglySorted_inv in Hsort as [_ Hqs]. rewrite Forall_forall in Hqs.
          specialize (Hle q ltac:(set_solver)). specialize (Hqs g ltac:(set_solver)).
          unfold pdu_le in *. destruct Hle as [|[]], Hqs as [|[]]; try congruence.
          rewrite Hgs, E in *. lia. }
        exists [], (p :: g :: grp), post. split; [done|]. split.
        -- split_and!; [constructor|by constructor|done].
        -- constructor; [done|]. rewrite Forall_forall. intros q Hq.
           destruct (Hle q ltac:(set_solver)) as [Hlt|[]]; [|done].
           rewrite Forall_forall in Hgrp. rewrite (Hgrp q Hq), E in Hlt. lia.
    + exists (p :: pre), grp, post. split; [done|]. split; [|done].
      split_and!; [by constructor|done..].
Qed.

Context (M : Z) (key_inj : forall a b, 0 <= a < M -> 0 <= b < M -> key a = key b -> a = b).

Definition sn_ok (p : nr_rlc_pdu_t) : Prop := 0 <= pdu_sn p < M.

Lemma list_add_perm l p :
  nr_rlc_pdu_list_add (fun a b => key a - key b) l p ≡ₚ p :: l.
Proof.
  induction l as [|q l IH]; cbn; [done|]. case_if; [done|]. rewrite IH. apply Permutation_swap.
Qed.

Lemma list_add_sorted l p :
  rx_sorted l -> Forall sn_ok l -> sn_ok p ->
  rx_sorted (nr_rlc_pdu_list_add (fun a b => key a - key b) l p).
Proof.
  intros Hs Hok Hp. induction Hs as [|q l Hs IH Hle]; cbn [nr_rlc_pdu_list_add].
  - repeat constructor.
  - apply Forall_cons in Hok as [Hq Hok]. case_if.
    + assert (Hpq : pdu_le p q).
      { unfold pdu_le. apply orb_true_iff in Heqb as [?|?]; zify_bool; [left; lia|].
        right. split; [done|lia]. }
      constructor; [by constructor|]. constructor; [done|].
      eapply Forall_impl; [exact Hle|]. intros r Hqr. unfold pdu_le in *.
      destruct Hpq as [?|[Epq ?]], Hqr as [?|[Eqr ?]]; rewrite ?Epq, <- ?Eqr in *;
        first [left; lia | right; split; [congruence|lia]].
    + assert (Hqp : pdu_le q p).
      { unfold pdu_le. destruct (decide (pdu_sn q = pdu_sn p)) as [E|E].
        - right. split; [done|].
          destruct ((pdu_sn q =? pdu_sn p) && (pdu_so q >? pdu_so p)) eqn:E2; [done|].
          apply andb_false_iff in E2 as [E2|E2]; zify_bool; [congruence|lia].
        - left. destruct (Z.eq_dec (key (pdu_sn q)) (key (pdu_sn p))) as [Ek|]; [|lia].
          exfalso. apply E, key_inj; done. }
      constructor; [by apply IH|]. rewrite list_add_perm. by constructor.
Qed.
End sorted_list.

(** ** Termination of the search for the first SDU not delivered *)

Lemma skip_to_head sn l p r : skip_to sn l = p :: r -> pdu_sn p = sn /\ p ∈ l.
Proof.
  induction l as [|q l IH]; cbn [skip_to]; [done|]. case_if; zify_bool.
  - intros [= -> ->]. split; [done|set_solver].
  - intros H. destruct (IH H). split; [done|set_solver].
Qed.

Lemma sdu_delivered_in l sn :
  sdu_delivered l sn = true -> exists p, p ∈ l /\ pdu_sn p = sn /\ pdu_data p = None.
Proof.
  unfold sdu_delivered. destruct (skip_to sn l) as [|p r] eqn:E; [done|]. cbn.
  apply skip_to_head in E as [? ?]. destruct (pdu_data p) eqn:Ed; [done|]. by exists p.
Qed.

Definition delivered_run (M : Z) (l : list nr_rlc_pdu_t) (sn : Z) (j : nat) : Prop :=
  forall i, (i < j)%nat -> sdu_delivered l ((sn + Z.of_nat i) mod M) = true.

(** Distinct SNs of the list bound the length of a run of delivered SDUs. *)
Lemma delivered_run_length M l sn j :
  delivered_run M l sn j -> Z.of_nat j <= M -> (j <= length l)%nat.
Proof.
  intros Hrun Hj. set (sns := (fun i => (sn + Z.of_nat i) mod M) <$> seq 0 j).
  assert (Hnd : NoDup sns).
  { apply NoDup_fmap_2_strong; [|apply NoDup_seq]. intros a b Ha%elem_of_seq Hb%elem_of_seq E.
    assert (Hd : (Z.of_nat a - Z.of_nat b) mod M = 0).
    { replace (Z.of_nat a - Z.of_nat b) with ((sn + Z.of_nat a) - (sn + Z.of_nat b)) by lia.
      rewrite Zminus_mod, E, Z.sub_diag. apply Zmod_0_l. }
    destruct (decide (a = b)) as [|Hne]; [done|exfalso].
    apply Z.mod_divide in Hd as [q Hq]; [|lia].
    assert (q = 0) by nia. lia. }
  assert (Hin : forall x, x ∈ sns -> x ∈ pdu_sn <$> l).
  { intros x (i & -> & Hi%elem_of_seq)%list_elem_of_fmap.
    destruct (sdu_delivered_in l ((sn + Z.of_nat i) mod M)) as (p & Hp & Hsn & _); [apply Hrun; lia|].
    rewrite <- Hsn. by apply list_elem_of_fmap_2. }
  pose proof (submseteq_length _ _ (NoDup_submseteq _ _ Hnd Hin)) as Hle.
  unfold sns in Hle. rewrite !length_fmap, length_seq in Hle. done.
Qed.

Lemma skip_delivered_run fuel M l sn j :
  0 <= sn < M -> (j < fuel)%nat -> delivered_run M l sn j ->
  sdu_delivered l ((sn + Z.of_nat j) mod M) = false ->
  skip_delivered fuel M l sn = Ok ((sn + Z.of_nat j) mod M).
Proof.
  revert fuel sn. induction j as [|j IH]; intros fuel sn Hsn Hf Hrun Hend;
    (destruct fuel as [|fuel]; [lia|]); cbn [skip_delivered].
  - rewrite Z.add_0_r, Z.mod_small in * by lia. by rewrite Hend.
  - pose proof (Hrun 0%nat ltac:(lia)) as H0. rewrite Z.add_0_r, Z.mod_small in H0 by lia.
    rewrite H0, Z.rem_mod_nonneg by lia.
    assert (E : forall i, ((sn + 1) mod M + Z.of_nat i) mod M = (sn + Z.of_nat (S i)) mod M).
    { intros i. rewrite Zplus_mod_idemp_l. f_equal. lia. }
    rewrite <- E. apply IH; [apply Z.mod_pos_bound; lia|lia| |by rewrite E].
    intros i Hi. rewrite E. apply Hrun. lia.
Qed.

(** The loop ends as soon as one SDU of the cycle is not delivered. *)
Lemma first_not_delivered_correct M l sn k :
  0 <= sn < M -> 0 <= k < M -> sdu_delivered l ((sn + k) mod M) = false ->
  exists j, 0 <= j <= k /\ first_not_delivered M l sn = Ok ((sn + j) mod M) /\
    sdu_delivered l ((sn + j) mod M) = false /\
    (forall i, 0 <= i < j -> sdu_delivered l ((sn + i) mod M) = true).
Proof.
  intros Hsn Hk Hnot.
  assert (Hmin : exists j, (j <= Z.to_nat k)%nat /\ delivered_run M l sn j /\
    sdu_delivered l ((sn + Z.of_nat j) mod M) = false).
  { assert (Hex : exists j, (j <= Z.to_nat k)%nat /\
      sdu_delivered l ((sn + Z.of_nat j) mod M) = false).
    { exists (Z.to_nat k). rewrite Z2Nat.id by lia. done. }
    clear Hnot. destruct Hex as (j & Hj & Hnd). induction j as [j IH] using lt_wf_ind.
    destruct (decide (Exists (fun i => sdu_delivered l ((sn + Z.of_nat i) mod M) = false) (seq 0 j)))
      as [(i & Hi%elem_of_seq & Hnd')%Exists_exists|Hno].
    - apply (IH i); [lia|lia|done].
    - exists j. split_and!; [done| |done]. intros i Hi.
      destruct (sdu_delivered l ((sn + Z.of_nat i) mod M)) eqn:E; [done|]. exfalso.
      apply Hno, Exists_exists. exists i. split; [apply elem_of_seq; lia|done]. }
  destruct Hmin as (j & Hj & Hrun & Hnd). exists (Z.of_nat j). split; [lia|]. split.
  - apply skip_delivered_run; [done| |done|done].
    pose proof (delivered_run_length M l sn j Hrun). lia.
  - split; [done|]. intros i Hi. specialize (Hrun (Z.to_nat i)).
    rewrite Z2Nat.id in Hrun by lia. apply Hrun. lia.
Qed.
