(* ===== verification/RlcRxList.v ===== *)
(** * The reception list, against the SDUs the peer sent

    Sequence numbers are residues of absolute numbers: [sent n] is the SDU the
    peer numbered [n], and [abs_sn base a] is the absolute number at or above
    [base] that [a] stands for.  [rx_list_ok base top l] says that the list [l]
    holds segments of the SDUs sent, numbered from [base] to [top], in the order
    the receiver keeps.  Insertion, delivery and the drops of the AM and UM
    receivers keep it. *)

From S2P Require Import Prelude RlcPdu RlcReassembly.

Section rx_list.
Context (M : Z) (M_pos : 0 < M).

Definition sn_key (base a : Z) : Z := (a - base) mod M.
Definition abs_sn (base a : Z) : Z := base + sn_key base a.

Lemma abs_sn_range base a : base <= abs_sn base a < base + M.
Proof. unfold abs_sn, sn_key. pose proof (Z.mod_pos_bound (a - base) M M_pos). lia. Qed.

Lemma abs_sn_of base n : base <= n < base + M -> abs_sn base (n mod M) = n.
Proof.
  intros H. unfold abs_sn, sn_key. rewrite Zminus_mod_idemp_l, Z.mod_small; lia.
Qed.

Lemma abs_sn_mod base a : 0 <= a < M -> abs_sn base a mod M = a.
Proof.
  intros H. unfold abs_sn, sn_key. rewrite Zplus_mod_idemp_r.
  replace (base + (a - base)) with a by lia. by apply Z.mod_small.
Qed.

Lemma abs_sn_inj base a b :
  0 <= a < M -> 0 <= b < M -> abs_sn base a = abs_sn base b -> a = b.
Proof. intros Ha Hb E. rewrite <- (abs_sn_mod base a), E by done. by apply abs_sn_mod. Qed.

Lemma sn_key_inj base a b : 0 <= a < M -> 0 <= b < M -> sn_key base a = sn_key base b -> a = b.
Proof. intros Ha Hb E. apply (abs_sn_inj base); [done..|]. unfold abs_sn. lia. Qed.

(** Seen from a later base. *)
Lemma abs_sn_rebase base base' a :
  0 <= a < M -> base <= base' <= abs_sn base a -> abs_sn base' a = abs_sn base a.
Proof.
  intros Ha Hb. pose proof (abs_sn_range base a).
  rewrite <- (abs_sn_mod base a) at 1 by done. apply abs_sn_of. lia.
Qed.

Lemma abs_sn_rebase_below base base' a :
  0 <= a < M -> abs_sn base a < base' <= base + M -> abs_sn base' a = abs_sn base a + M.
Proof.
  intros Ha Hb. pose proof (abs_sn_range base a).
  rewrite <- (abs_sn_mod base a) at 1 by done.
  rewrite <- (Z.mod_add (abs_sn base a) 1 M), Z.mul_1_l by lia. apply abs_sn_of. lia.
Qed.

(** ** Heads of the groups *)

(** [sn_compare_rx] on keys. *)
Notation add_pdu base := (nr_rlc_pdu_list_add (fun a b => sn_key base a - sn_key base b)).

Lemma skip_to_add_ne base l p sn :
  pdu_sn p <> sn -> head (skip_to sn (add_pdu base l p)) = head (skip_to sn l).
Proof.
  intros Hne. induction l as [|q l IH]; cbn [nr_rlc_pdu_list_add].
  - cbn [skip_to]. by destruct (_ =? sn) eqn:E; zify_bool.
  - case_if.
    + cbn [skip_to]. destruct (pdu_sn p =? sn) eqn:E; zify_bool; [done|]. done.
    + cbn [skip_to]. by destruct (pdu_sn q =? sn).
Qed.

(** Inserting in a group: the head is the old one, unless its offset is greater. *)
Lemma skip_to_add_eq base l p :
  rx_sorted (sn_key base) l ->
  head (skip_to (pdu_sn p) (add_pdu base l p)) =
    match head (skip_to (pdu_sn p) l) with
    | Some q => if pdu_so q >? pdu_so p then Some p else Some q
    | None => Some p
    end.
Proof.
  induction 1 as [|q l Hs IH Hle]; cbn [nr_rlc_pdu_list_add].
  - cbn [skip_to]. by rewrite Z.eqb_refl.
  - case_if.
    + cbn [skip_to]. rewrite Z.eqb_refl. cbn [head].
      destruct (pdu_sn q =? pdu_sn p) eqn:E; zify_bool; cbn [head].
      * apply orb_true_iff in Heqb as [Hk|Hk]; zify_bool; [rewrite E in Hk; lia|].
        by destruct (_ >? _) eqn:E2; zify_bool; [|lia].
      * destruct (skip_to (pdu_sn p) l) as [|r l'] eqn:Er; cbn [head]; [done|].
        apply skip_to_head in Er as [Er Hin]. rewrite Forall_forall in Hle.
        exfalso. apply orb_true_iff in Heqb as [Hk|Hk]; zify_bool; [|done].
        destruct (Hle r Hin) as [|[? _]]; [rewrite Er in *; lia|congruence].
    + cbn [skip_to]. destruct (pdu_sn q =? pdu_sn p) eqn:E; zify_bool; [|done].
      cbn [head]. destruct (_ >? _) eqn:E2; zify_bool; [|done].
      apply andb_false_iff in H0 as [?|?]; zify_bool; [congruence|lia].
Qed.

Lemma sdu_delivered_head l sn :
  sdu_delivered l sn = match head (skip_to sn l) with
                       | Some p => bool_decide (pdu_data p = None)
                       | None => false
                       end.
Proof.
  unfold sdu_delivered. destruct (skip_to sn l) as [|p ?]; [done|]. cbn.
  by destruct (pdu_data p).
Qed.
End rx_list.

Lemma rem_succ_mod M r : 0 < M -> Z.rem (r mod M + 1) M = (r + 1) mod M.
Proof.
  intros HM. pose proof (Z.mod_pos_bound r M HM). rewrite Z.rem_mod_nonneg by lia.
  by rewrite Zplus_mod_idemp_l.
Qed.

Lemma mod_inj M a b lo : lo <= a < lo + M -> lo <= b < lo + M -> a mod M = b mod M -> a = b.
Proof.
  intros Ha Hb E. rewrite <- (abs_sn_of M lo a), <- (abs_sn_of M lo b) by done. by rewrite E.
Qed.

(** ** Well-formed reception lists *)

Section well_formed.
Context (M : Z) (M_pos : 0 < M) (cl : bool) (sent : Z -> list Z).

Notation key base := (sn_key M base).
Notation add_pdu base := (nr_rlc_pdu_list_add (fun a b => sn_key M base a - sn_key M base b)).

(** A PDU of the SDU [d]: a segment of it, or what is left of one once the SDU
    has been delivered. *)
Definition pdu_of (d : list Z) (p : nr_rlc_pdu_t) : Prop :=
  0 <= pdu_so p /\
  match pdu_data p with
  | Some _ => genuine d p
  | None => if cl then pdu_size p = 0 else seg_of d p
  end.

Definition head_ok (l : list nr_rlc_pdu_t) (sn : Z) : Prop :=
  match head (skip_to sn l) with
  | None => True
  | Some q =>
      if bool_decide (pdu_data q = None) then pdu_so q = 0
      else forall p, p ∈ l -> pdu_sn p = sn -> pdu_data p <> None
  end.

Record rx_list_ok (base top : Z) (l : list nr_rlc_pdu_t) : Prop := {
  rl_sorted : rx_sorted (key base) l;
  rl_window : Forall (fun p => 0 <= pdu_sn p < M /\ abs_sn M base (pdu_sn p) < top) l;
  rl_sent : Forall (fun p => pdu_of (sent (abs_sn M base (pdu_sn p))) p) l;
  rl_heads : forall sn, head_ok l sn;
}.

Lemma rx_list_ok_nil base top : rx_list_ok base top [].
Proof. constructor; constructor. Qed.

Lemma rx_list_ok_top base top top' l :
  top <= top' -> rx_list_ok base top l -> rx_list_ok base top' l.
Proof.
  intros Ht []. constructor; try done. eapply Forall_impl; [exact rl_window0|]. cbn. lia.
Qed.

(** A new segment of the SDU [n]. *)
Lemma rx_list_insert base top l p n :
  rx_list_ok base top l -> base <= n < base + M -> pdu_sn p = n mod M -> genuine (sent n) p ->
  rx_list_ok base (Z.max top (n + 1)) (add_pdu base l p) /\
  (forall sn, sdu_delivered (add_pdu base l p) sn = sdu_delivered l sn).
Proof.
  intros H Hn Hsn Hg. pose proof H as [Hs Hw Hp Hh].
  assert (Habs : abs_sn M base (pdu_sn p) = n) by by rewrite Hsn, abs_sn_of.
  assert (Hmod : 0 <= pdu_sn p < M) by (rewrite Hsn; by apply Z.mod_pos_bound).
  assert (Hd : pdu_data p <> None) by apply Hg. assert (Hso : 0 <= pdu_so p) by apply Hg.
  assert (Hhead : forall q, head (skip_to (pdu_sn p) l) = Some q -> pdu_data q = None ->
    pdu_so q = 0).
  { intros q Hq Hqd. specialize (Hh (pdu_sn p)). unfold head_ok in Hh. rewrite Hq in Hh.
    by rewrite bool_decide_eq_true_2 in Hh. }
  split.
  - constructor.
    + apply list_add_sorted with (M := M); [|done| |done].
      * intros a b ??. by apply sn_key_inj.
      * eapply Forall_impl; [exact Hw|]. by intros q [? _].
    + rewrite list_add_perm. constructor; [split; [done|lia]|].
      eapply Forall_impl; [exact Hw|]. cbn. lia.
    + rewrite list_add_perm. constructor; [|done]. rewrite Habs. split; [done|].
      by destruct (pdu_data p).
    + intros sn. unfold head_ok. destruct (decide (pdu_sn p = sn)) as [<-|Hne].
      * rewrite skip_to_add_eq by done. specialize (Hh (pdu_sn p)). unfold head_ok in Hh.
        assert (Hnew : (forall q, q ∈ l -> pdu_sn q = pdu_sn p -> pdu_data q <> None) ->
          forall q, q ∈ add_pdu base l p -> pdu_sn q = pdu_sn p -> pdu_data q <> None).
        { intros Hall q. rewrite list_add_perm, elem_of_cons. intros [->|]; auto. }
        assert (Hpd : bool_decide (pdu_data p = None) = false) by by apply bool_decide_eq_false_2.
        destruct (head (skip_to (pdu_sn p) l)) as [q|] eqn:Eq.
        -- destruct (bool_decide (pdu_data q = None)) eqn:Edq.
           ++ destruct (_ >? _) eqn:E; zify_bool; [lia|]. by rewrite Edq.
           ++ destruct (_ >? _); rewrite ?Hpd, ?Edq; by apply Hnew.
        -- rewrite Hpd. apply Hnew. intros q Hq Hqs. exfalso.
           apply list_elem_of_split in Hq as (l1 & l2 & ->).
           clear -Eq Hqs. induction l1 as [|r l1 IH]; cbn [app skip_to] in Eq.
           ++ by rewrite Hqs, Z.eqb_refl in Eq.
           ++ destruct (_ =? _); [done|]. by apply IH.
      * rewrite skip_to_add_ne by done. specialize (Hh sn). unfold head_ok in Hh.
        destruct (head (skip_to sn l)) as [q|]; [|done]. destruct (bool_decide _); [done|].
        intros r. rewrite list_add_perm, elem_of_cons. intros [->|]; [done|auto].
  - intros sn. rewrite !sdu_delivered_head. destruct (decide (pdu_sn p = sn)) as [<-|Hne].
    + rewrite skip_to_add_eq by done.
      destruct (head (skip_to (pdu_sn p) l)) as [q|] eqn:Eq; [|by apply bool_decide_eq_false_2].
      destruct (_ >? _) eqn:E; zify_bool; [|done].
      rewrite bool_decide_eq_false_2 by done. symmetry. apply bool_decide_eq_false_2.
      intros Hqd. specialize (Hhead q eq_refl Hqd). lia.
    + by rewrite skip_to_add_ne.
Qed.

(** ** Delivery *)

(** The list once the SDU [sn] is delivered. *)
Definition mark (sn : Z) (p : nr_rlc_pdu_t) : nr_rlc_pdu_t :=
  if pdu_sn p =? sn then processed cl p else p.

(** The bytes the list holds. *)
Definition rx_bytes (l : list nr_rlc_pdu_t) : Z :=
  zsum (fun p => if pdu_data p then pdu_size p else 0) l.

Lemma mark_sn sn p : pdu_sn (mark sn p) = pdu_sn p.
Proof. unfold mark, processed. by destruct (_ =? _), cl. Qed.

Lemma mark_so sn p : pdu_so (mark sn p) = pdu_so p.
Proof. unfold mark, processed. by destruct (_ =? _), cl. Qed.

Lemma mark_data sn p : pdu_data (mark sn p) = if pdu_sn p =? sn then None else pdu_data p.
Proof. unfold mark, processed. by destruct (_ =? _), cl. Qed.

Lemma mark_grouped sn pre grp post :
  grouped sn pre grp post ->
  mark sn <$> (pre ++ grp ++ post) = pre ++ (processed cl <$> grp) ++ post.
Proof.
  intros (Hpre & Hgrp & Hpost). rewrite !fmap_app.
  assert (Hne : forall l, Forall (fun p => pdu_sn p <> sn) l -> mark sn <$> l = l).
  { induction 1 as [|p l Hp _ IH]; [done|]. rewrite fmap_cons, IH. unfold mark.
    by destruct (_ =? sn) eqn:E; zify_bool. }
  rewrite (Hne pre), (Hne post) by done. do 2 f_equal.
  induction Hgrp as [|p l Hp _ IH]; [done|]. rewrite !fmap_cons, IH. f_equal. unfold mark.
  by destruct (_ =? sn) eqn:E; zify_bool.
Qed.

Lemma skip_to_mark sn x l : skip_to sn (mark x <$> l) = mark x <$> skip_to sn l.
Proof.
  induction l as [|p l IH]; [done|]. rewrite fmap_cons. cbn [skip_to]. rewrite mark_sn.
  by destruct (_ =? sn).
Qed.

Lemma skip_to_in sn l p : p ∈ l -> pdu_sn p = sn -> exists q r, skip_to sn l = q :: r.
Proof.
  intros Hp Hsn. induction l as [|q l IH]; [set_solver|]. cbn [skip_to].
  destruct (_ =? sn) eqn:E; zify_bool; [eauto|]. apply IH.
  apply elem_of_cons in Hp as [->|]; [done|done].
Qed.

Lemma delivered_mark x l sn :
  (exists p, p ∈ l /\ pdu_sn p = x) ->
  sdu_delivered (mark x <$> l) sn = (sn =? x) || sdu_delivered l sn.
Proof.
  intros (p & Hp & Hx). rewrite !sdu_delivered_head, skip_to_mark.
  destruct (skip_to sn l) as [|q r] eqn:Eq; cbn.
  - destruct (sn =? x) eqn:E; zify_bool; [|done]. subst sn.
    destruct (skip_to_in x l p Hp Hx) as (? & ? & ?). congruence.
  - rewrite mark_data. apply skip_to_head in Eq as [-> _]. by destruct (sn =? x).
Qed.

Lemma rx_bytes_app l1 l2 : rx_bytes (l1 ++ l2) = rx_bytes l1 + rx_bytes l2.
Proof. apply zsum_app. Qed.

Lemma rx_bytes_marked sn pre grp post :
  grouped sn pre grp post -> Forall (fun p => pdu_data p <> None) grp ->
  rx_bytes (mark sn <$> (pre ++ grp ++ post)) = rx_bytes (pre ++ grp ++ post) - zsum pdu_size grp.
Proof.
  intros Hg Hd. rewrite mark_grouped by done. rewrite !rx_bytes_app.
  assert (rx_bytes (processed cl <$> grp) = 0).
  { clear -cl. induction grp as [|p grp IH]; [done|]. unfold rx_bytes in *.
    rewrite fmap_cons, zsum_cons, IH. unfold processed. by destruct cl. }
  assert (rx_bytes grp = zsum pdu_size grp).
  { apply zsum_ext. intros p Hp. rewrite Forall_forall in Hd. specialize (Hd p Hp).
    by destruct (pdu_data p). }
  lia.
Qed.

Lemma rx_list_mark base top l x :
  rx_list_ok base top l ->
  (forall q r, skip_to x l = q :: r -> pdu_so q = 0 /\ pdu_data q <> None) ->
  rx_list_ok base top (mark x <$> l).
Proof.
  intros [Hs Hw Hp Hh] Hx. constructor.
  - clear -Hs. induction Hs as [|p l Hs IH Hle]; [constructor|]. rewrite fmap_cons.
    constructor; [done|]. apply Forall_fmap. eapply Forall_impl; [exact Hle|]. intros q.
    unfold pdu_le. cbn. by rewrite !mark_sn, !mark_so.
  - apply Forall_fmap. eapply Forall_impl; [exact Hw|]. intros q. cbn. by rewrite mark_sn.
  - apply Forall_fmap. eapply Forall_impl; [exact Hp|]. intros q. cbn. rewrite mark_sn.
    unfold pdu_of. rewrite mark_so, mark_data. intros [? Hq]. split; [done|].
    unfold mark. destruct (_ =? x); [|done]. unfold processed.
    destruct cl; [done|]. by destruct (pdu_data q); [destruct Hq|].
  - intros sn. specialize (Hh sn). unfold head_ok in *. rewrite skip_to_mark.
    destruct (skip_to sn l) as [|q r] eqn:Eq; [done|]. cbn in *. rewrite mark_data.
    pose proof Eq as Eq'. apply skip_to_head in Eq' as [Hq _].
    destruct (pdu_sn q =? x) eqn:E; zify_bool; cbn.
    + subst. destruct (Hx q r); [congruence|]. by rewrite mark_so.
    + destruct (bool_decide _); [by rewrite mark_so|].
      intros p (p' & -> & Hp')%list_elem_of_fmap. rewrite mark_sn, mark_data. intros Hsn.
      destruct (_ =? x) eqn:E'; zify_bool; [congruence|]. by apply Hh.
Qed.

Lemma reassemble_list_skip sn pre l rx :
  Forall (fun p => pdu_sn p <> sn) pre ->
  (forall p r, l = p :: r -> pdu_sn p = sn) -> l <> [] ->
  reassemble_list cl sn (pre ++ l) rx =
    '(l, rx_size, bad_sdu, sdu) ← reassemble cl sn l rx false [];
    Ok (pre ++ l, rx_size, if (bad_sdu : bool) then None else Some sdu).
Proof.
  intros Hpre Hl Hne. induction Hpre as [|p pre Hp _ IH]; cbn [app reassemble_list].
  - destruct l as [|p r]; [done|]. cbn [reassemble_list]. by rewrite (Hl p r), Z.eqb_refl by done.
  - destruct (_ =? sn) eqn:E; zify_bool; [done|]. rewrite IH.
    by destruct (reassemble _ _ _ _ _ _) as [[[[? ?] ?] ?]|].
Qed.

(** A complete SDU is delivered as the peer sent it. *)
Lemma rx_list_deliver base top l x rx :
  rx_list_ok base top l -> sdu_full l x = true ->
  zlen (sent (abs_sn M base x)) <= NR_SDU_MAX ->
  reassemble_list cl x l rx
    = Ok (mark x <$> l, rx - (rx_bytes l - rx_bytes (mark x <$> l)), Some (sent (abs_sn M base x))) /\
  rx_list_ok base top (mark x <$> l) /\
  (forall sn, sdu_delivered (mark x <$> l) sn = (sn =? x) || sdu_delivered l sn) /\
  (exists p, p ∈ l /\ pdu_sn p = x).
Proof.
  intros Hok Hfull Hmax. pose proof Hok as [Hs _ Hp Hh]. specialize (Hh x).
  destruct (rx_sorted_grouped _ l x Hs) as (pre & grp & post & -> & Hg & Hso).
  destruct grp as [|q grp].
  { exfalso. unfold sdu_full in Hfull. by rewrite skip_to_ungrouped in Hfull by done. }
  unfold sdu_full, head_ok in *. rewrite skip_to_grouped in Hfull, Hh by done.
  set (l := pre ++ (q :: grp) ++ post) in *.
  assert (Hskip : skip_to x l = q :: grp ++ post) by by apply skip_to_grouped.
  cbn [app head head_processed] in Hh, Hfull.
  destruct (pdu_data q) as [qd|] eqn:Eqd; [|done]. rewrite bool_decide_eq_false_2 in Hh by done.
  change (q :: grp ++ post) with ((q :: grp) ++ post) in Hfull.
  pose proof Hg as (Hpre & Hgrp & Hpost). rewrite full_scan_app in Hfull by done.
  assert (Hgen : Forall (genuine (sent (abs_sn M base x))) (q :: grp)).
  { rewrite Forall_forall in Hp, Hgrp |- *. intros p Hpg.
    assert (Hpl : p ∈ l) by (unfold l; set_solver). pose proof (Hgrp p Hpg) as Hsn.
    destruct (Hp p Hpl) as [_ Hd]. rewrite Hsn in Hd. specialize (Hh p Hpl Hsn).
    by destruct (pdu_data p). }
  assert (Hq0 : pdu_so q = 0).
  { cbn [full_scan] in Hfull. rewrite Forall_forall in Hgrp. rewrite (Hgrp q) in Hfull by set_solver.
    rewrite Z.eqb_refl in Hfull. destruct (_ >? _) eqn:E; [done|]. zify_bool.
    apply Forall_cons in Hgen as [((? & _) & _) _]. lia. }
  destruct (reassemble_genuine cl _ x (q :: grp) post rx [] Hgen Hgrp Hpost) as (b & sdu & Hr & Hd & _).
  { done. }
  { change (zlen (@nil Z)) with 0. auto with qran. }
  { by right. }
  destruct (Hd Hmax) as [-> ->].
  assert (Hdata : Forall (fun p => pdu_data p <> None) (q :: grp)).
  { eapply Forall_impl; [exact Hgen|]. by intros p (_ & ? & _). }
  split_and!.
  - unfold l at 1. rewrite reassemble_list_skip; [|done| |done].
    + rewrite Hr. cbn [mbind outcome_bind]. unfold l. rewrite mark_grouped at 1 by done.
      rewrite rx_bytes_marked by done. do 3 f_equal. lia.
    + intros p r [= <- _]. rewrite Forall_forall in Hgrp. apply Hgrp. set_solver.
  - apply rx_list_mark; [done|]. intros q' r. rewrite Hskip. intros [= <- _]. by rewrite Eqd.
  - intros sn. apply delivered_mark. exists q. split; [unfold l; set_solver|].
    rewrite Forall_forall in Hgrp. apply Hgrp. set_solver.
  - exists q. split; [unfold l; set_solver|]. rewrite Forall_forall in Hgrp. apply Hgrp. set_solver.
Qed.

(** An SDU is complete once each of its bytes is there. *)
Lemma sdu_full_iff base top l x :
  rx_list_ok base top l -> 0 < zlen (sent (abs_sn M base x)) ->
  sdu_full l x = true <->
  sdu_delivered l x = false /\ forall i, 0 <= i < zlen (sent (abs_sn M base x)) -> byte_in l x i.
Proof.
  intros [Hs _ Hp Hh] Hlen. specialize (Hh x).
  destruct (rx_sorted_grouped _ l x Hs) as (pre & grp & post & -> & Hg & Hso).
  assert (Hbytes : (forall i, 0 <= i < zlen (sent (abs_sn M base x)) ->
      byte_in (pre ++ grp ++ post) x i) <->
    forall i, 0 <= i < zlen (sent (abs_sn M base x)) -> byte_in grp x i).
  { split; intros H i Hi; specialize (H i Hi); by apply (byte_in_grouped x pre grp post). }
  rewrite Hbytes. clear Hbytes. unfold sdu_full, sdu_delivered, head_ok in *.
  destruct grp as [|q grp].
  { rewrite skip_to_ungrouped by done. cbn. split; [done|]. intros [_ H].
    by destruct (byte_in_nil x 0 (H 0 ltac:(lia))). }
  rewrite skip_to_grouped in * by done. cbn [app head head_processed] in *.
  destruct (pdu_data q) as [qd|] eqn:Eqd.
  2: { split; [done|]. by intros [? _]. }
  rewrite bool_decide_eq_false_2 in Hh by done.
  change (q :: grp ++ post) with ((q :: grp) ++ post).
  pose proof Hg as (Hpre & Hgrp & Hpost). rewrite full_scan_app by done.
  assert (Hseg : Forall (seg_of (sent (abs_sn M base x))) (q :: grp)).
  { rewrite Forall_forall in Hp, Hgrp |- *. intros p Hpg.
    assert (Hpl : p ∈ pre ++ (q :: grp) ++ post) by set_solver. pose proof (Hgrp p Hpg) as Hsn.
    destruct (Hp p Hpl) as [_ Hd]. rewrite Hsn in Hd. specialize (Hh p Hpl Hsn).
    destruct (pdu_data p); [apply Hd|done]. }
  split.
  - intros Hf. split; [done|]. intros i Hi. eapply full_scan_sound; [done|exact Hf|lia].
  - intros [_ Hb]. eapply full_scan_complete; [done|done|done|lia|]. intros i Hi. apply Hb. lia.
Qed.

(** ** Drops at the head *)

Lemma skip_to_app_none sn l1 l2 :
  Forall (fun p => pdu_sn p <> sn) l1 -> skip_to sn (l1 ++ l2) = skip_to sn l2.
Proof.
  induction 1 as [|p l1 Hp _ IH]; [done|]. cbn [app skip_to].
  by destruct (_ =? sn) eqn:E; zify_bool.
Qed.

(** The list sorted by SN splits at any number. *)
Lemma rx_list_split base top l b :
  rx_list_ok base top l ->
  exists l1 l2, l = l1 ++ l2 /\ Forall (fun p => abs_sn M base (pdu_sn p) < b) l1 /\
    Forall (fun p => b <= abs_sn M base (pdu_sn p)) l2.
Proof.
  intros [Hs _ _ _]. induction Hs as [|p l Hs IH Hle].
  - by exists [], [].
  - destruct (decide (abs_sn M base (pdu_sn p) < b)) as [Hlt|Hge].
    + destruct IH as (l1 & l2 & -> & ? & ?). exists (p :: l1), l2. split_and!; [done|by constructor|done].
    + exists [], (p :: l). split_and!; [done|constructor|]. constructor; [lia|].
      eapply Forall_impl; [exact Hle|]. intros q. unfold pdu_le, abs_sn in *. cbn.
      intros [?|[E _]]; [lia|]. rewrite <- E. lia.
Qed.

Lemma StronglySorted_app_r {A} (R : A -> A -> Prop) l1 l2 :
  StronglySorted R (l1 ++ l2) -> StronglySorted R l2.
Proof. induction l1 as [|x l1 IH]; [done|]. intros [? _]%StronglySorted_inv. auto. Qed.

Lemma rx_list_suffix base top l1 l2 b :
  rx_list_ok base top (l1 ++ l2) ->
  Forall (fun p => abs_sn M base (pdu_sn p) < b) l1 ->
  Forall (fun p => b <= abs_sn M base (pdu_sn p)) l2 ->
  rx_list_ok base top l2 /\
  (forall sn, sdu_delivered l2 sn
              = if b <=? abs_sn M base sn then sdu_delivered (l1 ++ l2) sn else false).
Proof.
  intros [Hs Hw Hp Hh] H1 H2.
  assert (Hskip : forall sn, skip_to sn l2 = if b <=? abs_sn M base sn then skip_to sn (l1 ++ l2) else []).
  { intros sn. destruct (_ <=? _) eqn:E; zify_bool.
    - symmetry. apply skip_to_app_none. eapply Forall_impl; [exact H1|]. cbn. intros p Hlt <-. lia.
    - apply skip_to_none. eapply Forall_impl; [exact H2|]. cbn. intros p Hge <-. lia. }
  split.
  - apply Forall_app in Hw as [_ Hw], Hp as [_ Hp].
    constructor; [by eapply StronglySorted_app_r|done|done|].
    intros sn. specialize (Hh sn). unfold head_ok in *. rewrite Hskip.
    destruct (_ <=? _); [|done]. destruct (head _) as [q|]; [|done].
    destruct (bool_decide _); [done|]. intros p Hpl. apply Hh. set_solver.
  - intros sn. rewrite !sdu_delivered_head, Hskip. by destruct (_ <=? _).
Qed.

(** The base moves up. *)
Lemma rx_list_rebase base base' top l :
  rx_list_ok base top l -> base <= base' -> Forall (fun p => base' <= abs_sn M base (pdu_sn p)) l ->
  rx_list_ok base' top l.
Proof.
  intros [Hs Hw Hp Hh] Hb Hge.
  assert (Habs : Forall (fun p => 0 <= pdu_sn p < M /\
    abs_sn M base' (pdu_sn p) = abs_sn M base (pdu_sn p)) l).
  { rewrite Forall_forall in *. intros p Hpl. destruct (Hw p Hpl). split; [done|].
    apply abs_sn_rebase; [done|done|]. split; [done|]. by apply Hge. }
  constructor; [| | |done].
  - clear -Hs Habs M_pos. induction Hs as [|p l Hs IH Hle]; [constructor|].
    apply Forall_cons in Habs as [[_ Ep] Habs]. constructor; [by apply IH|].
    rewrite Forall_forall in *. intros q Hq. specialize (Hle q Hq). destruct (Habs q Hq) as [_ Eq].
    unfold pdu_le, abs_sn in *. destruct Hle as [?|?]; [left; lia|by right].
  - rewrite Forall_forall in *. intros p Hpl. destruct (Habs p Hpl) as [? ->]. by apply Hw.
  - rewrite Forall_forall in *. intros p Hpl. destruct (Habs p Hpl) as [? ->]. by apply Hp.
Qed.

(** ** Completeness of one SDU, under these operations *)

Lemma byte_in_ext l l' sn i :
  (forall p, pdu_sn p = sn -> p ∈ l <-> p ∈ l') -> byte_in l sn i <-> byte_in l' sn i.
Proof. intros H. split; intros (p & Hp & Hs & Hi); exists p; (split; [by apply H|done]). Qed.

Lemma sdu_full_ext base base' top top' l l' sn :
  rx_list_ok base top l -> rx_list_ok base' top' l' ->
  abs_sn M base sn = abs_sn M base' sn -> 0 < zlen (sent (abs_sn M base sn)) ->
  sdu_delivered l sn = sdu_delivered l' sn -> (forall p, pdu_sn p = sn -> p ∈ l <-> p ∈ l') ->
  sdu_full l sn = sdu_full l' sn.
Proof.
  intros Hl Hl' Ha Hs Hd Hin. apply eq_true_iff_eq.
  rewrite (sdu_full_iff base top l sn Hl Hs), (sdu_full_iff base' top' l' sn Hl'), Hd, Ha
    by by rewrite <- Ha.
  split; intros [? Hb]; (split; [done|]); intros i Hi; specialize (Hb i Hi);
    by apply (byte_in_ext l l' sn i Hin).
Qed.

Lemma sdu_full_none l sn : (forall p, p ∈ l -> pdu_sn p <> sn) -> sdu_full l sn = false.
Proof.
  intros H. unfold sdu_full. rewrite skip_to_none; [done|]. by apply Forall_forall.
Qed.

(** Only SDUs of the window are delivered, or complete. *)
Lemma delivered_in_window base top l sn :
  rx_list_ok base top l -> sdu_delivered l sn = true -> 0 <= sn < M /\ abs_sn M base sn < top.
Proof.
  intros [_ Hw _ _] (p & Hp & <- & _)%sdu_delivered_in. rewrite Forall_forall in Hw.
  by apply Hw.
Qed.

Lemma not_delivered_outside base top l n :
  rx_list_ok base top l -> top <= n < base + M -> base <= top ->
  sdu_delivered l (n mod M) = false.
Proof.
  intros Hok Hn Hb. destruct (sdu_delivered l (n mod M)) eqn:E; [|done].
  apply (delivered_in_window base top) in E as [_ E]; [|done]. rewrite abs_sn_of in E; lia.
Qed.

Lemma rx_bytes_sizes base top l :
  cl = true -> rx_list_ok base top l -> rx_bytes l = zsum pdu_size l.
Proof.
  intros Hcl [_ _ Hp _]. apply zsum_ext. intros p Hin. rewrite Forall_forall in Hp.
  destruct (Hp p Hin) as [_ Hd]. rewrite Hcl in Hd. by destruct (pdu_data p).
Qed.

Lemma rx_bytes_nonneg base top l : rx_list_ok base top l -> 0 <= rx_bytes l.
Proof.
  intros [_ _ Hp _]. apply zsum_nonneg. intros p Hin. rewrite Forall_forall in Hp.
  destruct (Hp p Hin) as [_ Hd]. destruct (pdu_data p); [|done]. destruct Hd as [(_ & ? & _) _]. lia.
Qed.

Lemma rx_list_prefix base top l1 l2 :
  rx_list_ok base top (l1 ++ l2) -> Forall (fun p => pdu_of (sent (abs_sn M base (pdu_sn p))) p) l1.
Proof. intros [_ _ Hp _]. by apply Forall_app in Hp as [? _]. Qed.
End well_formed.
