(* ===== verification/RlcProps.v ===== *)
(** * Properties of the building blocks of the RLC

    The windowed averages, the bit coding of headers, the reference counted
    SDUs and the reception list, each over the whole of its interface. *)

From S2P Require Import Prelude TimeStat RlcPdu RlcSdu RlcReassembly RlcRxList.

(** ** Windowed averages *)

Inductive average_op : Type :=
| AverageAdd (time value : Z)
| AverageGet (time : Z)
| AverageReset.

Definition average_step (t : time_average_t) (op : average_op)
    : outcome (option (Z * Z) * time_average_t) :=
  match op with
  | AverageAdd time value => t ← time_average_add t time value; Ok (None, t)
  | AverageGet time => time_average_get_average t time
  | AverageReset => Ok (None, time_average_reset t)
  end.

Fixpoint average_run (t : time_average_t) (ops : list average_op) : outcome (list (option (Z * Z))) :=
  match ops with
  | [] => Ok []
  | op :: ops => '(a, t) ← average_step t op; l ← average_run t ops; Ok (a :: l)
  end.

(** The same on a queue of samples: those older than [duration] leave first. *)
Definition samples_step (duration : Z) (q : list time_value_t) (op : average_op)
    : option (Z * Z) * list time_value_t :=
  match op with
  | AverageAdd time value => (None, expire (u64 (time - duration)) q ++ [mk_time_value time value])
  | AverageGet time =>
      let q := expire (u64 (time - duration)) q in
      (if (zlen q =? 0) then None else Some (u64 (zsum tv_value q), zlen q), q)
  | AverageReset => (None, [])
  end.

Fixpoint samples_run (duration : Z) (q : list time_value_t) (ops : list average_op)
    : list (option (Z * Z)) :=
  match ops with
  | [] => []
  | op :: ops => let '(a, q) := samples_step duration q op in a :: samples_run duration q ops
  end.

Lemma average_reset_ok t :
  average_ok t -> average_ok (time_average_reset t) /\ ring_list (ta_r (time_average_reset t)) = [] /\
    ta_duration (time_average_reset t) = ta_duration t.
Proof.
  intros [(Hm & Hl & Hs & Ht & Hh) _]. unfold time_average_reset. field_simpl.
  split_and!; try done. split; [|done]. unfold ring_ok. field_simpl. split_and!; try lia.
  apply Z.mod_unique with (-1); lia.
Qed.

Lemma average_step_refines t op :
  average_ok t -> exists t', average_step t op = Ok ((samples_step (ta_duration t) (ring_list (ta_r t)) op).1, t') /\
    average_ok t' /\ ta_duration t' = ta_duration t /\
    ring_list (ta_r t') = (samples_step (ta_duration t) (ring_list (ta_r t)) op).2.
Proof.
  intros H. destruct op as [time value|time|]; cbn [average_step samples_step].
  - destruct (add_sample_correct t time value H) as (t' & -> & ? & ? & ?). by exists t'.
  - unfold time_average_get_average. destruct (remove_old_correct t time H) as (t' & -> & H' & Hd & Hl).
    cbn [mbind outcome_bind]. rewrite <- Hl. destruct H' as [Hr Hacc].
    rewrite ring_list_length by apply Hr. rewrite Hacc. exists t'. destruct (_ =? 0); by split_and!.
  - destruct (average_reset_ok t H) as (? & ? & ?). eexists. by split_and!.
Qed.

(** The windowed average is a queue of samples from which those older than the
    window leave: whatever the calls, and however the ring buffer wraps around
    and grows, each average asked for is the one of the queue, and nothing is
    accessed outside of the buffer. *)
Theorem average_refines_queue duration size ops :
  0 < size -> Z.land size (size - 1) = 0 ->
  (t ← time_average_new duration size; average_run t ops) = Ok (samples_run duration [] ops).
Proof.
  intros Hsize Hpow. pose proof (average_ok_new duration size Hsize) as Hnew.
  destruct (time_average_new duration size) as [t|f] eqn:E; [|by destruct Hnew].
  destruct Hnew as (Hok & Hl & _). cbn [mbind outcome_bind].
  assert (Hd : ta_duration t = duration).
  { unfold time_average_new in E. destruct (z2b _); [done|]. by injection E as <-. }
  rewrite <- Hl, <- Hd. clear -Hok. revert t Hok. induction ops as [|op ops IH]; intros t Hok; [done|].
  cbn [average_run samples_run]. destruct (average_step_refines t op Hok) as (t' & -> & Hok' & Hd & Hl).
  destruct (samples_step _ _ op) as [a q]. cbn [fst snd mbind outcome_bind] in *.
  by rewrite (IH t' Hok'), Hd, Hl.
Qed.

(** The buffer of two samples grows; a sample leaves the window. *)
Lemma average_refines_queue_witness :
  (t ← time_average_new 100 2;
   average_run t [AverageAdd 110 4; AverageAdd 120 6; AverageAdd 130 8; AverageGet 215; AverageReset; AverageGet 216])
  = Ok [None; None; None; Some (14, 2); None; None].
Proof.
  refine (eq_trans (average_refines_queue 100 2 _ _ _) _); [lia|reflexivity|vm_compute; reflexivity].
Defined.

(** ** Headers *)

(** A sequence of [get_bits] calls. *)
Fixpoint get_fields (d : nr_rlc_pdu_decoder_t) (counts : list Z)
    : outcome (list Z * nr_rlc_pdu_decoder_t) :=
  match counts with
  | [] => Ok ([], d)
  | n :: counts =>
      '(v, d) ← nr_rlc_pdu_decoder_get_bits d n;
      '(vs, d) ← get_fields d counts;
      Ok (v :: vs, d)
  end.

Definition field_fits (f : Z * Z) : Prop := 0 <= f.2 <= 31 /\ 0 <= f.1 < 2 ^ f.2.

Lemma get_fields_correct fields d0 d post n0 :
  Forall field_fits fields -> dec_repr d (fields_bits fields ++ post) -> dec_frame d0 d n0 ->
  exists d', get_fields d (snd <$> fields) = Ok (fst <$> fields, d') /\ dec_repr d' post /\
    dec_frame d0 d' (n0 + zsum snd fields).
Proof.
  revert d n0. induction fields as [|[v n] fields IH]; intros d n0 Hf Hd Hfr.
  { exists d. rewrite zsum_nil, Z.add_0_r. by split_and!. }
  apply Forall_cons in Hf as [[Hn Hv] Hf]. rewrite fields_bits_cons, <- app_assoc in Hd.
  destruct (read_field d d0 v n _ n0 Hd Hfr Hn Hv) as (d1 & H1 & _ & Hd1 & Hf1).
  destruct (IH d1 _ Hf Hd1 Hf1) as (d2 & H2 & Hd2 & Hf2).
  exists d2. rewrite !fmap_cons, zsum_cons, Z.add_assoc. cbn [get_fields fst snd]. rewrite H1.
  cbn [mbind outcome_bind]. by rewrite H2.
Qed.

(** What the bit encoder writes, the bit decoder reads: any sequence of fields
    of at most 31 bits that ends on a byte boundary and fits the buffer is read
    back, with the data put after it, whatever the buffer held. *)
Theorem header_roundtrip buffer size fields hs data :
  bytes_ok buffer -> size <= zlen buffer -> Forall field_fits fields ->
  zsum snd fields = 8 * hs -> hs + zlen data <= size ->
  exists enc buffer' d,
    put_fields (nr_rlc_pdu_encoder_init buffer size) fields = Ok enc /\
    zblit (enc_buffer enc) (enc_byte enc) data = Some buffer' /\
    let pdu := take (Z.to_nat (hs + zlen data)) buffer' in
    get_fields (nr_rlc_pdu_decoder_init pdu (zlen pdu)) (snd <$> fields) = Ok (fst <$> fields, d) /\
    dec_error d = false /\ dec_byte d = hs /\ drop (Z.to_nat (dec_byte d)) pdu = data.
Proof.
  intros Hb Hsize Hf Hsum Hfit.
  assert (Hok : fields_ok fields) by (eapply Forall_impl; [exact Hf|]; by intros f [? _]).
  destruct (put_header_data buffer size fields hs data Hb Hsize Hok Hsum Hfit)
    as (enc & buffer' & hdr & Henc & Hbyte & Hblit & _ & Hh & Hbits & Htake).
  pose proof (dec_repr_init (hdr ++ data) _ eq_refl) as Hd.
  rewrite buffer_bits_app, Hbits in Hd.
  set (pdu := hdr ++ data) in *. set (d0 := nr_rlc_pdu_decoder_init pdu (zlen pdu)) in *.
  destruct (get_fields_correct fields d0 d0 _ 0 Hf Hd) as (d & Hget & Hd' & Hfr);
    [by unfold dec_frame; split_and!; try done; lia|].
  assert (Hdb : dec_byte d = hs).
  { eapply dec_byte_of; [exact Hd'| |exact Hsum]. unfold dec_frame in *. cbn in *. intuition. }
  exists enc, buffer', d. rewrite Hbyte, Htake. fold pdu d0. split; [done|]. split; [done|]. cbv zeta.
  split_and!; [done|by apply Hd'|done|].
  rewrite Hdb. unfold pdu. apply drop_app_length'. unfold zlen in Hh. lia.
Qed.

(** The header of a UM segment with 12 bit numbers, and two bytes of data. *)
Lemma header_roundtrip_witness :
  exists enc buffer' d,
    put_fields (nr_rlc_pdu_encoder_init (replicate 8 7) 8) [(3, 2); (0, 2); (77, 12); (400, 16)] = Ok enc /\
    zblit (enc_buffer enc) (enc_byte enc) [9; 8] = Some buffer' /\
    let pdu := take (Z.to_nat (4 + zlen [9; 8])) buffer' in
    get_fields (nr_rlc_pdu_decoder_init pdu (zlen pdu)) [2; 2; 12; 16] = Ok ([3; 0; 77; 400], d) /\
    dec_error d = false /\ dec_byte d = 4 /\ drop (Z.to_nat (dec_byte d)) pdu = [9; 8].
Proof.
  apply (header_roundtrip (replicate 8 7) 8 [(3, 2); (0, 2); (77, 12); (400, 16)] 4 [9; 8]);
    [repeat constructor; done|by vm_compute|repeat constructor; done|reflexivity|by vm_compute].
Defined.

(** Reading a field of at most 31 bits never accesses anything outside of the
    buffer: the value when the buffer holds it, and -1 with the error flag
    when it does not; more bits than that end the program. *)
Theorem get_bits_bounded d bits count :
  dec_repr d bits -> 0 <= count ->
  match nr_rlc_pdu_decoder_get_bits d count with
  | Ok (v, d') =>
      count <= 31 /\
      if dec_error d' then v = -1 /\ zlen bits < count
      else count <= zlen bits /\ v = bits_val (take (Z.to_nat count) bits) /\ 0 <= v < 2 ^ count /\
           dec_repr d' (drop (Z.to_nat count) bits)
  | Fault f => f = Exit /\ 31 < count
  end.
Proof.
  intros Hd Hc. destruct (decide (count <= 31)) as [Hle|Hgt].
  - destruct (get_bits_total d bits count Hd ltac:(lia)) as (v & d' & -> & Hcase). split; [done|].
    destruct (dec_error d'); [done|]. by destruct Hcase as (? & ? & ? & ? & _).
  - unfold nr_rlc_pdu_decoder_get_bits. destruct (_ >? _) eqn:E; zify_bool; [|lia]. split; [done|lia].
Qed.

(** 20 bits are asked of a buffer of two bytes. *)
Lemma get_bits_bounded_witness :
  dec_repr (nr_rlc_pdu_decoder_init [1; 2] 2) (buffer_bits [1; 2]) /\
  match nr_rlc_pdu_decoder_get_bits (nr_rlc_pdu_decoder_init [1; 2] 2) 20 with
  | Ok (v, d') =>
      20 <= 31 /\
      if dec_error d' then v = -1 /\ zlen (buffer_bits [1; 2]) < 20
      else 20 <= zlen (buffer_bits [1; 2]) /\ v = bits_val (take (Z.to_nat 20) (buffer_bits [1; 2])) /\
           0 <= v < 2 ^ 20 /\ dec_repr d' (drop (Z.to_nat 20) (buffer_bits [1; 2]))
  | Fault f => f = Exit /\ 31 < 20
  end.
Proof.
  split; [by apply dec_repr_init|].
  apply (get_bits_bounded (nr_rlc_pdu_decoder_init [1; 2] 2) (buffer_bits [1; 2]) 20); [by apply dec_repr_init|lia].
Defined.

(** ** Reference counted SDUs *)

(** What the entities do to the segments of their lists: a new SDU, the end of a
    segment, and a segment cut after [n] bytes (the counter goes up, as in
    [resegment]). *)
Inductive heap_op : Type :=
| SduNew (data : list Z) (upper_layer_id : Z)
| SegFree (i : nat)
| SegCut (i : nat) (n : Z).

Definition heap_step (hl : sdu_heap * list nr_rlc_sdu_segment_t) (op : heap_op)
    : outcome (sdu_heap * list nr_rlc_sdu_segment_t) :=
  let '(h, l) := hl in
  match op with
  | SduNew data id => '(h, s) ← nr_rlc_new_sdu h data (zlen data) id; Ok (h, s :: l)
  | SegFree i =>
      match l !! i with
      | Some s => '(h, _) ← nr_rlc_free_sdu_segment h s; Ok (h, delete i l)
      | None => Ok (h, l)
      end
  | SegCut i n =>
      match l !! i with
      | Some s =>
          if (0 <? n) && (n <? seg_size s) then
            u ← deref_sdu h s;
            Ok ((set_sdu h s (u <| ref_count := ref_count u + 1 |>)) <| heap_next := heap_next h + 1 |>,
                seg_head s n :: seg_tail s (heap_next h) n :: delete i l)
          else Ok (h, l)
      | None => Ok (h, l)
      end
  end.

Fixpoint heap_run (hl : sdu_heap * list nr_rlc_sdu_segment_t) (ops : list heap_op)
    : outcome (sdu_heap * list nr_rlc_sdu_segment_t) :=
  match ops with
  | [] => Ok hl
  | op :: ops => hl ← heap_step hl op; heap_run hl ops
  end.

Lemma heap_step_ok h l op :
  heap_inv h l -> exists h' l', heap_step (h, l) op = Ok (h', l') /\ heap_inv h' l'.
Proof.
  intros H. destruct op as [data id|i|i n]; cbn [heap_step].
  - destruct (new_sdu_correct h l data (zlen data) id H eq_refl) as (h' & s & u & -> & Hinv & _). eauto.
  - destruct (l !! i) as [s|] eqn:E; [|eauto]. rewrite (delete_Permutation l i s E) in H.
    destruct (free_correct h s _ H) as (h' & r & u & -> & _ & Hinv & _). eauto.
  - destruct (l !! i) as [s|] eqn:E; [|eauto]. destruct (_ && _) eqn:En; [|eauto]. zify_bool.
    rewrite (delete_Permutation l i s E) in H.
    destruct (heap_inv_deref h s _ H) as (u & -> & Hu & _). cbn [mbind outcome_bind].
    destruct (heap_inv_split h s _ u n H Hu ltac:(lia)) as (Hinv & _). eauto.
Qed.

(** C13: SDUs and their segments: whatever the order in which SDUs are made, segments
    cut and segments freed, nothing freed is used; an SDU is allocated exactly as
    long as one of its segments is; each live segment is a range of its SDU, no
    two of them overlap; and when no segment is left nothing is allocated. *)
Theorem sdu_heap_safe ops :
  exists h l, heap_run (empty_heap, []) ops = Ok (h, l) /\
    (forall k, is_Some (heap_sdus h !! k) <-> exists s, s ∈ l /\ seg_sdu s = k) /\
    (forall s, s ∈ l -> exists u, heap_sdus h !! seg_sdu s = Some u /\ zlen (sdu_data u) = sdu_size u /\
       0 <= seg_so s /\ seg_end s <= sdu_size u) /\
    (forall s t, s ∈ l -> t ∈ l -> seg_addr s <> seg_addr t -> seg_disjoint s t) /\
    (l = [] -> heap_sdus h = ∅).
Proof.
  assert (Hrun : forall ops h l, heap_inv h l ->
    exists h' l', heap_run (h, l) ops = Ok (h', l') /\ heap_inv h' l').
  { clear ops. induction ops as [|op ops IH]; intros h l H; [eauto|]. cbn [heap_run].
    destruct (heap_step_ok h l op H) as (h1 & l1 & -> & H1). cbn [mbind outcome_bind]. by apply IH. }
  destruct (Hrun ops empty_heap [] heap_inv_empty) as (h & l & -> & Hinv). exists h, l.
  pose proof (heap_segs _ _ Hinv) as Hs. rewrite Forall_forall in Hs. split; [done|]. split_and!.
  - intros k. split.
    + intros [u Hu]. destruct (heap_sdu _ _ Hinv k u Hu) as (_ & _ & _ & Hpos).
      destruct (decide (Exists (fun s => seg_sdu s = k) l)) as [Hex|Hno].
      * apply Exists_exists in Hex as (s & ? & ?). by exists s.
      * rewrite seg_refs_none in Hpos; [lia|]. intros s Hsl E. apply Hno, Exists_exists. by exists s.
    + intros (s & Hsl & <-). destruct (Hs s Hsl) as (_ & u & -> & _). eauto.
  - intros s Hsl. destruct (Hs s Hsl) as (_ & u & Hu & Hso & _ & Hend & _).
    exists u. split_and!; try done. apply (heap_sdu _ _ Hinv _ _ Hu).
  - apply (heap_disjoint _ _ Hinv).
  - intros ->. by apply heap_inv_nil_empty.
Qed.

(** ** The reception list *)

(** The list after the PDUs [ps], in their order of arrival, in a window that
    starts at the absolute number [base]. *)
Definition received_all (M base : Z) (ps : list nr_rlc_pdu_t) : list nr_rlc_pdu_t :=
  foldl (nr_rlc_pdu_list_add (fun a b => sn_key M base a - sn_key M base b)) [] ps.

(** [p] is a segment of an SDU of the peer numbered in the window. *)
Definition in_window_segment (M base : Z) (sent : Z -> list Z) (p : nr_rlc_pdu_t) : Prop :=
  exists n, base <= n < base + M /\ pdu_sn p = n mod M /\ genuine (sent n) p.

Lemma received_all_ok M base cl sent ps :
  0 < M -> Forall (in_window_segment M base sent) ps ->
  rx_list_ok M cl sent base (base + M) (received_all M base ps) /\ received_all M base ps ≡ₚ ps /\
  forall sn, sdu_delivered (received_all M base ps) sn = false.
Proof.
  intros HM. unfold received_all. induction ps as [|p ps IH] using rev_ind; intros Hps.
  { split; [apply rx_list_ok_nil|done]. }
  apply Forall_app in Hps as [Hps Hp]. apply Forall_cons in Hp as [(n & Hn & Hsn & Hg) _].
  rewrite foldl_app. cbn [foldl]. destruct (IH Hps) as (Hok & Hperm & Hd).
  destruct (rx_list_insert M HM cl sent base _ _ p n Hok Hn Hsn Hg) as [Hok' Hd']. split_and!.
  - by replace (Z.max (base + M) (n + 1)) with (base + M) in Hok' by lia.
  - rewrite (list_add_perm (sn_key M base)), Hperm. by rewrite Permutation_app_comm.
  - intros sn. by rewrite Hd'.
Qed.

(** C8: whatever the order in which segments arrive, overlapping or duplicated, the
    receiver finds an SDU complete exactly when each of its bytes is in a segment
    received, and then reassembles exactly the SDU sent. *)
Theorem reassembly_exact M base sent cl ps n rx_size :
  0 < M -> (forall n, 0 < zlen (sent n) <= NR_SDU_MAX) ->
  Forall (in_window_segment M base sent) ps -> base <= n < base + M ->
  let l := received_all M base ps in
  rx_sorted (sn_key M base) l /\ l ≡ₚ ps /\
  (sdu_full l (n mod M) = true <-> forall i, 0 <= i < zlen (sent n) -> byte_in ps (n mod M) i) /\
  (sdu_full l (n mod M) = true ->
   exists l' rx_size', reassemble_list cl (n mod M) l rx_size = Ok (l', rx_size', Some (sent n)) /\
     sdu_delivered l' (n mod M) = true).
Proof.
  intros HM Hsent Hps Hn l. destruct (received_all_ok M base cl sent ps HM Hps) as (Hok & Hperm & Hd).
  fold l in Hok, Hperm, Hd. pose proof (abs_sn_of M base n Hn) as Habs.
  split; [apply Hok|]. split; [done|]. split.
  - rewrite (sdu_full_iff M HM cl sent base _ l (n mod M) Hok); rewrite Habs; [|by apply Hsent].
    rewrite Hd. split.
    + intros [_ H] i Hi. destruct (H i Hi) as (p & Hp & ?). exists p. by rewrite <- Hperm.
    + intros H. split; [done|]. intros i Hi. destruct (H i Hi) as (p & Hp & ?). exists p. by rewrite Hperm.
  - intros Hfull.
    destruct (rx_list_deliver M HM cl sent base _ l (n mod M) rx_size Hok Hfull) as (Hr & _ & Hdel & _).
    { rewrite Habs. apply Hsent. }
    rewrite Habs in Hr. eexists _, _. split; [exact Hr|]. by rewrite Hdel, Z.eqb_refl.
Qed.

(** The last byte of a three byte SDU arrives before the first two. *)
Lemma reassembly_exact_witness :
  let ps := [nr_rlc_new_pdu 2 2 false true [7] 1; nr_rlc_new_pdu 2 0 true false [5; 6] 2] in
  let l := received_all 64 60 ps in
  rx_sorted (sn_key 64 60) l /\ l ≡ₚ ps /\
  (sdu_full l (66 mod 64) = true <-> forall i, 0 <= i < zlen [5; 6; 7] -> byte_in ps (66 mod 64) i) /\
  (sdu_full l (66 mod 64) = true ->
   exists l' rx_size', reassemble_list true (66 mod 64) l 3 = Ok (l', rx_size', Some [5; 6; 7]) /\
     sdu_delivered l' (66 mod 64) = true).
Proof.
  apply (reassembly_exact 64 60 (fun _ => [5; 6; 7]) true
    [nr_rlc_new_pdu 2 2 false true [7] 1; nr_rlc_new_pdu 2 0 true false [5; 6] 2] 66 3);
    [lia|intros _; vm_compute; by split| |lia].
  repeat constructor; exists 66; (split; [lia|]); (split; [reflexivity|]);
    unfold genuine, seg_of, pdu_end; cbn; split_and!; try done; try lia.
Defined.
