(* ===== verification/RlcEntity.v ===== *)
(** * What the three RLC entities share (src/openair2/LAYER2/nr_rlc/nr_rlc_entity.h)

    Statistics, buffer status, and the callbacks given to the RLC module: a call
    of [deliver_sdu], [sdu_successful_delivery] or [max_retx_reached] is an event
    appended to the entity's trace. *)

From S2P Require Import Prelude TimeStat RlcSdu.

(** ** Data *)

Inductive nr_rlc_mode_t : Type := NR_RLC_AM | NR_RLC_UM | NR_RLC_TM.

Record nr_rlc_statistics_t := mk_stats {
  mode : nr_rlc_mode_t;
  txpdu_pkts : Z; txpdu_bytes : Z; txpdu_wt_ms : Z; txpdu_dd_pkts : Z; txpdu_dd_bytes : Z;
  txpdu_retx_pkts : Z; txpdu_retx_bytes : Z; txpdu_segmented : Z;
  txpdu_status_pkts : Z; txpdu_status_bytes : Z; txbuf_occ_bytes : Z; txbuf_occ_pkts : Z;
  rxpdu_pkts : Z; rxpdu_bytes : Z; rxpdu_dup_pkts : Z; rxpdu_dup_bytes : Z;
  rxpdu_dd_pkts : Z; rxpdu_dd_bytes : Z; rxpdu_ow_pkts : Z; rxpdu_ow_bytes : Z;
  rxpdu_status_pkts : Z; rxpdu_status_bytes : Z; rxbuf_occ_bytes : Z; rxbuf_occ_pkts : Z;
  txsdu_pkts : Z; txsdu_bytes : Z; txsdu_wt_us : Z;
  rxsdu_pkts : Z; rxsdu_bytes : Z; rxsdu_dd_pkts : Z; rxsdu_dd_bytes : Z;
}.
#[export] Instance eta_stats : RecordEta nr_rlc_statistics_t :=
  fld (fld (fld (fld (fld (fld (fld (fld (fld (fld (fld (fld (fld (fld (fld (fld (fld (fld
    (fld (fld (fld (fld (fld (fld (fld (fld (fld (fld (fld (fld (fld (fld (fun _ => mk_stats)
    mode) txpdu_pkts) txpdu_bytes) txpdu_wt_ms) txpdu_dd_pkts) txpdu_dd_bytes)
    txpdu_retx_pkts) txpdu_retx_bytes) txpdu_segmented) txpdu_status_pkts) txpdu_status_bytes)
    txbuf_occ_bytes) txbuf_occ_pkts) rxpdu_pkts) rxpdu_bytes) rxpdu_dup_pkts) rxpdu_dup_bytes)
    rxpdu_dd_pkts) rxpdu_dd_bytes) rxpdu_ow_pkts) rxpdu_ow_bytes) rxpdu_status_pkts)
    rxpdu_status_bytes) rxbuf_occ_bytes) rxbuf_occ_pkts) txsdu_pkts) txsdu_bytes) txsdu_wt_us)
    rxsdu_pkts) rxsdu_bytes) rxsdu_dd_pkts) rxsdu_dd_bytes.

Definition stats_zero (m : nr_rlc_mode_t) : nr_rlc_statistics_t :=
  mk_stats m 0 0 0 0 0 0 0 0 0 0 0 0 0 0 0 0 0 0 0 0 0 0 0 0 0 0 0 0 0 0 0.

Record nr_rlc_entity_buffer_status_t := mk_bstatus {
  bs_status_size : Z;
  bs_tx_size : Z;
  bs_retx_size : Z;
}.
#[export] Instance eta_bstatus : RecordEta nr_rlc_entity_buffer_status_t :=
  fld (fld (fld (fun _ => mk_bstatus) bs_status_size) bs_tx_size) bs_retx_size.

(** Calls of the callbacks provided to the RLC module. *)
Inductive rlc_event : Type :=
| DeliverSdu (buf : list Z)
| SduSuccessfulDelivery (sdu_id : Z)
| MaxRetxReached.

Record nr_rlc_entity_t := mk_entity {
  bstatus : nr_rlc_entity_buffer_status_t;
  stats : nr_rlc_statistics_t;
  txsdu_avg_time_to_tx : time_average_t;
  avg_time_is_on : bool;
  heap : sdu_heap;               (* the SDUs the entity has allocated *)
  events : list rlc_event;       (* the callbacks called so far, in order *)
}.
#[export] Instance eta_entity : RecordEta nr_rlc_entity_t :=
  fld (fld (fld (fld (fld (fld (fun _ => mk_entity)
    bstatus) stats) txsdu_avg_time_to_tx) avg_time_is_on) heap) events.

(** ** Operations on the common part *)

Definition new_common (m : nr_rlc_mode_t) : outcome nr_rlc_entity_t :=
  avg ← time_average_new (100 * 1000) 1024;
  Ok (mk_entity (mk_bstatus 0 0 0) (stats_zero m) avg false empty_heap []).

Definition emit (c : nr_rlc_entity_t) (ev : rlc_event) : nr_rlc_entity_t :=
  c <| events := events c ++ [ev] |>.

Definition add_stat (c : nr_rlc_entity_t) (p : nr_rlc_statistics_t -> Z)
    {u : FieldUpdate p} (n : Z) : nr_rlc_entity_t :=
  c <| stats := (stats c) <| p := u32 (p (stats c) + n) |> |>.

(** [txsdu_bytes] and [rxsdu_bytes] are 64 bits wide. *)
Definition add_stat64 (c : nr_rlc_entity_t) (p : nr_rlc_statistics_t -> Z)
    {u : FieldUpdate p} (n : Z) : nr_rlc_entity_t :=
  c <| stats := (stats c) <| p := u64 (p (stats c) + n) |> |>.

Definition add_tx_size (c : nr_rlc_entity_t) (n : Z) : nr_rlc_entity_t :=
  c <| bstatus := (bstatus c) <| bs_tx_size := bs_tx_size (bstatus c) + n |> |>.
Definition add_retx_size (c : nr_rlc_entity_t) (n : Z) : nr_rlc_entity_t :=
  c <| bstatus := (bstatus c) <| bs_retx_size := bs_retx_size (bstatus c) + n |> |>.

(** Time-to-transmit statistics of a segment handed to the MAC; [now] is what
    [time_average_now] returns. *)
Definition account_tx_time (c : nr_rlc_entity_t) (sdu : nr_rlc_sdu_segment_t) (now : Z)
    : outcome nr_rlc_entity_t :=
  if avg_time_is_on c then
    u ← deref_sdu (heap c) sdu;
    avg ← time_average_add (txsdu_avg_time_to_tx c) now (u64 (now - time_of_arrival u));
    Ok (c <| txsdu_avg_time_to_tx := avg |>)
  else Ok c.

(** Arrival time of an SDU, for the same statistics. *)
Definition stamp_arrival (c : nr_rlc_entity_t) (sdu : nr_rlc_sdu_segment_t) (now : Z)
    : outcome nr_rlc_entity_t :=
  if avg_time_is_on c then
    u ← deref_sdu (heap c) sdu;
    Ok (c <| heap := set_sdu (heap c) sdu (u <| time_of_arrival := now |>) |>)
  else Ok c.

(** [nr_rlc_entity_get_stats]: [hol] is the head-of-line segment of the mode;
    the average is numerator and denominator. *)
Definition nr_rlc_entity_get_stats (c : nr_rlc_entity_t) (hol : option nr_rlc_sdu_segment_t)
    (now : Z) : outcome (nr_rlc_statistics_t * option (Z * Z) * nr_rlc_entity_t) :=
  wt ← match hol with
       | Some sdu => u ← deref_sdu (heap c) sdu; Ok (u32 (now - time_of_arrival u))
       | None => Ok 0
       end;
  let out := (stats c) <| txsdu_wt_us := wt |> in
  if avg_time_is_on c then
    '(avg, t) ← time_average_get_average (txsdu_avg_time_to_tx c) now;
    Ok (out, avg, c <| txsdu_avg_time_to_tx := t |>)
  else Ok (out, None, c).

(** ** Facts *)

(** The averages of a running entity are sound rings. *)
Definition common_ok (c : nr_rlc_entity_t) : Prop := average_ok (txsdu_avg_time_to_tx c).

Lemma new_common_ok m : exists c, new_common m = Ok c /\ common_ok c /\
  heap c = empty_heap /\ events c = [] /\ bstatus c = mk_bstatus 0 0 0.
Proof.
  pose proof (average_ok_new (100 * 1000) 1024 ltac:(lia)) as H. unfold new_common.
  destruct (time_average_new _ _) as [t|f]; [|by destruct H as [_ H]].
  cbn [mbind outcome_bind]. eexists. split; [done|]. by destruct H as [? _].
Qed.

(** What the statistics do not touch. *)
Definition same_but_stats (c c' : nr_rlc_entity_t) : Prop :=
  bstatus c' = bstatus c /\ events c' = events c /\ heap c' = heap c.

Lemma account_tx_time_ok c s now :
  common_ok c -> is_Some (heap_sdus (heap c) !! seg_sdu s) ->
  exists c', account_tx_time c s now = Ok c' /\ common_ok c' /\ same_but_stats c c'.
Proof.
  intros Hc [u Hu]. unfold account_tx_time. destruct (avg_time_is_on c).
  2: { exists c. by split_and!. }
  unfold deref_sdu. rewrite Hu. cbn [of_option mbind outcome_bind].
  destruct (add_sample_correct _ now (u64 (now - time_of_arrival u)) Hc) as (t & -> & Ht & _).
  cbn [mbind outcome_bind]. eexists. by split_and!.
Qed.

Lemma stamp_arrival_ok c l s now :
  common_ok c -> heap_inv (heap c) l -> is_Some (heap_sdus (heap c) !! seg_sdu s) ->
  exists c', stamp_arrival c s now = Ok c' /\ common_ok c' /\
    heap_inv (heap c') l /\ heap_same (heap c) (heap c') l /\
    heap_bytes (heap c') = heap_bytes (heap c) /\
    (forall k, sdu_data <$> heap_sdus (heap c') !! k = sdu_data <$> heap_sdus (heap c) !! k) /\
    (forall k, sdu_sn <$> heap_sdus (heap c') !! k = sdu_sn <$> heap_sdus (heap c) !! k) /\
    bstatus c' = bstatus c /\ events c' = events c.
Proof.
  intros Hc Hh [u Hu]. unfold stamp_arrival. destruct (avg_time_is_on c).
  2: { exists c. split_and!; try done. split; [lia|]. intros t v _ Hv. exists v. by split_and!. }
  unfold deref_sdu. rewrite Hu. cbn [of_option mbind outcome_bind].
  eexists. split; [reflexivity|]. field_simpl. split_and!; try done.
  - by eapply heap_inv_set.
  - unfold set_sdu. split; field_simpl; [lia|]. intros t v _ Hv.
    destruct (decide (seg_sdu s = seg_sdu t)) as [E|E].
    + rewrite <- E in *. rewrite lookup_insert_eq. simplify_eq. eexists. split; done.
    + rewrite lookup_insert_ne by done. exists v. by split_and!.
  - by eapply heap_bytes_set.
  - intros k. unfold set_sdu. field_simpl. rewrite lookup_insert. case_decide; [|done].
    subst. by rewrite Hu.
  - intros k. unfold set_sdu. field_simpl. rewrite lookup_insert. case_decide; [|done].
    subst. by rewrite Hu.
Qed.

Lemma stamp_arrival_Forall P c s now c' :
  stamp_arrival c s now = Ok c' ->
  (forall k u n, P k u -> P k (u <| time_of_arrival := n |>)) ->
  map_Forall P (heap_sdus (heap c)) -> map_Forall P (heap_sdus (heap c')).
Proof.
  unfold stamp_arrival, deref_sdu. intros H HP Hall. bind_inv; simplify_eq; [|done].
  unfold set_sdu. field_simpl. apply map_Forall_insert_2; [|done]. by apply HP, Hall.
Qed.
