(* ===== verification/RlcTm.v ===== *)
(** * The transparent mode RLC entity (src/openair2/LAYER2/nr_rlc/nr_rlc_entity_tm.c)

    No header, no segmentation: a bounded first-in first-out queue of SDUs.  The
    contract of the entity is that queue ([tm_repr]); each operation refines the
    operation of the same name on it.  [buffer] arguments are the memory the
    pointer designates, [now] is what [time_average_now] returns. *)

From S2P Require Import Prelude TimeStat RlcSdu RlcReassembly RlcEntity.

(** ** State *)

Record nr_rlc_entity_tm_t := mk_tm {
  tm_common : nr_rlc_entity_t;
  tm_t_current : Z;              (* latest known time, in ms *)
  tm_t_log_buffer_full : Z;
  tm_sdu_rejected : Z;
  tm_tx_list : list nr_rlc_sdu_segment_t;
  tm_tx_end : option Z;
  tm_tx_size : Z;
  tm_tx_maxsize : Z;
}.
#[export] Instance eta_tm : RecordEta nr_rlc_entity_tm_t :=
  fld (fld (fld (fld (fld (fld (fld (fld (fun _ => mk_tm)
    tm_common) tm_t_current) tm_t_log_buffer_full) tm_sdu_rejected) tm_tx_list) tm_tx_end)
    tm_tx_size) tm_tx_maxsize.

(** ** Operations *)

Definition new_nr_rlc_entity_tm (tx_maxsize : Z) : outcome nr_rlc_entity_tm_t :=
  c ← new_common NR_RLC_TM;
  Ok (mk_tm c 0 0 0 [] None 0 tx_maxsize).

Definition nr_rlc_entity_tm_recv_pdu (e : nr_rlc_entity_tm_t) (buffer : list Z) (size : Z)
    : outcome nr_rlc_entity_tm_t :=
  let c := add_stat (add_stat (tm_common e) rxpdu_pkts 1) rxpdu_bytes size in
  sdu ← of_option OutOfBounds (zslice buffer 0 size);
  let c := emit c (DeliverSdu sdu) in
  let c := add_stat64 (add_stat c txsdu_pkts 1) txsdu_bytes size in
  Ok (e <| tm_common := c |>).

Definition tm_generate_tx_pdu (e : nr_rlc_entity_tm_t) (buffer : list Z) (size now : Z)
    : outcome (Z * list Z * nr_rlc_entity_tm_t) :=
  match tm_tx_list e with
  | [] => Ok (0, buffer, e)
  | sdu :: next =>
      (* not enough room? do nothing *)
      if seg_size sdu >? size then Ok (0, buffer, e) else
      let e := e <| tm_tx_list := next |> in
      let e := match next with [] => e <| tm_tx_end := None |> | _ => e end in
      let ret := seg_size sdu in
      u ← deref_sdu (heap (tm_common e)) sdu;
      data ← of_option OutOfBounds (zslice (sdu_data u) 0 (seg_size sdu));
      buffer ← of_option OutOfBounds (zblit buffer 0 data);
      let e := e <| tm_tx_size := tm_tx_size e - seg_size sdu |> in
      let c := add_stat (add_stat (tm_common e) txpdu_pkts 1) txpdu_bytes size in
      c ← account_tx_time c sdu now;
      (* update buffer status *)
      let c := add_tx_size c (- seg_size sdu) in
      '(h, _) ← nr_rlc_free_sdu_segment (heap c) sdu;
      Ok (ret, buffer, e <| tm_common := c <| heap := h |> |>)
  end.

Definition nr_rlc_entity_tm_buffer_status (e : nr_rlc_entity_tm_t) (maxsize : Z)
    : nr_rlc_entity_buffer_status_t :=
  mk_bstatus 0 (bs_tx_size (bstatus (tm_common e))) 0.

Definition nr_rlc_entity_tm_generate_pdu := tm_generate_tx_pdu.

Definition nr_rlc_entity_tm_recv_sdu (e : nr_rlc_entity_tm_t) (buffer : list Z)
    (size sdu_id now : Z) : outcome nr_rlc_entity_tm_t :=
  let e := e <| tm_common := add_stat64 (add_stat (tm_common e) rxsdu_pkts 1) rxsdu_bytes size |> in
  _ ← require (negb (size >? NR_SDU_MAX)) Exit;
  (* log SDUs rejected, at most once per second *)
  let e := if negb (tm_sdu_rejected e =? 0)
              && (tm_t_current e >? u64 (tm_t_log_buffer_full e + 1000))
           then e <| tm_sdu_rejected := 0 |> <| tm_t_log_buffer_full := tm_t_current e |>
           else e in
  if tm_tx_size e + size >? tm_tx_maxsize e then
    let e := e <| tm_sdu_rejected := tm_sdu_rejected e + 1 |> in
    Ok (e <| tm_common := add_stat (add_stat (tm_common e) rxsdu_dd_pkts 1) rxsdu_dd_bytes size |>)
  else
    let e := e <| tm_tx_size := tm_tx_size e + size |> in
    '(h, sdu) ← nr_rlc_new_sdu (heap (tm_common e)) buffer size sdu_id;
    '(l, tx_end) ← nr_rlc_sdu_segment_list_append (tm_tx_list e) (tm_tx_end e) sdu;
    let e := e <| tm_tx_list := l |> <| tm_tx_end := tx_end |> in
    (* update buffer status *)
    let c := add_tx_size ((tm_common e) <| heap := h |>) (seg_size sdu) in
    c ← stamp_arrival c sdu now;
    Ok (e <| tm_common := c |>).

Definition nr_rlc_entity_tm_set_time (e : nr_rlc_entity_tm_t) (now : Z) : nr_rlc_entity_tm_t :=
  e <| tm_t_current := now |>.

Definition nr_rlc_entity_tm_discard_sdu (e : nr_rlc_entity_tm_t) (sdu_id : Z)
    : nr_rlc_entity_tm_t := e.

Definition tm_clear_entity (e : nr_rlc_entity_tm_t) : outcome nr_rlc_entity_tm_t :=
  let e := e <| tm_t_current := 0 |> <| tm_t_log_buffer_full := 0 |> <| tm_sdu_rejected := 0 |> in
  h ← nr_rlc_free_sdu_segment_list (heap (tm_common e)) (tm_tx_list e);
  let e := e <| tm_tx_list := [] |> <| tm_tx_end := None |> <| tm_tx_size := 0 |> in
  let c := (tm_common e) <| heap := h |> in
  Ok (e <| tm_common := c <| bstatus := (bstatus c) <| bs_tx_size := 0 |> |> |>).

Definition nr_rlc_entity_tm_reestablishment := tm_clear_entity.

(** What remains allocated when the entity has been deleted. *)
Definition nr_rlc_entity_tm_delete (e : nr_rlc_entity_tm_t) : outcome sdu_heap :=
  e ← tm_clear_entity e;
  Ok (heap (tm_common e)).

Definition nr_rlc_entity_tm_available_tx_space (e : nr_rlc_entity_tm_t) : Z :=
  tm_tx_maxsize e - tm_tx_size e.

(** ** Specification: a bounded queue of SDUs *)

Definition tm_sdu (h : sdu_heap) (s : nr_rlc_sdu_segment_t) (d : list Z) : Prop :=
  seg_so s = 0 /\ seg_size s = zlen d /\ exists u, heap_sdus h !! seg_sdu s = Some u /\ sdu_data u = d.

Record tm_repr (e : nr_rlc_entity_tm_t) (q : list (list Z)) : Prop := {
  tm_repr_heap : heap_inv (heap (tm_common e)) (tm_tx_list e);
  tm_repr_queue : Forall2 (tm_sdu (heap (tm_common e))) (tm_tx_list e) q;
  tm_repr_end : end_ok (tm_tx_list e) (tm_tx_end e);
  tm_repr_size : tm_tx_size e = zsum zlen q;
  tm_repr_bstatus : bs_tx_size (bstatus (tm_common e)) = zsum zlen q;
  tm_repr_common : common_ok (tm_common e);
}.

(** The operations on queues. *)
Definition queue_put (maxsize : Z) (q : list (list Z)) (d : list Z) : list (list Z) :=
  if zsum zlen q + zlen d >? maxsize then q else q ++ [d].
Definition queue_get (q : list (list Z)) (size : Z) : list Z * list (list Z) :=
  match q with
  | [] => ([], [])
  | d :: q' => if zlen d >? size then ([], q) else (d, q')
  end.

Lemma tm_sdu_same h h' l q :
  heap_same h h' l -> Forall2 (tm_sdu h) l q -> Forall2 (tm_sdu h') l q.
Proof.
  intros [_ Hs] H. induction H as [|s d l q (? & ? & u & Hu & Hd) _ IH]; constructor.
  - split_and!; [done|done|]. destruct (Hs s u ltac:(set_solver) Hu) as (u' & ? & _ & Hd' & _).
    exists u'. by rewrite Hd'.
  - apply IH. intros t v Ht. apply Hs. set_solver.
Qed.

Lemma new_tm_repr tx_maxsize :
  exists e, new_nr_rlc_entity_tm tx_maxsize = Ok e /\ tm_repr e [] /\ tm_tx_maxsize e = tx_maxsize.
Proof.
  destruct (new_common_ok NR_RLC_TM) as (c & Hc & ? & Hh & He & Hb).
  unfold new_nr_rlc_entity_tm. rewrite Hc. cbn [mbind outcome_bind]. eexists. split; [done|].
  split; [|done]. constructor; cbn; rewrite ?Hh, ?Hb; try done. apply heap_inv_empty.
Qed.

Lemma tm_repr_list_nil e : tm_repr e [] -> tm_tx_list e = [].
Proof. intros H. by pose proof (Forall2_nil_inv_r _ _ (tm_repr_queue _ _ H)). Qed.

Lemma tm_generate_correct e q buffer size now :
  tm_repr e q -> size <= zlen buffer ->
  let '(d, q') := queue_get q size in
  exists e' buffer',
    nr_rlc_entity_tm_generate_pdu e buffer size now = Ok (zlen d, buffer', e') /\
    zblit buffer 0 d = Some buffer' /\ tm_repr e' q' /\
    tm_tx_maxsize e' = tm_tx_maxsize e.
Proof.
  intros H Hroom. unfold nr_rlc_entity_tm_generate_pdu, tm_generate_tx_pdu.
  assert (Hnop : zblit buffer 0 [] = Some buffer).
  { rewrite zblit_ok; [done|lia|]. change (zlen (@nil Z)) with 0. auto with qran. }
  destruct q as [|d q]; cbn [queue_get].
  { exists e, buffer. by rewrite (tm_repr_list_nil e H). }
  destruct H as [Hh Hq Hend Hsize Hbs Hc].
  destruct (Forall2_cons_inv_r _ _ _ _ Hq) as (s & l & (Hso & Hsz & u & Hu & Hd) & Hl & El).
  rewrite El, Hsz. rewrite El in Hh, Hend, Hq. destruct (zlen d >? size) eqn:E; zify_bool.
  { exists e, buffer. split_and!; try done. by constructor; rewrite ?El. }
  set (e1 := match l with [] => _ | _ => _ end).
  assert (He1 : tm_common e1 = tm_common e /\ tm_tx_list e1 = l /\ tm_tx_size e1 = tm_tx_size e /\
    end_ok l (tm_tx_end e1) /\ tm_tx_maxsize e1 = tm_tx_maxsize e).
  { unfold e1. destruct l; [by split_and!|]. split_and!; try done. }
  clearbody e1. destruct He1 as (Ec & Elist & Esz & Eend & Emax).
  unfold deref_sdu. rewrite Ec, Hu. cbn [of_option mbind outcome_bind].
  rewrite Hd, zslice_all. cbn [of_option mbind outcome_bind].
  pose proof (zlen_nonneg d). rewrite (zblit_ok buffer 0 d) by lia.
  cbn [of_option mbind outcome_bind].
  field_simpl. set (c := add_stat _ txpdu_bytes size).
  assert (Hcc : common_ok c /\ heap c = heap (tm_common e) /\ bstatus c = bstatus (tm_common e)).
  { unfold c, add_stat, common_ok. field_simpl. by rewrite Ec. }
  clearbody c. destruct Hcc as (Hokc & Ech & Ecb).
  destruct (account_tx_time_ok c s now) as (c2 & -> & Hc2 & Hb2 & _ & Hh2);
    [done|rewrite Ech, Hu; eauto|].
  cbn [mbind outcome_bind].
  unfold add_tx_size. field_simpl.
  rewrite Hh2, Ech. destruct (free_correct _ _ _ Hh) as (h' & r & v & -> & _ & Hh' & Hsame & _).
  cbn [mbind outcome_bind].
  rewrite zsum_cons in *. eexists _, _. split; [done|]. split; [done|]. split; [|done].
  constructor; field_simpl; rewrite ?Elist, ?Esz; try done; try lia.
  - by eapply tm_sdu_same.
  - rewrite Hb2, Ecb. lia.
Qed.

Lemma tm_recv_sdu_correct e q d sdu_id now :
  tm_repr e q -> zlen d <= NR_SDU_MAX ->
  exists e', nr_rlc_entity_tm_recv_sdu e d (zlen d) sdu_id now = Ok e' /\
    tm_repr e' (queue_put (tm_tx_maxsize e) q d) /\ tm_tx_maxsize e' = tm_tx_maxsize e.
Proof.
  intros [Hh Hq Hend Hsize Hbs Hc] Hmax. unfold nr_rlc_entity_tm_recv_sdu, queue_put.
  destruct (zlen d >? NR_SDU_MAX) eqn:E; zify_bool; [lia|]. cbn [negb require mbind outcome_bind].
  set (e1 := if _ && _ then _ else _).
  set (c1 := add_stat64 (add_stat (tm_common e) rxsdu_pkts 1) rxsdu_bytes (zlen d)) in *.
  assert (He1 : tm_common e1 = c1 /\ tm_tx_list e1 = tm_tx_list e /\ tm_tx_size e1 = tm_tx_size e
    /\ tm_tx_end e1 = tm_tx_end e /\ tm_tx_maxsize e1 = tm_tx_maxsize e).
  { unfold e1. by destruct (_ && _). }
  clearbody e1. destruct He1 as (Ec & El & Esz & Eend & Em).
  assert (Hc1 : heap c1 = heap (tm_common e) /\ bstatus c1 = bstatus (tm_common e)) by done.
  destruct Hc1 as [Hc1 Hc1b]. assert (Hok1 : common_ok c1) by done. clearbody c1.
  rewrite Esz, Em, Hsize. destruct (_ >? tm_tx_maxsize e) eqn:Efull.
  - eexists. split; [done|]. split; [|by field_simpl].
    constructor; unfold add_stat; field_simpl; rewrite ?El, ?Eend, ?Ec, ?Hc1, ?Hc1b, ?Esz; done.
  - field_simpl. rewrite Ec, Hc1.
    destruct (new_sdu_correct _ _ d (zlen d) sdu_id Hh eq_refl)
      as (h & s & u & -> & Hh1 & Hsame & Hu & _ & Hd & _ & _ & Hso & Hsz & _ & _ & Hfresh & _).
    cbn [mbind outcome_bind]. rewrite El, Eend.
    rewrite append_correct by (try done; apply Hh). cbn [mbind outcome_bind].
    field_simpl. rewrite Ec.
    assert (Hh2 : heap_inv h (tm_tx_list e ++ [s])).
    { by rewrite <- Permutation_cons_append. }
    set (c2 := add_tx_size _ (seg_size s)).
    destruct (stamp_arrival_ok c2 (tm_tx_list e ++ [s]) s now) as
      (c3 & -> & Hok3 & Hh3 & Hsame3 & _ & Hdata3 & _ & Hb3 & _);
      [done|done|unfold c2, add_tx_size; field_simpl; rewrite Hu; eauto|].
    cbn [mbind outcome_bind]. unfold c2, add_tx_size in Hh3, Hsame3, Hdata3, Hb3. field_simpl_all.
    eexists. split; [done|]. split; [|done].
    constructor; field_simpl; try done.
    + apply Forall2_app.
      * apply (tm_sdu_same h); [|by eapply tm_sdu_same].
        destruct Hsame3 as [? Hs3]. split; [done|]. intros t v Ht. apply Hs3. set_solver.
      * constructor; [|constructor]. split_and!; [done|done|].
        specialize (Hdata3 (seg_sdu s)). rewrite Hu in Hdata3.
        apply fmap_Some in Hdata3 as (w & Hw & Ew). exists w. split; [done|]. congruence.
    + apply end_ok_snoc.
    + rewrite zsum_app, zsum_cons, zsum_nil. lia.
    + rewrite Hb3. field_simpl. rewrite zsum_app, zsum_cons, zsum_nil, Hc1b, Hsz. lia.
Qed.

Lemma tm_clear_correct e q :
  tm_repr e q -> exists e', nr_rlc_entity_tm_reestablishment e = Ok e' /\ tm_repr e' [] /\
    heap_sdus (heap (tm_common e')) = ∅ /\ tm_tx_maxsize e' = tm_tx_maxsize e.
Proof.
  intros [Hh Hq Hend Hsize Hbs Hc]. unfold nr_rlc_entity_tm_reestablishment, tm_clear_entity.
  field_simpl. rewrite <- (app_nil_r (tm_tx_list e)) in Hh.
  destruct (free_list_correct _ _ _ Hh) as (h & -> & Hh' & _). cbn [mbind outcome_bind].
  eexists. split; [done|]. split_and!; [|field_simpl; by eapply heap_inv_nil_empty|done].
  constructor; field_simpl; done || constructor.
Qed.

Lemma tm_set_time_correct e q now : tm_repr e q -> tm_repr (nr_rlc_entity_tm_set_time e now) q.
Proof. by intros []. Qed.

Lemma tm_recv_pdu_correct e q d :
  tm_repr e q ->
  exists e', nr_rlc_entity_tm_recv_pdu e d (zlen d) = Ok e' /\ tm_repr e' q /\
    tm_tx_maxsize e' = tm_tx_maxsize e /\
    events (tm_common e') = events (tm_common e) ++ [DeliverSdu d].
Proof.
  intros []. unfold nr_rlc_entity_tm_recv_pdu. rewrite zslice_all.
  cbn [of_option mbind outcome_bind]. eexists. split; [done|].
  unfold add_stat64, add_stat, emit, common_ok. field_simpl. split_and!; done.
Qed.

(** ** Runs *)

Inductive tm_op : Type :=
| TmRecvSdu (d : list Z) (sdu_id now : Z)
| TmGenerate (buffer : list Z) (size now : Z)
| TmRecvPdu (d : list Z)
| TmSetTime (now : Z)
| TmReestablish.

(** One call, and the PDU it produced. *)
Definition tm_step (e : nr_rlc_entity_tm_t) (op : tm_op) : outcome (nr_rlc_entity_tm_t * list Z) :=
  match op with
  | TmRecvSdu d sdu_id now =>
      e ← nr_rlc_entity_tm_recv_sdu e d (zlen d) sdu_id now; Ok (e, [])
  | TmGenerate buffer size now =>
      '(n, buffer, e) ← nr_rlc_entity_tm_generate_pdu e buffer size now;
      Ok (e, take (Z.to_nat n) buffer)
  | TmRecvPdu d => e ← nr_rlc_entity_tm_recv_pdu e d (zlen d); Ok (e, [])
  | TmSetTime now => Ok (nr_rlc_entity_tm_set_time e now, [])
  | TmReestablish => e ← nr_rlc_entity_tm_reestablishment e; Ok (e, [])
  end.

Fixpoint tm_run (e : nr_rlc_entity_tm_t) (ops : list tm_op) : outcome (list (list Z)) :=
  match ops with
  | [] => Ok []
  | op :: ops => '(e, o) ← tm_step e op; os ← tm_run e ops; Ok (o :: os)
  end.

Definition tm_op_ok (op : tm_op) : Prop :=
  match op with
  | TmRecvSdu d _ _ => zlen d <= NR_SDU_MAX
  | TmGenerate buffer size _ => size <= zlen buffer
  | _ => True
  end.

(** The same calls on the specification. *)
Definition queue_step (maxsize : Z) (q : list (list Z)) (op : tm_op) : list (list Z) * list Z :=
  match op with
  | TmRecvSdu d _ _ => (queue_put maxsize q d, [])
  | TmGenerate _ size _ => let '(d, q) := queue_get q size in (q, d)
  | TmRecvPdu _ | TmSetTime _ => (q, [])
  | TmReestablish => ([], [])
  end.

Fixpoint queue_run (maxsize : Z) (q : list (list Z)) (ops : list tm_op) : list (list Z) :=
  match ops with
  | [] => []
  | op :: ops => let '(q, o) := queue_step maxsize q op in o :: queue_run maxsize q ops
  end.

Lemma tm_step_refines e q op :
  tm_repr e q -> tm_op_ok op ->
  exists e', tm_step e op = Ok (e', (queue_step (tm_tx_maxsize e) q op).2) /\
    tm_repr e' (queue_step (tm_tx_maxsize e) q op).1 /\ tm_tx_maxsize e' = tm_tx_maxsize e.
Proof.
  intros H Hok. destruct op as [d id now|buffer size now|d|now|]; cbn [tm_step queue_step].
  - destruct (tm_recv_sdu_correct e q d id now H Hok) as (e' & -> & ?). by exists e'.
  - pose proof (tm_generate_correct e q buffer size now H Hok) as Hg.
    destruct (queue_get q size) as [d q']. destruct Hg as (e' & b & -> & Hb & ?).
    exists e'. cbn [mbind outcome_bind fst snd]. split; [|done].
    apply zblit_prefix in Hb. rewrite Z.add_0_l in Hb. by rewrite Hb.
  - destruct (tm_recv_pdu_correct e q d H) as (e' & -> & ? & ? & _). by exists e'.
  - eexists. split; [done|]. split; [by apply tm_set_time_correct|done].
  - destruct (tm_clear_correct e q H) as (e' & -> & ? & _ & ?). by exists e'.
Qed.

Lemma tm_run_refines e q ops :
  tm_repr e q -> Forall tm_op_ok ops -> tm_run e ops = Ok (queue_run (tm_tx_maxsize e) q ops).
Proof.
  intros H Hops. revert e q H. induction Hops as [|op ops Hop _ IH]; intros e q H; [done|].
  cbn [tm_run queue_run]. destruct (tm_step_refines e q op H Hop) as (e' & -> & H' & Hm).
  destruct (queue_step _ q op) as [q' o]. cbn [mbind outcome_bind fst snd] in *.
  by rewrite (IH e' q'), Hm by done.
Qed.

(** C12: the transparent mode entity is a bounded first-in first-out queue of
    SDUs: whatever the sequence of calls, each PDU handed to the MAC is the one
    the queue specification gives, and no call faults. *)
Theorem tm_refines_queue tx_maxsize ops :
  Forall tm_op_ok ops ->
  (e ← new_nr_rlc_entity_tm tx_maxsize; tm_run e ops) = Ok (queue_run tx_maxsize [] ops).
Proof.
  intros Hops. destruct (new_tm_repr tx_maxsize) as (e & -> & H & <-).
  cbn [mbind outcome_bind]. by apply tm_run_refines.
Qed.

Lemma tm_refines_queue_witness :
  (e ← new_nr_rlc_entity_tm 3;
   tm_run e [TmRecvSdu [1; 2] 0 5; TmRecvSdu [3; 4] 1 5; TmGenerate [0; 0; 0] 1 6;
             TmGenerate [0; 0; 0] 3 7; TmRecvPdu [9]])
  = Ok [[]; []; []; [1; 2]; []].
Proof.
  refine (eq_trans (tm_refines_queue 3 _ _) _); [|vm_compute; reflexivity].
  repeat constructor; vm_compute; discriminate.
Defined.
