(* ===== verification/RlcUm.v ===== *)
(** * The unacknowledged mode RLC entity (src/openair2/LAYER2/nr_rlc/nr_rlc_entity_um.c)

    State and operations.  The facts are in RlcUmTx.v and RlcUmRx.v.  [buffer]
    arguments are the memory the pointer designates, [now] is what
    [time_average_now] returns.  The functions that scan the reception list are
    those of RlcReassembly.v. *)

From S2P Require Import Prelude TimeStat RlcPdu RlcSdu RlcReassembly RlcEntity.

(** ** State *)

Record nr_rlc_entity_um_t := mk_um {
  um_common : nr_rlc_entity_t;
  um_t_reassembly : Z;
  um_sn_field_length : Z;
  um_sn_modulus : Z;
  um_window_size : Z;
  um_rx_next_highest : Z;
  um_rx_next_reassembly : Z;
  um_rx_timer_trigger : Z;
  um_tx_next : Z;
  um_t_current : Z;
  um_t_log_buffer_full : Z;
  um_sdu_rejected : Z;
  um_t_reassembly_start : Z;     (* 0 means not active *)
  um_rx_list : list nr_rlc_pdu_t;
  um_rx_size : Z;
  um_rx_maxsize : Z;
  um_tx_list : list nr_rlc_sdu_segment_t;
  um_tx_end : option Z;
  um_tx_size : Z;
  um_tx_maxsize : Z;
}.
#[export] Instance eta_um : RecordEta nr_rlc_entity_um_t :=
  fld (fld (fld (fld (fld (fld (fld (fld (fld (fld (fld (fld (fld (fld (fld (fld (fld (fld (fld
    (fld (fun _ => mk_um) um_common) um_t_reassembly) um_sn_field_length) um_sn_modulus)
    um_window_size) um_rx_next_highest) um_rx_next_reassembly) um_rx_timer_trigger) um_tx_next)
    um_t_current) um_t_log_buffer_full) um_sdu_rejected) um_t_reassembly_start) um_rx_list)
    um_rx_size) um_rx_maxsize) um_tx_list) um_tx_end) um_tx_size) um_tx_maxsize.

(** [1 << sn_field_length], for the field lengths the code accepts. *)
Definition new_nr_rlc_entity_um (rx_maxsize tx_maxsize t_reassembly sn_field_length : Z)
    : outcome nr_rlc_entity_um_t :=
  _ ← require ((sn_field_length =? 6) || (sn_field_length =? 12)) Exit;
  let sn_modulus := Z.shiftl 1 sn_field_length in
  c ← new_common NR_RLC_UM;
  Ok (mk_um c t_reassembly sn_field_length sn_modulus (sn_modulus / 2) 0 0 0 0 0 0 0 0
        [] 0 rx_maxsize [] None 0 tx_maxsize).

Definition nr_rlc_entity_um_reconfigure (e : nr_rlc_entity_um_t) (t_reassembly : Z)
    (sn_field_length : option Z) : nr_rlc_entity_um_t :=
  let e := e <| um_t_reassembly := t_reassembly |> in
  match sn_field_length with
  | Some n => e <| um_sn_field_length := n |>
  | None => e
  end.

(** ** Header size *)

Definition um_pdu_header_size (sn_field_length : Z) (first last : bool) : Z :=
  1 + (if negb (first && last) && (sn_field_length =? 12) then 1 else 0)
    + (if negb first then 2 else 0).

Definition um_compute_pdu_header_size (e : nr_rlc_entity_um_t) (sdu : nr_rlc_sdu_segment_t) : Z :=
  um_pdu_header_size (um_sn_field_length e) (is_first sdu) (is_last sdu).

(** ** PDU RX functions *)

Definition um_modulus_rx (e : nr_rlc_entity_um_t) (a : Z) : Z :=
  let r := a - (um_rx_next_highest e - um_window_size e) in
  Z.rem (if r <? 0 then r + um_sn_modulus e else r) (um_sn_modulus e).

Definition um_sn_compare_rx (e : nr_rlc_entity_um_t) (a b : Z) : Z :=
  um_modulus_rx e a - um_modulus_rx e b.

Definition um_sdu_full (e : nr_rlc_entity_um_t) (sn : Z) : bool := sdu_full (um_rx_list e) sn.
Definition um_sdu_has_missing_bytes (e : nr_rlc_entity_um_t) (sn : Z) : bool :=
  sdu_has_missing_bytes (um_rx_list e) sn.

Definition um_reassemble_and_deliver (e : nr_rlc_entity_um_t) (sn : Z)
    : outcome nr_rlc_entity_um_t :=
  '(l, rx_size, sdu) ← reassemble_list true sn (um_rx_list e) (um_rx_size e);
  let e := e <| um_rx_list := l |> <| um_rx_size := rx_size |> in
  match sdu with
  | None => Ok e
  | Some sdu =>
      let c := emit (um_common e) (DeliverSdu sdu) in
      Ok (e <| um_common := add_stat64 (add_stat c txsdu_pkts 1) txsdu_bytes (zlen sdu) |>)
  end.

Definition um_set_rx_next_reassembly (e : nr_rlc_entity_um_t) (sn : Z)
    : outcome nr_rlc_entity_um_t :=
  sn ← first_not_delivered (um_sn_modulus e) (um_rx_list e) sn;
  Ok (e <| um_rx_next_reassembly := sn |>).

(** Dropped from the head of the list: out of the reassembly window. *)
Fixpoint um_drop_out_of_window (e : nr_rlc_entity_um_t) (l : list nr_rlc_pdu_t)
    : nr_rlc_entity_um_t :=
  match l with
  | [] => e <| um_rx_list := [] |>
  | p :: next =>
      if um_sn_compare_rx e (pdu_sn p) (um_rx_next_highest e) >=? 0 then
        let c := add_stat (add_stat (um_common e) rxpdu_dd_pkts 1) rxpdu_dd_bytes (pdu_size p) in
        let c := add_stat (add_stat c rxpdu_ow_pkts 1) rxpdu_ow_bytes (pdu_size p) in
        um_drop_out_of_window
          (e <| um_rx_size := um_rx_size e - pdu_size p |> <| um_common := c |>) next
      else e <| um_rx_list := l |>
  end.

(** The four statements on t_reassembly at the end of [reception_actions]. *)
Definition um_stop_t_reassembly (e : nr_rlc_entity_um_t) : nr_rlc_entity_um_t :=
  if negb (um_t_reassembly_start e =? 0)
     && ((um_sn_compare_rx e (um_rx_timer_trigger e) (um_rx_next_reassembly e) <=? 0)
         || (um_sn_compare_rx e (um_rx_timer_trigger e) (um_rx_next_highest e) >? 0)
         || ((um_rx_next_highest e =? Z.rem (um_rx_next_reassembly e + 1) (um_sn_modulus e))
             && negb (um_sdu_has_missing_bytes e (um_rx_next_reassembly e))))
  then e <| um_t_reassembly_start := 0 |>
  else e.

Definition um_start_t_reassembly (e : nr_rlc_entity_um_t) : nr_rlc_entity_um_t :=
  if (um_t_reassembly_start e =? 0)
     && ((um_sn_compare_rx e (um_rx_next_highest e)
            (Z.rem (um_rx_next_reassembly e + 1) (um_sn_modulus e)) >? 0)
         || ((um_rx_next_highest e =? Z.rem (um_rx_next_reassembly e + 1) (um_sn_modulus e))
             && um_sdu_has_missing_bytes e (um_rx_next_reassembly e)))
  then e <| um_t_reassembly_start := um_t_current e |>
         <| um_rx_timer_trigger := um_rx_next_highest e |>
  else e.

Definition um_update_rx (e : nr_rlc_entity_um_t) (x : Z) : outcome nr_rlc_entity_um_t :=
  if um_sdu_full e x then
    (* SDU full *)
    e ← um_reassemble_and_deliver e x;
    if x =? um_rx_next_reassembly e
    then um_set_rx_next_reassembly e (um_rx_next_reassembly e)
    else Ok e
  else if um_sn_compare_rx e x (um_rx_next_highest e) >=? 0 then
    (* x is not in the reassembly window *)
    let e := e <| um_rx_next_highest := Z.rem (x + 1) (um_sn_modulus e) |> in
    let e := um_drop_out_of_window e (um_rx_list e) in
    if um_sn_compare_rx e (um_rx_next_reassembly e) (um_rx_next_highest e) >=? 0 then
      um_set_rx_next_reassembly e
        (Z.rem (um_rx_next_highest e - um_window_size e + um_sn_modulus e) (um_sn_modulus e))
    else Ok e
  else Ok e.

Definition um_reception_actions (e : nr_rlc_entity_um_t) (x : Z) : outcome nr_rlc_entity_um_t :=
  e ← um_update_rx e x;
  Ok (um_start_t_reassembly (um_stop_t_reassembly e)).

Definition um_discard_pdu (e : nr_rlc_entity_um_t) (size : Z) : nr_rlc_entity_um_t :=
  e <| um_common := add_stat (add_stat (um_common e) rxpdu_dd_pkts 1) rxpdu_dd_bytes size |>.

(** What follows the decoding of the header; [byte] is [decoder.byte]. *)
Definition um_recv_segment (e : nr_rlc_entity_um_t) (buffer : list Z) (size sn so : Z)
    (first last : bool) (byte : Z) : outcome nr_rlc_entity_um_t :=
  let data_size := size - byte in
  if data_size <=? 0 then Ok (um_discard_pdu e size)
  else if um_rx_size e + data_size >? um_rx_maxsize e then Ok (um_discard_pdu e size)
  else if um_sn_compare_rx e sn (um_rx_next_reassembly e) <? 0 then Ok (um_discard_pdu e size)
  else
    (* put in pdu reception list *)
    let e := e <| um_rx_size := um_rx_size e + data_size |> in
    data ← of_option OutOfBounds (zslice buffer (size - data_size) data_size);
    let pdu := nr_rlc_new_pdu sn so first last data data_size in
    let e := e <| um_rx_list := nr_rlc_pdu_list_add (um_sn_compare_rx e) (um_rx_list e) pdu |> in
    um_reception_actions e (pdu_sn pdu).

Definition nr_rlc_entity_um_recv_pdu (e : nr_rlc_entity_um_t) (buffer : list Z) (size : Z)
    : outcome nr_rlc_entity_um_t :=
  let e := e <| um_common := add_stat (add_stat (um_common e) rxpdu_pkts 1) rxpdu_bytes size |> in
  let decoder := nr_rlc_pdu_decoder_init buffer size in
  '(si, decoder) ← nr_rlc_pdu_decoder_get_bits decoder 2;
  if dec_error decoder then Ok (um_discard_pdu e size) else
  let first := Z.land si 2 =? 0 in
  let last := Z.land si 1 =? 0 in
  if first && last then
    if size <? 2 then Ok (um_discard_pdu e size) else
    sdu ← of_option OutOfBounds (zslice buffer 1 (size - 1));
    let c := emit (um_common e) (DeliverSdu sdu) in
    Ok (e <| um_common := add_stat64 (add_stat c txsdu_pkts 1) txsdu_bytes (size - 1) |>)
  else
    '(_, decoder) ← (if um_sn_field_length e =? 12
                     then nr_rlc_pdu_decoder_get_bits decoder 2 else Ok (0, decoder));
    if dec_error decoder then Ok (um_discard_pdu e size) else
    '(sn, decoder) ← nr_rlc_pdu_decoder_get_bits decoder (um_sn_field_length e);
    if dec_error decoder then Ok (um_discard_pdu e size) else
    if negb first then
      '(so, decoder) ← nr_rlc_pdu_decoder_get_bits decoder 16;
      if dec_error decoder then Ok (um_discard_pdu e size) else
      if so =? 0 then Ok (um_discard_pdu e size) else
      um_recv_segment e buffer size sn so first last (dec_byte decoder)
    else um_recv_segment e buffer size sn 0 first last (dec_byte decoder).

(** ** TX functions *)

Definition um_header_fields (sn_field_length sn : Z) (sdu : nr_rlc_sdu_segment_t) : list (Z * Z) :=
  [(1 - b2z (is_first sdu), 1); (1 - b2z (is_last sdu), 1)]
  ++ (if is_first sdu && is_last sdu then [(0, 6)]
      else (if sn_field_length =? 12 then [(0, 2)] else []) ++ [(sn, sn_field_length)])
  ++ (if negb (is_first sdu) then [(seg_so sdu, 16)] else []).

(** Returns the PDU size and the buffer. *)
Definition um_serialize_sdu (e : nr_rlc_entity_um_t) (sdu : nr_rlc_sdu_segment_t)
    (buffer : list Z) (bufsize : Z) : outcome (Z * list Z) :=
  u ← deref_sdu (heap (um_common e)) sdu;
  encoder ← put_fields (nr_rlc_pdu_encoder_init buffer bufsize)
              (um_header_fields (um_sn_field_length e) (sdu_sn u) sdu);
  data ← of_option OutOfBounds (zslice (sdu_data u) (seg_so sdu) (seg_size sdu));
  buffer ← of_option OutOfBounds (zblit (enc_buffer encoder) (enc_byte encoder) data);
  Ok (enc_byte encoder + seg_size sdu, buffer).

(** Returns the entity, the segment resized, and the new segment unless there is
    no room for it.  The reference is counted in any case. *)
Definition um_resegment (e : nr_rlc_entity_um_t) (sdu : nr_rlc_sdu_segment_t) (pdu_size : Z)
    : outcome (nr_rlc_entity_um_t * nr_rlc_sdu_segment_t * option nr_rlc_sdu_segment_t) :=
  let c := um_common e in
  u ← deref_sdu (heap c) sdu;
  let h := set_sdu (heap c) sdu (u <| ref_count := ref_count u + 1 |>) in
  let pdu_header_size := um_compute_pdu_header_size e (sdu <| is_last := false |>) in
  if pdu_header_size + 1 >? pdu_size then
    Ok (e <| um_common := c <| heap := h |> |>, sdu, None)
  else
    let a := heap_next h in
    let over_size := pdu_header_size + seg_size sdu - pdu_size in
    let sdu' := sdu <| seg_size := seg_size sdu - over_size |> <| is_last := false |> in
    let next := sdu <| seg_addr := a |> <| seg_size := over_size |>
                    <| seg_so := seg_so sdu + seg_size sdu' |> <| is_first := false |> in
    let c := add_stat (c <| heap := h <| heap_next := a + 1 |> |>) txpdu_segmented 1 in
    Ok (e <| um_common := c |>, sdu', Some next).

(** The PDU of [sdu], which is out of the list. *)
Definition um_send (e : nr_rlc_entity_um_t) (sdu : nr_rlc_sdu_segment_t) (buffer : list Z)
    (size now : Z) : outcome (Z * list Z * nr_rlc_entity_um_t) :=
  (* update tx_next if the SDU is an SDU segment and is the last *)
  let e := if negb (is_first sdu) && is_last sdu
           then e <| um_tx_next := Z.rem (um_tx_next e + 1) (um_sn_modulus e) |> else e in
  '(ret, buffer) ← um_serialize_sdu e sdu buffer size;
  let e := e <| um_tx_size := um_tx_size e - seg_size sdu |> in
  let c := add_stat (add_stat (um_common e) txpdu_pkts 1) txpdu_bytes size in
  c ← account_tx_time c sdu now;
  '(h, _) ← nr_rlc_free_sdu_segment (heap c) sdu;
  Ok (ret, buffer, e <| um_common := c <| heap := h |> |>).

(** The head leaves the TX list, whose rest is [next]. *)
Definition um_unlink_head (e : nr_rlc_entity_um_t) (next : list nr_rlc_sdu_segment_t)
    : nr_rlc_entity_um_t :=
  let e := e <| um_tx_list := next |> in
  match next with [] => e <| um_tx_end := None |> | _ => e end.

(** The second segment goes back at the head of the TX list. *)
Definition um_put_back (e : nr_rlc_entity_um_t) (next_sdu : nr_rlc_sdu_segment_t)
    : nr_rlc_entity_um_t :=
  let e := e <| um_tx_list := next_sdu :: um_tx_list e |> in
  match um_tx_end e with
  | None => e <| um_tx_end := Some (seg_addr next_sdu) |>
  | Some _ => e
  end.

Definition um_generate_tx_pdu (e : nr_rlc_entity_um_t) (buffer : list Z) (size now : Z)
    : outcome (Z * list Z * nr_rlc_entity_um_t) :=
  match um_tx_list e with
  | [] => Ok (0, buffer, e)
  | sdu :: next =>
      let pdu_header_size := um_compute_pdu_header_size e sdu in
      (* not enough room for at least one byte of data? do nothing *)
      if pdu_header_size + 1 >? size then Ok (0, buffer, e) else
      let e := um_unlink_head e next in
      (* assign SN to SDU *)
      u ← deref_sdu (heap (um_common e)) sdu;
      let c := um_common e in
      let c := c <| heap := set_sdu (heap c) sdu (u <| sdu_sn := um_tx_next e |>) |> in
      let pdu_size := pdu_header_size + seg_size sdu in
      (* update buffer status *)
      let e := e <| um_common := add_tx_size c (- pdu_size) |> in
      if pdu_size >? size then
        '(e, sdu, next_sdu) ← um_resegment e sdu size;
        match next_sdu with
        | None => Ok (0, buffer, e)
        | Some next_sdu =>
            let e := um_put_back e next_sdu in
            let c := add_stat (um_common e) txpdu_segmented 1 in
            let c := add_tx_size c (um_compute_pdu_header_size e next_sdu + seg_size next_sdu) in
            um_send (e <| um_common := c |>) sdu buffer size now
        end
      else um_send e sdu buffer size now
  end.

Definition nr_rlc_entity_um_buffer_status (e : nr_rlc_entity_um_t) (maxsize : Z)
    : nr_rlc_entity_buffer_status_t :=
  mk_bstatus 0 (bs_tx_size (bstatus (um_common e))) 0.

Definition nr_rlc_entity_um_generate_pdu := um_generate_tx_pdu.

(** ** SDU RX functions *)

Definition nr_rlc_entity_um_recv_sdu (e : nr_rlc_entity_um_t) (buffer : list Z)
    (size sdu_id now : Z) : outcome nr_rlc_entity_um_t :=
  let e := e <| um_common := add_stat64 (add_stat (um_common e) rxsdu_pkts 1) rxsdu_bytes size |> in
  _ ← require (negb (size >? NR_SDU_MAX)) Exit;
  (* log SDUs rejected, at most once per second *)
  let e := if negb (um_sdu_rejected e =? 0)
              && (um_t_current e >? u64 (um_t_log_buffer_full e + 1000))
           then e <| um_sdu_rejected := 0 |> <| um_t_log_buffer_full := um_t_current e |>
           else e in
  if um_tx_size e + size >? um_tx_maxsize e then
    let e := e <| um_sdu_rejected := um_sdu_rejected e + 1 |> in
    Ok (e <| um_common := add_stat (add_stat (um_common e) rxsdu_dd_pkts 1) rxsdu_dd_bytes size |>)
  else
    let e := e <| um_tx_size := um_tx_size e + size |> in
    '(h, sdu) ← nr_rlc_new_sdu (heap (um_common e)) buffer size sdu_id;
    '(l, tx_end) ← nr_rlc_sdu_segment_list_append (um_tx_list e) (um_tx_end e) sdu;
    let e := e <| um_tx_list := l |> <| um_tx_end := tx_end |> in
    (* update buffer status *)
    let c := add_tx_size ((um_common e) <| heap := h |>)
               (um_compute_pdu_header_size e sdu + seg_size sdu) in
    c ← stamp_arrival c sdu now;
    Ok (e <| um_common := c |>).

(** ** Timers *)

(** Dropped from the head of the list: below [rx_next_reassembly]. *)
Fixpoint um_drop_below (e : nr_rlc_entity_um_t) (l : list nr_rlc_pdu_t) : nr_rlc_entity_um_t :=
  match l with
  | [] => e <| um_rx_list := [] |>
  | p :: next =>
      if um_sn_compare_rx e (pdu_sn p) (um_rx_next_reassembly e) <? 0 then
        let c := add_stat (add_stat (um_common e) rxpdu_dd_pkts 1) rxpdu_dd_bytes (pdu_size p) in
        um_drop_below (e <| um_common := c |>) next
      else e <| um_rx_list := l |>
  end.

Definition um_check_t_reassembly (e : nr_rlc_entity_um_t) : outcome nr_rlc_entity_um_t :=
  (* is t_reassembly running and if yes has it expired? *)
  if (um_t_reassembly_start e =? 0)
     || (um_t_current e <=? u64 (um_t_reassembly_start e + um_t_reassembly e))
  then Ok e
  else
    (* stop timer *)
    let e := e <| um_t_reassembly_start := 0 |> in
    e ← um_set_rx_next_reassembly e (um_rx_timer_trigger e);
    (* discard all segments < rx_next_reassembly *)
    let e := um_drop_below e (um_rx_list e) in
    if (um_sn_compare_rx e (um_rx_next_highest e)
          (Z.rem (um_rx_next_reassembly e + 1) (um_sn_modulus e)) >? 0)
       || ((um_rx_next_highest e =? um_rx_next_reassembly e + 1)
           && um_sdu_has_missing_bytes e (um_rx_next_reassembly e))
    then Ok (e <| um_t_reassembly_start := um_t_current e |>
               <| um_rx_timer_trigger := um_rx_next_highest e |>)
    else Ok e.

Definition nr_rlc_entity_um_set_time (e : nr_rlc_entity_um_t) (now : Z)
    : outcome nr_rlc_entity_um_t :=
  um_check_t_reassembly (e <| um_t_current := now |>).

(** ** Discard, re-establishment, delete *)

Definition nr_rlc_entity_um_discard_sdu (e : nr_rlc_entity_um_t) (sdu_id : Z)
    : outcome nr_rlc_entity_um_t :=
  found ← find_upper_layer_id (heap (um_common e)) sdu_id [] (um_tx_list e);
  match found with
  | None => Ok e
  | Some (before, cur, next) =>
      (* some bytes already 'PDU-ized': nothing to do *)
      if negb (is_first cur) || negb (is_last cur) then Ok e else
      let e := e <| um_tx_list := before ++ next |> in
      let e := if decide (um_tx_end e = Some (seg_addr cur))
               then e <| um_tx_end := seg_addr <$> last before |> else e in
      (* update buffer status *)
      let c := add_tx_size (um_common e) (- (um_compute_pdu_header_size e cur + seg_size cur)) in
      '(h, _) ← nr_rlc_free_sdu_segment (heap c) cur;
      Ok (e <| um_common := c <| heap := h |> |>)
  end.

Definition um_clear_entity (e : nr_rlc_entity_um_t) : outcome nr_rlc_entity_um_t :=
  let e := e <| um_rx_next_highest := 0 |> <| um_rx_next_reassembly := 0 |>
             <| um_rx_timer_trigger := 0 |> <| um_tx_next := 0 |> <| um_t_current := 0 |>
             <| um_t_log_buffer_full := 0 |> <| um_sdu_rejected := 0 |>
             <| um_t_reassembly_start := 0 |> <| um_rx_list := [] |> <| um_rx_size := 0 |> in
  h ← nr_rlc_free_sdu_segment_list (heap (um_common e)) (um_tx_list e);
  let e := e <| um_tx_list := [] |> <| um_tx_end := None |> <| um_tx_size := 0 |> in
  let c := (um_common e) <| heap := h |> in
  Ok (e <| um_common := c <| bstatus := (bstatus c) <| bs_tx_size := 0 |> |> |>).

Definition nr_rlc_entity_um_reestablishment := um_clear_entity.

Definition nr_rlc_entity_um_delete (e : nr_rlc_entity_um_t) : outcome sdu_heap :=
  e ← um_clear_entity e;
  Ok (heap (um_common e)).

Definition nr_rlc_entity_um_available_tx_space (e : nr_rlc_entity_um_t) : Z :=
  um_tx_maxsize e - um_tx_size e.
