(* ===== verification/RlcUmTx.v ===== *)
(** * The transmitter of the UM entity

    [um_tx_inv] ties the transmit list, the SDUs, the buffer occupancy and the
    buffer status together; every operation keeps it and none faults. *)

From S2P Require Import Prelude TimeStat RlcPdu RlcSdu RlcReassembly RlcEntity RlcUm.

(** ** Invariant *)

Definition um_seg_bytes (sn_field_length : Z) (s : nr_rlc_sdu_segment_t) : Z :=
  um_pdu_header_size sn_field_length (is_first s) (is_last s) + seg_size s.

Record um_config_ok (e : nr_rlc_entity_um_t) : Prop := {
  um_cfg_len : um_sn_field_length e = 6 \/ um_sn_field_length e = 12;
  um_cfg_modulus : um_sn_modulus e = 2 ^ um_sn_field_length e;
  um_cfg_window : um_sn_modulus e = 2 * um_window_size e;
}.

Record um_tx_inv (e : nr_rlc_entity_um_t) : Prop := {
  um_tx_heap : heap_inv (heap (um_common e)) (um_tx_list e);
  um_tx_max : map_Forall (fun _ u => sdu_size u <= NR_SDU_MAX) (heap_sdus (heap (um_common e)));
  um_tx_end_ok : end_ok (um_tx_list e) (um_tx_end e);
  um_tx_bytes : zsum seg_size (um_tx_list e) <= um_tx_size e;
  um_tx_bstatus : bs_tx_size (bstatus (um_common e))
                  = zsum (um_seg_bytes (um_sn_field_length e)) (um_tx_list e);
  um_tx_common : common_ok (um_common e);
  um_tx_next_ok : 0 <= um_tx_next e < um_sn_modulus e;
}.

(** What the transmitter leaves alone. *)
Definition um_same_rx (e e' : nr_rlc_entity_um_t) : Prop :=
  um_sn_field_length e' = um_sn_field_length e /\ um_sn_modulus e' = um_sn_modulus e /\
  um_window_size e' = um_window_size e /\ um_rx_list e' = um_rx_list e /\
  um_rx_size e' = um_rx_size e /\ um_rx_maxsize e' = um_rx_maxsize e /\
  um_rx_next_highest e' = um_rx_next_highest e /\
  um_rx_next_reassembly e' = um_rx_next_reassembly e /\
  um_rx_timer_trigger e' = um_rx_timer_trigger e /\
  um_t_reassembly_start e' = um_t_reassembly_start e /\
  events (um_common e') = events (um_common e).

(** The length of a header is that of its fields. *)
Lemma um_header_fields_size len sn s :
  len = 6 \/ len = 12 ->
  fields_ok (um_header_fields len sn s) /\
  zsum snd (um_header_fields len sn s) = 8 * um_pdu_header_size len (is_first s) (is_last s).
Proof.
  unfold um_header_fields, um_pdu_header_size, fields_ok.
  intros [-> | ->]; destruct (is_first s), (is_last s); cbn; split; try done;
    repeat constructor; cbn; lia.
Qed.

Lemma um_header_size_bounds len f l : 1 <= um_pdu_header_size len f l <= 4.
Proof. unfold um_pdu_header_size. destruct (negb (f && l) && _), f; cbn; lia. Qed.

(** The PDU of a segment: header, then the bytes of the segment. *)
Lemma um_serialize_correct e s u buffer bufsize :
  um_sn_field_length e = 6 \/ um_sn_field_length e = 12 ->
  heap_sdus (heap (um_common e)) !! seg_sdu s = Some u ->
  seg_range s u -> zlen (sdu_data u) = sdu_size u ->
  bytes_ok buffer -> bufsize <= zlen buffer ->
  um_seg_bytes (um_sn_field_length e) s <= bufsize ->
  exists buffer' hdr data,
    um_serialize_sdu e s buffer bufsize = Ok (um_seg_bytes (um_sn_field_length e) s, buffer') /\
    zlen buffer' = zlen buffer /\
    zslice (sdu_data u) (seg_so s) (seg_size s) = Some data /\
    zlen hdr = um_compute_pdu_header_size e s /\
    buffer_bits hdr = fields_bits (um_header_fields (um_sn_field_length e) (sdu_sn u) s) /\
    take (Z.to_nat (um_seg_bytes (um_sn_field_length e) s)) buffer' = hdr ++ data.
Proof.
  intros Hlen Hu (Hso & Hsz & Hend & _) Hdata Hb Hroom Hfit.
  unfold um_serialize_sdu, deref_sdu. rewrite Hu. cbn [of_option mbind outcome_bind].
  destruct (um_header_fields_size (um_sn_field_length e) (sdu_sn u) s Hlen) as [Hok Hsum].
  unfold seg_end in Hend.
  destruct (zslice (sdu_data u) (seg_so s) (seg_size s)) as [data|] eqn:Hslice.
  2: { rewrite zslice_ok in Hslice by lia. done. }
  pose proof (zslice_len _ _ _ _ Hslice) as Hdl. unfold um_seg_bytes in *.
  destruct (put_header_data buffer bufsize _ _ data Hb Hroom Hok Hsum)
    as (enc & buffer' & hdr & -> & Hbyte & Hblit & Hl & Hh & Hbits & Htake); [lia|].
  cbn [mbind outcome_bind of_option]. rewrite Hbyte, Hblit. cbn [mbind outcome_bind of_option].
  rewrite Hdl in Htake. by exists buffer', hdr, data.
Qed.

(** ** Generation of a PDU *)

(** Cutting a segment so that its PDU fits in [size] bytes. *)
Lemma um_resegment_correct e s l u size :
  heap_inv (heap (um_common e)) (s :: l) -> heap_sdus (heap (um_common e)) !! seg_sdu s = Some u ->
  let n := size - um_pdu_header_size (um_sn_field_length e) (is_first s) false in
  0 < n < seg_size s ->
  let h := (set_sdu (heap (um_common e)) s (u <| ref_count := ref_count u + 1 |>))
             <| heap_next := heap_next (heap (um_common e)) + 1 |> in
  um_resegment e s size =
    Ok (e <| um_common := add_stat ((um_common e) <| heap := h |>) txpdu_segmented 1 |>,
        seg_head s n, Some (seg_tail s (heap_next (heap (um_common e))) n)).
Proof.
  intros Hinv Hu n Hn h. unfold um_resegment, deref_sdu, um_compute_pdu_header_size.
  rewrite Hu. cbn [of_option mbind outcome_bind]. field_simpl.
  destruct (_ >? size) eqn:E; zify_bool; [lia|].
  replace (um_pdu_header_size _ _ false + seg_size s - size) with (seg_size s - n) by lia.
  by replace (seg_size s - (seg_size s - n)) with n by lia.
Qed.

(** [pdu] carries the segment [s1] of [u], with the sequence number [sn]. *)
Definition um_carries (len sn : Z) (s1 : nr_rlc_sdu_segment_t) (u : nr_rlc_sdu_t) (pdu : list Z)
    : Prop :=
  exists hdr data, pdu = hdr ++ data /\
    zlen hdr = um_pdu_header_size len (is_first s1) (is_last s1) /\
    buffer_bits hdr = fields_bits (um_header_fields len sn s1) /\
    zslice (sdu_data u) (seg_so s1) (seg_size s1) = Some data.

Definition um_next_sn (e : nr_rlc_entity_um_t) (s : nr_rlc_sdu_segment_t) : Z :=
  if negb (is_first s) && is_last s then Z.rem (um_tx_next e + 1) (um_sn_modulus e)
  else um_tx_next e.

Lemma um_next_sn_ok e s :
  0 <= um_tx_next e < um_sn_modulus e -> 0 <= um_next_sn e s < um_sn_modulus e.
Proof.
  unfold um_next_sn. intros H. destruct (_ && _); [|done].
  rewrite Z.rem_mod_nonneg by lia. apply Z.mod_pos_bound. lia.
Qed.

Lemma um_send_correct e s u buffer size now :
  um_config_ok e ->
  heap_inv (heap (um_common e)) (s :: um_tx_list e) ->
  heap_sdus (heap (um_common e)) !! seg_sdu s = Some u ->
  map_Forall (fun _ u => sdu_size u <= NR_SDU_MAX) (heap_sdus (heap (um_common e))) ->
  end_ok (um_tx_list e) (um_tx_end e) ->
  zsum seg_size (s :: um_tx_list e) <= um_tx_size e ->
  bs_tx_size (bstatus (um_common e)) = zsum (um_seg_bytes (um_sn_field_length e)) (um_tx_list e) ->
  common_ok (um_common e) -> 0 <= um_tx_next e < um_sn_modulus e ->
  bytes_ok buffer -> size <= zlen buffer -> um_seg_bytes (um_sn_field_length e) s <= size ->
  exists buffer' e',
    um_send e s buffer size now = Ok (um_seg_bytes (um_sn_field_length e) s, buffer', e') /\
    um_tx_inv e' /\ um_tx_list e' = um_tx_list e /\ um_same_rx e e' /\
    um_tx_next e' = um_next_sn e s /\
    um_carries (um_sn_field_length e) (sdu_sn u) s u
      (take (Z.to_nat (um_seg_bytes (um_sn_field_length e) s)) buffer').
Proof.
  intros [Hlen Hmod Hwin] Hh Hu Hmax Hend Hsize Hbs Hc Hnext Hb Hroom Hfit.
  unfold um_send. set (e1 := if _ && _ then _ else _).
  assert (He1 : e1 = e <| um_tx_next := um_next_sn e s |>).
  { unfold e1, um_next_sn. destruct (_ && _); [done|]. by destruct e. }
  clearbody e1. subst e1.
  destruct (heap_inv_deref _ _ _ Hh) as (u' & _ & Hu' & Hrange & Hwf). simplify_eq.
  destruct (um_serialize_correct (e <| um_tx_next := um_next_sn e s |>) s u buffer size)
    as (buffer' & hdr & data & -> & Hl & Hslice & Hhl & Hbits & Htake);
    [done|done|done|apply Hwf|done|done|done|].
  cbn [mbind outcome_bind]. field_simpl.
  set (c := add_stat _ txpdu_bytes size).
  assert (Hcc : common_ok c /\ heap c = heap (um_common e) /\ bstatus c = bstatus (um_common e)
    /\ events c = events (um_common e)) by done.
  clearbody c. destruct Hcc as (Hokc & Ech & Ecb & Ece).
  destruct (account_tx_time_ok c s now) as (c2 & -> & Hc2 & Hb2 & Hev2 & Hh2);
    [done|rewrite Ech, Hu; eauto|].
  cbn [mbind outcome_bind]. rewrite Hh2, Ech.
  destruct (free_correct _ _ _ Hh) as (h' & r & v & Hfree & _ & Hh' & _). rewrite Hfree.
  cbn [mbind outcome_bind]. rewrite zsum_cons in Hsize.
  eexists buffer', _. split; [done|]. field_simpl. split_and!; try done.
  - constructor; field_simpl; try done.
    + eapply free_map_Forall; [exact Hfree|done|done].
    + lia.
    + by rewrite Hb2, Ecb.
    + by apply um_next_sn_ok.
  - unfold um_same_rx. field_simpl. split_and!; try done. by rewrite Hev2, Ece.
  - exists hdr, data. by split_and!.
Qed.

(** The first PDU of the list [s :: l] is [pdu]; the entity becomes [e']. *)
Definition um_generated (e : nr_rlc_entity_um_t) (s : nr_rlc_sdu_segment_t)
    (l : list nr_rlc_sdu_segment_t) (size : Z) (pdu : list Z) (e' : nr_rlc_entity_um_t) : Prop :=
  exists u s1, heap_sdus (heap (um_common e)) !! seg_sdu s = Some u /\
    seg_sent s s1 l (um_tx_list e') /\ seg_range s1 u /\
    zlen pdu = um_seg_bytes (um_sn_field_length e) s1 /\ zlen pdu <= size /\
    um_carries (um_sn_field_length e) (um_tx_next e) s1 u pdu /\
    um_tx_next e' = um_next_sn e s1.

Lemma um_seg_nil_size s u : seg_range s u -> 0 <= seg_size s.
Proof. by intros (_ & ? & _). Qed.

(** The entity without its first segment, and with one more. *)
Lemma um_unlink_head_spec e s l :
  end_ok (s :: l) (um_tx_end e) ->
  let e' := um_unlink_head e l in
  e' = e <| um_tx_list := l |> <| um_tx_end := um_tx_end e' |> /\ end_ok l (um_tx_end e').
Proof.
  intros H. unfold um_unlink_head. destruct l as [|t l]; [done|]. split; [by destruct e|].
  unfold end_ok in *. by rewrite last_cons_cons in H.
Qed.

Lemma um_put_back_spec e s :
  end_ok (um_tx_list e) (um_tx_end e) ->
  let e' := um_put_back e s in
  e' = e <| um_tx_list := s :: um_tx_list e |> <| um_tx_end := um_tx_end e' |> /\
  end_ok (s :: um_tx_list e) (um_tx_end e').
Proof.
  unfold um_put_back, end_ok. change (um_tx_end (e <| um_tx_list := _ |>)) with (um_tx_end e).
  intros H. destruct (um_tx_end e) as [a|] eqn:Ee.
  - split; [by destruct e; cbn in Ee; subst|]. change (um_tx_end (e <| um_tx_list := _ |>)) with (um_tx_end e).
    destruct (um_tx_list e); [done|]. by rewrite Ee.
  - split; [done|]. destruct (um_tx_list e); [done|].
    symmetry in H. by apply fmap_None, last_None in H.
Qed.

(** The head of the list has left it, with its sequence number set. *)
Record um_popped (e e1 : nr_rlc_entity_um_t) (s : nr_rlc_sdu_segment_t) (u : nr_rlc_sdu_t)
    (l : list nr_rlc_sdu_segment_t) : Prop := {
  pop_heap : heap_inv (heap (um_common e1)) (s :: l);
  pop_sdu : heap_sdus (heap (um_common e1)) !! seg_sdu s = Some u;
  pop_sn : sdu_sn u = um_tx_next e;
  pop_range : seg_range s u;
  pop_max : map_Forall (fun _ u => sdu_size u <= NR_SDU_MAX) (heap_sdus (heap (um_common e1)));
  pop_list : um_tx_list e1 = l;
  pop_end : end_ok l (um_tx_end e1);
  pop_bytes : zsum seg_size (s :: l) <= um_tx_size e1;
  pop_bstatus : bs_tx_size (bstatus (um_common e1)) = zsum (um_seg_bytes (um_sn_field_length e)) l;
  pop_common : common_ok (um_common e1);
  pop_next : um_tx_next e1 = um_tx_next e;
  pop_same : um_same_rx e e1;
}.

Lemma um_pop_correct e s l :
  um_tx_inv e -> um_tx_list e = s :: l ->
  exists u0, deref_sdu (heap (um_common (um_unlink_head e l))) s = Ok u0 /\
    heap_sdus (heap (um_common e)) !! seg_sdu s = Some u0 /\
    let u := u0 <| sdu_sn := um_tx_next (um_unlink_head e l) |> in
    let c := (um_common (um_unlink_head e l)) <| heap :=
               set_sdu (heap (um_common (um_unlink_head e l))) s u |> in
    um_popped e ((um_unlink_head e l) <| um_common :=
      add_tx_size c (- um_seg_bytes (um_sn_field_length e) s) |>) s u l.
Proof.
  intros [Hh Hmax Hend Hbytes Hbs Hc Hnext] El. rewrite El in Hh, Hend, Hbytes, Hbs.
  destruct (um_unlink_head_spec e s l Hend) as [-> Hend1]. field_simpl.
  destruct (heap_inv_deref _ _ _ Hh) as (u & Hd & Hu & Hrange & Hwf).
  exists u. split; [done|]. split; [done|]. cbv zeta. rewrite zsum_cons in Hbs.
  constructor; unfold add_tx_size, um_same_rx; field_simpl; try done.
  - by eapply heap_inv_set.
  - unfold set_sdu. field_simpl. by rewrite lookup_insert_eq.
  - unfold set_sdu. field_simpl. apply map_Forall_insert_2; [|done]. exact (Hmax _ _ Hu).
  - lia.
Qed.

Lemma um_same_rx_trans e1 e2 e3 : um_same_rx e1 e2 -> um_same_rx e2 e3 -> um_same_rx e1 e3.
Proof. unfold um_same_rx. intuition congruence. Qed.

Lemma um_same_rx_config e e' : um_same_rx e e' -> um_config_ok e -> um_config_ok e'.
Proof. intros (Hl & Hm & Hw & _) [A B C]. constructor; congruence. Qed.

Lemma um_next_sn_same e e1 s :
  um_tx_next e1 = um_tx_next e -> um_same_rx e e1 -> um_next_sn e1 s = um_next_sn e s.
Proof. unfold um_next_sn. intros -> (_ & -> & _). done. Qed.

(** The whole segment is sent. *)
Lemma um_send_whole e e1 s u l buffer size now :
  um_config_ok e -> um_popped e e1 s u l -> 0 <= um_tx_next e < um_sn_modulus e ->
  bytes_ok buffer -> size <= zlen buffer -> um_seg_bytes (um_sn_field_length e) s <= size ->
  exists buffer' e',
    um_send e1 s buffer size now = Ok (um_seg_bytes (um_sn_field_length e) s, buffer', e') /\
    um_tx_inv e' /\ um_same_rx e e' /\ um_tx_list e' = l /\ um_tx_next e' = um_next_sn e s /\
    um_carries (um_sn_field_length e) (um_tx_next e) s u
      (take (Z.to_nat (um_seg_bytes (um_sn_field_length e) s)) buffer').
Proof.
  intros Hcfg [] Hnext Hb Hroom Hfit.
  assert (Elen : um_sn_field_length e1 = um_sn_field_length e) by apply pop_same0.
  assert (Emod : um_sn_modulus e1 = um_sn_modulus e) by apply pop_same0.
  destruct (um_send_correct e1 s u buffer size now) as (buffer' & e' & H & ? & ? & ? & Hn & Hc);
    rewrite ?pop_list0, ?Elen, ?Emod, ?pop_next0; try done.
  - by eapply um_same_rx_config.
  - rewrite Elen in H. rewrite Elen, pop_sn0 in Hc. exists buffer', e'. split_and!; try done.
    + by eapply um_same_rx_trans.
    + congruence.
    + by rewrite Hn, (um_next_sn_same e).
Qed.

(** The segment is cut: its head is sent, its tail goes back to the list. *)
Lemma um_send_cut e e1 s u l size :
  um_config_ok e -> um_popped e e1 s u l -> 0 <= um_tx_next e < um_sn_modulus e ->
  um_compute_pdu_header_size e s + 1 <= size < um_seg_bytes (um_sn_field_length e) s -> size <> 2 ->
  let n := size - um_pdu_header_size (um_sn_field_length e) (is_first s) false in
  exists e2 s2, um_resegment e1 s size = Ok (e2, seg_head s n, Some s2) /\
    0 < n < seg_size s /\
    s2 = seg_tail s (seg_addr s2) n /\
    let e3 := um_put_back e2 s2 in
    let c := add_stat (um_common e3) txpdu_segmented 1 in
    let c := add_tx_size c (um_compute_pdu_header_size e3 s2 + seg_size s2) in
    exists u', um_popped e (e3 <| um_common := c |>) (seg_head s n) u' (s2 :: l) /\
      sdu_same u u'.
Proof.
  intros Hcfg [] Hnext Hfit Hne n.
  assert (Elen : um_sn_field_length e1 = um_sn_field_length e) by apply pop_same0.
  assert (Hn : 0 < n < seg_size s).
  { pose proof (um_header_size_bounds (um_sn_field_length e) (is_first s) (is_last s)).
    unfold n, um_seg_bytes, um_compute_pdu_header_size, um_pdu_header_size in *.
    destruct (is_first s), (is_last s), (um_sn_field_length e =? 12); cbn in *; lia. }
  pose proof (um_resegment_correct e1 s l u size pop_heap0 pop_sdu0) as Hres.
  rewrite Elen in Hres. specialize (Hres Hn). cbv zeta in Hres.
  change (size - um_pdu_header_size (um_sn_field_length e) (is_first s) false) with n in Hres.
  eexists _, _. split; [exact Hres|]. split; [done|]. split; [done|].
  destruct (heap_inv_split _ s l u n pop_heap0 pop_sdu0 Hn) as (Hh2 & Hsame2 & _).
  set (s2 := seg_tail s _ n) in *. cbv zeta.
  set (h2 := (set_sdu _ s (u <| ref_count := _ |>)) <| heap_next := _ |>) in *.
  set (e2 := e1 <| um_common := _ |>).
  assert (Hend2 : end_ok (um_tx_list e2) (um_tx_end e2)).
  { unfold e2. field_simpl. by rewrite pop_list0. }
  destruct (um_put_back_spec e2 s2 Hend2) as [-> Hend3].
  exists (u <| ref_count := ref_count u + 1 |>). split; [|done].
  destruct (seg_cut_range s (seg_addr s2) n u pop_range0 Hn) as [Hr1 Hr2].
  assert (Hl2 : um_tx_list e2 = l) by (unfold e2; by field_simpl). rewrite Hl2 in *.
  constructor; unfold add_tx_size, add_stat, um_compute_pdu_header_size; field_simpl; try done.
  - change (heap (um_common e2)) with h2. unfold h2, set_sdu. field_simpl. by rewrite lookup_insert_eq.
  - change (heap (um_common e2)) with h2. unfold h2, set_sdu. field_simpl.
    apply map_Forall_insert_2; [|done]. field_simpl. exact (pop_max0 _ _ pop_sdu0).
  - rewrite !zsum_cons in *. unfold seg_head, s2, seg_tail in *. field_simpl.
    change (um_tx_size e2) with (um_tx_size e1). lia.
  - change (bstatus (um_common e2)) with (bstatus (um_common e1)).
    change (um_sn_field_length e2) with (um_sn_field_length e1). rewrite Elen, zsum_cons.
    unfold um_seg_bytes at 1. lia.
Qed.

Lemma um_carries_size len sn s u pdu :
  um_carries len sn s u pdu -> zlen pdu = um_seg_bytes len s.
Proof.
  intros (hdr & data & -> & Hh & _ & Hd%zslice_len). rewrite zlen_app. unfold um_seg_bytes. lia.
Qed.

Lemma um_carries_same len sn s u u' pdu :
  sdu_data u' = sdu_data u -> um_carries len sn s u' pdu -> um_carries len sn s u pdu.
Proof. unfold um_carries. by intros ->. Qed.

(** Nothing to send, or no room for the header and a byte. *)
Definition um_no_room (e : nr_rlc_entity_um_t) (size : Z) : Prop :=
  um_tx_list e = [] \/ exists s l, um_tx_list e = s :: l /\ size <= um_compute_pdu_header_size e s.

(** Either nothing is sent, for lack of room, or the first segment is, whole or
    cut.  The grant of 2 bytes is the one [um_generate_loses_sdu] is about. *)
Lemma um_generate_correct e buffer size now :
  um_config_ok e -> um_tx_inv e -> bytes_ok buffer -> size <= zlen buffer -> size <> 2 ->
  exists n buffer' e',
    nr_rlc_entity_um_generate_pdu e buffer size now = Ok (n, buffer', e') /\
    um_tx_inv e' /\ um_same_rx e e' /\
    ((n = 0 /\ buffer' = buffer /\ e' = e /\ um_no_room e size) \/
     exists s l, um_tx_list e = s :: l /\ 0 < n /\ zlen (take (Z.to_nat n) buffer') = n /\
       um_generated e s l size (take (Z.to_nat n) buffer') e').
Proof.
  intros Hcfg Hinv Hb Hroom Hne. unfold nr_rlc_entity_um_generate_pdu, um_generate_tx_pdu.
  destruct (um_tx_list e) as [|s l] eqn:El; [|destruct (_ >? size) eqn:Eroom].
  1,2: exists 0, buffer, e; split_and!; try done; left; split_and!; try done; unfold um_no_room; rewrite El;
    first [by left | right; exists s, l; zify_bool; split; [done|lia]].
  zify_bool. destruct (um_pop_correct e s l Hinv El) as (u0 & -> & Hu0 & Hpop).
  cbn [mbind outcome_bind]. cbv zeta in Hpop. pose proof (um_tx_next_ok _ Hinv) as Hnext.
  change (um_compute_pdu_header_size e s + seg_size s)
    with (um_seg_bytes (um_sn_field_length e) s) in *.
  set (u := u0 <| sdu_sn := _ |>) in *.
  set (e1 := (um_unlink_head e l) <| um_common := _ |>) in *. clearbody e1.
  pose proof (um_header_size_bounds (um_sn_field_length e) (is_first s) (is_last s)) as Hhs.
  change (um_pdu_header_size _ (is_first s) _) with (um_compute_pdu_header_size e s) in Hhs.
  pose proof (pop_range _ _ _ _ _ Hpop) as Hrange.
  destruct (um_seg_bytes _ s >? size) eqn:Efit; zify_bool.
  - destruct (um_send_cut e e1 s u l size) as (e2 & s2 & -> & Hn & Hs2 & u' & Hpop3 & Hsame);
      [done..|].
    cbn [mbind outcome_bind]. set (n := size - _) in *. set (e3 := (um_put_back e2 s2) <| um_common := _ |>) in *.
    assert (Hfit3 : um_seg_bytes (um_sn_field_length e) (seg_head s n) = size).
    { unfold um_seg_bytes, seg_head, n. field_simpl. lia. }
    destruct (um_send_whole e e3 (seg_head s n) u' (s2 :: l) buffer size now)
      as (buffer' & e' & -> & Hinv' & Hrx & El' & Enext & Hcarry); [done..|lia|].
    rewrite Hfit3 in *. apply (um_carries_same _ _ _ u0) in Hcarry; [|by destruct Hsame as (_ & -> & _)].
    pose proof (um_carries_size _ _ _ _ _ Hcarry) as Hz. rewrite Hfit3 in Hz.
    eexists _, buffer', e'. split; [done|]. split_and!; [done|done|]. right. exists s, l.
    split_and!; [done|lia|done|]. exists u0, (seg_head s n). rewrite Hfit3, El'.
    destruct (seg_cut_range s (seg_addr s2) n u Hrange Hn) as [Hr1 Hr2].
    split_and!; try done; [|lia]. split_and!; try done. right. split; [done|]. exists s2.
    rewrite Hs2. unfold seg_end, seg_tail, seg_head. field_simpl. split_and!; try done. lia.
  - destruct (um_send_whole e e1 s u l buffer size now)
      as (buffer' & e' & -> & Hinv' & Hrx & El' & Enext & Hcarry); [done..|].
    apply (um_carries_same _ _ _ u0) in Hcarry; [|done].
    pose proof (um_carries_size _ _ _ _ _ Hcarry) as Hz.
    eexists _, buffer', e'. split; [done|]. split_and!; [done|done|]. right. exists s, l.
    assert (0 <= seg_size s) by apply Hrange.
    assert (0 < um_seg_bytes (um_sn_field_length e) s).
    { unfold um_seg_bytes. change (um_pdu_header_size _ _ _) with (um_compute_pdu_header_size e s). lia. }
    split_and!; [done|lia|done|]. exists u0, s. rewrite El'.
    split_and!; try done; [|lia]. split_and!; try done. by left.
Qed.

(** ** SDUs from the upper layer *)

Lemma um_same_rx_common e e1 c :
  um_same_rx e e1 -> events c = events (um_common e1) -> um_same_rx e (e1 <| um_common := c |>).
Proof. unfold um_same_rx. field_simpl. intuition congruence. Qed.

Definition um_accepts (e : nr_rlc_entity_um_t) (size : Z) : bool :=
  um_tx_size e + size <=? um_tx_maxsize e.

Lemma um_recv_sdu_correct e d sdu_id now :
  um_tx_inv e -> zlen d <= NR_SDU_MAX ->
  exists e', nr_rlc_entity_um_recv_sdu e d (zlen d) sdu_id now = Ok e' /\
    um_tx_inv e' /\ um_same_rx e e' /\ um_tx_next e' = um_tx_next e /\
    if um_accepts e (zlen d) then
      um_tx_size e' = um_tx_size e + zlen d /\
      exists s u, um_tx_list e' = um_tx_list e ++ [s] /\ is_first s = true /\ is_last s = true /\
        heap_sdus (heap (um_common e')) !! seg_sdu s = Some u /\ sdu_data u = d
    else um_tx_size e' = um_tx_size e /\ um_tx_list e' = um_tx_list e.
Proof.
  intros [Hh Hmax Hend Hbytes Hbs Hc Hnext] Hd. unfold nr_rlc_entity_um_recv_sdu, um_accepts.
  destruct (zlen d >? NR_SDU_MAX) eqn:E; zify_bool; [lia|]. cbn [negb require mbind outcome_bind].
  set (c1 := add_stat64 _ rxsdu_bytes (zlen d)). set (e1 := if _ && _ then _ else _).
  assert (He1 : um_common e1 = c1 /\ um_same_rx e e1 /\ um_tx_list e1 = um_tx_list e /\
    um_tx_end e1 = um_tx_end e /\ um_tx_size e1 = um_tx_size e /\ um_tx_maxsize e1 = um_tx_maxsize e
    /\ um_tx_next e1 = um_tx_next e) by by unfold e1, um_same_rx; destruct (_ && _).
  assert (Hc1 : heap c1 = heap (um_common e) /\ bstatus c1 = bstatus (um_common e) /\
    events c1 = events (um_common e) /\ common_ok c1) by done.
  clearbody e1 c1. destruct He1 as (Ec & Hrx & El & Ee & Es & Em & En), Hc1 as (Eh1 & Eb1 & Ev1 & Hok1).
  rewrite Es, Em.
  assert (Elen : um_sn_field_length e1 = um_sn_field_length e) by apply Hrx.
  assert (Emod : um_sn_modulus e1 = um_sn_modulus e) by apply Hrx.
  destruct (_ >? um_tx_maxsize e) eqn:Efull; zify_bool;
    (destruct (_ <=? um_tx_maxsize e) eqn:Efull'; zify_bool; try lia).
  - eexists. split; [done|]. unfold add_stat. split_and!; try done.
    constructor; field_simpl; by rewrite ?Ec, ?El, ?Ee, ?Es, ?En, ?Eh1, ?Eb1, ?Elen, ?Emod.
  - field_simpl. rewrite Ec, Eh1, El, Ee.
    destruct (new_sdu_correct _ _ d (zlen d) sdu_id Hh eq_refl)
      as (h & s & u & Hnew & Hh1 & Hsame & Hu & _ & Hdata & Hdsz & _ & Hso & Hsz & Hf & Hl & Hfr & _).
    rewrite Hnew. cbn [mbind outcome_bind].
    rewrite append_correct by (try done; apply Hh). cbn [mbind outcome_bind]. field_simpl. rewrite Ec.
    rewrite (Permutation_cons_append (um_tx_list e) s) in Hh1.
    set (c2 := add_tx_size _ _).
    destruct (stamp_arrival_ok c2 (um_tx_list e ++ [s]) s now) as
      (c3 & Hstamp & Hok3 & Hh3 & Hsame3 & _ & Hdata3 & _ & Hb3 & Hev3);
      [done|done|unfold c2, add_tx_size; field_simpl; rewrite Hu; eauto|].
    rewrite Hstamp. cbn [mbind outcome_bind]. eexists. split; [done|]. field_simpl.
    split_and!; try done; try congruence.
    + constructor; field_simpl; rewrite ?Emod, ?En; try done.
      * eapply stamp_arrival_Forall; [exact Hstamp|done|]. unfold c2, add_tx_size. field_simpl.
        unfold nr_rlc_new_sdu in Hnew. bind_inv. simplify_eq. cbn [heap_sdus seg_sdu] in *.
        apply map_Forall_insert_2; [cbn; done|done].
      * apply end_ok_snoc.
      * rewrite zsum_app, zsum_cons, zsum_nil. lia.
      * rewrite Hb3. unfold c2, add_tx_size, um_compute_pdu_header_size. field_simpl.
        rewrite zsum_app, zsum_cons, zsum_nil, Elen, Eb1. unfold um_seg_bytes at 2. lia.
    + apply um_same_rx_common; [done|]. field_simpl. rewrite Hev3, Ec. done.
    + specialize (Hdata3 (seg_sdu s)). change (heap c2) with h in Hdata3. rewrite Hu in Hdata3.
      apply fmap_Some in Hdata3 as (w & Hw & Ew). exists s, w. split_and!; try done. congruence.
Qed.

(** ** Discard *)

Lemma um_discard_correct e sdu_id :
  um_tx_inv e ->
  exists e', nr_rlc_entity_um_discard_sdu e sdu_id = Ok e' /\ um_tx_inv e' /\ um_same_rx e e' /\
    um_tx_size e' = um_tx_size e /\
    (e' = e \/ exists before s next, um_tx_list e = before ++ s :: next /\
      is_first s = true /\ is_last s = true /\ um_tx_list e' = before ++ next /\
      upper_layer_id <$> heap_sdus (heap (um_common e)) !! seg_sdu s = Some sdu_id).
Proof.
  intros Hinv. pose proof Hinv as [Hh Hmax Hend Hbytes Hbs Hc Hnext].
  unfold nr_rlc_entity_um_discard_sdu.
  assert (Hlive : Forall (fun s => is_Some (heap_sdus (heap (um_common e)) !! seg_sdu s)) (um_tx_list e)).
  { eapply Forall_impl; [apply Hh|]. intros s (_ & u & Hu & _). eauto. }
  destruct (find_upper_layer_id_correct _ sdu_id [] (um_tx_list e) None Hlive) as (o & Hfind & _).
  destruct (find_upper_layer_id_correct _ sdu_id [] (um_tx_list e) o Hlive) as (o' & Hfind' & Ho).
  rewrite Hfind in *. injection Hfind' as <-. specialize (Ho eq_refl). cbn [mbind outcome_bind].
  destruct o as [[[before s] next]|].
  2: { exists e. split_and!; try done. by left. }
  destruct Ho as [El Hid]. cbn [app] in El. rewrite <- El in *.
  destruct (negb _ || negb _) eqn:Epart.
  { exists e. split_and!; try done. by left. }
  zify_bool. rewrite <- Permutation_middle in Hh.
  set (e1 := if decide _ then _ else _).
  assert (He1 : um_common e1 = um_common e /\ um_same_rx e e1 /\ um_tx_list e1 = before ++ next /\
    end_ok (before ++ next) (um_tx_end e1) /\ um_tx_size e1 = um_tx_size e /\
    um_tx_next e1 = um_tx_next e).
  { assert (Hnd : NoDup (seg_addr <$> before ++ s :: next)).
    { rewrite <- Permutation_middle. apply Hh. }
    pose proof (end_ok_remove _ _ _ _ Hnd Hend) as Hend'. unfold e1, um_same_rx. field_simpl.
    by destruct (decide _). }
  clearbody e1. destruct He1 as (Ec & Hrx & El1 & Hend1 & Es1 & En1).
  assert (Elen : um_sn_field_length e1 = um_sn_field_length e) by apply Hrx.
  assert (Emod : um_sn_modulus e1 = um_sn_modulus e) by apply Hrx.
  unfold add_tx_size. field_simpl. rewrite Ec.
  destruct (free_correct _ _ _ Hh) as (h' & r & v & Hfree & _ & Hh' & _). rewrite Hfree.
  cbn [mbind outcome_bind]. rewrite <- Permutation_middle, zsum_cons in Hbytes, Hbs.
  eexists. split; [done|]. field_simpl. split_and!; try done.
  - constructor; field_simpl; rewrite ?El1, ?Es1, ?Emod, ?En1; try done.
    + eapply free_map_Forall; [exact Hfree|done|done].
    + destruct (heap_inv_deref _ _ _ Hh) as (u & _ & _ & (_ & ? & _) & _). lia.
    + rewrite Elen. unfold um_compute_pdu_header_size. rewrite Elen.
      unfold um_seg_bytes at 1 in Hbs. lia.
  - apply um_same_rx_common; [done|]. field_simpl. by rewrite Ec.
  - right. exists before, s, next. done.
Qed.

Lemma um_clear_correct e :
  um_config_ok e -> um_tx_inv e ->
  exists e', nr_rlc_entity_um_reestablishment e = Ok e' /\ um_tx_inv e' /\
    heap_sdus (heap (um_common e')) = ∅ /\ um_tx_list e' = [] /\ um_rx_list e' = [] /\
    um_tx_size e' = 0 /\ um_rx_size e' = 0 /\ bs_tx_size (bstatus (um_common e')) = 0 /\
    um_config_ok e' /\ um_rx_next_highest e' = 0 /\ um_rx_next_reassembly e' = 0 /\
    um_rx_timer_trigger e' = 0 /\ um_t_reassembly_start e' = 0.
Proof.
  intros [] [Hh _ _ _ _ Hc _]. unfold nr_rlc_entity_um_reestablishment, um_clear_entity.
  field_simpl. rewrite <- (app_nil_r (um_tx_list e)) in Hh.
  destruct (free_list_correct _ _ _ Hh) as (h & -> & Hh' & _). cbn [mbind outcome_bind].
  pose proof (heap_inv_nil_empty _ Hh') as Hempty.
  assert (0 < um_sn_modulus e) by (destruct um_cfg_len0 as [E|E]; rewrite um_cfg_modulus0, E; lia).
  eexists. split; [done|]. field_simpl. split_and!; try done; constructor; field_simpl; try done; try lia.
  by rewrite Hempty.
Qed.
