(* ===== verification/RlcUmRx.v ===== *)
(** * The receiver of the UM entity

    The peer's SDUs are [sent 0], [sent 1], ...; the SN of a PDU is the number
    of its SDU modulo [sn_modulus].  When segments do not arrive more than half
    of the SN space late or early, which is what 38.322 asks of the window, the
    receiver delivers SDUs as sent, each at most once, and as soon as the last
    segment is there. *)

From S2P Require Import Prelude TimeStat RlcPdu RlcSdu RlcReassembly RlcRxList RlcEntity RlcUm RlcUmTx.

(** What the receiver leaves alone. *)
Definition um_same_tx (e e' : nr_rlc_entity_um_t) : Prop :=
  um_sn_field_length e' = um_sn_field_length e /\ um_sn_modulus e' = um_sn_modulus e /\
  um_window_size e' = um_window_size e /\ um_tx_next e' = um_tx_next e /\
  um_tx_list e' = um_tx_list e /\ um_tx_end e' = um_tx_end e /\ um_tx_size e' = um_tx_size e /\
  um_rx_maxsize e' = um_rx_maxsize e /\
  heap (um_common e') = heap (um_common e) /\ bstatus (um_common e') = bstatus (um_common e) /\
  txsdu_avg_time_to_tx (um_common e') = txsdu_avg_time_to_tx (um_common e).

Lemma um_same_tx_refl e : um_same_tx e e.
Proof. unfold um_same_tx. by split_and!. Qed.

Lemma um_same_tx_trans e1 e2 e3 : um_same_tx e1 e2 -> um_same_tx e2 e3 -> um_same_tx e1 e3.
Proof. unfold um_same_tx. intuition congruence. Qed.

Lemma um_same_tx_config e e' : um_same_tx e e' -> um_config_ok e -> um_config_ok e'.
Proof. intros (Hl & Hm & Hw & _) [A B C]. constructor; congruence. Qed.

Lemma um_same_tx_inv e e' : um_same_tx e e' -> um_tx_inv e -> um_tx_inv e'.
Proof.
  intros (E1 & E2 & E3 & E4 & E5 & E6 & E7 & E8 & E9 & E10 & E11) [].
  constructor; unfold common_ok in *; rewrite ?E1, ?E2, ?E3, ?E4, ?E5, ?E6, ?E7, ?E9, ?E10, ?E11; done.
Qed.

Lemma um_config_pos e : um_config_ok e -> 32 <= um_window_size e /\ um_sn_modulus e = 2 * um_window_size e.
Proof.
  intros [Hl Hm Hw]. split; [|done]. assert (64 <= um_sn_modulus e); [|lia].
  rewrite Hm. destruct Hl as [-> | ->]; lia.
Qed.

(** Sequence numbers compare as keys above [rx_next_highest - window_size]. *)
Lemma um_modulus_rx_key e H a :
  um_config_ok e -> um_rx_next_highest e = H mod um_sn_modulus e -> 0 <= a < um_sn_modulus e ->
  um_modulus_rx e a = sn_key (um_sn_modulus e) (H - um_window_size e) a.
Proof.
  intros Hc Hh Ha. destruct (um_config_pos e Hc) as [Hw Hm].
  unfold um_modulus_rx, sn_key. rewrite Hh.
  pose proof (Z.mod_pos_bound H (um_sn_modulus e) ltac:(lia)) as Hb.
  set (M := um_sn_modulus e) in *. set (w := um_window_size e) in *.
  assert (E : (a - (H - w)) mod M = (a - (H mod M - w)) mod M).
  { replace (a - (H - w)) with (a + w - H) by lia.
    replace (a - (H mod M - w)) with (a + w - H mod M) by lia. by rewrite Zminus_mod_idemp_r. }
  rewrite E. destruct (_ <? 0) eqn:Es; zify_bool.
  - rewrite Z.rem_mod_nonneg by lia.
    rewrite <- (Z.mod_add (a - (H mod M - w)) 1 M) by lia. by rewrite Z.mul_1_l.
  - by rewrite Z.rem_mod_nonneg by lia.
Qed.

Section peer.
Context (sent : Z -> list Z).

(** [H] and [R] are [rx_next_highest] and [rx_next_reassembly] as absolute
    numbers, [done] the SDUs delivered from segments. *)
Record um_rx_core (e : nr_rlc_entity_um_t) (H R : Z) (done : list Z) : Prop := {
  ui_config : um_config_ok e;
  ui_highest : um_rx_next_highest e = H mod um_sn_modulus e;
  ui_next : um_rx_next_reassembly e = R mod um_sn_modulus e;
  ui_range : H - um_window_size e <= R <= H;
  ui_list : rx_list_ok (um_sn_modulus e) true sent (H - um_window_size e) H (um_rx_list e);
  ui_waiting : sdu_delivered (um_rx_list e) (R mod um_sn_modulus e) = false;
  ui_none_full : forall sn, 0 <= sn < um_sn_modulus e -> sdu_full (um_rx_list e) sn = false;
  ui_once : NoDup done;
  ui_done : forall n, n ∈ done -> n < R \/
    (H - um_window_size e <= n < H /\ sdu_delivered (um_rx_list e) (n mod um_sn_modulus e) = true);
  ui_bytes : rx_bytes (um_rx_list e) <= um_rx_size e;
}.

Lemma um_rx_core_ext e e' H R done :
  um_rx_core e H R done -> um_same_tx e e' ->
  um_rx_next_highest e' = um_rx_next_highest e ->
  um_rx_next_reassembly e' = um_rx_next_reassembly e ->
  um_rx_list e' = um_rx_list e -> um_rx_size e' = um_rx_size e -> um_rx_core e' H R done.
Proof.
  intros [] Htx Eh Er El Es. pose proof (um_same_tx_config _ _ Htx ui_config0).
  destruct Htx as (_ & Em & Ew & _). constructor; rewrite ?Em, ?Ew, ?Eh, ?Er, ?El, ?Es; done.
Qed.

(** The trigger of the running timer is a number between [lo] and [hi]. *)
Definition um_trigger (e : nr_rlc_entity_um_t) (lo hi : Z) : Prop :=
  um_t_reassembly_start e <> 0 ->
  exists T, um_rx_timer_trigger e = T mod um_sn_modulus e /\ lo < T <= hi.

Definition um_rx_inv (e : nr_rlc_entity_um_t) (H R : Z) (done : list Z) : Prop :=
  um_rx_core e H R done /\ um_trigger e R H.

Lemma um_key_lt e H a b :
  um_config_ok e -> um_rx_next_highest e = H mod um_sn_modulus e ->
  H - um_window_size e <= a < H + um_window_size e ->
  H - um_window_size e <= b < H + um_window_size e ->
  um_sn_compare_rx e (a mod um_sn_modulus e) (b mod um_sn_modulus e) = a - b.
Proof.
  intros Hc Hh Ha Hb. destruct (um_config_pos e Hc) as [Hw Hm]. unfold um_sn_compare_rx.
  rewrite !(um_modulus_rx_key e H) by (done || (apply Z.mod_pos_bound; lia)).
  pose proof (abs_sn_of (um_sn_modulus e) (H - um_window_size e) a ltac:(lia)).
  pose proof (abs_sn_of (um_sn_modulus e) (H - um_window_size e) b ltac:(lia)).
  unfold abs_sn in *. lia.
Qed.

(** The sequence number of a PDU, compared with that of an absolute number. *)
Lemma um_key_abs e H sn b :
  um_config_ok e -> um_rx_next_highest e = H mod um_sn_modulus e -> 0 <= sn < um_sn_modulus e ->
  H - um_window_size e <= b < H + um_window_size e ->
  um_sn_compare_rx e sn (b mod um_sn_modulus e)
  = abs_sn (um_sn_modulus e) (H - um_window_size e) sn - b.
Proof.
  intros Hc Hh Hs Hb. destruct (um_config_pos e Hc) as [Hw Hm].
  rewrite <- (abs_sn_mod (um_sn_modulus e) (H - um_window_size e) sn) at 1 by done.
  apply um_key_lt with (H := H); [done|done| |done].
  pose proof (abs_sn_range (um_sn_modulus e) ltac:(lia) (H - um_window_size e) sn). lia.
Qed.

(** ** The loops that drop PDUs *)

Lemma um_drop_out_of_window_app e l1 l2 :
  Forall (fun p => um_sn_compare_rx e (pdu_sn p) (um_rx_next_highest e) >= 0) l1 ->
  (forall p r, l2 = p :: r -> um_sn_compare_rx e (pdu_sn p) (um_rx_next_highest e) < 0) ->
  exists e', um_drop_out_of_window e (l1 ++ l2) = e' /\ um_same_tx e e' /\
    um_rx_list e' = l2 /\ um_rx_size e' = um_rx_size e - zsum pdu_size l1 /\
    um_rx_next_highest e' = um_rx_next_highest e /\
    um_rx_next_reassembly e' = um_rx_next_reassembly e /\
    um_t_reassembly_start e' = um_t_reassembly_start e /\
    um_rx_timer_trigger e' = um_rx_timer_trigger e /\ um_t_current e' = um_t_current e /\
    events (um_common e') = events (um_common e).
Proof.
  intros H1 H2. revert e H1 H2. induction l1 as [|p l1 IH]; intros e H1 H2; cbn [app um_drop_out_of_window].
  - eexists. split; [done|]. rewrite zsum_nil, Z.sub_0_r. unfold um_same_tx.
    destruct l2 as [|p r]; cbn [um_drop_out_of_window]; [done|].
    specialize (H2 p r eq_refl). destruct (_ >=? 0) eqn:E; zify_bool; [lia|done].
  - apply Forall_cons in H1 as [Hp H1]. destruct (_ >=? 0) eqn:E; zify_bool; [|lia].
    set (e1 := e <| um_rx_size := _ |> <| um_common := _ |>).
    destruct (IH e1) as (e' & -> & Htx & Hl & Hsz & Hrest); [done|done|].
    exists e'. split; [done|]. rewrite zsum_cons. unfold e1 in *. field_simpl_all.
    split_and!; try done; try apply Hrest; try lia.
Qed.

Lemma um_drop_below_app e l1 l2 :
  Forall (fun p => um_sn_compare_rx e (pdu_sn p) (um_rx_next_reassembly e) < 0) l1 ->
  (forall p r, l2 = p :: r -> um_sn_compare_rx e (pdu_sn p) (um_rx_next_reassembly e) >= 0) ->
  exists e', um_drop_below e (l1 ++ l2) = e' /\ um_same_tx e e' /\
    um_rx_list e' = l2 /\ um_rx_size e' = um_rx_size e /\
    um_rx_next_highest e' = um_rx_next_highest e /\
    um_rx_next_reassembly e' = um_rx_next_reassembly e /\
    um_t_reassembly_start e' = um_t_reassembly_start e /\
    um_rx_timer_trigger e' = um_rx_timer_trigger e /\ um_t_current e' = um_t_current e /\
    events (um_common e') = events (um_common e).
Proof.
  intros H1 H2. revert e H1 H2. induction l1 as [|p l1 IH]; intros e H1 H2; cbn [app um_drop_below].
  - eexists. split; [done|]. unfold um_same_tx.
    destruct l2 as [|p r]; cbn [um_drop_below]; [done|].
    specialize (H2 p r eq_refl). destruct (_ <? 0) eqn:E; zify_bool; [lia|done].
  - apply Forall_cons in H1 as [Hp H1]. destruct (_ <? 0) eqn:E; zify_bool; [|lia].
    set (e1 := e <| um_common := _ |>).
    destruct (IH e1) as (e' & -> & Htx & Hrest); [done|done|].
    exists e'. split; [done|]. unfold e1 in *. field_simpl_all.
    split_and!; try done; try apply Hrest.
Qed.

(** ** The timer *)

Lemma um_stop_start_correct e H R done lo hi :
  um_rx_core e H R done -> um_trigger e lo hi -> hi <= H -> H - um_sn_modulus e <= lo ->
  exists e', um_start_t_reassembly (um_stop_t_reassembly e) = e' /\ um_rx_inv e' H R done /\
    um_same_tx e e' /\ events (um_common e') = events (um_common e).
Proof.
  intros Hcore Htrig Hhi Hlo. pose proof (ui_config _ _ _ _ Hcore) as Hc.
  destruct (um_config_pos e Hc) as [Hw Hm]. pose proof (ui_range _ _ _ _ Hcore) as HR.
  pose proof (ui_highest _ _ _ _ Hcore) as HH. pose proof (ui_next _ _ _ _ Hcore) as Hn.
  assert (Hstop : exists b, um_stop_t_reassembly e = (if (b : bool) then e <| um_t_reassembly_start := 0 |> else e) /\
    (b = false -> um_trigger e R H)).
  { unfold um_stop_t_reassembly. destruct (_ && _) eqn:E; [by exists true|exists false].
    split; [done|]. intros _ Hrun. destruct (Htrig Hrun) as (T & HT & HTr). exists T. split; [done|].
    apply andb_false_iff in E as [E|E]; [by zify_bool|]. apply orb_false_iff in E as [E _].
    apply orb_false_iff in E as [E1 E2]. zify_bool. rewrite HT, HH, Hn in *.
    destruct (decide (H - um_window_size e <= T)).
    - rewrite (um_key_lt e H) in E1 by (done || lia). lia.
    - rewrite <- (Z.mod_add T 1) in E2 by lia. rewrite (um_key_lt e H) in E2 by (done || lia). lia. }
  destruct Hstop as (b & -> & Htr). set (e1 := if b then _ else e).
  assert (Hcore1 : um_rx_core e1 H R done /\ um_trigger e1 R H /\ um_same_tx e e1 /\
    events (um_common e1) = events (um_common e) /\ um_sn_modulus e1 = um_sn_modulus e).
  { unfold e1. destruct b.
    - split_and!; try done; [by eapply um_rx_core_ext|by unfold um_trigger; field_simpl].
    - split_and!; try done. auto. }
  clearbody e1. clear Htr Htrig b. destruct Hcore1 as (Hcore1 & Htr1 & Htx1 & Hev1 & Em).
  clear Hcore Hc HH Hn. rename Hcore1 into Hcore. pose proof (ui_config _ _ _ _ Hcore) as Hc.
  destruct (um_config_pos e1 Hc) as [Hw1 Hm1]. clear HR. pose proof (ui_range _ _ _ _ Hcore) as HR.
  pose proof (ui_highest _ _ _ _ Hcore) as HH. pose proof (ui_next _ _ _ _ Hcore) as Hn.
  eexists. split; [done|]. unfold um_start_t_reassembly. destruct (_ && _) eqn:E.
  2: { by split_and!. }
  split_and!; [|done|done]. split; [by eapply um_rx_core_ext|].
  intros _. exists H. field_simpl. split; [done|]. split; [|lia].
  apply andb_true_iff in E as [_ E]. rewrite HH, Hn, rem_succ_mod in E by lia.
  apply orb_true_iff in E as [E|E]; zify_bool.
  - rewrite (um_key_lt e1 H) in E by (done || lia). lia.
  - assert (Hk : um_sn_compare_rx e1 (H mod um_sn_modulus e1) ((R + 1) mod um_sn_modulus e1) = 0).
    { rewrite H0. unfold um_sn_compare_rx. lia. }
    rewrite (um_key_lt e1 H) in Hk by (done || lia). lia.
Qed.

(** ** Update of the state variables *)

(** The first SDU from [R0] on that is not delivered. *)
Lemma um_set_next_correct e H R0 :
  um_config_ok e ->
  rx_list_ok (um_sn_modulus e) true sent (H - um_window_size e) H (um_rx_list e) ->
  H - um_window_size e <= R0 <= H ->
  exists R, um_set_rx_next_reassembly e (R0 mod um_sn_modulus e)
            = Ok (e <| um_rx_next_reassembly := R mod um_sn_modulus e |>) /\
    R0 <= R <= H /\ sdu_delivered (um_rx_list e) (R mod um_sn_modulus e) = false /\
    (forall n, R0 <= n < R -> sdu_delivered (um_rx_list e) (n mod um_sn_modulus e) = true).
Proof.
  intros Hc Hok HR. destruct (um_config_pos e Hc) as [Hw Hm].
  assert (E : forall j, (R0 mod um_sn_modulus e + j) mod um_sn_modulus e = (R0 + j) mod um_sn_modulus e).
  { intros j. by rewrite Zplus_mod_idemp_l. }
  destruct (first_not_delivered_correct (um_sn_modulus e) (um_rx_list e) (R0 mod um_sn_modulus e) (H - R0))
    as (j & Hj & Hf & Hnd & Hall); [apply Z.mod_pos_bound; lia|lia| |].
  { rewrite E. eapply not_delivered_outside; [exact Hok|lia|lia]. }
  exists (R0 + j). unfold um_set_rx_next_reassembly. rewrite Hf. cbn [mbind outcome_bind].
  rewrite E in *. split_and!; [done|lia|lia|done|].
  intros n Hn. specialize (Hall (n - R0) ltac:(lia)). rewrite E in Hall.
  by replace (R0 + (n - R0)) with n in Hall by lia.
Qed.

(** After the insertion of a segment of the SDU [n]. *)
Record um_rx_mid (e : nr_rlc_entity_um_t) (H R : Z) (done : list Z) (n : Z) : Prop := {
  mid_config : um_config_ok e;
  mid_highest : um_rx_next_highest e = H mod um_sn_modulus e;
  mid_next : um_rx_next_reassembly e = R mod um_sn_modulus e;
  mid_range : H - um_window_size e <= R <= H;
  mid_number : R <= n < H + um_window_size e;
  mid_list : rx_list_ok (um_sn_modulus e) true sent (H - um_window_size e) (Z.max H (n + 1)) (um_rx_list e);
  mid_waiting : sdu_delivered (um_rx_list e) (R mod um_sn_modulus e) = false;
  mid_none_full : forall sn, 0 <= sn < um_sn_modulus e -> sn <> n mod um_sn_modulus e ->
    sdu_full (um_rx_list e) sn = false;
  mid_new : H <= n -> sdu_full (um_rx_list e) (n mod um_sn_modulus e) = false;
  mid_once : NoDup done;
  mid_done : forall k, k ∈ done -> k < R \/
    (H - um_window_size e <= k < H /\ sdu_delivered (um_rx_list e) (k mod um_sn_modulus e) = true);
  mid_rxbytes : rx_bytes (um_rx_list e) <= um_rx_size e;
}.

Context (sent_size : forall n, 0 < zlen (sent n) <= NR_SDU_MAX).

(** The SDU is complete: it is delivered, and the window may move. *)
Lemma um_update_full e H R done n :
  um_rx_mid e H R done n -> sdu_full (um_rx_list e) (n mod um_sn_modulus e) = true ->
  exists e' R', um_update_rx e (n mod um_sn_modulus e) = Ok e' /\
    um_rx_core e' H R' (done ++ [n]) /\ R <= R' /\ um_same_tx e e' /\
    events (um_common e') = events (um_common e) ++ [DeliverSdu (sent n)] /\
    um_t_reassembly_start e' = um_t_reassembly_start e /\
    um_rx_timer_trigger e' = um_rx_timer_trigger e.
Proof.
  intros [] Hfull. destruct (um_config_pos e mid_config0) as [Hw Hm].
  assert (Hn : n < H).
  { destruct (decide (n < H)); [done|]. rewrite mid_new0 in Hfull by lia. done. }
  set (M := um_sn_modulus e) in *. set (w := um_window_size e) in *. set (x := n mod M) in *.
  assert (HM : 0 < M) by lia.
  assert (Habs : abs_sn M (H - w) x = n) by (apply abs_sn_of; lia).
  assert (Hlist : rx_list_ok M true sent (H - w) H (um_rx_list e)).
  { by replace (Z.max H (n + 1)) with H in mid_list0 by lia. }
  pose proof (proj1 (sdu_full_iff M HM true sent _ _ _ x Hlist ltac:(apply sent_size)) Hfull) as [Hnd _].
  destruct (rx_list_deliver M HM true sent _ _ _ x (um_rx_size e) Hlist Hfull)
    as (Hr & Hlist' & Hdel & p & Hp & Hpx); [apply sent_size|].
  rewrite Habs in Hr. unfold um_update_rx, um_sdu_full. fold x. rewrite Hfull.
  unfold um_reassemble_and_deliver. rewrite Hr. cbn [mbind outcome_bind].
  set (l' := mark true x <$> um_rx_list e) in *.
  set (e1 := _ <| um_common := _ |>).
  assert (He1 : um_same_tx e e1 /\ um_rx_list e1 = l' /\
    events (um_common e1) = events (um_common e) ++ [DeliverSdu (sent n)] /\
    um_rx_size e1 = um_rx_size e - (rx_bytes (um_rx_list e) - rx_bytes l') /\
    um_rx_next_highest e1 = um_rx_next_highest e /\ um_rx_next_reassembly e1 = um_rx_next_reassembly e /\
    um_t_reassembly_start e1 = um_t_reassembly_start e /\
    um_rx_timer_trigger e1 = um_rx_timer_trigger e) by done.
  clearbody e1. destruct He1 as (Htx1 & El1 & Ev1 & Es1 & Eh1 & En1 & Et1 & Eg1).
  pose proof (um_same_tx_config _ _ Htx1 mid_config0) as Hc1.
  assert (EM : um_sn_modulus e1 = M) by apply Htx1. assert (Ew : um_window_size e1 = w) by apply Htx1.
  assert (Hpost : forall e' R', R <= R' <= H ->
    e' = e1 <| um_rx_next_reassembly := R' mod M |> ->
    sdu_delivered l' (R' mod M) = false ->
    um_rx_core e' H R' (done ++ [n]) /\ um_same_tx e e').
  { intros e' R' HR' -> HR'd. split; [|done].
    assert (Hfull' : forall sn, 0 <= sn < M -> sdu_full l' sn = false).
    { intros sn Hsn. destruct (decide (sn = x)) as [->|Hne].
      - assert (Hf : ~ sdu_full l' x = true).
        { rewrite (sdu_full_iff M HM true sent _ _ _ x Hlist') by apply sent_size.
          rewrite Hdel, Z.eqb_refl. by intros [? _]. }
        by destruct (sdu_full l' x).
      - rewrite <- (mid_none_full0 sn Hsn Hne). symmetry.
        eapply sdu_full_ext; [done|exact Hlist|exact Hlist'|done|apply sent_size| |].
        + rewrite Hdel. by destruct (sn =? x) eqn:E; zify_bool.
        + intros q Hq. unfold l', mark. rewrite list_elem_of_fmap. split.
          * intros Hin. exists q. split; [|done]. by destruct (_ =? x) eqn:E; zify_bool; [congruence|].
          * intros (q' & -> & Hin). destruct (_ =? x) eqn:E; zify_bool; [|done].
            exfalso. apply Hne. rewrite <- Hq. done. }
    constructor; field_simpl; rewrite ?EM, ?Ew, ?El1; try done.
    - by apply (um_same_tx_config e1).
    - by rewrite Eh1.
    - lia.
    - apply NoDup_app. split_and!; [done| |apply NoDup_singleton].
      intros k Hk ->%list_elem_of_singleton. destruct (mid_done0 n Hk) as [?|[_ Hd]]; [lia|].
      fold x in Hd. congruence.
    - intros k [Hk|Hk]%elem_of_app.
      + destruct (mid_done0 k Hk) as [?|[? Hd]]; [left; lia|right]. split; [done|].
        rewrite Hdel, Hd. by rewrite orb_true_r.
      + apply list_elem_of_singleton in Hk as ->. right. split; [lia|].
        fold x. by rewrite Hdel, Z.eqb_refl.
    - rewrite Es1. lia. }
  rewrite En1, mid_next0. destruct (x =? R mod M) eqn:Ex; zify_bool.
  - destruct (um_set_next_correct e1 H R) as (R' & Hset & HR' & HR'd & _);
      rewrite ?EM, ?Ew, ?El1 in *; [done|done|done|].
    rewrite Hset. destruct (Hpost _ R' HR' eq_refl HR'd).
    eexists _, R'. split_and!; try done; lia.
  - assert (HRd : sdu_delivered l' (R mod M) = false).
    { rewrite Hdel. destruct (R mod M =? x) eqn:E; zify_bool; [congruence|done]. }
    destruct (Hpost e1 R) as [? ?]; [lia| |done|].
    { rewrite <- mid_next0, <- En1. by destruct e1. }
    eexists e1, R. by split_and!.
Qed.

(** PDUs below the new window are dropped. *)
Lemma um_window_correct e H n :
  um_config_ok e -> um_rx_next_highest e = (n + 1) mod um_sn_modulus e ->
  H <= n < H + um_window_size e ->
  rx_list_ok (um_sn_modulus e) true sent (H - um_window_size e) (n + 1) (um_rx_list e) ->
  let b := n + 1 - um_window_size e in
  exists e' l', um_drop_out_of_window e (um_rx_list e) = e' /\ um_same_tx e e' /\
    um_rx_list e' = l' /\ rx_list_ok (um_sn_modulus e) true sent b (n + 1) l' /\
    (forall p, p ∈ l' <-> p ∈ um_rx_list e /\
       b <= abs_sn (um_sn_modulus e) (H - um_window_size e) (pdu_sn p)) /\
    (forall sn, sdu_delivered l' sn =
       if b <=? abs_sn (um_sn_modulus e) (H - um_window_size e) sn
       then sdu_delivered (um_rx_list e) sn else false) /\
    um_rx_size e' - rx_bytes l' = um_rx_size e - rx_bytes (um_rx_list e) /\
    um_rx_next_highest e' = um_rx_next_highest e /\
    um_rx_next_reassembly e' = um_rx_next_reassembly e /\
    um_t_reassembly_start e' = um_t_reassembly_start e /\
    um_rx_timer_trigger e' = um_rx_timer_trigger e /\
    events (um_common e') = events (um_common e).
Proof.
  intros Hc HH Hn Hlist b. destruct (um_config_pos e Hc) as [Hw Hm].
  assert (HM : 0 < um_sn_modulus e) by lia. rename b into b0.
  assert (exists b, b = n + 1 - um_window_size e) as [b Hb] by eauto. subst b0. rewrite <- Hb.
  set (M := um_sn_modulus e) in *. set (w := um_window_size e) in *.
  destruct (rx_list_split M true sent _ _ _ b Hlist) as (l1 & l2 & El & Hl1 & Hl2).
  assert (Hkey : forall p, p ∈ um_rx_list e -> um_sn_compare_rx e (pdu_sn p) (um_rx_next_highest e) =
    if abs_sn M (H - w) (pdu_sn p) <? b then abs_sn M (H - w) (pdu_sn p) + M - (n + 1)
    else abs_sn M (H - w) (pdu_sn p) - (n + 1)).
  { intros p Hp. pose proof (rl_window _ _ _ _ _ _ Hlist) as Hwin. rewrite Forall_forall in Hwin.
    destruct (Hwin p Hp) as [Hsn Htop].
    pose proof (abs_sn_range M HM (H - w) (pdu_sn p)).
    rewrite HH. unfold M. rewrite (um_key_abs e (n + 1)) by (done || (fold w; lia)). fold M w.
    rewrite <- Hb. destruct (_ <? b) eqn:E; zify_bool.
    - rewrite (abs_sn_rebase_below M HM (H - w) b) by lia. lia.
    - rewrite (abs_sn_rebase M HM (H - w) b) by lia. lia. }
  rewrite El.
  destruct (um_drop_out_of_window_app e l1 l2)
    as (e2 & -> & Htx2 & El2 & Es2 & Eh2 & En2 & Et2 & Eg2 & _ & Ev2).
  { rewrite Forall_forall in *. intros p Hp. specialize (Hl1 p Hp). cbn in Hl1.
    assert (Hpl : p ∈ um_rx_list e) by (rewrite El; set_solver). rewrite (Hkey p Hpl).
    pose proof (abs_sn_range M HM (H - w) (pdu_sn p)). destruct (_ <? b) eqn:E; zify_bool; lia. }
  { intros p r ->. apply Forall_cons in Hl2 as [Hp _].
    assert (Hpl : p ∈ um_rx_list e) by (rewrite El; set_solver). rewrite (Hkey p Hpl).
    pose proof (rl_window _ _ _ _ _ _ Hlist) as Hwin. rewrite Forall_forall in Hwin.
    destruct (Hwin p Hpl). destruct (_ <? b) eqn:E; zify_bool; lia. }
  rewrite El in Hlist.
  destruct (rx_list_suffix M HM true sent _ _ _ _ b Hlist Hl1 Hl2) as [Hlist2 Hdel2].
  pose proof (rx_list_rebase M HM true sent _ b _ _ Hlist2 ltac:(lia) Hl2) as Hlist2'.
  assert (Hb1 : rx_bytes l1 = zsum pdu_size l1).
  { apply zsum_ext. intros p Hp. pose proof (rx_list_prefix _ _ _ _ _ _ _ Hlist) as Hpre.
    rewrite Forall_forall in Hpre. destruct (Hpre p Hp) as [_ Hd]. by destruct (pdu_data p). }
  exists e2, l2. split_and!; try done.
  - intros p. rewrite elem_of_app. rewrite Forall_forall in Hl1, Hl2. split.
    + intros Hp. split; [by right|by apply Hl2].
    + intros [[Hp|Hp] Hge]; [|done]. specialize (Hl1 p Hp). cbn in Hl1. lia.
  - rewrite rx_bytes_app, Es2. lia.
Qed.

(** The window moves up to the SDU [n], which is not complete. *)
Lemma um_update_new e H R done n :
  um_rx_mid e H R done n -> H <= n ->
  exists e' R', um_update_rx e (n mod um_sn_modulus e) = Ok e' /\
    um_rx_core e' (n + 1) R' done /\ R <= R' /\ um_same_tx e e' /\
    events (um_common e') = events (um_common e) /\
    um_t_reassembly_start e' = um_t_reassembly_start e /\
    um_rx_timer_trigger e' = um_rx_timer_trigger e.
Proof.
  intros [] Hn. destruct (um_config_pos e mid_config0) as [Hw Hm].
  unfold um_update_rx, um_sdu_full. rewrite mid_new0 by done.
  rewrite mid_highest0, (um_key_lt e H) by (done || lia).
  destruct (_ >=? 0) eqn:E; zify_bool; [|lia]. clear E.
  rewrite rem_succ_mod by lia. set (e1 := e <| um_rx_next_highest := _ |>).
  assert (Hc1 : um_config_ok e1) by by apply (um_same_tx_config e).
  destruct (um_window_correct e1 H n Hc1 eq_refl) as
    (e2 & l2 & Hdrop & Htx2 & El2 & Hlist2 & Hin2 & Hdel2 & Es2 & Eh2 & En2 & Et2 & Eg2 & Ev2).
  { change (um_window_size e1) with (um_window_size e). lia. }
  { by replace (Z.max H (n + 1)) with (n + 1) in mid_list0 by lia. }
  change (um_rx_list e1) with (um_rx_list e) in *. change (um_rx_size e1) with (um_rx_size e) in *.
  change (um_window_size e1) with (um_window_size e) in *.
  change (um_sn_modulus e1) with (um_sn_modulus e) in *.
  change (um_rx_next_reassembly e1) with (um_rx_next_reassembly e) in *.
  change (um_rx_next_highest e1) with ((n + 1) mod um_sn_modulus e) in *.
  change (um_common e1) with (um_common e) in *.
  change (um_t_reassembly_start e1) with (um_t_reassembly_start e) in *.
  change (um_rx_timer_trigger e1) with (um_rx_timer_trigger e) in *.
  rewrite Hdrop. clear Hdrop. assert (EM : um_sn_modulus e2 = um_sn_modulus e) by apply Htx2.
  assert (Ew : um_window_size e2 = um_window_size e) by apply Htx2.
  pose proof (um_same_tx_config _ _ Htx2 Hc1) as Hc2. assert (Htx : um_same_tx e e2) by done.
  clear Htx2 Hc1. clearbody e1.
  set (M := um_sn_modulus e) in *. set (w := um_window_size e) in *. assert (HM : 0 < M) by lia.
  assert (exists b, b = n + 1 - w) as [b Hb] by eauto. rewrite <- Hb in *.
  assert (Hlist : rx_list_ok M true sent (H - w) (n + 1) (um_rx_list e)).
  { by replace (Z.max H (n + 1)) with (n + 1) in mid_list0 by lia. }
  assert (Hpost : forall e' R', R <= R' -> b <= R' <= n + 1 ->
    e' = e2 <| um_rx_next_reassembly := R' mod M |> -> sdu_delivered l2 (R' mod M) = false ->
    um_rx_core e' (n + 1) R' done /\ um_same_tx e e').
  { intros e' R' HRR HR' -> HR'd. split; [|by eapply um_same_tx_trans].
    constructor; field_simpl; rewrite ?EM, ?Ew, ?El2, <- ?Hb; try done.
    - by apply (um_same_tx_config e2).
    - intros sn Hsn. destruct (decide (b <= abs_sn M (H - w) sn)) as [Hge|Hlt].
      + assert (Hold : sdu_full (um_rx_list e) sn = false).
        { destruct (decide (sn = n mod M)) as [->|Hne]; [by apply mid_new0|by apply mid_none_full0]. }
        rewrite <- Hold. eapply sdu_full_ext; [done|exact Hlist2|exact Hlist| |apply sent_size| |].
        * apply abs_sn_rebase; [done|done|lia].
        * rewrite Hdel2. by destruct (_ <=? _) eqn:E; zify_bool; [|lia].
        * intros q Hq. rewrite Hin2, Hq. tauto.
      + apply sdu_full_none. intros q Hq Hqs. apply Hin2 in Hq as [_ Hq]. rewrite Hqs in Hq. lia.
    - intros k Hk. destruct (mid_done0 k Hk) as [?|[? Hd]]; [left; lia|].
      destruct (decide (k < R')); [by left|right]. split; [lia|].
      rewrite Hdel2, abs_sn_of by lia. by destruct (_ <=? _) eqn:E; zify_bool; [|lia].
    - lia. }
  assert (Hkey : forall a, n + 1 - w <= a < n + 1 + w ->
    um_sn_compare_rx e2 (a mod M) ((n + 1) mod M) = a - (n + 1)).
  { intros a Ha. rewrite <- EM. apply (um_key_lt e2 (n + 1)); rewrite ?EM, ?Ew; done || lia. }
  rewrite Eh2, En2, mid_next0.
  destruct (decide (b <= R)) as [HbR|HbR].
  - rewrite Hkey by lia. destruct (_ >=? 0) eqn:E; zify_bool; [lia|].
    destruct (Hpost e2 R) as [? ?]; [lia|lia| | |].
    { rewrite <- mid_next0, <- En2. by destruct e2. }
    { rewrite Hdel2, abs_sn_of by lia. by destruct (_ <=? _) eqn:E'; zify_bool; [|lia]. }
    exists e2, R. split_and!; try done; lia.
  - rewrite <- (Z.mod_add R 1), Z.mul_1_l, Hkey by lia.
    destruct (_ >=? 0) eqn:E; zify_bool; [|lia].
    rewrite EM, Ew.
    assert (Ebase : Z.rem ((n + 1) mod M - w + M) M = b mod M).
    { pose proof (Z.mod_pos_bound (n + 1) M HM). rewrite Z.rem_mod_nonneg by lia.
      rewrite <- (Z.mod_add b 1 M), Z.mul_1_l by lia.
      replace ((n + 1) mod M - w + M) with ((n + 1) mod M + (M - w)) by lia.
      rewrite Zplus_mod_idemp_l. f_equal. lia. }
    rewrite Ebase.
    destruct (um_set_next_correct e2 (n + 1) b) as (R' & Hset & HR' & HR'd & _);
      rewrite ?EM, ?Ew, ?El2, <- ?Hb in *; [done|done|lia|].
    rewrite Hset. destruct (Hpost _ R' ltac:(lia) HR' eq_refl HR'd).
    eexists _, R'. split_and!; try done; lia.
Qed.

(** Insertion, then the state variables. *)
Lemma um_update_correct e H R done n :
  um_rx_mid e H R done n ->
  exists e' H' R' new, um_update_rx e (n mod um_sn_modulus e) = Ok e' /\
    um_rx_core e' H' R' (done ++ new) /\ H <= H' <= Z.max H (n + 1) /\ R <= R' /\ um_same_tx e e' /\
    (new = [] \/ new = [n]) /\
    events (um_common e') = events (um_common e) ++ ((fun k => DeliverSdu (sent k)) <$> new) /\
    um_t_reassembly_start e' = um_t_reassembly_start e /\
    um_rx_timer_trigger e' = um_rx_timer_trigger e.
Proof.
  intros Hmid. destruct (sdu_full (um_rx_list e) (n mod um_sn_modulus e)) eqn:Efull.
  - destruct (um_update_full e H R done n Hmid Efull) as (e' & R' & -> & Hc & HR & Htx & Hev & ? & ?).
    exists e', H, R', [n]. split_and!; try done; try lia. by right.
  - destruct (decide (H <= n)) as [Hn|Hn].
    + destruct (um_update_new e H R done n Hmid Hn) as (e' & R' & -> & Hc & HR & Htx & Hev & ? & ?).
      exists e', (n + 1), R', []. rewrite !app_nil_r, Hev. split_and!; try done; try lia. by left.
    + destruct Hmid. destruct (um_config_pos e mid_config0) as [Hw Hm].
      unfold um_update_rx, um_sdu_full. rewrite Efull, mid_highest0, (um_key_lt e H) by (done || lia).
      destruct (_ >=? 0) eqn:E; zify_bool; [lia|].
      exists e, H, R, []. rewrite !app_nil_r. split_and!; try done; try lia; [|by left].
      constructor; try done.
      * by replace (Z.max H (n + 1)) with H in mid_list0 by lia.
      * intros sn Hsn. destruct (decide (sn = n mod um_sn_modulus e)) as [->|]; [done|].
        by apply mid_none_full0.
Qed.

(** ** Reception of a segment *)

Lemma um_insert_correct e H R done n p :
  um_rx_core e H R done -> R <= n < H + um_window_size e ->
  pdu_sn p = n mod um_sn_modulus e -> genuine (sent n) p ->
  (pdu_so p = 0 -> pdu_is_last p = false) ->
  let e' := e <| um_rx_size := um_rx_size e + pdu_size p |>
              <| um_rx_list := nr_rlc_pdu_list_add (um_sn_compare_rx e) (um_rx_list e) p |> in
  um_rx_mid e' H R done n.
Proof.
  intros [] Hn Hsn Hg Hpart e'. destruct (um_config_pos e ui_config0) as [Hw Hm].
  set (M := um_sn_modulus e) in *. set (w := um_window_size e) in *. assert (HM : 0 < M) by lia.
  assert (Hmod : 0 <= pdu_sn p < M) by (rewrite Hsn; by apply Z.mod_pos_bound).
  set (add := nr_rlc_pdu_list_add (fun a b => sn_key M (H - w) a - sn_key M (H - w) b) (um_rx_list e) p).
  assert (Eadd : nr_rlc_pdu_list_add (um_sn_compare_rx e) (um_rx_list e) p = add).
  { apply list_add_ext. intros q Hq. pose proof (rl_window _ _ _ _ _ _ ui_list0) as Hwin.
    rewrite Forall_forall in Hwin. destruct (Hwin q Hq) as [Hqs _]. unfold um_sn_compare_rx.
    by rewrite !(um_modulus_rx_key e H) by done. }
  destruct (rx_list_insert M HM true sent _ _ _ p n ui_list0 ltac:(lia) Hsn Hg) as [Hok Hdel].
  fold add in Hok, Hdel. unfold e'. rewrite Eadd.
  assert (Hin : forall q, q ∈ add <-> q = p \/ q ∈ um_rx_list e).
  { intros q. unfold add. by rewrite list_add_perm, elem_of_cons. }
  constructor; field_simpl; fold M w; try done.
  - by apply (um_same_tx_config e).
  - by rewrite Hdel.
  - intros sn Hs Hne. rewrite <- (ui_none_full0 sn Hs).
    eapply sdu_full_ext; [done|exact Hok|exact ui_list0|done|apply sent_size|done|].
    intros q Hq. rewrite Hin. split; [intros [->|]; [congruence|done]|by right].
  - intros Hnew. destruct (sdu_full add (n mod M)) eqn:Efull; [exfalso|done].
    assert (Habs : abs_sn M (H - w) (n mod M) = n) by (apply abs_sn_of; lia).
    apply (sdu_full_iff M HM true sent _ _ _ _ Hok ltac:(apply sent_size)) in Efull as [_ Hall].
    rewrite Habs in Hall.
    assert (Honly : forall q, q ∈ add -> pdu_sn q = n mod M -> q = p).
    { intros q Hq Hqs. apply Hin in Hq as [|Hq]; [done|exfalso].
      pose proof (rl_window _ _ _ _ _ _ ui_list0) as Hwin. rewrite Forall_forall in Hwin.
      destruct (Hwin q Hq) as [_ Hlt]. rewrite Hqs, Habs in Hlt. lia. }
    destruct Hg as ((Hso & Hsz & Hend & Hlast) & _). unfold pdu_end in *.
    destruct (Hall 0) as (q & Hq & Hqs & Hqi); [pose proof (sent_size n); lia|].
    apply Honly in Hq as ->; [|done]. assert (Hso0 : pdu_so p = 0) by lia.
    destruct (Hall (zlen (sent n) - 1)) as (q & Hq & Hqs' & Hqi'); [pose proof (sent_size n); lia|].
    apply Honly in Hq as ->; [|done]. unfold pdu_end in *. specialize (Hpart Hso0).
    assert (pdu_is_last p = true) by (apply Hlast; lia). congruence.
  - intros k Hk. destruct (ui_done0 k Hk) as [?|[? Hd]]; [by left|right]. by rewrite Hdel.
  - unfold add, rx_bytes. rewrite list_add_perm, zsum_cons. unfold rx_bytes in ui_bytes0.
    destruct Hg as (_ & Hd & _). destruct (pdu_data p); [lia|done].
Qed.

(** What one call of the receiver does. *)
Definition um_received (e e' : nr_rlc_entity_um_t) (H R : Z) (done : list Z) (n : Z) : Prop :=
  exists H' R' new, um_rx_inv e' H' R' (done ++ new) /\ H <= H' <= Z.max H (n + 1) /\ R <= R' /\
    um_same_tx e e' /\ (new = [] \/ new = [n]) /\
    events (um_common e') = events (um_common e) ++ ((fun k => DeliverSdu (sent k)) <$> new).

Lemma um_discard_pdu_correct e H R done n size :
  um_rx_inv e H R done -> um_received e (um_discard_pdu e size) H R done n.
Proof.
  intros [Hc Ht]. exists H, R, []. rewrite !app_nil_r.
  split_and!; try done; try lia; [|by left]. split; [by eapply um_rx_core_ext|done].
Qed.

(** The bytes of a PDU that carry the segment of [sent n] at [so]. *)
Record um_segment (buffer : list Z) (byte n so : Z) (last : bool) : Prop := {
  us_byte : 0 <= byte < zlen buffer;
  us_so : 0 <= so;
  us_fit : so + (zlen buffer - byte) <= zlen (sent n);
  us_last : last = (so + (zlen buffer - byte) =? zlen (sent n));
  us_part : so = 0 -> last = false;
  us_data : zslice buffer byte (zlen buffer - byte) = zslice (sent n) so (zlen buffer - byte);
}.

Lemma um_recv_segment_correct e H R done buffer byte n so last :
  um_rx_inv e H R done -> H - um_window_size e <= n < H + um_window_size e ->
  um_segment buffer byte n so last ->
  exists e', um_recv_segment e buffer (zlen buffer) (n mod um_sn_modulus e) so (so =? 0) last byte
             = Ok e' /\ um_received e e' H R done n.
Proof.
  intros Hinv Hn []. pose proof Hinv as [Hcore Htrig].
  pose proof (ui_config _ _ _ _ Hcore) as Hc. destruct (um_config_pos e Hc) as [Hw Hm].
  pose proof (ui_range _ _ _ _ Hcore) as HR.
  unfold um_recv_segment. set (len := zlen buffer - byte) in *.
  destruct (len <=? 0) eqn:E; zify_bool; [unfold len in *; lia|].
  destruct (_ >? um_rx_maxsize e). { eexists. split; [done|]. by apply um_discard_pdu_correct. }
  rewrite (ui_next _ _ _ _ Hcore), (um_key_lt e H) by (apply Hcore || done || lia).
  destruct (n - R <? 0) eqn:ER; zify_bool. { eexists. split; [done|]. by apply um_discard_pdu_correct. }
  replace (zlen buffer - len) with byte by (unfold len; lia).
  destruct (zslice buffer byte len) as [data|] eqn:Edata.
  2: { rewrite zslice_ok in Edata by (unfold len; lia). done. }
  cbn [of_option mbind outcome_bind]. unfold um_reception_actions, nr_rlc_new_pdu.
  set (p := mk_nr_rlc_pdu _ _ _ _ _ _).
  pose proof (um_insert_correct e H R done n p Hcore ltac:(lia) eq_refl) as Hmid.
  cbv zeta in Hmid. set (e1 := _ <| um_rx_list := _ |>) in Hmid.
  destruct (um_update_correct e1 H R done n) as
    (e2 & H' & R' & new & Hupd & Hcore' & HH' & HR' & Htx & Hnew & Hev & Et & Eg).
  { apply Hmid; [|done]. split; [|split; [done|]].
    - split_and!; unfold pdu_end; cbn; try lia. subst last. rewrite Z.eqb_eq. done.
    - cbn. by rewrite <- us_data0. }
  assert (Hupd' : um_update_rx ((e <| um_rx_size := um_rx_size e + len |>) <| um_rx_list :=
      nr_rlc_pdu_list_add (um_sn_compare_rx (e <| um_rx_size := um_rx_size e + len |>))
        (um_rx_list (e <| um_rx_size := um_rx_size e + len |>)) p |>) (pdu_sn p) = Ok e2) by exact Hupd.
  rewrite Hupd'. cbn [mbind outcome_bind].
  assert (EM : um_sn_modulus e2 = um_sn_modulus e) by apply Htx.
  destruct (um_stop_start_correct e2 H' R' (done ++ new) R H Hcore') as (e3 & He3 & Hinv3 & Htx3 & Hev3).
  { intros Hrun. rewrite Et in Hrun. destruct (Htrig Hrun) as (T & HT & HTr). exists T.
    split; [|done]. by rewrite Eg, EM. }
  { lia. }
  { rewrite EM. lia. }
  rewrite He3. exists e3. split; [done|]. exists H', R', new.
  split_and!; try done; try lia; [|by rewrite Hev3, Hev].
  eapply um_same_tx_trans; [|exact Htx3]. exact Htx.
Qed.

(** ** Expiry of t_reassembly *)

Lemma um_below_correct e H R :
  um_config_ok e -> um_rx_next_highest e = H mod um_sn_modulus e ->
  um_rx_next_reassembly e = R mod um_sn_modulus e -> H - um_window_size e <= R <= H ->
  rx_list_ok (um_sn_modulus e) true sent (H - um_window_size e) H (um_rx_list e) ->
  exists e' l', um_drop_below e (um_rx_list e) = e' /\ um_same_tx e e' /\
    um_rx_list e' = l' /\ rx_list_ok (um_sn_modulus e) true sent (H - um_window_size e) H l' /\
    (forall p, p ∈ l' <-> p ∈ um_rx_list e /\
       R <= abs_sn (um_sn_modulus e) (H - um_window_size e) (pdu_sn p)) /\
    (forall sn, sdu_delivered l' sn =
       if R <=? abs_sn (um_sn_modulus e) (H - um_window_size e) sn
       then sdu_delivered (um_rx_list e) sn else false) /\
    rx_bytes l' <= rx_bytes (um_rx_list e) /\ um_rx_size e' = um_rx_size e /\
    um_rx_next_highest e' = um_rx_next_highest e /\
    um_rx_next_reassembly e' = um_rx_next_reassembly e /\
    um_t_reassembly_start e' = um_t_reassembly_start e /\
    events (um_common e') = events (um_common e).
Proof.
  intros Hc HH Hnext HR Hlist. destruct (um_config_pos e Hc) as [Hw Hm].
  set (M := um_sn_modulus e) in *. set (w := um_window_size e) in *. assert (HM : 0 < M) by lia.
  destruct (rx_list_split M true sent _ _ _ R Hlist) as (l1 & l2 & El & Hl1 & Hl2).
  assert (Hkey : forall p, p ∈ um_rx_list e -> um_sn_compare_rx e (pdu_sn p) (um_rx_next_reassembly e) =
    abs_sn M (H - w) (pdu_sn p) - R).
  { intros p Hp. pose proof (rl_window _ _ _ _ _ _ Hlist) as Hwin. rewrite Forall_forall in Hwin.
    destruct (Hwin p Hp) as [Hsn Htop]. rewrite Hnext. unfold M.
    by rewrite (um_key_abs e H) by (done || (fold w; lia)). }
  rewrite El. destruct (um_drop_below_app e l1 l2)
    as (e2 & -> & Htx2 & El2 & Es2 & Eh2 & En2 & Et2 & Eg2 & _ & Ev2).
  { rewrite Forall_forall in *. intros p Hp. specialize (Hl1 p Hp). cbn in Hl1.
    rewrite (Hkey p) by (rewrite El; set_solver). lia. }
  { intros p r ->. apply Forall_cons in Hl2 as [Hp _]. rewrite (Hkey p) by (rewrite El; set_solver). lia. }
  rewrite El in Hlist. destruct (rx_list_suffix M HM true sent _ _ _ _ R Hlist Hl1 Hl2) as [Hlist2 Hdel2].
  exists e2, l2. split_and!; try done.
  - intros p. rewrite elem_of_app. rewrite Forall_forall in Hl1, Hl2. split.
    + intros Hp. split; [by right|by apply Hl2].
    + intros [[Hp|Hp] Hge]; [|done]. specialize (Hl1 p Hp). cbn in Hl1. lia.
  - rewrite rx_bytes_app. assert (0 <= rx_bytes l1); [|lia].
    apply zsum_nonneg. intros p Hp. pose proof (rx_list_prefix _ _ _ _ _ _ _ Hlist) as Hpre.
    rewrite Forall_forall in Hpre. destruct (Hpre p Hp) as [_ Hd].
    destruct (pdu_data p); [|done]. destruct Hd as [(_ & ? & _) _]. lia.
Qed.

Lemma um_set_time_correct e H R done now :
  um_rx_inv e H R done ->
  exists e' R', nr_rlc_entity_um_set_time e now = Ok e' /\ um_rx_inv e' H R' done /\ R <= R' /\
    um_same_tx e e' /\ events (um_common e') = events (um_common e).
Proof.
  intros [Hcore Htrig]. unfold nr_rlc_entity_um_set_time, um_check_t_reassembly.
  set (e0 := e <| um_t_current := now |>).
  assert (Hcore0 : um_rx_core e0 H R done) by by eapply um_rx_core_ext.
  assert (Htrig0 : um_trigger e0 R H) by done. assert (Htx0 : um_same_tx e e0) by done.
  assert (Hev0 : events (um_common e0) = events (um_common e)) by done. clearbody e0.
  destruct ((um_t_reassembly_start e0 =? 0) || _) eqn:Erun.
  { exists e0, R. by split_and!. }
  apply orb_false_iff in Erun as [Erun _]. zify_bool. destruct (Htrig0 Erun) as (T & HT & HTr).
  destruct Hcore0. destruct (um_config_pos e0 ui_config0) as [Hw Hm].
  set (e1 := e0 <| um_t_reassembly_start := 0 |>).
  assert (Hc1 : um_config_ok e1) by by apply (um_same_tx_config e0).
  destruct (um_set_next_correct e1 H T Hc1 ui_list0) as (R' & Hset & HR' & HR'd & Hskip).
  { change (um_window_size e1) with (um_window_size e0). lia. }
  change (um_rx_timer_trigger e1) with (um_rx_timer_trigger e0). rewrite HT.
  change (um_sn_modulus e1) with (um_sn_modulus e0) in *.
  rewrite Hset. cbn [mbind outcome_bind]. set (e2 := e1 <| um_rx_next_reassembly := _ |>).
  assert (Hc2 : um_config_ok e2) by by apply (um_same_tx_config e0).
  destruct (um_below_correct e2 H R' Hc2 ui_highest0 eq_refl) as
    (e3 & l3 & -> & Htx3 & El3 & Hl3 & Hin3 & Hdel3 & Hb3 & Es3 & Eh3 & En3 & Et3 & Ev3).
  { change (um_window_size e2) with (um_window_size e0). lia. }
  { exact ui_list0. }
  assert (EM : um_sn_modulus e3 = um_sn_modulus e0) by apply Htx3.
  assert (Ew : um_window_size e3 = um_window_size e0) by apply Htx3.
  change (um_window_size e2) with (um_window_size e0) in *.
  change (um_sn_modulus e2) with (um_sn_modulus e0) in *.
  change (um_rx_list e2) with (um_rx_list e0) in *. change (um_rx_list e1) with (um_rx_list e0) in *.
  assert (Hcore3 : um_rx_core e3 H R' done).
  { constructor; rewrite ?EM, ?Ew, ?El3, ?Eh3, ?En3; try done.
    - by apply (um_same_tx_config e2).
    - lia.
    - rewrite Hdel3, HR'd. by destruct (_ <=? _).
    - intros sn Hsn. destruct (decide (R' <= abs_sn (um_sn_modulus e0) (H - um_window_size e0) sn)) as [Hge|Hlt].
      + rewrite <- (ui_none_full0 sn Hsn). assert (HM : 0 < um_sn_modulus e0) by lia. eapply sdu_full_ext; [exact HM|exact Hl3|exact ui_list0|done|apply sent_size| |].
        * rewrite Hdel3. by destruct (_ <=? _) eqn:E; zify_bool; [|lia].
        * intros q Hq. rewrite Hin3, Hq. tauto.
      + apply sdu_full_none. intros q Hq Hqs. apply Hin3 in Hq as [_ Hq]. rewrite Hqs in Hq. lia.
    - intros k Hk. destruct (ui_done0 k Hk) as [?|[? Hd]]; [left; lia|].
      destruct (decide (k < R')); [by left|right]. split; [lia|].
      rewrite Hdel3, abs_sn_of by lia. by destruct (_ <=? _) eqn:E; zify_bool; [|lia].
    - rewrite Es3. change (um_rx_size e2) with (um_rx_size e0). lia. }
  assert (Htx : um_same_tx e e3).
  { eapply um_same_tx_trans; [exact Htx0|]. eapply um_same_tx_trans; [|exact Htx3]. done. }
  assert (Hev : events (um_common e3) = events (um_common e)) by by rewrite Ev3.
  rewrite En3, Eh3. change (um_rx_next_reassembly e2) with (R' mod um_sn_modulus e0).
  change (um_rx_next_highest e2) with (um_rx_next_highest e0). rewrite EM, ui_highest0, rem_succ_mod by lia.
  destruct (_ || _) eqn:E.
  - eexists _, R'. split; [done|]. split_and!; try done; try lia. split; [by eapply um_rx_core_ext|].
    intros _. exists H. field_simpl. rewrite EM. split; [done|]. split; [|lia].
    apply orb_true_iff in E as [E|E]; zify_bool.
    + rewrite <- EM, (um_key_lt e3 H) in E by (rewrite ?EM, ?Ew, ?Eh3; done || lia || apply Hcore3). lia.
    + assert (H mod um_sn_modulus e0 = (R' + 1) mod um_sn_modulus e0).
      { pose proof (Z.mod_pos_bound H (um_sn_modulus e0) ltac:(lia)).
        rewrite <- (Z.mod_small (H mod um_sn_modulus e0) (um_sn_modulus e0)) by lia.
        rewrite H0. by rewrite Zplus_mod_idemp_l. }
      apply (mod_inj _ _ _ (H - um_window_size e0)) in H2; lia.
  - exists e3, R'. split_and!; try done; try lia. split; [done|]. intros Hrun. by rewrite Et3 in Hrun.
Qed.
End peer.

(** ** Decoding what the transmitter encoded *)

Definition um_count_rx (e : nr_rlc_entity_um_t) (size : Z) : nr_rlc_entity_um_t :=
  e <| um_common := add_stat (add_stat (um_common e) rxpdu_pkts 1) rxpdu_bytes size |>.

Definition um_deliver_whole (e : nr_rlc_entity_um_t) (sdu : list Z) : nr_rlc_entity_um_t :=
  e <| um_common := add_stat64 (add_stat (emit (um_common e) (DeliverSdu sdu)) txsdu_pkts 1)
                      txsdu_bytes (zlen sdu) |>.

Lemma um_recv_pdu_decodes e sn s u pdu :
  um_config_ok e -> um_carries (um_sn_field_length e) sn s u pdu -> seg_range s u ->
  zlen (sdu_data u) = sdu_size u -> sdu_size u <= NR_SDU_MAX ->
  0 <= sn < um_sn_modulus e -> 0 < seg_size s ->
  nr_rlc_entity_um_recv_pdu e pdu (zlen pdu) =
    if is_first s && is_last s then Ok (um_deliver_whole (um_count_rx e (zlen pdu)) (sdu_data u))
    else um_recv_segment (um_count_rx e (zlen pdu)) pdu (zlen pdu) sn (seg_so s)
           (is_first s) (is_last s)
           (um_pdu_header_size (um_sn_field_length e) (is_first s) (is_last s)).
Proof.
  intros [Hlen Hmod _] (hdr & data & -> & Hhl & Hbits & Hslice) Hrange Hdl Hmax Hsn Hsz.
  pose proof (zslice_len _ _ _ _ Hslice) as Hdata. rewrite Hmod in Hsn.
  destruct Hrange as (Hso & _ & Hend & Hfirst & Hlast & _). unfold seg_end in *.
  unfold nr_rlc_entity_um_recv_pdu. fold (um_count_rx e (zlen (hdr ++ data))).
  change (um_sn_field_length (um_count_rx e (zlen (hdr ++ data)))) with (um_sn_field_length e).
  set (d0 := nr_rlc_pdu_decoder_init (hdr ++ data) (zlen (hdr ++ data))).
  pose proof (dec_repr_init (hdr ++ data) _ eq_refl) as Hd0. fold d0 in Hd0.
  rewrite buffer_bits_app, Hbits in Hd0.
  assert (Hf0 : dec_frame d0 d0 0) by (unfold dec_frame; split_and!; done || lia).
  set (si := 2 * b2z (negb (is_first s)) + b2z (negb (is_last s))).
  set (rest := skipn 2 (um_header_fields (um_sn_field_length e) sn s)).
  assert (Hsplit : fields_bits (um_header_fields (um_sn_field_length e) sn s)
    = bits_of si 2 ++ fields_bits rest).
  { unfold rest, si, um_header_fields. by destruct (is_first s), (is_last s). }
  rewrite Hsplit, <- app_assoc in Hd0.
  destruct (read_field d0 d0 si 2 _ 0 Hd0 Hf0) as (d1 & -> & He1 & Hd1 & Hf1); [lia| |].
  { unfold si. destruct (is_first s), (is_last s); cbn; lia. }
  cbn [mbind outcome_bind]. rewrite He1.
  assert (Hsi : (Z.land si 2 =? 0) = is_first s /\ (Z.land si 1 =? 0) = is_last s).
  { unfold si. by destruct (is_first s), (is_last s). }
  destruct Hsi as [-> ->].
  destruct (is_first s && is_last s) eqn:Ewhole.
  { apply andb_true_iff in Ewhole as [Ef El]. rewrite Ef, El in *.
    assert (seg_so s = 0) by by apply Hfirst. assert (seg_so s + seg_size s = sdu_size u) by by apply Hlast.
    change (zlen hdr = 1) in Hhl.
    destruct (_ <? 2) eqn:E2; zify_bool; [rewrite zlen_app in E2; lia|].
    replace (zlen (hdr ++ data) - 1) with (zlen data) by (rewrite zlen_app; lia).
    assert (Hz : zslice (hdr ++ data) 1 (zlen data) = Some data).
    { rewrite <- Hhl. by apply zslice_app_r. }
    rewrite Hz. cbn [of_option mbind outcome_bind].
    assert (data = sdu_data u) as ->; [|done].
    rewrite H in Hslice.
    replace (seg_size s) with (zlen (sdu_data u)) in Hslice by lia.
    rewrite zslice_all in Hslice. by injection Hslice. }
  assert (Hrest : fields_bits rest = (if um_sn_field_length e =? 12 then bits_of 0 2 else [])
    ++ bits_of sn (Z.to_nat (um_sn_field_length e))
    ++ (if negb (is_first s) then bits_of (seg_so s) 16 else [])).
  { unfold rest, um_header_fields. rewrite Ewhole. destruct (um_sn_field_length e =? 12), (is_first s);
      cbn [negb app drop fields_bits mbind list_bind fst snd]; by rewrite ?app_nil_r. }
  rewrite Hrest, <- !app_assoc in Hd1.
  assert (H2 : exists d2 r, (if um_sn_field_length e =? 12 then nr_rlc_pdu_decoder_get_bits d1 2
      else Ok (0, d1)) = Ok (r, d2) /\ dec_error d2 = false /\
    dec_repr d2 (bits_of sn (Z.to_nat (um_sn_field_length e))
      ++ (if negb (is_first s) then bits_of (seg_so s) 16 else []) ++ buffer_bits data) /\
    dec_frame d0 d2 (2 + if um_sn_field_length e =? 12 then 2 else 0)).
  { destruct (um_sn_field_length e =? 12).
    - destruct (read_field d1 d0 0 2 _ _ Hd1 Hf1) as (d2 & ? & ? & ? & ?); [lia|cbn; lia|].
      by exists d2, 0.
    - exists d1, 0. by split_and!. }
  destruct H2 as (d2 & r & -> & He2 & Hd2 & Hf2). cbn [mbind outcome_bind]. rewrite He2.
  destruct (read_field d2 d0 sn (um_sn_field_length e) _ _ Hd2 Hf2) as (d3 & -> & He3 & Hd3 & Hf3);
    [lia|done|].
  cbn [mbind outcome_bind]. rewrite He3.
  assert (Hhs : forall d n, dec_repr d (buffer_bits data) -> dec_frame d0 d n ->
    n = 8 * um_pdu_header_size (um_sn_field_length e) (is_first s) (is_last s) ->
    dec_byte d = um_pdu_header_size (um_sn_field_length e) (is_first s) (is_last s)).
  { intros d n Hd Hf Hn. eapply dec_byte_of; [exact Hd| |exact Hn].
    unfold dec_frame in *. cbn in *. intuition. }
  destruct (is_first s) eqn:Ef; cbn [negb].
  - rewrite (Hhs d3 _ Hd3 Hf3). { by replace (seg_so s) with 0 by (symmetry; by apply Hfirst). }
    cbn [andb] in Ewhole. rewrite Ewhole. unfold um_pdu_header_size. cbn.
    destruct Hlen as [-> | ->]; cbn; lia.
  - cbn [negb] in Hd3. destruct (read_field d3 d0 (seg_so s) 16 _ _ Hd3 Hf3) as (d4 & -> & He4 & Hd4 & Hf4);
      [lia|unfold NR_SDU_MAX in *; lia|].
    cbn [mbind outcome_bind]. rewrite He4.
    destruct (seg_so s =? 0) eqn:Eso; zify_bool. { apply Hfirst in Eso. congruence. }
    rewrite (Hhs d4 _ Hd4 Hf4); [done|]. unfold um_pdu_header_size. cbn.
    destruct Hlen as [-> | ->]; cbn; lia.
Qed.
