(* ===== verification/RlcUmProps.v ===== *)
(** * Properties of the UM entity

    Safety of the transmitter over any sequence of calls, exactness of the
    receiver over any admissible sequence of segments and timeouts, the two
    together: what one side generates is what the other receives; and grants
    empty the transmit list. *)

From S2P Require Import Prelude TimeStat RlcPdu RlcSdu RlcReassembly RlcRxList RlcEntity RlcUm RlcUmTx RlcUmRx.

Lemma new_um_correct rx_maxsize tx_maxsize t_reassembly len :
  len = 6 \/ len = 12 ->
  exists e, new_nr_rlc_entity_um rx_maxsize tx_maxsize t_reassembly len = Ok e /\
    um_config_ok e /\ um_sn_field_length e = len /\ um_tx_inv e /\
    (forall sent, um_rx_inv sent e 0 0 []) /\ events (um_common e) = [].
Proof.
  intros Hlen. destruct (new_common_ok NR_RLC_UM) as (c & Hc & Hok & Hh & He & Hb).
  unfold new_nr_rlc_entity_um. rewrite Hc.
  assert (Hr : require ((len =? 6) || (len =? 12)) Exit = Ok tt) by by destruct Hlen as [-> | ->].
  rewrite Hr. cbn [mbind outcome_bind]. eexists. split; [done|].
  assert (Hcfg : forall e, um_sn_field_length e = len -> um_sn_modulus e = Z.shiftl 1 len ->
    um_window_size e = Z.shiftl 1 len / 2 -> um_config_ok e).
  { intros e E1 E2 E3. constructor; rewrite ?E1, ?E2, ?E3; [done| |]; by destruct Hlen as [-> | ->]. }
  assert (0 < Z.shiftl 1 len / 2) by (destruct Hlen as [-> | ->]; reflexivity).
  assert (Z.shiftl 1 len = 2 * (Z.shiftl 1 len / 2)) by by destruct Hlen as [-> | ->].
  split_and!; try done.
  - by apply Hcfg.
  - constructor; cbn [um_common um_tx_list um_tx_end um_tx_size um_sn_field_length um_tx_next um_sn_modulus];
      rewrite ?Hh, ?Hb; try done; [apply heap_inv_empty|lia].
  - intros sent. split; [|by unfold um_trigger]. constructor; cbn [um_rx_next_highest um_rx_next_reassembly um_window_size
      um_sn_modulus um_rx_list um_rx_size]; try done; try (by apply Hcfg); try lia.
    + apply rx_list_ok_nil.
    + constructor.
    + intros n Hn. by apply not_elem_of_nil in Hn.
Qed.

(** ** The transmitter *)

Inductive um_tx_op : Type :=
| UmRecvSdu (d : list Z) (sdu_id now : Z)
| UmGenerate (buffer : list Z) (size now : Z)
| UmDiscard (sdu_id : Z)
| UmReestablish.

Definition um_tx_op_ok (op : um_tx_op) : Prop :=
  match op with
  | UmRecvSdu d _ _ => zlen d <= NR_SDU_MAX
  | UmGenerate buffer size _ => bytes_ok buffer /\ 0 <= size <= zlen buffer /\ size <> 2
  | _ => True
  end.

(** One call, and the PDU it produced. *)
Definition um_tx_step (e : nr_rlc_entity_um_t) (op : um_tx_op)
    : outcome (nr_rlc_entity_um_t * list Z) :=
  match op with
  | UmRecvSdu d sdu_id now =>
      e ← nr_rlc_entity_um_recv_sdu e d (zlen d) sdu_id now; Ok (e, [])
  | UmGenerate buffer size now =>
      '(n, buffer, e) ← nr_rlc_entity_um_generate_pdu e buffer size now;
      Ok (e, take (Z.to_nat n) buffer)
  | UmDiscard sdu_id => e ← nr_rlc_entity_um_discard_sdu e sdu_id; Ok (e, [])
  | UmReestablish => e ← nr_rlc_entity_um_reestablishment e; Ok (e, [])
  end.

Fixpoint um_tx_run (e : nr_rlc_entity_um_t) (ops : list um_tx_op)
    : outcome (nr_rlc_entity_um_t * list (list Z)) :=
  match ops with
  | [] => Ok (e, [])
  | op :: ops => '(e, o) ← um_tx_step e op; '(e, os) ← um_tx_run e ops; Ok (e, o :: os)
  end.

Definition um_pdu_fits (op : um_tx_op) (pdu : list Z) : Prop :=
  match op with
  | UmGenerate _ size _ => zlen pdu <= size
  | _ => pdu = []
  end.

Lemma um_tx_step_ok e op :
  um_config_ok e -> um_tx_inv e -> um_tx_op_ok op ->
  exists e' pdu, um_tx_step e op = Ok (e', pdu) /\ um_config_ok e' /\ um_tx_inv e' /\ um_pdu_fits op pdu.
Proof.
  intros Hc Hinv Hok. destruct op as [d id now|buffer size now|id|]; cbn [um_tx_step um_pdu_fits].
  - destruct (um_recv_sdu_correct e d id now Hinv Hok) as (e' & -> & Hinv' & Hrx & _).
    exists e', []. split_and!; try done. by eapply um_same_rx_config.
  - destruct Hok as (Hb & Hroom & Hne).
    destruct (um_generate_correct e buffer size now Hc Hinv Hb ltac:(lia) Hne)
      as (n & buffer' & e' & -> & Hinv' & Hrx & Hcase).
    exists e', (take (Z.to_nat n) buffer'). split_and!; try done; [by eapply um_same_rx_config|].
    destruct Hcase as [(-> & -> & -> & _)|(s & l & _ & _ & _ & u & s1 & _ & _ & _ & _ & Hle & _)]; [|done].
    change (0 <= size). lia.
  - destruct (um_discard_correct e id Hinv) as (e' & -> & Hinv' & Hrx & _).
    exists e', []. split_and!; try done. by eapply um_same_rx_config.
  - destruct (um_clear_correct e Hc Hinv) as (e' & -> & Hinv' & _ & _ & _ & _ & _ & _ & Hc' & _).
    exists e', []. by split_and!.
Qed.



(** ** The receiver *)

(** [pdu] is a PDU of the peer, for the SDU it numbered [n]: whole, or a
    segment of it. *)
Definition um_peer_pdu (sent : Z -> list Z) (len n : Z) (pdu : list Z) : Prop :=
  exists s u, um_carries len (n mod 2 ^ len) s u pdu /\ seg_range s u /\ 0 < seg_size s /\
    sdu_data u = sent n /\ sdu_size u = zlen (sent n) /\ is_first s && is_last s = false.

(** Calls of the receiver: PDUs at most half the SN space away from the highest
    number seen, and time.  [H] is the absolute number of [rx_next_highest]. *)
Inductive um_rx_steps (sent : Z -> list Z) (len : Z) :
    nr_rlc_entity_um_t -> Z -> nr_rlc_entity_um_t -> Prop :=
| um_rx_start e H : um_rx_steps sent len e H e
| um_rx_pdu e H e1 e2 n pdu :
    H - 2 ^ (len - 1) <= n < H + 2 ^ (len - 1) -> um_peer_pdu sent len n pdu ->
    nr_rlc_entity_um_recv_pdu e pdu (zlen pdu) = Ok e1 ->
    um_rx_steps sent len e1 (abs_sn (2 ^ len) H (um_rx_next_highest e1)) e2 ->
    um_rx_steps sent len e H e2
| um_rx_time e H e1 e2 now :
    nr_rlc_entity_um_set_time e now = Ok e1 -> um_rx_steps sent len e1 H e2 ->
    um_rx_steps sent len e H e2.

Section receiver.
Context (sent : Z -> list Z) (sent_size : forall n, 0 < zlen (sent n) <= NR_SDU_MAX).

Lemma um_config_len e : um_config_ok e ->
  um_sn_modulus e = 2 ^ um_sn_field_length e /\ um_window_size e = 2 ^ (um_sn_field_length e - 1).
Proof.
  intros [Hl Hm Hw]. split; [done|]. rewrite Hm in Hw. destruct Hl as [E|E]; rewrite E in *; lia.
Qed.

(** A PDU of the peer is received, whatever the state. *)
Lemma um_recv_peer_pdu e H R done n pdu :
  um_rx_inv sent e H R done -> H - um_window_size e <= n < H + um_window_size e ->
  um_peer_pdu sent (um_sn_field_length e) n pdu ->
  exists e', nr_rlc_entity_um_recv_pdu e pdu (zlen pdu) = Ok e' /\
    um_received sent e e' H R done n.
Proof.
  intros Hinv Hn (s & u & Hcarry & Hrange & Hsz & Hd & Hus & Hpart).
  pose proof (ui_config _ _ _ _ _ (proj1 Hinv)) as Hc. destruct (um_config_pos e Hc) as [Hw Hm].
  destruct (um_config_len e Hc) as [Hmod _]. rewrite <- Hmod in Hcarry.
  rewrite (um_recv_pdu_decodes e (n mod um_sn_modulus e) s u pdu Hc Hcarry Hrange);
    [|by rewrite Hd, Hus|rewrite Hus; apply sent_size|apply Z.mod_pos_bound; lia|done].
  rewrite Hpart. set (hs := um_pdu_header_size _ _ _).
  destruct Hrange as (Hso & _ & Hend & Hfirst & Hlast & _). unfold seg_end in *.
  assert (Ef : is_first s = (seg_so s =? 0)).
  { apply eq_true_iff_eq. by rewrite Hfirst, Z.eqb_eq. }
  destruct Hcarry as (hdr & data & Epdu & Hhl & _ & Hslice). fold hs in Hhl.
  assert (1 <= hs) by apply um_header_size_bounds. pose proof (zslice_len _ _ _ _ Hslice) as Hdl.
  assert (Hlen : zlen pdu - hs = seg_size s) by (rewrite Epdu, zlen_app; lia).
  assert (Hinv1 : um_rx_inv sent (um_count_rx e (zlen pdu)) H R done).
  { split; [by eapply um_rx_core_ext; [apply Hinv|..]|apply Hinv]. }
  assert (Eq : um_recv_segment (um_count_rx e (zlen pdu)) pdu (zlen pdu) (n mod um_sn_modulus e)
      (seg_so s) (is_first s) (is_last s) hs
    = um_recv_segment (um_count_rx e (zlen pdu)) pdu (zlen pdu)
        (n mod um_sn_modulus (um_count_rx e (zlen pdu))) (seg_so s) (seg_so s =? 0) (is_last s) hs).
  { by rewrite Ef. }
  rewrite Eq.
  destruct (um_recv_segment_correct sent sent_size (um_count_rx e (zlen pdu)) H R done pdu hs n
    (seg_so s) (is_last s) Hinv1 Hn) as (e' & He' & H' & R' & new & Hinv' & ? & ? & Htx & ? & Hev).
  { constructor; rewrite ?Hlen; try lia.
    - apply eq_true_iff_eq. rewrite Hlast, Z.eqb_eq. lia.
    - intros E. rewrite E in Ef. rewrite Ef in Hpart. by destruct (is_last s).
    - rewrite Hd in Hslice. rewrite Hslice, Epdu, <- Hhl. by apply zslice_app_r. }
  exists e'. split; [exact He'|]. exists H', R', new. split_and!; try done; lia.
Qed.

Lemma um_rx_steps_inv e H e' R done :
  um_rx_steps sent (um_sn_field_length e) e H e' -> um_rx_inv sent e H R done ->
  exists H' R' new, um_rx_inv sent e' H' R' (done ++ new) /\ um_sn_field_length e' = um_sn_field_length e /\
    events (um_common e') = events (um_common e) ++ ((fun k => DeliverSdu (sent k)) <$> new).
Proof.
  remember (um_sn_field_length e) as len eqn:Elen. intros Hsteps. revert R done Elen.
  induction Hsteps as [e H|e H e1 e2 n pdu Hn Hpdu Hrecv _ IH|e H e1 e2 now Htime _ IH]; intros R done -> Hinv.
  - exists H, R, []. by rewrite !app_nil_r.
  - pose proof (ui_config _ _ _ _ _ (proj1 Hinv)) as Hc. destruct (um_config_pos e Hc) as [Hw Hm].
    destruct (um_config_len e Hc) as [Hmod Hwin]. rewrite <- Hwin in Hn.
    destruct (um_recv_peer_pdu e H R done n pdu Hinv Hn Hpdu)
      as (e1' & Hrecv' & H' & R' & new & Hinv1 & HH' & _ & Htx & _ & Hev).
    rewrite Hrecv in Hrecv'. injection Hrecv' as <-.
    assert (Elen : um_sn_field_length e1 = um_sn_field_length e) by apply Htx.
    assert (EM : um_sn_modulus e1 = um_sn_modulus e) by apply Htx.
    rewrite (ui_highest _ _ _ _ _ (proj1 Hinv1)), EM, Hmod, abs_sn_of in IH by lia.
    destruct (IH R' (done ++ new) (eq_sym Elen) Hinv1) as (H2 & R2 & new2 & Hinv2 & El2 & Hev2).
    exists H2, R2, (new ++ new2). rewrite app_assoc, fmap_app, app_assoc, <- Hev. by split_and!.
  - destruct (um_set_time_correct sent sent_size e H R done now Hinv) as (e1' & R' & Htime' & Hinv1 & _ & Htx & Hev).
    rewrite Htime in Htime'. injection Htime' as <-.
    assert (Elen : um_sn_field_length e1 = um_sn_field_length e) by apply Htx.
    destruct (IH R' done (eq_sym Elen) Hinv1) as (H2 & R2 & new2 & Hinv2 & El2 & Hev2).
    exists H2, R2, new2. rewrite <- Hev. by split_and!.
Qed.
End receiver.

(** C2: from a new UM entity, over any sequence of segments of the peer's SDUs
    (reordered, duplicated or lost, within half the SN space) and of timeouts:
    each SDU handed to the upper layer is one the peer sent, no SDU is handed
    twice, none whose bytes are all there is kept back, and the next PDU of the
    peer or the next timeout does not fault. *)
Theorem um_rx_exact sent len rx_maxsize tx_maxsize t_reassembly e0 e :
  (forall n, 0 < zlen (sent n) <= NR_SDU_MAX) -> len = 6 \/ len = 12 ->
  new_nr_rlc_entity_um rx_maxsize tx_maxsize t_reassembly len = Ok e0 ->
  um_rx_steps sent len e0 0 e ->
  exists H delivered, NoDup delivered /\
    events (um_common e) = (fun n => DeliverSdu (sent n)) <$> delivered /\
    (forall sn, 0 <= sn < 2 ^ len -> um_sdu_full e sn = false) /\
    (forall now, exists e', nr_rlc_entity_um_set_time e now = Ok e') /\
    (forall n pdu, H - 2 ^ (len - 1) <= n < H + 2 ^ (len - 1) -> um_peer_pdu sent len n pdu ->
       exists e', nr_rlc_entity_um_recv_pdu e pdu (zlen pdu) = Ok e').
Proof.
  intros Hsize Hlen Hnew Hsteps.
  destruct (new_um_correct rx_maxsize tx_maxsize t_reassembly len Hlen)
    as (e0' & Hnew' & Hc & El & _ & Hinv & Hev).
  rewrite Hnew in Hnew'. injection Hnew' as <-. rewrite <- El in Hsteps.
  destruct (um_rx_steps_inv sent Hsize e0 0 e 0 [] Hsteps (Hinv sent)) as (H & R & new & Hinv' & El' & Hev').
  pose proof (ui_config _ _ _ _ _ (proj1 Hinv')) as Hc'. destruct (um_config_len e Hc') as [Hmod Hwin].
  rewrite El', El in Hmod, Hwin. exists H, new. rewrite Hev', Hev. split_and!; try done.
  - apply (ui_once _ _ _ _ _ (proj1 Hinv')).
  - intros sn Hsn. apply (ui_none_full _ _ _ _ _ (proj1 Hinv')). by rewrite Hmod.
  - intros now. destruct (um_set_time_correct sent Hsize e H R _ now Hinv') as (e' & _ & He' & _). eauto.
  - intros n pdu Hn Hpdu. rewrite <- Hwin in Hn. rewrite <- El, <- El' in Hpdu.
    destruct (um_recv_peer_pdu sent Hsize e H R _ n pdu Hinv' Hn Hpdu) as (e' & He' & _). eauto.
Qed.

(** The two segments of a three byte SDU, with 6 bit sequence numbers. *)
Definition demo_sdu : list Z := [1; 2; 3].

Lemma demo_first : um_peer_pdu (fun _ => demo_sdu) 6 0 [64; 1; 2].
Proof.
  exists (mk_segment 1 0 2 0 true false), (mk_nr_rlc_sdu 0 0 demo_sdu 3 (-1) 1 0 0).
  split; [exists [64], [1; 2]; by split_and!|]. unfold seg_range, seg_end. cbn.
  split_and!; try done; try lia; split; intros; try done; lia.
Qed.

Lemma demo_last : um_peer_pdu (fun _ => demo_sdu) 6 0 [128; 0; 2; 3].
Proof.
  exists (mk_segment 1 0 1 2 false true), (mk_nr_rlc_sdu 0 0 demo_sdu 3 (-1) 1 0 0).
  split; [exists [128; 0; 2], [3]; by split_and!|]. unfold seg_range, seg_end. cbn.
  split_and!; try done; try lia; split; intros; try done; lia.
Qed.

Lemma um_rx_exact_witness :
  exists e0 e, new_nr_rlc_entity_um 100 100 10 6 = Ok e0 /\
    um_rx_steps (fun _ => demo_sdu) 6 e0 0 e /\
    events (um_common e) = [DeliverSdu demo_sdu] /\
    exists H delivered, NoDup delivered /\
      events (um_common e) = (fun n : Z => DeliverSdu demo_sdu) <$> delivered /\
      (forall sn, 0 <= sn < 2 ^ 6 -> um_sdu_full e sn = false) /\
      (forall now, exists e', nr_rlc_entity_um_set_time e now = Ok e') /\
      (forall n pdu, H - 2 ^ (6 - 1) <= n < H + 2 ^ (6 - 1) -> um_peer_pdu (fun _ => demo_sdu) 6 n pdu ->
         exists e', nr_rlc_entity_um_recv_pdu e pdu (zlen pdu) = Ok e').
Proof.
  assert (Hsteps : exists e0 e, new_nr_rlc_entity_um 100 100 10 6 = Ok e0 /\
    um_rx_steps (fun _ => demo_sdu) 6 e0 0 e /\ events (um_common e) = [DeliverSdu demo_sdu]).
  { eexists _, _. split; [vm_compute; reflexivity|]. split.
    - eapply (um_rx_pdu _ 6 _ 0 _ _ 0); [lia|exact demo_last|vm_compute; reflexivity|].
      eapply (um_rx_time _ 6 _ _ _ _ 5); [vm_compute; reflexivity|].
      eapply (um_rx_pdu _ 6 _ _ _ _ 0); [vm_compute; by split|exact demo_first|vm_compute; reflexivity|].
      apply um_rx_start.
    - reflexivity. }
  destruct Hsteps as (e0 & e & Hnew & Hsteps & Hev). exists e0, e.
  split; [exact Hnew|]. split; [exact Hsteps|]. split; [exact Hev|].
  apply (um_rx_exact (fun _ => demo_sdu) 6 100 100 10 e0 e);
    [intros _; vm_compute; by split|by left|exact Hnew|exact Hsteps].
Defined.

(** ** Both ends *)

(** C5: a PDU the UM transmitter generates carries the next bytes of the first
    SDU of its queue, whole or from where the previous PDU stopped, and a
    receiver with the same sequence number length reads exactly that: it hands
    over a whole SDU, and takes a segment in at its offset with its number. *)
Theorem um_end_to_end e r buffer size now :
  um_config_ok e -> um_tx_inv e -> um_config_ok r -> um_sn_field_length r = um_sn_field_length e ->
  bytes_ok buffer -> size <= zlen buffer -> size <> 2 ->
  (forall s, s ∈ um_tx_list e -> 0 < seg_size s) ->
  exists n buffer' e', nr_rlc_entity_um_generate_pdu e buffer size now = Ok (n, buffer', e') /\
    let pdu := take (Z.to_nat n) buffer' in
    (n = 0 /\ e' = e) \/
    exists s l u s1 data, um_tx_list e = s :: l /\ heap_sdus (heap (um_common e)) !! seg_sdu s = Some u /\
      seg_sent s s1 l (um_tx_list e') /\
      zslice (sdu_data u) (seg_so s1) (seg_size s1) = Some data /\
      nr_rlc_entity_um_recv_pdu r pdu n =
        if is_first s1 && is_last s1 then Ok (um_deliver_whole (um_count_rx r n) data)
        else um_recv_segment (um_count_rx r n) pdu n (um_tx_next e) (seg_so s1)
               (is_first s1) (is_last s1) (n - seg_size s1).
Proof.
  intros Hc Hinv Hcr El Hb Hroom Hne Hpos.
  destruct (um_generate_correct e buffer size now Hc Hinv Hb Hroom Hne)
    as (n & buffer' & e' & -> & _ & _ & [(-> & _ & -> & _)|(s & l & Elist & Hn & Hlen & Hgen)]).
  { exists 0, buffer', e. split; [done|]. by left. }
  exists n, buffer', e'. split; [done|]. right.
  destruct Hgen as (u & s1 & Hu & Hsent & Hrange & Hsz & _ & Hcarry & _).
  set (pdu := take (Z.to_nat n) buffer') in *. rewrite Hlen in Hsz.
  assert (Hwf : zlen (sdu_data u) = sdu_size u) by apply (heap_sdu _ _ (um_tx_heap _ Hinv) _ _ Hu).
  assert (Hmax : sdu_size u <= NR_SDU_MAX) by exact (um_tx_max _ Hinv _ _ Hu).
  assert (Hpos1 : 0 < seg_size s1).
  { destruct Hrange as (? & ? & ? & ? & Hl1 & Hcase). destruct Hcase as [|[Hf1 Hl1']]; [done|].
    destruct Hsent as (_ & _ & _ & [[-> _]|[Hl _]]); [|congruence]. apply Hpos. rewrite Elist. set_solver. }
  destruct (um_config_len r Hcr) as [Hmod _].
  pose proof Hcarry as (hdr & data & Epdu & Hhl & _ & Hslice).
  exists s, l, u, s1, data. split_and!; try done.
  rewrite <- Hlen at 1. rewrite <- El in Hcarry.
  assert (Hsn : 0 <= um_tx_next e < um_sn_modulus r).
  { pose proof (um_tx_next_ok _ Hinv). destruct (um_config_len e Hc) as [Hme _]. congruence. }
  rewrite (um_recv_pdu_decodes r (um_tx_next e) s1 u pdu Hcr Hcarry Hrange Hwf Hmax Hsn Hpos1).
  rewrite Hlen. destruct (is_first s1 && is_last s1) eqn:Ew.
  - apply andb_true_iff in Ew as [Ef El1]. destruct Hrange as (_ & _ & _ & Hf & Hl & _).
    apply Hf in Ef. apply Hl in El1. unfold seg_end in El1.
    rewrite Ef in Hslice. replace (seg_size s1) with (zlen (sdu_data u)) in Hslice by lia.
    rewrite zslice_all in Hslice. by injection Hslice as <-.
  - rewrite El. f_equal. unfold um_seg_bytes in Hsz. lia.
Qed.

Lemma um_end_to_end_witness :
  exists e r, nr_rlc_entity_um_recv_sdu e [1; 2; 3; 4] 4 7 0 = Ok r /\
    exists n buffer' e', nr_rlc_entity_um_generate_pdu r (replicate 8 0) 4 1 = Ok (n, buffer', e') /\
    let pdu := take (Z.to_nat n) buffer' in
    (n = 0 /\ e' = r) \/
    exists s l u s1 data, um_tx_list r = s :: l /\ heap_sdus (heap (um_common r)) !! seg_sdu s = Some u /\
      seg_sent s s1 l (um_tx_list e') /\
      zslice (sdu_data u) (seg_so s1) (seg_size s1) = Some data /\
      nr_rlc_entity_um_recv_pdu e pdu n =
        if is_first s1 && is_last s1 then Ok (um_deliver_whole (um_count_rx e n) data)
        else um_recv_segment (um_count_rx e n) pdu n (um_tx_next r) (seg_so s1)
               (is_first s1) (is_last s1) (n - seg_size s1).
Proof.
  destruct (new_um_correct 100 100 10 6 ltac:(by left)) as (e & Hnew & Hc & _ & Hinv & _).
  destruct (um_recv_sdu_correct e [1; 2; 3; 4] 7 0 Hinv ltac:(by vm_compute))
    as (r & Hr & Hinvr & Hsame & _).
  exists e, r. split; [exact Hr|].
  apply (um_end_to_end r e (replicate 8 0) 4 1);
    [by eapply um_same_rx_config|exact Hinvr|exact Hc|by destruct Hsame as [-> _]
    |repeat constructor; vm_compute; try discriminate; try done|vm_compute; discriminate|discriminate|].
  (* the list holds the one segment of the SDU *)
  vm_compute in Hnew. injection Hnew as <-. vm_compute in Hr. injection Hr as <-.
  intros s Hs. cbn in Hs. apply list_elem_of_singleton in Hs as ->. by vm_compute.
Defined.

(** ** Where the code departs from what it means to do *)

(** A grant of two bytes, with 12 bit sequence numbers: the header of a segment
    and one byte of data do not fit, and the SDU has left the list.  Nothing is
    sent, the SDU is lost and its memory stays allocated. *)
Example um_generate_loses_sdu :
  (e ← new_nr_rlc_entity_um 100 100 10 12;
   e ← nr_rlc_entity_um_recv_sdu e [1; 2; 3; 4] 4 7 0;
   '(n, _, e) ← nr_rlc_entity_um_generate_pdu e (replicate 8 0) 2 1;
   Ok (n, um_tx_list e, um_tx_size e, size (heap_sdus (heap (um_common e)))))
  = Ok (0, [], 4, 1%nat).
Proof. vm_compute. reflexivity. Qed.

(** A discarded SDU still counts in [tx_size]: the buffer stays full. *)
Example um_discard_keeps_tx_size :
  (e ← new_nr_rlc_entity_um 100 4 10 6;
   e ← nr_rlc_entity_um_recv_sdu e [1; 2; 3; 4] 4 7 0;
   e ← nr_rlc_entity_um_discard_sdu e 7;
   e ← nr_rlc_entity_um_recv_sdu e [5] 1 8 0;
   Ok (um_tx_list e, um_tx_size e, um_sdu_rejected e)) = Ok ([], 4, 1).
Proof. vm_compute. reflexivity. Qed.

(** Segments dropped when t_reassembly expires still count in [rx_size]. *)
Example um_timer_keeps_rx_size :
  (e ← new_nr_rlc_entity_um 100 100 10 6;
   e ← nr_rlc_entity_um_set_time e 1;
   e ← nr_rlc_entity_um_recv_pdu e [64; 1; 2] 3;
   e ← nr_rlc_entity_um_recv_pdu e [65; 1; 2] 3;
   e ← nr_rlc_entity_um_set_time e 100;
   e ← nr_rlc_entity_um_set_time e 200;
   Ok (um_rx_list e, um_rx_size e)) = Ok ([], 4).
Proof. vm_compute. reflexivity. Qed.

(** A segment beyond the last one: reassembly reads outside of its buffer. *)
Example um_reassembly_out_of_bounds :
  (e ← new_nr_rlc_entity_um 100 100 10 6;
   e ← nr_rlc_entity_um_recv_pdu e [192; 0; 9; 7] 4;
   e ← nr_rlc_entity_um_recv_pdu e [128; 0; 2; 3] 4;
   nr_rlc_entity_um_recv_pdu e [64; 1; 2] 3) = Fault OutOfBounds.
Proof. vm_compute. reflexivity. Qed.

(** ** The UM transmitter makes progress

    With grants that have room for a header and a byte, the SDUs accepted are
    all sent, after a number of grants that the bytes left bound. *)

(** Bytes and segments left to send. *)
Definition um_left (e : nr_rlc_entity_um_t) : Z := zsum (fun s => 1 + seg_size s) (um_tx_list e).

Lemma um_left_nonneg e : um_tx_inv e -> 0 <= um_left e.
Proof.
  intros Hinv. apply zsum_nonneg. intros s Hs.
  pose proof (heap_segs _ _ (um_tx_heap _ Hinv)) as Hw. rewrite Forall_forall in Hw.
  destruct (Hw s Hs) as (_ & u & _ & _ & ? & _). lia.
Qed.

Definition um_grant_ok (g : list Z * Z * Z) : Prop :=
  bytes_ok g.1.1 /\ 5 <= g.1.2 <= zlen g.1.1.

Definition um_grants (gs : list (list Z * Z * Z)) : list um_tx_op :=
  (fun g => UmGenerate g.1.1 g.1.2 g.2) <$> gs.

(** A grant sends at least a byte, or a whole segment. *)
Lemma um_grant_progress e g :
  um_config_ok e -> um_tx_inv e -> um_grant_ok g ->
  exists e' pdu, um_tx_step e (UmGenerate g.1.1 g.1.2 g.2) = Ok (e', pdu) /\
    um_config_ok e' /\ um_tx_inv e' /\ (um_tx_list e = [] /\ e' = e \/ um_left e' < um_left e).
Proof.
  intros Hc Hinv [Hb Hroom]. cbn [um_tx_step].
  destruct (um_generate_correct e g.1.1 g.1.2 g.2 Hc Hinv Hb ltac:(lia) ltac:(lia))
    as (n & buffer' & e' & -> & Hinv' & Hrx & Hcase).
  exists e', (take (Z.to_nat n) buffer'). split_and!; try done; [by eapply um_same_rx_config|].
  destruct Hcase as [(_ & _ & -> & [El|(s & l & El & Hno)])|(s & l & El & Hn & Hl & u & s1 & Hu & Hsent & Hrange & Hz & _)].
  - by left.
  - pose proof (um_header_size_bounds (um_sn_field_length e) (is_first s) (is_last s)).
    unfold um_compute_pdu_header_size in Hno. lia.
  - right. unfold um_left. rewrite El, zsum_cons. assert (Hs1 : 0 <= seg_size s1) by apply Hrange.
    destruct Hsent as (_ & Eso & Ef & [[-> ->]|(Elast & s2 & -> & _ & E2 & Eend & _)]); [lia|].
    rewrite zsum_cons. unfold seg_end in *.
    destruct Hrange as (_ & _ & _ & _ & _ & [|[_ ?]]); [lia|congruence].
Qed.

(** C11: the UM transmitter drains: as many grants of at least five bytes as there
    are bytes and segments left to send empty the transmit list, and the buffer
    status says so. *)
Theorem um_drains e gs :
  um_config_ok e -> um_tx_inv e -> Forall um_grant_ok gs -> um_left e <= zlen gs ->
  exists e' pdus, um_tx_run e (um_grants gs) = Ok (e', pdus) /\ um_tx_list e' = [] /\
    bs_tx_size (nr_rlc_entity_um_buffer_status e' 0) = 0 /\ heap_sdus (heap (um_common e')) = ∅.
Proof.
  intros Hc Hinv Hgs. revert e Hc Hinv. induction Hgs as [|g gs Hg _ IH]; intros e Hc Hinv Hleft.
  - rewrite zlen_nil in Hleft. exists e, []. split; [done|].
    assert (El : um_tx_list e = []).
    { unfold um_left in Hleft. destruct (um_tx_list e) as [|s l] eqn:El; [done|exfalso].
      rewrite zsum_cons in Hleft. pose proof (heap_segs _ _ (um_tx_heap _ Hinv)) as Hw. rewrite El, Forall_forall in Hw.
      assert (Hpos : forall t, t ∈ s :: l -> 0 <= seg_size t).
      { intros t Ht. destruct (Hw t Ht) as (_ & u & _ & _ & ? & _). lia. }
      pose proof (Hpos s ltac:(set_solver)).
      assert (0 <= zsum (fun s => 1 + seg_size s) l); [|lia].
      apply zsum_nonneg. intros t Ht. pose proof (Hpos t ltac:(set_solver)). lia. }
    pose proof (um_tx_bstatus _ Hinv) as Hb. pose proof (um_tx_heap _ Hinv) as Hh. rewrite El in Hb, Hh.
    split_and!; [done|done|by apply heap_inv_nil_empty].
  - unfold um_grants. rewrite fmap_cons. cbn [um_tx_run]. rewrite zlen_cons in Hleft.
    destruct (um_grant_progress e g Hc Hinv Hg) as (e1 & pdu & -> & Hc1 & Hinv1 & Hcase). cbn [mbind outcome_bind].
    destruct (IH e1 Hc1 Hinv1) as (e' & pdus & Hrun & ?).
    { destruct Hcase as [[El ->]|]; [|lia]. unfold um_left. rewrite El, zsum_nil. apply zlen_nonneg. }
    unfold um_grants in Hrun. rewrite Hrun. by exists e', (pdu :: pdus).
Qed.

Lemma um_drains_witness :
  exists e0 e, nr_rlc_entity_um_recv_sdu e0 [1; 2; 3; 4; 5; 6] 6 7 0 = Ok e /\
    exists e' pdus, um_tx_run e (um_grants (replicate 7 (replicate 5 0, 5, 1))) = Ok (e', pdus) /\
      um_tx_list e' = [] /\ bs_tx_size (nr_rlc_entity_um_buffer_status e' 0) = 0 /\
      heap_sdus (heap (um_common e')) = ∅.
Proof.
  destruct (new_um_correct 100 100 10 6 ltac:(by left)) as (e0 & Hnew & Hc & _ & Hinv & _).
  destruct (um_recv_sdu_correct e0 [1; 2; 3; 4; 5; 6] 7 0 Hinv ltac:(by vm_compute))
    as (e & He & Hinve & Hsame & _).
  exists e0, e. split; [exact He|].
  apply um_drains; [by eapply um_same_rx_config|exact Hinve|repeat constructor; vm_compute; done|].
  vm_compute in Hnew. injection Hnew as <-. vm_compute in He. injection He as <-. by vm_compute.
Defined.
