(* ===== verification/RlcAm.v ===== *)
(** * The acknowledged mode RLC entity (src/openair2/LAYER2/nr_rlc/nr_rlc_entity_am.c)

    State, windows and the list of segments waiting for an acknowledgment.
    RlcAmCtrl.v models the processing of status reports, RlcAmRecv.v the
    reception of data, RlcAmStatus.v the generation of status reports and
    RlcAmSend.v the transmitter, the timers and the life cycle. *)

From S2P Require Import Prelude TimeStat RlcPdu RlcSdu RlcReassembly RlcEntity.

(** ** State *)

Record nr_rlc_entity_am_t := mk_am {
  am_common : nr_rlc_entity_t;
  am_t_poll_retransmit : Z;
  am_t_reassembly : Z;
  am_t_status_prohibit : Z;
  am_poll_pdu : Z;               (* -1 means infinity *)
  am_poll_byte : Z;              (* -1 means infinity *)
  am_max_retx_threshold : Z;
  am_sn_field_length : Z;
  am_sn_modulus : Z;
  am_window_size : Z;
  am_rx_next : Z;
  am_rx_next_status_trigger : Z;
  am_rx_highest_status : Z;
  am_rx_next_highest : Z;
  am_status_triggered : bool;
  am_tx_next : Z;
  am_tx_next_ack : Z;
  am_poll_sn : Z;
  am_pdu_without_poll : Z;
  am_byte_without_poll : Z;
  am_force_poll : bool;
  am_t_current : Z;
  am_t_log_buffer_full : Z;
  am_sdu_rejected : Z;
  am_t_poll_retransmit_start : Z;  (* 0 means not active *)
  am_t_reassembly_start : Z;
  am_t_status_prohibit_start : Z;
  am_rx_list : list nr_rlc_pdu_t;
  am_rx_size : Z;
  am_rx_maxsize : Z;
  am_tx_list : list nr_rlc_sdu_segment_t;
  am_tx_end : option Z;
  am_tx_size : Z;
  am_tx_maxsize : Z;
  am_wait_list : list nr_rlc_sdu_segment_t;
  am_wait_end : option Z;
  am_retransmit_list : list nr_rlc_sdu_segment_t;
}.
#[export] Instance eta_am : RecordEta nr_rlc_entity_am_t :=
  fld (fld (fld (fld (fld (fld (fld (fld (fld (fld (fld (fld (fld (fld (fld (fld (fld (fld (fld
    (fld (fld (fld (fld (fld (fld (fld (fld (fld (fld (fld (fld (fld (fld (fld (fld (fld
    (fld (fun _ => mk_am) am_common) am_t_poll_retransmit) am_t_reassembly)
    am_t_status_prohibit) am_poll_pdu) am_poll_byte) am_max_retx_threshold)
    am_sn_field_length) am_sn_modulus) am_window_size) am_rx_next) am_rx_next_status_trigger)
    am_rx_highest_status) am_rx_next_highest) am_status_triggered) am_tx_next) am_tx_next_ack)
    am_poll_sn) am_pdu_without_poll) am_byte_without_poll) am_force_poll) am_t_current)
    am_t_log_buffer_full) am_sdu_rejected) am_t_poll_retransmit_start) am_t_reassembly_start)
    am_t_status_prohibit_start) am_rx_list) am_rx_size) am_rx_maxsize) am_tx_list) am_tx_end)
    am_tx_size) am_tx_maxsize) am_wait_list) am_wait_end) am_retransmit_list.

(** [1 << sn_field_length], for the field lengths the code accepts. *)
Definition new_nr_rlc_entity_am (rx_maxsize tx_maxsize t_poll_retransmit t_reassembly
    t_status_prohibit poll_pdu poll_byte max_retx_threshold sn_field_length : Z)
    : outcome nr_rlc_entity_am_t :=
  _ ← require ((sn_field_length =? 12) || (sn_field_length =? 18)) Exit;
  let sn_modulus := Z.shiftl 1 sn_field_length in
  c ← new_common NR_RLC_AM;
  Ok (mk_am c t_poll_retransmit t_reassembly t_status_prohibit poll_pdu poll_byte
        max_retx_threshold sn_field_length sn_modulus (sn_modulus / 2)
        0 0 0 0 false 0 0 0 0 0 false 0 0 0 0 0 0
        [] 0 rx_maxsize [] None 0 tx_maxsize [] None []).

Definition nr_rlc_entity_am_reconfigure (e : nr_rlc_entity_am_t)
    (t_poll_retransmit t_reassembly t_status_prohibit poll_pdu poll_byte max_retx_threshold : Z)
    (sn_field_length : option Z) : nr_rlc_entity_am_t :=
  let e := e <| am_t_poll_retransmit := t_poll_retransmit |> <| am_t_reassembly := t_reassembly |>
             <| am_t_status_prohibit := t_status_prohibit |> <| am_poll_pdu := poll_pdu |>
             <| am_poll_byte := poll_byte |> <| am_max_retx_threshold := max_retx_threshold |> in
  match sn_field_length with
  | Some n => e <| am_sn_field_length := n |>
  | None => e
  end.

(** ** Sizes and windows *)

Definition am_pdu_header_size (sn_field_length : Z) (first : bool) : Z :=
  2 + (if sn_field_length =? 18 then 1 else 0) + (if negb first then 2 else 0).

Definition am_compute_pdu_header_size (e : nr_rlc_entity_am_t) (sdu : nr_rlc_sdu_segment_t) : Z :=
  am_pdu_header_size (am_sn_field_length e) (is_first sdu).

Definition am_modulus_rx (e : nr_rlc_entity_am_t) (a : Z) : Z :=
  let r := a - am_rx_next e in
  if r <? 0 then r + am_sn_modulus e else r.

Definition am_modulus_tx (e : nr_rlc_entity_am_t) (a : Z) : Z :=
  let r := a - am_tx_next_ack e in
  if r <? 0 then r + am_sn_modulus e else r.

Definition am_sn_in_recv_window (e : nr_rlc_entity_am_t) (sn : Z) : bool :=
  am_modulus_rx e sn <? am_window_size e.

Definition am_sn_compare_rx (e : nr_rlc_entity_am_t) (a b : Z) : Z :=
  am_modulus_rx e a - am_modulus_rx e b.

Definition am_sn_compare_tx (e : nr_rlc_entity_am_t) (a b : Z) : Z :=
  am_modulus_tx e a - am_modulus_tx e b.

(** ** Ordered insertion of a segment *)

(** [seg->sdu->sn] *)
Definition am_seg_sn (e : nr_rlc_entity_am_t) (s : nr_rlc_sdu_segment_t) : outcome Z :=
  u ← deref_sdu (heap (am_common e)) s; Ok (sdu_sn u).

(** Order is by SN; if SN is the same then order is by SO. *)
Fixpoint nr_rlc_tx_sdu_segment_list_add (e : nr_rlc_entity_am_t)
    (l : list nr_rlc_sdu_segment_t) (sdu_segment : nr_rlc_sdu_segment_t)
    : outcome (list nr_rlc_sdu_segment_t) :=
  match l with
  | [] => Ok [sdu_segment]
  | cur :: next =>
      cur_sn ← am_seg_sn e cur;
      sn ← am_seg_sn e sdu_segment;
      if (am_sn_compare_tx e cur_sn sn >? 0)
         || ((cur_sn =? sn) && (seg_so cur >? seg_so sdu_segment))
      then Ok (sdu_segment :: l)
      else next ← nr_rlc_tx_sdu_segment_list_add e next sdu_segment; Ok (cur :: next)
  end.

(** ** Window stalling, polling condition *)

Definition am_is_window_stalling (e : nr_rlc_entity_am_t) : bool :=
  negb ((am_sn_compare_tx e (am_tx_next_ack e) (am_tx_next e) <=? 0)
        && (am_sn_compare_tx e (am_tx_next e)
              (Z.rem (am_tx_next_ack e + am_window_size e) (am_sn_modulus e)) <? 0)).

Definition am_check_poll_after_pdu_assembly (e : nr_rlc_entity_am_t) : bool :=
  let transmission_buffer_empty := match am_tx_list e with [] => true | _ => false end in
  let retransmission_buffer_empty := match am_retransmit_list e with [] => true | _ => false end in
  (transmission_buffer_empty && retransmission_buffer_empty) || am_is_window_stalling e.
