(* ===== verification/RlcAmCtrl.v ===== *)
(** * Processing of a status report ([process_control_pdu])

    The report is read twice: once to check it, then to move and free
    segments.  The C code goes through the wait list and the retransmit list
    with labels and gotos; the state of that walk is the record [ctl_t], and
    each label is a definition. *)

From S2P Require Import Prelude TimeStat RlcPdu RlcSdu RlcReassembly RlcEntity RlcAm.

(** ** Reading *)

(** A checked read: [None] is the decoder in error, where the code jumps to
    [err]. *)
Notation "'let?' x := m 'in' k" :=
  (match m with
   | Ok (Some x) => k
   | Ok None => Ok None
   | Fault f => Fault f
   end) (at level 200, x pattern, m at level 200, k at level 200) : c_scope.

Definition read_bits (check : bool) (d : nr_rlc_pdu_decoder_t) (count : Z)
    : outcome (option (Z * nr_rlc_pdu_decoder_t)) :=
  '(v, d) ← nr_rlc_pdu_decoder_get_bits d count;
  if check && dec_error d then Ok None else Ok (Some (v, d)).

(** Header of a status report: CPT, ACK_SN and E1. *)
Definition am_read_status (check : bool) (sn_field_length : Z) (d : nr_rlc_pdu_decoder_t)
    : outcome (option (Z * Z * Z * nr_rlc_pdu_decoder_t)) :=
  let? (_, d) := read_bits check d 1 in
  let? (cpt, d) := read_bits check d 3 in
  if check && negb (cpt =? 0) then Ok None else
  let? (ack_sn, d) := read_bits check d sn_field_length in
  let? (e1, d) := read_bits check d 1 in
  (* r bits *)
  let? (_, d) := read_bits check d (if sn_field_length =? 18 then 1 else 7) in
  Ok (Some (cpt, ack_sn, e1, d)).

(** A NACK block; [so_end] is -1 up to the end of the SDU. *)
Record nack_t := mk_nack {
  nack_sn : Z;
  nack_so_start : Z;
  nack_so_end : Z;
  nack_range : Z;
}.

Definition am_read_nack (check : bool) (sn_field_length : Z) (d : nr_rlc_pdu_decoder_t)
    : outcome (option (Z * nack_t * nr_rlc_pdu_decoder_t)) :=
  let? (nack_sn, d) := read_bits check d sn_field_length in
  let? (e1, d) := read_bits check d 1 in
  let? (e2, d) := read_bits check d 1 in
  let? (e3, d) := read_bits check d 1 in
  (* r bits *)
  let? (_, d) := read_bits check d (if sn_field_length =? 18 then 3 else 1) in
  let? (so_start, so_end, d) :=
    (if z2b e2 then
       let? (so_start, d) := read_bits check d 16 in
       let? (so_end, d) := read_bits check d 16 in
       Ok (Some (so_start, so_end, d))
     else Ok (Some (0, 65535, d))) in
  let? (range, d) := (if z2b e3 then read_bits check d 8 else Ok (Some (1, d))) in
  (* special value 0xffff indicates 'all bytes to the end' *)
  let so_end := if so_end =? 65535 then -1 else so_end in
  Ok (Some (e1, mk_nack nack_sn so_start so_end range, d)).

(** The [i]th SN of a NACK block, with the bytes missing. *)
Definition cur_nack (e : nr_rlc_entity_am_t) (n : nack_t) (i : Z) : Z * Z * Z :=
  (Z.rem (nack_sn n + i) (am_sn_modulus e),
   if i =? 0 then nack_so_start n else 0,
   if i =? nack_range n - 1 then nack_so_end n else -1).

(** ** Validation *)

(** [prev_nack_sn] is -1 from beginning to end: the code never updates it in this
    loop, so only the comparison with ACK_SN rejects. *)
Fixpoint am_check_range (e : nr_rlc_entity_am_t) (ack_sn : Z) (n : nack_t)
    (prev_nack_sn prev_so_end : Z) (i : Z) (todo : nat) : bool :=
  match todo with
  | O => true
  | S todo =>
      let '(sn, so_start, so_end) := cur_nack e n i in
      let cmp := am_sn_compare_tx e sn prev_nack_sn in
      if negb (prev_nack_sn =? -1)
         && ((cmp <? 0) || ((cmp =? 0) && ((prev_so_end =? -1) || (so_start <=? prev_so_end))))
      then false
      else if am_sn_compare_tx e sn ack_sn >? 0 then false
      else am_check_range e ack_sn n prev_nack_sn prev_so_end (i + 1) todo
  end.

Fixpoint am_check_nacks (fuel : nat) (e : nr_rlc_entity_am_t) (ack_sn e1 : Z)
    (d : nr_rlc_pdu_decoder_t) : outcome bool :=
  if negb (z2b e1) then Ok true else
  match fuel with
  | O => Fault Diverge
  | S fuel =>
      nack ← am_read_nack true (am_sn_field_length e) d;
      match nack with
      | None => Ok false
      | Some (e1, n, d) =>
          if am_check_range e ack_sn n (-1) 0 0 (Z.to_nat (nack_range n))
          then am_check_nacks fuel e ack_sn e1 d
          else Ok false
      end
  end.

(** Each block is at least two bytes. *)
Definition am_nacks_fuel (size : Z) : nat := S (Z.to_nat size).

Definition am_validate_control_pdu (e : nr_rlc_entity_am_t) (buffer : list Z) (size : Z)
    : outcome bool :=
  header ← am_read_status true (am_sn_field_length e) (nr_rlc_pdu_decoder_init buffer size);
  match header with
  | None => Ok false
  | Some (_, ack_sn, e1, d) =>
      (* tx_next_ack <= ack_sn <= tx_next *)
      if am_sn_compare_tx e ack_sn (am_tx_next e) >? 0 then Ok false
      else am_check_nacks (am_nacks_fuel size) e ack_sn e1 d
  end.

(** ** The walk *)

Definition so_overlap (s1 e1 s2 e2 : Z) : bool :=
  if s1 <? s2 then (e1 =? -1) || (e1 >=? s2)
  else (e2 =? -1) || (s1 <=? e2).

(** [wait_before] is the wait list up to [prev_wait_list] and [wait_rest] what
    follows it; [cur_wait_list] is the head of [wait_rest], or NULL once
    [wait_over].  [end_wait_list] is an element of the list, or its head
    structure ([Some None]).  [new_after] is what the last element of
    [new_retx], [new_retransmit_list], points to. *)
Record ctl_t := mk_ctl {
  ctl_entity : nr_rlc_entity_am_t;
  wait_before : list nr_rlc_sdu_segment_t;
  wait_rest : list nr_rlc_sdu_segment_t;
  wait_over : bool;
  end_wait_list : option (option Z);
  cur_retx : list nr_rlc_sdu_segment_t;
  new_retx : list nr_rlc_sdu_segment_t;
  new_after : list nr_rlc_sdu_segment_t;
}.
#[export] Instance eta_ctl : RecordEta ctl_t :=
  fld (fld (fld (fld (fld (fld (fld (fld (fun _ => mk_ctl) ctl_entity) wait_before) wait_rest)
    wait_over) end_wait_list) cur_retx) new_retx) new_after.

Definition cur_wait (st : ctl_t) : option nr_rlc_sdu_segment_t :=
  if wait_over st then None else head (wait_rest st).

(** [prev_wait_list->next = cur_wait_list->next], and the new end of the list
    when [cur_wait_list] was its end. *)
Definition ctl_unlink_wait (st : ctl_t) (cur : nr_rlc_sdu_segment_t) : ctl_t :=
  let st := st <| wait_rest := tail (wait_rest st) |> in
  if decide (am_wait_end (ctl_entity st) = Some (seg_addr cur))
  then st <| end_wait_list := Some (seg_addr <$> last (wait_before st)) |>
  else st.

(** [new_retransmit_list->next = seg; new_retransmit_list = seg], [seg->next]
    being NULL. *)
Definition ctl_push_retx (st : ctl_t) (seg : nr_rlc_sdu_segment_t) : ctl_t :=
  st <| new_retx := new_retx st ++ [seg] |> <| new_after := [] |>.

(** An acknowledged segment is freed; the upper layer is told when its SDU is. *)
Definition am_free_acked (e : nr_rlc_entity_am_t) (cur : nr_rlc_sdu_segment_t)
    : outcome nr_rlc_entity_am_t :=
  u ← deref_sdu (heap (am_common e)) cur;
  '(h, freed) ← nr_rlc_free_sdu_segment (heap (am_common e)) cur;
  let e := e <| am_common := (am_common e) <| heap := h |> |> in
  if (freed : bool) then
    let e := e <| am_tx_size := am_tx_size e - sdu_size u |> in
    let c := add_stat64 (am_common e) txsdu_bytes (sdu_size u) in
    Ok (e <| am_common := emit c (SduSuccessfulDelivery (upper_layer_id u)) |>)
  else Ok e.

Definition am_retx_bytes (e : nr_rlc_entity_am_t) (s : nr_rlc_sdu_segment_t) : Z :=
  am_compute_pdu_header_size e s + seg_size s.

Definition am_add_retx_size (e : nr_rlc_entity_am_t) (n : Z) : nr_rlc_entity_am_t :=
  e <| am_common := add_retx_size (am_common e) n |>.

(** Where the code jumps to. *)
Inductive ctl_jump : Type := NextPdu | DoneNack | ListsOver.

(** [retx_count] increased, [max_retx_reached] called when it is too high. *)
Definition am_count_retx (e : nr_rlc_entity_am_t) (cur : nr_rlc_sdu_segment_t)
    : outcome nr_rlc_entity_am_t :=
  let c := am_common e in
  u ← deref_sdu (heap c) cur;
  let u := u <| retx_count := retx_count u + 1 |> in
  let c := c <| heap := set_sdu (heap c) cur u |> in
  Ok (e <| am_common :=
        if retx_count u >=? am_max_retx_threshold e * ref_count u
        then emit c MaxRetxReached else c |>).

Definition process_wait_list_head (st : ctl_t) (ack_sn : Z) (nack : Z * Z * Z)
    (cur : nr_rlc_sdu_segment_t) : outcome (ctl_t * ctl_jump) :=
  let '(cur_nack_sn, cur_so_start, cur_so_end) := nack in
  let e := ctl_entity st in
  sn ← am_seg_sn e cur;
  (* if nack overlaps with current segment, put it in retransmit list *)
  if (sn =? cur_nack_sn)
     && so_overlap cur_so_start cur_so_end (seg_so cur) (seg_so cur + seg_size cur - 1) then
    let st := ctl_push_retx (ctl_unlink_wait st cur) cur in
    e ← am_count_retx e cur;
    (* update buffer status *)
    Ok (st <| ctl_entity := am_add_retx_size e (am_retx_bytes e cur) |>, NextPdu)
  else
  (* if current segment SN > current NACK, we can't classify it yet *)
  let cmp := am_sn_compare_tx e sn cur_nack_sn in
  if (cmp >? 0) || ((cmp =? 0) && (seg_so cur >? cur_so_start)) then Ok (st, DoneNack)
  else
  (* if current segment is acked, free it *)
  if am_sn_compare_tx e sn ack_sn <? 0 then
    let st := ctl_unlink_wait st cur in
    e ← am_free_acked e cur;
    Ok (st <| ctl_entity := e |>, NextPdu)
  else
  (* if current segment SN > ack_sn, we're done with this list *)
  if am_sn_compare_tx e sn ack_sn >? 0 then Ok (st <| wait_over := true |>, NextPdu)
  else
  (* current segment SN == ack_sn, skip this segment and move to the next *)
  Ok (st <| wait_before := wait_before st ++ [cur] |> <| wait_rest := tail (wait_rest st) |>, NextPdu).

Definition process_retransmit_list_head (st : ctl_t) (ack_sn : Z) (nack : Z * Z * Z)
    (cur : nr_rlc_sdu_segment_t) : outcome (ctl_t * ctl_jump) :=
  let '(cur_nack_sn, cur_so_start, cur_so_end) := nack in
  let e := ctl_entity st in
  let keep := ctl_push_retx (st <| cur_retx := tail (cur_retx st) |>) cur in
  sn ← am_seg_sn e cur;
  (* if nack overlaps with current segment, leave it in retransmit list *)
  if (sn =? cur_nack_sn)
     && so_overlap cur_so_start cur_so_end (seg_so cur) (seg_so cur + seg_size cur - 1)
  then Ok (keep, NextPdu)
  else
  (* if current segment SN > current NACK, we can't classify it yet *)
  let cmp := am_sn_compare_tx e sn cur_nack_sn in
  if (cmp >? 0) || ((cmp =? 0) && (seg_so cur >? cur_so_start)) then Ok (st, DoneNack)
  else
  (* if current segment is acked, free it *)
  if am_sn_compare_tx e sn ack_sn <? 0 then
    (* update buffer status *)
    e ← am_free_acked (am_add_retx_size e (- am_retx_bytes e cur)) cur;
    Ok (st <| cur_retx := tail (cur_retx st) |> <| ctl_entity := e |>, NextPdu)
  else
  (* current segment SN >= ack_sn *)
  match cur_wait st with
  | None => Ok (st <| new_after := cur_retx st |> <| cur_retx := [] |>, ListsOver)
  | Some _ => Ok (keep, NextPdu)
  end.

(** [process_next_pdu]: the smallest SN either from wait list or retransmit list. *)
Fixpoint process_next_pdu (fuel : nat) (st : ctl_t) (ack_sn : Z) (nack : Z * Z * Z)
    : outcome (ctl_t * ctl_jump) :=
  match fuel with
  | O => Fault Diverge
  | S fuel =>
      step ←
        match cur_wait st, head (cur_retx st) with
        | None, None => Ok (st, ListsOver)
        | None, Some r => process_retransmit_list_head st ack_sn nack r
        | Some w, None => process_wait_list_head st ack_sn nack w
        | Some w, Some r =>
            wsn ← am_seg_sn (ctl_entity st) w;
            rsn ← am_seg_sn (ctl_entity st) r;
            let cmp := am_sn_compare_tx (ctl_entity st) wsn rsn in
            if (cmp <? 0) || ((cmp =? 0) && (seg_so w <? seg_so r))
            then process_wait_list_head st ack_sn nack w
            else process_retransmit_list_head st ack_sn nack r
        end;
      match step with
      | (st, NextPdu) => process_next_pdu fuel st ack_sn nack
      | step => Ok step
      end
  end.

(** Each step but the last takes a segment from one of the lists, or is the one
    that sets [wait_over]. *)
Definition ctl_fuel (st : ctl_t) : nat := 3 + length (wait_rest st) + length (cur_retx st).

(** The loop on the SNs of a NACK block; [ListsOver] leaves it. *)
Fixpoint ctl_range (st : ctl_t) (ack_sn : Z) (n : nack_t) (i : Z) (todo : nat) : outcome ctl_t :=
  match todo with
  | O => Ok st
  | S todo =>
      '(st, jump) ← process_next_pdu (ctl_fuel st) st ack_sn (cur_nack (ctl_entity st) n i);
      match jump with
      | ListsOver => Ok st
      | _ => ctl_range st ack_sn n (i + 1) todo
      end
  end.

(** Stop t_poll_retransmit when a NACK is received for [poll_sn]. *)
Definition ctl_nack_poll (e : nr_rlc_entity_am_t) (n : nack_t) : nr_rlc_entity_am_t :=
  if (am_sn_compare_tx e (nack_sn n) (am_poll_sn e) <=? 0)
     && (am_sn_compare_tx e (am_poll_sn e)
           (Z.rem (nack_sn n + nack_range n) (am_sn_modulus e)) <? 0)
  then e <| am_t_poll_retransmit_start := 0 |>
  else e.

Fixpoint ctl_nacks (fuel : nat) (st : ctl_t) (ack_sn e1 : Z) (d : nr_rlc_pdu_decoder_t)
    : outcome ctl_t :=
  if negb (z2b e1) then Ok st else
  match fuel with
  | O => Fault Diverge
  | S fuel =>
      nack ← am_read_nack false (am_sn_field_length (ctl_entity st)) d;
      match nack with
      | None => Ok st                (* not when reads are not checked *)
      | Some (e1, n, d) =>
          st ← ctl_range st ack_sn n 0 (Z.to_nat (nack_range n));
          ctl_nacks fuel (st <| ctl_entity := ctl_nack_poll (ctl_entity st) n |>) ack_sn e1 d
      end
  end.

(** ** Acknowledgments, once the NACKs are done *)

Fixpoint ctl_ack_wait (fuel : nat) (st : ctl_t) (ack_sn : Z) : outcome ctl_t :=
  match fuel with
  | O => Fault Diverge
  | S fuel =>
      match cur_wait st with
      | None => Ok st
      | Some cur =>
          sn ← am_seg_sn (ctl_entity st) cur;
          if am_sn_compare_tx (ctl_entity st) sn ack_sn <? 0 then
            let st := ctl_unlink_wait st cur in
            e ← am_free_acked (ctl_entity st) cur;
            ctl_ack_wait fuel (st <| ctl_entity := e |>) ack_sn
          else Ok st
      end
  end.

Fixpoint ctl_ack_retx (e : nr_rlc_entity_am_t) (l : list nr_rlc_sdu_segment_t) (ack_sn : Z)
    : outcome (nr_rlc_entity_am_t * list nr_rlc_sdu_segment_t) :=
  match l with
  | [] => Ok (e, [])
  | cur :: next =>
      sn ← am_seg_sn e cur;
      if am_sn_compare_tx e sn ack_sn <? 0 then
        (* update buffer status *)
        e ← am_free_acked (am_add_retx_size e (- am_retx_bytes e cur)) cur;
        ctl_ack_retx e next ack_sn
      else Ok (e, l)
  end.

(** ** The new TX_Next_Ack *)

(** The smaller of [tx_next_ack] and the SN at the head of [l]. *)
Definition am_min_sn (e : nr_rlc_entity_am_t) (l : list nr_rlc_sdu_segment_t) (tx_next_ack : Z)
    : outcome Z :=
  match l with
  | [] => Ok tx_next_ack
  | s :: _ =>
      sn ← am_seg_sn e s;
      Ok (if am_sn_compare_tx e sn tx_next_ack <? 0 then sn else tx_next_ack)
  end.

Definition am_update_tx_next_ack (e : nr_rlc_entity_am_t) (ack_sn : Z)
    : outcome nr_rlc_entity_am_t :=
  (* from the highest possible value, down as needed *)
  sn ← am_min_sn e (am_wait_list e) (am_tx_next e);
  sn ← am_min_sn e (am_retransmit_list e) sn;
  let sn := if am_sn_compare_tx e ack_sn sn <? 0 then ack_sn else sn in
  Ok (e <| am_tx_next_ack := sn |>).

(** The lists put back in the entity. *)
Definition ctl_finish (st : ctl_t) : nr_rlc_entity_am_t :=
  (* new_retransmit_list->next = cur_retransmit_list *)
  let st := st <| new_after := cur_retx st |> in
  let e := (ctl_entity st) <| am_wait_list := wait_before st ++ wait_rest st |>
             <| am_retransmit_list := new_retx st ++ new_after st |> in
  match end_wait_list st with
  | Some p => e <| am_wait_end := p |>
  | None => e
  end.

Definition am_apply_control_pdu (e : nr_rlc_entity_am_t) (buffer : list Z) (size : Z)
    : outcome nr_rlc_entity_am_t :=
  header ← am_read_status false (am_sn_field_length e) (nr_rlc_pdu_decoder_init buffer size);
  match header with
  | None => Ok e                     (* not when reads are not checked *)
  | Some (_, ack_sn, e1, d) =>
      (* stop t_poll_retransmit when an ACK is received for poll_sn *)
      let e := if am_sn_compare_tx e (am_poll_sn e) ack_sn <? 0
               then e <| am_t_poll_retransmit_start := 0 |> else e in
      let st := mk_ctl e [] (am_wait_list e) false None (am_retransmit_list e) [] [] in
      st ← ctl_nacks (am_nacks_fuel size) st ack_sn e1 d;
      st ← ctl_ack_wait (S (length (wait_rest st))) st ack_sn;
      '(e, retx) ← ctl_ack_retx (ctl_entity st) (cur_retx st) ack_sn;
      am_update_tx_next_ack (ctl_finish (st <| ctl_entity := e |> <| cur_retx := retx |>)) ack_sn
  end.

Definition process_control_pdu (e : nr_rlc_entity_am_t) (buffer : list Z) (size : Z)
    : outcome nr_rlc_entity_am_t :=
  valid ← am_validate_control_pdu e buffer size;
  if (valid : bool) then am_apply_control_pdu e buffer size else Ok e.
