(* ===== verification/RlcAmRecv.v ===== *)
(** * Reception in the AM entity ([nr_rlc_entity_am_recv_pdu])

    Data PDUs; status reports are processed by RlcAmCtrl.v.  The functions that
    scan the reception list are those of RlcReassembly.v. *)

From S2P Require Import Prelude TimeStat RlcPdu RlcSdu RlcReassembly RlcEntity RlcAm RlcAmCtrl.

Definition am_sdu_full (e : nr_rlc_entity_am_t) (sn : Z) : bool := sdu_full (am_rx_list e) sn.
Definition am_sdu_has_missing_bytes (e : nr_rlc_entity_am_t) (sn : Z) : bool :=
  sdu_has_missing_bytes (am_rx_list e) sn.

(** AM does not count delivered bytes: [txsdu_bytes] counts acknowledged ones. *)
Definition am_reassemble_and_deliver (e : nr_rlc_entity_am_t) (sn : Z)
    : outcome nr_rlc_entity_am_t :=
  '(l, rx_size, sdu) ← reassemble_list false sn (am_rx_list e) (am_rx_size e);
  let e := e <| am_rx_list := l |> <| am_rx_size := rx_size |> in
  match sdu with
  | None => Ok e
  | Some sdu =>
      let c := emit (am_common e) (DeliverSdu sdu) in
      Ok (e <| am_common := add_stat c txsdu_pkts 1 |>)
  end.

(** The segments of [sn] at the head of the list. *)
Fixpoint drop_sn (sn : Z) (l : list nr_rlc_pdu_t) : list nr_rlc_pdu_t :=
  match l with
  | [] => []
  | p :: next => if pdu_sn p =? sn then drop_sn sn next else l
  end.

(** Delivered SDUs at the head of the list are freed, and [rx_next] follows. *)
Fixpoint am_free_delivered (fuel : nat) (sn_modulus : Z) (l : list nr_rlc_pdu_t) (rx_next : Z)
    : outcome (list nr_rlc_pdu_t * Z) :=
  match fuel with
  | O => Fault Diverge
  | S fuel =>
      if head_processed l && match l with p :: _ => pdu_sn p =? rx_next | [] => false end
      then am_free_delivered fuel sn_modulus (drop_sn rx_next l) (Z.rem (rx_next + 1) sn_modulus)
      else Ok (l, rx_next)
  end.

Definition am_stop_t_reassembly (e : nr_rlc_entity_am_t) : nr_rlc_entity_am_t :=
  if negb (am_t_reassembly_start e =? 0)
     && ((am_rx_next_status_trigger e =? am_rx_next e)
         || ((am_rx_next_status_trigger e =? Z.rem (am_rx_next e + 1) (am_sn_modulus e))
             && negb (am_sdu_has_missing_bytes e (am_rx_next e)))
         || (negb (am_sn_in_recv_window e (am_rx_next_status_trigger e))
             && negb (am_rx_next_status_trigger e
                      =? Z.rem (am_rx_next e + am_window_size e) (am_sn_modulus e))))
  then e <| am_t_reassembly_start := 0 |>
  else e.

(** t_reassembly is started when something is missing after [sn]. *)
Definition am_start_t_reassembly (e : nr_rlc_entity_am_t) (sn : Z) : nr_rlc_entity_am_t :=
  if (am_sn_compare_rx e (am_rx_next_highest e) (Z.rem (sn + 1) (am_sn_modulus e)) >? 0)
     || ((am_rx_next_highest e =? Z.rem (sn + 1) (am_sn_modulus e))
         && am_sdu_has_missing_bytes e sn)
  then e <| am_t_reassembly_start := am_t_current e |>
         <| am_rx_next_status_trigger := am_rx_next_highest e |>
  else e.

Definition am_update_rx (e : nr_rlc_entity_am_t) (x : Z) : outcome nr_rlc_entity_am_t :=
  let e := if am_sn_compare_rx e x (am_rx_next_highest e) >=? 0
           then e <| am_rx_next_highest := Z.rem (x + 1) (am_sn_modulus e) |> else e in
  if am_sdu_full e x then
    e ← am_reassemble_and_deliver e x;
    e ← (if x =? am_rx_highest_status e then
           sn ← first_not_delivered (am_sn_modulus e) (am_rx_list e) (am_rx_highest_status e);
           Ok (e <| am_rx_highest_status := sn |>)
         else Ok e);
    if x =? am_rx_next e then
      '(l, rx_next) ← am_free_delivered (S (length (am_rx_list e))) (am_sn_modulus e)
                        (am_rx_list e) (am_rx_next e);
      Ok (e <| am_rx_list := l |> <| am_rx_next := rx_next |>)
    else Ok e
  else Ok e.

Definition am_reception_actions (e : nr_rlc_entity_am_t) (x : Z) : outcome nr_rlc_entity_am_t :=
  e ← am_update_rx e x;
  let e := am_stop_t_reassembly e in
  Ok (if am_t_reassembly_start e =? 0 then am_start_t_reassembly e (am_rx_next e) else e).

Definition am_discard_pdu (e : nr_rlc_entity_am_t) (p : bool) (size : Z) : nr_rlc_entity_am_t :=
  let e := if p then e <| am_status_triggered := true |> else e in
  e <| am_common := add_stat (add_stat (am_common e) rxpdu_dd_pkts 1) rxpdu_dd_bytes size |>.

(** What follows the decoding of the header; [byte] is [decoder.byte]. *)
Definition am_recv_segment (e : nr_rlc_entity_am_t) (buffer : list Z) (size : Z) (p : bool)
    (sn so : Z) (first last : bool) (byte : Z) : outcome nr_rlc_entity_am_t :=
  let data_size := size - byte in
  if data_size <=? 0 then Ok (am_discard_pdu e p size)
  else if am_rx_size e + data_size >? am_rx_maxsize e then Ok (am_discard_pdu e p size)
  else if negb (am_sn_in_recv_window e sn) then
    let c := add_stat (add_stat (am_common e) rxpdu_ow_pkts 1) rxpdu_ow_bytes size in
    Ok (am_discard_pdu (e <| am_common := c |>) p size)
  else if segment_already_received (am_rx_list e) sn so data_size then
    let c := add_stat (add_stat (am_common e) rxpdu_dup_pkts 1) rxpdu_dup_bytes size in
    Ok (am_discard_pdu (e <| am_common := c |>) p size)
  else
    (* put in pdu reception list *)
    let e := e <| am_rx_size := am_rx_size e + data_size |> in
    data ← of_option OutOfBounds (zslice buffer (size - data_size) data_size);
    let pdu := nr_rlc_new_pdu sn so first last data data_size in
    let e := e <| am_rx_list := nr_rlc_pdu_list_add (am_sn_compare_rx e) (am_rx_list e) pdu |> in
    e ← am_reception_actions e (pdu_sn pdu);
    Ok (if p then e <| am_status_triggered := true |> else e).

Definition nr_rlc_entity_am_recv_pdu (e : nr_rlc_entity_am_t) (buffer : list Z) (size : Z)
    : outcome nr_rlc_entity_am_t :=
  let e := e <| am_common := add_stat (add_stat (am_common e) rxpdu_pkts 1) rxpdu_bytes size |> in
  let decoder := nr_rlc_pdu_decoder_init buffer size in
  '(dc, decoder) ← nr_rlc_pdu_decoder_get_bits decoder 1;
  if dec_error decoder then Ok (am_discard_pdu e false size) else
  if dc =? 0 then process_control_pdu e buffer size else
  (* data PDU *)
  '(p, decoder) ← nr_rlc_pdu_decoder_get_bits decoder 1;
  let p := z2b p in
  if dec_error decoder then Ok (am_discard_pdu e p size) else
  '(si, decoder) ← nr_rlc_pdu_decoder_get_bits decoder 2;
  if dec_error decoder then Ok (am_discard_pdu e p size) else
  let first := Z.land si 2 =? 0 in
  let last := Z.land si 1 =? 0 in
  '(_, decoder) ← (if am_sn_field_length e =? 18
                   then nr_rlc_pdu_decoder_get_bits decoder 2 else Ok (0, decoder));
  if dec_error decoder then Ok (am_discard_pdu e p size) else
  '(sn, decoder) ← nr_rlc_pdu_decoder_get_bits decoder (am_sn_field_length e);
  if dec_error decoder then Ok (am_discard_pdu e p size) else
  if negb first then
    '(so, decoder) ← nr_rlc_pdu_decoder_get_bits decoder 16;
    if dec_error decoder then Ok (am_discard_pdu e p size) else
    if so =? 0 then Ok (am_discard_pdu e p size) else
    am_recv_segment e buffer size p sn so first last (dec_byte decoder)
  else am_recv_segment e buffer size p sn 0 first last (dec_byte decoder).
