(* ===== verification/RlcAmStatus.v ===== *)
(** * Generation of status reports in the AM entity

    [next_missing] finds the next part missing from the reception list; the
    report is generated from it, and its size computed, by two loops of the same
    shape. *)

From S2P Require Import Prelude TimeStat RlcPdu RlcSdu RlcReassembly RlcEntity RlcAm RlcAmRecv.

(** [md_sn_start] is -1 when no more missing part is to report; [md_next] is the
    list from the PDU to use for the next call. *)
Record missing_data_t := mk_missing {
  md_sn_start : Z;
  md_so_start : Z;
  md_sn_end : Z;
  md_so_end : Z;
  md_next : list nr_rlc_pdu_t;
}.
#[export] Instance eta_missing : RecordEta missing_data_t :=
  fld (fld (fld (fld (fld (fun _ => mk_missing) md_sn_start) md_so_start) md_sn_end) md_so_end)
    md_next.

Definition no_missing : missing_data_t := mk_missing (-1) 0 0 0 [].

(** Not to report: out of the reporting window. *)
Definition am_not_reported (e : nr_rlc_entity_am_t) (sn : Z) : bool :=
  am_sn_compare_rx e (am_rx_highest_status e) sn <=? 0.

Definition am_last_reported (e : nr_rlc_entity_am_t) : Z :=
  Z.rem (am_rx_highest_status e - 1 + am_sn_modulus e) (am_sn_modulus e).

(** [set_end_different_sdu]: up to [cur], or to [rx_highest_status] - 1. *)
Definition set_end_different_sdu (e : nr_rlc_entity_am_t) (sn_start so_start : Z)
    (cur : nr_rlc_pdu_t) (next : list nr_rlc_pdu_t) : missing_data_t :=
  let '(sn_end, so_end) :=
    (* if cur is the head of a SDU, then use cur-1 *)
    if pdu_is_first cur
    then (Z.rem (pdu_sn cur - 1 + am_sn_modulus e) (am_sn_modulus e), 65535)
    else (pdu_sn cur, pdu_so cur - 1) in
  (* don't go more than rx_highest_status - 1 *)
  if am_not_reported e sn_end
  then mk_missing sn_start so_start (am_last_reported e) 65535 []
  else mk_missing sn_start so_start sn_end so_end next.

(** The end of the list: from [sn_start] to [rx_highest_status] - 1. *)
Definition missing_to_end (e : nr_rlc_entity_am_t) (sn_start so_start : Z) : missing_data_t :=
  if am_not_reported e sn_start then no_missing
  else mk_missing sn_start so_start (am_last_reported e) 65535 [].

(** [next_pdu]: from the PDU [cur], followed by [l]. *)
Fixpoint next_missing_from (e : nr_rlc_entity_am_t) (cur : nr_rlc_pdu_t) (l : list nr_rlc_pdu_t)
    (max_so : Z) (last_reached : bool) : missing_data_t :=
  let sn := pdu_sn cur in
  let succ := Z.rem (sn + 1) (am_sn_modulus e) in
  let cur_max_so := pdu_so cur + pdu_size cur - 1 in
  let max_so := if cur_max_so >? max_so then cur_max_so else max_so in
  let last_reached := last_reached || pdu_is_last cur in
  match l with
  | [] =>
      (* no next? already processed => next SDU to rx_highest_status - 1; else all
         bytes after max_so (if any) too *)
      match pdu_data cur with
      | None => missing_to_end e succ 0
      | Some _ => if last_reached then missing_to_end e succ 0 else missing_to_end e sn (max_so + 1)
      end
  | next :: l' =>
      (* no discontinuity in data => process to next PDU *)
      if (pdu_sn next =? sn) && (max_so >=? pdu_so next - 1) then
        next_missing_from e next l' max_so last_reached
      else if (pdu_sn next =? succ) && last_reached && pdu_is_first next then
        next_missing_from e next l' 0 false
      else
      (* discontinuity in same SDU *)
      if pdu_sn next =? sn then
        if am_not_reported e sn then no_missing
        else mk_missing sn (max_so + 1) sn (pdu_so next - 1) l
      else
      (* discontinuity between different SDUs *)
      let '(sn_start, so_start) := if last_reached then (succ, 0) else (sn, max_so + 1) in
      if am_not_reported e sn_start then no_missing
      else set_end_different_sdu e sn_start so_start next l
  end.

Definition next_missing (e : nr_rlc_entity_am_t) (cur : nr_rlc_pdu_t) (l : list nr_rlc_pdu_t)
    (check_head : bool) : missing_data_t :=
  (* special case: missing part before the head of RX list *)
  if check_head && (negb (pdu_sn cur =? am_rx_next e) || negb (pdu_is_first cur)) then
    if am_not_reported e (am_rx_next e) then no_missing
    else set_end_different_sdu e (am_rx_next e) 0 cur (cur :: l)
  else next_missing_from e cur l 0 false.

(** ** Sizes *)

Definition nack_size (e : nr_rlc_entity_am_t) (sn_start so_start sn_end so_end : Z) : Z :=
  let nack_length := 2 + (if am_sn_field_length e =? 18 then 1 else 0) in
  if sn_start =? sn_end then
    if (so_start =? 0) && (so_end =? 65535) then nack_length else nack_length + 4
  else
    if (so_start =? 0) && (so_end =? 65535) then nack_length + 1 else nack_length + 5.

Definition am_sn_count (e : nr_rlc_entity_am_t) (m : missing_data_t) : Z :=
  Z.rem (md_sn_end m - md_sn_start m + am_sn_modulus e) (am_sn_modulus e) + 1.

(** One range of at most 255 SNs of [m], from [sn_start]: its so_start, sn_end and
    so_end. *)
Definition nack_block (e : nr_rlc_entity_am_t) (m : missing_data_t) (sn_start sn_count : Z)
    : Z * Z * Z :=
  let so_start := if sn_start =? md_sn_start m then md_so_start m else 0 in
  if sn_count <=? 255
  then (so_start, md_sn_end m, md_so_end m)
  else (so_start, Z.rem (sn_start + 254) (am_sn_modulus e), 65535).

(** The loop of [missing_size]: [fuel] bounds the ranges left; returns the number
    of ranges, the size, and whether a range did not fit. *)
Fixpoint missing_size_loop (fuel : nat) (e : nr_rlc_entity_am_t) (m : missing_data_t)
    (sn_start sn_count range_count size maxsize : Z) : outcome (Z * Z * bool) :=
  if sn_count =? 0 then Ok (range_count, size, false) else
  match fuel with
  | O => Fault Diverge
  | S fuel =>
      let cur_sn_count := if sn_count >? 255 then 255 else sn_count in
      let '(so_start, sn_end, so_end) := nack_block e m sn_start sn_count in
      let r_bits := if am_sn_field_length e =? 18 then 3 else 1 in
      let base := am_sn_field_length e + 3 + r_bits in
      if size + nack_size e sn_start so_start sn_end so_end >? maxsize
      then Ok (range_count, size, true)
      else
        let bits :=
          if sn_start =? sn_end then
            if (so_start =? 0) && (so_end =? 65535) then base else base + 16 * 2
          else
            if (so_start =? 0) && (so_end =? 65535) then base + 8 else base + 16 * 2 + 8 in
        missing_size_loop fuel e m (Z.rem (sn_start + cur_sn_count) (am_sn_modulus e))
          (sn_count - cur_sn_count) (range_count + 1) (size + Z.quot bits 8) maxsize
  end.

(** Ranges of 255 SNs. *)
Definition am_ranges_fuel (e : nr_rlc_entity_am_t) (m : missing_data_t) : nat :=
  Z.to_nat (am_sn_count e m / 255 + 1).

Definition missing_size (e : nr_rlc_entity_am_t) (m : missing_data_t) (size maxsize : Z)
    : outcome (Z * Z * missing_data_t) :=
  '(ranges, size, truncated) ←
    missing_size_loop (am_ranges_fuel e m) e m (md_sn_start m) (am_sn_count e m) 0 size maxsize;
  Ok (ranges, size, if (truncated : bool) then m <| md_next := [] |> else m).

Fixpoint status_size_loop (fuel : nat) (e : nr_rlc_entity_am_t) (l : list nr_rlc_pdu_t)
    (nack_count size maxsize : Z) : outcome Z :=
  match l with
  | [] => Ok size
  | cur :: l =>
      match fuel with
      | O => Fault Diverge
      | S fuel =>
          let m := next_missing e cur l (nack_count =? 0) in
          (* stop here if no more nack to report *)
          if md_sn_start m =? -1 then Ok size
          else
            '(ranges, size, m) ← missing_size e m size maxsize;
            status_size_loop fuel e (md_next m) (nack_count + ranges) size maxsize
      end
  end.

(** The list after the one just looked at gets shorter, the first time apart. *)
Definition am_status_fuel (e : nr_rlc_entity_am_t) : nat := S (length (am_rx_list e)).

Definition status_size (e : nr_rlc_entity_am_t) (maxsize : Z) : outcome Z :=
  (* if not enough room, do nothing *)
  if maxsize <? 3 then Ok 0
  else status_size_loop (am_status_fuel e) e (am_rx_list e) 0 3 maxsize.

(** ** Generation *)

(** Byte and bit of the next E1. *)
Definition get_e1_position (e : nr_rlc_entity_am_t) (enc : nr_rlc_pdu_encoder_t) : Z * Z :=
  if am_sn_field_length e =? 18 then (enc_byte enc + 2, 5) else (enc_byte enc + 1, 3).

(** What the loops of the generation carry. *)
Record gen_t := mk_gen {
  gen_enc : nr_rlc_pdu_encoder_t;
  gen_e1_byte : Z;
  gen_e1_bit : Z;
  gen_so_end_address : option Z;     (* offset in the buffer, or NULL *)
  gen_last_nack : Z;
}.
#[export] Instance eta_gen : RecordEta gen_t :=
  fld (fld (fld (fld (fld (fun _ => mk_gen) gen_enc) gen_e1_byte) gen_e1_bit) gen_so_end_address)
    gen_last_nack.

(** [buffer[i] |= v] *)
Definition enc_or (enc : nr_rlc_pdu_encoder_t) (i v : Z) : outcome nr_rlc_pdu_encoder_t :=
  b ← of_option OutOfBounds (zget (enc_buffer enc) i);
  buffer ← of_option OutOfBounds (zset (enc_buffer enc) i (Z.lor b v));
  Ok (enc <| enc_buffer := buffer |>).

(** One NACK block. *)
Definition put_nack (e : nr_rlc_entity_am_t) (g : gen_t)
    (sn_start so_start sn_end so_end cur_sn_count : Z) : outcome gen_t :=
  let r_bits := if am_sn_field_length e =? 18 then 3 else 1 in
  (* set the previous e1 bit to 1 *)
  enc ← enc_or (gen_enc g) (gen_e1_byte g) (Z.shiftl 1 (gen_e1_bit g));
  let '(e1_byte, e1_bit) := get_e1_position e enc in
  let e2 := negb ((so_start =? 0) && (so_end =? 65535)) in
  let e3 := negb (sn_start =? sn_end) in
  enc ← put_fields enc [(sn_start, am_sn_field_length e); (0, 1); (b2z e2, 1); (b2z e3, 1); (0, r_bits)];
  '(enc, so_end_address) ←
    (if e2 then
       enc ← nr_rlc_pdu_encoder_put_bits enc so_start 16;
       let so_end_address := enc_byte enc in
       enc ← nr_rlc_pdu_encoder_put_bits enc so_end 16;
       Ok (enc, Some so_end_address)
     else Ok (enc, None));
  enc ← (if e3 then nr_rlc_pdu_encoder_put_bits enc cur_sn_count 8 else Ok enc);
  let last_nack_generated := if e3 then sn_start + (cur_sn_count - 1) else sn_start in
  Ok (mk_gen enc e1_byte e1_bit so_end_address last_nack_generated).

(** The loop of [generate_missing]; also returns whether the generation was
    truncated. *)
Fixpoint generate_missing_loop (fuel : nat) (e : nr_rlc_entity_am_t) (m : missing_data_t)
    (g : gen_t) (sn_start sn_count : Z) : outcome (gen_t * bool) :=
  if sn_count =? 0 then Ok (g, false) else
  match fuel with
  | O => Fault Diverge
  | S fuel =>
      let cur_sn_count := if sn_count >? 255 then 255 else sn_count in
      let '(so_start, sn_end, so_end) := nack_block e m sn_start sn_count in
      (* check that there is room for a nack *)
      if enc_byte (gen_enc g) + nack_size e sn_start so_start sn_end so_end
         >? enc_size (gen_enc g)
      then Ok (g, true)
      else
        g ← put_nack e g sn_start so_start sn_end so_end cur_sn_count;
        generate_missing_loop fuel e m g (Z.rem (sn_start + cur_sn_count) (am_sn_modulus e))
          (sn_count - cur_sn_count)
  end.

(** [gen_last_nack] is -1 when nothing was generated. *)
Definition generate_missing (e : nr_rlc_entity_am_t) (m : missing_data_t) (g : gen_t)
    : outcome (gen_t * bool * missing_data_t) :=
  '(g, truncated) ← generate_missing_loop (am_ranges_fuel e m) e m (g <| gen_last_nack := -1 |>)
                      (md_sn_start m) (am_sn_count e m);
  Ok (g, truncated, if (truncated : bool) then m <| md_next := [] |> else m).

(** The loop of [generate_status]: NACKs, then the last SN nacked. *)
Fixpoint generate_nacks (fuel : nat) (e : nr_rlc_entity_am_t) (l : list nr_rlc_pdu_t)
    (check_head : bool) (g : gen_t) (last_nack : Z) : outcome (gen_t * Z) :=
  match l with
  | [] => Ok (g, last_nack)
  | cur :: l =>
      match fuel with
      | O => Fault Diverge
      | S fuel =>
          let m := next_missing e cur l check_head in
          (* stop here if no more nack to report *)
          if md_sn_start m =? -1 then Ok (g, last_nack)
          else
            '(g, truncated, m) ← generate_missing e m g;
            (* remember the last nack put, if any *)
            let last_nack := if gen_last_nack g =? -1 then last_nack else gen_last_nack g in
            (* generation truncated and so_end put: force it to the end of the SDU *)
            enc ← match gen_so_end_address g with
                  | Some a =>
                      if (truncated : bool) then
                        b ← of_option OutOfBounds (zset (enc_buffer (gen_enc g)) a 255);
                        b ← of_option OutOfBounds (zset b (a + 1) 255);
                        Ok ((gen_enc g) <| enc_buffer := b |>)
                      else Ok (gen_enc g)
                  | None => Ok (gen_enc g)
                  end;
            generate_nacks fuel e (md_next m) false (g <| gen_enc := enc |>) last_nack
      end
  end.

(** ACK_SN in the first bytes. *)
Definition put_ack_sn (e : nr_rlc_entity_am_t) (buffer : list Z) (ack_sn : Z)
    : outcome (list Z) :=
  if am_sn_field_length e =? 12 then
    b ← of_option OutOfBounds (zset buffer 0 (Z.land (Z.shiftr ack_sn 8) 255));
    of_option OutOfBounds (zset b 1 (Z.land ack_sn 255))
  else
    b ← of_option OutOfBounds (zset buffer 0 (Z.land (Z.shiftr ack_sn 14) 255));
    b ← of_option OutOfBounds (zset b 1 (Z.land (Z.shiftr ack_sn 6) 255));
    b2 ← of_option OutOfBounds (zget b 2);
    of_option OutOfBounds (zset b 2 (Z.lor b2 (Z.shiftl (Z.land ack_sn 63) 2))).

Definition generate_status (e : nr_rlc_entity_am_t) (buffer : list Z) (size : Z)
    : outcome (Z * list Z * nr_rlc_entity_am_t) :=
  (* if not enough room, do nothing *)
  if size <? 3 then Ok (0, buffer, e) else
  (* initial last_nack is rx_next - 1 *)
  let last_nack := Z.rem (am_rx_next e - 1 + am_sn_modulus e) (am_sn_modulus e) in
  (* first 3 bytes, ack_sn and e1 will be set later *)
  enc ← nr_rlc_pdu_encoder_put_bits (nr_rlc_pdu_encoder_init buffer size) 0 (8 * 3);
  let g := mk_gen enc 2 (if am_sn_field_length e =? 18 then 1 else 7) None (-1) in
  '(g, last_nack) ← generate_nacks (am_status_fuel e) e (am_rx_list e) true g last_nack;
  (* put ack_sn, which is last_nack + 1 *)
  let ack_sn := Z.rem (last_nack + 1) (am_sn_modulus e) in
  buffer ← put_ack_sn e (enc_buffer (gen_enc g)) ack_sn;
  (* reset the trigger, start t_status_prohibit *)
  let e := e <| am_status_triggered := false |> <| am_t_status_prohibit_start := am_t_current e |> in
  let n := enc_byte (gen_enc g) in
  let c := add_stat (add_stat (am_common e) txpdu_pkts 1) txpdu_bytes n in
  let c := add_stat (add_stat c txpdu_status_pkts 1) txpdu_status_bytes n in
  Ok (n, buffer, e <| am_common := c |>).

Definition status_to_report (e : nr_rlc_entity_am_t) : bool :=
  am_status_triggered e
  && ((am_t_status_prohibit_start e =? 0)
      || (u64 (am_t_current e - am_t_status_prohibit_start e) >? u64 (am_t_status_prohibit e))).
