(* ===== verification/RlcAmSend.v ===== *)
(** * Transmission, timers and life cycle of the AM entity

    PDUs are generated from the status report, the retransmit list and the
    transmit list, in this order; a sent segment goes to the wait list until it
    is acknowledged. *)

From S2P Require Import Prelude TimeStat RlcPdu RlcSdu RlcReassembly RlcEntity RlcAm RlcAmCtrl.
From S2P Require Import RlcAmRecv RlcAmStatus.

(** ** PDUs *)

Definition am_include_poll (e : nr_rlc_entity_am_t) (buffer : list Z)
    : outcome (list Z * nr_rlc_entity_am_t) :=
  (* set the P bit to 1 *)
  b ← of_option OutOfBounds (zget buffer 0);
  buffer ← of_option OutOfBounds (zset buffer 0 (Z.lor b 64));
  Ok (buffer,
      e <| am_pdu_without_poll := 0 |> <| am_byte_without_poll := 0 |>
        <| am_poll_sn := Z.rem (am_tx_next e - 1 + am_sn_modulus e) (am_sn_modulus e) |>
        <| am_t_poll_retransmit_start := am_t_current e |>).

(** D/C, P (set later), SI, reserved bits, SN and SO. *)
Definition am_header_fields (sn_field_length sn : Z) (sdu : nr_rlc_sdu_segment_t) : list (Z * Z) :=
  [(1, 1); (0, 1); (1 - b2z (is_first sdu), 1); (1 - b2z (is_last sdu), 1)]
  ++ (if sn_field_length =? 18 then [(0, 2)] else []) ++ [(sn, sn_field_length)]
  ++ (if negb (is_first sdu) then [(seg_so sdu, 16)] else []).

(** Returns the PDU size, the buffer and the entity. *)
Definition am_serialize_sdu (e : nr_rlc_entity_am_t) (sdu : nr_rlc_sdu_segment_t)
    (buffer : list Z) (bufsize : Z) (p : bool) : outcome (Z * list Z * nr_rlc_entity_am_t) :=
  u ← deref_sdu (heap (am_common e)) sdu;
  encoder ← put_fields (nr_rlc_pdu_encoder_init buffer bufsize)
              (am_header_fields (am_sn_field_length e) (sdu_sn u) sdu);
  data ← of_option OutOfBounds (zslice (sdu_data u) (seg_so sdu) (seg_size sdu));
  buffer ← of_option OutOfBounds (zblit (enc_buffer encoder) (enc_byte encoder) data);
  '(buffer, e) ← (if p then am_include_poll e buffer else Ok (buffer, e));
  Ok (enc_byte encoder + seg_size sdu, buffer, e).

(** Returns the entity, the segment resized, and the new segment. *)
Definition am_resegment (e : nr_rlc_entity_am_t) (sdu : nr_rlc_sdu_segment_t) (pdu_size : Z)
    : outcome (nr_rlc_entity_am_t * nr_rlc_sdu_segment_t * nr_rlc_sdu_segment_t) :=
  let c := am_common e in
  u ← deref_sdu (heap c) sdu;
  let h := set_sdu (heap c) sdu (u <| ref_count := ref_count u + 1 |>) in
  let pdu_header_size := am_compute_pdu_header_size e sdu in
  let a := heap_next h in
  let over_size := pdu_header_size + seg_size sdu - pdu_size in
  let sdu' := sdu <| seg_size := seg_size sdu - over_size |> <| is_last := false |> in
  let next := sdu <| seg_addr := a |> <| seg_size := over_size |>
                  <| seg_so := seg_so sdu + seg_size sdu' |> <| is_first := false |> in
  Ok (e <| am_common := c <| heap := h <| heap_next := a + 1 |> |> |>, sdu', next).

(** After the last segment of the wait list? *)
Definition am_after_wait_end (e : nr_rlc_entity_am_t) (sdu : nr_rlc_sdu_segment_t)
    : outcome bool :=
  match am_wait_end e with
  | None => Ok true
  | Some a =>
      last ← deref_end (am_wait_list e) a;
      sn ← am_seg_sn e sdu;
      last_sn ← am_seg_sn e last;
      let cmp := am_sn_compare_tx e sn last_sn in
      Ok ((cmp >? 0) || ((cmp =? 0) && (seg_so sdu >? seg_so last)))
  end.

(** Put a segment in the wait list. *)
Definition am_put_in_wait_list (e : nr_rlc_entity_am_t) (sdu : nr_rlc_sdu_segment_t)
    : outcome nr_rlc_entity_am_t :=
  after ← am_after_wait_end e sdu;
  if (after : bool) then
    '(l, wait_end) ← nr_rlc_sdu_segment_list_append (am_wait_list e) (am_wait_end e) sdu;
    Ok (e <| am_wait_list := l |> <| am_wait_end := wait_end |>)
  else
    l ← nr_rlc_tx_sdu_segment_list_add e (am_wait_list e) sdu;
    let e := e <| am_wait_list := l |> in
    match l with
    | [s] => Ok (e <| am_wait_end := Some (seg_addr s) |>)
    | _ => Ok e
    end.

(** [force_poll] is used once. *)
Definition am_use_force_poll (e : nr_rlc_entity_am_t) (p : bool) : bool * nr_rlc_entity_am_t :=
  if am_force_poll e then (true, e <| am_force_poll := false |>) else (p, e).

Definition am_generate_retx_pdu (e : nr_rlc_entity_am_t) (buffer : list Z) (size : Z)
    : outcome (Z * list Z * nr_rlc_entity_am_t) :=
  match am_retransmit_list e with
  | [] => Fault NullDeref
  | sdu :: next =>
      let pdu_header_size := am_compute_pdu_header_size e sdu in
      (* not enough room for at least one byte of data? do nothing *)
      if pdu_header_size + 1 >? size then Ok (0, buffer, e) else
      let e := e <| am_retransmit_list := next |> in
      let pdu_size := pdu_header_size + seg_size sdu in
      (* update buffer status *)
      let e := am_add_retx_size e (- pdu_size) in
      (* segment if necessary *)
      '(e, sdu) ←
        (if pdu_size >? size then
           '(e, sdu, next_sdu) ← am_resegment e sdu size;
           let e := e <| am_retransmit_list := next_sdu :: am_retransmit_list e |> in
           let e := am_add_retx_size e (am_compute_pdu_header_size e next_sdu + seg_size next_sdu) in
           Ok (e <| am_common := add_stat (am_common e) txpdu_segmented 1 |>, sdu)
         else Ok (e, sdu));
      e ← am_put_in_wait_list e sdu;
      let '(p, e) := am_use_force_poll e (am_check_poll_after_pdu_assembly e) in
      '(ret_size, buffer, e) ← am_serialize_sdu e sdu buffer size p;
      let c := add_stat (add_stat (am_common e) txpdu_pkts 1) txpdu_bytes ret_size in
      let c := add_stat (add_stat c txpdu_retx_pkts 1) txpdu_retx_bytes ret_size in
      Ok (ret_size, buffer, e <| am_common := c |>)
  end.

(** The head leaves the TX list, whose rest is [next]. *)
Definition am_unlink_head (e : nr_rlc_entity_am_t) (next : list nr_rlc_sdu_segment_t)
    : nr_rlc_entity_am_t :=
  let e := e <| am_tx_list := next |> in
  match next with [] => e <| am_tx_end := None |> | _ => e end.

(** The second segment goes back at the head of the TX list. *)
Definition am_put_back (e : nr_rlc_entity_am_t) (next_sdu : nr_rlc_sdu_segment_t)
    : nr_rlc_entity_am_t :=
  let e := e <| am_tx_list := next_sdu :: am_tx_list e |> in
  match am_tx_end e with
  | None => e <| am_tx_end := Some (seg_addr next_sdu) |>
  | Some _ => e
  end.

(** Assign SN to SDU, unless a previous segment did. *)
Definition am_assign_sn (e : nr_rlc_entity_am_t) (sdu : nr_rlc_sdu_segment_t)
    : outcome nr_rlc_entity_am_t :=
  u ← deref_sdu (heap (am_common e)) sdu;
  if sdu_sn u =? -1 then
    let h := set_sdu (heap (am_common e)) sdu (u <| sdu_sn := am_tx_next e |>) in
    let e := e <| am_common := (am_common e) <| heap := h |> |> in
    Ok (e <| am_tx_next := Z.rem (am_tx_next e + 1) (am_sn_modulus e) |>)
  else Ok e.

(** Polling actions for a new PDU. *)
Definition am_poll_new_pdu (e : nr_rlc_entity_am_t) (sdu : nr_rlc_sdu_segment_t)
    : bool * nr_rlc_entity_am_t :=
  let e := e <| am_pdu_without_poll := am_pdu_without_poll e + 1 |>
             <| am_byte_without_poll := am_byte_without_poll e + seg_size sdu |> in
  let p := (negb (am_poll_pdu e =? -1) && (am_pdu_without_poll e >=? am_poll_pdu e))
           || (negb (am_poll_byte e =? -1) && (am_byte_without_poll e >=? am_poll_byte e))
           || am_check_poll_after_pdu_assembly e in
  am_use_force_poll e p.

Definition am_generate_tx_pdu (e : nr_rlc_entity_am_t) (buffer : list Z) (size now : Z)
    : outcome (Z * list Z * nr_rlc_entity_am_t) :=
  (* sn out of window (that is: we have window stalling)? do nothing *)
  if am_is_window_stalling e then Ok (0, buffer, e) else
  match am_tx_list e with
  | [] => Ok (0, buffer, e)
  | sdu :: next =>
      let pdu_header_size := am_compute_pdu_header_size e sdu in
      (* not enough room for at least one byte of data? do nothing *)
      if pdu_header_size + 1 >? size then Ok (0, buffer, e) else
      let e := am_unlink_head e next in
      let pdu_size := pdu_header_size + seg_size sdu in
      (* update buffer status *)
      let e := e <| am_common := add_tx_size (am_common e) (- pdu_size) |> in
      e ← am_assign_sn e sdu;
      (* segment if necessary *)
      '(e, sdu) ←
        (if pdu_size >? size then
           '(e, sdu, next_sdu) ← am_resegment e sdu size;
           let e := am_put_back e next_sdu in
           let c := add_stat (am_common e) txpdu_segmented 1 in
           let c := add_tx_size c (am_compute_pdu_header_size e next_sdu + seg_size next_sdu) in
           Ok (e <| am_common := c |>, sdu)
         else Ok (e, sdu));
      e ← am_put_in_wait_list e sdu;
      let '(p, e) := am_poll_new_pdu e sdu in
      '(ret_size, buffer, e) ← am_serialize_sdu e sdu buffer size p;
      let c := add_stat (add_stat (am_common e) txpdu_pkts 1) txpdu_bytes ret_size in
      c ← account_tx_time c sdu now;
      Ok (ret_size, buffer, e <| am_common := c |>)
  end.

Definition nr_rlc_entity_am_buffer_status (e : nr_rlc_entity_am_t) (maxsize : Z)
    : outcome nr_rlc_entity_buffer_status_t :=
  status ← (if status_to_report e then status_size e maxsize else Ok 0);
  Ok (mk_bstatus status (bs_tx_size (bstatus (am_common e))) (bs_retx_size (bstatus (am_common e)))).

(** The retransmit list after the status report, the TX list in the end. *)
Definition am_generate_data (e : nr_rlc_entity_am_t) (buffer : list Z) (size now : Z)
    : outcome (Z * list Z * nr_rlc_entity_am_t) :=
  match am_retransmit_list e with
  | [] => am_generate_tx_pdu e buffer size now
  | _ =>
      '(ret, buffer, e) ← am_generate_retx_pdu e buffer size;
      if negb (ret =? 0) then Ok (ret, buffer, e) else am_generate_tx_pdu e buffer size now
  end.

Definition nr_rlc_entity_am_generate_pdu (e : nr_rlc_entity_am_t) (buffer : list Z) (size now : Z)
    : outcome (Z * list Z * nr_rlc_entity_am_t) :=
  if status_to_report e then
    '(ret, buffer, e) ← generate_status e buffer size;
    if negb (ret =? 0) then Ok (ret, buffer, e) else am_generate_data e buffer size now
  else am_generate_data e buffer size now.

(** ** SDUs from the upper layer *)

Definition nr_rlc_entity_am_recv_sdu (e : nr_rlc_entity_am_t) (buffer : list Z)
    (size sdu_id now : Z) : outcome nr_rlc_entity_am_t :=
  let e := e <| am_common := add_stat (am_common e) rxsdu_pkts 1 |> in
  (* log SDUs rejected, at most once per second *)
  let e := if negb (am_sdu_rejected e =? 0)
              && (am_t_current e >? u64 (am_t_log_buffer_full e + 1000))
           then e <| am_sdu_rejected := 0 |> <| am_t_log_buffer_full := am_t_current e |>
           else e in
  if am_tx_size e + size >? am_tx_maxsize e then Ok (e <| am_sdu_rejected := am_sdu_rejected e + 1 |>)
  else
    let e := e <| am_tx_size := am_tx_size e + size |> in
    let e := e <| am_common := add_stat64 (am_common e) rxsdu_bytes size |> in
    '(h, sdu) ← nr_rlc_new_sdu (heap (am_common e)) buffer size sdu_id;
    '(l, tx_end) ← nr_rlc_sdu_segment_list_append (am_tx_list e) (am_tx_end e) sdu;
    let e := e <| am_tx_list := l |> <| am_tx_end := tx_end |> in
    (* update buffer status *)
    let c := add_tx_size ((am_common e) <| heap := h |>)
               (am_compute_pdu_header_size e sdu + seg_size sdu) in
    c ← stamp_arrival c sdu now;
    Ok (e <| am_common := c |>).

(** ** Timers *)

(** All the segments of the SDU [sn] at the head of the wait list go to the
    retransmit list, the first one ([cur]) in any case. *)
Fixpoint am_retransmit_head (e : nr_rlc_entity_am_t) (sn : Z) (cur : nr_rlc_sdu_segment_t)
    (next : list nr_rlc_sdu_segment_t) : outcome nr_rlc_entity_am_t :=
  let e := e <| am_wait_list := next |> in
  let e := match next with [] => e <| am_wait_end := None |> | _ => e end in
  (* update buffer status *)
  let e := am_add_retx_size e (am_compute_pdu_header_size e cur + seg_size cur) in
  l ← nr_rlc_tx_sdu_segment_list_add e (am_retransmit_list e) cur;
  let e := e <| am_retransmit_list := l |> in
  match next with
  | [] => Ok e
  | cur :: next =>
      cur_sn ← am_seg_sn e cur;
      if cur_sn =? sn then am_retransmit_head e sn cur next else Ok e
  end.

Definition am_check_t_poll_retransmit (e : nr_rlc_entity_am_t) : outcome nr_rlc_entity_am_t :=
  (* did t_poll_retransmit expire? *)
  if (am_t_poll_retransmit_start e =? 0)
     || (am_t_current e <=? u64 (am_t_poll_retransmit_start e + am_t_poll_retransmit e))
  then Ok e
  else
    (* stop timer *)
    let e := e <| am_t_poll_retransmit_start := 0 |> <| am_force_poll := true |> in
    if negb (am_check_poll_after_pdu_assembly e) then Ok e
    else
      (* retransmit the SDU at the head of wait list *)
      match am_wait_list e with
      | [] => Fault NullDeref
      | cur :: next =>
          u ← deref_sdu (heap (am_common e)) cur;
          let u := u <| retx_count := retx_count u + 1 |> in
          let h := set_sdu (heap (am_common e)) cur u in
          let e := e <| am_common := (am_common e) <| heap := h |> |> in
          e ← am_retransmit_head e (sdu_sn u) cur next;
          Ok (if retx_count u >=? am_max_retx_threshold e
              then e <| am_common := emit (am_common e) MaxRetxReached |> else e)
      end.

Definition am_check_t_reassembly (e : nr_rlc_entity_am_t) : outcome nr_rlc_entity_am_t :=
  (* is t_reassembly running and if yes has it expired? *)
  if (am_t_reassembly_start e =? 0)
     || (am_t_current e <=? u64 (am_t_reassembly_start e + am_t_reassembly e))
  then Ok e
  else
    (* stop timer *)
    let e := e <| am_t_reassembly_start := 0 |> in
    (* update RX_Highest_Status *)
    sn ← first_not_delivered (am_sn_modulus e) (am_rx_list e) (am_rx_next_status_trigger e);
    (* trigger status report *)
    let e := e <| am_rx_highest_status := sn |> <| am_status_triggered := true |> in
    Ok (am_start_t_reassembly e (am_rx_highest_status e)).

Definition nr_rlc_entity_am_set_time (e : nr_rlc_entity_am_t) (now : Z)
    : outcome nr_rlc_entity_am_t :=
  e ← am_check_t_poll_retransmit (e <| am_t_current := now |>);
  am_check_t_reassembly e.

(** ** Discard, re-establishment, delete *)

Definition nr_rlc_entity_am_discard_sdu (e : nr_rlc_entity_am_t) (sdu_id : Z)
    : outcome nr_rlc_entity_am_t :=
  found ← find_upper_layer_id (heap (am_common e)) sdu_id [] (am_tx_list e);
  match found with
  | None => Ok e
  | Some (before, cur, next) =>
      (* some bytes already 'PDU-ized': nothing to do *)
      if negb (is_first cur) || negb (is_last cur) then Ok e else
      let e := e <| am_tx_list := before ++ next |> in
      let e := if decide (am_tx_end e = Some (seg_addr cur))
               then e <| am_tx_end := seg_addr <$> last before |> else e in
      (* update buffer status *)
      let c := add_tx_size (am_common e) (- (am_compute_pdu_header_size e cur + seg_size cur)) in
      u ← deref_sdu (heap c) cur;
      let e := e <| am_tx_size := am_tx_size e - sdu_size u |> in
      '(h, _) ← nr_rlc_free_sdu_segment (heap c) cur;
      Ok (e <| am_common := c <| heap := h |> |>)
  end.

Definition am_clear_entity (e : nr_rlc_entity_am_t) : outcome nr_rlc_entity_am_t :=
  let e := e <| am_rx_next := 0 |> <| am_rx_next_status_trigger := 0 |>
             <| am_rx_highest_status := 0 |> <| am_rx_next_highest := 0 |>
             <| am_status_triggered := false |> <| am_tx_next := 0 |> <| am_tx_next_ack := 0 |>
             <| am_poll_sn := 0 |> <| am_pdu_without_poll := 0 |> <| am_byte_without_poll := 0 |>
             <| am_force_poll := false |> <| am_t_current := 0 |>
             <| am_t_log_buffer_full := 0 |> <| am_sdu_rejected := 0 |>
             <| am_t_poll_retransmit_start := 0 |> <| am_t_reassembly_start := 0 |>
             <| am_t_status_prohibit_start := 0 |> <| am_rx_list := [] |> <| am_rx_size := 0 |> in
  h ← nr_rlc_free_sdu_segment_list (heap (am_common e)) (am_tx_list e);
  h ← nr_rlc_free_sdu_segment_list h (am_wait_list e);
  h ← nr_rlc_free_sdu_segment_list h (am_retransmit_list e);
  let e := e <| am_tx_list := [] |> <| am_tx_end := None |> <| am_tx_size := 0 |>
             <| am_wait_list := [] |> <| am_wait_end := None |> <| am_retransmit_list := [] |> in
  let c := (am_common e) <| heap := h |> in
  Ok (e <| am_common :=
         c <| bstatus := (bstatus c) <| bs_tx_size := 0 |> <| bs_retx_size := 0 |> |> |>).

Definition nr_rlc_entity_am_reestablishment := am_clear_entity.

Definition nr_rlc_entity_am_delete (e : nr_rlc_entity_am_t) : outcome sdu_heap :=
  e ← am_clear_entity e;
  Ok (heap (am_common e)).

Definition nr_rlc_entity_am_available_tx_space (e : nr_rlc_entity_am_t) : Z :=
  am_tx_maxsize e - am_tx_size e.
