(* ===== verification/RlcBearer.v ===== *)
(** * Bearers of the RLC: configuration and interface
      (src/openair2/LAYER2/nr_rlc/asn1_utils.c, nr_rlc_entity.h)

    The fields of the decoded ASN.1 messages that the RLC module reads, the
    tables that translate their enumerations, and the functions every entity
    has, whatever its mode. *)

From S2P Require Import Prelude TimeStat RlcSdu RlcEntity RlcTm RlcUm RlcAm RlcAmRecv RlcAmSend.

(** ** What is read of the messages

    The types are generated; these are the fields used.  Enumerations are [Z],
    optional fields [option Z]. *)

Record NR_DL_AM_RLC := mk_dl_am { dam_t_Reassembly : Z; dam_t_StatusProhibit : Z; dam_sn_FieldLength : option Z }.
Record NR_UL_AM_RLC := mk_ul_am {
  uam_t_PollRetransmit : Z; uam_pollPDU : Z; uam_pollByte : Z; uam_maxRetxThreshold : Z;
  uam_sn_FieldLength : option Z }.
Record NR_UM_RLC := mk_um_rlc { um_t_Reassembly : Z; um_dl_sn_FieldLength : option Z; um_ul_sn_FieldLength : option Z }.

(** The union with its discriminant [present]. *)
Inductive NR_RLC_Config : Type :=
| NR_RLC_Config_am (dl : NR_DL_AM_RLC) (ul : NR_UL_AM_RLC)
| NR_RLC_Config_um_Bi_Directional (um : NR_UM_RLC)
| NR_RLC_Config_other.

(** [choice_id] is the identity in servedRadioBearer, of an SRB or of a DRB. *)
Record NR_RLC_BearerConfig := mk_bearer_config {
  logicalChannelIdentity : Z; choice_id : Z; rlc_Config : option NR_RLC_Config }.

(** ** The tables *)

(** [if (v < 0 || v > last) exit(1); return tab\[v\]] *)
Definition decode (tab : list Z) (v : Z) : outcome Z := of_option Exit (zget tab v).

Definition t_reassembly_tab : list Z :=
  [0; 5; 10; 15; 20; 25; 30; 35; 40; 45; 50; 55; 60; 65; 70; 75;
   80; 85; 90; 95; 100; 110; 120; 130; 140; 150; 160; 170; 180; 190; 200].
Definition decode_t_reassembly (v : Z) : outcome Z := decode t_reassembly_tab v.

Definition t_status_prohibit_tab : list Z :=
  [0; 5; 10; 15; 20; 25; 30; 35; 40; 45; 50; 55; 60; 65; 70; 75;
   80; 85; 90; 95; 100; 105; 110; 115; 120; 125; 130; 135; 140; 145; 150; 155;
   160; 165; 170; 175; 180; 185; 190; 195; 200; 205; 210; 215; 220; 225; 230; 235;
   240; 245; 250; 300; 350; 400; 450; 500; 800; 1000; 1200; 1600; 2000; 2400].
Definition decode_t_status_prohibit (v : Z) : outcome Z := decode t_status_prohibit_tab v.

Definition t_poll_retransmit_tab : list Z :=
  [5; 10; 15; 20; 25; 30; 35; 40; 45; 50; 55; 60; 65; 70; 75; 80; 85; 90; 95; 100;
   105; 110; 115; 120; 125; 130; 135; 140; 145; 150; 155; 160; 165; 170; 175; 180; 185; 190; 195; 200;
   205; 210; 215; 220; 225; 230; 235; 240; 245; 250; 300; 350; 400; 450; 500; 800; 1000; 2000; 4000].
Definition decode_t_poll_retransmit (v : Z) : outcome Z := decode t_poll_retransmit_tab v.

(** -1 means infinity. *)
Definition poll_pdu_tab : list Z :=
  [4; 8; 16; 32; 64; 128; 256; 512; 1024; 2048; 4096; 6144;
   8192; 12288; 16384; 20480; 24576; 28672; 32768; 40960; 49152; 57344; 65536; -1].
Definition decode_poll_pdu (v : Z) : outcome Z := decode poll_pdu_tab v.

Definition poll_byte_tab : list Z :=
  ((fun kb => 1024 * kb) <$> [1; 2; 5; 8; 10; 15; 25; 50; 75; 100; 125; 250; 375; 500; 750; 1000; 1250; 1500;
                              2000; 3000; 4000; 4500; 5000; 5500; 6000; 6500; 7000; 7500]) ++
  ((fun mb => 1024 * 1024 * mb) <$> [8; 9; 10; 11; 12; 13; 14; 15; 16; 17; 18; 20; 25; 30; 40]) ++ [-1].
Definition decode_poll_byte (v : Z) : outcome Z := decode poll_byte_tab v.

Definition max_retx_threshold_tab : list Z := [1; 2; 3; 4; 6; 8; 16; 32].
Definition decode_max_retx_threshold (v : Z) : outcome Z := decode max_retx_threshold_tab v.

Definition decode_sn_field_length_um (v : Z) : outcome Z := decode [6; 12] v.
Definition decode_sn_field_length_am (v : Z) : outcome Z := decode [12; 18] v.

(** ** The parameters of an AM entity *)

Record am_params := mk_am_params {
  p_t_poll_retransmit : Z; p_t_reassembly : Z; p_t_status_prohibit : Z;
  p_poll_pdu : Z; p_poll_byte : Z; p_max_retx_threshold : Z }.

Definition decode_am (dl : NR_DL_AM_RLC) (ul : NR_UL_AM_RLC) : outcome am_params :=
  t_reassembly ← decode_t_reassembly (dam_t_Reassembly dl);
  t_status_prohibit ← decode_t_status_prohibit (dam_t_StatusProhibit dl);
  t_poll_retransmit ← decode_t_poll_retransmit (uam_t_PollRetransmit ul);
  poll_pdu ← decode_poll_pdu (uam_pollPDU ul);
  poll_byte ← decode_poll_byte (uam_pollByte ul);
  max_retx_threshold ← decode_max_retx_threshold (uam_maxRetxThreshold ul);
  Ok (mk_am_params t_poll_retransmit t_reassembly t_status_prohibit poll_pdu poll_byte max_retx_threshold).

(** The default values of clause 9.2.1 of TS 38.331. *)
Definition default_am : am_params := mk_am_params 45 35 0 (-1) (-1) 8.

(** The lengths of both directions when a bearer is set up: they must be there,
    and equal. *)
Definition same_sn_length (dl ul : option Z) : outcome Z :=
  dl ← of_option NullDeref dl;
  ul ← of_option NullDeref ul;
  _ ← require (dl =? ul) Exit;
  Ok dl.

(** The length for a reconfiguration: only when both directions have it. *)
Definition new_sn_length (decode_length : Z -> outcome Z) (dl ul : option Z) : outcome (option Z) :=
  match dl, ul with
  | Some dl, Some _ => n ← decode_length dl; Ok (Some n)
  | _, _ => Ok None
  end.

(** ** The interface of an RLC entity (src/openair2/LAYER2/nr_rlc/nr_rlc_entity.h)

    [struct nr_rlc_entity_t] is a table of functions: the class [RlcEntity] is
    that table with the constructors of nr_rlc_entity.c, and [bearer_entity] its
    instance, the TM, UM and AM entities of this library.  The manager of
    RlcManager.v is defined and proved against the class. *)

Class RlcEntity (E : Type) := {
  recv_pdu : E -> list Z -> Z -> outcome E;
  buffer_status : E -> Z -> outcome nr_rlc_entity_buffer_status_t;
  generate_pdu : E -> list Z -> Z -> Z -> outcome (Z * list Z * E);
  recv_sdu : E -> list Z -> Z -> Z -> Z -> outcome E;
  set_time : E -> Z -> outcome E;
  reestablishment : E -> outcome E;
  delete_entity : E -> outcome sdu_heap;
  available_tx_space : E -> Z;
  common : E -> nr_rlc_entity_t;
  set_common : E -> nr_rlc_entity_t -> E;
  head_of_line : E -> option nr_rlc_sdu_segment_t;
  new_am : Z -> Z -> am_params -> Z -> outcome E;
  new_um : Z -> Z -> Z -> Z -> outcome E;
  new_tm : Z -> outcome E;
  am_reconfigure : E -> am_params -> option Z -> outcome E;
  um_reconfigure : E -> Z -> option Z -> outcome E;
}.

Definition get_stats {E} `{RlcEntity E} (e : E) (now : Z) : outcome (nr_rlc_statistics_t * option (Z * Z) * E) :=
  '(out, avg, c) ← nr_rlc_entity_get_stats (common e) (head_of_line e) now;
  Ok (out, avg, set_common e c).

(** ** The three modes *)

Inductive rlc_entity : Type :=
| EntTm (e : nr_rlc_entity_tm_t)
| EntUm (e : nr_rlc_entity_um_t)
| EntAm (e : nr_rlc_entity_am_t).

Definition entity_recv_pdu (e : rlc_entity) (buffer : list Z) (size : Z) : outcome rlc_entity :=
  match e with
  | EntTm e => e ← nr_rlc_entity_tm_recv_pdu e buffer size; Ok (EntTm e)
  | EntUm e => e ← nr_rlc_entity_um_recv_pdu e buffer size; Ok (EntUm e)
  | EntAm e => e ← nr_rlc_entity_am_recv_pdu e buffer size; Ok (EntAm e)
  end.

Definition entity_buffer_status (e : rlc_entity) (maxsize : Z) : outcome nr_rlc_entity_buffer_status_t :=
  match e with
  | EntTm e => Ok (nr_rlc_entity_tm_buffer_status e maxsize)
  | EntUm e => Ok (nr_rlc_entity_um_buffer_status e maxsize)
  | EntAm e => nr_rlc_entity_am_buffer_status e maxsize
  end.

Definition entity_generate_pdu (e : rlc_entity) (buffer : list Z) (size now : Z) : outcome (Z * list Z * rlc_entity) :=
  match e with
  | EntTm e => '(ret, buffer, e) ← nr_rlc_entity_tm_generate_pdu e buffer size now; Ok (ret, buffer, EntTm e)
  | EntUm e => '(ret, buffer, e) ← nr_rlc_entity_um_generate_pdu e buffer size now; Ok (ret, buffer, EntUm e)
  | EntAm e => '(ret, buffer, e) ← nr_rlc_entity_am_generate_pdu e buffer size now; Ok (ret, buffer, EntAm e)
  end.

Definition entity_recv_sdu (e : rlc_entity) (buffer : list Z) (size sdu_id now : Z) : outcome rlc_entity :=
  match e with
  | EntTm e => e ← nr_rlc_entity_tm_recv_sdu e buffer size sdu_id now; Ok (EntTm e)
  | EntUm e => e ← nr_rlc_entity_um_recv_sdu e buffer size sdu_id now; Ok (EntUm e)
  | EntAm e => e ← nr_rlc_entity_am_recv_sdu e buffer size sdu_id now; Ok (EntAm e)
  end.

Definition entity_set_time (e : rlc_entity) (now : Z) : outcome rlc_entity :=
  match e with
  | EntTm e => Ok (EntTm (nr_rlc_entity_tm_set_time e now))
  | EntUm e => e ← nr_rlc_entity_um_set_time e now; Ok (EntUm e)
  | EntAm e => e ← nr_rlc_entity_am_set_time e now; Ok (EntAm e)
  end.

Definition entity_reestablishment (e : rlc_entity) : outcome rlc_entity :=
  match e with
  | EntTm e => e ← nr_rlc_entity_tm_reestablishment e; Ok (EntTm e)
  | EntUm e => e ← nr_rlc_entity_um_reestablishment e; Ok (EntUm e)
  | EntAm e => e ← nr_rlc_entity_am_reestablishment e; Ok (EntAm e)
  end.

Definition entity_delete (e : rlc_entity) : outcome sdu_heap :=
  match e with
  | EntTm e => nr_rlc_entity_tm_delete e
  | EntUm e => nr_rlc_entity_um_delete e
  | EntAm e => nr_rlc_entity_am_delete e
  end.

Definition entity_available_tx_space (e : rlc_entity) : Z :=
  match e with
  | EntTm e => nr_rlc_entity_tm_available_tx_space e
  | EntUm e => nr_rlc_entity_um_available_tx_space e
  | EntAm e => nr_rlc_entity_am_available_tx_space e
  end.

Definition entity_common (e : rlc_entity) : nr_rlc_entity_t :=
  match e with EntTm e => tm_common e | EntUm e => um_common e | EntAm e => am_common e end.

Definition entity_set_common (e : rlc_entity) (c : nr_rlc_entity_t) : rlc_entity :=
  match e with
  | EntTm e => EntTm (e <| tm_common := c |>)
  | EntUm e => EntUm (e <| um_common := c |>)
  | EntAm e => EntAm (e <| am_common := c |>)
  end.

(** The head of line of nr_rlc_entity_get_stats. *)
Definition entity_head_of_line (e : rlc_entity) : option nr_rlc_sdu_segment_t :=
  match e with
  | EntTm e => head (tm_tx_list e)
  | EntUm e => head (um_tx_list e)
  | EntAm e => match am_retransmit_list e with s :: _ => Some s | [] => head (am_tx_list e) end
  end.

(** The reconfigurations cast the entity to their mode without a test: on one of
    another mode the fields written are others, or behind the object. *)
Definition entity_am_reconfigure (e : rlc_entity) (p : am_params) (sn_field_length : option Z) : outcome rlc_entity :=
  match e with
  | EntAm e => Ok (EntAm (nr_rlc_entity_am_reconfigure e (p_t_poll_retransmit p) (p_t_reassembly p)
                            (p_t_status_prohibit p) (p_poll_pdu p) (p_poll_byte p) (p_max_retx_threshold p)
                            sn_field_length))
  | _ => Fault OutOfBounds
  end.

Definition entity_um_reconfigure (e : rlc_entity) (t_reassembly : Z) (sn_field_length : option Z) : outcome rlc_entity :=
  match e with
  | EntUm e => Ok (EntUm (nr_rlc_entity_um_reconfigure e t_reassembly sn_field_length))
  | _ => Fault OutOfBounds
  end.

#[export] Instance bearer_entity : RlcEntity rlc_entity := {
  recv_pdu := entity_recv_pdu;
  buffer_status := entity_buffer_status;
  generate_pdu := entity_generate_pdu;
  recv_sdu := entity_recv_sdu;
  set_time := entity_set_time;
  reestablishment := entity_reestablishment;
  delete_entity := entity_delete;
  available_tx_space := entity_available_tx_space;
  common := entity_common;
  set_common := entity_set_common;
  head_of_line := entity_head_of_line;
  new_am rx_maxsize tx_maxsize p sn_field_length :=
    e ← new_nr_rlc_entity_am rx_maxsize tx_maxsize (p_t_poll_retransmit p) (p_t_reassembly p) (p_t_status_prohibit p)
          (p_poll_pdu p) (p_poll_byte p) (p_max_retx_threshold p) sn_field_length;
    Ok (EntAm e);
  new_um rx_maxsize tx_maxsize t_reassembly sn_field_length :=
    e ← new_nr_rlc_entity_um rx_maxsize tx_maxsize t_reassembly sn_field_length; Ok (EntUm e);
  new_tm tx_maxsize := e ← new_nr_rlc_entity_tm tx_maxsize; Ok (EntTm e);
  am_reconfigure := entity_am_reconfigure;
  um_reconfigure := entity_um_reconfigure;
}.
