(* ===== verification/RlcManager.v ===== *)
(** * The RLC of all UEs (nr_rlc_ue_manager.c, nr_rlc_oai_api.c)

    The table of UEs, their bearers and logical channels, and the functions that
    MAC, PDCP and RRC call.  Memory is three heaps, of UEs, of entities and of
    the callback data of SRB 0, since entities point back to their UE; a pointer
    is the key of its object, NULL is [None]. *)

From S2P Require Import Prelude TimeStat RlcEntity RlcBearer.

(** The states of the manager have the type of entities as a parameter. *)
Ltac is_param a ::= lazymatch type of a with Type => idtac end.

(** ** State *)

Definition MAX_DRBS_PER_UE : Z := 32.
Definition RLC_TX_MAXSIZE : Z := 10000000.
Definition RLC_RX_MAXSIZE : Z := 10000000.

Inductive nr_rlc_rb_type : Type := NR_RLC_NONE | NR_RLC_SRB | NR_RLC_DRB.

(** [rb_choice] is the union [choice]. *)
Record nr_rlc_rb_t := mk_rb { rb_type : nr_rlc_rb_type; rb_choice : Z }.

Record nr_rlc_ue_t := mk_ue {
  ue_id : Z;
  srb0 : option Z;
  srb : list (option Z);
  drb : list (option Z);
  lcid2rb : list nr_rlc_rb_t;
  rlf_handler : option Z }.
#[export] Instance eta_ue : RecordEta nr_rlc_ue_t :=
  fld (fld (fld (fld (fld (fld (fun _ => mk_ue) ue_id) srb0) srb) drb) lcid2rb) rlf_handler.

(** [calloc]. *)
Definition new_ue : nr_rlc_ue_t :=
  mk_ue 0 None (replicate 3 None) (replicate (Z.to_nat MAX_DRBS_PER_UE) None) (replicate 32 (mk_rb NR_RLC_NONE 0)) None.

Record srb0_data := mk_srb0_data { s0_ue_id : Z; s0_data : Z; s0_send : option Z }.

(** What an entity calls, with which data: the callbacks of SRB 0, those of a UM
    entity, which has deliver_sdu only, and those of an AM entity. *)
Inductive callbacks : Type :=
| CbSrb0 (s : Z)
| CbUm (u : Z)
| CbAm (u : Z).

(** Calls of the other layers. *)
Inductive rlc_output : Type :=
| PdcpDataInd (ue_id : Z) (enb_flag is_srb : bool) (rb_id : Z) (sdu : list Z)
| F1UlRrcMessage (gNB_CU_ue_id gNB_DU_ue_id srb_id : Z) (rrc_container : list Z)
| GtpDataReq (ue_id bearer_id : Z) (buffer : list Z)
| InitialUlRrcMessage (send ue_id data : Z) (sdu : list Z)
| RlfDetected (handler ue_id : Z).

(** The node, and the identifiers that the CU knows its UEs by (F1AP/f1ap_ids.c). *)
Record rlc_node := mk_node { node_is_du : bool; du2cu_ue_mapping : gmap Z Z }.

Definition du_get_f1_ue_data (nd : rlc_node) (ue_id : Z) : outcome Z :=
  of_option NullDeref (du2cu_ue_mapping nd !! u32 ue_id).

(** The clock of the module. *)
Record rlc_clock := mk_clock { current_time : Z; last_frame : Z; last_subframe : Z }.

Definition nr_rlc_tick (c : rlc_clock) (frame subframe : Z) : rlc_clock :=
  if negb (frame =? last_frame c) || negb (subframe =? last_subframe c)
  then mk_clock (u64 (current_time c + 1)) frame subframe else c.

(** ** The calls of the module *)

Inductive rlc_call : Type :=
| MacDataInd (id eNB_index : Z) (MBMS_flag : bool) (channel_id : Z) (buffer : list Z) (tb_size : Z)
| MacDataReq (id channel_id tb_size : Z) (buffer : list Z) (now : Z)
| MacStatusInd (id frame channel_id : Z)
| MacOccupancyInd (id frame subframe : Z) (enb : bool) (channel_id : Z)
| DataReq (id : Z) (is_srb : bool) (rb_id mui sdu_size : Z) (sdu : list Z) (now : Z)
| AvailableTxSpace (id channel_id : Z)
| SrbRecvSdu (id channel_id : Z) (buf : list Z) (size now : Z)
| ActivateAvg (id channel_id : Z) (is_on : bool)
| GetStatistics (id : Z) (srb_flag : bool) (rb_id now : Z)
| GetLcid (id : Z) (is_srb : bool) (rb_id : Z)
| SetRlfHandler (id : Z) (handler : option Z)
| Reestablish (id lc_id : Z)
| Reconfigure (id lc_id : Z) (config : option NR_RLC_Config)
| AddSrb (id srb_id : Z) (c : NR_RLC_BearerConfig)
| AddDrb (id drb_id : Z) (c : NR_RLC_BearerConfig)
| ActivateSrb0 (id data : Z) (send : option Z)
| ReleaseEntity (id channel_id : Z)
| ConfigReq (id : Z) (srb_flag mbms_flag action_remove : bool) (module_id rb_id : Z)
| RemoveUe (id : Z)
| UpdateId (from_id to_id : Z)
| TriggerReestablishment (id : Z)
| Tick (frame subframe : Z).

(** What they return; [ReplyBytes None] is an object that was not written. *)
Inductive rlc_reply : Type :=
| ReplyUnit
| ReplyInt (n : Z)
| ReplyBool (b : bool)
| ReplyPdu (ret : Z) (buffer : list Z)
| ReplyBytes (n : option Z)
| ReplyStats (out : option (nr_rlc_statistics_t * option (Z * Z))).

Definition reply_pdu (x : Z * list Z) : rlc_reply := ReplyPdu (fst x) (snd x).
Definition reply_unit (x : unit) : rlc_reply := ReplyUnit.

(** The reply of a call that makes callbacks, and of one that makes none. *)
Definition replying {R S} (k : R -> rlc_reply) (o : outcome (R * list rlc_output * S)) : outcome (rlc_reply * list rlc_output * S) :=
  '(r, outs, s) ← o; Ok (k r, outs, s).
Definition silent {S} (o : outcome S) : outcome (rlc_reply * list rlc_output * S) := s ← o; Ok (ReplyUnit, [], s).

Section Manager.
Context {E : Type} `{RlcEntity E}.

Record entity_obj := mk_obj { obj_entity : E; obj_cb : callbacks }.

Record manager := mk_manager {
  ue_heap : gmap Z nr_rlc_ue_t;
  entity_heap : gmap Z entity_obj;
  srb0_heap : gmap Z srb0_data;
  next_addr : Z;
  ue_list : list Z;
  enb_flag : bool;
  clock : rlc_clock }.
#[export] Instance eta_manager : RecordEta manager :=
  fld (fld (fld (fld (fld (fld (fld (fun _ => mk_manager)
    ue_heap) entity_heap) srb0_heap) next_addr) ue_list) enb_flag) clock.

Definition new_nr_rlc_ue_manager (enb : bool) : manager := mk_manager ∅ ∅ ∅ 1 [] enb (mk_clock 0 0 0).

Definition get_ue_obj (m : manager) (u : Z) : outcome nr_rlc_ue_t := of_option Dangling (ue_heap m !! u).
Definition get_obj (m : manager) (a : Z) : outcome entity_obj := of_option Dangling (entity_heap m !! a).
Definition set_ue (m : manager) (u : Z) (ue : nr_rlc_ue_t) : manager := m <| ue_heap := <[u := ue]> (ue_heap m) |>.

(** ** The table of UEs *)

(** The first UE with this identifier, and its index. *)
Fixpoint find_ue (m : manager) (l : list Z) (id : Z) : outcome (option (nat * Z)) :=
  match l with
  | [] => Ok None
  | u :: l =>
      ue ← get_ue_obj m u;
      if ue_id ue =? id then Ok (Some (0%nat, u))
      else found ← find_ue m l id; Ok (match found with Some (i, v) => Some (S i, v) | None => None end)
  end.

(** A UE that is not known is created. *)
Definition nr_rlc_manager_get_ue (m : manager) (id : Z) : outcome (Z * manager) :=
  found ← find_ue m (ue_list m) id;
  match found with
  | Some (_, u) => Ok (u, m)
  | None =>
      let u := next_addr m in
      Ok (u, (set_ue m u (new_ue <| ue_id := id |>)) <| ue_list := ue_list m ++ [u] |> <| next_addr := u + 1 |>)
  end.

(** delete_entity, which frees the entity. *)
Definition free_entity (m : manager) (a : Z) : outcome manager :=
  o ← get_obj m a;
  _ ← delete_entity (obj_entity o);
  Ok (m <| entity_heap := delete a (entity_heap m) |>).

Fixpoint free_entities (m : manager) (l : list (option Z)) : outcome manager :=
  match l with
  | [] => Ok m
  | p :: l => m ← (match p with Some a => free_entity m a | None => Ok m end); free_entities m l
  end.

(** [free(srb0->deliver_sdu_data); srb0->delete_entity(srb0)]. *)
Definition free_srb0 (m : manager) (a : Z) : outcome manager :=
  o ← get_obj m a;
  m ← match obj_cb o with
      | CbSrb0 s => _ ← of_option Dangling (srb0_heap m !! s); Ok (m <| srb0_heap := delete s (srb0_heap m) |>)
      | CbUm u | CbAm u => _ ← get_ue_obj m u; Ok (m <| ue_heap := delete u (ue_heap m) |>)
      end;
  free_entity m a.

Definition nr_rlc_manager_remove_ue (m : manager) (id : Z) : outcome manager :=
  found ← find_ue m (ue_list m) id;
  match found with
  | None => Ok m
  | Some (i, u) =>
      ue ← get_ue_obj m u;
      m ← match srb0 ue with Some a => free_srb0 m a | None => Ok m end;
      m ← free_entities m (srb ue);
      m ← free_entities m (drb ue);
      Ok (m <| ue_heap := delete u (ue_heap m) |> <| ue_list := delete i (ue_list m) |>)
  end.

Definition slot_empty (p : option Z) : bool := match p with None => true | Some _ => false end.

Definition nr_rlc_ue_add_srb_rlc_entity (ue : nr_rlc_ue_t) (srb_id a : Z) : outcome nr_rlc_ue_t :=
  _ ← require (negb ((srb_id <? 0) || (srb_id >? 3))) Exit;
  if srb_id =? 0 then
    _ ← require (slot_empty (srb0 ue)) Exit;
    Ok (ue <| srb0 := Some a |>)
  else
    p ← of_option OutOfBounds (zget (srb ue) (srb_id - 1));
    _ ← require (slot_empty p) Exit;
    l ← of_option OutOfBounds (zset (srb ue) (srb_id - 1) (Some a));
    Ok (ue <| srb := l |>).

Definition nr_rlc_ue_add_drb_rlc_entity (ue : nr_rlc_ue_t) (drb_id a : Z) : outcome nr_rlc_ue_t :=
  _ ← require (negb ((drb_id <? 1) || (drb_id >? MAX_DRBS_PER_UE))) Exit;
  p ← of_option OutOfBounds (zget (drb ue) (drb_id - 1));
  _ ← require (slot_empty p) Exit;
  l ← of_option OutOfBounds (zset (drb ue) (drb_id - 1) (Some a));
  Ok (ue <| drb := l |>).

(** ** The callbacks of the entities *)

Fixpoint index_of (a : Z) (l : list (option Z)) : option Z :=
  match l with
  | [] => None
  | p :: l => if decide (p = Some a) then Some 0 else Z.succ <$> index_of a l
  end.

(** The bearer of an entity, among the first [n] SRBs and the DRBs. *)
Definition rb_of_entity (ue : nr_rlc_ue_t) (n : nat) (a : Z) : outcome (bool * Z) :=
  match index_of a (take n (srb ue)) with
  | Some i => Ok (true, i + 1)
  | None => match index_of a (drb ue) with Some i => Ok (false, i + 1) | None => Fault Exit end
  end.

Definition deliver_sdu (nd : rlc_node) (m : manager) (u a : Z) (buf : list Z) : outcome (list rlc_output) :=
  ue ← get_ue_obj m u;
  '(is_srb, rb_id) ← rb_of_entity ue 3 a;
  rntiMaybeUEid ← (if enb_flag m then du_get_f1_ue_data nd (ue_id ue) else Ok (ue_id ue));
  Ok (if enb_flag m && node_is_du nd
      then [if is_srb : bool then F1UlRrcMessage rntiMaybeUEid (ue_id ue) rb_id buf else GtpDataReq (ue_id ue) rb_id buf]
      else [PdcpDataInd rntiMaybeUEid (enb_flag m) is_srb rb_id buf]).

Definition deliver_sdu_srb0 (m : manager) (s : Z) (buf : list Z) : outcome (list rlc_output) :=
  s0 ← of_option Dangling (srb0_heap m !! s);
  send ← of_option NullDeref (s0_send s0);
  Ok [InitialUlRrcMessage send (s0_ue_id s0) (s0_data s0) buf].

(** Nothing is done with the bearer found. *)
Definition successful_delivery (m : manager) (u a : Z) : outcome (list rlc_output) :=
  ue ← get_ue_obj m u;
  _ ← rb_of_entity ue 2 a;
  Ok [].

Definition max_retx_reached (m : manager) (u a : Z) : outcome (list rlc_output) :=
  ue ← get_ue_obj m u;
  _ ← rb_of_entity ue 2 a;
  Ok (match rlf_handler ue with Some handler => [RlfDetected handler (ue_id ue)] | None => [] end).

(** One call of a callback; those that were not given are NULL. *)
Definition callback (nd : rlc_node) (m : manager) (a : Z) (cb : callbacks) (ev : rlc_event) : outcome (list rlc_output) :=
  match ev, cb with
  | DeliverSdu buf, CbSrb0 s => deliver_sdu_srb0 m s buf
  | DeliverSdu buf, (CbUm u | CbAm u) => deliver_sdu nd m u a buf
  | SduSuccessfulDelivery _, CbAm u => successful_delivery m u a
  | MaxRetxReached, CbAm u => max_retx_reached m u a
  | _, _ => Fault NullDeref
  end.

Fixpoint run_callbacks (nd : rlc_node) (m : manager) (a : Z) (cb : callbacks) (evs : list rlc_event) : outcome (list rlc_output) :=
  match evs with
  | [] => Ok []
  | ev :: evs => out ← callback nd m a cb ev; outs ← run_callbacks nd m a cb evs; Ok (out ++ outs)
  end.

(** A call [f] of the entity at [a], with the callbacks it makes. *)
Definition call_entity {R} (nd : rlc_node) (m : manager) (a : Z) (f : E -> outcome (R * E))
    : outcome (R * list rlc_output * manager) :=
  o ← get_obj m a;
  '(r, e) ← f (obj_entity o);
  outs ← run_callbacks nd m a (obj_cb o) (drop (length (events (common (obj_entity o)))) (events (common e)));
  Ok (r, outs, m <| entity_heap := <[a := mk_obj e (obj_cb o)]> (entity_heap m) |>).

(** [set_time] first, then [f]. *)
Definition at_time {R} (m : manager) (f : E -> outcome (R * E)) (e : E) : outcome (R * E) :=
  e ← set_time e (current_time (clock m)); f e.

(** ** Logical channels *)

Definition get_rb (ue : nr_rlc_ue_t) (channel_id : Z) : outcome nr_rlc_rb_t :=
  of_option OutOfBounds (zget (lcid2rb ue) (channel_id - 1)).

Definition get_rlc_entity_from_lcid (ue : nr_rlc_ue_t) (channel_id : Z) : outcome (option Z) :=
  if channel_id =? 0 then Ok (srb0 ue)
  else
    rb ← get_rb ue channel_id;
    match rb_type rb with
    | NR_RLC_NONE => Ok None
    | NR_RLC_SRB => of_option OutOfBounds (zget (srb ue) (rb_choice rb - 1))
    | NR_RLC_DRB => of_option OutOfBounds (zget (drb ue) (rb_choice rb - 1))
    end.

(** [if (ue->srb\[i\]) { delete_entity; ue->srb\[i\] = NULL; }] *)
Definition release_srb (m : manager) (u : Z) (ue : nr_rlc_ue_t) (i : Z) : outcome manager :=
  p ← of_option OutOfBounds (zget (srb ue) i);
  match p with
  | Some a => m ← free_entity m a; l ← of_option OutOfBounds (zset (srb ue) i None); Ok (set_ue m u (ue <| srb := l |>))
  | None => Ok m
  end.

Definition release_drb (m : manager) (u : Z) (ue : nr_rlc_ue_t) (i : Z) : outcome manager :=
  p ← of_option OutOfBounds (zget (drb ue) i);
  match p with
  | Some a => m ← free_entity m a; l ← of_option OutOfBounds (zset (drb ue) i None); Ok (set_ue m u (ue <| drb := l |>))
  | None => Ok m
  end.

Definition release_rlc_entity_from_lcid (m : manager) (u : Z) (ue : nr_rlc_ue_t) (channel_id : Z) : outcome manager :=
  rb ← get_rb ue channel_id;
  match rb_type rb with
  | NR_RLC_NONE => Ok m
  | NR_RLC_SRB => release_srb m u ue (rb_choice rb - 1)
  | NR_RLC_DRB => release_drb m u ue (rb_choice rb - 1)
  end.

Definition nr_rlc_release_entity (m : manager) (id channel_id : Z) : outcome manager :=
  '(u, m) ← nr_rlc_manager_get_ue m id;
  ue ← get_ue_obj m u;
  if channel_id =? 0 then
    match srb0 ue with
    | Some a => m ← free_srb0 m a; Ok (set_ue m u (ue <| srb0 := None |>))
    | None => Ok m
    end
  else release_rlc_entity_from_lcid m u ue channel_id.

(** [for (id = 1; id <= 32; id++)]: the first channel of a bearer. *)
Fixpoint lcid_of_rb (l : list nr_rlc_rb_t) (is_srb : bool) (rb_id id : Z) : Z :=
  match l with
  | [] => 0
  | rb :: l =>
      if match rb_type rb with NR_RLC_SRB => is_srb | NR_RLC_DRB => negb is_srb | NR_RLC_NONE => false end
         && (rb_choice rb =? rb_id)
      then id else lcid_of_rb l is_srb rb_id (id + 1)
  end.

Definition nr_rlc_get_lcid_from_rb (m : manager) (id : Z) (is_srb : bool) (rb_id : Z) : outcome (Z * manager) :=
  '(u, m) ← nr_rlc_manager_get_ue m id;
  ue ← get_ue_obj m u;
  Ok (lcid_of_rb (lcid2rb ue) is_srb rb_id 1, m).

(** ** Data *)

(** A function that looks up a UE and the entity of a channel, and calls it; if
    there is none it returns [none]. *)
Definition on_channel {R} (nd : rlc_node) (m : manager) (id channel_id : Z) (none : R) (f : manager -> E -> outcome (R * E))
    : outcome (R * list rlc_output * manager) :=
  '(u, m) ← nr_rlc_manager_get_ue m id;
  ue ← get_ue_obj m u;
  rb ← get_rlc_entity_from_lcid ue channel_id;
  match rb with
  | Some a => call_entity nd m a (f m)
  | None => Ok (none, [], m)
  end.

Definition mac_rlc_data_ind (nd : rlc_node) (m : manager) (id eNB_index : Z) (MBMS_flag : bool) (channel_id : Z)
    (buffer : list Z) (tb_size : Z) : outcome (unit * list rlc_output * manager) :=
  _ ← require (negb (negb (eNB_index =? 0) || MBMS_flag)) Exit;
  on_channel nd m (u16 id) channel_id tt
    (fun m => at_time m (fun e => e ← recv_pdu e buffer tb_size; Ok (tt, e))).

(** [now] is what time_average_now returns. *)
Definition mac_rlc_data_req (nd : rlc_node) (m : manager) (id channel_id tb_size : Z) (buffer : list Z) (now : Z)
    : outcome (Z * list Z * list rlc_output * manager) :=
  on_channel nd m (u16 id) channel_id (0, buffer)
    (fun m => at_time m (fun e => '(ret, buffer, e) ← generate_pdu e buffer tb_size now; Ok (ret, buffer, e))).

Definition occupancy (e : E) : outcome (Z * E) :=
  s ← buffer_status e (1000 * 1000);
  Ok (bs_status_size s + bs_retx_size s + bs_tx_size s, e).

(** [ret.bytes_in_buffer]: [None] when it is returned without having been
    written.  The assignment of 0 is the body of an [if] that was meant for the
    log line before it, which is commented out. *)
Definition mac_rlc_status_ind (nd : rlc_node) (m : manager) (id frame channel_id : Z)
    : outcome (option Z * list rlc_output * manager) :=
  on_channel nd m (u16 id) channel_id (if (frame mod 128 =? 0) || (channel_id =? 0) then Some 0 else None)
    (fun m => at_time m (fun e => '(n, e) ← occupancy e; Ok (Some n, e))).

Definition mac_rlc_get_buffer_occupancy_ind (nd : rlc_node) (m : manager) (id frame subframe : Z) (enb : bool)
    (channel_id : Z) : outcome (option Z * list rlc_output * manager) :=
  _ ← require (negb enb) Exit;
  on_channel nd (m <| clock := nr_rlc_tick (clock m) frame subframe |>) (u16 id) channel_id
    (if frame mod 128 =? 0 then Some 0 else None)
    (fun m => at_time m (fun e => '(n, e) ← occupancy e; Ok (Some n, e))).

(** The bearer PDCP names: SRB 1 and 2, any DRB. *)
Definition rb_of_pdcp (ue : nr_rlc_ue_t) (is_srb : bool) (rb_id last_drb : Z) : outcome (option Z) :=
  if is_srb then
    if (1 <=? rb_id) && (rb_id <=? 2) then of_option OutOfBounds (zget (srb ue) (rb_id - 1)) else Ok None
  else
    if (1 <=? rb_id) && (rb_id <=? last_drb) then of_option OutOfBounds (zget (drb ue) (rb_id - 1)) else Ok None.

Definition rlc_data_req (nd : rlc_node) (m : manager) (id : Z) (is_srb : bool) (rb_id mui sdu_size : Z) (sdu : list Z)
    (now : Z) : outcome (unit * list rlc_output * manager) :=
  '(u, m) ← nr_rlc_manager_get_ue m (i32 (u32 id));
  ue ← get_ue_obj m u;
  rb ← rb_of_pdcp ue is_srb rb_id MAX_DRBS_PER_UE;
  match rb with
  | Some a => call_entity nd m a (at_time m (fun e => e ← recv_sdu e sdu sdu_size mui now; Ok (tt, e)))
  | None => Ok (tt, [], m)
  end.

Definition nr_rlc_get_available_tx_space (nd : rlc_node) (m : manager) (id channel_id : Z)
    : outcome (Z * list rlc_output * manager) :=
  on_channel nd m id channel_id (-1) (fun _ e => Ok (available_tx_space e, e)).

Definition nr_rlc_srb_recv_sdu (nd : rlc_node) (m : manager) (id channel_id : Z) (buf : list Z) (size now : Z)
    : outcome (unit * list rlc_output * manager) :=
  '(u, m) ← nr_rlc_manager_get_ue m id;
  ue ← get_ue_obj m u;
  rb ← (if channel_id =? 0 then Ok (srb0 ue) else of_option OutOfBounds (zget (srb ue) (channel_id - 1)));
  match rb with
  | Some a => call_entity nd m a (at_time m (fun e => e ← recv_sdu e buf size (-1) now; Ok (tt, e)))
  | None => Fault NullDeref
  end.

Definition activate_avg (is_on : bool) (e : E) : outcome (unit * E) :=
  let t := time_average_reset (txsdu_avg_time_to_tx (common e)) in
  Ok (tt, set_common e ((common e) <| avg_time_is_on := is_on |> <| txsdu_avg_time_to_tx := t |>)).

Definition nr_rlc_activate_avg_time_to_tx (nd : rlc_node) (m : manager) (id channel_id : Z) (is_on : bool)
    : outcome (unit * list rlc_output * manager) :=
  '(u, m) ← nr_rlc_manager_get_ue m id;
  ue ← get_ue_obj m u;
  rb ← (if (1 <=? channel_id) && (channel_id <=? 3) then of_option OutOfBounds (zget (srb ue) (channel_id - 1))
        else if (4 <=? channel_id) && (channel_id <=? 8) then of_option OutOfBounds (zget (drb ue) (channel_id - 4))
        else Ok None);
  match rb with
  | Some a => call_entity nd m a (activate_avg is_on)
  | None => Ok (tt, [], m)
  end.

(** The sizes come from the buffer status. *)
Definition statistics (now : Z) (e : E) : outcome (option (nr_rlc_statistics_t * option (Z * Z)) * E) :=
  '(out, avg, e) ← get_stats e now;
  s ← buffer_status e (1000 * 1000);
  let out := out <| rxbuf_occ_bytes := u32 (bs_status_size s) |>
                 <| txbuf_occ_bytes := u32 (bs_tx_size s + bs_retx_size s) |> in
  Ok (Some (out, avg), e).

(** [None]: false is returned, and [out] is not written. *)
Definition nr_rlc_get_statistics (nd : rlc_node) (m : manager) (id : Z) (srb_flag : bool) (rb_id now : Z)
    : outcome (option (nr_rlc_statistics_t * option (Z * Z)) * list rlc_output * manager) :=
  '(u, m) ← nr_rlc_manager_get_ue m id;
  ue ← get_ue_obj m u;
  rb ← rb_of_pdcp ue srb_flag rb_id 5;
  match rb with
  | Some a => call_entity nd m a (statistics now)
  | None => Ok (None, [], m)
  end.

(** ** Configuration *)

Definition nr_rlc_set_rlf_handler (m : manager) (id : Z) (handler : option Z) : outcome manager :=
  '(u, m) ← nr_rlc_manager_get_ue m id;
  ue ← get_ue_obj m u;
  Ok (set_ue m u (ue <| rlf_handler := handler |>)).

Definition nr_rlc_reestablish_entity (nd : rlc_node) (m : manager) (id lc_id : Z) : outcome (unit * list rlc_output * manager) :=
  on_channel nd m id (u32 lc_id) tt (fun _ e => e ← reestablishment e; Ok (tt, e)).

Definition reconfigure (config : option NR_RLC_Config) (e : E) : outcome (unit * E) :=
  match config with
  | Some config =>
      match mode (stats (common e)), config with
      | NR_RLC_AM, NR_RLC_Config_am dl ul =>
          p ← decode_am dl ul;
          n ← new_sn_length decode_sn_field_length_am (dam_sn_FieldLength dl) (uam_sn_FieldLength ul);
          e ← am_reconfigure e p n; Ok (tt, e)
      | (NR_RLC_UM | NR_RLC_TM), NR_RLC_Config_um_Bi_Directional um =>
          t ← decode_t_reassembly (um_t_Reassembly um);
          n ← new_sn_length decode_sn_field_length_um (um_dl_sn_FieldLength um) (um_ul_sn_FieldLength um);
          e ← um_reconfigure e t n; Ok (tt, e)
      | _, _ => Fault OutOfBounds                  (* the other member of the union is read *)
      end
  | None => e ← am_reconfigure e default_am (Some 12); Ok (tt, e)
  end.

Definition nr_rlc_reconfigure_entity (nd : rlc_node) (m : manager) (id lc_id : Z) (config : option NR_RLC_Config)
    : outcome (unit * list rlc_output * manager) :=
  '(u, m) ← nr_rlc_manager_get_ue m id;
  ue ← get_ue_obj m u;
  rb ← get_rlc_entity_from_lcid ue (u32 lc_id);
  match rb with
  | Some a => call_entity nd m a (reconfigure config)
  | None => Fault NullDeref
  end.

(** A new entity. *)
Definition alloc_entity (m : manager) (e : E) (cb : callbacks) : Z * manager :=
  let a := next_addr m in
  (a, m <| entity_heap := <[a := mk_obj e cb]> (entity_heap m) |> <| next_addr := a + 1 |>).

(** The channel of the configuration now belongs to the bearer it serves. *)
Definition map_channel (ue : nr_rlc_ue_t) (ty : nr_rlc_rb_type) (c : NR_RLC_BearerConfig) : outcome nr_rlc_ue_t :=
  l ← of_option OutOfBounds (zset (lcid2rb ue) (logicalChannelIdentity c - 1) (mk_rb ty (choice_id c)));
  Ok (ue <| lcid2rb := l |>).

Definition srb_params (config : option NR_RLC_Config) : outcome (am_params * Z) :=
  match config with
  | Some (NR_RLC_Config_am dl ul) =>
      p ← decode_am dl ul;
      n ← same_sn_length (dam_sn_FieldLength dl) (uam_sn_FieldLength ul);
      n ← decode_sn_field_length_am n;
      Ok (p, n)
  | _ => Ok (default_am, 12)
  end.

Definition nr_rlc_add_srb (m : manager) (id srb_id : Z) (c : NR_RLC_BearerConfig) : outcome manager :=
  '(p, n) ← srb_params (rlc_Config c);
  '(u, m) ← nr_rlc_manager_get_ue m id;
  ue ← get_ue_obj m u;
  ue ← map_channel ue NR_RLC_SRB c;
  s ← of_option OutOfBounds (zget (srb ue) (srb_id - 1));
  if slot_empty s then
    e ← new_am RLC_RX_MAXSIZE RLC_TX_MAXSIZE p n;
    let '(a, m) := alloc_entity m e (CbAm u) in
    ue ← nr_rlc_ue_add_srb_rlc_entity ue srb_id a;
    Ok (set_ue m u ue)
  else Ok (set_ue m u ue).

(** add_drb_am and add_drb_um after their configuration: [make] creates the
    entity. *)
Definition add_drb (m : manager) (id drb_id : Z) (c : NR_RLC_BearerConfig) (make : outcome E) (cb : Z -> callbacks)
    : outcome manager :=
  '(u, m) ← nr_rlc_manager_get_ue m id;
  ue ← get_ue_obj m u;
  ue ← map_channel ue NR_RLC_DRB c;
  s ← of_option OutOfBounds (zget (drb ue) (drb_id - 1));
  if slot_empty s then
    e ← make;
    let '(a, m) := alloc_entity m e (cb u) in
    ue ← nr_rlc_ue_add_drb_rlc_entity ue drb_id a;
    Ok (set_ue m u ue)
  else Ok (set_ue m u ue).

Definition add_drb_am (m : manager) (id drb_id : Z) (c : NR_RLC_BearerConfig) (dl : NR_DL_AM_RLC) (ul : NR_UL_AM_RLC)
    : outcome manager :=
  p ← decode_am dl ul;
  n ← same_sn_length (dam_sn_FieldLength dl) (uam_sn_FieldLength ul);
  n ← decode_sn_field_length_am n;
  add_drb m id drb_id c (new_am RLC_RX_MAXSIZE RLC_TX_MAXSIZE p n) CbAm.

Definition add_drb_um (m : manager) (id drb_id : Z) (c : NR_RLC_BearerConfig) (um : NR_UM_RLC) : outcome manager :=
  t ← decode_t_reassembly (um_t_Reassembly um);
  n ← same_sn_length (um_dl_sn_FieldLength um) (um_ul_sn_FieldLength um);
  n ← decode_sn_field_length_um n;
  add_drb m id drb_id c (new_um RLC_RX_MAXSIZE RLC_TX_MAXSIZE t n) CbUm.

Definition nr_rlc_add_drb (m : manager) (id drb_id : Z) (c : NR_RLC_BearerConfig) : outcome manager :=
  config ← of_option NullDeref (rlc_Config c);
  match config with
  | NR_RLC_Config_am dl ul => add_drb_am m id drb_id c dl ul
  | NR_RLC_Config_um_Bi_Directional um => add_drb_um m id drb_id c um
  | NR_RLC_Config_other => Fault Exit
  end.

Definition nr_rlc_activate_srb0 (m : manager) (id data : Z) (send : option Z) : outcome (bool * manager) :=
  '(u, m) ← nr_rlc_manager_get_ue m id;
  ue ← get_ue_obj m u;
  if slot_empty (srb0 ue) then
    let s := next_addr m in
    let m := m <| srb0_heap := <[s := mk_srb0_data id data send]> (srb0_heap m) |> <| next_addr := s + 1 |> in
    e ← new_tm 10000;
    let '(a, m) := alloc_entity m e (CbSrb0 s) in
    ue ← nr_rlc_ue_add_srb_rlc_entity ue 0 a;
    Ok (true, set_ue m u ue)
  else Ok (false, m).

Definition nr_rlc_remove_ue (m : manager) (id : Z) : outcome manager := nr_rlc_manager_remove_ue m id.

Definition none_left (ue : nr_rlc_ue_t) : bool := forallb slot_empty (take 2 (srb ue)) && forallb slot_empty (drb ue).

(** Only CONFIG_ACTION_REMOVE is supported.  The UE goes with its last bearer,
    not counting SRB 0 and 3. *)
Definition rrc_rlc_config_req (m : manager) (id : Z) (srb_flag mbms_flag action_remove : bool) (module_id rb_id : Z)
    : outcome manager :=
  _ ← require (negb mbms_flag) Exit;
  _ ← require action_remove Exit;
  _ ← require (module_id =? 0) Exit;
  _ ← require (negb ((srb_flag && negb ((1 <=? rb_id) && (rb_id <=? 2))) ||
                     (negb srb_flag && negb ((1 <=? rb_id) && (rb_id <=? MAX_DRBS_PER_UE))))) Exit;
  '(u, m) ← nr_rlc_manager_get_ue m (i32 (u32 id));
  ue ← get_ue_obj m u;
  m ← (if srb_flag then release_srb m u ue (rb_id - 1) else release_drb m u ue (rb_id - 1));
  ue ← get_ue_obj m u;
  if none_left ue then nr_rlc_manager_remove_ue m (i32 (u32 id)) else Ok m.

Definition nr_rlc_update_id (nd : rlc_node) (m : manager) (from_id to_id : Z) : outcome (bool * list rlc_output * manager) :=
  '(u, m) ← nr_rlc_manager_get_ue m from_id;
  ue ← get_ue_obj m u;
  let m := set_ue m u (ue <| ue_id := to_id |>) in
  p ← of_option OutOfBounds (zget (srb ue) 0);
  match p with
  | Some a => call_entity nd m a (fun e => e ← reestablishment e; Ok (true, e))
  | None => Ok (true, [], m)
  end.

Definition nr_rlc_test_trigger_reestablishment (nd : rlc_node) (m : manager) (id : Z)
    : outcome (unit * list rlc_output * manager) :=
  '(u, m) ← nr_rlc_manager_get_ue m id;
  ue ← get_ue_obj m u;
  p ← of_option OutOfBounds (zget (srb ue) 0);
  ent ← of_option NullDeref p;
  '(_, outs, m) ← call_entity nd m ent (fun e => e ← reestablishment e; Ok (tt, e));
  p ← of_option OutOfBounds (zget (drb ue) 0);
  drb ← of_option NullDeref p;
  '(_, outs', m) ← call_entity nd m drb (fun e => e ← reestablishment e; Ok (tt, e));
  Ok (tt, outs ++ outs', m).

(** ** Any call *)

Definition mgr_step (nd : rlc_node) (m : manager) (c : rlc_call) : outcome (rlc_reply * list rlc_output * manager) :=
  match c with
  | MacDataInd id eNB_index MBMS_flag ch buffer tb_size => replying reply_unit (mac_rlc_data_ind nd m id eNB_index MBMS_flag ch buffer tb_size)
  | MacDataReq id ch tb_size buffer now => replying reply_pdu (mac_rlc_data_req nd m id ch tb_size buffer now)
  | MacStatusInd id frame ch => replying ReplyBytes (mac_rlc_status_ind nd m id frame ch)
  | MacOccupancyInd id frame subframe enb ch => replying ReplyBytes (mac_rlc_get_buffer_occupancy_ind nd m id frame subframe enb ch)
  | DataReq id is_srb rb_id mui sdu_size sdu now => replying reply_unit (rlc_data_req nd m id is_srb rb_id mui sdu_size sdu now)
  | AvailableTxSpace id ch => replying ReplyInt (nr_rlc_get_available_tx_space nd m id ch)
  | SrbRecvSdu id ch buf size now => replying reply_unit (nr_rlc_srb_recv_sdu nd m id ch buf size now)
  | ActivateAvg id ch is_on => replying reply_unit (nr_rlc_activate_avg_time_to_tx nd m id ch is_on)
  | GetStatistics id srb_flag rb_id now => replying ReplyStats (nr_rlc_get_statistics nd m id srb_flag rb_id now)
  | GetLcid id is_srb rb_id => '(lcid, m) ← nr_rlc_get_lcid_from_rb m id is_srb rb_id; Ok (ReplyInt lcid, [], m)
  | SetRlfHandler id handler => silent (nr_rlc_set_rlf_handler m id handler)
  | Reestablish id lc_id => replying reply_unit (nr_rlc_reestablish_entity nd m id lc_id)
  | Reconfigure id lc_id config => replying reply_unit (nr_rlc_reconfigure_entity nd m id lc_id config)
  | AddSrb id srb_id c => silent (nr_rlc_add_srb m id srb_id c)
  | AddDrb id drb_id c => silent (nr_rlc_add_drb m id drb_id c)
  | ActivateSrb0 id data send => '(b, m) ← nr_rlc_activate_srb0 m id data send; Ok (ReplyBool b, [], m)
  | ReleaseEntity id ch => silent (nr_rlc_release_entity m id ch)
  | ConfigReq id srb_flag mbms_flag action_remove module_id rb_id =>
      silent (rrc_rlc_config_req m id srb_flag mbms_flag action_remove module_id rb_id)
  | RemoveUe id => silent (nr_rlc_remove_ue m id)
  | UpdateId from_id to_id => replying ReplyBool (nr_rlc_update_id nd m from_id to_id)
  | TriggerReestablishment id => replying reply_unit (nr_rlc_test_trigger_reestablishment nd m id)
  | Tick frame subframe => Ok (ReplyUnit, [], m <| clock := nr_rlc_tick (clock m) frame subframe |>)
  end.

Fixpoint mgr_run (nd : rlc_node) (m : manager) (cs : list rlc_call) : outcome (list (rlc_reply * list rlc_output) * manager) :=
  match cs with
  | [] => Ok ([], m)
  | c :: cs => '(r, outs, m) ← mgr_step nd m c; '(l, m) ← mgr_run nd m cs; Ok ((r, outs) :: l, m)
  end.

End Manager.
