(* ===== verification/RlcManagerSpec.v ===== *)
(** * The RLC of all UEs, as a finite map (specification of RlcManager.v)

    A UE is a finite map from bearers to entities, with the channels its bearers
    are on, and the UEs are a finite map from identifiers; there are no pointers,
    no lists and no memory to free. *)

From S2P Require Import Prelude TimeStat RlcEntity RlcBearer RlcManager.

(** SRB 0 to 3 and DRB 1 to 32. *)
Inductive bearer : Type := Srb (i : Z) | Drb (i : Z).
#[export] Instance bearer_eq_dec : EqDecision bearer.
Proof. solve_decision. Defined.
#[export] Instance bearer_countable : Countable bearer.
Proof.
  refine (inj_countable' (fun b => match b with Srb i => (true, i) | Drb i => (false, i) end)
    (fun p => if p.1 then Srb p.2 else Drb p.2) _). by intros [i|i].
Defined.

Definition is_bearer (b : bearer) : bool :=
  match b with Srb i => (0 <=? i) && (i <=? 3) | Drb i => (1 <=? i) && (i <=? MAX_DRBS_PER_UE) end.

(** The order in which remove_ue frees. *)
Definition all_srbs : list bearer := Srb <$> seqZ 1 3.
Definition all_drbs : list bearer := Drb <$> seqZ 1 MAX_DRBS_PER_UE.

Inductive kind : Type := KSrb0 (d : srb0_data) | KUm | KAm.

Section Spec.
Context {E : Type} `{RlcEntity E}.

Record aue := mk_aue { a_bearers : gmap bearer (E * kind); a_lcid2rb : list nr_rlc_rb_t; a_rlf : option Z }.
#[export] Instance eta_aue : RecordEta aue := fld (fld (fld (fun _ => mk_aue) a_bearers) a_lcid2rb) a_rlf.
Record astate := mk_astate { a_ues : gmap Z aue; a_enb : bool; a_clock : rlc_clock }.
#[export] Instance eta_astate : RecordEta astate := fld (fld (fld (fun _ => mk_astate) a_ues) a_enb) a_clock.

Definition new_aue : aue := mk_aue ∅ (replicate 32 (mk_rb NR_RLC_NONE 0)) None.
Definition spec_ue (s : astate) (id : Z) : aue := default new_aue (a_ues s !! id).
Definition spec_set (s : astate) (id : Z) (au : aue) : astate := s <| a_ues := <[id := au]> (a_ues s) |>.
Definition spec_put (s : astate) (id : Z) (au : aue) (b : bearer) (x : E * kind) : astate :=
  spec_set s id (au <| a_bearers := <[b := x]> (a_bearers au) |>).
Definition spec_drop (s : astate) (id : Z) (au : aue) (b : bearer) : astate :=
  spec_set s id (au <| a_bearers := delete b (a_bearers au) |>).

(** Every function knows the UE it names, if only from then on. *)
Definition touch (s : astate) (id : Z) : astate := spec_set s id (spec_ue s id).

(** ** Callbacks *)

Definition spec_callback (nd : rlc_node) (s : astate) (id : Z) (au : aue) (b : bearer) (k : kind) (ev : rlc_event)
    : outcome (list rlc_output) :=
  match ev, k with
  | DeliverSdu buf, KSrb0 d =>
      send ← of_option NullDeref (s0_send d);
      Ok [InitialUlRrcMessage send (s0_ue_id d) (s0_data d) buf]
  | DeliverSdu buf, (KUm | KAm) =>
      let '(is_srb, rb_id) := match b with Srb i => (true, i) | Drb i => (false, i) end in
      cu_id ← (if a_enb s then du_get_f1_ue_data nd id else Ok id);
      Ok (if a_enb s && node_is_du nd
          then [if is_srb : bool then F1UlRrcMessage cu_id id rb_id buf else GtpDataReq id rb_id buf]
          else [PdcpDataInd cu_id (a_enb s) is_srb rb_id buf])
  | SduSuccessfulDelivery _, KAm => if decide (b = Srb 3) then Fault Exit else Ok []
  | MaxRetxReached, KAm =>
      if decide (b = Srb 3) then Fault Exit
      else Ok (match a_rlf au with Some handler => [RlfDetected handler id] | None => [] end)
  | _, _ => Fault NullDeref
  end.

Fixpoint spec_callbacks (nd : rlc_node) (s : astate) (id : Z) (au : aue) (b : bearer) (k : kind) (evs : list rlc_event)
    : outcome (list rlc_output) :=
  match evs with
  | [] => Ok []
  | ev :: evs => out ← spec_callback nd s id au b k ev; outs ← spec_callbacks nd s id au b k evs; Ok (out ++ outs)
  end.

(** A call of the entity of bearer [b], or [none] without one. *)
Definition spec_call {R} (nd : rlc_node) (s : astate) (id : Z) (b : option bearer) (none : outcome R) (f : E -> outcome (R * E))
    : outcome (R * list rlc_output * astate) :=
  let au := spec_ue s id in
  let s := touch s id in
  match b ≫= (fun b => (b,.) <$> a_bearers au !! b) with
  | Some (b, (e, k)) =>
      '(r, e') ← f e;
      outs ← spec_callbacks nd s id au b k (drop (length (events (common e))) (events (common e')));
      Ok (r, outs, spec_put s id au b (e', k))
  | None => r ← none; Ok (r, [], s)
  end.

Definition spec_at_time {R} (s : astate) (f : E -> outcome (R * E)) (e : E) : outcome (R * E) :=
  e ← set_time e (current_time (a_clock s)); f e.

(** The bearer of a channel. *)
Definition rb_of_entry (rb : nr_rlc_rb_t) : outcome (option bearer) :=
  match rb_type rb with
  | NR_RLC_NONE => Ok None
  | NR_RLC_SRB => _ ← require ((1 <=? rb_choice rb) && (rb_choice rb <=? 3)) OutOfBounds; Ok (Some (Srb (rb_choice rb)))
  | NR_RLC_DRB => _ ← require (is_bearer (Drb (rb_choice rb))) OutOfBounds; Ok (Some (Drb (rb_choice rb)))
  end.
Definition bearer_of_channel (au : aue) (channel_id : Z) : outcome (option bearer) :=
  if channel_id =? 0 then Ok (Some (Srb 0))
  else rb ← of_option OutOfBounds (zget (a_lcid2rb au) (channel_id - 1)); rb_of_entry rb.

Definition spec_channel {R} (nd : rlc_node) (s : astate) (id channel_id : Z) (none : outcome R) (f : E -> outcome (R * E))
    : outcome (R * list rlc_output * astate) :=
  b ← bearer_of_channel (spec_ue s id) channel_id;
  spec_call nd s id b none f.

(** ** Setting up and releasing *)

Definition spec_free (s : astate) (id : Z) (b : bearer) : outcome astate :=
  let au := spec_ue s id in
  match a_bearers au !! b with
  | Some (e, _) => _ ← delete_entity e; Ok (spec_drop s id au b)
  | None => Ok s
  end.

Fixpoint spec_free_all (s : astate) (id : Z) (bs : list bearer) : outcome astate :=
  match bs with [] => Ok s | b :: bs => s ← spec_free s id b; spec_free_all s id bs end.

Definition spec_remove (s : astate) (id : Z) : outcome astate :=
  if decide (is_Some (a_ues s !! id)) then
    s ← spec_free_all s id (Srb 0 :: all_srbs ++ all_drbs);
    Ok (s <| a_ues := delete id (a_ues s) |>)
  else Ok s.

Definition spec_release (s : astate) (id channel_id : Z) : outcome astate :=
  b ← bearer_of_channel (spec_ue s id) channel_id;
  match b with Some b => spec_free (touch s id) id b | None => Ok (touch s id) end.

(** The channel is mapped, and the bearer set up unless it is there. *)
Definition spec_add (s : astate) (id : Z) (b : bearer) (ty : nr_rlc_rb_type) (c : NR_RLC_BearerConfig) (make : outcome E) (k : kind)
    : outcome astate :=
  let au := spec_ue s id in
  l ← of_option OutOfBounds (zset (a_lcid2rb au) (logicalChannelIdentity c - 1) (mk_rb ty (choice_id c)));
  let au := au <| a_lcid2rb := l |> in
  _ ← require (is_bearer b && negb (bool_decide (b = Srb 0))) OutOfBounds;
  match a_bearers au !! b with
  | Some _ => Ok (spec_set s id au)
  | None => e ← make; Ok (spec_put s id au b (e, k))
  end.

Definition spec_add_drb (s : astate) (id drb_id : Z) (c : NR_RLC_BearerConfig) : outcome astate :=
  config ← of_option NullDeref (rlc_Config c);
  match config with
  | NR_RLC_Config_am dl ul =>
      p ← decode_am dl ul;
      n ← same_sn_length (dam_sn_FieldLength dl) (uam_sn_FieldLength ul);
      n ← decode_sn_field_length_am n;
      spec_add s id (Drb drb_id) NR_RLC_DRB c (new_am RLC_RX_MAXSIZE RLC_TX_MAXSIZE p n) KAm
  | NR_RLC_Config_um_Bi_Directional um =>
      t ← decode_t_reassembly (um_t_Reassembly um);
      n ← same_sn_length (um_dl_sn_FieldLength um) (um_ul_sn_FieldLength um);
      n ← decode_sn_field_length_um n;
      spec_add s id (Drb drb_id) NR_RLC_DRB c (new_um RLC_RX_MAXSIZE RLC_TX_MAXSIZE t n) KUm
  | NR_RLC_Config_other => Fault Exit
  end.

Definition spec_activate_srb0 (s : astate) (id data : Z) (send : option Z) : outcome (bool * astate) :=
  let au := spec_ue s id in
  match a_bearers au !! Srb 0 with
  | Some _ => Ok (false, touch s id)
  | None => e ← new_tm 10000; Ok (true, spec_put s id au (Srb 0) (e, KSrb0 (mk_srb0_data id data send)))
  end.

Definition has_bearer (au : aue) (b : bearer) : bool := match a_bearers au !! b with Some _ => true | None => false end.

Definition spec_config_req (s : astate) (id : Z) (b : bearer) : outcome astate :=
  s ← spec_free (touch s id) id b;
  if existsb (has_bearer (spec_ue s id)) (take 2 all_srbs ++ all_drbs) then Ok s else spec_remove s id.

Definition spec_update_id (nd : rlc_node) (s : astate) (from_id to_id : Z) : outcome (bool * list rlc_output * astate) :=
  let au := spec_ue s from_id in
  spec_call nd (s <| a_ues := <[to_id := au]> (delete from_id (a_ues s)) |>) to_id (Some (Srb 1)) (Ok true)
    (fun e => e ← reestablishment e; Ok (true, e)).

Definition spec_set_handler (s : astate) (id : Z) (handler : option Z) : astate :=
  spec_set s id ((spec_ue s id) <| a_rlf := handler |>).

Definition spec_trigger (nd : rlc_node) (s : astate) (id : Z) : outcome (unit * list rlc_output * astate) :=
  '(_, outs, s) ← spec_call nd s id (Some (Srb 1)) (Fault NullDeref) (fun e => e ← reestablishment e; Ok (tt, e));
  '(_, outs', s) ← spec_call nd s id (Some (Drb 1)) (Fault NullDeref) (fun e => e ← reestablishment e; Ok (tt, e));
  Ok (tt, outs ++ outs', s).

(** The bearer by its number. *)
Definition numbered (is_srb : bool) (rb_id last_drb : Z) : option bearer :=
  if (1 <=? rb_id) && (rb_id <=? (if is_srb then 2 else last_drb)) then Some (if is_srb then Srb rb_id else Drb rb_id) else None.
Definition numbered_avg (n : Z) : option bearer :=
  if (1 <=? n) && (n <=? 3) then Some (Srb n) else if (4 <=? n) && (n <=? 8) then Some (Drb (n - 3)) else None.

Definition spec_srb_sdu (nd : rlc_node) (s : astate) (id n : Z) (buf : list Z) (size now : Z)
    : outcome (unit * list rlc_output * astate) :=
  _ ← require ((0 <=? n) && (n <=? 3)) OutOfBounds;
  spec_call nd s id (Some (Srb n)) (Fault NullDeref) (spec_at_time s (fun e => e ← recv_sdu e buf size (-1) now; Ok (tt, e))).

Definition spec_tick (s : astate) (frame subframe : Z) : astate := s <| a_clock := nr_rlc_tick (a_clock s) frame subframe |>.

Definition spec_request (s : astate) (id : Z) (srb_flag mbms_flag action_remove : bool) (module_id rb_id : Z) : outcome astate :=
  _ ← require (negb mbms_flag && action_remove && (module_id =? 0)) Exit;
  b ← of_option Exit (numbered srb_flag rb_id MAX_DRBS_PER_UE);
  spec_config_req s (i32 (u32 id)) b.

(** ** Any call *)

Definition spec_step (nd : rlc_node) (s : astate) (c : rlc_call) : outcome (rlc_reply * list rlc_output * astate) :=
  match c with
  | MacDataInd id eNB_index MBMS_flag ch buffer tb_size =>
      _ ← require ((eNB_index =? 0) && negb MBMS_flag) Exit;
      replying reply_unit (spec_channel nd s (u16 id) ch (Ok tt) (spec_at_time s (fun e => e ← recv_pdu e buffer tb_size; Ok (tt, e))))
  | MacDataReq id ch tb_size buffer now =>
      replying reply_pdu (spec_channel nd s (u16 id) ch (Ok (0, buffer))
        (spec_at_time s (fun e => '(ret, buffer, e) ← generate_pdu e buffer tb_size now; Ok (ret, buffer, e))))
  | MacStatusInd id frame ch =>
      replying ReplyBytes (spec_channel nd s (u16 id) ch (Ok (if (frame mod 128 =? 0) || (ch =? 0) then Some 0 else None))
        (spec_at_time s (fun e => '(n, e) ← occupancy e; Ok (Some n, e))))
  | MacOccupancyInd id frame subframe enb ch =>
      _ ← require (negb enb) Exit;
      let s := spec_tick s frame subframe in
      replying ReplyBytes (spec_channel nd s (u16 id) ch (Ok (if frame mod 128 =? 0 then Some 0 else None))
        (spec_at_time s (fun e => '(n, e) ← occupancy e; Ok (Some n, e))))
  | DataReq id is_srb rb_id mui sdu_size sdu now =>
      replying reply_unit (spec_call nd s (i32 (u32 id)) (numbered is_srb rb_id MAX_DRBS_PER_UE) (Ok tt)
        (spec_at_time s (fun e => e ← recv_sdu e sdu sdu_size mui now; Ok (tt, e))))
  | AvailableTxSpace id ch => replying ReplyInt (spec_channel nd s id ch (Ok (-1)) (fun e => Ok (available_tx_space e, e)))
  | SrbRecvSdu id ch buf size now => replying reply_unit (spec_srb_sdu nd s id ch buf size now)
  | ActivateAvg id ch is_on =>
      replying reply_unit (spec_call nd s id (numbered_avg ch) (Ok tt) (activate_avg is_on))
  | GetStatistics id srb_flag rb_id now =>
      replying ReplyStats (spec_call nd s id (numbered srb_flag rb_id 5) (Ok None) (statistics now))
  | GetLcid id is_srb rb_id => Ok (ReplyInt (lcid_of_rb (a_lcid2rb (spec_ue s id)) is_srb rb_id 1), [], touch s id)
  | SetRlfHandler id handler => Ok (ReplyUnit, [], spec_set_handler s id handler)
  | Reestablish id lc_id =>
      replying reply_unit (spec_channel nd s id (u32 lc_id) (Ok tt) (fun e => e ← reestablishment e; Ok (tt, e)))
  | Reconfigure id lc_id config => replying reply_unit (spec_channel nd s id (u32 lc_id) (Fault NullDeref) (reconfigure config))
  | AddSrb id srb_id c =>
      silent ('(p, n) ← srb_params (rlc_Config c);
              spec_add s id (Srb srb_id) NR_RLC_SRB c (new_am RLC_RX_MAXSIZE RLC_TX_MAXSIZE p n) KAm)
  | AddDrb id drb_id c => silent (spec_add_drb s id drb_id c)
  | ActivateSrb0 id data send => '(b, s) ← spec_activate_srb0 s id data send; Ok (ReplyBool b, [], s)
  | ReleaseEntity id ch => silent (spec_release s id ch)
  | ConfigReq id srb_flag mbms_flag action_remove module_id rb_id =>
      silent (spec_request s id srb_flag mbms_flag action_remove module_id rb_id)
  | RemoveUe id => silent (spec_remove s id)
  | UpdateId from_id to_id => replying ReplyBool (spec_update_id nd s from_id to_id)
  | TriggerReestablishment id => replying reply_unit (spec_trigger nd s id)
  | Tick frame subframe => Ok (ReplyUnit, [], spec_tick s frame subframe)
  end.

(** No UE is given the identifier of another. *)
Definition call_ok (s : astate) (c : rlc_call) : bool :=
  match c with
  | UpdateId from_id to_id => (from_id =? to_id) || match a_ues s !! to_id with None => true | Some _ => false end
  | _ => true
  end.

Fixpoint spec_run (nd : rlc_node) (s : astate) (cs : list rlc_call) : outcome (list (rlc_reply * list rlc_output) * astate) :=
  match cs with
  | [] => Ok ([], s)
  | c :: cs => '(r, outs, s) ← spec_step nd s c; '(l, s) ← spec_run nd s cs; Ok ((r, outs) :: l, s)
  end.

Fixpoint calls_ok (nd : rlc_node) (s : astate) (cs : list rlc_call) : bool :=
  match cs with
  | [] => true
  | c :: cs => call_ok s c && match spec_step nd s c with Ok (_, _, s) => calls_ok nd s cs | Fault _ => true end
  end.

End Spec.
