(* ===== verification/RlcManagerRel.v ===== *)
(** * Pointers and the map of UEs

    [mgr_rel]: the heaps and the table of UEs of RlcManager.v stand for a state
    of RlcManagerSpec.v.  Every entity is reachable from exactly one place, so
    nothing is freed twice, used after it is freed, or forgotten. *)

From S2P Require Import Prelude TimeStat RlcEntity RlcBearer RlcManager RlcManagerSpec.

(** The pointer of a bearer. *)
Definition slot (ue : nr_rlc_ue_t) (b : bearer) : option Z :=
  match b with
  | Srb i => if i =? 0 then srb0 ue else mjoin (zget (srb ue) (i - 1))
  | Drb i => mjoin (zget (drb ue) (i - 1))
  end.

Definition put_slot (ue : nr_rlc_ue_t) (b : bearer) (p : option Z) : nr_rlc_ue_t :=
  match b with
  | Srb i => if i =? 0 then ue <| srb0 := p |> else ue <| srb := <[Z.to_nat (i - 1) := p]> (srb ue) |>
  | Drb i => ue <| drb := <[Z.to_nat (i - 1) := p]> (drb ue) |>
  end.

Definition shape (ue : nr_rlc_ue_t) : Prop := length (srb ue) = 3%nat /\ length (drb ue) = Z.to_nat MAX_DRBS_PER_UE.

Lemma slot_bearer ue b a : shape ue -> slot ue b = Some a -> is_bearer b = true.
Proof.
  intros [Hs Hd]. destruct b as [i|i]; cbn [slot is_bearer]; unfold MAX_DRBS_PER_UE in *.
  - destruct (i =? 0) eqn:E0; [intros _; lia|]. unfold zget. destruct (0 <=? i - 1) eqn:E1; [|done].
    destruct (srb ue !! Z.to_nat (i - 1)) eqn:El; [|done]. apply lookup_lt_Some in El. intros _. lia.
  - unfold zget. destruct (0 <=? i - 1) eqn:E1; [|done].
    destruct (drb ue !! Z.to_nat (i - 1)) eqn:El; [|done]. apply lookup_lt_Some in El. intros _. lia.
Qed.

Lemma zget_insert {A} (l : list A) i j x : 0 <= i < zlen l ->
  zget (<[Z.to_nat i := x]> l) j = if decide (i = j) then Some x else zget l j.
Proof.
  intros Hi. unfold zget, zlen in *. case_decide as Hd.
  - subst j. rewrite (proj2 (Z.leb_le _ _)) by lia. apply list_lookup_insert_eq. lia.
  - destruct (0 <=? j) eqn:E; zify_bool; [|done]. apply list_lookup_insert_ne. lia.
Qed.

Ltac same_index := match goal with Hn : ?f _ <> ?f _ |- _ => destruct Hn; f_equal; lia end.

Lemma slot_put ue b b' p : shape ue -> is_bearer b = true ->
  slot (put_slot ue b p) b' = if decide (b = b') then p else slot ue b'.
Proof.
  intros [Hs Hd] Hb. unfold is_bearer, MAX_DRBS_PER_UE in *. destruct b as [i|i], b' as [j|j]; cbn [slot put_slot].
  - destruct (i =? 0) eqn:Ei, (j =? 0) eqn:Ej; field_simpl; zify_bool; rewrite ?zget_insert by (unfold zlen; lia);
      repeat case_decide; simplify_eq; try done; try lia; same_index.
  - destruct (i =? 0); field_simpl; case_decide; done.
  - field_simpl. case_decide; done.
  - field_simpl. zify_bool. rewrite zget_insert by (unfold zlen; lia).
    repeat case_decide; simplify_eq; try done; try lia; same_index.
Qed.

Lemma put_slot_frame ue b p : shape ue ->
  shape (put_slot ue b p) /\ ue_id (put_slot ue b p) = ue_id ue /\ lcid2rb (put_slot ue b p) = lcid2rb ue /\
  rlf_handler (put_slot ue b p) = rlf_handler ue.
Proof.
  intros [Hs Hd]. destruct b as [i|i]; cbn [put_slot]; [destruct (i =? 0)|]; unfold shape; field_simpl; rewrite ?length_insert; done.
Qed.

Section Rel.
Context {E : Type} `{RlcEntity E}.
Implicit Types (m : @manager E) (s : @astate E) (au : @aue E) (o : @entity_obj E).

(** ** The relation *)

(** The callback data of SRB 0 are allocated just before its entity. *)

Definition cb_rel m (u : Z) (b : bearer) (cb : callbacks) (k : kind) : Prop :=
  match cb, k with
  | CbSrb0 p, KSrb0 d => b = Srb 0 /\ srb0_heap m !! p = Some d
  | CbUm v, KUm | CbAm v, KAm => b <> Srb 0 /\ v = u
  | _, _ => False
  end.

Definition slot_rel m (u : Z) (ue : nr_rlc_ue_t) au (b : bearer) : Prop :=
  match slot ue b with
  | None => a_bearers au !! b = None
  | Some a => exists o k, entity_heap m !! a = Some o /\ cb_rel m u b (obj_cb o) k /\ a_bearers au !! b = Some (obj_entity o, k)
  end.

Record ue_rel m (u : Z) (ue : nr_rlc_ue_t) au : Prop := {
  ur_shape : shape ue;
  ur_slots : forall b, slot_rel m u ue au b;
  ur_lcid : a_lcid2rb au = lcid2rb ue;
  ur_rlf : a_rlf au = rlf_handler ue }.

Record mgr_rel m s : Prop := {
  mr_enb : a_enb s = enb_flag m;
  mr_clock : a_clock s = clock m;
  mr_nodup : NoDup (ue_list m);
  mr_list : forall u, u ∈ ue_list m <-> is_Some (ue_heap m !! u);
  mr_ids : forall u v ue ue', ue_heap m !! u = Some ue -> ue_heap m !! v = Some ue' -> ue_id ue = ue_id ue' -> u = v;
  mr_ues : forall u ue, ue_heap m !! u = Some ue -> exists au, a_ues s !! ue_id ue = Some au /\ ue_rel m u ue au;
  mr_known : forall id, is_Some (a_ues s !! id) -> exists u ue, ue_heap m !! u = Some ue /\ ue_id ue = id;
  mr_owner : forall a, is_Some (entity_heap m !! a) -> exists u ue b, ue_heap m !! u = Some ue /\ slot ue b = Some a;
  mr_inj : forall u v ue ue' b b' a, ue_heap m !! u = Some ue -> ue_heap m !! v = Some ue' ->
    slot ue b = Some a -> slot ue' b' = Some a -> u = v /\ b = b';
  mr_pair : forall a o p, entity_heap m !! a = Some o -> obj_cb o = CbSrb0 p -> a = p + 1;
  mr_data : forall p, is_Some (srb0_heap m !! p) -> exists o, entity_heap m !! (p + 1) = Some o /\ obj_cb o = CbSrb0 p;
  mr_fresh : forall a, next_addr m <= a -> ue_heap m !! a = None /\ entity_heap m !! a = None /\ srb0_heap m !! a = None }.

(** The same fault, or results that [Q] relates. *)
Definition related {A B} (Q : A -> B -> Prop) (o1 : outcome A) (o2 : outcome B) : Prop :=
  match o1, o2 with Ok a, Ok b => Q a b | Fault f, Fault g => f = g | _, _ => False end.

Definition same {X} : outcome (X * manager) -> outcome (X * astate) -> Prop :=
  related (fun x y => fst x = fst y /\ mgr_rel (snd x) (snd y)).

Lemma related_bind {A B A' B'} (Q : A -> B -> Prop) (Q' : A' -> B' -> Prop) (o1 : outcome A) (o2 : outcome B) (k1 : A -> outcome A') (k2 : B -> outcome B') :
  related Q o1 o2 -> (forall a b, Q a b -> related Q' (k1 a) (k2 b)) -> related Q' (o1 ≫= k1) (o2 ≫= k2).
Proof. intros HQ Hk. destruct o1, o2; cbn in *; try done. by apply Hk. Qed.

Lemma related_Ok {A B} (Q : A -> B -> Prop) (P : A -> Prop) (o1 : outcome A) (o2 : outcome B) :
  related Q o1 o2 -> (forall a, o1 = Ok a -> P a) -> related (fun a b => Q a b /\ P a) o1 o2.
Proof. intros HQ HP. destruct o1, o2; cbn in *; try done. split; [done|by apply HP]. Qed.

Lemma related_mono {A B} (Q Q' : A -> B -> Prop) (o1 : outcome A) (o2 : outcome B) :
  related Q o1 o2 -> (forall a b, Q a b -> Q' a b) -> related Q' o1 o2.
Proof. intros HQ Hm. destruct o1, o2; cbn in *; try done. by apply Hm. Qed.

Lemma related_eq {A A' B'} (Q' : A' -> B' -> Prop) (o : outcome A) (k1 : A -> outcome A') (k2 : A -> outcome B') :
  (forall a, o = Ok a -> related Q' (k1 a) (k2 a)) -> related Q' (o ≫= k1) (o ≫= k2).
Proof. destruct o; cbn; intros Hk; [by apply Hk|done]. Qed.

Lemma new_manager_rel enb : mgr_rel (new_nr_rlc_ue_manager enb) (mk_astate ∅ enb (mk_clock 0 0 0)).
Proof.
  split; cbn; try done.
  - constructor.
  - intros u. rewrite lookup_empty. split; [by intros ?%not_elem_of_nil|by intros []].
  - intros id [? ?%lookup_empty_Some]. done.
  - intros a [? ?%lookup_empty_Some]. done.
  - intros a [? ?%lookup_empty_Some]. done.
Qed.

(** ** Looking up *)

Lemma lookup_ue m s u ue : mgr_rel m s -> ue_heap m !! u = Some ue ->
  a_ues s !! ue_id ue = Some (spec_ue s (ue_id ue)) /\ ue_rel m u ue (spec_ue s (ue_id ue)).
Proof. intros R Hu. destruct (mr_ues _ _ R u ue Hu) as (au & Ha & Hr). unfold spec_ue. by rewrite Ha. Qed.

Lemma find_ue_ok m s id : mgr_rel m s ->
  match find_ue m (ue_list m) id with
  | Ok None => a_ues s !! id = None
  | Ok (Some (i, u)) => ue_list m !! i = Some u /\ exists ue, ue_heap m !! u = Some ue /\ ue_id ue = id
  | Fault _ => False
  end.
Proof.
  intros R. assert (forall l, (forall u, u ∈ l -> is_Some (ue_heap m !! u)) ->
    match find_ue m l id with
    | Ok None => forall u ue, u ∈ l -> ue_heap m !! u = Some ue -> ue_id ue <> id
    | Ok (Some (i, u)) => l !! i = Some u /\ exists ue, ue_heap m !! u = Some ue /\ ue_id ue = id
    | Fault _ => False
    end) as Hgen.
  { induction l as [|u l IH]; intros Hl; cbn [find_ue]; [by intros u ue ?%not_elem_of_nil|].
    destruct (Hl u ltac:(left)) as [ue Hu]. unfold get_ue_obj. rewrite Hu. cbn [of_option mbind outcome_bind].
    destruct (ue_id ue =? id) eqn:Ei; [split; [done|]; exists ue; split; [done|lia]|].
    specialize (IH ltac:(intros v Hv; apply Hl; by right)). destruct (find_ue m l id) as [[[i v]|]|f]; cbn [mbind outcome_bind]; [| |done].
    - destruct IH as [Hi Hv]. done.
    - intros v ve [->|Hv]%elem_of_cons Hve; [assert (ve = ue) as -> by congruence; lia|by apply (IH v)]. }
  specialize (Hgen (ue_list m) ltac:(intros u; apply (mr_list _ _ R))).
  destruct (find_ue m (ue_list m) id) as [[[i u]|]|f]; [done| |done].
  destruct (a_ues s !! id) eqn:Ea; [|done]. destruct (mr_known _ _ R id ltac:(eauto)) as (u & ue & Hu & Hid).
  exfalso. apply (Hgen u ue); [|done|done]. apply (mr_list _ _ R). eauto.
Qed.

(** ** Changing one UE *)

Record ue_change m m' (u : Z) (ue ue' : nr_rlc_ue_t) au' : Prop := {
  uc_heap : ue_heap m' = <[u := ue']> (ue_heap m);
  uc_list : ue_list m' = ue_list m;
  uc_enb : enb_flag m' = enb_flag m;
  uc_clock : clock m' = clock m;
  uc_rel : ue_rel m' u ue' au';
  uc_next : next_addr m <= next_addr m';
  uc_others : forall a, (forall b, slot ue b <> Some a) -> a < next_addr m -> entity_heap m' !! a = entity_heap m !! a;
  uc_owner : forall a, is_Some (entity_heap m' !! a) ->
    (exists b, slot ue' b = Some a) \/ (a < next_addr m /\ forall b, slot ue b <> Some a);
  uc_inj : forall b b' a, slot ue' b = Some a -> slot ue' b' = Some a -> b = b';
  uc_slots : forall b a, slot ue' b = Some a -> (exists b', slot ue b' = Some a) \/ next_addr m <= a;
  uc_data_others : forall p, (forall b, slot ue b <> Some (p + 1)) -> p < next_addr m -> srb0_heap m' !! p = srb0_heap m !! p;
  uc_pair : forall b a o p, slot ue' b = Some a -> entity_heap m' !! a = Some o -> obj_cb o = CbSrb0 p -> a = p + 1;
  uc_data : forall p, is_Some (srb0_heap m' !! p) -> exists o, entity_heap m' !! (p + 1) = Some o /\ obj_cb o = CbSrb0 p;
  uc_fresh : forall a, next_addr m' <= a -> entity_heap m' !! a = None /\ srb0_heap m' !! a = None }.

Lemma slot_owned m s u ue b a : mgr_rel m s -> ue_heap m !! u = Some ue -> slot ue b = Some a ->
  exists o k, entity_heap m !! a = Some o /\ cb_rel m u b (obj_cb o) k /\
    a_bearers (spec_ue s (ue_id ue)) !! b = Some (obj_entity o, k) /\ a < next_addr m.
Proof.
  intros R Hu Hb. destruct (lookup_ue _ _ _ _ R Hu) as [_ Hr]. pose proof (ur_slots _ _ _ _ Hr b) as Hs.
  unfold slot_rel in Hs. rewrite Hb in Hs. destruct Hs as (o & k & Ho & Hk & Ha). exists o, k. split_and!; try done.
  destruct (Z_lt_le_dec a (next_addr m)) as [|Hle]; [done|]. destruct (mr_fresh _ _ R a Hle) as (_ & Hn & _). congruence.
Qed.

(** The bearers of the other UEs. *)
Lemma ue_change_other m s m' u ue ue' au' v ve : mgr_rel m s -> ue_heap m !! u = Some ue -> ue_change m m' u ue ue' au' ->
  ue_heap m !! v = Some ve -> v <> u -> ue_rel m' v ve (spec_ue s (ue_id ve)).
Proof.
  intros R Hu C Hv Hne. destruct (lookup_ue _ _ _ _ R Hv) as [_ Hr]. destruct Hr as [H1 H2 H3 H4]. split; try done.
  intros b. specialize (H2 b). unfold slot_rel in *. destruct (slot ve b) as [a|] eqn:Eb; [|done].
  destruct H2 as (o & k & Ho & Hk & Ha). destruct (slot_owned _ _ _ _ _ _ R Hv Eb) as (_ & _ & _ & _ & _ & Hlt).
  assert (forall b', slot ue b' <> Some a) as Hnot.
  { intros b' Hb'. destruct (mr_inj _ _ R u v ue ve b' b a Hu Hv Hb' Eb). done. }
  exists o, k. split_and!; [by rewrite (uc_others _ _ _ _ _ _ C)| |done].
  unfold cb_rel in *. destruct (obj_cb o) as [p|p|p] eqn:Ec, k as [d| |]; try done. destruct Hk as [Hb Hd]. split; [done|].
  assert (a = p + 1) as -> by (by apply (mr_pair _ _ R a o)).
  rewrite (uc_data_others _ _ _ _ _ _ C); [done|exact Hnot|lia].
Qed.

Lemma update_ue m s u ue m' ue' au' : mgr_rel m s -> ue_heap m !! u = Some ue -> ue_change m m' u ue ue' au' ->
  ue_id ue' = ue_id ue \/ a_ues s !! ue_id ue' = None ->
  mgr_rel m' (s <| a_ues := <[ue_id ue' := au']> (delete (ue_id ue) (a_ues s)) |>).
Proof.
  intros R Hu C Hid. assert (forall v ve, ue_heap m !! v = Some ve -> v <> u -> ue_id ve <> ue_id ue /\ ue_id ve <> ue_id ue') as Hother.
  { intros v ve Hv Hne. assert (ue_id ve <> ue_id ue) as Hn by (intros Eq; by apply Hne, (mr_ids _ _ R v u ve ue)).
    split; [done|]. intros Eq. destruct Hid as [Hid|Hid]; [congruence|].
    destruct (mr_ues _ _ R v ve Hv) as (au & Ha & _). congruence. }
  assert (forall v ve, ue_heap m' !! v = Some ve -> (v = u /\ ve = ue') \/ (v <> u /\ ue_heap m !! v = Some ve)) as Hcases.
  { intros v ve. rewrite (uc_heap _ _ _ _ _ _ C), lookup_insert. case_decide; [intros [= <-]; by left|by right]. }
  split; field_simpl.
  - rewrite (uc_enb _ _ _ _ _ _ C). apply (mr_enb _ _ R).
  - rewrite (uc_clock _ _ _ _ _ _ C). apply (mr_clock _ _ R).
  - rewrite (uc_list _ _ _ _ _ _ C). apply (mr_nodup _ _ R).
  - intros v. rewrite (uc_list _ _ _ _ _ _ C), (uc_heap _ _ _ _ _ _ C), (mr_list _ _ R), lookup_insert.
    case_decide; [subst v|done]. split; [by eexists|intros _; by eexists].
  - intros v w ve we [[-> ->]|[Hv Hve]]%Hcases [[-> ->]|[Hw Hwe]]%Hcases Eq; [done| | |by apply (mr_ids _ _ R v w ve we)].
    + by destruct (Hother w we Hwe Hw) as [_ []].
    + by destruct (Hother v ve Hve Hv) as [_ []].
  - intros v ve [[-> ->]|[Hv Hve]]%Hcases.
    + exists au'. field_simpl. rewrite lookup_insert_eq. split; [done|apply C].
    + destruct (Hother v ve Hve Hv) as [Hn Hn']. exists (spec_ue s (ue_id ve)).
      field_simpl. rewrite lookup_insert_ne, lookup_delete_ne by done. split; [by apply (lookup_ue m s v)|].
      by eapply (ue_change_other m s m' u).
  - intros id. field_simpl. rewrite lookup_insert. case_decide as Hd.
    + intros _. exists u, ue'. rewrite (uc_heap _ _ _ _ _ _ C), lookup_insert_eq. done.
    + intros [Hn Hs]%lookup_delete_is_Some. destruct (mr_known _ _ R id Hs) as (v & ve & Hv & Hve). exists v, ve.
      split; [|done]. rewrite (uc_heap _ _ _ _ _ _ C), lookup_insert_ne; [done|]. intros <-. congruence.
  - intros a Ha. destruct (uc_owner _ _ _ _ _ _ C a Ha) as [[b Hb]|[Hlt Hnot]].
    + exists u, ue', b. rewrite (uc_heap _ _ _ _ _ _ C), lookup_insert_eq. done.
    + rewrite (uc_others _ _ _ _ _ _ C) in Ha by done. destruct (mr_owner _ _ R a Ha) as (v & ve & b & Hv & Hb).
      exists v, ve, b. split; [|done]. rewrite (uc_heap _ _ _ _ _ _ C), lookup_insert_ne; [done|].
      intros <-. apply (Hnot b). congruence.
  - intros v w ve we b b' a [[-> ->]|[Hv Hve]]%Hcases [[-> ->]|[Hw Hwe]]%Hcases Hb Hb'.
    + split; [done|]. by apply (uc_inj _ _ _ _ _ _ C b b' a).
    + exfalso. destruct (uc_slots _ _ _ _ _ _ C b a Hb) as [[b2 Hb2]|Hle].
      * by destruct (mr_inj _ _ R u w ue we b2 b' a Hu Hwe Hb2 Hb').
      * destruct (slot_owned _ _ _ _ _ _ R Hwe Hb') as (_ & _ & _ & _ & _ & Hlt). lia.
    + exfalso. destruct (uc_slots _ _ _ _ _ _ C b' a Hb') as [[b2 Hb2]|Hle].
      * by destruct (mr_inj _ _ R u v ue ve b2 b a Hu Hve Hb2 Hb).
      * destruct (slot_owned _ _ _ _ _ _ R Hve Hb) as (_ & _ & _ & _ & _ & Hlt). lia.
    + by apply (mr_inj _ _ R v w ve we b b' a).
  - intros a o p Ha Hp. destruct (uc_owner _ _ _ _ _ _ C a ltac:(eauto)) as [[b Hb]|[Hlt Hnot]].
    + by apply (uc_pair _ _ _ _ _ _ C b a o).
    + rewrite (uc_others _ _ _ _ _ _ C) in Ha by done. by apply (mr_pair _ _ R a o).
  - apply C.
  - intros a Ha. destruct (uc_fresh _ _ _ _ _ _ C a Ha) as [H1 H2]. split_and!; [|done|done].
    pose proof (uc_next _ _ _ _ _ _ C). rewrite (uc_heap _ _ _ _ _ _ C), lookup_insert_ne; [apply (mr_fresh _ _ R); lia|].
    intros <-. destruct (mr_fresh _ _ R u ltac:(lia)). congruence.
Qed.

Lemma update_ue_same m s u ue m' ue' au' : mgr_rel m s -> ue_heap m !! u = Some ue -> ue_change m m' u ue ue' au' ->
  ue_id ue' = ue_id ue -> mgr_rel m' (spec_set s (ue_id ue) au').
Proof.
  intros R Hu C Hid. pose proof (update_ue m s u ue m' ue' au' R Hu C ltac:(by left)) as R'.
  rewrite Hid, insert_delete_eq in R'. exact R'.
Qed.

(** ** The operations on the heaps *)

Lemma touch_known s id : is_Some (a_ues s !! id) -> touch s id = s.
Proof.
  intros [au Ha]. unfold touch, spec_set, spec_ue. rewrite Ha. cbn [default from_option]. destruct s as [ues enb c].
  unfold upd. cbn. f_equal. by apply insert_id.
Qed.

Lemma slot_new b id : slot (new_ue <| ue_id := id |>) b = None.
Proof.
  unfold new_ue, MAX_DRBS_PER_UE. destruct b as [i|i]; cbn [slot]; field_simpl; [destruct (i =? 0); [done|]|].
  - unfold zget. destruct (0 <=? i - 1); [|done]. cbn [srb]. destruct (replicate 3 None !! Z.to_nat (i - 1)) eqn:El; [|done].
    by apply lookup_replicate in El as [-> _].
  - unfold zget. destruct (0 <=? i - 1); [|done]. cbn [drb]. destruct (replicate _ None !! Z.to_nat (i - 1)) eqn:El; [|done].
    by apply lookup_replicate in El as [-> _].
Qed.

Lemma get_ue_ok m s id : mgr_rel m s ->
  exists u ue m', nr_rlc_manager_get_ue m id = Ok (u, m') /\ ue_heap m' !! u = Some ue /\ ue_id ue = id /\
    mgr_rel m' (touch s id) /\ clock m' = clock m.
Proof.
  intros R. unfold nr_rlc_manager_get_ue. pose proof (find_ue_ok m s id R) as Hf.
  destruct (find_ue m (ue_list m) id) as [[[i u]|]|f]; cbn [mbind outcome_bind]; [| |done].
  - destruct Hf as (_ & ue & Hu & Hid). exists u, ue, m. split_and!; try done.
    rewrite touch_known; [done|]. destruct (mr_ues _ _ R u ue Hu) as (au & Ha & _). rewrite <- Hid. eauto.
  - set (u := next_addr m). set (ue := new_ue <| ue_id := id |>). destruct (mr_fresh _ _ R u ltac:(unfold u; lia)) as (Hu & _ & _).
    assert (ue_id ue = id) as Hid by (unfold ue; by field_simpl).
    assert (forall v ve, <[u := ue]> (ue_heap m) !! v = Some ve -> (v = u /\ ve = ue) \/ (v <> u /\ ue_heap m !! v = Some ve)) as Hc.
    { intros v ve. rewrite lookup_insert. case_decide; [intros [= <-]; by left|by right]. }
    assert (forall v ve, ue_heap m !! v = Some ve -> ue_id ve <> id) as Hn.
    { intros v ve Hv Eq. destruct (mr_ues _ _ R v ve Hv) as (au & Ha & _). congruence. }
    exists u, ue. eexists. split_and!; [done| |done| |]; unfold set_ue; field_simpl; [by rewrite lookup_insert_eq| |done].
    split; unfold touch, spec_set; field_simpl.
    + apply (mr_enb _ _ R).
    + apply (mr_clock _ _ R).
    + apply NoDup_app. split_and!; [apply (mr_nodup _ _ R)| |apply NoDup_singleton].
      intros v Hv ->%list_elem_of_singleton. apply (mr_list _ _ R) in Hv as [? Hv]. congruence.
    + intros v. rewrite elem_of_app, (mr_list _ _ R), list_elem_of_singleton, lookup_insert. case_decide as Hd.
      * subst v. split; [intros _; by eexists|by right].
      * split; [intros [?| ->]; [done|by destruct Hd]|by left].
    + intros v w ve we [[-> ->]|[Hv Hve]]%Hc [[-> ->]|[Hw Hwe]]%Hc Eq; [done| | |by apply (mr_ids _ _ R v w ve we)].
      * destruct (Hn w we Hwe). congruence.
      * destruct (Hn v ve Hve). congruence.
    + intros v ve [[-> ->]|[Hv Hve]]%Hc.
      * exists (spec_ue s id). field_simpl. rewrite Hid, lookup_insert_eq. split; [done|]. unfold spec_ue. rewrite Hf.
        split; [done|..|done|done]. intros b. unfold slot_rel, ue. by rewrite slot_new.
      * exists (spec_ue s (ue_id ve)). field_simpl. rewrite lookup_insert_ne by (intros Eq; by apply (Hn v ve Hve)).
        destruct (lookup_ue _ _ _ _ R Hve) as [H1 [H2 H3 H4 H5]]. split; [done|]. by split.
    + intros i. field_simpl. rewrite lookup_insert. case_decide as Hd.
      * intros _. exists u, ue. by rewrite lookup_insert_eq, Hid.
      * intros (v & ve & Hv & Hve)%(mr_known _ _ R). exists v, ve. rewrite lookup_insert_ne; [done|]. intros <-. congruence.
    + intros a (v & ve & b & Hv & Hb)%(mr_owner _ _ R). exists v, ve, b. rewrite lookup_insert_ne; [done|]. intros <-. congruence.
    + intros v w ve we b b' a [[-> ->]|[Hv Hve]]%Hc [[-> ->]|[Hw Hwe]]%Hc; try (unfold ue; rewrite slot_new; done).
      by apply (mr_inj _ _ R v w ve we b b' a).
    + apply (mr_pair _ _ R).
    + apply (mr_data _ _ R).
    + intros a Ha. destruct (mr_fresh _ _ R a ltac:(unfold u in *; lia)) as (H1 & H2 & H3).
      rewrite lookup_insert_ne by (unfold u in *; lia). done.
Qed.

Section Known.
Context m s u ue (R : mgr_rel m s) (Hu : ue_heap m !! u = Some ue).
Notation au := (spec_ue s (ue_id ue)).

Lemma slot_inj b b' a : slot ue b = Some a -> slot ue b' = Some a -> b = b'.
Proof. intros Hb Hb'. by apply (mr_inj _ _ R u u ue ue b b' a). Qed.

Lemma slot_free a : (forall b, slot ue b <> Some a) \/ exists b, slot ue b = Some a.
Proof.
  destruct (decide (Exists (fun b => slot ue b = Some a) (Srb 0 :: all_srbs ++ all_drbs))) as [Hx|Hx].
  - apply Exists_exists in Hx as (b & _ & Hb). right. eauto.
  - left. intros b Hb. apply Hx, Exists_exists. exists b. split; [|done].
    destruct (lookup_ue _ _ _ _ R Hu) as [_ Hr]. pose proof (slot_bearer ue b a (ur_shape _ _ _ _ Hr) Hb) as Hi.
    unfold is_bearer in Hi. unfold all_srbs, all_drbs. destruct b as [i|i].
    + destruct (decide (i = 0)) as [->|]; [left|]. right. apply elem_of_app. left. apply list_elem_of_fmap. exists i.
      split; [done|]. apply elem_of_seqZ. lia.
    + right. apply elem_of_app. right. apply list_elem_of_fmap. exists i. split; [done|]. apply elem_of_seqZ. lia.
Qed.

(** An object that is there is this UE's, or older than the next address. *)
Lemma owned_or_not a : is_Some (entity_heap m !! a) -> (exists b, slot ue b = Some a) \/ (a < next_addr m /\ forall b, slot ue b <> Some a).
Proof.
  intros Ha. destruct (slot_free a) as [Hn|Hx]; [|by left]. right. split; [|done].
  destruct (Z_lt_le_dec a (next_addr m)) as [|Hle]; [done|]. destruct (mr_fresh _ _ R a Hle) as (_ & He & _).
  rewrite He in Ha. by destruct Ha.
Qed.

Lemma set_entity_ok b a o e k : slot ue b = Some a -> entity_heap m !! a = Some o -> cb_rel m u b (obj_cb o) k ->
  mgr_rel (m <| entity_heap := <[a := mk_obj e (obj_cb o)]> (entity_heap m) |>) (spec_put s (ue_id ue) au b (e, k)).
Proof.
  intros Hb Ho Hk. unfold spec_put. destruct (lookup_ue _ _ _ _ R Hu) as [_ [H1 H2 H3 H4]].
  eapply (update_ue_same m s u ue _ ue); [exact R|exact Hu| |done]. split; field_simpl; try done.
  - by rewrite insert_id.
  - split; try (by field_simpl). intros b'. specialize (H2 b'). unfold slot_rel in *. field_simpl. destruct (slot ue b') as [a'|] eqn:Eb'.
    + destruct (decide (a' = a)) as [->|Hne].
      * assert (b' = b) as -> by (by apply (slot_inj b' b a)). rewrite !lookup_insert_eq. eexists _, k. split_and!; try done.
      * rewrite lookup_insert_ne by done. rewrite lookup_insert_ne; [exact H2|]. intros ->. congruence.
    + rewrite lookup_insert_ne; [exact H2|]. intros ->. congruence.
  - intros a' Hn _. apply lookup_insert_ne. intros ->. by apply (Hn b).
  - intros a' [<-|Ha']%lookup_insert_is_Some'; apply owned_or_not; eauto.
  - apply slot_inj.
  - intros b' a' Hb'. left. eauto.
  - intros b' a' o' p _. rewrite lookup_insert. case_decide as Hd.
    + intros [= <-] Hp. subst a'. by apply (mr_pair _ _ R a o).
    + intros Ho' Hp. by apply (mr_pair _ _ R a' o').
  - intros p (o' & Ho' & Hp)%(mr_data _ _ R). setoid_rewrite lookup_insert. case_decide as Hd; [|eauto]. subst a.
    eexists. split; [done|]. cbn. congruence.
  - intros a' Ha'. destruct (mr_fresh _ _ R a' Ha') as (_ & He & Hs). split; [|done]. rewrite lookup_insert_ne; [done|].
    intros ->. congruence.
Qed.

(** Channels and handler. *)
Lemma set_ue_ok ue' au' : (forall b, slot ue' b = slot ue b) -> shape ue' -> ue_id ue' = ue_id ue ->
  a_bearers au' = a_bearers au -> a_lcid2rb au' = lcid2rb ue' -> a_rlf au' = rlf_handler ue' ->
  mgr_rel (set_ue m u ue') (spec_set s (ue_id ue) au').
Proof.
  intros Hs Hsh Hid Hb Hl Hf. destruct (lookup_ue _ _ _ _ R Hu) as [_ [H1 H2 H3 H4]]. unfold set_ue.
  eapply (update_ue_same m s u ue _ ue'); [exact R|exact Hu| |done]. split; field_simpl; try done.
  - split; try done. intros b. specialize (H2 b). unfold slot_rel in *. by rewrite Hs, Hb.
  - intros a Ha. destruct (owned_or_not a Ha) as [[b Hbo]|]; [left; exists b; by rewrite Hs|by right].
  - intros b b' a. rewrite !Hs. apply slot_inj.
  - intros b a. rewrite Hs. eauto.
  - intros b a o p _. apply (mr_pair _ _ R).
  - apply (mr_data _ _ R).
  - intros a Ha. by destruct (mr_fresh _ _ R a Ha) as (_ & ? & ?).
Qed.

Lemma set_ue_same : mgr_rel (set_ue m u ue) s.
Proof. unfold set_ue. rewrite insert_id by done. destruct m. exact R. Qed.

(** The entity of [b] is freed, with the data of SRB 0. *)
Lemma drop_ok b a o : slot ue b = Some a -> entity_heap m !! a = Some o ->
  mgr_rel (m <| srb0_heap := match obj_cb o with CbSrb0 p => delete p (srb0_heap m) | _ => srb0_heap m end |>
             <| entity_heap := delete a (entity_heap m) |> <| ue_heap := <[u := put_slot ue b None]> (ue_heap m) |>)
    (spec_drop s (ue_id ue) au b).
Proof.
  intros Hb Ho. unfold spec_drop. destruct (lookup_ue _ _ _ _ R Hu) as [_ [H1 H2 H3 H4]].
  pose proof (slot_bearer _ _ _ H1 Hb) as Hv. destruct (put_slot_frame ue b None H1) as (F1 & F2 & F3 & F4).
  assert (forall p, obj_cb o = CbSrb0 p -> a = p + 1) as Hpair by (intros p; by apply (mr_pair _ _ R)).
  assert (forall p, p + 1 <> a -> match obj_cb o with CbSrb0 q => delete q (srb0_heap m) | _ => srb0_heap m end !! p = srb0_heap m !! p) as Hdata.
  { intros p Hp. destruct (obj_cb o) as [q|q|q] eqn:Eq; [|done..]. apply lookup_delete_ne. intros ->. by rewrite (Hpair p) in Hp. }
  eapply (update_ue_same m s u ue _ (put_slot ue b None)); [exact R|exact Hu| |done]. split; field_simpl; try done.
  - split; field_simpl; try congruence. intros b'. specialize (H2 b'). unfold slot_rel in *. field_simpl. rewrite slot_put by done.
    case_decide as Hd; [subst b'; apply lookup_delete_eq|]. destruct (slot ue b') as [a'|] eqn:Eb'.
    + assert (a' <> a) as Hne by (intros ->; apply Hd; by apply (slot_inj b b' a)). rewrite !lookup_delete_ne by done.
      destruct H2 as (o' & k & Ho' & Hk & Ha'). exists o', k. split_and!; try done. unfold cb_rel in *. field_simpl.
      destruct (obj_cb o') as [p|p|p] eqn:Ep, k as [d| |]; try done. destruct Hk as [-> Hd0]. split; [done|].
      rewrite Hdata; [done|]. pose proof (mr_pair _ _ R a' o' p Ho' Ep). lia.
    + by rewrite lookup_delete_ne.
  - intros a' Hn _. apply lookup_delete_ne. intros ->. by apply (Hn b).
  - intros a' [Hne Ha']%lookup_delete_is_Some. destruct (owned_or_not a' Ha') as [[b' Hb']|]; [left|by right].
    exists b'. rewrite slot_put by done. case_decide; [congruence|done].
  - intros b1 b2 a'. rewrite !slot_put by done. do 2 case_decide; try done. apply slot_inj.
  - intros b' a'. rewrite slot_put by done. case_decide; [done|]. eauto.
  - intros p Hn _. apply Hdata. intros Ep. apply (Hn b). by rewrite Ep.
  - intros b' a' o' p _ [_ Ha']%lookup_delete_Some. by apply (mr_pair _ _ R).
  - intros p Hp. assert (p + 1 <> a) as Hne.
    { intros Ep. assert (is_Some (srb0_heap m !! p)) as Hp'.
      { destruct (obj_cb o); [|done..]. by apply lookup_delete_is_Some in Hp as [_ ?]. }
      destruct (mr_data _ _ R p Hp') as (o' & Ho' & Hc). rewrite Ep, Ho in Ho'. injection Ho' as <-. rewrite Hc in Hp.
      by apply lookup_delete_is_Some in Hp as [? _]. }
    rewrite Hdata in Hp by done. destruct (mr_data _ _ R p Hp) as (o' & Ho' & Hc). exists o'. by rewrite lookup_delete_ne.
  - intros a' Ha'. destruct (mr_fresh _ _ R a' Ha') as (_ & He & Hs). split; [by apply lookup_delete_None; right|].
    destruct (obj_cb o); [apply lookup_delete_None; by right|done..].
Qed.

(** A new entity, in an empty place. *)
Definition new_cb (b : bearer) (a : Z) (cb : callbacks) (k : kind) : Prop :=
  match cb, k with
  | CbSrb0 p, KSrb0 d => b = Srb 0 /\ p = next_addr m /\ a = p + 1
  | CbUm v, KUm | CbAm v, KAm => b <> Srb 0 /\ v = u /\ a = next_addr m
  | _, _ => False
  end.

Definition new_data (cb : callbacks) (k : kind) : gmap Z srb0_data :=
  match cb, k with CbSrb0 p, KSrb0 d => <[p := d]> (srb0_heap m) | _, _ => srb0_heap m end.

Lemma new_data_old b a cb k p : new_cb b a cb k -> p < next_addr m -> new_data cb k !! p = srb0_heap m !! p.
Proof.
  unfold new_cb, new_data. destruct cb, k; try done. intros (_ & -> & _) Hp. apply lookup_insert_ne. lia.
Qed.

Lemma new_data_cases b a cb k p : new_cb b a cb k -> is_Some (new_data cb k !! p) ->
  (a = p + 1 /\ cb = CbSrb0 p) \/ is_Some (srb0_heap m !! p).
Proof.
  unfold new_cb, new_data. destruct cb as [q|q|q], k; try done; try (by right). intros (_ & -> & ->) [<-|]%lookup_insert_is_Some'; [by left|by right].
Qed.

Lemma new_cb_addr b a cb k : new_cb b a cb k -> next_addr m <= a.
Proof. unfold new_cb. destruct cb, k; try done; intros (_ & -> & ->); lia. Qed.

Lemma old_entity a : is_Some (entity_heap m !! a) -> a < next_addr m.
Proof.
  intros Ha. destruct (Z_lt_le_dec a (next_addr m)) as [|Hle]; [done|]. destruct (mr_fresh _ _ R a Hle) as (_ & He & _).
  rewrite He in Ha. by destruct Ha.
Qed.

Lemma add_ok b a e cb k : slot ue b = None -> is_bearer b = true -> new_cb b a cb k ->
  mgr_rel (m <| srb0_heap := new_data cb k |> <| entity_heap := <[a := mk_obj e cb]> (entity_heap m) |>
             <| next_addr := a + 1 |> <| ue_heap := <[u := put_slot ue b (Some a)]> (ue_heap m) |>)
    (spec_put s (ue_id ue) au b (e, k)).
Proof.
  intros Hb Hv Hc. unfold spec_put. destruct (lookup_ue _ _ _ _ R Hu) as [_ [H1 H2 H3 H4]]. pose proof (new_cb_addr _ _ _ _ Hc) as Ha.
  destruct (put_slot_frame ue b (Some a) H1) as (F1 & F2 & F3 & F4).
  destruct (mr_fresh _ _ R a Ha) as (_ & Hn & _).
  assert (forall b' a', slot ue b' = Some a' -> a' < next_addr m) as Hold.
  { intros b' a' Hb'. by destruct (slot_owned _ _ _ _ _ _ R Hu Hb') as (_ & _ & _ & _ & _ & ?). }
  eapply (update_ue_same m s u ue _ (put_slot ue b (Some a))); [exact R|exact Hu| |done]. split; field_simpl; try done.
  - split; field_simpl; try congruence. intros b'. specialize (H2 b'). unfold slot_rel in *. field_simpl. rewrite slot_put by done.
    case_decide as Hd.
    + subst b'. rewrite !lookup_insert_eq. eexists _, k. split_and!; try done. unfold cb_rel, new_cb, new_data in *. field_simpl.
      destruct cb, k; try done; cbn [obj_cb]; naive_solver (rewrite ?lookup_insert_eq; done).
    + destruct (slot ue b') as [a'|] eqn:Eb'; [|by rewrite lookup_insert_ne].
      pose proof (Hold _ _ Eb'). rewrite !lookup_insert_ne by (done || lia).
      destruct H2 as (o' & k' & Ho' & Hk & Ha'). exists o', k'. split_and!; try done. unfold cb_rel in *. field_simpl.
      destruct (obj_cb o') as [p|p|p] eqn:Ep, k' as [d| |]; try done. destruct Hk as [-> Hd0]. split; [done|].
      rewrite (new_data_old b a); [done|done|]. pose proof (mr_pair _ _ R a' o' p Ho' Ep). lia.
  - lia.
  - intros a' _ Hlt. apply lookup_insert_ne. lia.
  - intros a' [<-|Ha']%lookup_insert_is_Some'; [left; exists b; rewrite slot_put by done; by rewrite decide_True|].
    destruct (owned_or_not a' Ha') as [[b' Hb']|]; [left|by right]. exists b'. rewrite slot_put by done. case_decide; [congruence|done].
  - intros b1 b2 a'. rewrite !slot_put by done. do 2 case_decide; try congruence.
    + intros [= <-] Hb'. pose proof (Hold _ _ Hb'). lia.
    + intros Hb' [= <-]. pose proof (Hold _ _ Hb'). lia.
    + apply slot_inj.
  - intros b' a'. rewrite slot_put by done. case_decide; [intros [= <-]; by right|eauto].
  - intros p _ Hp. by apply (new_data_old b a).
  - intros b' a' o' p _. rewrite lookup_insert. case_decide as Hd.
    + intros [= <-] Hp. subst a'. cbn in Hp. subst cb. unfold new_cb in Hc. destruct k; try done. by destruct Hc as (_ & _ & ?).
    + by apply (mr_pair _ _ R).
  - intros p Hp. destruct (new_data_cases _ _ _ _ _ Hc Hp) as [[-> ->]|Hp'].
    + rewrite lookup_insert_eq. by eexists.
    + destruct (mr_data _ _ R p Hp') as (o' & Ho' & Hcb). exists o'. rewrite lookup_insert_ne; [done|].
      pose proof (old_entity (p + 1) ltac:(eauto)). lia.
  - intros a' Ha'. destruct (mr_fresh _ _ R a' ltac:(lia)) as (_ & He & Hs). rewrite lookup_insert_ne by lia. split; [done|].
    unfold new_data, new_cb in *. destruct cb, k; try done. rewrite lookup_insert_ne by lia. done.
Qed.

(** A UE without entities is removed. *)
Lemma remove_ok i : (forall b, slot ue b = None) -> ue_list m !! i = Some u ->
  mgr_rel (m <| ue_heap := delete u (ue_heap m) |> <| ue_list := delete i (ue_list m) |>)
    (s <| a_ues := delete (ue_id ue) (a_ues s) |>).
Proof.
  intros Hn Hi. pose proof (delete_Permutation _ _ _ Hi) as Hp. pose proof (mr_nodup _ _ R) as Hnd.
  rewrite Hp in Hnd. apply NoDup_cons in Hnd as [Hnu Hnd].
  assert (forall v, v ∈ ue_list m <-> v = u \/ v ∈ delete i (ue_list m)) as Hel by (intros v; rewrite Hp at 1; apply elem_of_cons).
  split; field_simpl.
  - apply (mr_enb _ _ R).
  - apply (mr_clock _ _ R).
  - exact Hnd.
  - intros v. rewrite lookup_delete_is_Some, <- (mr_list _ _ R), Hel. split.
    + intros Hv. split; [|by right]. by intros ->.
    + intros [Hne [->|Hv]]; [by destruct Hne|done].
  - intros v w ve we [_ Hv]%lookup_delete_Some [_ Hw]%lookup_delete_Some. by apply (mr_ids _ _ R).
  - intros v ve [Hne Hv]%lookup_delete_Some. destruct (lookup_ue _ _ _ _ R Hv) as [H1 [H2 H3 H4 H5]]. exists (spec_ue s (ue_id ve)).
    field_simpl. rewrite lookup_delete_ne; [by split_and!|]. intros Eq. apply Hne. by apply (mr_ids _ _ R u v ue ve).
  - intros id. field_simpl. intros [Hne (v & ve & Hv & Hve)%(mr_known _ _ R)]%lookup_delete_is_Some. exists v, ve.
    rewrite lookup_delete_ne; [done|]. intros <-. congruence.
  - intros a (v & ve & b & Hv & Hb)%(mr_owner _ _ R). exists v, ve, b. rewrite lookup_delete_ne; [done|].
    intros <-. assert (ve = ue) as -> by congruence. by rewrite Hn in Hb.
  - intros v w ve we b b' a [_ Hv]%lookup_delete_Some [_ Hw]%lookup_delete_Some. by apply (mr_inj _ _ R).
  - apply (mr_pair _ _ R).
  - apply (mr_data _ _ R).
  - intros a Ha. destruct (mr_fresh _ _ R a Ha) as (H1 & H2 & H3). split_and!; [|done|done]. apply lookup_delete_None. by right.
Qed.

(** A new identifier, which no other UE has. *)
Lemma rename_ok id : id = ue_id ue \/ a_ues s !! id = None ->
  mgr_rel (set_ue m u (ue <| ue_id := id |>)) (s <| a_ues := <[id := au]> (delete (ue_id ue) (a_ues s)) |>).
Proof.
  intros Hid. assert (forall b, slot (ue <| ue_id := id |>) b = slot ue b) as Hs by (intros [i|i]; cbn [slot]; by field_simpl).
  pose proof (update_ue m s u ue (set_ue m u (ue <| ue_id := id |>)) (ue <| ue_id := id |>) au R Hu) as Hupd. field_simpl_all.
  apply Hupd; [|done]. destruct (lookup_ue _ _ _ _ R Hu) as [_ [H1 H2 H3 H4]]. unfold set_ue. split; field_simpl; try done.
  - intros a Ha. destruct (owned_or_not a Ha) as [[b Hbo]|]; [left; exists b; by rewrite Hs|by right].
  - intros b b' a. rewrite !Hs. apply slot_inj.
  - intros b a. rewrite Hs. eauto.
  - intros b a o p _. apply (mr_pair _ _ R).
  - apply (mr_data _ _ R).
  - intros a Ha. by destruct (mr_fresh _ _ R a Ha) as (_ & ? & ?).
Qed.

End Known.

End Rel.
