(* ===== verification/RlcManagerMain.v ===== *)
(** * The RLC of all UEs does what its specification does

    Each function of RlcManager.v against that of RlcManagerSpec.v of the same
    purpose: the same result, the same calls of other layers, the same faults. *)

From S2P Require Import Prelude TimeStat RlcSdu RlcEntity RlcTm RlcUm RlcAm RlcBearer RlcManager RlcManagerSpec RlcManagerRel.

(** ** The bearer of an entity *)

Lemma zget_at {A} (x : A) l i : zget (x :: l) i = if i =? 0 then Some x else zget l (i - 1).
Proof.
  unfold zget. destruct (i =? 0) eqn:E0; zify_bool; [by subst|].
  destruct (0 <=? i) eqn:E1, (0 <=? i - 1) eqn:E2; zify_bool; try done; try lia.
  by replace (Z.to_nat i) with (S (Z.to_nat (i - 1))) by lia.
Qed.

Lemma index_of_ok a l : match index_of a l with
  | Some i => 0 <= i /\ zget l i = Some (Some a)
  | None => forall i, zget l i <> Some (Some a) end.
Proof.
  induction l as [|p l IH]; cbn [index_of].
  - intros i. unfold zget. by destruct (0 <=? i).
  - case_decide as Hp; [by subst|]. destruct (index_of a l) as [i|]; cbn [fmap option_fmap option_map].
    + destruct IH as [H0 Hi]. split; [lia|]. rewrite zget_at, (proj2 (Z.eqb_neq _ _)) by lia.
      by replace (Z.succ i - 1) with i by lia.
    + intros i. rewrite zget_at. destruct (i =? 0); [congruence|done].
Qed.

Lemma slot_srb ue i a : i <> 0 -> slot ue (Srb i) = Some a <-> zget (srb ue) (i - 1) = Some (Some a).
Proof.
  intros Hi. cbn [slot]. rewrite (proj2 (Z.eqb_neq _ _)) by done. destruct (zget _ _) as [[?|]|]; cbn; naive_solver.
Qed.

Lemma slot_drb ue i a : slot ue (Drb i) = Some a <-> zget (drb ue) (i - 1) = Some (Some a).
Proof. cbn [slot]. destruct (zget _ _) as [[?|]|]; cbn; naive_solver. Qed.

Lemma zget_take {A} (l : list A) n i x : zget (take n l) i = Some x <-> zget l i = Some x /\ i < Z.of_nat n.
Proof.
  unfold zget. destruct (0 <=? i) eqn:E0; [|naive_solver]. zify_bool. rewrite lookup_take_Some. naive_solver lia.
Qed.

Definition rb_number (b : bearer) : bool * Z := match b with Srb i => (true, i) | Drb i => (false, i) end.

(** An SRB that is not among the first [n]. *)
Definition beyond (n : nat) (b : bearer) : bool := match b with Srb i => Z.of_nat n <? i | Drb _ => false end.

Lemma rb_of_entity_ok ue n a b : (forall b b', slot ue b = Some a -> slot ue b' = Some a -> b = b') ->
  slot ue b = Some a -> b <> Srb 0 -> shape ue -> (n <= 3)%nat ->
  rb_of_entity ue n a = if beyond n b then Fault Exit else Ok (rb_number b).
Proof.
  intros Hinj Hb H0 Hsh Hn. pose proof (slot_bearer _ _ _ Hsh Hb) as Hv. unfold rb_of_entity.
  pose proof (index_of_ok a (take n (srb ue))) as Hs. pose proof (index_of_ok a (drb ue)) as Hd.
  destruct (index_of a (take n (srb ue))) as [i|].
  - destruct Hs as [Hi [Hs Hlt]%(zget_take (srb ue))].
    assert (b = Srb (i + 1)) as -> by (apply (Hinj b (Srb (i + 1)) Hb), slot_srb; [lia|]; by replace (i + 1 - 1) with i by lia).
    cbn [beyond]. rewrite (proj2 (Z.ltb_ge _ _)) by lia. done.
  - assert (forall j, b = Srb j -> Z.of_nat n < j) as Hsrb.
    { intros j ->. destruct (Z_lt_le_dec (Z.of_nat n) j) as [|Hle]; [done|]. exfalso. apply (Hs (j - 1)), zget_take.
      assert (j <> 0) as Hj by congruence. split; [by apply slot_srb|lia]. }
    destruct (index_of a (drb ue)) as [i|].
    + destruct Hd as [Hi Hd]. assert (b = Drb (i + 1)) as -> by (apply (Hinj b (Drb (i + 1)) Hb), slot_drb; by replace (i + 1 - 1) with i by lia).
      done.
    + destruct b as [j|j]; [cbn [beyond]; by rewrite (proj2 (Z.ltb_lt _ _)) by (by apply Hsrb)|].
      exfalso. apply (Hd (j - 1)). by apply slot_drb.
Qed.

Section Sim.
Context {E : Type} `{RlcEntity E}.
Implicit Types (m : @manager E) (s : @astate E) (o : @entity_obj E).

(** ** Calls of entities *)

Section Known.
Context m s u ue (R : mgr_rel m s) (Hu : ue_heap m !! u = Some ue).
Notation au := (spec_ue s (ue_id ue)).

Lemma callback_ok nd b a o k ev : slot ue b = Some a -> entity_heap m !! a = Some o -> cb_rel m u b (obj_cb o) k ->
  callback nd m a (obj_cb o) ev = spec_callback nd s (ue_id ue) au b k ev.
Proof.
  intros Hb Ho Hk. destruct (lookup_ue _ _ _ _ R Hu) as [_ [Hsh _ _ Hrlf]].
  pose proof (fun n => rb_of_entity_ok ue n a b (fun b1 b2 => slot_inj m s u ue R Hu b1 b2 a) Hb) as Hrb.
  pose proof (slot_bearer _ _ _ Hsh Hb) as Hv.
  assert (forall n, (3 <= n)%nat -> beyond n b = false) as Hbeyond by (intros n Hn; destruct b as [i|i]; [|done]; cbn in *; zify_bool; apply Z.ltb_ge; lia).
  assert (beyond 2 b = if decide (b = Srb 3) then true else false) as Hbeyond2.
  { unfold beyond. destruct b as [i|i]; [|done]. cbn in Hv. case_decide as Hd; simplify_eq; [done|].
    zify_bool. assert (i <> 3) by (by intros ->). apply Z.ltb_ge. lia. }
  unfold callback, spec_callback, cb_rel in *.
  destruct ev as [buf|id|], (obj_cb o) as [p|v|v], k as [d| |]; try done; destruct Hk as [Hb0 Hk].
  - unfold deliver_sdu_srb0. by rewrite Hk.
  - subst v. unfold deliver_sdu, get_ue_obj. rewrite Hu. cbn [of_option mbind outcome_bind]. rewrite Hrb by (done || lia).
    rewrite (Hbeyond 3%nat), (mr_enb _ _ R) by lia. by destruct b.
  - subst v. unfold deliver_sdu, get_ue_obj. rewrite Hu. cbn [of_option mbind outcome_bind]. rewrite Hrb by (done || lia).
    rewrite (Hbeyond 3%nat), (mr_enb _ _ R) by lia. by destruct b.
  - subst v. unfold successful_delivery, get_ue_obj. rewrite Hu. cbn [of_option mbind outcome_bind]. rewrite Hrb by (done || lia).
    rewrite Hbeyond2. by case_decide.
  - subst v. unfold max_retx_reached, get_ue_obj. rewrite Hu. cbn [of_option mbind outcome_bind]. rewrite Hrb by (done || lia).
    rewrite Hbeyond2, Hrlf. by case_decide.
Qed.

Lemma run_callbacks_ok nd b a o k evs : slot ue b = Some a -> entity_heap m !! a = Some o -> cb_rel m u b (obj_cb o) k ->
  run_callbacks nd m a (obj_cb o) evs = spec_callbacks nd s (ue_id ue) au b k evs.
Proof.
  intros Hb Ho Hk. induction evs as [|ev evs IH]; cbn [run_callbacks spec_callbacks]; [done|].
  by rewrite (callback_ok nd b a o k ev), IH.
Qed.

Lemma call_ok_known {X} nd b (none : outcome X) (f : E -> outcome (X * E)) :
  same (match slot ue b with Some a => call_entity nd m a f | None => r ← none; Ok (r, [], m) end)
    (spec_call nd s (ue_id ue) (Some b) none f).
Proof.
  destruct (lookup_ue _ _ _ _ R Hu) as [Ha [Hsh Hs _ _]]. unfold spec_call. rewrite touch_known by (rewrite Ha; by eexists).
  specialize (Hs b). unfold slot_rel in Hs. cbn [mbind option_bind]. destruct (slot ue b) as [a|] eqn:Hb.
  - destruct Hs as (o & k & Ho & Hk & Hab). unfold call_entity, get_obj. rewrite Ho, Hab. cbn [of_option fmap option_fmap option_map mbind outcome_bind].
    destruct (f (obj_entity o)) as [[r e]|]; [|done]. cbn [mbind outcome_bind]. rewrite (run_callbacks_ok nd b a o k) by done.
    destruct (spec_callbacks _ _ _ _ _ _ _) as [outs|]; [|done]. cbn [mbind outcome_bind]. split; [done|].
    by eapply set_entity_ok.
  - rewrite Hs. cbn [fmap option_fmap option_map]. by destruct none as [r|].
Qed.

End Known.

(** The UE that a call names. *)
Lemma with_ue {A B} (Q : A -> B -> Prop) m s id (k : Z -> manager -> nr_rlc_ue_t -> outcome A) (k' : outcome B) :
  mgr_rel m s ->
  (forall u ue m', ue_heap m' !! u = Some ue -> ue_id ue = id -> mgr_rel m' (touch s id) -> clock m' = a_clock s ->
     ue_rel m' u ue (spec_ue s id) -> related Q (k u m' ue) k') ->
  related Q ('(u, m) ← nr_rlc_manager_get_ue m id; ue ← get_ue_obj m u; k u m ue) k'.
Proof.
  intros R Hk. destruct (get_ue_ok m s id R) as (u & ue & m' & Hg & Hu & Hid & R' & Hc). rewrite Hg. cbn [mbind outcome_bind].
  unfold get_ue_obj. rewrite Hu. cbn [of_option mbind outcome_bind]. apply Hk; try done; [by rewrite Hc, (mr_clock _ _ R)|].
  destruct (lookup_ue _ _ _ _ R' Hu) as [_ Hr]. rewrite Hid in Hr. unfold spec_ue, touch, spec_set in Hr. field_simpl_in Hr.
  by rewrite lookup_insert_eq in Hr.
Qed.

Lemma spec_ue_touch s id : spec_ue (touch s id) id = spec_ue s id.
Proof. unfold touch, spec_set. unfold spec_ue at 1. field_simpl. by rewrite lookup_insert_eq. Qed.

Lemma touch_twice s id : touch (touch s id) id = touch s id.
Proof. apply touch_known. unfold touch, spec_set. field_simpl. rewrite lookup_insert_eq. by eexists. Qed.

Lemma spec_set_touch s id au : spec_set (touch s id) id au = spec_set s id au.
Proof. unfold touch, spec_set. destruct s. unfold upd. cbn. f_equal. apply insert_insert_eq. Qed.

Lemma spec_call_touch {X} nd s id b (none : outcome X) (f : E -> outcome (X * E)) :
  spec_call nd (touch s id) id b none f = spec_call nd s id b none f.
Proof.
  unfold spec_call. rewrite spec_ue_touch, touch_twice. destruct (b ≫= _) as [[b' [e k]]|]; done.
Qed.

(** A bearer that may not be named. *)
Lemma call_bearer_ok {X} nd m s u ue b (p : option Z) (none : outcome X) (f : E -> outcome (X * E)) :
  mgr_rel m (touch s (ue_id ue)) -> ue_heap m !! u = Some ue -> p = b ≫= slot ue ->
  same (match p with Some a => call_entity nd m a f | None => r ← none; Ok (r, [], m) end)
    (spec_call nd s (ue_id ue) b none f).
Proof.
  intros R Hu ->. rewrite <- spec_call_touch. destruct b as [b|]; [by apply (call_ok_known m _ u)|].
  unfold spec_call. rewrite touch_twice. cbn [mbind option_bind]. by destruct none.
Qed.

Lemma zget_shape {A} (l : list A) i n : length l = n -> zget l i = None \/ 0 <= i < Z.of_nat n.
Proof.
  intros <-. unfold zget. destruct (0 <=? i) eqn:E0; [|by left]. destruct (l !! Z.to_nat i) eqn:El; [|by left].
  apply lookup_lt_Some in El. right. lia.
Qed.

Lemma zget_in {A} (l : list A) i n : length l = n -> is_Some (zget l i) <-> 0 <= i < Z.of_nat n.
Proof.
  intros <-. unfold zget. destruct (0 <=? i) eqn:E0; zify_bool; rewrite ?lookup_lt_is_Some; [lia|].
  split; [by intros []|lia].
Qed.

Lemma srb_slot ue i : shape ue ->
  of_option OutOfBounds (zget (srb ue) (i - 1)) = (_ ← require ((1 <=? i) && (i <=? 3)) OutOfBounds; Ok (slot ue (Srb i))).
Proof.
  intros [Hs _]. pose proof (zget_in (srb ue) (i - 1) 3 Hs) as Hi. cbn [slot]. destruct ((1 <=? i) && (i <=? 3)) eqn:Eb; zify_bool.
  - destruct (proj2 Hi ltac:(lia)) as [p Hp]. rewrite (proj2 (Z.eqb_neq _ _)), Hp by lia. by destruct p.
  - destruct (zget (srb ue) (i - 1)); [|done]. exfalso. assert (0 <= i - 1 < Z.of_nat 3) by (apply Hi; by eexists). lia.
Qed.

Lemma drb_slot ue i : shape ue ->
  of_option OutOfBounds (zget (drb ue) (i - 1)) = (_ ← require (is_bearer (Drb i)) OutOfBounds; Ok (slot ue (Drb i))).
Proof.
  intros [_ Hd]. pose proof (zget_in (drb ue) (i - 1) _ Hd) as Hi. unfold MAX_DRBS_PER_UE in *. cbn [slot is_bearer]. unfold MAX_DRBS_PER_UE.
  destruct ((1 <=? i) && (i <=? 32)) eqn:Eb; zify_bool.
  - destruct (proj2 Hi ltac:(lia)) as [p Hp]. rewrite Hp. by destruct p.
  - destruct (zget (drb ue) (i - 1)); [|done]. exfalso. assert (0 <= i - 1 < Z.of_nat (Z.to_nat 32)) by (apply Hi; by eexists). lia.
Qed.

(** The entity of a channel is that of its bearer. *)
Lemma channel_ok m u ue au ch : ue_rel m u ue au ->
  get_rlc_entity_from_lcid ue ch = (b ← bearer_of_channel au ch; Ok (b ≫= slot ue)).
Proof.
  intros [Hsh _ Hl _]. unfold get_rlc_entity_from_lcid, bearer_of_channel, get_rb. destruct (ch =? 0); [done|]. rewrite Hl.
  destruct (zget (lcid2rb ue) (ch - 1)) as [rb|]; [|done]. cbn [of_option mbind outcome_bind]. unfold rb_of_entry.
  destruct (rb_type rb); [done| |].
  - rewrite srb_slot by done. by destruct (_ && _).
  - rewrite drb_slot by done. by destruct (is_bearer _).
Qed.

Lemma on_channel_ok {X} nd m s id ch (none : X) f f' : mgr_rel m s ->
  (forall m', clock m' = a_clock s -> f m' = f') ->
  same (on_channel nd m id ch none f) (spec_channel nd s id ch (Ok none) f').
Proof.
  intros R Hf. unfold on_channel, spec_channel. apply (with_ue _ m s); [done|]. intros u ue m' Hu <- R' Hc Hr.
  rewrite (channel_ok _ _ _ _ _ Hr). destruct (bearer_of_channel _ _) as [b|]; [|done]. cbn [mbind outcome_bind].
  pose proof (call_bearer_ok nd m' s u ue b _ (Ok none) f' R' Hu eq_refl) as Hcall.
  destruct (b ≫= slot ue); [by rewrite (Hf m' Hc)|exact Hcall].
Qed.

Lemma at_time_eq {X} m s (f : E -> outcome (X * E)) : clock m = a_clock s -> at_time m f = spec_at_time s f.
Proof. intros Hc. unfold at_time, spec_at_time. by rewrite Hc. Qed.

Lemma numbered_slot ue is_srb rb_id last : shape ue -> last <= MAX_DRBS_PER_UE ->
  rb_of_pdcp ue is_srb rb_id last = Ok (numbered is_srb rb_id last ≫= slot ue).
Proof.
  intros Hsh Hl. unfold rb_of_pdcp, numbered. destruct is_srb.
  - destruct ((1 <=? rb_id) && (rb_id <=? 2)) eqn:Eb; [|done]. rewrite srb_slot by done.
    destruct ((1 <=? rb_id) && (rb_id <=? 3)) eqn:Eb'; [done|]. zify_bool. lia.
  - destruct ((1 <=? rb_id) && (rb_id <=? last)) eqn:Eb; [|done]. rewrite drb_slot by done.
    destruct (is_bearer (Drb rb_id)) eqn:Eb'; [done|]. cbn in Eb'. zify_bool. lia.
Qed.

(** ** Setting up and releasing *)

Lemma zset_slot_srb ue i p : shape ue -> 1 <= i <= 3 ->
  exists l, zset (srb ue) (i - 1) p = Some l /\ ue <| srb := l |> = put_slot ue (Srb i) p.
Proof.
  intros [Hs _] Hi. unfold zset, zlen. rewrite Hs, (proj2 (Z.leb_le _ _)), (proj2 (Z.ltb_lt _ _)) by lia. cbn [andb].
  eexists. split; [done|]. cbn [put_slot]. by rewrite (proj2 (Z.eqb_neq _ _)) by lia.
Qed.

Lemma zset_slot_drb ue i p : shape ue -> is_bearer (Drb i) = true ->
  exists l, zset (drb ue) (i - 1) p = Some l /\ ue <| drb := l |> = put_slot ue (Drb i) p.
Proof.
  intros [_ Hd] Hi. cbn in Hi. unfold MAX_DRBS_PER_UE in *. zify_bool. unfold zset, zlen.
  rewrite Hd, (proj2 (Z.leb_le _ _)), (proj2 (Z.ltb_lt _ _)) by lia. cbn [andb]. eexists. by split.
Qed.

Definition without_data m (cb : callbacks) : gmap Z srb0_data :=
  match cb with CbSrb0 p => delete p (srb0_heap m) | _ => srb0_heap m end.

(** One bearer: [ue] is the UE without the bearers freed before. *)
Lemma free_step m s u ue b a : mgr_rel (set_ue m u ue) s -> slot ue b = Some a ->
  exists o k, entity_heap m !! a = Some o /\ cb_rel m u b (obj_cb o) k /\
    a_bearers (spec_ue s (ue_id ue)) !! b = Some (obj_entity o, k) /\
    mgr_rel (set_ue (m <| srb0_heap := without_data m (obj_cb o) |> <| entity_heap := delete a (entity_heap m) |>) u (put_slot ue b None))
      (spec_drop s (ue_id ue) (spec_ue s (ue_id ue)) b).
Proof.
  intros R Hb. assert (ue_heap (set_ue m u ue) !! u = Some ue) as Hu by (unfold set_ue; field_simpl; apply lookup_insert_eq).
  destruct (slot_owned _ _ _ _ _ _ R Hu Hb) as (o & k & Ho & Hk & Ha & _). exists o, k. split_and!; try done.
  pose proof (drop_ok _ _ _ _ R Hu b a o Hb Ho) as R'. unfold set_ue in *. field_simpl_in R'.
  rewrite insert_insert_eq in R'. destruct m. exact R'.
Qed.

Lemma free_entity_ok m s u ue b a : mgr_rel (set_ue m u ue) s -> slot ue b = Some a -> b <> Srb 0 ->
  related (fun m' s' => mgr_rel (set_ue m' u (put_slot ue b None)) s' /\ ue_heap m' = ue_heap m /\ ue_list m' = ue_list m)
    (free_entity m a) (spec_free s (ue_id ue) b).
Proof.
  intros R Hb H0. destruct (free_step _ _ _ _ _ _ R Hb) as (o & k & Ho & Hk & Ha & R'). unfold free_entity, get_obj, spec_free.
  rewrite Ho, Ha. cbn [of_option mbind outcome_bind]. destruct (delete_entity _) as [h|]; [|done]. cbn [mbind outcome_bind].
  unfold without_data in R'. split; [|by split; field_simpl]. unfold cb_rel in Hk. destruct (obj_cb o), k; try done; [by destruct Hk|..]; by destruct m.
Qed.

Lemma free_srb0_ok m s u ue a : mgr_rel (set_ue m u ue) s -> srb0 ue = Some a ->
  related (fun m' s' => mgr_rel (set_ue m' u (put_slot ue (Srb 0) None)) s' /\ ue_heap m' = ue_heap m /\ ue_list m' = ue_list m)
    (free_srb0 m a) (spec_free s (ue_id ue) (Srb 0)).
Proof.
  intros R Hb. destruct (free_step _ _ _ _ (Srb 0) _ R Hb) as (o & k & Ho & Hk & Ha & R'). unfold free_srb0, get_obj, spec_free.
  rewrite Ho, Ha. cbn [of_option mbind outcome_bind]. unfold cb_rel in Hk. destruct (obj_cb o) as [p|p|p] eqn:Ep, k; try done; try (by destruct Hk).
  destruct Hk as [_ Hp]. rewrite Hp. cbn [of_option mbind outcome_bind]. unfold free_entity, get_obj. field_simpl. rewrite Ho.
  cbn [of_option mbind outcome_bind]. destruct (delete_entity _) as [h|]; [|done]. cbn [mbind outcome_bind].
  split; [|by split; field_simpl]. unfold without_data in R'. by destruct m.
Qed.

Lemma spec_free_none s id b : a_bearers (spec_ue s id) !! b = None -> spec_free s id b = Ok s.
Proof. intros Hb. unfold spec_free. by rewrite Hb. Qed.

Lemma slot_none m s u ue b : mgr_rel (set_ue m u ue) s -> slot ue b = None -> a_bearers (spec_ue s (ue_id ue)) !! b = None.
Proof.
  intros R Hb. assert (ue_heap (set_ue m u ue) !! u = Some ue) as Hu by (unfold set_ue; field_simpl; apply lookup_insert_eq).
  destruct (lookup_ue _ _ _ _ R Hu) as [_ [_ Hs _ _]]. specialize (Hs b). unfold slot_rel in Hs. by rewrite Hb in Hs.
Qed.

Lemma set_ue_shape m s u ue : mgr_rel (set_ue m u ue) s -> shape ue.
Proof.
  intros R. assert (ue_heap (set_ue m u ue) !! u = Some ue) as Hu by (unfold set_ue; field_simpl; apply lookup_insert_eq).
  by destruct (lookup_ue _ _ _ _ R Hu) as [_ [? _ _ _]].
Qed.

(** What [free_entities] leaves: the bearers [bs] of [ue] are gone. *)
Definition freed m u ue (bs : list bearer) m' s' : Prop :=
  ue_heap m' = ue_heap m /\ ue_list m' = ue_list m /\ exists ue', mgr_rel (set_ue m' u ue') s' /\ ue_id ue' = ue_id ue /\
    forall b, slot ue' b = if decide (b ∈ bs) then None else slot ue b.

(** The first bearer, then the others. *)
Lemma freed_cons m1 u ue m b bs m' s' p : shape ue -> slot ue b = p -> b ∉ bs ->
  ue_heap m1 = ue_heap m -> ue_list m1 = ue_list m ->
  freed m1 u (match p with Some _ => put_slot ue b None | None => ue end) bs m' s' -> freed m u ue (b :: bs) m' s'.
Proof.
  intros Hsh Hp Hnot Hh Hl (G1 & G2 & ue' & R & Hid & Hs). split_and!; [congruence..|]. exists ue'.
  destruct (put_slot_frame ue b None Hsh) as (_ & Hid' & _). split_and!; [done|by destruct p; congruence|].
  intros b'. rewrite Hs. destruct (decide (b' = b)) as [->|Hne].
  - rewrite decide_False by done. rewrite decide_True by left. destruct p; [|done].
    rewrite slot_put, decide_True; [done..|]. by eapply slot_bearer.
  - assert (slot (match p with Some _ => put_slot ue b None | None => ue end) b' = slot ue b') as ->.
    { destruct p; [|done]. rewrite slot_put, decide_False; [done|congruence|done|]. by eapply slot_bearer. }
    destruct (decide (b' ∈ bs)) as [Hin|Hin]; [by rewrite decide_True by (by right)|].
    rewrite decide_False; [done|]. by intros [->|]%elem_of_cons.
Qed.

Lemma free_entities_ok (mk : Z -> bearer) u l m s ue start : (forall i, start <= i -> mk i <> Srb 0) -> (forall i j, mk i = mk j -> i = j) ->
  mgr_rel (set_ue m u ue) s -> (forall i p, zget l i = Some p -> slot ue (mk (start + i)) = p) ->
  related (freed m u ue (mk <$> seqZ start (zlen l))) (free_entities m l) (spec_free_all s (ue_id ue) (mk <$> seqZ start (zlen l))).
Proof.
  intros H0 Hinj. revert m s ue start H0. induction l as [|p l IH]; intros m s ue start H0 R Hl.
  { cbn [free_entities]. split_and!; [done..|]. exists ue. by split_and!. }
  rewrite zlen_cons. pose proof (zlen_nonneg l). rewrite seqZ_cons by lia. replace (Z.pred (zlen l + 1)) with (zlen l) by lia.
  replace (Z.succ start) with (start + 1) by lia. cbn [fmap list_fmap free_entities spec_free_all].
  assert (slot ue (mk start) = p) as Hp by (rewrite <- (Hl 0 p); [f_equal; f_equal; lia|by rewrite zget_at]).
  assert (forall i q, zget l i = Some q -> 0 <= i /\ slot ue (mk (start + 1 + i)) = q) as Hl'.
  { intros i q Hi. assert (0 <= i) by (unfold zget in Hi; destruct (0 <=? i) eqn:E0; [lia|done]). split; [done|].
    rewrite <- (Hl (i + 1) q); [f_equal; f_equal; lia|]. rewrite zget_at, (proj2 (Z.eqb_neq _ _)) by lia.
    by replace (i + 1 - 1) with i by lia. }
  pose proof (set_ue_shape _ _ _ _ R) as Hsh. assert (mk start ∉ mk <$> seqZ (start + 1) (zlen l)) as Hnot.
  { intros (j & Eq%Hinj & Hj%elem_of_seqZ)%list_elem_of_fmap. lia. }
  set (ue1 := match p with Some _ => put_slot ue (mk start) None | None => ue end).
  assert (ue_id ue1 = ue_id ue) as Hid by (destruct (put_slot_frame ue (mk start) None Hsh) as (_ & ? & _); by destruct p).
  apply (related_bind (fun m1 s1 => mgr_rel (set_ue m1 u ue1) s1 /\ ue_heap m1 = ue_heap m /\ ue_list m1 = ue_list m)).
  - destruct p as [a|]; [apply (free_entity_ok m s u ue (mk start) a); [done..|]; by apply H0|].
    by rewrite (spec_free_none s (ue_id ue)) by (by eapply slot_none).
  - intros m1 s1 (R1 & Hh1 & Hl1). rewrite <- Hid. eapply related_mono; [apply IH; [intros i Hi; apply H0; lia|done|]|].
    + intros i q Hi. destruct (Hl' i q Hi) as [Hi0 Hq]. unfold ue1. destruct p; [|done]. rewrite slot_put; [|done|by eapply slot_bearer].
      rewrite decide_False; [done|]. intros Eq%Hinj. lia.
    + intros m2 s2. by apply freed_cons.
Qed.

Lemma spec_free_all_app s id l1 l2 : spec_free_all s id (l1 ++ l2) = (s ← spec_free_all s id l1; spec_free_all s id l2).
Proof.
  revert s. induction l1 as [|b l1 IH]; intros s; cbn [app spec_free_all]; [done|].
  destruct (spec_free s id b) as [s1|f]; [|done]. cbn [mbind outcome_bind]. apply IH.
Qed.

Lemma spec_free_three {X} s id b l1 l2 (k : astate -> outcome X) :
  (s ← spec_free_all s id (b :: l1 ++ l2); k s) =
  (s ← spec_free s id b; s ← spec_free_all s id l1; s ← spec_free_all s id l2; k s).
Proof.
  cbn [spec_free_all]. destruct (spec_free s id b) as [s1|]; [|done]. cbn [mbind outcome_bind]. rewrite spec_free_all_app.
  by destruct (spec_free_all s1 id l1).
Qed.

Lemma elem_all_srbs i : Srb i ∈ all_srbs <-> 1 <= i <= 3.
Proof. unfold all_srbs. rewrite list_elem_of_fmap. setoid_rewrite elem_of_seqZ. split; [intros (j & [= <-] & Hj); lia|exists i; split; [done|lia]]. Qed.
Lemma elem_all_drbs i : Drb i ∈ all_drbs <-> 1 <= i <= MAX_DRBS_PER_UE.
Proof. unfold all_drbs. rewrite list_elem_of_fmap. setoid_rewrite elem_of_seqZ. split; [intros (j & [= <-] & Hj); lia|exists i; split; [done|lia]]. Qed.

(** Everything [remove_ue] frees is all a UE has. *)
Lemma all_bearers b : is_bearer b = true -> b = Srb 0 \/ b ∈ all_srbs \/ b ∈ all_drbs.
Proof.
  destruct b as [i|i]; cbn [is_bearer]; intros Hb.
  - destruct (decide (i = 0)) as [->|]; [by left|]. right. left. apply elem_all_srbs. lia.
  - right. right. apply elem_all_drbs. lia.
Qed.

Lemma no_drb_in_srbs i : Drb i ∉ all_srbs.
Proof. unfold all_srbs. by intros (j & ? & _)%list_elem_of_fmap. Qed.

Lemma remove_ue_ok m s id : mgr_rel m s -> related mgr_rel (nr_rlc_manager_remove_ue m id) (spec_remove s id).
Proof.
  intros R. unfold nr_rlc_manager_remove_ue, spec_remove. pose proof (find_ue_ok m s id R) as Hf.
  destruct (find_ue m (ue_list m) id) as [[[i u]|]|f]; cbn [mbind outcome_bind]; [| |done].
  2: { rewrite decide_False; [done|]. rewrite Hf. by intros []. }
  destruct Hf as (Hi & ue & Hu & Hid). destruct (lookup_ue _ _ _ _ R Hu) as [Ha [Hsh _ _ _]].
  rewrite decide_True by (rewrite <- Hid, Ha; by eexists). unfold get_ue_obj. rewrite Hu. cbn [of_option mbind outcome_bind].
  rewrite spec_free_three.
  set (ue1 := match srb0 ue with Some _ => put_slot ue (Srb 0) None | None => ue end).
  destruct (put_slot_frame ue (Srb 0) None Hsh) as (_ & Hid1 & _).
  assert (ue_id ue1 = id) as Hid' by (unfold ue1; destruct (srb0 ue); congruence).
  assert (forall b, slot ue1 b = if decide (b = Srb 0) then None else slot ue b) as Hs1.
  { intros b. unfold ue1. destruct (srb0 ue) eqn:E0; [rewrite slot_put by done; by repeat case_decide|].
    case_decide; [by subst|done]. }
  assert (zlen (srb ue) = 3) as Hz by (unfold zlen; by rewrite (proj1 Hsh)).
  assert (zlen (drb ue) = MAX_DRBS_PER_UE) as Hz' by (unfold zlen; by rewrite (proj2 Hsh)).
  apply (related_bind (fun m1 s1 => mgr_rel (set_ue m1 u ue1) s1 /\ ue_heap m1 = ue_heap m /\ ue_list m1 = ue_list m)).
  { pose proof (set_ue_same m s u ue R Hu) as R0. unfold ue1. destruct (srb0 ue) as [a|] eqn:E0; [rewrite <- Hid; by apply free_srb0_ok|].
    rewrite spec_free_none; [done|]. rewrite <- Hid. by apply (slot_none m s u ue (Srb 0)). }
  intros m1 s1 (R1 & Hh1 & Hl1).
  apply (related_bind (freed m1 u ue1 all_srbs)).
  { pose proof (free_entities_ok Srb u (srb ue) m1 s1 ue1 1) as Hfree. rewrite Hz, Hid' in Hfree. apply Hfree; [|congruence|done|].
    - intros j Hj [= ->]. lia.
    - intros j p Hj. rewrite Hs1, decide_False; [|intros [= Ej]; assert (0 <= j) by (unfold zget in Hj; destruct (0 <=? j) eqn:?; [lia|done]); lia].
      cbn [slot]. assert (0 <= j) by (unfold zget in Hj; destruct (0 <=? j) eqn:?; [lia|done]). rewrite (proj2 (Z.eqb_neq _ _)) by lia.
      replace (1 + j - 1) with j by lia. by rewrite Hj; destruct p. }
  intros m2 s2 (Hh2 & Hl2 & ue2 & R2 & Hid2 & Hs2). rewrite <- Hid', <- Hid2 at 1.
  apply (related_bind (freed m2 u ue2 all_drbs)).
  { pose proof (free_entities_ok Drb u (drb ue) m2 s2 ue2 1) as Hfree. rewrite Hz' in Hfree. apply Hfree; [done|congruence|done|].
    intros j p Hj. rewrite Hs2, decide_False by apply no_drb_in_srbs. rewrite Hs1, decide_False by done. cbn [slot].
    replace (1 + j - 1) with j by lia. by rewrite Hj; destruct p. }
  intros m3 s3 (Hh3 & Hl3 & ue3 & R3 & Hid3 & Hs3).
  assert (forall b, slot ue3 b = None) as Hnone.
  { intros b. rewrite Hs3, Hs2, Hs1. repeat case_decide; try done. destruct (slot ue b) as [a|] eqn:Eb; [|done].
    apply slot_bearer, all_bearers in Eb; [|done]. naive_solver. }
  assert (ue_heap (set_ue m3 u ue3) !! u = Some ue3) as Hu3 by (unfold set_ue; field_simpl; apply lookup_insert_eq).
  pose proof (remove_ok _ _ u ue3 R3 Hu3 i Hnone) as R4. unfold set_ue in R4. field_simpl_in R4.
  rewrite delete_insert_eq in R4. assert (ue_id ue3 = id) as Eid by congruence. rewrite Eid in R4.
  cbn [related]. destruct m3. apply R4. cbn in *. congruence.
Qed.

Lemma bind_ret {X} (o : outcome X) : (x ← o; Ok x) = o.
Proof. by destruct o. Qed.

Lemma release_srb_ok m s u ue n : mgr_rel m s -> ue_heap m !! u = Some ue ->
  related mgr_rel (release_srb m u ue (n - 1)) (_ ← require ((1 <=? n) && (n <=? 3)) OutOfBounds; spec_free s (ue_id ue) (Srb n)).
Proof.
  intros R Hu. destruct (lookup_ue _ _ _ _ R Hu) as [_ [Hsh _ _ _]]. unfold release_srb. rewrite srb_slot by done.
  destruct ((1 <=? n) && (n <=? 3)) eqn:En; [|done]. cbn [require mbind outcome_bind]. pose proof (set_ue_same m s u ue R Hu) as R0.
  destruct (slot ue (Srb n)) as [a|] eqn:Es.
  - rewrite <- (bind_ret (spec_free _ _ _)). eapply related_bind; [apply (free_entity_ok m s u ue (Srb n) a); [done..|intros [= ->]; lia]|].
    intros m1 s1 (R1 & _ & _). destruct (zset_slot_srb ue n None Hsh ltac:(lia)) as (l & -> & Hl). cbn [of_option mbind outcome_bind]. by rewrite Hl.
  - by rewrite spec_free_none by (by eapply slot_none).
Qed.

Lemma release_drb_ok m s u ue n : mgr_rel m s -> ue_heap m !! u = Some ue ->
  related mgr_rel (release_drb m u ue (n - 1)) (_ ← require (is_bearer (Drb n)) OutOfBounds; spec_free s (ue_id ue) (Drb n)).
Proof.
  intros R Hu. destruct (lookup_ue _ _ _ _ R Hu) as [_ [Hsh _ _ _]]. unfold release_drb. rewrite drb_slot by done.
  destruct (is_bearer (Drb n)) eqn:En; [|done]. cbn [require mbind outcome_bind]. pose proof (set_ue_same m s u ue R Hu) as R0.
  destruct (slot ue (Drb n)) as [a|] eqn:Es.
  - rewrite <- (bind_ret (spec_free _ _ _)). eapply related_bind; [by apply (free_entity_ok m s u ue (Drb n) a)|].
    intros m1 s1 (R1 & _ & _). destruct (zset_slot_drb ue n None Hsh En) as (l & -> & Hl). cbn [of_option mbind outcome_bind]. by rewrite Hl.
  - by rewrite spec_free_none by (by eapply slot_none).
Qed.

Lemma spec_free_touch s id b : spec_free (touch s id) id b = if decide (is_Some (a_bearers (spec_ue s id) !! b)) then spec_free s id b else Ok (touch s id).
Proof.
  unfold spec_free. rewrite spec_ue_touch. case_decide as Hd.
  - destruct Hd as [[e k] ->]. unfold spec_drop. by rewrite spec_set_touch.
  - destruct (a_bearers _ !! b) as [[e k]|] eqn:Eb; [by destruct Hd|done].
Qed.

Lemma release_ok m s id ch : mgr_rel m s -> related mgr_rel (nr_rlc_release_entity m id ch) (spec_release s id ch).
Proof.
  intros R. unfold nr_rlc_release_entity, spec_release. apply (with_ue _ m s); [done|]. intros u ue m' Hu <- R' _ [Hsh _ Hl _].
  unfold bearer_of_channel. destruct (ch =? 0).
  - cbn [mbind outcome_bind]. pose proof (set_ue_same m' _ u ue R' Hu) as R0. destruct (srb0 ue) as [a|] eqn:E0.
    + rewrite <- (bind_ret (spec_free _ _ _)). eapply related_bind; [by apply free_srb0_ok|].
      intros m1 s1 (R1 & _). exact R1.
    + rewrite spec_free_none; [done|]. by apply (slot_none m' _ u ue (Srb 0)).
  - unfold release_rlc_entity_from_lcid, get_rb. rewrite Hl. destruct (zget (lcid2rb ue) (ch - 1)) as [rb|]; [|done].
    cbn [of_option mbind outcome_bind]. unfold rb_of_entry. destruct (rb_type rb); [done| |].
    + pose proof (release_srb_ok m' _ u ue (rb_choice rb) R' Hu) as Hr. by destruct ((1 <=? _) && _).
    + pose proof (release_drb_ok m' _ u ue (rb_choice rb) R' Hu) as Hr. by destruct (is_bearer _).
Qed.

(** ** Adding *)

Lemma add_srb_slot ue n a : shape ue -> 1 <= n <= 3 -> slot ue (Srb n) = None ->
  nr_rlc_ue_add_srb_rlc_entity ue n a = Ok (put_slot ue (Srb n) (Some a)).
Proof.
  intros Hsh Hn Hs. unfold nr_rlc_ue_add_srb_rlc_entity. rewrite (proj2 (Z.ltb_ge _ _)), (proj2 (Z.eqb_neq _ _)) by lia.
  replace (n >? 3) with false by lia. cbn [orb negb require mbind outcome_bind]. rewrite srb_slot by done.
  rewrite (proj2 (Z.leb_le _ _)), (proj2 (Z.leb_le _ _)), Hs by lia. cbn [andb require mbind outcome_bind slot_empty].
  destruct (zset_slot_srb ue n (Some a) Hsh Hn) as (l & -> & Hl). cbn [of_option mbind outcome_bind]. by rewrite Hl.
Qed.

Lemma add_drb_slot ue n a : shape ue -> is_bearer (Drb n) = true -> slot ue (Drb n) = None ->
  nr_rlc_ue_add_drb_rlc_entity ue n a = Ok (put_slot ue (Drb n) (Some a)).
Proof.
  intros Hsh Hn Hs. unfold nr_rlc_ue_add_drb_rlc_entity. rewrite drb_slot by done. pose proof Hn as Hn'. cbn [is_bearer] in Hn'.
  replace ((n <? 1) || (n >? MAX_DRBS_PER_UE)) with false by lia. cbn [negb require mbind outcome_bind]. rewrite Hn, Hs.
  cbn [require mbind outcome_bind slot_empty].
  destruct (zset_slot_drb ue n (Some a) Hsh Hn) as (l & -> & Hl). cbn [of_option mbind outcome_bind]. by rewrite Hl.
Qed.

(** The tail of add_srb and add_drb: the channel is mapped, then the bearer [b]
    set up unless it is there. *)
Lemma add_tail m s u ue (b : bearer) ty c (make : outcome E) cb k (get : nr_rlc_ue_t -> outcome (option Z))
    (add : nr_rlc_ue_t -> Z -> outcome nr_rlc_ue_t) :
  mgr_rel m (touch s (ue_id ue)) -> ue_heap m !! u = Some ue ->
  (forall ue', shape ue' -> get ue' = (_ ← require (is_bearer b && negb (bool_decide (b = Srb 0))) OutOfBounds; Ok (slot ue' b))) ->
  (forall ue' a, shape ue' -> is_bearer b = true -> b <> Srb 0 -> slot ue' b = None -> add ue' a = Ok (put_slot ue' b (Some a))) ->
  (cb = CbUm u /\ k = KUm \/ cb = CbAm u /\ k = KAm) ->
  related mgr_rel
    (ue ← map_channel ue ty c; p ← get ue;
     if slot_empty p then e ← make; let '(a, m) := alloc_entity m e cb in ue ← add ue a; Ok (set_ue m u ue) else Ok (set_ue m u ue))
    (spec_add s (ue_id ue) b ty c make k).
Proof.
  intros R Hu Hget Hadd Hcb. destruct (lookup_ue _ _ _ _ R Hu) as [_ Hr]. rewrite spec_ue_touch in Hr. destruct Hr as [Hsh Hs Hl Hf].
  unfold map_channel, spec_add. rewrite Hl. destruct (zset (lcid2rb ue) _ _) as [l|]; [|done]. cbn [of_option mbind outcome_bind].
  set (au1 := (spec_ue s (ue_id ue)) <| a_lcid2rb := l |>). set (ue1 := ue <| lcid2rb := l |>).
  assert (forall b', slot ue1 b' = slot ue b') as Hs1 by (unfold ue1; intros [i|i]; cbn [slot]; by field_simpl).
  assert (shape ue1) as Hsh1 by (unfold ue1, shape; field_simpl; done).
  assert (mgr_rel (set_ue m u ue1) (spec_set s (ue_id ue) au1)) as R1.
  { rewrite <- (spec_set_touch s). apply (set_ue_ok m _ u ue R Hu); rewrite ?spec_ue_touch; unfold ue1, au1; field_simpl; done. }
  rewrite Hget by done. destruct (is_bearer b && negb (bool_decide (b = Srb 0))) eqn:Eb; [|done]. cbn [require mbind outcome_bind].
  apply andb_true_iff in Eb as [Hv H0%negb_true_iff%bool_decide_eq_false_1].
  assert (a_bearers au1 !! b = a_bearers (spec_ue s (ue_id ue)) !! b) as -> by (unfold au1; by field_simpl).
  specialize (Hs b). unfold slot_rel in Hs. rewrite Hs1. destruct (slot ue b) as [a|] eqn:Es; cbn [slot_empty].
  { destruct Hs as (o & k' & _ & _ & ->). exact R1. }
  rewrite Hs. apply related_eq. intros e _. unfold alloc_entity. rewrite Hadd by (rewrite ?Hs1; done). cbn [mbind outcome_bind].
  assert (ue_heap (set_ue m u ue1) !! u = Some ue1) as Hu1 by (unfold set_ue; field_simpl; apply lookup_insert_eq).
  assert (next_addr (set_ue m u ue1) = next_addr m) as Hn by (unfold set_ue; by field_simpl).
  pose proof (add_ok _ _ u ue1 R1 Hu1 b (next_addr m) e cb k ltac:(by rewrite Hs1) Hv) as R2.
  specialize (R2 ltac:(unfold new_cb; rewrite Hn; destruct Hcb as [[-> ->]|[-> ->]]; done)).
  assert (ue_id ue1 = ue_id ue) as Eid by (unfold ue1; by field_simpl). rewrite Eid in R2.
  assert (spec_ue (spec_set s (ue_id ue) au1) (ue_id ue) = au1) as Eau by (unfold spec_ue, spec_set; field_simpl; by rewrite lookup_insert_eq).
  rewrite Eau in R2. unfold spec_put in *. assert (forall x y, spec_set (spec_set s (ue_id ue) x) (ue_id ue) y = spec_set s (ue_id ue) y) as Ess.
  { intros x y. unfold spec_set. destruct s. unfold upd. cbn. f_equal. apply insert_insert_eq. }
  rewrite Ess in R2. cbn [related]. unfold set_ue in *. unfold new_data in R2.
  destruct m. destruct Hcb as [[-> ->]|[-> ->]]; unfold upd in *; cbn in *; rewrite insert_insert_eq in R2; exact R2.
Qed.

Lemma bearer_srb n : is_bearer (Srb n) && negb (bool_decide (Srb n = Srb 0)) = (1 <=? n) && (n <=? 3).
Proof.
  cbn [is_bearer]. destruct (decide (n = 0)) as [->|Hn]; [done|]. rewrite bool_decide_eq_false_2 by congruence. cbn [negb]. lia.
Qed.

Lemma bearer_drb n : is_bearer (Drb n) && negb (bool_decide (Drb n = Srb 0)) = is_bearer (Drb n).
Proof. rewrite bool_decide_eq_false_2 by done. apply andb_true_r. Qed.

Lemma add_srb_ok m s id n c : mgr_rel m s ->
  related mgr_rel (nr_rlc_add_srb m id n c) ('(p, l) ← srb_params (rlc_Config c);
     spec_add s id (Srb n) NR_RLC_SRB c (new_am RLC_RX_MAXSIZE RLC_TX_MAXSIZE p l) KAm).
Proof.
  intros R. unfold nr_rlc_add_srb. apply related_eq. intros [p l] _. apply (with_ue _ m s); [done|]. intros u ue m' Hu <- R' _ _.
  apply (add_tail m' s u ue (Srb n) NR_RLC_SRB c _ (CbAm u) KAm (fun ue => of_option OutOfBounds (zget (srb ue) (n - 1)))
    (fun ue a => nr_rlc_ue_add_srb_rlc_entity ue n a)); [done|done| | |by right].
  - intros ue' Hsh. rewrite bearer_srb. by apply srb_slot.
  - intros ue' a Hsh Hv H0. apply add_srb_slot; [done|]. cbn in Hv. assert (n <> 0) by (by intros ->). lia.
Qed.

Lemma add_drb_tail m s id n c make cb k : mgr_rel m s -> (cb = CbUm /\ k = KUm \/ cb = CbAm /\ k = KAm) ->
  related mgr_rel (add_drb m id n c make cb) (spec_add s id (Drb n) NR_RLC_DRB c make k).
Proof.
  intros R Hcb. unfold add_drb. apply (with_ue _ m s); [done|]. intros u ue m' Hu <- R' _ _.
  apply (add_tail m' s u ue (Drb n) NR_RLC_DRB c _ (cb u) k (fun ue => of_option OutOfBounds (zget (drb ue) (n - 1)))
    (fun ue a => nr_rlc_ue_add_drb_rlc_entity ue n a)); [done|done| | |naive_solver].
  - intros ue' Hsh. rewrite bearer_drb. by apply drb_slot.
  - intros ue' a Hsh Hv _. by apply add_drb_slot.
Qed.

Lemma add_drb_ok m s id n c : mgr_rel m s -> related mgr_rel (nr_rlc_add_drb m id n c) (spec_add_drb s id n c).
Proof.
  intros R. unfold nr_rlc_add_drb, spec_add_drb. apply related_eq. intros [dl ul|um|] _; [| |done].
  - unfold add_drb_am. do 3 (apply related_eq; intros ? _). apply add_drb_tail; [done|by right].
  - unfold add_drb_um. do 3 (apply related_eq; intros ? _). apply add_drb_tail; [done|by left].
Qed.

Lemma activate_srb0_ok m s id data send : mgr_rel m s -> same (nr_rlc_activate_srb0 m id data send) (spec_activate_srb0 s id data send).
Proof.
  intros R. unfold nr_rlc_activate_srb0, spec_activate_srb0. apply (with_ue _ m s); [done|]. intros u ue m' Hu <- R' _ [Hsh Hs _ _].
  specialize (Hs (Srb 0)). unfold slot_rel in Hs. cbn [slot Z.eqb] in Hs. destruct (srb0 ue) as [a|] eqn:E0; cbn [slot_empty].
  { destruct Hs as (o & k & _ & _ & ->). done. }
  rewrite Hs. apply related_eq. intros e _. unfold alloc_entity. field_simpl. unfold nr_rlc_ue_add_srb_rlc_entity. rewrite E0.
  cbn [Z.ltb Z.gtb Z.compare orb negb require Z.eqb slot_empty mbind outcome_bind]. cbn [related same fst snd]. split; [done|].
  pose proof (add_ok _ _ u ue R' Hu (Srb 0) (next_addr m' + 1) e (CbSrb0 (next_addr m')) (KSrb0 (mk_srb0_data (ue_id ue) data send)) E0 eq_refl) as R2.
  specialize (R2 ltac:(by split_and!)). unfold spec_put in R2. rewrite spec_set_touch, spec_ue_touch in R2. unfold spec_put.
  cbn [new_data put_slot Z.eqb] in R2. unfold set_ue. destruct m'. exact R2.
Qed.

(** ** Removing, renaming *)

Lemma release_srb_ue m u ue i m' : ue_heap m !! u = Some ue -> release_srb m u ue i = Ok m' ->
  exists ue', ue_heap m' !! u = Some ue' /\ ue_id ue' = ue_id ue.
Proof.
  intros Hu Hr. unfold release_srb in Hr. bind_inv; simplify_eq; [|by eauto].
  eexists. unfold set_ue. field_simpl. rewrite lookup_insert_eq. split; [done|by field_simpl].
Qed.

Lemma release_drb_ue m u ue i m' : ue_heap m !! u = Some ue -> release_drb m u ue i = Ok m' ->
  exists ue', ue_heap m' !! u = Some ue' /\ ue_id ue' = ue_id ue.
Proof.
  intros Hu Hr. unfold release_drb in Hr. bind_inv; simplify_eq; [|by eauto].
  eexists. unfold set_ue. field_simpl. rewrite lookup_insert_eq. split; [done|by field_simpl].
Qed.

Lemma forallb_slots (mk : Z -> bearer) (has : bearer -> bool) l start :
  (forall i p, zget l i = Some p -> slot_empty p = negb (has (mk (start + i)))) ->
  forallb slot_empty l = negb (existsb has (mk <$> seqZ start (zlen l))).
Proof.
  revert start. induction l as [|p l IH]; intros start Hl; [done|]. rewrite zlen_cons. pose proof (zlen_nonneg l).
  rewrite seqZ_cons by lia. replace (Z.pred (zlen l + 1)) with (zlen l) by lia. cbn [forallb fmap list_fmap existsb].
  rewrite negb_orb. f_equal.
  - rewrite (Hl 0 p) by (by rewrite zget_at). by replace (start + 0) with start by lia.
  - replace (Z.succ start) with (start + 1) by lia. apply IH. intros i q Hi. rewrite (Hl (i + 1) q).
    + by replace (start + (i + 1)) with (start + 1 + i) by lia.
    + assert (0 <= i) by (unfold zget in Hi; destruct (0 <=? i) eqn:E0; [lia|done]).
      rewrite zget_at, (proj2 (Z.eqb_neq _ _)) by lia. by replace (i + 1 - 1) with i by lia.
Qed.

Lemma none_left_ok m u ue au : ue_rel m u ue au -> none_left ue = negb (existsb (has_bearer au) (take 2 all_srbs ++ all_drbs)).
Proof.
  intros [[Hs Hd] Hsl _ _]. unfold none_left. rewrite existsb_app, negb_orb.
  assert (forall b, slot_empty (slot ue b) = negb (has_bearer au b)) as Hb.
  { intros b. specialize (Hsl b). unfold slot_rel, has_bearer in *. destruct (slot ue b); [destruct Hsl as (? & ? & _ & _ & ->)|rewrite Hsl]; done. }
  f_equal.
  - assert (zlen (take 2 (srb ue)) = 2) as Hz by (unfold zlen; rewrite length_take; lia).
    pose proof (forallb_slots Srb (has_bearer au) (take 2 (srb ue)) 1) as Hf. rewrite Hz in Hf. apply Hf. intros i p [Hi Hlt]%zget_take.
    assert (0 <= i) by (unfold zget in Hi; destruct (0 <=? i) eqn:E0; [lia|done]). rewrite <- Hb. cbn [slot].
    rewrite (proj2 (Z.eqb_neq _ _)) by lia. replace (1 + i - 1) with i by lia. rewrite Hi. by destruct p.
  - assert (zlen (drb ue) = MAX_DRBS_PER_UE) as Hz by (unfold zlen; by rewrite Hd).
    pose proof (forallb_slots Drb (has_bearer au) (drb ue) 1) as Hf. rewrite Hz in Hf. apply Hf. intros i p Hi. rewrite <- Hb. cbn [slot].
    replace (1 + i - 1) with i by lia. rewrite Hi. by destruct p.
Qed.

Lemma config_req_ok m s id srb_flag mbms action module_id rb_id : mgr_rel m s ->
  related mgr_rel (rrc_rlc_config_req m id srb_flag mbms action module_id rb_id) (spec_request s id srb_flag mbms action module_id rb_id).
Proof.
  intros R. unfold rrc_rlc_config_req, spec_request. destruct mbms, action; try done. cbn [negb require mbind outcome_bind andb].
  destruct (module_id =? 0); [|done]. cbn [require mbind outcome_bind]. unfold numbered.
  set (ok := (1 <=? rb_id) && (rb_id <=? (if srb_flag then 2 else MAX_DRBS_PER_UE))).
  replace (negb (srb_flag && _ || _)) with ok by (unfold ok; destruct srb_flag; cbn [negb andb orb]; by rewrite ?orb_false_r, ?negb_involutive).
  destruct ok eqn:Eok; [|done]. cbn [require of_option mbind outcome_bind]. unfold spec_config_req. set (id' := i32 (u32 id)).
  apply (with_ue _ m s); [done|]. intros u ue m' Hu Hid R' _ _.
  apply (related_bind (fun m1 s1 => mgr_rel m1 s1 /\ exists ue1, ue_heap m1 !! u = Some ue1 /\ ue_id ue1 = ue_id ue)).
  - apply related_Ok; [|intros m1 Hm1; destruct srb_flag; [by eapply release_srb_ue|by eapply release_drb_ue]].
    rewrite <- Hid in *. unfold ok, MAX_DRBS_PER_UE in Eok. destruct srb_flag.
    + pose proof (release_srb_ok m' _ u ue rb_id R' Hu) as Hr. replace ((1 <=? rb_id) && (rb_id <=? 3)) with true in Hr by lia. exact Hr.
    + pose proof (release_drb_ok m' _ u ue rb_id R' Hu) as Hr. unfold is_bearer, MAX_DRBS_PER_UE in Hr.
      replace ((1 <=? rb_id) && (rb_id <=? 32)) with true in Hr by lia. exact Hr.
  - intros m1 s1 (R1 & ue1 & Hu1 & Hid1). unfold get_ue_obj. rewrite Hu1. cbn [of_option mbind outcome_bind].
    destruct (lookup_ue _ _ _ _ R1 Hu1) as [_ Hr1]. rewrite (none_left_ok _ _ _ _ Hr1), Hid1, Hid.
    destruct (existsb _ _); [exact R1|]. by apply remove_ue_ok.
Qed.

Lemma update_id_ok nd m s from_id to_id : mgr_rel m s -> call_ok s (UpdateId from_id to_id) = true ->
  same (nr_rlc_update_id nd m from_id to_id) (spec_update_id nd s from_id to_id).
Proof.
  intros R Hok. unfold nr_rlc_update_id, spec_update_id. apply (with_ue _ m s); [done|]. intros u ue m' Hu Hid R' _ [Hsh _ _ _].
  assert (to_id = ue_id ue \/ a_ues (touch s from_id) !! to_id = None) as Hto.
  { cbn [call_ok] in Hok. destruct (decide (from_id = to_id)) as [<-|Hne]; [left; congruence|]. right.
    unfold touch, spec_set. field_simpl. rewrite lookup_insert_ne by done. destruct (a_ues s !! to_id); [|done]. lia. }
  pose proof (rename_ok m' _ u ue R' Hu to_id Hto) as R2. rewrite Hid, spec_ue_touch in R2.
  assert ((touch s from_id) <| a_ues := <[to_id := spec_ue s from_id]> (delete from_id (a_ues (touch s from_id))) |> =
    s <| a_ues := <[to_id := spec_ue s from_id]> (delete from_id (a_ues s)) |>) as Es.
  { unfold touch, spec_set. destruct s. unfold upd. cbn. f_equal. f_equal. apply delete_insert_eq. }
  rewrite Es in R2. set (s2 := s <| a_ues := _ |>) in *. set (ue2 := ue <| ue_id := to_id |>) in *.
  assert (ue_heap (set_ue m' u ue2) !! u = Some ue2) as Hu2 by (unfold set_ue; field_simpl; apply lookup_insert_eq).
  pose proof (call_ok_known _ _ u ue2 R2 Hu2 nd (Srb 1) (Ok true) (fun e => e ← reestablishment e; Ok (true, e))) as Hc.
  assert (ue_id ue2 = to_id) as Hid2 by (unfold ue2; by field_simpl). rewrite Hid2 in Hc.
  assert (slot ue2 (Srb 1) = slot ue (Srb 1)) as Hs by (unfold ue2; cbn [slot]; by field_simpl). rewrite Hs in Hc.
  change 0 with (1 - 1). rewrite srb_slot by done. cbn [Z.leb Z.compare Pos.compare Pos.compare_cont andb require mbind outcome_bind].
  destruct (slot ue (Srb 1)); exact Hc.
Qed.

Lemma call_entity_heap {X} nd m a (f : E -> outcome (X * E)) r outs m' : call_entity nd m a f = Ok (r, outs, m') -> ue_heap m' = ue_heap m.
Proof. intros Hc. unfold call_entity in Hc. bind_inv; simplify_eq. by field_simpl. Qed.

Lemma reestablish_first nd m s u ue b (p : option Z) : mgr_rel m (touch s (ue_id ue)) -> ue_heap m !! u = Some ue -> slot ue b = p ->
  related (fun x y => fst x = fst y /\ mgr_rel (snd x) (snd y) /\ ue_heap (snd x) = ue_heap m)
    (ent ← of_option NullDeref p; call_entity nd m ent (fun e => e ← reestablishment e; Ok (tt, e)))
    (spec_call nd s (ue_id ue) (Some b) (Fault NullDeref) (fun e => e ← reestablishment e; Ok (tt, e))).
Proof.
  intros R Hu Hp. pose proof (call_bearer_ok nd m s u ue (Some b) p (Fault NullDeref) (fun e => e ← reestablishment e; Ok (tt, e)) R Hu (eq_sym Hp)) as Hc.
  destruct p as [a|]; [|exact Hc]. cbn [of_option mbind outcome_bind].
  eapply related_mono; [apply (related_Ok (fun x y => fst x = fst y /\ mgr_rel (snd x) (snd y)) (fun x => ue_heap (snd x) = ue_heap m)); [exact Hc|]|].
  - intros [[r outs] m'] Hm. exact (call_entity_heap _ _ _ _ _ _ _ Hm).
  - intros a' b' [[? ?] ?]. by split_and!.
Qed.

Lemma spec_call_knows {X} nd s id b (none : outcome X) f r outs s' : spec_call nd s id b none f = Ok (r, outs, s') -> is_Some (a_ues s' !! id).
Proof.
  unfold spec_call. intros Hc. destruct (b ≫= _) as [[b' [e k]]|]; bind_inv; simplify_eq; unfold touch, spec_put, spec_set;
    field_simpl; rewrite lookup_insert_eq; by eexists.
Qed.

Lemma trigger_ok nd m s id : mgr_rel m s -> same (nr_rlc_test_trigger_reestablishment nd m id) (spec_trigger nd s id).
Proof.
  intros R. unfold nr_rlc_test_trigger_reestablishment, spec_trigger. apply (with_ue _ m s); [done|]. intros u ue m' Hu <- R' _ [Hsh _ _ _].
  change 0 with (1 - 1). rewrite srb_slot, drb_slot by done. change ((1 <=? 1) && (1 <=? 3)) with true. change (is_bearer (Drb 1)) with true.
  cbn [require mbind outcome_bind].
  pose proof (reestablish_first nd m' s u ue (Srb 1) _ R' Hu eq_refl) as H1.
  destruct (slot ue (Srb 1)) as [a|]; cbn [of_option mbind outcome_bind] in *; [|].
  2: { destruct (spec_call _ _ _ _ _ _) as [[[? ?] ?]|]; [done|exact H1]. }
  destruct (call_entity nd m' a _) as [[[[] outs] m1]|f]; destruct (spec_call nd s _ (Some (Srb 1)) _ _) as [[[[] outs1] s1]|g] eqn:E1; try done.
  destruct H1 as ([= ->] & R1 & Hh). cbn [mbind outcome_bind snd] in *. apply spec_call_knows in E1.
  rewrite <- (touch_known s1 (ue_id ue) E1) in R1.
  pose proof (reestablish_first nd m1 s1 u ue (Drb 1) _ R1 ltac:(by rewrite Hh) eq_refl) as H2.
  destruct (slot ue (Drb 1)) as [a'|]; cbn [of_option mbind outcome_bind] in *.
  2: { destruct (spec_call _ _ _ _ _ _) as [[[? ?] ?]|]; [done|exact H2]. }
  destruct (call_entity nd m1 a' _) as [[[[] outs2] m2]|f]; destruct (spec_call nd s1 _ _ _ _) as [[[[] outs3] s2]|g]; try done.
  destruct H2 as ([= ->] & R2 & _). by split.
Qed.

Lemma replying_ok {X} (k : X -> rlc_reply) (o1 : outcome (X * list rlc_output * @manager E)) (o2 : outcome (X * list rlc_output * @astate E)) : same o1 o2 -> same (replying k o1) (replying k o2).
Proof. unfold replying. destruct o1 as [[[r outs] m]|f], o2 as [[[r' outs'] s]|g]; cbn; try done. intros [[= -> ->] R]. by split. Qed.

Lemma silent_ok (o1 : outcome (@manager E)) (o2 : outcome (@astate E)) : related mgr_rel o1 o2 -> same (silent o1) (silent o2).
Proof. unfold silent. by destruct o1, o2. Qed.

(** A channel that must have an entity. *)
Lemma rlc_reconfigure_ok nd m s id lc_id config : mgr_rel m s ->
  same (nr_rlc_reconfigure_entity nd m id lc_id config) (spec_channel nd s id (u32 lc_id) (Fault NullDeref) (reconfigure config)).
Proof.
  intros R. unfold nr_rlc_reconfigure_entity, spec_channel. apply (with_ue _ m s); [done|]. intros u ue m' Hu <- R' _ Hr.
  rewrite (channel_ok _ _ _ _ _ Hr). destruct (bearer_of_channel _ _) as [b|]; [|done]. cbn [mbind outcome_bind].
  pose proof (call_bearer_ok nd m' s u ue b _ (Fault NullDeref) (reconfigure config) R' Hu eq_refl) as Hcall.
  by destruct (b ≫= slot ue).
Qed.

Lemma tick_ok m s frame subframe : mgr_rel m s -> mgr_rel (m <| clock := nr_rlc_tick (clock m) frame subframe |>) (spec_tick s frame subframe).
Proof.
  intros [R1 R2 R3 R4 R5 R6 R7 R8 R9 R10 R11 R12]. unfold spec_tick. split; field_simpl; try done; [by rewrite R2|].
  intros u ue Hu. destruct (R6 u ue Hu) as (au & Ha & [U1 U2 U3 U4]). exists au. field_simpl. split; [done|]. by split.
Qed.

Lemma lcid_ok m s id is_srb rb_id : mgr_rel m s ->
  same (nr_rlc_get_lcid_from_rb m id is_srb rb_id) (Ok (lcid_of_rb (a_lcid2rb (spec_ue s id)) is_srb rb_id 1, touch s id)).
Proof.
  intros R. unfold nr_rlc_get_lcid_from_rb. apply (with_ue _ m s); [done|]. intros u ue m' _ _ R' _ [_ _ Hl _]. rewrite Hl. by split.
Qed.

Lemma set_handler_ok m s id handler : mgr_rel m s -> related mgr_rel (nr_rlc_set_rlf_handler m id handler) (Ok (spec_set_handler s id handler)).
Proof.
  intros R. unfold nr_rlc_set_rlf_handler, spec_set_handler. apply (with_ue _ m s); [done|]. intros u ue m' Hu <- R' _ [Hsh _ Hl _].
  rewrite <- (spec_set_touch s). cbn [related].
  apply (set_ue_ok m' _ u ue R' Hu); rewrite ?spec_ue_touch; unfold shape in *; field_simpl; try done.

Qed.

Lemma mgr_step_ok nd m s c : mgr_rel m s -> call_ok s c = true -> same (mgr_step nd m c) (spec_step nd s c).
Proof.
  intros R Hok. destruct c; cbn [mgr_step spec_step].
  - unfold mac_rlc_data_ind. rewrite negb_orb, negb_involutive. destruct ((eNB_index =? 0) && negb MBMS_flag); [|done].
    cbn [require mbind outcome_bind]. apply replying_ok, on_channel_ok; [done|]. intros m' Hc. by apply at_time_eq.
  - apply replying_ok, on_channel_ok; [done|]. intros m' Hc. by apply at_time_eq.
  - apply replying_ok, on_channel_ok; [done|]. intros m' Hc. by apply at_time_eq.
  - unfold mac_rlc_get_buffer_occupancy_ind. destruct enb; [done|]. cbn [negb require mbind outcome_bind].
    apply replying_ok, on_channel_ok; [by apply tick_ok|]. intros m' Hc. by apply at_time_eq.
  - apply replying_ok. unfold rlc_data_req. apply (with_ue _ m s); [done|]. intros u ue m' Hu <- R' Hc [Hsh _ _ _].
    rewrite numbered_slot by done. cbn [mbind outcome_bind]. rewrite (at_time_eq m' s) by done.
    pose proof (call_bearer_ok nd m' s u ue (numbered is_srb rb_id MAX_DRBS_PER_UE) _ (Ok tt)
      (spec_at_time s (fun e => e ← recv_sdu e sdu sdu_size mui now; Ok (tt, e))) R' Hu eq_refl) as Hcall.
    by destruct (numbered _ _ _ ≫= slot ue).
  - apply replying_ok, on_channel_ok; [done|]. done.
  - apply replying_ok. unfold nr_rlc_srb_recv_sdu, spec_srb_sdu. apply (with_ue _ m s); [done|]. intros u ue m' Hu <- R' Hc [Hsh _ _ _].
    rewrite (at_time_eq m' s) by done. set (f := spec_at_time s _).
    pose proof (call_bearer_ok nd m' s u ue (Some (Srb channel_id)) _ (Fault NullDeref) f R' Hu eq_refl) as Hcall.
    destruct (channel_id =? 0) eqn:E0.
    + assert (channel_id = 0) as -> by lia. cbn [require Z.leb Z.compare andb mbind outcome_bind option_bind slot Z.eqb] in *. by destruct (srb0 ue).
    + rewrite srb_slot by done. assert ((1 <=? channel_id) && (channel_id <=? 3) = (0 <=? channel_id) && (channel_id <=? 3)) as -> by lia.
      destruct ((0 <=? channel_id) && (channel_id <=? 3)); [|done]. cbn [require mbind outcome_bind option_bind] in *. by destruct (slot ue _).
  - apply replying_ok. unfold nr_rlc_activate_avg_time_to_tx. apply (with_ue _ m s); [done|]. intros u ue m' Hu <- R' Hc [Hsh _ _ _].
    pose proof (call_bearer_ok nd m' s u ue (numbered_avg channel_id) _ (Ok tt) (activate_avg is_on) R' Hu eq_refl) as Hcall.
    unfold numbered_avg in *. destruct ((1 <=? channel_id) && (channel_id <=? 3)) eqn:E1.
    + rewrite srb_slot, E1 by done. cbn [require mbind outcome_bind option_bind] in *. by destruct (slot ue _).
    + destruct ((4 <=? channel_id) && (channel_id <=? 8)) eqn:E2; [|exact Hcall].
      replace (channel_id - 4) with (channel_id - 3 - 1) by lia. rewrite drb_slot by done. unfold is_bearer, MAX_DRBS_PER_UE.
      replace ((1 <=? channel_id - 3) && (channel_id - 3 <=? 32)) with true by lia. cbn [require mbind outcome_bind option_bind] in *. by destruct (slot ue _).
  - apply replying_ok. unfold nr_rlc_get_statistics. apply (with_ue _ m s); [done|]. intros u ue m' Hu <- R' Hc [Hsh _ _ _].
    rewrite numbered_slot by done. cbn [mbind outcome_bind].
    pose proof (call_bearer_ok nd m' s u ue (numbered srb_flag rb_id 5) _ (Ok None) (statistics now) R' Hu eq_refl) as Hcall.
    by destruct (numbered _ _ _ ≫= slot ue).
  - pose proof (lcid_ok m s id is_srb rb_id R) as Hl. destruct (nr_rlc_get_lcid_from_rb m id is_srb rb_id) as [[l m']|f]; [|done].
    destruct Hl as [[= ->] R']. by split.
  - apply (silent_ok _ (Ok _)). by apply set_handler_ok.
  - apply replying_ok, on_channel_ok; done.
  - by apply replying_ok, rlc_reconfigure_ok.
  - by apply silent_ok, add_srb_ok.
  - by apply silent_ok, add_drb_ok.
  - pose proof (activate_srb0_ok m s id data send R) as Ha.
    destruct (nr_rlc_activate_srb0 m id data send) as [[b m']|f], (spec_activate_srb0 s id data send) as [[b' s']|g]; try done.
    destruct Ha as [[= ->] R']. by split.
  - by apply silent_ok, release_ok.
  - by apply silent_ok, config_req_ok.
  - by apply silent_ok, remove_ue_ok.
  - by apply replying_ok, update_id_ok.
  - by apply replying_ok, trigger_ok.
  - split; [done|]. by apply tick_ok.
Qed.

Lemma mgr_run_ok nd cs : forall m s, mgr_rel m s -> calls_ok nd s cs = true ->
  related (fun x y => fst x = fst y /\ mgr_rel (snd x) (snd y)) (mgr_run nd m cs) (spec_run nd s cs).
Proof.
  induction cs as [|c cs IH]; intros m s R Hok; cbn [mgr_run spec_run]; [by split|]. cbn [calls_ok] in Hok.
  apply andb_true_iff in Hok as [Hc Hcs]. pose proof (mgr_step_ok nd m s c R Hc) as Hstep.
  destruct (mgr_step nd m c) as [[[r outs] m1]|f], (spec_step nd s c) as [[[r' outs'] s1]|g]; try done.
  destruct Hstep as [[= -> ->] R1]. cbn [mbind outcome_bind snd] in *. specialize (IH m1 s1 R1 Hcs).
  destruct (mgr_run nd m1 cs) as [[l m2]|f], (spec_run nd s1 cs) as [[l' s2]|g]; try done.
  destruct IH as [[= ->] R2]. by split.
Qed.

End Sim.

(** ** The properties *)

Definition spec_start {E} `{RlcEntity E} (enb : bool) : @astate E := mk_astate ∅ enb (mk_clock 0 0 0).

(** C14: whatever the entities are, any sequence of calls of the RLC module, in
    which no UE is renamed to another one, gives on the heaps of UEs, entities
    and callback data what it gives on a finite map from identifiers to UEs and
    from bearers to entities: the same results, the same SDUs, reports and
    messages to the other layers, attributed to the same UE and bearer, and a
    fault exactly when an entity or the specification has that fault.  The
    memory stands for the map all along ([mgr_rel]). *)
Theorem rlc_manager_refines {E} `{RlcEntity E} (nd : rlc_node) (enb : bool) (cs : list rlc_call) :
  calls_ok nd (spec_start enb) cs = true ->
  match mgr_run nd (new_nr_rlc_ue_manager enb) cs, spec_run nd (spec_start enb) cs with
  | Ok (replies, m), Ok (replies', s) => replies = replies' /\ mgr_rel m s
  | Fault f, Fault g => f = g
  | _, _ => False
  end.
Proof.
  intros Hok. pose proof (mgr_run_ok nd cs _ _ (new_manager_rel enb) Hok) as Hr.
  by destruct (mgr_run _ _ _) as [[l m]|f], (spec_run _ _ _) as [[l' s]|g].
Qed.

(** C15: after any such sequence every entity in memory is that of exactly one
    bearer of one UE of the table, and every pointer of a UE leads to one; the
    data of SRB 0 are there exactly for the SRB 0 entities; and when no UE is
    left nothing is: no entity, callback data or UE is forgotten. *)
Theorem rlc_manager_memory {E} `{RlcEntity E} (nd : rlc_node) (enb : bool) (cs : list rlc_call) replies m :
  calls_ok nd (spec_start enb) cs = true -> mgr_run nd (new_nr_rlc_ue_manager enb) cs = Ok (replies, m) ->
  (forall a, is_Some (entity_heap m !! a) <-> exists u ue b, u ∈ ue_list m /\ ue_heap m !! u = Some ue /\ slot ue b = Some a) /\
  (forall u v ue ue' b b' a, ue_heap m !! u = Some ue -> ue_heap m !! v = Some ue' ->
     slot ue b = Some a -> slot ue' b' = Some a -> u = v /\ b = b') /\
  (forall p, is_Some (srb0_heap m !! p) <->
     exists u ue a o, ue_heap m !! u = Some ue /\ srb0 ue = Some a /\ entity_heap m !! a = Some o /\ obj_cb o = CbSrb0 p) /\
  (ue_list m = [] -> ue_heap m = ∅ /\ entity_heap m = ∅ /\ srb0_heap m = ∅).
Proof.
  intros Hok Hrun. pose proof (mgr_run_ok nd cs _ _ (new_manager_rel enb) Hok) as Hr. rewrite Hrun in Hr.
  destruct (spec_run _ _ _) as [[l s]|g]; [|done]. destruct Hr as [_ R]. cbn [snd] in R.
  assert (forall a, is_Some (entity_heap m !! a) <-> exists u ue b, u ∈ ue_list m /\ ue_heap m !! u = Some ue /\ slot ue b = Some a) as Hown.
  { intros a. split.
    - intros (u & ue & b & Hu & Hb)%(mr_owner _ _ R). exists u, ue, b. split_and!; [|done..]. apply (mr_list _ _ R). eauto.
    - intros (u & ue & b & _ & Hu & Hb). destruct (slot_owned _ _ _ _ _ _ R Hu Hb) as (o & k & Ho & _). eauto. }
  assert (forall p, is_Some (srb0_heap m !! p) <->
     exists u ue a o, ue_heap m !! u = Some ue /\ srb0 ue = Some a /\ entity_heap m !! a = Some o /\ obj_cb o = CbSrb0 p) as Hdata.
  { intros p. split.
    - intros (o & Ho & Hp)%(mr_data _ _ R). destruct (proj1 (Hown (p + 1)) ltac:(eauto)) as (u & ue & b & _ & Hu & Hb).
      destruct (slot_owned _ _ _ _ _ _ R Hu Hb) as (o' & k & Ho' & Hk & _). assert (o' = o) as -> by congruence.
      rewrite Hp in Hk. destruct k; try done. destruct Hk as [-> _]. by exists u, ue, (p + 1), o.
    - intros (u & ue & a & o & Hu & Ha & Ho & Hp). destruct (slot_owned _ _ _ _ (Srb 0) _ R Hu Ha) as (o' & k & Ho' & Hk & _).
      assert (o' = o) as -> by congruence. rewrite Hp in Hk. destruct k; try done. destruct Hk as [_ Hd]. eauto. }
  split_and!; [done|apply (mr_inj _ _ R)|done|]. intros Hnil.
  assert (forall u, ue_heap m !! u = None) as Hno.
  { intros u. apply eq_None_not_Some. rewrite <- (mr_list _ _ R), Hnil. apply not_elem_of_nil. }
  split_and!; apply map_eq; intros a; rewrite lookup_empty; [apply Hno|apply eq_None_not_Some..].
  - intros (u & ue & b & Hu & _)%Hown. rewrite Hnil in Hu. by apply not_elem_of_nil in Hu.
  - intros (u & ue & p & o & Hu & _)%Hdata. by rewrite Hno in Hu.
Qed.

(** ** The three entities of this library *)

Definition am_config : NR_RLC_Config := NR_RLC_Config_am (mk_dl_am 7 0 (Some 0)) (mk_ul_am 8 23 43 5 (Some 0)).
Definition um_config : NR_RLC_Config := NR_RLC_Config_um_Bi_Directional (mk_um_rlc 7 (Some 1) (Some 1)).
Definition gnb : rlc_node := mk_node false {[ 1 := 77; 2 := 78 ]}.
Definition replies_of (cs : list rlc_call) : outcome (list (rlc_reply * list rlc_output)) :=
  '(l, m) ← mgr_run (E := rlc_entity) gnb (new_nr_rlc_ue_manager true) cs; Ok l.

(** DRB 5 on channel 4: an SDU down, one up, a new identifier, and the end. *)
Definition one_ue : list rlc_call :=
  [AddDrb 1 5 (mk_bearer_config 4 5 (Some um_config)); DataReq 1 false 5 0 3 [10; 20; 30] 0; MacDataReq 1 4 4 [0; 0; 0; 0] 0;
   MacDataInd 1 0 false 4 [0; 10; 20; 30] 4; UpdateId 1 2; MacDataInd 2 0 false 4 [0; 10; 20; 30] 4; RemoveUe 2].

Lemma rlc_manager_refines_witness :
  calls_ok gnb (spec_start (E := rlc_entity) true) one_ue = true /\
  exists m s, mgr_run gnb (new_nr_rlc_ue_manager true) one_ue =
      Ok ([(ReplyUnit, []); (ReplyUnit, []); (ReplyPdu 4 [0; 10; 20; 30], []); (ReplyUnit, [PdcpDataInd 77 true false 5 [10; 20; 30]]);
           (ReplyBool true, []); (ReplyUnit, [PdcpDataInd 78 true false 5 [10; 20; 30]]); (ReplyUnit, [])], m) /\
    mgr_rel (E := rlc_entity) m s.
Proof.
  assert (calls_ok gnb (spec_start (E := rlc_entity) true) one_ue = true) as Hok by (vm_compute; reflexivity). split; [exact Hok|].
  pose proof (rlc_manager_refines (E := rlc_entity) gnb true one_ue Hok) as Hr.
  destruct (mgr_run _ _ _) as [[l m]|f] eqn:Em, (spec_run _ _ _) as [[l' s]|g]; try contradiction.
  - exists m, s. split; [|by destruct Hr]. assert (replies_of one_ue = Ok l) as Hl by (unfold replies_of; by rewrite Em).
    vm_compute in Hl. injection Hl as <-. reflexivity.
  - exfalso. assert (replies_of one_ue = Fault f) as Hl by (unfold replies_of; by rewrite Em). vm_compute in Hl. discriminate.
Defined.

Lemma rlc_manager_memory_witness :
  exists replies m, mgr_run (E := rlc_entity) gnb (new_nr_rlc_ue_manager true) one_ue = Ok (replies, m) /\
    ue_heap m = ∅ /\ entity_heap m = ∅ /\ srb0_heap m = ∅.
Proof.
  destruct (mgr_run (E := rlc_entity) gnb (new_nr_rlc_ue_manager true) one_ue) as [[l m]|f] eqn:Em.
  2: { exfalso. assert (replies_of one_ue = Fault f) as Hl by (unfold replies_of; by rewrite Em). vm_compute in Hl. discriminate. }
  exists l, m. split; [reflexivity|].
  destruct (rlc_manager_memory (E := rlc_entity) gnb true one_ue l m) as (_ & _ & _ & H4); [vm_compute; reflexivity|exact Em|].
  apply H4. assert (match mgr_run (E := rlc_entity) gnb (new_nr_rlc_ue_manager true) one_ue with
    | Ok (_, m) => ue_list m | Fault _ => [0] end = ue_list m) as Hl by (rewrite Em; reflexivity).
  vm_compute in Hl. symmetry. exact Hl.
Defined.

(** ** What the code does elsewhere *)

(** The status of a bearer that is gone is returned without being written, but
    for one frame in 128. *)
Example status_not_written :
  replies_of [MacStatusInd 1 5 4; MacStatusInd 1 128 4] = Ok [(ReplyBytes None, []); (ReplyBytes (Some 0), [])].
Proof. reflexivity. Qed.

(** Acknowledging an SDU of SRB 3 ends the process; one of SRB 2 does not. *)
Definition acked (srb : Z) : list rlc_call :=
  [AddSrb 1 srb (mk_bearer_config srb srb (Some am_config)); SrbRecvSdu 1 srb [10; 20; 30] 3 0;
   MacDataReq 1 srb 5 (replicate 5 0) 0; MacDataInd 1 0 false srb [0; 1; 0] 3].
Example srb3_ack_exits :
  replies_of (acked 3) = Fault Exit /\
  replies_of (acked 2) = Ok [(ReplyUnit, []); (ReplyUnit, []); (ReplyPdu 5 [192; 0; 10; 20; 30], []); (ReplyUnit, [])].
Proof. vm_compute. auto. Qed.

(** Without an SRB 1, its channel is 0: SRB 0 is taken for an AM entity. *)
Example default_config_of_srb0 :
  replies_of [ActivateSrb0 1 9 (Some 3); GetLcid 1 true 1; Reconfigure 1 0 None] = Fault OutOfBounds.
Proof. reflexivity. Qed.

(** SRB 0 goes on with the identifier and the data it was activated with. *)
Example srb0_keeps_id :
  replies_of [ActivateSrb0 1 9 (Some 3); UpdateId 1 2; MacDataInd 2 0 false 0 [7] 1] =
    Ok [(ReplyBool true, []); (ReplyBool true, []); (ReplyUnit, [InitialUlRrcMessage 3 1 9 [7]])].
Proof. reflexivity. Qed.

(** Two UEs of one identifier: the second is out of reach, also for removal,
    until the first is gone; an unknown UE is renamed too. *)
Example renamed_twice :
  replies_of [AddDrb 1 1 (mk_bearer_config 4 1 (Some um_config)); AddDrb 2 1 (mk_bearer_config 5 1 (Some um_config));
              UpdateId 2 1; GetLcid 1 false 1; RemoveUe 1; GetLcid 1 false 1; UpdateId 9 8] =
    Ok [(ReplyUnit, []); (ReplyUnit, []); (ReplyBool true, []); (ReplyInt 4, []); (ReplyUnit, []); (ReplyInt 5, []); (ReplyBool true, [])].
Proof. reflexivity. Qed.

(** A UE with SRB 3 alone does not count as one with bearers. *)
Example srb3_goes_with_srb1 :
  replies_of [AddSrb 1 1 (mk_bearer_config 1 1 None); AddSrb 1 3 (mk_bearer_config 3 3 None);
              ConfigReq 1 true false true 0 1; GetLcid 1 true 3] =
    Ok [(ReplyUnit, []); (ReplyUnit, []); (ReplyUnit, []); (ReplyInt 0, [])].
Proof. reflexivity. Qed.
