(* ===== verification/HashTable.v ===== *)
(** * Hash tables (common/utils/hashtable/hashtable.c)

    A table is an array of chains of nodes.  The nodes are in a heap of their
    own; what they point to belongs to the user of the table, whose memory [S] is
    an argument of the function that frees.  The contract is that of a finite map
    from keys to pointers, whatever the size of the array and the hash function. *)

From S2P Require Import Prelude.

(** ** Data (hashtable.h) *)

Inductive hashtable_rc_t : Type :=
| HASH_TABLE_OK
| HASH_TABLE_INSERT_OVERWRITTEN_DATA
| HASH_TABLE_KEY_NOT_EXISTS
| HASH_TABLE_BAD_PARAMETER_HASHTABLE.

Record hash_node_t := mk_hash_node { hn_key : Z; hn_data : option Z; hn_next : option Z }.

(** The nodes allocated, and the next free address. *)
Record node_heap := mk_node_heap { nh_nodes : gmap Z hash_node_t; nh_next : Z }.
#[export] Instance eta_node_heap : RecordEta node_heap := fld (fld (fun _ => mk_node_heap) nh_nodes) nh_next.

Definition set_node (h : node_heap) (a : Z) (n : hash_node_t) : node_heap := h <| nh_nodes := <[a := n]> (nh_nodes h) |>.

Section HashTable.
Context {S : Type}.

Record hash_table_t := mk_hash_table {
  ht_size : Z;
  ht_nodes : list (option Z);
  ht_hashfunc : Z -> Z;
  ht_freefunc : Z -> S -> outcome S }.

Definition set_nodes (t : hash_table_t) (l : list (option Z)) : hash_table_t :=
  mk_hash_table (ht_size t) l (ht_hashfunc t) (ht_freefunc t).

(** ** Operations

    [t] is the table behind the pointer that the functions are given; [None] is
    NULL.  [s] is the memory of the user. *)

Definition def_hashfunc (key : Z) : Z := key.

Definition hashtable_create (size : Z) (hashfunc : option (Z -> Z)) (freefunc : Z -> S -> outcome S) : hash_table_t :=
  mk_hash_table size (replicate (Z.to_nat size) None) (default def_hashfunc hashfunc) freefunc.

(** [hash = hashfunc(key) % size; node = nodes\[hash\]].  The process ends with a
    division by zero when the table has no bucket. *)
Definition bucket (t : hash_table_t) (key : Z) : outcome (Z * option Z) :=
  _ ← require (negb (ht_size t =? 0)) Exit;
  let hash := ht_hashfunc t key mod ht_size t in
  node ← of_option OutOfBounds (zget (ht_nodes t) hash);
  Ok (hash, node).

(** The walk along a chain: the node of the key, and the one before it. *)
Fixpoint find_node (h : node_heap) (fuel : nat) (prevnode node : option Z) (key : Z)
    : outcome (option (option Z * Z * hash_node_t)) :=
  match node with
  | None => Ok None
  | Some a =>
      match fuel with
      | O => Fault Diverge
      | Datatypes.S fuel =>
          n ← of_option Dangling (nh_nodes h !! a);
          if hn_key n =? key then Ok (Some (prevnode, a, n)) else find_node h fuel (Some a) (hn_next n) key
      end
  end.

Definition chain_fuel (h : node_heap) : nat := size (nh_nodes h).

(** [if (node->data) freefunc(node->data)] *)
Definition free_data (t : hash_table_t) (data : option Z) (s : S) : outcome S :=
  match data with Some p => ht_freefunc t p s | None => Ok s end.

Definition hashtable_is_key_exists (h : node_heap) (t : option hash_table_t) (key : Z) : outcome hashtable_rc_t :=
  match t with
  | None => Ok HASH_TABLE_BAD_PARAMETER_HASHTABLE
  | Some t =>
      '(_, node) ← bucket t key;
      found ← find_node h (chain_fuel h) None node key;
      Ok (match found with Some _ => HASH_TABLE_OK | None => HASH_TABLE_KEY_NOT_EXISTS end)
  end.

Definition hashtable_get (h : node_heap) (t : option hash_table_t) (key : Z) : outcome (hashtable_rc_t * option Z) :=
  match t with
  | None => Ok (HASH_TABLE_BAD_PARAMETER_HASHTABLE, None)
  | Some t =>
      '(_, node) ← bucket t key;
      found ← find_node h (chain_fuel h) None node key;
      Ok (match found with Some (_, _, n) => (HASH_TABLE_OK, hn_data n) | None => (HASH_TABLE_KEY_NOT_EXISTS, None) end)
  end.

Definition hashtable_insert (h : node_heap) (s : S) (t : option hash_table_t) (key : Z) (data : option Z)
    : outcome (hashtable_rc_t * node_heap * S * option hash_table_t) :=
  match t with
  | None => Ok (HASH_TABLE_BAD_PARAMETER_HASHTABLE, h, s, None)
  | Some t =>
      '(hash, node) ← bucket t key;
      found ← find_node h (chain_fuel h) None node key;
      match found with
      | Some (_, a, n) =>
          s ← free_data t (hn_data n) s;
          Ok (HASH_TABLE_INSERT_OVERWRITTEN_DATA, set_node h a (mk_hash_node (hn_key n) data (hn_next n)), s, Some t)
      | None =>
          let a := nh_next h in
          l ← of_option OutOfBounds (zset (ht_nodes t) hash (Some a));
          Ok (HASH_TABLE_OK, mk_node_heap (<[a := mk_hash_node key data node]> (nh_nodes h)) (a + 1), s, Some (set_nodes t l))
      end
  end.

(** [prevnode->next = node->next], or the head of the chain. *)
Definition unlink (h : node_heap) (t : hash_table_t) (hash : Z) (prevnode next : option Z) : outcome (node_heap * hash_table_t) :=
  match prevnode with
  | Some b =>
      p ← of_option Dangling (nh_nodes h !! b);
      Ok (set_node h b (mk_hash_node (hn_key p) (hn_data p) next), t)
  | None => l ← of_option OutOfBounds (zset (ht_nodes t) hash next); Ok (h, set_nodes t l)
  end.

Definition free_node (h : node_heap) (a : Z) : node_heap := h <| nh_nodes := delete a (nh_nodes h) |>.

Definition hashtable_remove (h : node_heap) (s : S) (t : option hash_table_t) (key : Z)
    : outcome (hashtable_rc_t * node_heap * S * option hash_table_t) :=
  match t with
  | None => Ok (HASH_TABLE_BAD_PARAMETER_HASHTABLE, h, s, None)
  | Some t =>
      '(hash, node) ← bucket t key;
      found ← find_node h (chain_fuel h) None node key;
      match found with
      | Some (prevnode, a, n) =>
          '(h, t) ← unlink h t hash prevnode (hn_next n);
          s ← free_data t (hn_data n) s;
          Ok (HASH_TABLE_OK, free_node h a, s, Some t)
      | None => Ok (HASH_TABLE_KEY_NOT_EXISTS, h, s, Some t)
      end
  end.

(** One chain of hashtable_destroy. *)
Fixpoint free_chain (t : hash_table_t) (fuel : nat) (node : option Z) (h : node_heap) (s : S) : outcome (node_heap * S) :=
  match node with
  | None => Ok (h, s)
  | Some a =>
      match fuel with
      | O => Fault Diverge
      | Datatypes.S fuel =>
          n ← of_option Dangling (nh_nodes h !! a);
          s ← free_data t (hn_data n) s;
          free_chain t fuel (hn_next n) (free_node h a) s
      end
  end.

Definition hashtable_destroy (h : node_heap) (s : S) (t : option hash_table_t)
    : outcome (hashtable_rc_t * node_heap * S * option hash_table_t) :=
  match t with
  | None => Ok (HASH_TABLE_BAD_PARAMETER_HASHTABLE, h, s, None)
  | Some t =>
      '(h, s) ← cfor (Z.to_nat (ht_size t)) 0
        (fun n '(h, s) => node ← of_option OutOfBounds (zget (ht_nodes t) n); free_chain t (chain_fuel h) node h s) (h, s);
      Ok (HASH_TABLE_OK, h, s, None)
  end.

(** ** Iterators *)

Record hash_table_iterator_s := mk_iterator { it_index : Z; it_node : option Z }.

Definition hashtable_get_iterator (t : hash_table_t) : outcome hash_table_iterator_s :=
  node ← of_option OutOfBounds (zget (ht_nodes t) 0);
  Ok (mk_iterator 0 node).

(** The loop to the next node, if any.  [index] is an int, compared as a size_t. *)
Fixpoint next_bucket (t : hash_table_t) (fuel : nat) (it : hash_table_iterator_s) : outcome hash_table_iterator_s :=
  match it_node it with
  | Some _ => Ok it
  | None =>
      match fuel with
      | O => Fault Diverge
      | Datatypes.S fuel =>
          let index := it_index it + 1 in
          if u64 index >=? ht_size t then Ok (mk_iterator index None)
          else
            node ← of_option OutOfBounds (zget (ht_nodes t) index);
            next_bucket t fuel (mk_iterator index node)
      end
  end.

Definition hashtable_iterator_getnext (h : node_heap) (t : hash_table_t) (it : hash_table_iterator_s)
    : outcome (bool * option Z * hash_table_iterator_s) :=
  it ← next_bucket t (Z.to_nat (ht_size t)) it;
  match it_node it with
  | Some a =>
      n ← of_option Dangling (nh_nodes h !! a);
      Ok (true, hn_data n, mk_iterator (it_index it) (hn_next n))
  | None => Ok (false, None, it)
  end.

(** [while (hashtable_iterator_getnext(&it, &data)) ...] *)
Fixpoint iterate (h : node_heap) (t : hash_table_t) (fuel : nat) (it : hash_table_iterator_s) : outcome (list (option Z)) :=
  match fuel with
  | O => Fault Diverge
  | Datatypes.S fuel =>
      '(more, data, it) ← hashtable_iterator_getnext h t it;
      if more : bool then l ← iterate h t fuel it; Ok (data :: l) else Ok []
  end.

(** ** Sequences of calls *)

Inductive ht_call : Type :=
| HtInsert (key : Z) (data : option Z)
| HtRemove (key : Z)
| HtGet (key : Z)
| HtIsKeyExists (key : Z)
| HtIterate
| HtDestroy.

Inductive ht_reply : Type :=
| HtCode (rc : hashtable_rc_t)
| HtData (rc : hashtable_rc_t) (data : option Z)
| HtAll (l : list (option Z)).

Definition ht_state : Type := node_heap * S * option hash_table_t.

Definition ht_step (st : ht_state) (c : ht_call) : outcome (ht_reply * ht_state) :=
  let '(h, s, t) := st in
  match c with
  | HtInsert key data => '(rc, h, s, t) ← hashtable_insert h s t key data; Ok (HtCode rc, (h, s, t))
  | HtRemove key => '(rc, h, s, t) ← hashtable_remove h s t key; Ok (HtCode rc, (h, s, t))
  | HtGet key => '(rc, data) ← hashtable_get h t key; Ok (HtData rc data, st)
  | HtIsKeyExists key => rc ← hashtable_is_key_exists h t key; Ok (HtCode rc, st)
  | HtIterate =>
      t ← of_option NullDeref t;
      it ← hashtable_get_iterator t;
      l ← iterate h t (Datatypes.S (chain_fuel h)) it;
      Ok (HtAll l, st)
  | HtDestroy => '(rc, h, s, t) ← hashtable_destroy h s t; Ok (HtCode rc, (h, s, t))
  end.

Fixpoint ht_run (st : ht_state) (cs : list ht_call) : outcome (list ht_reply * ht_state) :=
  match cs with
  | [] => Ok ([], st)
  | c :: cs => '(r, st) ← ht_step st c; '(rs, st) ← ht_run st cs; Ok (r :: rs, st)
  end.

Definition ht_start (size : Z) (hashfunc : option (Z -> Z)) (freefunc : Z -> S -> outcome S) (s : S) : ht_state :=
  (mk_node_heap ∅ 1, s, Some (hashtable_create size hashfunc freefunc)).

(** ** The finite map

    The state is the map and the memory of the user; [None] after destroy.  The
    order of iteration, and that in which destroy frees, are not specified. *)

Definition map_state : Type := option (gmap Z (option Z)) * S.

Section Spec.
Variable freefunc : Z -> S -> outcome S.

Definition free_one (data : option Z) (s : S) : outcome S := match data with Some p => freefunc p s | None => Ok s end.

Fixpoint free_all (l : list (option Z)) (s : S) : outcome S :=
  match l with [] => Ok s | d :: l => s ← free_one d s; free_all l s end.

Definition map_insert (M : gmap Z (option Z)) (s : S) (key : Z) (data : option Z) : outcome (ht_reply * map_state) :=
  match M !! key with
  | Some old => s ← free_one old s; Ok (HtCode HASH_TABLE_INSERT_OVERWRITTEN_DATA, (Some (<[key := data]> M), s))
  | None => Ok (HtCode HASH_TABLE_OK, (Some (<[key := data]> M), s))
  end.

Definition map_remove (M : gmap Z (option Z)) (s : S) (key : Z) : outcome (ht_reply * map_state) :=
  match M !! key with
  | Some old => s ← free_one old s; Ok (HtCode HASH_TABLE_OK, (Some (delete key M), s))
  | None => Ok (HtCode HASH_TABLE_KEY_NOT_EXISTS, (Some M, s))
  end.

Definition key_code (M : gmap Z (option Z)) (key : Z) : hashtable_rc_t :=
  match M !! key with Some _ => HASH_TABLE_OK | None => HASH_TABLE_KEY_NOT_EXISTS end.

Inductive map_step : map_state -> ht_call -> outcome (ht_reply * map_state) -> Prop :=
| step_insert M s key data : map_step (Some M, s) (HtInsert key data) (map_insert M s key data)
| step_remove M s key : map_step (Some M, s) (HtRemove key) (map_remove M s key)
| step_get M s key : map_step (Some M, s) (HtGet key) (Ok (HtData (key_code M key) (mjoin (M !! key)), (Some M, s)))
| step_exists M s key : map_step (Some M, s) (HtIsKeyExists key) (Ok (HtCode (key_code M key), (Some M, s)))
| step_iterate M s l : l ≡ₚ (map_to_list M).*2 -> map_step (Some M, s) HtIterate (Ok (HtAll l, (Some M, s)))
| step_destroy M s l : l ≡ₚ (map_to_list M).*2 ->
    map_step (Some M, s) HtDestroy (s ← free_all l s; Ok (HtCode HASH_TABLE_OK, (None, s)))
| step_null s c : c <> HtIterate ->
    map_step (None, s) c (Ok (match c with HtGet _ => HtData HASH_TABLE_BAD_PARAMETER_HASHTABLE None
                              | _ => HtCode HASH_TABLE_BAD_PARAMETER_HASHTABLE end, (None, s)))
| step_iterate_null s : map_step (None, s) HtIterate (Fault NullDeref).

Inductive map_runs : map_state -> list ht_call -> outcome (list ht_reply * map_state) -> Prop :=
| runs_nil ms : map_runs ms [] (Ok ([], ms))
| runs_fault ms c cs f : map_step ms c (Fault f) -> map_runs ms (c :: cs) (Fault f)
| runs_cons ms c cs r ms' o : map_step ms c (Ok (r, ms')) -> map_runs ms' cs o ->
    map_runs ms (c :: cs) ('(rs, ms) ← o; Ok (r :: rs, ms)).
End Spec.

(** ** Chains

    [(a, (k, d))] is the node at address [a] with key [k] and data [d]. *)

Abbreviation entry := (Z * (Z * option Z))%type (only parsing).

Fixpoint lseg (h : gmap Z hash_node_t) (p : option Z) (l : list entry) (q : option Z) : Prop :=
  match l with
  | [] => p = q
  | (a, (k, d)) :: l => p = Some a /\ exists nx, h !! a = Some (mk_hash_node k d nx) /\ lseg h nx l q
  end.

Lemma lseg_app h p l1 l2 r : lseg h p (l1 ++ l2) r <-> exists q, lseg h p l1 q /\ lseg h q l2 r.
Proof.
  revert p. induction l1 as [|[a [k d]] l1 IH]; intros p; cbn [lseg app]; [naive_solver|].
  split.
  - intros (-> & nx & Ha & (q & H1 & H2)%IH). naive_solver.
  - intros (q & (-> & nx & Ha & H1) & H2). split; [done|]. exists nx. split; [done|]. apply IH. eauto.
Qed.

Lemma lseg_frame h h' p l q : (forall a, a ∈ l.*1 -> h' !! a = h !! a) -> lseg h p l q -> lseg h' p l q.
Proof.
  revert p. induction l as [|[a [k d]] l IH]; intros p Hf; cbn [lseg]; [done|].
  intros (-> & nx & Ha & Hl). split; [done|]. exists nx. split.
  - rewrite Hf; [done|]. cbn. set_solver.
  - apply IH; [|done]. intros b Hb. apply Hf. cbn. set_solver.
Qed.

Lemma lseg_lookup h p l q a : lseg h p l q -> a ∈ l.*1 -> is_Some (h !! a).
Proof.
  revert p. induction l as [|[b [k d]] l IH]; intros p; cbn; [set_solver|].
  intros (-> & nx & Hb & Hl) [->|Ha]%elem_of_cons; eauto.
Qed.

(** Distinct addresses of a heap are no more than its nodes. *)
Lemma addrs_size (h : gmap Z hash_node_t) (l : list Z) : NoDup l -> (forall a, a ∈ l -> is_Some (h !! a)) -> (length l <= size h)%nat.
Proof.
  intros Hnd Hl. rewrite <- (size_list_to_set (C := gset Z)), <- size_dom by done.
  apply subseteq_size. intros a Ha%elem_of_list_to_set. by apply elem_of_dom, Hl.
Qed.

(** The search goes over nodes of other keys. *)
Lemma find_node_skip h fuel prev p l q key :
  lseg (nh_nodes h) p l q -> key ∉ l.*2.*1 -> (length l <= fuel)%nat ->
  find_node h fuel prev p key =
    find_node h (fuel - length l) (match last l with Some e => Some (fst e) | None => prev end) q key.
Proof.
  revert fuel prev p. induction l as [|[a [k d]] l IH]; intros fuel prev p; cbn [lseg fmap list_fmap fst snd length].
  { intros -> _ _. by rewrite Nat.sub_0_r. }
  intros (-> & nx & Ha & Hl) [Hk Hin]%not_elem_of_cons Hf. destruct fuel as [|fuel]; [lia|].
  cbn [find_node]. rewrite Ha. cbn [of_option mbind outcome_bind hn_key hn_next].
  destruct (k =? key) eqn:E; zify_bool; [congruence|]. rewrite (IH fuel (Some a) nx Hl Hin) by lia.
  cbn [Nat.sub]. by destruct l as [|e l] using rev_ind; [|rewrite app_comm_cons, !last_snoc].
Qed.
(** ** The table and the map

    [L i] are the nodes of bucket [i], in order. *)

Definition hash_of (t : hash_table_t) (key : Z) : Z := ht_hashfunc t key mod ht_size t.

Record ht_rel (h : node_heap) (t : hash_table_t) (M : gmap Z (option Z)) (L : Z -> list entry) : Prop := {
  hr_size : 0 < ht_size t /\ zlen (ht_nodes t) = ht_size t;
  hr_chain : forall i p, zget (ht_nodes t) i = Some p -> lseg (nh_nodes h) p (L i) None;
  hr_bucket : forall i a k d, (a, (k, d)) ∈ L i -> hash_of t k = i;
  hr_addr : forall i, NoDup (L i).*1;
  hr_disj : forall i j a, a ∈ (L i).*1 -> a ∈ (L j).*1 -> i = j;
  hr_keys : forall i, NoDup (L i).*2.*1;
  hr_map : forall k d, M !! k = Some d <-> exists a, (a, (k, d)) ∈ L (hash_of t k);
  hr_dom : forall a, is_Some (nh_nodes h !! a) <-> exists i, a ∈ (L i).*1;
  hr_next : forall a, is_Some (nh_nodes h !! a) -> a < nh_next h }.

Lemma hash_of_range h t M L k : ht_rel h t M L -> 0 <= hash_of t k < ht_size t.
Proof. intros R. apply Z.mod_pos_bound, (hr_size _ _ _ _ R). Qed.

Lemma create_rel size hashfunc freefunc : 0 < size ->
  ht_rel (mk_node_heap ∅ 1) (hashtable_create size hashfunc freefunc) ∅ (fun _ => []).
Proof.
  intros Hs. split; cbn; try (intros; set_solver).
  - unfold zlen. rewrite length_replicate. lia.
  - intros i p. unfold zget. case_if; [|done]. intros [-> _]%lookup_replicate. done.
  - intros. constructor.
  - intros. constructor.
  - intros a. rewrite lookup_empty. split; [by intros []|set_solver].
  - intros a. rewrite lookup_empty. by intros [].
Qed.

Lemma bucket_ok h t M L k : ht_rel h t M L ->
  exists p, bucket t k = Ok (hash_of t k, p) /\ zget (ht_nodes t) (hash_of t k) = Some p /\ lseg (nh_nodes h) p (L (hash_of t k)) None.
Proof.
  intros R. pose proof (hash_of_range _ _ _ _ k R) as Hr. destruct (hr_size _ _ _ _ R) as [Hs Hl].
  destruct (zget_ok (ht_nodes t) (hash_of t k)) as [p Hp]; [lia|]. exists p. split_and!; [|done|by apply (hr_chain _ _ _ _ R)].
  unfold bucket. destruct (ht_size t =? 0) eqn:E; zify_bool; [lia|]. cbn [negb require mbind outcome_bind].
  fold (hash_of t k). by rewrite Hp.
Qed.

Lemma chain_fuel_ok h t M L i : ht_rel h t M L -> (length (L i) <= chain_fuel h)%nat.
Proof.
  intros R. rewrite <- (length_fmap fst). apply addrs_size; [apply (hr_addr _ _ _ _ R)|].
  intros a Ha. apply (hr_dom _ _ _ _ R). eauto.
Qed.

(** The walk finds the key exactly when the map has it, at its place in the
    chain. *)
Lemma find_missing h t M L k p : ht_rel h t M L -> lseg (nh_nodes h) p (L (hash_of t k)) None -> M !! k = None ->
  k ∉ (L (hash_of t k)).*2.*1 /\ find_node h (chain_fuel h) None p k = Ok None.
Proof.
  intros R Hp Hk. assert (k ∉ (L (hash_of t k)).*2.*1) as Hn.
  { intros Hin. apply list_elem_of_fmap in Hin as ([k1 d] & Ek & Hin). apply list_elem_of_fmap in Hin as ([a kd] & Ekd & Hin).
    cbn in Ek, Ekd. subst k1 kd.
    assert (M !! k = Some d) by (apply (hr_map _ _ _ _ R); eauto). congruence. }
  split; [done|]. rewrite (find_node_skip _ _ _ _ _ _ _ Hp Hn (chain_fuel_ok _ _ _ _ _ R)).
  by destruct (_ - _)%nat.
Qed.

Lemma find_present h t M L k p d : ht_rel h t M L -> lseg (nh_nodes h) p (L (hash_of t k)) None -> M !! k = Some d ->
  exists l1 a l2 nx, L (hash_of t k) = l1 ++ (a, (k, d)) :: l2 /\
    lseg (nh_nodes h) p l1 (Some a) /\ nh_nodes h !! a = Some (mk_hash_node k d nx) /\ lseg (nh_nodes h) nx l2 None /\
    find_node h (chain_fuel h) None p k = Ok (Some (fst <$> last l1, a, mk_hash_node k d nx)).
Proof.
  intros R Hp [a Ha]%(hr_map _ _ _ _ R). pose proof (chain_fuel_ok _ _ _ _ (hash_of t k) R) as Hf.
  pose proof (hr_keys _ _ _ _ R (hash_of t k)) as Hnd.
  apply list_elem_of_split in Ha as (l1 & l2 & E). rewrite E in *.
  apply lseg_app in Hp as (q & H1 & -> & nx & Ha & H2). exists l1, a, l2, nx. split_and!; [done..|].
  rewrite !fmap_app in Hnd. apply NoDup_app in Hnd as (_ & Hk & _). rewrite length_app in Hf. cbn [length] in Hf.
  rewrite (find_node_skip _ _ _ _ _ _ k H1); [|intros Hin; apply (Hk _ Hin); cbn; set_solver|lia].
  destruct (chain_fuel h - length l1)%nat eqn:En; [lia|]. cbn [find_node]. rewrite Ha.
  cbn [of_option mbind outcome_bind hn_key]. rewrite Z.eqb_refl. by destruct (last l1).
Qed.

(** Changing one bucket. *)
Definition set_bucket (L : Z -> list entry) (i : Z) (l : list entry) : Z -> list entry := fun j => if decide (j = i) then l else L j.

Lemma rel_bucket h t M L h' t' M' i l' p' :
  ht_rel h t M L -> 0 <= i < ht_size t ->
  ht_size t' = ht_size t -> ht_hashfunc t' = ht_hashfunc t -> ht_nodes t' = <[Z.to_nat i := p']> (ht_nodes t) ->
  lseg (nh_nodes h') p' l' None -> NoDup l'.*1 -> NoDup l'.*2.*1 -> (forall a k d, (a, (k, d)) ∈ l' -> hash_of t k = i) ->
  (forall a, a ∈ l'.*1 -> a ∈ (L i).*1 \/ nh_nodes h !! a = None) ->
  (forall a, a ∉ l'.*1 -> nh_nodes h' !! a = if decide (a ∈ (L i).*1) then None else nh_nodes h !! a) ->
  nh_next h <= nh_next h' -> (forall a, a ∈ l'.*1 -> a < nh_next h') ->
  (forall k d, M' !! k = Some d <-> if decide (hash_of t k = i) then exists a, (a, (k, d)) ∈ l' else M !! k = Some d) ->
  ht_rel h' t' M' (set_bucket L i l').
Proof.
  intros R Hi Es Eh En Hl Hna Hnk Hb Hnew Hold Hn1 Hn2 HM.
  assert (forall k, hash_of t' k = hash_of t k) as Ehash by (intros; unfold hash_of; by rewrite Es, Eh).
  assert (forall j a, j <> i -> a ∈ (L j).*1 -> a ∉ l'.*1) as Hsep.
  { intros j a Hj Ha Hin. destruct (Hnew a Hin) as [Ha'|Ha']; [by apply Hj, (hr_disj _ _ _ _ R j i a)|].
    assert (is_Some (nh_nodes h !! a)) as [? ?] by (apply (hr_dom _ _ _ _ R); eauto). congruence. }
  assert (forall j a, j <> i -> a ∈ (L j).*1 -> nh_nodes h' !! a = nh_nodes h !! a) as Hframe.
  { intros j a Hj Ha. rewrite Hold by eauto. rewrite decide_False; [done|]. intros Ha'. by apply Hj, (hr_disj _ _ _ _ R j i a). }
  split.
  - rewrite Es, En. unfold zlen. rewrite length_insert. apply (hr_size _ _ _ _ R).
  - intros j p. unfold set_bucket. rewrite En. unfold zget. case_if; [|done]. case_decide as Hj.
    + subst. rewrite list_lookup_insert_eq; [naive_solver|]. destruct (hr_size _ _ _ _ R) as [_ Hz]. unfold zlen in Hz. lia.
    + rewrite list_lookup_insert_ne by lia. intros Hp. apply (lseg_frame (nh_nodes h)); [intros a Ha; by apply (Hframe j)|].
      apply (hr_chain _ _ _ _ R). unfold zget. destruct (0 <=? j) eqn:E; [done|]. zify_bool. lia.
  - intros j a k d. unfold set_bucket. rewrite Ehash. case_decide; [subst; apply Hb|apply (hr_bucket _ _ _ _ R)].
  - intros j. unfold set_bucket. case_decide; [done|apply (hr_addr _ _ _ _ R)].
  - intros j1 j2 a. unfold set_bucket. case_decide as E1; case_decide as E2; intros Ha1 Ha2; [congruence| | |by apply (hr_disj _ _ _ _ R) with a].
    + by apply (Hsep j2 a) in Ha2.
    + by apply (Hsep j1 a) in Ha1.
  - intros j. unfold set_bucket. case_decide; [done|apply (hr_keys _ _ _ _ R)].
  - intros k d. unfold set_bucket. rewrite HM, Ehash. case_decide; [done|apply (hr_map _ _ _ _ R)].
  - intros a. split.
    + intros Ha. destruct (decide (a ∈ l'.*1)) as [|Hn]; [exists i; unfold set_bucket; by rewrite decide_True|].
      rewrite (Hold a Hn) in Ha. case_decide as Hin; [by destruct Ha|].
      apply (hr_dom _ _ _ _ R) in Ha as [j Hj]. exists j. unfold set_bucket. rewrite decide_False; [done|]. by intros ->.
    + intros [j Hj]. unfold set_bucket in Hj. case_decide; [by eapply lseg_lookup|].
      rewrite (Hframe j a) by done. apply (hr_dom _ _ _ _ R). eauto.
  - intros a Ha. destruct (decide (a ∈ l'.*1)) as [|Hn]; [eauto|].
    rewrite (Hold a Hn) in Ha. case_decide; [by destruct Ha|]. apply (hr_next _ _ _ _ R) in Ha. lia.
Qed.

(** The key of a bucket's entries, in the map. *)
Lemma entry_split {A} (l1 l2 : list (Z * (Z * A))) a k (d d' : A) b k' (v : A) :
  NoDup (l1 ++ (a, (k, d)) :: l2).*2.*1 ->
  (b, (k', v)) ∈ l1 ++ (a, (k, d')) :: l2 <->
  if decide (k' = k) then b = a /\ v = d' else (b, (k', v)) ∈ l1 ++ (a, (k, d)) :: l2.
Proof.
  rewrite !fmap_app, NoDup_app, !fmap_cons, NoDup_cons. intros (_ & H1 & H2 & _).
  rewrite !elem_of_app, !elem_of_cons. case_decide as Hk; [|rewrite elem_of_app, elem_of_cons; intuition congruence].
  subst k'. split; [|intros [-> ->]; auto].
  assert (forall l : list (Z * (Z * A)), (b, (k, v)) ∈ l -> k ∈ l.*2.*1) as Hkey.
  { intros l Hin. apply list_elem_of_fmap. exists (k, v). split; [done|]. apply list_elem_of_fmap. by exists (b, (k, v)). }
  intros [Hin|[E|Hin]]; [|by injection E|].
  - destruct (H1 k (Hkey _ Hin)). cbn. set_solver.
  - destruct (H2 (Hkey _ Hin)).
Qed.

(** What the map has of a key, by its bucket. *)
Lemma map_bucket h t M L i k d : ht_rel h t M L -> hash_of t k = i -> M !! k = Some d <-> exists a, (a, (k, d)) ∈ L i.
Proof. intros R <-. apply (hr_map _ _ _ _ R). Qed.

Lemma insert_present h t M L k d d0 s : ht_rel h t M L -> M !! k = Some d0 ->
  exists h' L', ht_rel h' t (<[k := d]> M) L' /\
    hashtable_insert h s (Some t) k d = (s ← free_data t d0 s; Ok (HASH_TABLE_INSERT_OVERWRITTEN_DATA, h', s, Some t)).
Proof.
  intros R Hk. destruct (bucket_ok _ _ _ _ k R) as (p & Hb & Hp & Hl).
  destruct (find_present _ _ _ _ _ _ _ R Hl Hk) as (l1 & a & l2 & nx & E & H1 & Ha & H2 & Hf).
  pose proof (hr_addr _ _ _ _ R (hash_of t k)) as Hna. pose proof (hr_keys _ _ _ _ R (hash_of t k)) as Hnk.
  assert ((l1 ++ (a, (k, d)) :: l2).*1 = (L (hash_of t k)).*1) as Ea by (by rewrite E, !fmap_app).
  exists (set_node h a (mk_hash_node k d nx)), (set_bucket L (hash_of t k) (l1 ++ (a, (k, d)) :: l2)). split.
  - assert (a ∉ l1.*1 /\ a ∉ l2.*1) as [Hn1 Hn2].
    { rewrite E, fmap_app in Hna. apply NoDup_app in Hna as (_ & Hd & [Hn _]%NoDup_cons). split; [|done].
      intros Hin. apply (Hd _ Hin). cbn. set_solver. }
    assert (is_Some (nh_nodes h !! a)) as Hsa by eauto.
    apply (rel_bucket h t M L) with (p' := p); [done|by eapply hash_of_range|done|done| | |by rewrite Ea| | | | | | |].
    + rewrite list_insert_id; [done|]. apply zget_Some in Hp. naive_solver.
    + apply lseg_app. exists (Some a). unfold set_node. field_simpl. split.
      * apply (lseg_frame (nh_nodes h)); [|done]. intros b Hb'. rewrite lookup_insert_ne; [done|]. by intros ->.
      * split; [done|]. exists nx. rewrite lookup_insert_eq. split; [done|]. apply (lseg_frame (nh_nodes h)); [|done].
        intros b Hb'. rewrite lookup_insert_ne; [done|]. by intros ->.
    + by rewrite E, !fmap_app in *.
    + intros b k' d' Hin. rewrite E in Hnk. apply (entry_split _ _ _ _ _ _ _ _ _ Hnk) in Hin. case_decide; [by subst|].
      rewrite <- E in Hin. by apply (hr_bucket _ _ _ _ R) in Hin.
    + intros b. rewrite Ea. auto.
    + intros b. rewrite Ea. intros Hb'. rewrite decide_False by done. unfold set_node. field_simpl. rewrite lookup_insert_ne; [done|].
      intros ->. apply Hb'. rewrite <- Ea, fmap_app. cbn. set_solver.
    + unfold set_node. field_simpl. lia.
    + intros b. rewrite Ea. intros Hb'. unfold set_node. field_simpl. apply (hr_next _ _ _ _ R), (hr_dom _ _ _ _ R). eauto.
    + intros k' v. case_decide as Hh; [|by rewrite lookup_insert_ne by congruence].
      rewrite E in Hnk. setoid_rewrite (entry_split _ _ _ _ _ d _ _ _ Hnk). rewrite <- E. case_decide as Ek.
      * subst k'. rewrite lookup_insert_eq. naive_solver.
      * rewrite lookup_insert_ne by congruence. by apply (map_bucket h t M L).
  - cbn [hashtable_insert]. rewrite Hb. cbn [mbind outcome_bind]. rewrite Hf. done.
Qed.

Lemma insert_absent h t M L k d s : ht_rel h t M L -> M !! k = None ->
  exists h' l L', ht_rel h' (set_nodes t l) (<[k := d]> M) L' /\
    hashtable_insert h s (Some t) k d = Ok (HASH_TABLE_OK, h', s, Some (set_nodes t l)).
Proof.
  intros R Hk. destruct (bucket_ok _ _ _ _ k R) as (p & Hb & Hp & Hl). pose proof (hash_of_range _ _ _ _ k R) as Hr.
  destruct (find_missing _ _ _ _ _ _ R Hl Hk) as [Hnk Hf]. destruct (hr_size _ _ _ _ R) as [_ Hz].
  assert (forall i, nh_next h ∉ (L i).*1) as Hfresh.
  { intros i Hin. assert (nh_next h < nh_next h); [|lia]. apply (hr_next _ _ _ _ R), (hr_dom _ _ _ _ R). eauto. }
  assert (nh_nodes h !! nh_next h = None) as Hnone.
  { apply eq_None_not_Some. intros Hs%(hr_next _ _ _ _ R). lia. }
  exists (mk_node_heap (<[nh_next h := mk_hash_node k d p]> (nh_nodes h)) (nh_next h + 1)),
    (<[Z.to_nat (hash_of t k) := Some (nh_next h)]> (ht_nodes t)), (set_bucket L (hash_of t k) ((nh_next h, (k, d)) :: L (hash_of t k))). split.
  - apply (rel_bucket h t M L) with (p' := Some (nh_next h)); cbn; try done.
    + split; [done|]. exists p. rewrite lookup_insert_eq. split; [done|]. apply (lseg_frame (nh_nodes h)); [|done].
      intros b Hb'. rewrite lookup_insert_ne; [done|]. intros <-. by eapply Hfresh.
    + constructor; [apply Hfresh|apply (hr_addr _ _ _ _ R)].
    + constructor; [done|apply (hr_keys _ _ _ _ R)].
    + intros a k' d' [[= -> -> ->]|Hin]%elem_of_cons; [done|]. by apply (hr_bucket _ _ _ _ R) in Hin.
    + intros a [->|Ha]%elem_of_cons; auto.
    + intros a [Hne Ha]%not_elem_of_cons. rewrite decide_False by done. by rewrite lookup_insert_ne.
    + lia.
    + intros a [->|Ha]%elem_of_cons; [lia|]. assert (a < nh_next h); [|lia]. apply (hr_next _ _ _ _ R), (hr_dom _ _ _ _ R). eauto.
    + intros k' v. case_decide as Hh; [|by rewrite lookup_insert_ne by congruence].
      destruct (decide (k' = k)) as [->|Hne].
      * rewrite lookup_insert_eq. split; [intros [= ->]; eexists; by left|].
        intros [a [[= -> ->]|Hin]%elem_of_cons]; [done|].
        assert (M !! k = Some v) by (apply (map_bucket h t M L _ _ _ R Hh); eauto). congruence.
      * rewrite lookup_insert_ne, (map_bucket h t M L) by done. setoid_rewrite elem_of_cons. naive_solver.
  - cbn [hashtable_insert]. rewrite Hb. cbn [mbind outcome_bind]. rewrite Hf. cbn [mbind outcome_bind].
    rewrite zset_ok by lia. done.
Qed.

(** Taking a node out of its chain. *)
Lemma unlink_ok h t i p l1 a l2 nx key data :
  zget (ht_nodes t) i = Some p -> lseg (nh_nodes h) p l1 (Some a) -> nh_nodes h !! a = Some (mk_hash_node key data nx) ->
  lseg (nh_nodes h) nx l2 None -> NoDup (l1.*1 ++ a :: l2.*1) ->
  exists h1 t1 p', unlink h t i (fst <$> last l1) nx = Ok (h1, t1) /\
    ht_nodes t1 = <[Z.to_nat i := p']> (ht_nodes t) /\ ht_size t1 = ht_size t /\ ht_hashfunc t1 = ht_hashfunc t /\
    ht_freefunc t1 = ht_freefunc t /\ nh_next h1 = nh_next h /\
    lseg (nh_nodes (free_node h1 a)) p' (l1 ++ l2) None /\
    (forall x, x ∉ l1.*1 -> x <> a -> nh_nodes (free_node h1 a) !! x = nh_nodes h !! x).
Proof.
  intros Hp H1 Ha H2 Hnd. apply zget_Some in Hp as [Hi Hp].
  apply NoDup_app in Hnd as (Hn1 & Hd & [Hn2 _]%NoDup_cons).
  destruct l1 as [|[b [kb db]] l1 _] using rev_ind.
  - cbn [lseg] in H1. subst p. exists h, (set_nodes t (<[Z.to_nat i := nx]> (ht_nodes t))), nx.
    cbn [last unlink fmap option_fmap option_map]. rewrite zset_ok by done. cbn [of_option mbind outcome_bind].
    unfold free_node. field_simpl. split_and!; try done.
    + apply (lseg_frame (nh_nodes h)); [|done]. intros x Hx. rewrite lookup_delete_ne; [done|]. by intros ->.
    + intros x _ Hx. by rewrite lookup_delete_ne.
  - apply lseg_app in H1 as (q & H1 & -> & nb & Hb & E). cbn [lseg] in E. subst nb. rewrite fmap_app in *.
    assert (b <> a) as Hba by (intros ->; apply (Hd a); set_solver).
    exists (set_node h b (mk_hash_node kb db nx)), t, p. rewrite last_snoc. cbn [unlink fmap option_fmap option_map fst].
    rewrite Hb. cbn [of_option mbind outcome_bind]. unfold free_node, set_node. field_simpl. split_and!; try done.
    + by rewrite list_insert_id.
    + rewrite <- app_assoc. apply lseg_app. exists (Some b). split.
      * apply (lseg_frame (nh_nodes h)); [|done]. intros x Hx. rewrite lookup_delete_ne, lookup_insert_ne; [done| |].
        -- intros <-. apply NoDup_app in Hn1 as (_ & Hn1 & _). apply (Hn1 _ Hx). cbn. set_solver.
        -- intros <-. apply (Hd a); set_solver.
      * cbn. split; [done|]. exists nx. rewrite lookup_delete_ne, lookup_insert_eq by done. split; [done|].
        apply (lseg_frame (nh_nodes h)); [|done]. intros x Hx. rewrite lookup_delete_ne, lookup_insert_ne; [done| |].
        -- intros <-. apply (Hd b); set_solver.
        -- by intros <-.
    + intros x Hx Hxa. rewrite lookup_delete_ne, lookup_insert_ne; [done| |done]. intros ->. apply Hx. cbn. set_solver.
Qed.

Lemma entry_drop {A} (l1 l2 : list (Z * (Z * A))) a k (d : A) b k' (v : A) :
  NoDup (l1 ++ (a, (k, d)) :: l2).*2.*1 ->
  (b, (k', v)) ∈ l1 ++ l2 <-> k' <> k /\ (b, (k', v)) ∈ l1 ++ (a, (k, d)) :: l2.
Proof.
  rewrite !fmap_app, NoDup_app, !fmap_cons, NoDup_cons. intros (_ & H1 & H2 & _). cbn [fst snd] in *.
  rewrite !elem_of_app, !elem_of_cons.
  assert (forall l : list (Z * (Z * A)), (b, (k', v)) ∈ l -> k' ∈ l.*2.*1) as Hkey.
  { intros l Hin. apply list_elem_of_fmap. exists (k', v). split; [done|]. apply list_elem_of_fmap. by exists (b, (k', v)). }
  split; [|intuition congruence]. intros [Hin|Hin]; (split; [intros ->|by auto]).
  - apply (H1 k (Hkey _ Hin)). by left.
  - by apply H2, Hkey.
Qed.

Lemma remove_present h t M L k d s : ht_rel h t M L -> M !! k = Some d ->
  exists h' t' L', ht_rel h' t' (delete k M) L' /\ ht_freefunc t' = ht_freefunc t /\ ht_size t' = ht_size t /\
    hashtable_remove h s (Some t) k = (s ← free_data t d s; Ok (HASH_TABLE_OK, h', s, Some t')).
Proof.
  intros R Hk. destruct (bucket_ok _ _ _ _ k R) as (p & Hb & Hp & Hl).
  destruct (find_present _ _ _ _ _ _ _ R Hl Hk) as (l1 & a & l2 & nx & E & H1 & Ha & H2 & Hf).
  pose proof (hr_addr _ _ _ _ R (hash_of t k)) as Hna. pose proof (hr_keys _ _ _ _ R (hash_of t k)) as Hnk.
  rewrite E, fmap_app in Hna. cbn [fmap list_fmap fst] in Hna. rewrite E in Hnk.
  destruct (unlink_ok h t (hash_of t k) p l1 a l2 nx k d) as (h1 & t1 & p' & Hu & Hn & Es & Eh & Ef & Ex & Hl' & Hfr); [done..|].
  apply NoDup_app in Hna as (Hna1 & Hd & [Hn2 Hna2]%NoDup_cons).
  assert (forall x, x ∈ (L (hash_of t k)).*1 <-> x = a \/ x ∈ (l1 ++ l2).*1) as HL.
  { intros x. rewrite E, !fmap_app, !elem_of_app. cbn [fmap list_fmap fst]. rewrite elem_of_cons. tauto. }
  assert (a ∉ l1.*1) as Hn1 by (intros Hin; apply (Hd _ Hin); by left).
  exists (free_node h1 a), t1, (set_bucket L (hash_of t k) (l1 ++ l2)). split_and!; [|done|done|].
  - apply (rel_bucket h t M L) with (p' := p'); [done|by eapply hash_of_range|done..| | | | | | | |].
    + rewrite fmap_app. apply NoDup_app. split_and!; [done| |done]. intros x Hx1 Hx2. apply (Hd _ Hx1). by right.
    + rewrite !fmap_app in *. apply NoDup_app in Hnk as (Hk1 & Hk2 & [_ Hk3]%NoDup_cons). apply NoDup_app. split_and!; [done| |done].
      intros x Hx1 Hx2. apply (Hk2 _ Hx1). by right.
    + intros b k' d' Hin. apply (entry_drop _ _ _ _ _ _ _ _ Hnk) in Hin as [_ Hin]. rewrite <- E in Hin. by apply (hr_bucket _ _ _ _ R) in Hin.
    + intros x Hx. left. apply HL. auto.
    + intros x Hx. case_decide as Hin.
      * apply HL in Hin as [->|Hin]; [|done]. unfold free_node. field_simpl. apply lookup_delete_eq.
      * rewrite HL in Hin. apply Hfr; [|tauto]. intros Hx1. apply Hx. rewrite fmap_app. set_solver.
    + unfold free_node. field_simpl. lia.
    + intros x Hx. unfold free_node. field_simpl. rewrite Ex. apply (hr_next _ _ _ _ R), (hr_dom _ _ _ _ R).
      exists (hash_of t k). apply HL. auto.
    + intros k' v. case_decide as Hh.
      * setoid_rewrite (entry_drop _ _ _ _ _ _ _ _ Hnk). rewrite lookup_delete_Some, <- E, (map_bucket h t M L) by done. naive_solver.
      * rewrite lookup_delete_ne; [done|congruence].
  - cbn [hashtable_remove]. rewrite Hb. cbn [mbind outcome_bind]. rewrite Hf. cbn [mbind outcome_bind hn_next hn_data].
    rewrite Hu. cbn [mbind outcome_bind]. unfold free_data. by rewrite Ef.
Qed.

Lemma get_ok h t M L k : ht_rel h t M L ->
  hashtable_get h (Some t) k = Ok (key_code M k, mjoin (M !! k)) /\ hashtable_is_key_exists h (Some t) k = Ok (key_code M k) /\
  (M !! k = None -> forall s, hashtable_remove h s (Some t) k = Ok (HASH_TABLE_KEY_NOT_EXISTS, h, s, Some t)).
Proof.
  intros R. destruct (bucket_ok _ _ _ _ k R) as (p & Hb & Hp & Hl). unfold key_code. cbn [hashtable_get hashtable_is_key_exists hashtable_remove].
  rewrite Hb. cbn [mbind outcome_bind]. destruct (M !! k) as [d|] eqn:Hk.
  - destruct (find_present _ _ _ _ _ _ _ R Hl Hk) as (l1 & a & l2 & nx & E & _ & _ & _ & Hf). rewrite Hf. by destruct d.
  - destruct (find_missing _ _ _ _ _ _ R Hl Hk) as [_ Hf]. by rewrite Hf.
Qed.

(** ** All nodes *)

(** The nodes of the buckets from [i] on. *)
Definition rest (L : Z -> list entry) (i size : Z) : list entry := seqZ i (size - i) ≫= L.

Lemma rest_cons L i size : i < size -> rest L i size = L i ++ rest L (i + 1) size.
Proof. intros Hi. unfold rest. rewrite seqZ_cons by lia. cbn. repeat f_equal; lia. Qed.

Lemma rest_nil L size : rest L size size = [].
Proof. unfold rest. by rewrite Z.sub_diag. Qed.

Lemma elem_of_rest L i size e : e ∈ rest L i size <-> exists j, i <= j < size /\ e ∈ L j.
Proof.
  unfold rest. rewrite list_elem_of_bind. setoid_rewrite elem_of_seqZ.
  split; intros (j & H1 & H2); exists j; (split; [lia || done|lia || done]).
Qed.

Lemma NoDup_fmap_inj {A B} (f : A -> B) l x y : NoDup (f <$> l) -> x ∈ l -> y ∈ l -> f x = f y -> x = y.
Proof.
  intros Hnd [i Hx]%list_elem_of_lookup [j Hy]%list_elem_of_lookup Hf. assert (i = j) as <-; [|congruence].
  apply (NoDup_lookup (f <$> l) i j (f x)); [done|by rewrite list_lookup_fmap, Hx|by rewrite list_lookup_fmap, Hy, Hf].
Qed.

Lemma rest_all h t M L : ht_rel h t M L -> NoDup (rest L 0 (ht_size t)).*1 /\ (rest L 0 (ht_size t)).*2 ≡ₚ map_to_list M.
Proof.
  intros R. assert (forall e, e ∈ rest L 0 (ht_size t) <-> e ∈ L (hash_of t e.2.1)) as Hin.
  { intros [a [k d]]. rewrite elem_of_rest. cbn. split.
    - intros (j & _ & Hj). by rewrite (hr_bucket _ _ _ _ R _ _ _ _ Hj).
    - intros Hj. exists (hash_of t k). split; [by eapply hash_of_range|done]. }
  assert (NoDup (rest L 0 (ht_size t))) as Hnd.
  { apply NoDup_bind; [| |apply NoDup_seqZ].
    - intros i j [a [k d]] _ _ Hi%(hr_bucket _ _ _ _ R) Hj%(hr_bucket _ _ _ _ R). congruence.
    - intros i _. eapply NoDup_fmap_1, (hr_addr _ _ _ _ R). }
  split.
  - apply NoDup_fmap_2_strong; [|done]. intros x y Hx%Hin Hy%Hin Exy.
    apply (NoDup_fmap_inj fst (L (hash_of t x.2.1))); [apply (hr_addr _ _ _ _ R)|done| |done].
    rewrite (hr_disj _ _ _ _ R (hash_of t x.2.1) (hash_of t y.2.1) x.1); [done|by apply list_elem_of_fmap_2|].
    rewrite Exy. by apply list_elem_of_fmap_2.
  - apply NoDup_Permutation; [|apply NoDup_map_to_list|].
    + apply NoDup_fmap_2_strong; [|done]. intros x y Hx%Hin Hy%Hin Exy. rewrite <- Exy in Hy.
      apply (NoDup_fmap_inj (fun e => e.2.1) (L (hash_of t x.2.1))); [|done..|by rewrite Exy].
      change (NoDup ((fst ∘ snd) <$> L (hash_of t x.2.1))). rewrite list_fmap_compose. apply (hr_keys _ _ _ _ R).
    + intros [k d]. rewrite elem_of_map_to_list, (hr_map _ _ _ _ R), list_elem_of_fmap. split.
      * intros ([a kd] & E & He). cbn in E. subst kd. apply Hin in He. eauto.
      * intros [a He]. exists (a, (k, d)). split; [done|]. by apply Hin.
Qed.

Lemma rest_data h t M L : ht_rel h t M L -> (rest L 0 (ht_size t)).*2.*2 ≡ₚ (map_to_list M).*2.
Proof. intros R. by rewrite (proj2 (rest_all _ _ _ _ R)). Qed.

(** There are as many nodes as keys. *)
Lemma rel_nodes h t M L : ht_rel h t M L -> size (nh_nodes h) = size M /\ length (rest L 0 (ht_size t)) = size M.
Proof.
  intros R. destruct (rest_all _ _ _ _ R) as [Hnd Hp].
  assert (length (rest L 0 (ht_size t)) = size M) as El.
  { rewrite <- (length_map_to_list M). by rewrite <- Hp, length_fmap. }
  split; [|done]. rewrite <- El, <- (length_fmap fst), <- (size_list_to_set (C := gset Z)), <- size_dom by done.
  f_equal. apply set_eq. intros a. rewrite elem_of_dom, elem_of_list_to_set, (hr_dom _ _ _ _ R), list_elem_of_fmap. split.
  - intros (i & (e & Ea & He)%list_elem_of_fmap). exists e. split; [done|]. destruct e as [b [k d]].
    pose proof (hr_bucket _ _ _ _ R _ _ _ _ He) as <-. apply elem_of_rest. exists (hash_of t k). split; [by eapply hash_of_range|done].
  - intros (e & Ea & (j & _ & He)%elem_of_rest). exists j. subst a. by apply list_elem_of_fmap_2.
Qed.

Lemma next_bucket_ok h t M L fuel i : ht_rel h t M L -> ht_size t < 2 ^ 31 -> 0 <= i < ht_size t -> ht_size t - i <= Z.of_nat fuel ->
  exists it, next_bucket t fuel (mk_iterator i None) = Ok it /\
  match it_node it with
  | None => rest L (i + 1) (ht_size t) = []
  | Some a => i < it_index it < ht_size t /\ zget (ht_nodes t) (it_index it) = Some (Some a) /\
      rest L (i + 1) (ht_size t) = rest L (it_index it) (ht_size t)
  end.
Proof.
  intros R Hs. revert i. induction fuel as [|fuel IH]; intros i Hi Hf; [lia|]. cbn [next_bucket it_node it_index].
  unfold u64. rewrite Z.mod_small by lia. destruct (i + 1 >=? ht_size t) eqn:E; zify_bool.
  { eexists. split; [done|]. cbn. replace (i + 1) with (ht_size t) by lia. apply rest_nil. }
  destruct (hr_size _ _ _ _ R) as [_ Hz]. destruct (zget_ok (ht_nodes t) (i + 1)) as [p Hp]; [lia|].
  rewrite Hp. cbn [of_option mbind outcome_bind]. destruct p as [a|].
  - exists (mk_iterator (i + 1) (Some a)). cbn. split; [by destruct fuel|]. by split_and!; [lia|lia| |].
  - destruct (IH (i + 1)) as (it & -> & Hit); [lia|lia|]. exists it. split; [done|].
    pose proof (hr_chain _ _ _ _ R _ _ Hp) as Hc. rewrite (rest_cons L (i + 1)) by lia.
    destruct (L (i + 1)) as [|[? [? ?]] ?]; [|by destruct Hc]. cbn. destruct (it_node it); [|done].
    destruct Hit as (? & ? & ?). by split_and!; [lia|lia| |].
Qed.

(** A walk from the node [p] of bucket [i]. *)
Lemma iterate_ok h t M L fuel i p l : ht_rel h t M L -> ht_size t < 2 ^ 31 -> 0 <= i < ht_size t ->
  lseg (nh_nodes h) p l None -> (length l + length (rest L (i + 1) (ht_size t)) < fuel)%nat ->
  iterate h t fuel (mk_iterator i p) = Ok (l ++ rest L (i + 1) (ht_size t)).*2.*2.
Proof.
  intros R Hs. revert i p l. induction fuel as [|fuel IH]; intros i p l Hi Hl Hf; [lia|].
  assert (forall j a k d l', 0 <= j < ht_size t -> lseg (nh_nodes h) (Some a) ((a, (k, d)) :: l') None ->
    (length l' + length (rest L (j + 1) (ht_size t)) < fuel)%nat ->
    (n ← of_option Dangling (nh_nodes h !! a);
     l ← iterate h t fuel (mk_iterator j (hn_next n)); Ok (hn_data n :: l)) =
    Ok (((a, (k, d)) :: l') ++ rest L (j + 1) (ht_size t)).*2.*2) as Hstep.
  { intros j a k d l' Hj (_ & nx & Ha & Hl') Hf'. rewrite Ha. cbn [of_option mbind outcome_bind hn_next hn_data].
    by rewrite (IH j nx l'). }
  cbn [iterate]. unfold hashtable_iterator_getnext. destruct l as [|[a [k d]] l].
  - cbn in Hl. subst p. destruct (next_bucket_ok h t M L (Z.to_nat (ht_size t)) i) as (it & -> & Hit); [done..|lia|].
    cbn [mbind outcome_bind]. destruct it as [j [a|]]; cbn [it_node it_index] in *.
    + destruct Hit as (Hj & Hp & E). rewrite E, rest_cons by lia. rewrite E, rest_cons, length_app in Hf by lia.
      pose proof (hr_chain _ _ _ _ R _ _ Hp) as Hc. destruct (L j) as [|[a' [k d]] l'] eqn:El; [done|].
      destruct Hc as ([= <-] & Hc). etrans; [|apply (Hstep j a k d l'); [lia|by split|cbn in *; lia]].
      by destruct (nh_nodes h !! a).
    + by rewrite Hit.
  - assert (p = Some a) as -> by apply Hl. etrans; [|apply (Hstep i a k d l); [done|done|cbn in *; lia]].
    destruct (Z.to_nat (ht_size t)); cbn; by destruct (nh_nodes h !! a).
Qed.

(** ** Destruction *)

Lemma free_all_app ff l1 l2 s : free_all ff (l1 ++ l2) s = (s ← free_all ff l1 s; free_all ff l2 s).
Proof. revert s. induction l1 as [|d l1 IH]; intros s; [done|]. cbn. destruct (free_one ff d s); cbn; [apply IH|done]. Qed.

Lemma free_nodes_lookup as_ h a :
  nh_nodes (foldl free_node h as_) !! a = if decide (a ∈ as_) then None else nh_nodes h !! a.
Proof.
  revert h. induction as_ as [|b as_ IH]; intros h; cbn [foldl]; [done|]. rewrite IH. unfold free_node. field_simpl.
  destruct (decide (a ∈ as_)); [by rewrite decide_True by set_solver|]. destruct (decide (a = b)) as [->|].
  - rewrite decide_True by set_solver. apply lookup_delete_eq.
  - rewrite decide_False by set_solver. by rewrite lookup_delete_ne.
Qed.

Lemma free_chain_ok t fuel p l h s : lseg (nh_nodes h) p l None -> NoDup l.*1 -> (length l <= fuel)%nat ->
  free_chain t fuel p h s = (s ← free_all (ht_freefunc t) l.*2.*2 s; Ok (foldl free_node h l.*1, s)).
Proof.
  revert fuel p h s. induction l as [|[a [k d]] l IH]; intros fuel p h s Hl Hnd Hf.
  { cbn in Hl. subst p. by destruct fuel. }
  destruct Hl as (-> & nx & Ha & Hl). destruct fuel as [|fuel]; [cbn in Hf; lia|].
  cbn [free_chain fmap list_fmap fst snd free_all foldl]. rewrite Ha. cbn [of_option mbind outcome_bind hn_data hn_next].
  apply NoDup_cons in Hnd as [Hin Hnd]. change (free_data t d s) with (free_one (ht_freefunc t) d s).
  destruct (free_one _ d s) as [s'|f]; [|done]. cbn [mbind outcome_bind]. apply IH; [|done|cbn in Hf; lia].
  apply (lseg_frame (nh_nodes h)); [|done]. intros b Hb. unfold free_node. field_simpl. rewrite lookup_delete_ne; [done|]. by intros ->.
Qed.

Lemma destroy_loop h0 t M L n lo h s : ht_rel h0 t M L -> 0 <= lo -> lo + Z.of_nat n = ht_size t ->
  (forall j a, lo <= j -> a ∈ (L j).*1 -> nh_nodes h !! a = nh_nodes h0 !! a) ->
  cfor n lo (fun n '(h, s) => node ← of_option OutOfBounds (zget (ht_nodes t) n); free_chain t (chain_fuel h) node h s) (h, s) =
    (s ← free_all (ht_freefunc t) (rest L lo (ht_size t)).*2.*2 s; Ok (foldl free_node h (rest L lo (ht_size t)).*1, s)).
Proof.
  intros R. revert lo h s. induction n as [|n IH]; intros lo h s Hlo Hn Hfr.
  { replace lo with (ht_size t) by lia. by rewrite rest_nil. }
  destruct (hr_size _ _ _ _ R) as [_ Hz]. destruct (zget_ok (ht_nodes t) lo) as [p Hp]; [lia|].
  assert (lseg (nh_nodes h) p (L lo) None) as Hl.
  { apply (lseg_frame (nh_nodes h0)); [intros a Ha; by apply (Hfr lo)|by apply (hr_chain _ _ _ _ R)]. }
  cbn [cfor]. rewrite Hp. cbn [of_option mbind outcome_bind].
  rewrite (free_chain_ok _ _ _ _ _ _ Hl (hr_addr _ _ _ _ R lo)).
  2: { rewrite <- (length_fmap fst). apply addrs_size; [apply (hr_addr _ _ _ _ R)|]. intros a Ha. by eapply lseg_lookup. }
  rewrite rest_cons, !fmap_app, free_all_app by lia. destruct (free_all _ (L lo).*2.*2 s) as [s'|f]; [|done].
  cbn [mbind outcome_bind]. rewrite foldl_app. apply IH; [lia..|].
  intros j a Hj Ha. rewrite free_nodes_lookup, decide_False; [apply (Hfr j); [lia|done]|].
  intros Ha'. pose proof (hr_disj _ _ _ _ R _ _ _ Ha Ha'). lia.
Qed.

Lemma destroy_ok h t M L s : ht_rel h t M L ->
  exists h', nh_nodes h' = ∅ /\
    hashtable_destroy h s (Some t) =
      (s ← free_all (ht_freefunc t) (rest L 0 (ht_size t)).*2.*2 s; Ok (HASH_TABLE_OK, h', s, None)).
Proof.
  intros R. destruct (hr_size _ _ _ _ R) as [Hs _]. exists (foldl free_node h (rest L 0 (ht_size t)).*1). split.
  - apply map_eq. intros a. rewrite free_nodes_lookup, lookup_empty. case_decide as Hin; [done|].
    apply eq_None_not_Some. intros [i Hi]%(hr_dom _ _ _ _ R). apply Hin.
    apply list_elem_of_fmap in Hi as ([b [k d]] & -> & He). apply list_elem_of_fmap_2, elem_of_rest.
    pose proof (hr_bucket _ _ _ _ R _ _ _ _ He) as <-. exists (hash_of t k). split; [by eapply hash_of_range|done].
  - cbn [hashtable_destroy]. rewrite (destroy_loop h t M L) by (done || lia). by destruct (free_all _ _ s).
Qed.

(** ** The simulation *)

Definition ht_sim (ff : Z -> S -> outcome S) (st : ht_state) (ms : map_state) : Prop :=
  let '(h, s, t) := st in
  s = snd ms /\
  match t, fst ms with
  | Some t, Some M => (exists L, ht_rel h t M L) /\ ht_freefunc t = ff /\ ht_size t < 2 ^ 31
  | None, None => nh_nodes h = ∅
  | _, _ => False
  end.

Definition ht_agree {A} (sim : ht_state -> map_state -> Prop) (o : outcome (A * ht_state)) (o' : outcome (A * map_state)) : Prop :=
  match o, o' with
  | Ok (r, st), Ok (r', ms) => r = r' /\ sim st ms
  | Fault f, Fault g => f = g
  | _, _ => False
  end.

Lemma insert_sim h s t M L k d : ht_rel h t M L -> ht_size t < 2 ^ 31 ->
  ht_agree (ht_sim (ht_freefunc t)) (ht_step (h, s, Some t) (HtInsert k d)) (map_insert (ht_freefunc t) M s k d).
Proof.
  intros R Hs. unfold map_insert, ht_step. destruct (M !! k) as [d0|] eqn:Hk.
  - destruct (insert_present h t M L k d d0 s R Hk) as (h' & L' & R' & ->).
    change (free_data t d0 s) with (free_one (ht_freefunc t) d0 s). destruct (free_one _ d0 s); cbn; [|done].
    split_and!; [done..|eauto|done|done].
  - destruct (insert_absent h t M L k d s R Hk) as (h' & l & L' & R' & ->). cbn. split_and!; [done..|eauto|done|done].
Qed.

Lemma remove_sim h s t M L k : ht_rel h t M L -> ht_size t < 2 ^ 31 ->
  ht_agree (ht_sim (ht_freefunc t)) (ht_step (h, s, Some t) (HtRemove k)) (map_remove (ht_freefunc t) M s k).
Proof.
  intros R Hs. unfold map_remove, ht_step. destruct (M !! k) as [d|] eqn:Hk.
  - destruct (remove_present h t M L k d s R Hk) as (h' & t' & L' & R' & Ef & Es & ->).
    change (free_data t d s) with (free_one (ht_freefunc t) d s). destruct (free_one _ d s); cbn; [|done].
    rewrite Es. split_and!; [done..|eauto|done|done].
  - destruct (get_ok h t M L k R) as (_ & _ & Hr). rewrite (Hr Hk). cbn. split_and!; [done..|eauto|done|done].
Qed.

Lemma step_sim ff st ms c : ht_sim ff st ms -> exists o, map_step ff ms c o /\ ht_agree (ht_sim ff) (ht_step st c) o.
Proof.
  destruct st as [[h s] t], ms as [M s']. intros [Es Hsim]. cbn [fst snd] in *. subst s'.
  destruct t as [t|], M as [M|]; try done.
  - destruct Hsim as ((L & R) & <- & Hs).
    assert (forall k, hashtable_get h (Some t) k = Ok (key_code M k, mjoin (M !! k)) /\
                      hashtable_is_key_exists h (Some t) k = Ok (key_code M k)) as Hget.
    { intros k. destruct (get_ok h t M L k R) as (? & ? & _). done. }
    destruct c as [k d|k|k|k| |].
    + eexists. split; [constructor|by eapply insert_sim].
    + eexists. split; [constructor|by eapply remove_sim].
    + eexists. split; [constructor|]. unfold ht_step. rewrite (proj1 (Hget k)). cbn. split_and!; [done..|eauto|done|done].
    + eexists. split; [constructor|]. unfold ht_step. rewrite (proj2 (Hget k)). cbn. split_and!; [done..|eauto|done|done].
    + eexists. split; [constructor; apply (rest_data h t M L R)|]. destruct (hr_size _ _ _ _ R) as [Hs0 Hz].
      destruct (zget_ok (ht_nodes t) 0) as [p Hp]; [lia|]. unfold ht_step, hashtable_get_iterator. cbn [of_option mbind outcome_bind].
      rewrite Hp. cbn [of_option mbind outcome_bind].
      rewrite (iterate_ok h t M L _ 0 p (L 0)); [|done|done|lia|by apply (hr_chain _ _ _ _ R)|].
      * rewrite <- (rest_cons L 0) by lia. cbn. split_and!; [done..|eauto|done|done].
      * rewrite <- length_app, <- (rest_cons L 0) by lia. destruct (rel_nodes _ _ _ _ R) as [E1 E2]. unfold chain_fuel. lia.
    + eexists. split; [constructor; apply (rest_data h t M L R)|]. destruct (destroy_ok h t M L s R) as (h' & Hh & E).
      unfold ht_step. rewrite E. destruct (free_all _ _ s); cbn; [|done]. by split_and!.
  - destruct c; eexists; (split; [by constructor|]); by cbn.
Qed.

Lemma run_sim ff st ms cs : ht_sim ff st ms -> exists o, map_runs ff ms cs o /\ ht_agree (ht_sim ff) (ht_run st cs) o.
Proof.
  revert st ms. induction cs as [|c cs IH]; intros st ms Hsim.
  { eexists. split; [constructor|]. by split. }
  destruct (step_sim ff st ms c Hsim) as (o & Hstep & Ha). cbn [ht_run].
  destruct (ht_step st c) as [[r st']|f], o as [[r' ms']|g]; try done.
  - destruct Ha as [<- Hsim']. destruct (IH st' ms' Hsim') as (o & Hruns & Ha). eexists. split; [by eapply runs_cons|].
    cbn [mbind outcome_bind]. destruct (ht_run st' cs) as [[rs st'']|f], o as [[rs' ms'']|g]; try done. cbn in *. destruct Ha as [<- ?]. done.
  - cbn in Ha. subst g. eexists. split; [by eapply runs_fault|]. done.
Qed.

End HashTable.
Arguments hash_table_t S : clear implicits.

(** C34: any sequence of calls on a new table returns, frees and fails as on a
    finite map, whatever the number of buckets and the hash function: no chain
    loses, repeats or mixes up nodes, iteration gives every value once, and each
    value is given to the function that frees once, when it is overwritten,
    removed or the table destroyed.  There are then as many nodes in memory as
    keys in the map, none once the table is destroyed. *)
Theorem hashtable_refines_map {S} (size : Z) (hashfunc : option (Z -> Z)) (freefunc : Z -> S -> outcome S) (s : S) (cs : list ht_call) :
  0 < size < 2 ^ 31 ->
  exists o, map_runs freefunc (Some ∅, s) cs o /\
  match ht_run (ht_start size hashfunc freefunc s) cs, o with
  | Ok (rs, (h, s, t)), Ok (rs', (M, s')) =>
      rs = rs' /\ s = s' /\ base.size (nh_nodes h) = base.size (default ∅ M) /\ (t = None <-> M = None)
  | Fault f, Fault g => f = g
  | _, _ => False
  end.
Proof.
  intros Hs. destruct (run_sim freefunc (ht_start size hashfunc freefunc s) (Some ∅, s) cs) as (o & Hruns & Ha).
  { cbn. split_and!; [done| |done|lia]. exists (fun _ => []). apply create_rel. lia. }
  exists o. split; [done|]. destruct (ht_run _ cs) as [[rs [[h s1] t]]|f], o as [[rs' [M s2]]|g]; try done.
  destruct Ha as [<- [Es Hsim]]. cbn [fst snd] in *. subst s2. destruct t as [t|], M as [M|]; try done; cbn [default].
  - destruct Hsim as ((L & R) & _). by rewrite (proj1 (rel_nodes _ _ _ _ R)).
  - by rewrite Hsim.
Qed.

(** Three buckets; the user's memory is a list of pointers, freed once each.
    Keys 1, 4 and 7 share a bucket; 4 is overwritten, the middle one removed. *)
Definition free_pointer (p : Z) (s : list Z) : outcome (list Z) :=
  if decide (p ∈ s) then Ok (filter (fun q => q <> p) s) else Fault Dangling.
Definition three_buckets : list ht_call :=
  [HtInsert 1 (Some 10); HtInsert 4 (Some 20); HtInsert 7 (Some 30); HtInsert 5 None; HtInsert 4 (Some 40); HtGet 4; HtRemove 4;
   HtGet 4; HtRemove 9; HtIsKeyExists 7; HtIterate; HtDestroy; HtInsert 1 None].

Lemma hashtable_refines_map_witness :
  ht_run (ht_start 3 None free_pointer [10; 20; 30; 40]) three_buckets =
    Ok ([HtCode HASH_TABLE_OK; HtCode HASH_TABLE_OK; HtCode HASH_TABLE_OK; HtCode HASH_TABLE_OK;
         HtCode HASH_TABLE_INSERT_OVERWRITTEN_DATA; HtData HASH_TABLE_OK (Some 40); HtCode HASH_TABLE_OK;
         HtData HASH_TABLE_KEY_NOT_EXISTS None; HtCode HASH_TABLE_KEY_NOT_EXISTS; HtCode HASH_TABLE_OK;
         HtAll [Some 30; Some 10; None]; HtCode HASH_TABLE_OK; HtCode HASH_TABLE_BAD_PARAMETER_HASHTABLE],
        (mk_node_heap ∅ 5, [], None)) /\
  exists o, map_runs free_pointer (Some ∅, [10; 20; 30; 40]) three_buckets o /\
    match o with Ok (_, (M, s)) => M = None /\ s = [] | Fault _ => False end.
Proof.
  split; [reflexivity|]. destruct (hashtable_refines_map 3 None free_pointer [10; 20; 30; 40] three_buckets) as (o & Hr & Ha); [lia|].
  exists o. split; [exact Hr|]. change (ht_run _ _) with (ht_run (ht_start 3 None free_pointer [10; 20; 30; 40]) three_buckets) in Ha.
  vm_compute in Ha. destruct o as [[rs [M s]]|f]; [|exact Ha]. destruct Ha as (_ & <- & _ & Hm). split; [by apply Hm|done].
Defined.
