(* ===== verification/F1apIds.v ===== *)
(** * The identifiers of the UEs at the CU and the DU (openair2/F1AP/f1ap_ids.c)

    Two hash tables of blocks allocated by the module, one for the CU and one for
    the DU, since both can be in one process.  The C code has every function
    twice; here they are instances of one. *)

From S2P Require Import Prelude HashTable RlcManager.

Record f1_ue_data_t := mk_f1_ue_data { secondary_ue : Z; e1_assoc_id : Z; du_assoc_id : Z }.

(** What malloc gave, of type [f1_ue_data_t], and free. *)
Record f1_blocks := mk_f1_blocks { fb_blocks : gmap Z f1_ue_data_t; fb_next : Z }.

Definition malloc_data (s : f1_blocks) (data : f1_ue_data_t) : Z * f1_blocks :=
  (fb_next s, mk_f1_blocks (<[fb_next s := data]> (fb_blocks s)) (fb_next s + 1)).

Definition free_block (p : Z) (s : f1_blocks) : outcome f1_blocks :=
  _ ← of_option Dangling (fb_blocks s !! p);
  Ok (mk_f1_blocks (delete p (fb_blocks s)) (fb_next s)).

(** A table with its nodes; [None] before the initialisation. *)
Definition id_table : Type := node_heap * option (hash_table_t f1_blocks).

(** ** The functions, of either table *)

Definition init_f1_ue_data : id_table := (mk_node_heap ∅ 1, Some (hashtable_create 1319 None free_block)).

Definition is_ok (rc : hashtable_rc_t) : bool := match rc with HASH_TABLE_OK => true | _ => false end.

Definition add_f1_ue_data (tb : id_table) (s : f1_blocks) (ue_id : Z) (data : f1_ue_data_t)
    : outcome (bool * id_table * f1_blocks) :=
  let key := u32 ue_id in
  ret ← hashtable_is_key_exists tb.1 tb.2 key;
  if is_ok ret then Ok (false, tb, s)
  else
    let '(idata, s) := malloc_data s data in
    '(ret, h, s, t) ← hashtable_insert tb.1 s tb.2 key (Some idata);
    Ok (is_ok ret, (h, t), s).

Definition exists_f1_ue_data (tb : id_table) (ue_id : Z) : outcome bool :=
  ret ← hashtable_is_key_exists tb.1 tb.2 (u32 ue_id);
  Ok (is_ok ret).

(** The assertion that the identifier is known is commented out. *)
Definition get_f1_ue_data (tb : id_table) (s : f1_blocks) (ue_id : Z) : outcome f1_ue_data_t :=
  '(ret, data) ← hashtable_get tb.1 tb.2 (u32 ue_id);
  p ← of_option NullDeref data;
  of_option Dangling (fb_blocks s !! p).

Definition remove_f1_ue_data (tb : id_table) (s : f1_blocks) (ue_id : Z) : outcome (bool * id_table * f1_blocks) :=
  '(ret, h, s, t) ← hashtable_remove tb.1 s tb.2 (u32 ue_id);
  Ok (is_ok ret, (h, t), s).

(** ** Both tables *)

Inductive side : Type := CU | DU.
#[export] Instance side_eq_dec : EqDecision side.
Proof. solve_decision. Defined.

Record f1_state := mk_f1_state { cu2du_ue_mapping : id_table; du2cu_ue_mapping : id_table; f1_mem : f1_blocks }.

Definition table_of (st : f1_state) (x : side) : id_table := match x with CU => cu2du_ue_mapping st | DU => du2cu_ue_mapping st end.
Definition set_table (st : f1_state) (x : side) (tb : id_table) (s : f1_blocks) : f1_state :=
  match x with
  | CU => mk_f1_state tb (du2cu_ue_mapping st) s
  | DU => mk_f1_state (cu2du_ue_mapping st) tb s
  end.

Definition f1_init (st : f1_state) (x : side) : f1_state := set_table st x init_f1_ue_data (f1_mem st).
Definition f1_add (st : f1_state) (x : side) (ue_id : Z) (data : f1_ue_data_t) : outcome (bool * f1_state) :=
  '(b, tb, s) ← add_f1_ue_data (table_of st x) (f1_mem st) ue_id data;
  Ok (b, set_table st x tb s).
Definition f1_exists (st : f1_state) (x : side) (ue_id : Z) : outcome bool := exists_f1_ue_data (table_of st x) ue_id.
Definition f1_get (st : f1_state) (x : side) (ue_id : Z) : outcome f1_ue_data_t := get_f1_ue_data (table_of st x) (f1_mem st) ue_id.
Definition f1_remove (st : f1_state) (x : side) (ue_id : Z) : outcome (bool * f1_state) :=
  '(b, tb, s) ← remove_f1_ue_data (table_of st x) (f1_mem st) ue_id;
  Ok (b, set_table st x tb s).

(** The process before and after cu_init_f1_ue_data and du_init_f1_ue_data. *)
Definition f1_none : f1_state := mk_f1_state (mk_node_heap ∅ 1, None) (mk_node_heap ∅ 1, None) (mk_f1_blocks ∅ 1).
Definition f1_start : f1_state := f1_init (f1_init f1_none CU) DU.

Inductive f1_call : Type :=
| F1Add (x : side) (ue_id : Z) (data : f1_ue_data_t)
| F1Exists (x : side) (ue_id : Z)
| F1Get (x : side) (ue_id : Z)
| F1Remove (x : side) (ue_id : Z).

Inductive f1_reply : Type :=
| F1Bool (b : bool)
| F1Data (data : f1_ue_data_t).

Definition f1_step (st : f1_state) (c : f1_call) : outcome (f1_reply * f1_state) :=
  match c with
  | F1Add x ue_id data => '(b, st) ← f1_add st x ue_id data; Ok (F1Bool b, st)
  | F1Exists x ue_id => b ← f1_exists st x ue_id; Ok (F1Bool b, st)
  | F1Get x ue_id => data ← f1_get st x ue_id; Ok (F1Data data, st)
  | F1Remove x ue_id => '(b, st) ← f1_remove st x ue_id; Ok (F1Bool b, st)
  end.

Fixpoint f1_run (st : f1_state) (cs : list f1_call) : outcome (list f1_reply * f1_state) :=
  match cs with
  | [] => Ok ([], st)
  | c :: cs => '(r, st) ← f1_step st c; '(rs, st) ← f1_run st cs; Ok (r :: rs, st)
  end.

(** ** The finite maps *)

Definition f1_maps : Type := side -> gmap Z f1_ue_data_t.

Definition set_map (Ms : f1_maps) (x : side) (M : gmap Z f1_ue_data_t) : f1_maps := fun y => if decide (y = x) then M else Ms y.

Definition known (M : gmap Z f1_ue_data_t) (ue_id : Z) : bool := match M !! u32 ue_id with Some _ => true | None => false end.

Definition maps_step (Ms : f1_maps) (c : f1_call) : outcome (f1_reply * f1_maps) :=
  match c with
  | F1Add x ue_id data =>
      if known (Ms x) ue_id then Ok (F1Bool false, Ms) else Ok (F1Bool true, set_map Ms x (<[u32 ue_id := data]> (Ms x)))
  | F1Exists x ue_id => Ok (F1Bool (known (Ms x) ue_id), Ms)
  | F1Get x ue_id => data ← of_option NullDeref (Ms x !! u32 ue_id); Ok (F1Data data, Ms)
  | F1Remove x ue_id =>
      if known (Ms x) ue_id then Ok (F1Bool true, set_map Ms x (delete (u32 ue_id) (Ms x))) else Ok (F1Bool false, Ms)
  end.

Fixpoint maps_run (Ms : f1_maps) (cs : list f1_call) : outcome (list f1_reply * f1_maps) :=
  match cs with
  | [] => Ok ([], Ms)
  | c :: cs => '(r, Ms) ← maps_step Ms c; '(rs, Ms) ← maps_run Ms cs; Ok (r :: rs, Ms)
  end.

(** ** Proofs

    [P x] is the hash table of side [x] as a map to pointers. *)

Record f1_rel (st : f1_state) (Ms : f1_maps) (P : side -> gmap Z (option Z)) : Prop := {
  fr_table : forall x, exists t L, (table_of st x).2 = Some t /\ ht_rel (table_of st x).1 t (P x) L /\ ht_freefunc t = free_block;
  fr_data : forall x k, match P x !! k with
    | Some (Some p) => is_Some (Ms x !! k) /\ fb_blocks (f1_mem st) !! p = Ms x !! k
    | Some None => False
    | None => Ms x !! k = None
    end;
  fr_inj : forall x y k k' p, P x !! k = Some (Some p) -> P y !! k' = Some (Some p) -> x = y /\ k = k';
  fr_next : forall p, is_Some (fb_blocks (f1_mem st) !! p) -> p < fb_next (f1_mem st);
  fr_size : size (fb_blocks (f1_mem st)) = (size (Ms CU) + size (Ms DU))%nat }.

Lemma start_rel : f1_rel f1_start (fun _ => ∅) (fun _ => ∅).
Proof.
  split.
  - intros x. exists (hashtable_create 1319 None free_block), (fun _ => []).
    destruct x; (split; [done|split; [by apply create_rel|done]]).
  - intros x k. by rewrite !lookup_empty.
  - intros x y k k' p. by rewrite lookup_empty.
  - intros p. cbn. rewrite lookup_empty. by intros [].
  - done.
Qed.

Lemma table_set st x tb s y : table_of (set_table st x tb s) y = if decide (y = x) then tb else table_of st y.
Proof. by destruct x, y. Qed.
Lemma mem_set st x tb s : f1_mem (set_table st x tb s) = s.
Proof. by destruct x. Qed.

Lemma maps_size Ms x M : (size (set_map Ms x M CU) + size (set_map Ms x M DU) + size (Ms x) = size (Ms CU) + size (Ms DU) + size M)%nat.
Proof. unfold set_map. destruct x; cbn [decide]; repeat case_decide; try congruence; lia. Qed.

(** The pointer of a known identifier. *)
Lemma known_pointer st Ms P x k v : f1_rel st Ms P -> Ms x !! k = Some v ->
  exists p, P x !! k = Some (Some p) /\ fb_blocks (f1_mem st) !! p = Some v.
Proof.
  intros R Hv. pose proof (fr_data _ _ _ R x k) as Hd. destruct (P x !! k) as [[p|]|]; [|done|congruence].
  exists p. split; [done|]. by rewrite (proj2 Hd).
Qed.

Lemma unknown_pointer st Ms P x k : f1_rel st Ms P -> Ms x !! k = None -> P x !! k = None.
Proof.
  intros R Hv. pose proof (fr_data _ _ _ R x k) as Hd. destruct (P x !! k) as [[p|]|]; [|done|done].
  destruct Hd as [[v ?] _]. congruence.
Qed.

(** What the table says of an identifier. *)
Lemma table_get st Ms P x k : f1_rel st Ms P ->
  hashtable_get (table_of st x).1 (table_of st x).2 k = Ok (key_code (P x) k, mjoin (P x !! k)) /\
  hashtable_is_key_exists (table_of st x).1 (table_of st x).2 k = Ok (key_code (P x) k).
Proof.
  intros R. destruct (fr_table _ _ _ R x) as (t & L & -> & Rt & _). destruct (get_ok _ _ _ _ k Rt) as (-> & -> & _). done.
Qed.

Lemma key_known st Ms P x id : f1_rel st Ms P -> is_ok (key_code (P x) (u32 id)) = known (Ms x) id.
Proof.
  intros R. unfold key_code, known. destruct (Ms x !! u32 id) as [v|] eqn:Hv.
  - destruct (known_pointer _ _ _ _ _ _ R Hv) as (p & -> & _). done.
  - by rewrite (unknown_pointer _ _ _ _ _ R Hv).
Qed.

Lemma f1_get_sim st Ms P x id : f1_rel st Ms P -> f1_get st x id = of_option NullDeref (Ms x !! u32 id).
Proof.
  intros R. unfold f1_get, get_f1_ue_data. rewrite (proj1 (table_get _ _ _ x (u32 id) R)). cbn [mbind outcome_bind].
  destruct (Ms x !! u32 id) as [v|] eqn:Hv.
  - destruct (known_pointer _ _ _ _ _ _ R Hv) as (p & -> & Hp). cbn. by rewrite Hp.
  - by rewrite (unknown_pointer _ _ _ _ _ R Hv).
Qed.

(** A table whose pointers change at one key, and the blocks at one pointer. *)
Lemma rel_change st Ms P x k h t L s d v p :
  f1_rel st Ms P -> ht_rel h t (partial_alter (fun _ => d) k (P x)) L -> ht_freefunc t = free_block ->
  (forall q, q <> p -> fb_blocks s !! q = fb_blocks (f1_mem st) !! q) ->
  (forall y k', P y !! k' = Some (Some p) -> y = x /\ k' = k) ->
  match d with Some (Some q) => q = p /\ is_Some v /\ fb_blocks s !! p = v | Some None => False | None => v = None end ->
  fb_next (f1_mem st) <= fb_next s -> p < fb_next s ->
  (size (fb_blocks s) + size (Ms x) = size (fb_blocks (f1_mem st)) + size (partial_alter (fun _ => v) k (Ms x)))%nat ->
  f1_rel (set_table st x (h, Some t) s) (set_map Ms x (partial_alter (fun _ => v) k (Ms x)))
    (fun y => if decide (y = x) then partial_alter (fun _ => d) k (P x) else P y).
Proof.
  intros R Rt Hff Hfr Hown Hd Hn Hp Hsz.
  assert (forall y k', (if decide (y = x) then partial_alter (fun _ => d) k (P x) else P y) !! k' =
    if decide (y = x /\ k' = k) then d else P y !! k') as EP.
  { intros y k'. destruct (decide (y = x)) as [->|]; [|by rewrite decide_False by naive_solver].
    destruct (decide (k' = k)) as [->|]; [rewrite decide_True by done; apply lookup_partial_alter_eq|].
    rewrite decide_False by naive_solver. by rewrite lookup_partial_alter_ne. }
  assert (forall y k', set_map Ms x (partial_alter (fun _ => v) k (Ms x)) y !! k' = if decide (y = x /\ k' = k) then v else Ms y !! k') as EM.
  { intros y k'. unfold set_map. destruct (decide (y = x)) as [->|]; [|by rewrite decide_False by naive_solver].
    destruct (decide (k' = k)) as [->|]; [rewrite decide_True by done; apply lookup_partial_alter_eq|].
    rewrite decide_False by naive_solver. by rewrite lookup_partial_alter_ne. }
  split.
  - intros y. rewrite table_set. destruct (decide (y = x)); [by exists t, L|apply (fr_table _ _ _ R)].
  - intros y k'. rewrite EP, EM, mem_set. case_decide as E.
    + destruct d as [[q|]|]; [|done|done]. destruct Hd as (-> & Hv & ->). done.
    + pose proof (fr_data _ _ _ R y k') as Hdata. destruct (P y !! k') as [[q|]|] eqn:Hq; [|done|done].
      rewrite Hfr; [done|]. intros ->. by apply E, Hown.
  - intros y z k1 k2 q. rewrite !EP. case_decide as E1; case_decide as E2; intros H1 H2.
    + naive_solver.
    + subst d. destruct Hd as [-> _]. by apply Hown in H2.
    + subst d. destruct Hd as [-> _]. by apply Hown in H1.
    + by apply (fr_inj _ _ _ R y z k1 k2 q).
  - intros q. rewrite mem_set. intros Hq. destruct (decide (q = p)) as [->|]; [done|].
    rewrite Hfr in Hq by done. apply (fr_next _ _ _ R) in Hq. lia.
  - rewrite mem_set. pose proof (maps_size Ms x (partial_alter (fun _ => v) k (Ms x))). pose proof (fr_size _ _ _ R). lia.
Qed.

Lemma f1_add_sim st Ms P x id data : f1_rel st Ms P -> exists st' P',
  f1_add st x id data = Ok (negb (known (Ms x) id), st') /\
  f1_rel st' (if known (Ms x) id then Ms else set_map Ms x (<[u32 id := data]> (Ms x))) P'.
Proof.
  intros R. unfold f1_add, add_f1_ue_data. rewrite (proj2 (table_get _ _ _ x (u32 id) R)). cbn [mbind outcome_bind].
  rewrite (key_known _ _ _ _ _ R). unfold known. destruct (Ms x !! u32 id) as [v|] eqn:Hv; cbn [mbind outcome_bind].
  { exists st, P. split; [|done]. by destruct st, x. }
  pose proof (unknown_pointer _ _ _ _ _ R Hv) as Hp. destruct (fr_table _ _ _ R x) as (t & L & -> & Rt & Hff). cbn [malloc_data].
  destruct (insert_absent _ t _ _ (u32 id) (Some (fb_next (f1_mem st)))
    (mk_f1_blocks (<[fb_next (f1_mem st) := data]> (fb_blocks (f1_mem st))) (fb_next (f1_mem st) + 1)) Rt Hp) as (h' & l & L' & R' & ->).
  eexists _, _. split; [done|]. assert (fb_blocks (f1_mem st) !! fb_next (f1_mem st) = None) as Hnone.
  { apply eq_None_not_Some. intros Hs%(fr_next _ _ _ R). lia. }
  eapply (rel_change st Ms P x (u32 id) _ _ _ _ (Some (Some _)) (Some data)); [done|done|done| | | | | |]; cbn.
  - intros q Hq. by rewrite lookup_insert_ne.
  - intros y k' Hy. exfalso. pose proof (fr_data _ _ _ R y k') as Hd. rewrite Hy, Hnone in Hd. destruct Hd as [[? ?] ?]. congruence.
  - by rewrite lookup_insert_eq.
  - lia.
  - lia.
  - change (partial_alter (fun _ => Some data) (u32 id) (Ms x)) with (<[u32 id := data]> (Ms x)).
    rewrite !map_size_insert_None by done. lia.
Qed.

Lemma f1_remove_sim st Ms P x id : f1_rel st Ms P -> exists st' P',
  f1_remove st x id = Ok (known (Ms x) id, st') /\
  f1_rel st' (if known (Ms x) id then set_map Ms x (delete (u32 id) (Ms x)) else Ms) P'.
Proof.
  intros R. unfold f1_remove, remove_f1_ue_data, known. destruct (fr_table _ _ _ R x) as (t & L & Et & Rt & Hff). rewrite Et.
  destruct (Ms x !! u32 id) as [v|] eqn:Hv.
  - destruct (known_pointer _ _ _ _ _ _ R Hv) as (p & Hp & Hb).
    destruct (remove_present _ t _ _ (u32 id) (Some p) (f1_mem st) Rt Hp) as (h' & t' & L' & R' & Ef & _ & ->).
    unfold free_data. rewrite Hff. unfold free_block. rewrite Hb. cbn [of_option mbind outcome_bind is_ok].
    eexists _, _. split; [done|]. eapply (rel_change st Ms P x (u32 id) h' t' L' _ None None p); [done|done|congruence| | | | | |]; cbn.
    + intros q Hq. by rewrite lookup_delete_ne.
    + intros y k' Hy. by apply (fr_inj _ _ _ R y x k' (u32 id) p).
    + done.
    + lia.
    + apply (fr_next _ _ _ R). eauto.
    + change (partial_alter (fun _ => None) (u32 id) (Ms x)) with (delete (u32 id) (Ms x)).
      rewrite !map_size_delete_Some by eauto.
      pose proof (map_size_ne_0_lookup_2 (Ms x) (u32 id)) as N1. pose proof (map_size_ne_0_lookup_2 (fb_blocks (f1_mem st)) p) as N2.
      specialize (N1 ltac:(eauto)). specialize (N2 ltac:(eauto)). lia.
  - pose proof (unknown_pointer _ _ _ _ _ R Hv) as Hp. destruct (get_ok _ _ _ _ (u32 id) Rt) as (_ & _ & Hr). rewrite (Hr Hp).
    cbn [mbind outcome_bind is_ok]. exists st, P. split; [|done]. by destruct st as [[? ?] [? ?] ?], x; cbn in *; subst.
Qed.

Lemma f1_step_sim st Ms P c : f1_rel st Ms P ->
  match f1_step st c, maps_step Ms c with
  | Ok (r, st'), Ok (r', Ms') => r = r' /\ exists P', f1_rel st' Ms' P'
  | Fault f, Fault g => f = g
  | _, _ => False
  end.
Proof.
  intros R. destruct c as [x id data|x id|x id|x id]; cbn [f1_step maps_step].
  - destruct (f1_add_sim _ _ _ x id data R) as (st' & P' & -> & R'). cbn. destruct (known (Ms x) id); eauto.
  - unfold f1_exists, exists_f1_ue_data. rewrite (proj2 (table_get _ _ _ x (u32 id) R)). cbn. rewrite (key_known _ _ _ _ _ R). eauto.
  - rewrite (f1_get_sim _ _ _ x id R). destruct (Ms x !! u32 id); cbn; eauto.
  - destruct (f1_remove_sim _ _ _ x id R) as (st' & P' & -> & R'). cbn. destruct (known (Ms x) id); eauto.
Qed.

Lemma f1_run_sim cs st Ms P : f1_rel st Ms P ->
  match f1_run st cs, maps_run Ms cs with
  | Ok (rs, st'), Ok (rs', Ms') => rs = rs' /\ exists P', f1_rel st' Ms' P'
  | Fault f, Fault g => f = g
  | _, _ => False
  end.
Proof.
  revert st Ms P. induction cs as [|c cs IH]; intros st Ms P R; cbn [f1_run maps_run]; [eauto|].
  pose proof (f1_step_sim st Ms P c R) as Hs. destruct (f1_step st c) as [[r st']|f], (maps_step Ms c) as [[r' Ms']|g]; try done; cbn.
  - destruct Hs as [<- [P' R']]. specialize (IH st' Ms' P' R').
    destruct (f1_run st' cs) as [[rs st'']|f], (maps_run Ms' cs) as [[rs' Ms'']|g]; try done; cbn. by destruct IH as [<- IH].
Qed.

Lemma pointers_size st Ms P x : f1_rel st Ms P -> size (P x) = size (Ms x).
Proof.
  intros R. rewrite <- !size_dom. f_equal. apply set_eq. intros k. rewrite !elem_of_dom.
  pose proof (fr_data _ _ _ R x k) as Hd. destruct (P x !! k) as [[p|]|]; [|done|rewrite Hd].
  - destruct Hd as [Hs _]. split; [done|eauto].
  - split; intros []; done.
Qed.

(** C35: the identifiers of the CU and of the DU, from their initialisation on and
    through any sequence of additions, look-ups and removals on either side, are
    two finite maps from 32 bit identifiers to data; looking up an identifier
    that is not there dereferences NULL, nothing else fails.  Each identifier has
    one block and one node of memory, and those removed have none.  The RLC
    manager reads the identifier of the CU from the map of the DU. *)
Theorem f1_ids_refine_maps (cs : list f1_call) :
  match f1_run f1_start cs, maps_run (fun _ => ∅) cs with
  | Ok (rs, st), Ok (rs', Ms) =>
      rs = rs' /\
      size (fb_blocks (f1_mem st)) = (size (Ms CU) + size (Ms DU))%nat /\
      (forall x, size (nh_nodes (table_of st x).1) = size (Ms x)) /\
      (forall is_du ue_id, (data ← f1_get st DU ue_id; Ok (secondary_ue data)) =
        RlcManager.du_get_f1_ue_data (mk_node is_du (secondary_ue <$> Ms DU)) ue_id)
  | Fault f, Fault g => f = NullDeref /\ g = NullDeref
  | _, _ => False
  end.
Proof.
  pose proof (f1_run_sim cs _ _ _ start_rel) as Hs. assert (forall Ms f, maps_run Ms cs = Fault f -> f = NullDeref) as Hnull.
  { clear. induction cs as [|c cs IH]; intros Ms f; [done|]. cbn [maps_run]. destruct (maps_step Ms c) as [[r Ms']|g] eqn:E.
    - cbn. destruct (maps_run Ms' cs) as [[rs Ms'']|g] eqn:E'; [done|]. cbn. intros [= <-]. by apply (IH Ms').
    - cbn. intros [= <-]. destruct c; cbn in E; try done; [by case_if|destruct (Ms x !! u32 ue_id); cbn in E; congruence|by case_if]. }
  destruct (f1_run f1_start cs) as [[rs st]|f], (maps_run (fun _ => ∅) cs) as [[rs' Ms]|g] eqn:E; try done.
  - destruct Hs as [<- [P R]]. split_and!; [done|apply (fr_size _ _ _ R)| |].
    + intros x. destruct (fr_table _ _ _ R x) as (t & L & _ & Rt & _). rewrite (proj1 (rel_nodes _ _ _ _ Rt)). by apply (pointers_size st).
    + intros is_du ue_id. rewrite (f1_get_sim _ _ _ DU ue_id R). unfold RlcManager.du_get_f1_ue_data. cbn. rewrite lookup_fmap.
      by destruct (Ms DU !! u32 ue_id).
  - subst g. pose proof (Hnull _ _ E). done.
Qed.

(** An identifier is at both sides, with different data; the one of the DU is
    taken away and asked for. *)
Definition ids_calls : list f1_call :=
  [F1Add CU 5 (mk_f1_ue_data 70 1 2); F1Add DU 5 (mk_f1_ue_data 80 0 0); F1Add DU 5 (mk_f1_ue_data 90 0 0); F1Add DU 1324 (mk_f1_ue_data 7 0 0);
   F1Get CU 5; F1Get DU 5; F1Remove DU 5; F1Exists CU 5; F1Exists DU 5; F1Get DU 1324].
Example ids_both_sides :
  (fst <$> (match f1_run f1_start ids_calls with Ok x => Some x | Fault _ => None end)) =
    Some [F1Bool true; F1Bool true; F1Bool false; F1Bool true; F1Data (mk_f1_ue_data 70 1 2); F1Data (mk_f1_ue_data 80 0 0);
          F1Bool true; F1Bool true; F1Bool false; F1Data (mk_f1_ue_data 7 0 0)] /\
  f1_run f1_start (ids_calls ++ [F1Get DU 5]) = Fault NullDeref.
Proof. split; reflexivity. Qed.
