(* ===== verification/SeqArr.v ===== *)
(** * Growing arrays (common/utils/ds/seq_arr.c, common/utils/alg)

    The block of an array is a list of bytes, [None] where malloc and realloc
    leave them unwritten; iterators are offsets in it.  The contract is that of a
    list of elements. *)

From S2P Require Import Prelude.

Record seq_arr_t := mk_seq_arr { sa_data : list (option Z); sa_size : Z; sa_elt_size : Z; sa_cap : Z }.
#[export] Instance eta_seq_arr : RecordEta seq_arr_t :=
  fld (fld (fld (fld (fun _ => mk_seq_arr) sa_data) sa_size) sa_elt_size) sa_cap.

Definition MIN_SIZE : Z := 8.

(** realloc, calloc *)
Definition realloc (l : list (option Z)) (n : Z) : list (option Z) :=
  take (Z.to_nat n) l ++ replicate (Z.to_nat n - length l) None.
Definition calloc (n : Z) : list (option Z) := replicate (Z.to_nat n) (Some 0).

(** ** Operations *)

Definition maybe_expand (arr : seq_arr_t) : seq_arr_t :=
  if u64 (sa_size arr + 1) =? sa_cap arr
  then arr <| sa_data := realloc (sa_data arr) (u64 (u64 (2 * sa_cap arr) * sa_elt_size arr)) |> <| sa_cap := u64 (sa_cap arr * 2) |>
  else arr.

(** The occupation is computed in floats; with the capacity a power of two, and
    fewer than 2^24 elements, its comparison with 0.25 is exact. *)
Definition maybe_shrink (arr : seq_arr_t) : outcome seq_arr_t :=
  if (sa_size arr >? MIN_SIZE) && (4 * sa_size arr <? sa_cap arr) then
    _ ← require (sa_cap arr >? MIN_SIZE) Exit;
    let cap := sa_cap arr / 2 in
    src ← of_option OutOfBounds (zslice (sa_data arr) 0 (u64 (sa_size arr * sa_elt_size arr)));
    data ← of_option OutOfBounds (zblit (calloc (u64 (cap * cap))) 0 src);
    Ok (mk_seq_arr data (sa_size arr) (sa_elt_size arr) cap)
  else Ok arr.

Definition seq_arr_init (elt_size : Z) : seq_arr_t := mk_seq_arr (calloc (u64 (MIN_SIZE * elt_size))) 0 elt_size MIN_SIZE.

Definition seq_arr_front (arr : seq_arr_t) : Z := 0.
Definition seq_arr_next (arr : seq_arr_t) (it : Z) : Z := it + sa_elt_size arr.
Definition seq_arr_end (arr : seq_arr_t) : Z := u64 (sa_size arr * sa_elt_size arr).
Definition seq_arr_at (arr : seq_arr_t) (pos : Z) : Z := u64 (u32 pos * sa_elt_size arr).
Definition seq_arr_dist (arr : seq_arr_t) (first last : Z) : outcome Z :=
  _ ← require (negb (sa_elt_size arr =? 0)) Exit;
  Ok (u64 (last - first) / sa_elt_size arr).

(** The bytes of an element, read. *)
Definition seq_arr_read (arr : seq_arr_t) (it : Z) : outcome (list Z) :=
  l ← of_option OutOfBounds (zslice (sa_data arr) it (sa_elt_size arr));
  of_option Uninit (mapM id l).

Definition seq_arr_push_back (arr : seq_arr_t) (data : list Z) : outcome seq_arr_t :=
  let arr := maybe_expand arr in
  src ← of_option OutOfBounds (zslice data 0 (sa_elt_size arr));
  data ← of_option OutOfBounds (zblit (sa_data arr) (seq_arr_end arr) (Some <$> src));
  Ok (arr <| sa_data := data |> <| sa_size := u64 (sa_size arr + 1) |>).

(** [while (start_it != end_it) f(start_it)], for a function that reads the
    element it is given: the elements. *)
Fixpoint walk_elements (arr : seq_arr_t) (fuel : nat) (start_it end_it : Z) : outcome (list (list Z)) :=
  if start_it =? end_it then Ok []
  else match fuel with
       | O => Fault Diverge
       | S fuel =>
           e ← seq_arr_read arr start_it;
           l ← walk_elements arr fuel (seq_arr_next arr start_it) end_it;
           Ok (e :: l)
       end.

Definition all_elements (arr : seq_arr_t) : outcome (list (list Z)) :=
  walk_elements arr (Z.to_nat (sa_size arr)) (seq_arr_front arr) (seq_arr_end arr).

(** The difference of two pointers, as an int. *)
Definition to_int (x : Z) : Z := i32 (u32 x).

(** The elements given to [free_func], if there is one, and the array. *)
Definition seq_arr_erase_it (arr : seq_arr_t) (start_it end_it : Z) (free_func : bool) : outcome (list (list Z) * seq_arr_t) :=
  if start_it =? end_it then Ok ([], arr)
  else
    freed ← (if free_func then all_elements arr else Ok []);
    moved ← of_option OutOfBounds (zslice (sa_data arr) end_it (to_int (seq_arr_end arr - end_it)));
    data ← of_option OutOfBounds (zblit (sa_data arr) start_it moved);
    let num_bytes_erase := to_int (end_it - start_it) in
    _ ← require (negb (sa_elt_size arr =? 0)) Exit;
    let arr := arr <| sa_data := data |> <| sa_size := u64 (sa_size arr - to_int (u64 num_bytes_erase / sa_elt_size arr)) |> in
    _ ← require (0 <=? num_bytes_erase) OutOfBounds;
    data ← of_option OutOfBounds (zblit (sa_data arr) (seq_arr_end arr) (calloc num_bytes_erase));
    arr ← maybe_shrink (arr <| sa_data := data |>);
    Ok (freed, arr).

Definition seq_arr_erase_deep (arr : seq_arr_t) (it : Z) (free_func : bool) : outcome (list (list Z) * seq_arr_t) :=
  seq_arr_erase_it arr it (seq_arr_next arr it) free_func.
Definition seq_arr_erase (arr : seq_arr_t) (it : Z) : outcome (list (list Z) * seq_arr_t) := seq_arr_erase_deep arr it false.

(** The elements that [free_func] is given; the block is freed. *)
Definition seq_arr_free (arr : seq_arr_t) (free_func : bool) : outcome (list (list Z)) :=
  if free_func then all_elements arr else Ok [].

(** ** Algorithms (common/utils/alg/find.c, foreach.c) *)

Fixpoint find_loop (arr : seq_arr_t) (fuel : nat) (start_it end_it : Z) (f : list Z -> bool) : outcome (option Z) :=
  if start_it =? end_it then Ok None
  else match fuel with
       | O => Fault Diverge
       | S fuel =>
           e ← seq_arr_read arr start_it;
           if f e then Ok (Some start_it) else find_loop arr fuel (seq_arr_next arr start_it) end_it f
       end.

Definition find_if (arr : seq_arr_t) (f : list Z -> bool) : outcome (option Z) :=
  find_loop arr (Z.to_nat (sa_size arr)) (seq_arr_front arr) (seq_arr_end arr) f.

(** [f] accumulates in [value]. *)
Definition for_each {V} (arr : seq_arr_t) (value : V) (f : V -> list Z -> V) : outcome V :=
  l ← all_elements arr;
  Ok (foldl f value l).

(** ** Sequences of calls *)

Inductive sa_call : Type :=
| SaPushBack (data : list Z)
| SaErase (pos : Z)
| SaEraseDeep (pos : Z)
| SaEraseIt (first last : Z) (free_func : bool)
| SaRead (pos : Z)
| SaFindIf (f : list Z -> bool)
| SaForEach
| SaSize.

Inductive sa_reply : Type :=
| SaFreed (l : list (list Z))
| SaElement (e : list Z)
| SaPos (pos : option Z)
| SaElements (l : list (list Z))
| SaInt (n : Z).

(** Iterators come from [seq_arr_at] or [find_if]. *)
Definition sa_step (arr : seq_arr_t) (c : sa_call) : outcome (sa_reply * seq_arr_t) :=
  match c with
  | SaPushBack data => arr ← seq_arr_push_back arr data; Ok (SaFreed [], arr)
  | SaErase pos => '(freed, arr) ← seq_arr_erase arr (seq_arr_at arr pos); Ok (SaFreed freed, arr)
  | SaEraseDeep pos => '(freed, arr) ← seq_arr_erase_deep arr (seq_arr_at arr pos) true; Ok (SaFreed freed, arr)
  | SaEraseIt first last free_func =>
      '(freed, arr) ← seq_arr_erase_it arr (seq_arr_at arr first) (seq_arr_at arr last) free_func; Ok (SaFreed freed, arr)
  | SaRead pos => e ← seq_arr_read arr (seq_arr_at arr pos); Ok (SaElement e, arr)
  | SaFindIf f =>
      it ← find_if arr f;
      match it with
      | Some it => pos ← seq_arr_dist arr (seq_arr_front arr) it; Ok (SaPos (Some pos), arr)
      | None => Ok (SaPos None, arr)
      end
  | SaForEach => l ← for_each arr [] (fun l e => l ++ [e]); Ok (SaElements l, arr)
  | SaSize => Ok (SaInt (sa_size arr), arr)
  end.

Fixpoint sa_run (arr : seq_arr_t) (cs : list sa_call) : outcome (list sa_reply * seq_arr_t) :=
  match cs with
  | [] => Ok ([], arr)
  | c :: cs => '(r, arr) ← sa_step arr c; '(rs, arr) ← sa_run arr cs; Ok (r :: rs, arr)
  end.

(** ** The list *)

(** Without the elements from [first] to [last]. *)
Definition cut (xs : list (list Z)) (first last : Z) : list (list Z) := take (Z.to_nat first) xs ++ drop (Z.to_nat last) xs.

Fixpoint find_pos (xs : list (list Z)) (f : list Z -> bool) : option Z :=
  match xs with [] => None | x :: xs => if f x then Some 0 else Z.succ <$> find_pos xs f end.

(** Positions inside; an element of the size of the array. *)
Definition sa_call_ok (elt_size : Z) (xs : list (list Z)) (c : sa_call) : bool :=
  match c with
  | SaPushBack data => elt_size <=? zlen data
  | SaErase pos | SaEraseDeep pos | SaRead pos => (0 <=? pos) && (pos <? zlen xs)
  | SaEraseIt first last _ => (0 <=? first) && (first <=? last) && (last <=? zlen xs)
  | _ => true
  end.

(** [free_func] is given every element of the array, also those that stay. *)
Definition list_step (elt_size : Z) (xs : list (list Z)) (c : sa_call) : sa_reply * list (list Z) :=
  match c with
  | SaPushBack data => (SaFreed [], xs ++ [take (Z.to_nat elt_size) data])
  | SaErase pos => (SaFreed [], cut xs pos (pos + 1))
  | SaEraseDeep pos => (SaFreed xs, cut xs pos (pos + 1))
  | SaEraseIt first last free_func => (SaFreed (if free_func && negb (first =? last) then xs else []), cut xs first last)
  | SaRead pos => (SaElement (default [] (zget xs pos)), xs)
  | SaFindIf f => (SaPos (find_pos xs f), xs)
  | SaForEach => (SaElements xs, xs)
  | SaSize => (SaInt (zlen xs), xs)
  end.

Fixpoint list_run (elt_size : Z) (xs : list (list Z)) (cs : list sa_call) : list sa_reply * list (list Z) :=
  match cs with
  | [] => ([], xs)
  | c :: cs =>
      let '(r, xs) := list_step elt_size xs c in
      let '(rs, xs) := list_run elt_size xs cs in (r :: rs, xs)
  end.

Fixpoint sa_calls_ok (elt_size : Z) (xs : list (list Z)) (cs : list sa_call) : bool :=
  match cs with
  | [] => true
  | c :: cs => sa_call_ok elt_size xs c && sa_calls_ok elt_size (snd (list_step elt_size xs c)) cs
  end.

(** ** Blocks *)

Lemma zblit_mid {A} (l1 l2 src : list A) off : off = zlen l1 -> zlen src <= zlen l2 ->
  zblit (l1 ++ l2) off src = Some (l1 ++ src ++ drop (length src) l2).
Proof.
  intros -> Hl. pose proof (zlen_nonneg l1). rewrite zblit_ok by (rewrite ?zlen_app; lia).
  unfold zlen. by rewrite Nat2Z.id, take_app_length, drop_app_add'.
Qed.

Lemma zlen_over {A} (src l : list A) : zlen src <= zlen l -> zlen (src ++ drop (length src) l) = zlen l.
Proof. unfold zlen. intros. rewrite length_app, length_drop. lia. Qed.

(** A block that begins with [l] goes on doing so. *)
Lemma realloc_prefix l tail n : zlen l <= n -> exists tail', realloc (l ++ tail) n = l ++ tail' /\ zlen (l ++ tail') = n.
Proof.
  intros Hn. assert (zlen (realloc (l ++ tail) n) = n) as El.
  { unfold realloc, zlen in *. rewrite length_app, length_take, length_replicate. lia. }
  exists (drop (length l) (realloc (l ++ tail) n)).
  assert (realloc (l ++ tail) n = l ++ drop (length l) (realloc (l ++ tail) n)) as E; [|split; [done|by rewrite <- E]].
  rewrite <- (take_drop (length l) (realloc (l ++ tail) n)) at 1. f_equal. unfold realloc, zlen in *.
  rewrite take_app_le, take_take, Nat.min_l, take_app_length by (rewrite ?length_take, ?length_app; lia). done.
Qed.

(** ** The array and the list *)

(** The elements, as they are in the block. *)
Definition image (xs : list (list Z)) : list (option Z) := Some <$> mjoin xs.

Lemma image_app xs ys : image (xs ++ ys) = image xs ++ image ys.
Proof. unfold image. by rewrite join_app, fmap_app. Qed.

Lemma image_one x : image [x] = Some <$> x.
Proof. unfold image. cbn. by rewrite app_nil_r. Qed.

Lemma image_len w xs : Forall (fun x => zlen x = w) xs -> zlen (image xs) = zlen xs * w.
Proof.
  induction 1 as [|x xs Hx _ IH]; [done|]. change (x :: xs) with ([x] ++ xs). rewrite image_app, !zlen_app, IH, image_one.
  rewrite zlen_fmap, !zlen_cons, zlen_nil. lia.
Qed.

(** [N] elements were pushed so far. *)
Record sa_rel (w N : Z) (arr : seq_arr_t) (xs : list (list Z)) : Prop := {
  sr_elt : sa_elt_size arr = w;
  sr_size : sa_size arr = zlen xs;
  sr_elts : Forall (fun x => zlen x = w) xs;
  sr_data : exists tail, sa_data arr = image xs ++ tail;
  sr_room : (sa_cap arr - 1) * w <= zlen (sa_data arr);
  sr_pow : exists k, 0 <= k /\ sa_cap arr = 8 * 2 ^ k;
  sr_cap : zlen xs < sa_cap arr <= 8 + 2 * N;
  sr_pushed : zlen xs <= N }.

Section Array.
Context (w N : Z) (Hw : 1 <= w <= 33) (HN : N * w < 2 ^ 30) (HN0 : 0 <= N).

Lemma sizes_small n : 0 <= n <= 8 + 2 * N -> 0 <= n * w < 2 ^ 32.
Proof. intros Hn. nia. Qed.

Lemma init_rel : 0 <= N -> sa_rel w N (seq_arr_init w) [].
Proof.
  intros H0. unfold seq_arr_init. split; cbn [sa_elt_size sa_size sa_data sa_cap]; try done.
  - by eexists.
  - unfold calloc, zlen, u64, MIN_SIZE. rewrite length_replicate, Z.mod_small by lia. lia.
  - by exists 0.
  - rewrite zlen_nil. unfold MIN_SIZE. lia.
Qed.

Lemma end_ok arr xs : sa_rel w N arr xs -> seq_arr_end arr = zlen (image xs).
Proof.
  intros R. unfold seq_arr_end, u64. rewrite (sr_elt _ _ _ _ R), (sr_size _ _ _ _ R), (image_len w) by apply (sr_elts _ _ _ _ R).
  apply Z.mod_small. pose proof (sr_pushed _ _ _ _ R). pose proof (zlen_nonneg xs). pose proof (sizes_small (zlen xs)). lia.
Qed.

Lemma at_ok arr xs ys zs : sa_rel w N arr xs -> xs = ys ++ zs -> seq_arr_at arr (zlen ys) = zlen (image ys).
Proof.
  intros R E. pose proof (sr_elts _ _ _ _ R) as He. pose proof (sr_pushed _ _ _ _ R) as Hp. rewrite E in *.
  apply Forall_app in He as [He _]. rewrite zlen_app in Hp. pose proof (zlen_nonneg ys). pose proof (zlen_nonneg zs).
  unfold seq_arr_at, u32, u64. rewrite (image_len w), (sr_elt _ _ _ _ R) by done.
  assert (zlen ys < 2 ^ 32) by nia. rewrite (Z.mod_small (zlen ys)) by lia. apply Z.mod_small.
  pose proof (sizes_small (zlen ys)). lia.
Qed.

Lemma mapM_image (x : list Z) : mapM id (Some <$> x) = Some x.
Proof. apply mapM_fmap_Some. done. Qed.

Lemma read_ok arr xs ys x zs : sa_rel w N arr xs -> xs = ys ++ x :: zs -> seq_arr_read arr (zlen (image ys)) = Ok x.
Proof.
  intros R E. destruct (sr_data _ _ _ _ R) as [tail Ed]. pose proof (sr_elts _ _ _ _ R) as He. rewrite E in He.
  apply Forall_app in He as [_ [Hx _]%Forall_cons]. unfold seq_arr_read. rewrite Ed, E, (sr_elt _ _ _ _ R).
  change (x :: zs) with ([x] ++ zs). rewrite !image_app, image_one, <- !app_assoc.
  rewrite (zslice_mid (image ys) (Some <$> x)); [|done|by rewrite zlen_fmap].
  cbn [of_option mbind outcome_bind]. by rewrite mapM_image.
Qed.

Lemma walk_elements_ok arr xs fuel ys zs : sa_rel w N arr xs -> xs = ys ++ zs -> (length zs <= fuel)%nat ->
  walk_elements arr fuel (zlen (image ys)) (seq_arr_end arr) = Ok zs.
Proof.
  intros R. rewrite (end_ok _ _ R). revert ys fuel. induction zs as [|x zs IH]; intros ys fuel E Hf.
  { rewrite app_nil_r in E. subst xs. destruct fuel; cbn; by rewrite Z.eqb_refl. }
  pose proof (sr_elts _ _ _ _ R) as He. destruct fuel as [|fuel]; [cbn in Hf; lia|]. cbn [walk_elements].
  rewrite (read_ok _ _ _ _ _ R E). rewrite E in He. apply Forall_app in He as [He1 [Hx He2]%Forall_cons].
  assert (zlen (image xs) = zlen (image ys) + w + zlen (image zs)) as El.
  { rewrite E, image_app. change (x :: zs) with ([x] ++ zs). rewrite image_app, !zlen_app, image_one.
    rewrite zlen_fmap. lia. }
  pose proof (zlen_nonneg (image zs)). destruct (_ =? _) eqn:Eq; zify_bool; [lia|]. cbn [mbind outcome_bind].
  unfold seq_arr_next. rewrite (sr_elt _ _ _ _ R).
  replace (zlen (image ys) + w) with (zlen (image (ys ++ [x]))).
  - rewrite IH; [done|by rewrite E, <- app_assoc|cbn in Hf; lia].
  - rewrite image_app, zlen_app, image_one, zlen_fmap. lia.
Qed.

Lemma all_elements_ok arr xs : sa_rel w N arr xs -> all_elements arr = Ok xs.
Proof.
  intros R. unfold all_elements. change (seq_arr_front arr) with (zlen (image [])). apply (walk_elements_ok arr xs _ [] xs); [done|done|].
  rewrite (sr_size _ _ _ _ R). unfold zlen. lia.
Qed.

Lemma find_ok arr xs f fuel ys zs : sa_rel w N arr xs -> xs = ys ++ zs -> (length zs <= fuel)%nat ->
  find_loop arr fuel (zlen (image ys)) (seq_arr_end arr) f = Ok ((fun i => (zlen ys + i) * w) <$> find_pos zs f).
Proof.
  intros R. rewrite (end_ok _ _ R). revert ys fuel. induction zs as [|x zs IH]; intros ys fuel E Hf.
  { rewrite app_nil_r in E. subst xs. destruct fuel; cbn; by rewrite Z.eqb_refl. }
  pose proof (sr_elts _ _ _ _ R) as He. destruct fuel as [|fuel]; [cbn in Hf; lia|]. cbn [find_loop find_pos].
  rewrite (read_ok _ _ _ _ _ R E). pose proof E as E'. change (x :: zs) with ([x] ++ zs) in E'. rewrite app_assoc in E'.
  rewrite E' in He. apply Forall_app in He as [He1 He2]. pose proof (image_len _ _ He1) as Hl1.
  apply Forall_app in He1 as [He1 _]. pose proof (image_len _ _ He1) as Hl2. rewrite zlen_app, zlen_cons, zlen_nil in Hl1.
  assert (zlen (image xs) = zlen (image (ys ++ [x])) + zlen (image zs)) as El by (by rewrite E', image_app, zlen_app).
  pose proof (zlen_nonneg (image zs)). destruct (_ =? _) eqn:Eq; zify_bool; [lia|]. cbn [mbind outcome_bind].
  destruct (f x); [cbn; rewrite Hl2; do 2 f_equal; lia|]. unfold seq_arr_next. rewrite (sr_elt _ _ _ _ R).
  replace (zlen (image ys) + w) with (zlen (image (ys ++ [x]))) by lia.
  rewrite IH; [|done|cbn in Hf; lia]. destruct (find_pos zs f); [|done]. cbn. rewrite zlen_app, zlen_cons, zlen_nil. do 2 f_equal; lia.
Qed.

(** ** Growing and shrinking *)

Lemma expand_ok arr xs : sa_rel w N arr xs -> zlen xs < N ->
  sa_rel w N (maybe_expand arr) xs /\ zlen xs + 1 < sa_cap (maybe_expand arr).
Proof.
  intros R Hx. unfold maybe_expand. pose proof (zlen_nonneg xs). pose proof (sr_cap _ _ _ _ R) as Hc.
  pose proof (sizes_small (sa_cap arr * 2)). assert (sa_cap arr <= 8 + 2 * N) by lia.
  rewrite (sr_size _ _ _ _ R). unfold u64. rewrite (Z.mod_small (zlen xs + 1)) by nia.
  destruct (_ =? _) eqn:E; zify_bool; [|split; [done|lia]].
  destruct (sr_data _ _ _ _ R) as [tail Ed]. destruct (sr_pow _ _ _ _ R) as (k & Hk & Ek).
  assert (0 <= sa_cap arr * 2 <= 8 + 2 * N) as Hc2 by lia. pose proof (sizes_small _ Hc2) as Hs.
  assert (sa_cap arr * 2 < 2 ^ 32) by nia.
  rewrite (sr_elt _ _ _ _ R), (Z.mul_comm 2), (Z.mod_small (sa_cap arr * 2)), (Z.mod_small (_ * w)) by lia.
  pose proof (image_len _ _ (sr_elts _ _ _ _ R)) as Hl.
  destruct (realloc_prefix (image xs) tail (sa_cap arr * 2 * w)) as (tail' & Er & El); [nia|]. rewrite Ed, Er.
  split; [|field_simpl; lia]. split; field_simpl; try apply R.
  - by exists tail'.
  - rewrite El. nia.
  - exists (k + 1). rewrite Z.pow_add_r by lia. lia.
  - lia.
Qed.

Lemma shrink_ok arr xs : sa_rel w N arr xs -> exists arr', maybe_shrink arr = Ok arr' /\ sa_rel w N arr' xs.
Proof.
  intros R. unfold maybe_shrink. rewrite (sr_size _ _ _ _ R). destruct (_ && _) eqn:E; [|by exists arr]. zify_bool.
  unfold MIN_SIZE in *. destruct (sr_pow _ _ _ _ R) as (k & Hk & Ek). destruct (sr_data _ _ _ _ R) as [tail Ed].
  pose proof (sr_cap _ _ _ _ R) as Hc. pose proof (image_len _ _ (sr_elts _ _ _ _ R)) as Hl.
  assert (3 <= k) as Hk3. { destruct (Z.le_gt_cases 3 k); [done|]. assert (2 ^ k <= 2 ^ 2) by (apply Z.pow_le_mono_r; lia). lia. }
  assert (sa_cap arr / 2 = 8 * 2 ^ (k - 1)) as Ec.
  { rewrite Ek. replace k with (k - 1 + 1) at 1 by lia. rewrite Z.pow_add_r by lia.
    replace (8 * (2 ^ (k - 1) * 2 ^ 1)) with (8 * 2 ^ (k - 1) * 2) by lia. by rewrite Z.div_mul. }
  assert (sa_cap arr = 2 * (sa_cap arr / 2)) as Ecc.
  { rewrite Ec, Ek. replace k with (k - 1 + 1) at 1 by lia. rewrite Z.pow_add_r by lia. lia. }
  assert (2 ^ 2 <= 2 ^ (k - 1)) by (apply Z.pow_le_mono_r; lia). set (c := sa_cap arr / 2) in *.
  destruct (sa_cap arr >? 8) eqn:E8; zify_bool; [|lia]. cbn [require mbind outcome_bind].
  assert (c <= 8 + 2 * N) by lia. assert (0 <= c * c < 2 ^ 64) as Hcc by nia.
  pose proof (sr_pushed _ _ _ _ R). pose proof (zlen_nonneg xs). pose proof (sizes_small (zlen xs)).
  unfold u64. rewrite (sr_elt _ _ _ _ R), (Z.mod_small (_ * w)), (Z.mod_small (c * c)) by lia.
  rewrite Ed. change (image xs ++ tail) with ([] ++ image xs ++ tail). rewrite zslice_mid by done. cbn [of_option mbind outcome_bind].
  change (calloc (c * c)) with ([] ++ calloc (c * c)).
  assert (zlen (calloc (c * c)) = c * c) as Ez by (unfold calloc, zlen; rewrite length_replicate; lia).
  rewrite zblit_mid by (done || nia). cbn [of_option mbind outcome_bind app]. eexists. split; [done|].
  split; cbn [sa_elt_size sa_size sa_data sa_cap]; try apply R; try done.
  - by eexists.
  - rewrite zlen_over by nia. nia.
  - exists (k - 1). by split; [lia|].
  - lia.
Qed.

(** ** The operations *)

Lemma push_ok arr xs data : sa_rel w N arr xs -> zlen xs < N -> w <= zlen data ->
  exists arr', seq_arr_push_back arr data = Ok arr' /\ sa_rel w N arr' (xs ++ [take (Z.to_nat w) data]).
Proof.
  intros R0 Hx Hd. destruct (expand_ok _ _ R0 Hx) as [R Hc]. unfold seq_arr_push_back. rewrite (end_ok _ _ R), (sr_elt _ _ _ _ R).
  rewrite zslice_ok by lia. change (Z.to_nat 0) with 0%nat. rewrite drop_0. cbn [of_option mbind outcome_bind].
  destruct (sr_data _ _ _ _ R) as [tail Ed]. pose proof (sr_room _ _ _ _ R) as Hr. pose proof (image_len _ _ (sr_elts _ _ _ _ R)) as Hl.
  assert (zlen (take (Z.to_nat w) data) = w) as Ht by (apply zlen_take; lia). pose proof (zlen_nonneg xs).
  rewrite Ed in *. rewrite zlen_app in Hr. rewrite zblit_mid; [|done|rewrite zlen_fmap; nia]. cbn [of_option mbind outcome_bind].
  eexists. split; [done|]. assert (zlen (xs ++ [take (Z.to_nat w) data]) = zlen xs + 1) as E1 by (rewrite zlen_app, zlen_cons, zlen_nil; lia).
  split; field_simpl; rewrite ?E1; try apply R.
  - rewrite (sr_size _ _ _ _ R). unfold u64. apply Z.mod_small. pose proof (sizes_small (zlen xs + 1)). nia.
  - apply Forall_app. split; [apply (sr_elts _ _ _ _ R)|]. by constructor.
  - eexists. rewrite image_app, image_one, <- app_assoc. done.
  - rewrite zlen_app, zlen_over; [lia|rewrite zlen_fmap; nia].
  - pose proof (sr_cap _ _ _ _ R). lia.
  - lia.
Qed.

Lemma to_int_small x : 0 <= x < 2 ^ 31 -> to_int x = x.
Proof. intros Hx. unfold to_int, i32. rewrite u32_small by lia. destruct (_ <? _) eqn:E; zify_bool; lia. Qed.

Lemma elements_bytes n : 0 <= n <= N -> 0 <= n * w < 2 ^ 31.
Proof. intros Hn. nia. Qed.

Lemma erase_ok arr ys bs zs free_func : sa_rel w N arr (ys ++ bs ++ zs) ->
  exists arr', seq_arr_erase_it arr (zlen (image ys)) (zlen (image (ys ++ bs))) free_func =
    Ok (if free_func && negb (zlen bs =? 0) then ys ++ bs ++ zs else [], arr') /\ sa_rel w N arr' (ys ++ zs).
Proof.
  intros R. destruct (sr_data _ _ _ _ R) as [tail Ed]. pose proof (sr_elts _ _ _ _ R) as He. rewrite !Forall_app in He.
  destruct He as (He1 & He2 & He3). pose proof (image_len _ _ He1) as L1. pose proof (image_len _ _ He2) as L2. pose proof (image_len _ _ He3) as L3.
  pose proof (sr_pushed _ _ _ _ R) as Hp. rewrite !zlen_app in Hp.
  pose proof (zlen_nonneg ys). pose proof (zlen_nonneg bs). pose proof (zlen_nonneg zs). pose proof (zlen_nonneg tail).
  unfold seq_arr_erase_it. rewrite image_app, zlen_app, L1, L2. destruct (zlen bs =? 0) eqn:Eb; zify_bool.
  { assert (bs = []) as -> by (by destruct bs; [|rewrite zlen_cons in *; pose proof (zlen_nonneg bs); lia]).
    change (zlen (@nil (list Z))) with 0. rewrite Z.add_0_r, Z.eqb_refl, andb_false_r. by exists arr. }
  destruct (_ =? _) eqn:E; zify_bool; [nia|]. cbn [negb]. rewrite andb_true_r, (all_elements_ok _ _ R).
  rewrite (end_ok _ _ R), !image_app, !zlen_app, L1, L2, L3, (sr_elt _ _ _ _ R).
  assert (0 <= zlen bs * w < 2 ^ 31) by (apply elements_bytes; lia). assert (0 <= zlen zs * w < 2 ^ 31) by (apply elements_bytes; lia).
  assert (0 <= zlen ys * w < 2 ^ 31) by (apply elements_bytes; lia).
  replace (zlen ys * w + (zlen bs * w + zlen zs * w) - (zlen ys * w + zlen bs * w)) with (zlen zs * w) by lia.
  replace (zlen ys * w + zlen bs * w - zlen ys * w) with (zlen bs * w) by lia. rewrite (to_int_small (zlen zs * w)), (to_int_small (zlen bs * w)) by lia.
  assert (forall A (k : list (list Z) -> outcome A), (x ← (if free_func then Ok (ys ++ bs ++ zs) else Ok []); k x) =
    k (if free_func then ys ++ bs ++ zs else [])) as Hif by (intros; by destruct free_func). rewrite Hif. clear Hif.
  rewrite Ed, !image_app, <- !app_assoc, (app_assoc (image ys)), (zslice_mid _ (image zs)); [|rewrite ?zlen_app; lia..].
  cbn [of_option mbind outcome_bind]. rewrite <- (app_assoc (image ys)), zblit_mid; [|lia|rewrite !zlen_app; lia].
  cbn [of_option mbind outcome_bind]. destruct (w =? 0) eqn:Ew; zify_bool; [lia|]. cbn [negb require mbind outcome_bind].
  set (rest := drop (length (image zs)) (image bs ++ image zs ++ tail)).
  assert (zlen rest = zlen bs * w + zlen tail) as Lr.
  { unfold rest. unfold zlen in *. rewrite length_drop, !length_app. lia. }
  unfold u64. rewrite (Z.mod_small (zlen bs * w)), Z.div_mul by lia. rewrite (to_int_small (zlen bs)) by nia.
  rewrite (sr_size _ _ _ _ R), !zlen_app, (Z.mod_small (_ - _)) by nia.
  replace (zlen ys + (zlen bs + zlen zs) - zlen bs) with (zlen (ys ++ zs)) by (rewrite zlen_app; lia).
  destruct (0 <=? zlen bs * w) eqn:E0; zify_bool; [|lia]. cbn [require mbind outcome_bind]. unfold seq_arr_end. field_simpl.
  rewrite (sr_elt _ _ _ _ R), <- (image_len w) by (by apply Forall_app). unfold u64.
  rewrite (Z.mod_small (zlen (image (ys ++ zs)))) by (rewrite image_app, zlen_app; lia).
  rewrite (app_assoc (image ys)), <- image_app.
  assert (zlen (calloc (zlen bs * w)) = zlen bs * w) as Lc by (unfold calloc, zlen; rewrite length_replicate; lia).
  rewrite zblit_mid by (done || lia). cbn [of_option mbind outcome_bind].
  match goal with |- context [maybe_shrink ?a] => assert (sa_rel w N a (ys ++ zs)) as R' end.
  { split; field_simpl; try apply R; try done.
    - by apply Forall_app.
    - by eexists.
    - rewrite zlen_app, zlen_over by lia. pose proof (sr_room _ _ _ _ R) as Hr. rewrite Ed, !image_app, !zlen_app in Hr.
      rewrite image_app, zlen_app. lia.
    - pose proof (sr_cap _ _ _ _ R) as Hc. rewrite !zlen_app in Hc. rewrite zlen_app. lia.
    - rewrite zlen_app. lia. }
  destruct (shrink_ok _ _ R') as (arr' & -> & R''). exists arr'. split; [|done]. by destruct free_func.
Qed.

(** The elements from one position to another. *)
Lemma cut_split xs i j : 0 <= i <= j -> j <= zlen xs ->
  exists ys bs zs, xs = ys ++ bs ++ zs /\ zlen ys = i /\ zlen bs = j - i /\ cut xs i j = ys ++ zs.
Proof.
  intros Hi Hj. destruct (firstn_split xs i) as (ys & l & -> & Hy); [lia|]. rewrite zlen_app in Hj.
  destruct (firstn_split l (j - i)) as (bs & zs & -> & Hb); [lia|]. exists ys, bs, zs. split_and!; [done..|].
  unfold cut, zlen in *. rewrite take_app_le, take_ge by lia. f_equal.
  rewrite app_assoc, drop_app_ge, length_app by (rewrite length_app; lia).
  replace (Z.to_nat j - (length ys + length bs))%nat with 0%nat by lia. done.
Qed.

Lemma find_pos_range xs f i : find_pos xs f = Some i -> 0 <= i < zlen xs.
Proof.
  revert i. induction xs as [|x xs IH]; intros i; cbn [find_pos]; [done|]. rewrite zlen_cons. pose proof (zlen_nonneg xs).
  destruct (f x); [intros [= <-]; lia|]. destruct (find_pos xs f) as [n|]; [|done]. specialize (IH n eq_refl). intros [= <-]. lia.
Qed.

Lemma foldl_snoc {A} (l xs : list A) : foldl (fun l e => l ++ [e]) l xs = l ++ xs.
Proof. revert l. induction xs as [|x xs IH]; intros l; cbn; [by rewrite app_nil_r|]. by rewrite IH, <- app_assoc. Qed.

Lemma erase_range arr xs i j free_func : sa_rel w N arr xs -> 0 <= i <= j -> j <= zlen xs ->
  exists arr', seq_arr_erase_it arr (seq_arr_at arr i) (seq_arr_at arr j) free_func =
    Ok (if free_func && negb (i =? j) then xs else [], arr') /\ sa_rel w N arr' (cut xs i j).
Proof.
  intros R Hi Hj. destruct (cut_split xs i j Hi Hj) as (ys & bs & zs & -> & Hy & Hb & ->).
  assert (j = zlen (ys ++ bs)) as Ej by (rewrite zlen_app; lia).
  replace (i =? j) with (zlen bs =? 0) by (destruct (zlen bs =? 0) eqn:E1, (i =? j) eqn:E2; zify_bool; lia). subst i j.
  rewrite (at_ok arr _ ys (bs ++ zs) R eq_refl), (at_ok arr _ (ys ++ bs) zs R) by (by rewrite <- app_assoc). by apply erase_ok.
Qed.

Lemma next_at arr xs i : sa_rel w N arr xs -> 0 <= i < zlen xs -> seq_arr_next arr (seq_arr_at arr i) = seq_arr_at arr (i + 1).
Proof.
  intros R Hi. pose proof (sr_pushed _ _ _ _ R). assert (0 <= (i + 1) * w < 2 ^ 31) by (apply elements_bytes; lia).
  unfold seq_arr_next, seq_arr_at. rewrite (sr_elt _ _ _ _ R), !u32_small by nia. unfold u64. rewrite !Z.mod_small by nia. lia.
Qed.

Lemma sa_step_ok arr xs c : sa_rel w N arr xs -> sa_call_ok w xs c = true -> zlen xs < N ->
  exists arr', sa_step arr c = Ok (fst (list_step w xs c), arr') /\ sa_rel w N arr' (snd (list_step w xs c)).
Proof.
  intros R Hok HxN. destruct c as [data|pos|pos|i j free_func|pos|f| |]; cbn [sa_call_ok sa_step list_step fst snd] in *; zify_bool.
  - destruct (push_ok _ _ data R HxN) as (arr' & -> & R'); [done|]. by exists arr'.
  - unfold seq_arr_erase, seq_arr_erase_deep. rewrite (next_at _ _ _ R) by lia.
    destruct (erase_range _ _ pos (pos + 1) false R) as (arr' & -> & R'); [lia..|]. by exists arr'.
  - unfold seq_arr_erase_deep. rewrite (next_at _ _ _ R) by lia.
    destruct (erase_range _ _ pos (pos + 1) true R) as (arr' & -> & R'); [lia..|]. exists arr'.
    destruct (pos =? pos + 1) eqn:E; zify_bool; [lia|]. done.
  - destruct (erase_range _ _ i j free_func R) as (arr' & -> & R'); [lia..|]. by exists arr'.
  - destruct (firstn_split xs pos) as (ys & zs & E & Hy); [lia|]. destruct zs as [|x zs]; [rewrite E, app_nil_r in *; lia|].
    rewrite <- Hy, (at_ok _ _ _ _ R E), (read_ok _ _ _ _ _ R E). exists arr. split; [|done]. cbn. repeat f_equal.
    rewrite E. unfold zget. pose proof (zlen_nonneg ys). destruct (0 <=? zlen ys) eqn:E0; zify_bool; [|lia].
    unfold zlen. by rewrite Nat2Z.id, list_lookup_middle.
  - unfold find_if. change (seq_arr_front arr) with (zlen (image [])). rewrite (find_ok _ xs f _ [] xs R); [|done|rewrite (sr_size _ _ _ _ R); unfold zlen; lia].
    cbn [mbind outcome_bind]. destruct (find_pos xs f) as [i|] eqn:E; cbn [fmap option_fmap option_map]; [|by exists arr].
    apply find_pos_range in E. unfold seq_arr_dist. rewrite (sr_elt _ _ _ _ R). destruct (w =? 0) eqn:Ew; zify_bool; [lia|].
    pose proof (sr_pushed _ _ _ _ R). assert (0 <= i * w < 2 ^ 31) by (apply elements_bytes; lia). cbn [negb require mbind outcome_bind].
    change (zlen (image [])) with 0. change (zlen (@nil (list Z))) with 0. rewrite Z.add_0_l, Z.sub_0_r. unfold u64.
    rewrite Z.mod_small, Z.div_mul by lia. by exists arr.
  - unfold for_each. rewrite (all_elements_ok _ _ R). cbn [mbind outcome_bind]. rewrite foldl_snoc. by exists arr.
  - rewrite (sr_size _ _ _ _ R). by exists arr.
Qed.

Lemma list_step_len xs c : sa_call_ok w xs c = true -> zlen (snd (list_step w xs c)) <= zlen xs + 1.
Proof.
  assert (forall i j, 0 <= i <= j -> zlen (cut xs i j) <= zlen xs) as Hcut.
  { intros i j Hi. unfold cut, zlen. rewrite length_app, length_take, length_drop. lia. }
  destruct c as [data|pos|pos|i j free_func|pos|f| |]; cbn [sa_call_ok list_step snd]; intros Hok; zify_bool; try lia.
  - rewrite zlen_app, zlen_cons, zlen_nil. lia.
  - pose proof (Hcut pos (pos + 1)). lia.
  - pose proof (Hcut pos (pos + 1)). lia.
  - pose proof (Hcut i j). lia.
Qed.

Lemma sa_run_ok cs arr xs : sa_rel w N arr xs -> sa_calls_ok w xs cs = true -> zlen xs + zlen cs <= N ->
  exists arr', sa_run arr cs = Ok (fst (list_run w xs cs), arr') /\ sa_rel w N arr' (snd (list_run w xs cs)).
Proof.
  revert arr xs. induction cs as [|c cs IH]; intros arr xs R Hok Hlen; [by exists arr|]. cbn [sa_calls_ok sa_run list_run] in *. zify_bool.
  rewrite zlen_cons in Hlen. pose proof (zlen_nonneg cs).
  destruct (sa_step_ok _ _ c R) as (arr1 & -> & R1); [done|lia|]. pose proof (list_step_len xs c) as Hl.
  destruct (list_step w xs c) as [r xs1]. cbn [fst snd mbind outcome_bind] in *.
  destruct (IH arr1 xs1) as (arr' & -> & R'); [done|done|specialize (Hl ltac:(done)); lia|].
  destruct (list_run w xs1 cs) as [rs xs']. by exists arr'.
Qed.
End Array.


(** Elements of three bytes: the array grows to a capacity of 128 and shrinks
    to 64; what it finds, reads and erases is what was pushed. *)
Definition element (n : Z) : list Z := [n; n + 1; 255 - n].
Definition grow_and_shrink : list sa_call :=
  ((fun n => SaPushBack (element n)) <$> seqZ 0 70) ++
  [SaEraseIt 5 55 false; SaSize; SaRead 5; SaFindIf (fun e => bool_decide (e = element 60)); SaErase 10; SaEraseDeep 0; SaForEach].
Definition kept_elements : list (list Z) := element <$> [1; 2; 3; 4] ++ seqZ 55 5 ++ seqZ 61 9.


(** Elements of 34 bytes: after shrinking to a capacity of 32 the block has 32
    times 32 bytes, not 32 times 34, and the thirty-first element is written
    behind it; elements of 72 bytes are copied behind it when it shrinks. *)
Definition shrink_then_fill (elt_size : nat) (n : Z) : list sa_call :=
  replicate 32 (SaPushBack (replicate elt_size 7)) ++ [SaEraseIt 0 17 false] ++ replicate (Z.to_nat n) (SaPushBack (replicate elt_size 9)).
Example shrunk_block_too_small :
  (sa_run (seq_arr_init 34) (shrink_then_fill 34 15) <> Fault OutOfBounds) /\
  sa_run (seq_arr_init 34) (shrink_then_fill 34 16) = Fault OutOfBounds /\
  sa_run (seq_arr_init 72) (shrink_then_fill 72 0) = Fault OutOfBounds.
Proof. split_and!; vm_compute; [discriminate|reflexivity|reflexivity]. Qed.

(** Erasing one of three elements gives all of them to the function that frees. *)
Example erase_deep_frees_all :
  match sa_run (seq_arr_init 3) ((SaPushBack ∘ element <$> [1; 2; 3]) ++ [SaEraseDeep 1; SaForEach]) with
  | Ok (rs, _) => drop 3 rs = [SaFreed (element <$> [1; 2; 3]); SaElements (element <$> [1; 3])]
  | Fault _ => False
  end.
Proof. reflexivity. Qed.
