(* ===== verification/RlcAmQueue.v ===== *)
(** * The queues of the AM transmitter

    A segment is in the transmit list, then in the wait list, and comes and
    goes between the wait list and the retransmit list until it is
    acknowledged.  [am_q] is what holds of the three lists and of the SDUs
    behind them, whatever the order of the calls; the lemmas below say that
    each move of a segment keeps it. *)

From S2P Require Import Prelude TimeStat RlcPdu RlcSdu RlcReassembly RlcEntity RlcAm.
From S2P Require Import RlcAmSend.

(** ** Sequence numbers *)

(** The sequence number of a segment, -1 when none is assigned. *)
Definition seg_sn (h : sdu_heap) (s : nr_rlc_sdu_segment_t) : Z :=
  match heap_sdus h !! seg_sdu s with Some u => sdu_sn u | None => -1 end.

Definition seg_live (h : sdu_heap) (s : nr_rlc_sdu_segment_t) : Prop :=
  is_Some (heap_sdus h !! seg_sdu s).

Lemma am_seg_sn_ok e s :
  seg_live (heap (am_common e)) s -> am_seg_sn e s = Ok (seg_sn (heap (am_common e)) s).
Proof. intros [u Hu]. unfold am_seg_sn, deref_sdu, seg_sn. by rewrite Hu. Qed.

Lemma heap_inv_live h l s : heap_inv h l -> s ∈ l -> seg_live h s.
Proof.
  intros H Hs. pose proof (heap_segs _ _ H) as Hw. rewrite Forall_forall in Hw.
  destruct (Hw s Hs) as (_ & u & Hu & _). by exists u.
Qed.

Lemma seg_sn_same h h' l s :
  heap_same h h' l -> s ∈ l -> seg_live h s -> seg_sn h' s = seg_sn h s /\ seg_live h' s.
Proof.
  intros [_ H] Hs [u Hu]. destruct (H s u Hs Hu) as (u' & Hu' & Esn & _).
  unfold seg_sn, seg_live. rewrite Hu, Hu'. eauto.
Qed.

Lemma seg_sn_set h s u u' t :
  heap_sdus h !! seg_sdu s = Some u -> sdu_sn u' = sdu_sn u ->
  seg_sn (set_sdu h s u') t = seg_sn h t.
Proof.
  intros Hu E. unfold seg_sn, set_sdu. field_simpl. rewrite lookup_insert.
  case_decide as Es; [|done]. by rewrite <- Es, Hu.
Qed.

(** Distance of [sn] to the start of the window. *)
Definition am_key (M ack sn : Z) : Z := (sn - ack) mod M.

Lemma am_modulus_tx_key e a :
  0 <= a < am_sn_modulus e -> 0 <= am_tx_next_ack e < am_sn_modulus e ->
  am_modulus_tx e a = am_key (am_sn_modulus e) (am_tx_next_ack e) a.
Proof.
  intros Ha Hn. unfold am_modulus_tx, am_key. rewrite mod_sub_cases by lia.
  destruct (_ <? 0) eqn:E; zify_bool; case_if; lia.
Qed.

Section queue.
Context (M W : Z).

Definition sn_range (sn : Z) : Prop := 0 <= sn < M.

(** [sn] has been assigned and not acknowledged. *)
Definition in_flight (ack nx sn : Z) : Prop := sn_range sn /\ am_key M ack sn < am_key M ack nx.

(** Order of the wait and retransmit lists. *)
Definition seg_before (h : sdu_heap) (ack : Z) (s t : nr_rlc_sdu_segment_t) : Prop :=
  am_key M ack (seg_sn h s) < am_key M ack (seg_sn h t) \/
  seg_sn h s = seg_sn h t /\ seg_so s <= seg_so t.

Record am_q (h : sdu_heap) (tx wait retx lost : list nr_rlc_sdu_segment_t) (nx ack : Z) : Prop := {
  q_heap : heap_inv h (tx ++ wait ++ retx ++ lost);
  q_nx : sn_range nx;
  q_ack : sn_range ack;
  q_window : am_key M ack nx <= W;
  q_sent : Forall (fun s => in_flight ack nx (seg_sn h s)) (wait ++ retx);
  q_tx : Forall (fun s => seg_sn h s = -1 \/ in_flight ack nx (seg_sn h s)) tx;
  q_inj : forall s t, s ∈ tx ++ wait ++ retx -> t ∈ tx ++ wait ++ retx ->
          seg_sn h s = seg_sn h t -> seg_sn h s <> -1 -> seg_sdu s = seg_sdu t;
  q_wait : StronglySorted (seg_before h ack) wait;
  q_retx : StronglySorted (seg_before h ack) retx;
}.

Lemma am_key_inj ack a b :
  sn_range a -> sn_range b -> am_key M ack a = am_key M ack b -> a = b.
Proof.
  unfold sn_range, am_key. intros Ha Hb E.
  assert (Hm : M <> 0) by lia.
  apply (f_equal (fun x => (x + ack) mod M)) in E.
  rewrite !Zplus_mod_idemp_l in E. replace (a - ack + ack) with a in E by lia.
  replace (b - ack + ack) with b in E by lia. by rewrite !Z.mod_small in E by lia.
Qed.

Lemma seg_before_trans h ack s t u :
  seg_before h ack s t -> seg_before h ack t u -> seg_before h ack s u.
Proof. unfold seg_before. intros [|[E1 ?]] [|[E2 ?]]; rewrite ?E1, <- ?E2 in *; [lia..|]. right. lia. Qed.

Lemma am_sn_compare_tx_key e a b :
  am_sn_modulus e = M -> sn_range (am_tx_next_ack e) -> sn_range a -> sn_range b ->
  am_sn_compare_tx e a b = am_key M (am_tx_next_ack e) a - am_key M (am_tx_next_ack e) b.
Proof.
  unfold sn_range. intros HM. rewrite <- HM. intros. unfold am_sn_compare_tx.
  by rewrite !am_modulus_tx_key.
Qed.

(** ** Ordered insertion *)

(** [cur] comes after [s], as the code compares them. *)
Definition seg_gt (h : sdu_heap) (ack : Z) (cur s : nr_rlc_sdu_segment_t) : Prop :=
  am_key M ack (seg_sn h s) < am_key M ack (seg_sn h cur) \/
  seg_sn h cur = seg_sn h s /\ seg_so s < seg_so cur.

Lemma seg_gt_not h ack s t :
  sn_range (seg_sn h s) -> sn_range (seg_sn h t) -> ~ seg_gt h ack s t -> seg_before h ack s t.
Proof.
  intros Hs Ht Hn. unfold seg_gt, seg_before in *.
  destruct (decide (am_key M ack (seg_sn h s) = am_key M ack (seg_sn h t))) as [E|E]; [|lia].
  apply am_key_inj in E; [lia|done..].
Qed.

Lemma list_add_correct e l s :
  am_sn_modulus e = M -> sn_range (am_tx_next_ack e) ->
  Forall (fun t => seg_live (heap (am_common e)) t /\ sn_range (seg_sn (heap (am_common e)) t)) (s :: l) ->
  exists l1 l2, l = l1 ++ l2 /\
    nr_rlc_tx_sdu_segment_list_add e l s = Ok (l1 ++ s :: l2) /\
    Forall (fun t => ~ seg_gt (heap (am_common e)) (am_tx_next_ack e) t s) l1 /\
    match l2 with t :: _ => seg_gt (heap (am_common e)) (am_tx_next_ack e) t s | [] => True end.
Proof.
  intros HM Hack [[Hs Hsn] Hl]%Forall_cons. set (h := heap (am_common e)) in *.
  induction Hl as [|t l [Ht Htn] Hl IH].
  - exists [], []. by split_and!.
  - cbn [nr_rlc_tx_sdu_segment_list_add]. rewrite !am_seg_sn_ok by done. cbn [mbind outcome_bind]. fold h.
    destruct (_ || _) eqn:E.
    + exists [], (t :: l). split_and!; try done. unfold seg_gt.
      apply orb_true_iff in E as [E|E]; zify_bool.
      * left. rewrite am_sn_compare_tx_key in E by done. lia.
      * right. lia.
    + destruct IH as (l1 & l2 & -> & -> & H1 & H2). exists (t :: l1), l2.
      split_and!; try done. constructor; [|done]. zify_bool. unfold seg_gt.
      intros [Hgt|[Heq Hgt]].
      * rewrite am_sn_compare_tx_key in * by done. lia.
      * rewrite <- Heq, Z.eqb_refl in *. cbn [andb] in *. zify_bool. lia.
Qed.

Lemma StronglySorted_insert {A} (R : A -> A -> Prop) (l1 l2 : list A) (s : A) :
  (forall x y z, R x y -> R y z -> R x z) ->
  StronglySorted R (l1 ++ l2) -> Forall (fun t => R t s) l1 ->
  match l2 with t :: _ => R s t | [] => True end ->
  StronglySorted R (l1 ++ s :: l2).
Proof.
  intros Htr Hs H1 H2. apply StronglySorted_app in Hs as (Hs1 & Hs2 & Hx).
  apply StronglySorted_app. split_and!; [|done|].
  - intros x y Hx1 Hy. apply elem_of_cons in Hy as [->|Hy]; [|by apply Hs1].
    rewrite Forall_forall in H1. by apply H1.
  - constructor; [done|]. destruct l2 as [|t l2]; [done|]. constructor; [done|].
    apply StronglySorted_inv in Hx as [_ Hx]. eapply Forall_impl; [exact Hx|]. intros y Hy. by eapply Htr.
Qed.

(** ** Moves of a segment *)

Lemma in_flight_numbered ack nx sn : in_flight ack nx sn -> sn_range sn /\ sn <> -1.
Proof. unfold in_flight, sn_range. lia. Qed.

Lemma am_q_numbered h tx wait retx lost nx ack s :
  am_q h tx wait retx lost nx ack -> s ∈ tx ++ wait ++ retx -> seg_sn h s <> -1 ->
  in_flight ack nx (seg_sn h s).
Proof.
  intros [_ _ _ _ Hs Htx _ _ _] [Hin|Hin]%elem_of_app Hn; rewrite Forall_forall in Hs, Htx.
  - by destruct (Htx s Hin).
  - by apply Hs.
Qed.

Lemma am_q_sent h tx wait retx lost nx ack s :
  am_q h tx wait retx lost nx ack -> s ∈ wait ++ retx ->
  seg_live h s /\ sn_range (seg_sn h s) /\ in_flight ack nx (seg_sn h s).
Proof.
  intros H Hin. pose proof (q_sent _ _ _ _ _ _ _ H) as Hs. rewrite Forall_forall in Hs.
  split_and!; [|apply Hs, Hin..]. eapply heap_inv_live; [apply H|]. set_solver.
Qed.

(** Each segment of the new lists comes from one of the old ones. *)
Lemma am_q_sub h tx wait retx lost nx ack h' tx' wait' retx' lost' :
  am_q h tx wait retx lost nx ack ->
  heap_inv h' (tx' ++ wait' ++ retx' ++ lost') ->
  (forall s, s ∈ tx' ++ wait' ++ retx' -> exists t, t ∈ tx ++ wait ++ retx /\
     seg_sdu t = seg_sdu s /\ seg_sn h' s = seg_sn h t) ->
  (forall s, s ∈ wait' ++ retx' -> seg_sn h' s <> -1) ->
  StronglySorted (seg_before h' ack) wait' -> StronglySorted (seg_before h' ack) retx' ->
  am_q h' tx' wait' retx' lost' nx ack.
Proof.
  intros H Hh Hfrom Hn Hw Hr. constructor; try done; try apply H.
  - rewrite Forall_forall. intros s Hs. specialize (Hn s Hs).
    destruct (Hfrom s ltac:(set_solver)) as (t & Ht & _ & E). rewrite E in *.
    by eapply am_q_numbered.
  - rewrite Forall_forall. intros s Hs.
    destruct (decide (seg_sn h' s = -1)) as [|Hns]; [by left|right].
    destruct (Hfrom s ltac:(set_solver)) as (t & Ht & _ & E). rewrite E in *.
    by eapply am_q_numbered.
  - intros s t Hs Ht E Hns.
    destruct (Hfrom s Hs) as (s0 & Hs0 & Es & Es'), (Hfrom t Ht) as (t0 & Ht0 & Et & Et').
    rewrite <- Es, <- Et. apply (q_inj _ _ _ _ _ _ _ H); try done; congruence.
Qed.

Lemma seg_before_ext h h' ack l :
  (forall s, s ∈ l -> seg_sn h' s = seg_sn h s) ->
  StronglySorted (seg_before h ack) l -> StronglySorted (seg_before h' ack) l.
Proof.
  intros E Hs. induction Hs as [|s l Hs IH Hall]; constructor.
  - apply IH. set_solver.
  - rewrite Forall_forall in Hall |- *. intros t Ht. specialize (Hall t Ht).
    unfold seg_before. rewrite !E by set_solver. done.
Qed.

Lemma heap_same_sn h h' l s :
  heap_inv h l -> heap_same h h' l -> s ∈ l -> seg_sn h' s = seg_sn h s.
Proof. intros Hi Hs Hin. eapply seg_sn_same; [done|done|by eapply heap_inv_live]. Qed.

(** An SDU arrives. *)
Lemma am_q_new h tx wait retx lost nx ack h' s :
  am_q h tx wait retx lost nx ack ->
  heap_inv h' (s :: tx ++ wait ++ retx ++ lost) -> heap_same h h' (tx ++ wait ++ retx ++ lost) ->
  seg_sn h' s = -1 -> am_q h' (tx ++ [s]) wait retx lost nx ack.
Proof.
  intros H Hh Hsame Hn.
  assert (E : forall t, t ∈ tx ++ wait ++ retx -> seg_sn h' t = seg_sn h t).
  { intros t Ht. eapply heap_same_sn; [apply H|done|set_solver]. }
  constructor; try apply H.
  - rewrite <- app_assoc. cbn [app]. by rewrite <- Permutation_middle.
  - pose proof (q_sent _ _ _ _ _ _ _ H) as Hs. rewrite Forall_forall in Hs |- *.
    intros t Ht. rewrite E by set_solver. by apply Hs.
  - pose proof (q_tx _ _ _ _ _ _ _ H) as Hs. rewrite Forall_forall in Hs |- *.
    intros t [Ht|Ht%list_elem_of_singleton]%elem_of_app; [|subst; by left].
    rewrite E by set_solver. by apply Hs.
  - intros x y Hx Hy Exy Hnx.
    assert (Hin : forall z, z ∈ (tx ++ [s]) ++ wait ++ retx -> seg_sn h' z <> -1 -> z ∈ tx ++ wait ++ retx).
    { intros z. rewrite !elem_of_app, list_elem_of_singleton. naive_solver. }
    pose proof (Hin x Hx Hnx). pose proof (Hin y Hy ltac:(congruence)).
    rewrite !E in * by done. by apply (q_inj _ _ _ _ _ _ _ H).
  - eapply seg_before_ext; [|apply H]. intros t Ht. apply E. set_solver.
  - eapply seg_before_ext; [|apply H]. intros t Ht. apply E. set_solver.
Qed.

(** Segments leave the lists, or go from [lost] nowhere. *)
Lemma am_q_shrink h tx wait retx lost nx ack h' tx' wait' retx' lost' :
  am_q h tx wait retx lost nx ack ->
  heap_inv h' (tx' ++ wait' ++ retx' ++ lost') ->
  heap_same h h' (tx' ++ wait' ++ retx' ++ lost') ->
  tx' ⊆ tx -> wait' ⊆ wait -> retx' ⊆ retx ->
  StronglySorted (seg_before h ack) wait' -> StronglySorted (seg_before h ack) retx' ->
  am_q h' tx' wait' retx' lost' nx ack.
Proof.
  intros H Hh Hsame Htx Hw Hr Hws Hrs.
  assert (Hin : forall t, t ∈ tx' ++ wait' ++ retx' -> t ∈ tx ++ wait ++ retx) by set_solver.
  assert (E : forall t, t ∈ tx' ++ wait' ++ retx' -> seg_sn h' t = seg_sn h t).
  { intros t Ht. eapply seg_sn_same; [exact Hsame|set_solver|].
    eapply heap_inv_live; [apply H|]. specialize (Hin t Ht). set_solver. }
  eapply am_q_sub; [exact H|done| | | |].
  - intros s Hs. exists s. split_and!; [by apply Hin|done|by apply E].
  - intros s Hs. rewrite E by set_solver.
    eapply in_flight_numbered. eapply am_q_sent; [exact H|]. set_solver.
  - eapply seg_before_ext; [|done]. set_solver.
  - eapply seg_before_ext; [|done]. set_solver.
Qed.

(** The head of the transmit list is given the next sequence number. *)
Lemma am_q_assign h s l wait retx lost nx ack u :
  am_q h (s :: l) wait retx lost nx ack -> M = 2 * W -> 0 < W -> am_key M ack nx < W ->
  heap_sdus h !! seg_sdu s = Some u -> sdu_sn u = -1 ->
  am_q (set_sdu h s (u <| sdu_sn := nx |>)) (s :: l) wait retx lost (Z.rem (nx + 1) M) ack.
Proof.
  intros H HM HW Hk Hu Hn. set (h' := set_sdu _ _ _).
  pose proof (q_nx _ _ _ _ _ _ _ H) as Hnx. pose proof (q_ack _ _ _ _ _ _ _ H) as Hack.
  unfold sn_range in *. rewrite Z.rem_mod_nonneg by lia.
  assert (Hkey : am_key M ack ((nx + 1) mod M) = am_key M ack nx + 1).
  { unfold am_key in *. rewrite Zminus_mod_idemp_l. replace (nx + 1 - ack) with (nx - ack + 1) by lia.
    rewrite <- Zplus_mod_idemp_l, Z.mod_small; [done|].
    pose proof (Z.mod_pos_bound (nx - ack) M ltac:(lia)). lia. }
  assert (E : forall t, seg_sn h' t = if decide (seg_sdu s = seg_sdu t) then nx else seg_sn h t).
  { intros t. unfold seg_sn, h', set_sdu. field_simpl. rewrite lookup_insert. by case_decide. }
  assert (Es : forall t, seg_sdu s = seg_sdu t -> seg_sn h t = -1).
  { intros t Et. unfold seg_sn. by rewrite <- Et, Hu. }
  assert (Hfl : in_flight ack ((nx + 1) mod M) nx).
  { split; [done|]. rewrite Hkey. lia. }
  assert (Hmono : forall sn, in_flight ack nx sn -> in_flight ack ((nx + 1) mod M) sn).
  { intros sn [? ?]. split; [done|]. rewrite Hkey. lia. }
  assert (Hnum : forall t, t ∈ (s :: l) ++ wait ++ retx -> seg_sn h t <> nx).
  { intros t Ht Et. assert (seg_sn h t <> -1) by lia.
    destruct (am_q_numbered _ _ _ _ _ _ _ _ H Ht ltac:(done)) as [_ Hlt]. rewrite Et in Hlt. lia. }
  constructor.
  - eapply heap_inv_set; [apply H|done..].
  - apply Z.mod_pos_bound. lia.
  - done.
  - rewrite Hkey. lia.
  - pose proof (q_sent _ _ _ _ _ _ _ H) as Hs. rewrite Forall_forall in Hs |- *.
    intros t Ht. rewrite E. case_decide; [done|]. by apply Hmono, Hs.
  - pose proof (q_tx _ _ _ _ _ _ _ H) as Hs. rewrite Forall_forall in Hs |- *.
    intros t Ht. rewrite E. case_decide; [by right|]. destruct (Hs t Ht); [by left|right; by apply Hmono].
  - intros x y Hx Hy. rewrite !E. case_decide as Ex; case_decide as Ey; intros Exy Hne.
    + congruence.
    + by destruct (Hnum y Hy).
    + by destruct (Hnum x Hx).
    + by apply (q_inj _ _ _ _ _ _ _ H).
  - eapply seg_before_ext; [|apply H]. intros t Ht. rewrite E. case_decide as Et; [|done].
    destruct (am_q_sent _ _ _ _ _ _ _ t H ltac:(set_solver)) as (_ & Hr & _).
    unfold sn_range in Hr. rewrite (Es t Et) in Hr. lia.
  - eapply seg_before_ext; [|apply H]. intros t Ht. rewrite E. case_decide as Et; [|done].
    destruct (am_q_sent _ _ _ _ _ _ _ t H ltac:(set_solver)) as (_ & Hr & _).
    unfold sn_range in Hr. rewrite (Es t Et) in Hr. lia.
Qed.

(** ** Cutting a segment *)

Lemma heap_split_sn h s l u n t :
  heap_inv h (s :: l) -> heap_sdus h !! seg_sdu s = Some u -> 
  seg_sn ((set_sdu h s (u <| ref_count := ref_count u + 1 |>)) <| heap_next := n |>) t = seg_sn h t.
Proof.
  intros H Hu. rewrite <- (seg_sn_set h s u (u <| ref_count := ref_count u + 1 |>) t) by done. done.
Qed.

Lemma am_q_split_tx h s l wait retx lost nx ack u n :
  am_q h (s :: l) wait retx lost nx ack -> heap_sdus h !! seg_sdu s = Some u -> 0 < n < seg_size s ->
  let h' := (set_sdu h s (u <| ref_count := ref_count u + 1 |>)) <| heap_next := heap_next h + 1 |> in
  am_q h' (seg_head s n :: seg_tail s (heap_next h) n :: l) wait retx lost nx ack /\
  heap_bytes h' = heap_bytes h.
Proof.
  intros H Hu Hn h'. pose proof (q_heap _ _ _ _ _ _ _ H) as Hh. cbn [app] in Hh.
  destruct (heap_inv_split _ _ _ _ _ Hh Hu Hn) as (Hh' & _ & Hb). fold h' in Hh', Hb. split; [|done].
  assert (E : forall t, seg_sn h' t = seg_sn h t) by (intros; by eapply heap_split_sn).
  eapply am_q_sub; [exact H|exact Hh'| | | |].
  - intros t Ht. rewrite E. cbn [app] in Ht. rewrite !elem_of_cons in Ht.
    destruct Ht as [->|[->|Ht]]; [exists s|exists s|exists t]; split_and!; try done; set_solver.
  - intros t Ht. rewrite E. eapply in_flight_numbered. by eapply am_q_sent.
  - eapply seg_before_ext; [|apply H]. intros; apply E.
  - eapply seg_before_ext; [|apply H]. intros; apply E.
Qed.

(** Segments of an SDU after another one are after all of it. *)
Lemma seg_after_end h l s t u :
  heap_inv h l -> s ∈ l -> t ∈ l -> seg_addr s <> seg_addr t -> seg_sdu s = seg_sdu t ->
  heap_sdus h !! seg_sdu s = Some u -> 0 < seg_size s -> seg_so s <= seg_so t -> seg_end s <= seg_so t.
Proof.
  intros H Hs Ht Ha E Hu Hsz Hle.
  destruct (heap_disjoint _ _ H s t Hs Ht Ha E) as [|Hd]; [done|]. unfold seg_end in *.
  pose proof (heap_segs _ _ H) as Hw. rewrite Forall_forall in Hw.
  destruct (Hw t Ht) as (_ & v & Hv & Htr), (Hw s Hs) as (_ & w & Hw' & Hsr).
  rewrite <- E in Hv. simplify_eq. unfold seg_range, seg_end in *.
  destruct Htr as (? & ? & ? & Hf & Hl & [|[Hf' Hl']]); [lia|].
  apply Hf in Hf'. apply Hl in Hl'. lia.
Qed.

Lemma am_q_split_retx h tx wait s l lost nx ack u n :
  am_q h tx wait (s :: l) lost nx ack -> heap_sdus h !! seg_sdu s = Some u -> 0 < n < seg_size s ->
  let h' := (set_sdu h s (u <| ref_count := ref_count u + 1 |>)) <| heap_next := heap_next h + 1 |> in
  am_q h' tx wait (seg_head s n :: seg_tail s (heap_next h) n :: l) lost nx ack /\
  heap_bytes h' = heap_bytes h.
Proof.
  intros H Hu Hn h'. pose proof (q_heap _ _ _ _ _ _ _ H) as Hh.
  assert (Hp : tx ++ wait ++ (s :: l) ++ lost ≡ₚ s :: tx ++ wait ++ l ++ lost) by solve_Permutation.
  rewrite Hp in Hh.
  destruct (heap_inv_split _ _ _ _ _ Hh Hu Hn) as (Hh' & _ & Hb). fold h' in Hh', Hb. split; [|done].
  assert (E : forall t, seg_sn h' t = seg_sn h t) by (intros; by eapply heap_split_sn).
  assert (Hhead : Forall (seg_before h ack s) l /\ StronglySorted (seg_before h ack) l).
  { pose proof (q_retx _ _ _ _ _ _ _ H) as Hs. by apply StronglySorted_inv in Hs as [? ?]. }
  destruct Hhead as [Hhead Hl].
  assert (Hall : StronglySorted (seg_before h ack) (seg_head s n :: seg_tail s (heap_next h) n :: l)).
  { rewrite Forall_forall in Hhead. constructor; [constructor; [done|]|constructor].
    - rewrite Forall_forall. intros t Ht. destruct (Hhead t Ht) as [|[Et Hso]]; [by left|right].
      split; [done|]. unfold seg_tail. field_simpl.
      assert (seg_end s <= seg_so t); [|unfold seg_end in *; lia].
      eapply (seg_after_end h _ s t u Hh); [set_solver..| | |done|lia|done].
      + eapply NoDup_seg_addr_head; [apply Hh|]. set_solver.
      + apply (q_inj _ _ _ _ _ _ _ H); [set_solver..|done|].
        eapply in_flight_numbered, am_q_sent; [exact H|set_solver].
    - right. split; [done|]. unfold seg_head, seg_tail. field_simpl. lia.
    - rewrite Forall_forall. intros t Ht. exact (Hhead t Ht). }
  eapply am_q_sub; [exact H| | | | |].
  - clear -Hh'. eapply heap_inv_perm; [|exact Hh']. solve_Permutation.
  - intros t Ht. rewrite E. rewrite !elem_of_app, !elem_of_cons in Ht.
    destruct Ht as [Ht|[Ht|[->|[->|Ht]]]]; [exists t|exists t|exists s|exists s|exists t];
      split_and!; try done; set_solver.
  - intros t Ht. rewrite E. eapply in_flight_numbered.
    rewrite !elem_of_app, !elem_of_cons in Ht.
    destruct Ht as [Ht|[->|[->|Ht]]].
    + eapply am_q_sent; [exact H|set_solver].
    + eapply (am_q_sent _ _ _ _ _ _ _ s); [exact H|set_solver].
    + eapply (am_q_sent _ _ _ _ _ _ _ s); [exact H|set_solver].
    + eapply am_q_sent; [exact H|set_solver].
  - eapply seg_before_ext; [|apply H]. intros; apply E.
  - eapply seg_before_ext; [|exact Hall]. intros; apply E.
Qed.

(** ** The start of the window moves *)

Lemma am_key_rebase ack ack' a :
  sn_range ack -> sn_range ack' -> sn_range a -> am_key M ack ack' <= am_key M ack a ->
  am_key M ack' a = am_key M ack a - am_key M ack ack'.
Proof.
  unfold sn_range, am_key. intros ? ? ?. rewrite !mod_sub_cases by lia. repeat case_if; lia.
Qed.

Lemma am_q_ack h tx wait retx lost nx ack ack' :
  am_q h tx wait retx lost nx ack -> sn_range ack' -> am_key M ack ack' <= am_key M ack nx ->
  (forall s, s ∈ tx ++ wait ++ retx -> seg_sn h s <> -1 -> am_key M ack ack' <= am_key M ack (seg_sn h s)) ->
  am_q h tx wait retx lost nx ack'.
Proof.
  intros H Ha Hnx Hall. pose proof (q_nx _ _ _ _ _ _ _ H) as Hn. pose proof (q_ack _ _ _ _ _ _ _ H) as Hb.
  assert (0 <= am_key M ack ack') by (unfold am_key, sn_range in *; apply Z.mod_pos_bound; lia).
  assert (Hfl : forall s, s ∈ tx ++ wait ++ retx -> seg_sn h s <> -1 -> in_flight ack' nx (seg_sn h s)).
  { intros s Hs Hne. destruct (am_q_numbered _ _ _ _ _ _ _ s H Hs Hne) as [Hr Hlt]. split; [done|].
    pose proof (Hall s Hs Hne). rewrite !(am_key_rebase ack ack') by done. lia. }
  assert (Hne : forall s, s ∈ wait ++ retx -> seg_sn h s <> -1).
  { intros s Hs. eapply in_flight_numbered, am_q_sent; [exact H|done]. }
  assert (Hsort : forall l, (forall s, s ∈ l -> s ∈ wait ++ retx) ->
    StronglySorted (seg_before h ack) l -> StronglySorted (seg_before h ack') l).
  { intros l Hl Hs. induction Hs as [|s l Hs IH Hb']; constructor; [apply IH; set_solver|].
    rewrite Forall_forall in Hb' |- *. intros t Ht.
    assert (Hs' : s ∈ wait ++ retx) by (apply Hl; set_solver).
    assert (Ht' : t ∈ wait ++ retx) by (apply Hl; set_solver).
    pose proof (Hall s ltac:(set_solver) (Hne s Hs')). pose proof (Hall t ltac:(set_solver) (Hne t Ht')).
    destruct (Hb' t Ht) as [Hlt|]; [left|by right].
    destruct (am_q_sent _ _ _ _ _ _ _ s H Hs') as (_ & Hsr & _), (am_q_sent _ _ _ _ _ _ _ t H Ht') as (_ & Htr & _).
    rewrite !(am_key_rebase ack ack') by done. lia. }
  constructor; try done; try apply H.
  - rewrite (am_key_rebase ack ack') by done. pose proof (q_window _ _ _ _ _ _ _ H). lia.
  - rewrite Forall_forall. intros s Hs. apply Hfl; [set_solver|by apply Hne].
  - rewrite Forall_forall. intros s Hs. destruct (decide (seg_sn h s = -1)); [by left|right].
    apply Hfl; [set_solver|done].
  - apply Hsort; [set_solver|apply H].
  - apply Hsort; [set_solver|apply H].
Qed.

(** ** Into the wait list *)

(** Another segment with the same number is another part of the SDU. *)
Definition sn_inj (h : sdu_heap) (l : list nr_rlc_sdu_segment_t) : Prop :=
  forall s t, s ∈ l -> t ∈ l -> seg_sn h s = seg_sn h t -> seg_sdu s = seg_sdu t.

(** Inserting [s] in [l]: where the C code puts it. *)
Record seg_inserted (h : sdu_heap) (ack : Z) (s : nr_rlc_sdu_segment_t)
    (l l' : list nr_rlc_sdu_segment_t) : Prop := {
  ins_perm : l' ≡ₚ s :: l;
  ins_sorted : StronglySorted (seg_before h ack) l';
  ins_last : last l' = Some s \/ last l' = last l;
}.

Lemma insert_sorted h ack s l1 l2 :
  Forall (fun t => sn_range (seg_sn h t)) (s :: l1 ++ l2) ->
  StronglySorted (seg_before h ack) (l1 ++ l2) ->
  Forall (fun t => ~ seg_gt h ack t s) l1 ->
  match l2 with t :: _ => seg_gt h ack t s | [] => True end ->
  seg_inserted h ack s (l1 ++ l2) (l1 ++ s :: l2).
Proof.
  intros [Hs Hr]%Forall_cons Hsort H1 H2. constructor.
  - by rewrite <- Permutation_middle.
  - apply StronglySorted_insert; [apply seg_before_trans|done| |].
    + rewrite Forall_forall in H1, Hr |- *. intros t Ht. apply seg_gt_not; [|done|by apply H1].
      apply Hr. set_solver.
    + destruct l2 as [|t l2]; [done|]. destruct H2 as [|[E ?]]; [by left|right]. split; [done|lia].
  - destruct l2 as [|t l2 _] using rev_ind.
    + left. by rewrite last_snoc.
    + right. by rewrite app_comm_cons, !app_assoc, !last_snoc.
Qed.


Lemma seg_gt_before h ack s t : seg_gt h ack t s -> seg_before h ack s t.
Proof. intros [|[E ?]]; [by left|right]. split; [done|lia]. Qed.

Lemma sorted_snoc h ack l t s :
  StronglySorted (seg_before h ack) (l ++ [t]) -> seg_before h ack t s ->
  StronglySorted (seg_before h ack) ((l ++ [t]) ++ [s]).
Proof.
  intros Hs Hts. apply StronglySorted_insert; [apply seg_before_trans|by rewrite app_nil_r| |done].
  apply StronglySorted_app in Hs as (Hs & _ & _). rewrite Forall_forall.
  intros x [Hx| ->%list_elem_of_singleton]%elem_of_app; [|done].
  eapply seg_before_trans; [apply (Hs x t); [done|set_solver]|done].
Qed.

(** Two segments that the order does not tell apart overlap. *)
Lemma seg_order_total h ack l s t :
  heap_inv h l -> s ∈ l -> t ∈ l -> seg_addr s <> seg_addr t -> 0 < seg_size s ->
  sn_range (seg_sn h s) -> sn_range (seg_sn h t) -> (seg_sn h s = seg_sn h t -> seg_sdu s = seg_sdu t) ->
  seg_gt h ack s t \/ seg_gt h ack t s.
Proof.
  intros Hh Hs Ht Ha Hsz Hsr Htr Hinj. unfold seg_gt.
  destruct (decide (am_key M ack (seg_sn h s) = am_key M ack (seg_sn h t))) as [E|]; [|lia].
  apply am_key_inj in E; [|done..]. destruct (decide (seg_so s = seg_so t)) as [Eso|]; [|lia].
  destruct (heap_inv_live _ _ _ Hh Hs) as [u Hu]. exfalso.
  pose proof (seg_after_end h l s t u Hh Hs Ht Ha (Hinj E) Hu Hsz). unfold seg_end in *. lia.
Qed.

Lemma am_put_in_wait_list_correct e s rest :
  let h := heap (am_common e) in let ack := am_tx_next_ack e in let wait := am_wait_list e in
  am_sn_modulus e = M -> sn_range ack ->
  heap_inv h (s :: wait ++ rest) -> Forall (fun t => sn_range (seg_sn h t)) (s :: wait) ->
  sn_inj h (s :: wait) -> StronglySorted (seg_before h ack) wait -> end_ok wait (am_wait_end e) ->
  0 < seg_size s ->
  exists wait' end', am_put_in_wait_list e s = Ok (e <| am_wait_list := wait' |> <| am_wait_end := end' |>) /\
    end_ok wait' end' /\ wait' ≡ₚ s :: wait /\ StronglySorted (seg_before h ack) wait'.
Proof.
  intros h ack wait HM Hack Hh Hr Hinj Hsort Hend Hsz.
  assert (Hnd : NoDup (seg_addr <$> wait)).
  { pose proof (heap_nodup _ _ Hh) as Hn. rewrite fmap_cons, fmap_app in Hn.
    apply NoDup_cons in Hn as [_ Hn]. by apply NoDup_app in Hn as (? & _). }
  assert (Hlive : forall t, t ∈ s :: wait -> seg_live h t).
  { intros t Ht. eapply heap_inv_live; [exact Hh|]. set_solver. }
  rewrite Forall_forall in Hr.
  unfold am_put_in_wait_list, am_after_wait_end. fold wait.
  destruct (am_wait_end e) as [a|] eqn:Ea.
  2: { assert (wait = []) as Ew.
       { unfold end_ok in Hend. symmetry in Hend. by apply fmap_None, last_None in Hend. }
       cbn [mbind outcome_bind]. rewrite append_correct by done. cbn [mbind outcome_bind].
       rewrite Ew. eexists _, _. split; [done|]. split_and!; try done. repeat constructor. }
  destruct (deref_end_correct wait _ a Hend eq_refl Hnd) as (t & Hlast & ->). cbn [mbind outcome_bind].
  apply last_Some in Hlast as (l & El). rewrite El in *.
  assert (Hs : s ∈ s :: l ++ [t]) by set_solver. assert (Ht : t ∈ s :: l ++ [t]) by set_solver.
  rewrite !am_seg_sn_ok by by apply Hlive. fold h. cbn [mbind outcome_bind].
  rewrite (am_sn_compare_tx_key e _ _ HM Hack) by by apply Hr. fold ack.
  destruct (seg_order_total h ack (s :: (l ++ [t]) ++ rest) s t Hh) as [Hgt|Hgt];
    [set_solver|set_solver| |done|by apply Hr|by apply Hr|by apply Hinj| |].
  { eapply NoDup_seg_addr_head; [apply Hh|]. set_solver. }
  - destruct (_ || _) eqn:E; [|unfold seg_gt in Hgt; destruct Hgt as [?|[E1 ?]];
      [zify_bool; lia|rewrite E1 in E; zify_bool; rewrite Z.sub_diag in *; cbn in *; zify_bool; lia]].
    rewrite append_correct by (try done; by rewrite Hend).
    cbn [mbind outcome_bind]. eexists _, _. split; [reflexivity|]. split_and!.
    + apply end_ok_snoc.
    + by rewrite <- Permutation_cons_append.
    + apply sorted_snoc; [done|]. by apply seg_gt_before.
  - destruct (_ || _) eqn:E.
    { exfalso. unfold seg_gt in Hgt. apply orb_true_iff in E as [E|E]; zify_bool;
        (destruct Hgt as [?|[E1 ?]]; [lia|rewrite E1 in *; lia]). }
    destruct (list_add_correct e (l ++ [t]) s HM Hack) as (l1 & l2 & Ell & -> & H1 & H2).
    { rewrite Forall_forall. intros x Hx. split; [by apply Hlive|by apply Hr]. }
    cbn [mbind outcome_bind]. fold h ack in H1, H2.
    destruct (insert_sorted h ack s l1 l2) as [Hp Hs' _]; rewrite <- ?Ell; try done.
    { by rewrite Forall_forall. }
    destruct l2 as [|x l2 _] using rev_ind.
    { exfalso. rewrite app_nil_r in Ell. subst l1. rewrite Forall_forall in H1. by apply (H1 t ltac:(set_solver)). }
    assert (x = t /\ l = l1 ++ l2) as [-> ->].
    { rewrite app_assoc in Ell. by apply app_inj_tail in Ell as [-> ->]. }
    exists (l1 ++ s :: l2 ++ [t]), (Some a). split.
    + assert (Hne : forall y, l1 ++ s :: l2 ++ [t] <> [y]).
      { intros y Ey. apply (f_equal length) in Ey. rewrite length_app in Ey. cbn in Ey.
        rewrite length_app in Ey. cbn in Ey. lia. }
      destruct (l1 ++ s :: l2 ++ [t]) as [|y [|z r]]; [|by destruct (Hne y)|];
        (f_equal; clear -Ea; destruct e; cbn in Ea; subst; reflexivity).
    + split_and!; [|by rewrite Hp, <- app_assoc|done].
      unfold end_ok in *. rewrite app_comm_cons, app_assoc, last_snoc.
      by rewrite last_snoc in Hend.
Qed.
End queue.
