(* ===== verification/RlcAmTx.v ===== *)
(** * The transmitter of the AM entity

    [am_tx_inv] ties the three lists of RlcAmQueue.v, their end pointers, the
    occupancy of the transmit buffer and the buffer status together.  Every
    operation of the transmitter keeps it, none faults, and a generated PDU is
    the header and the bytes of the segment it carries. *)

From S2P Require Import Prelude TimeStat RlcPdu RlcSdu RlcReassembly RlcEntity RlcAm.
From S2P Require Import RlcAmCtrl RlcAmSend RlcAmQueue.

(** ** Invariant *)

Definition am_seg_bytes (sn_field_length : Z) (s : nr_rlc_sdu_segment_t) : Z :=
  am_pdu_header_size sn_field_length (is_first s) + seg_size s.

Record am_config_ok (e : nr_rlc_entity_am_t) : Prop := {
  am_cfg_len : am_sn_field_length e = 12 \/ am_sn_field_length e = 18;
  am_cfg_modulus : am_sn_modulus e = 2 ^ am_sn_field_length e;
  am_cfg_window : am_sn_modulus e = 2 * am_window_size e;
}.

Definition sdu_sizes_ok (h : sdu_heap) : Prop :=
  map_Forall (fun _ u => 0 < sdu_size u <= NR_SDU_MAX) (heap_sdus h).

Definition am_queues (e : nr_rlc_entity_am_t) (lost : list nr_rlc_sdu_segment_t) : Prop :=
  am_q (am_sn_modulus e) (am_window_size e) (heap (am_common e)) (am_tx_list e) (am_wait_list e)
    (am_retransmit_list e) lost (am_tx_next e) (am_tx_next_ack e).

Record am_tx_inv (e : nr_rlc_entity_am_t) (lost : list nr_rlc_sdu_segment_t) : Prop := {
  ti_q : am_queues e lost;
  ti_sizes : sdu_sizes_ok (heap (am_common e));
  ti_tx_end : end_ok (am_tx_list e) (am_tx_end e);
  ti_wait_end : end_ok (am_wait_list e) (am_wait_end e);
  ti_bytes : am_tx_size e = heap_bytes (heap (am_common e));
  ti_tx : bs_tx_size (bstatus (am_common e)) = zsum (am_seg_bytes (am_sn_field_length e)) (am_tx_list e);
  ti_retx : bs_retx_size (bstatus (am_common e))
            = zsum (am_seg_bytes (am_sn_field_length e)) (am_retransmit_list e ++ lost);
  ti_common : common_ok (am_common e);
}.

(** What the invariant depends on. *)
Definition am_tx_view (e : nr_rlc_entity_am_t) :=
  (heap (am_common e), bstatus (am_common e), txsdu_avg_time_to_tx (am_common e),
   (am_tx_list e, am_tx_end e, am_tx_size e), (am_wait_list e, am_wait_end e, am_retransmit_list e),
   (am_tx_next e, am_tx_next_ack e, am_sn_modulus e, am_window_size e, am_sn_field_length e)).

Lemma am_tx_inv_view e e' lost : am_tx_view e' = am_tx_view e -> am_tx_inv e lost -> am_tx_inv e' lost.
Proof.
  unfold am_tx_view. intros E [Hq H2 H3 H4 H5 H6 H7 H8]. simplify_eq.
  constructor; unfold am_queues, common_ok in *; by simplify_eq/=; congruence || (repeat (match goal with H : _ = _ |- _ => rewrite ?H in *; clear H end)).
Qed.

(** What the transmitter leaves alone. *)
Definition am_rx_view (e : nr_rlc_entity_am_t) :=
  (am_sn_field_length e, am_sn_modulus e, am_window_size e,
   (am_rx_next e, am_rx_next_status_trigger e, am_rx_highest_status e, am_rx_next_highest e),
   (am_rx_list e, am_rx_size e, am_rx_maxsize e), am_t_reassembly_start e, events (am_common e)).

Lemma am_config_view e e' : am_rx_view e' = am_rx_view e -> am_config_ok e -> am_config_ok e'.
Proof. unfold am_rx_view. intros E [H1 H2 H3]. simplify_eq. constructor; congruence. Qed.

Lemma am_config_pos e : am_config_ok e -> 0 < am_window_size e /\ am_sn_modulus e = 2 * am_window_size e.
Proof. intros [[E|E] H2 H3]; rewrite E in *; split; lia. Qed.

(** ** Serialization *)

Definition am_pdu_fields (len : Z) (p : bool) (sn : Z) (s : nr_rlc_sdu_segment_t) : list (Z * Z) :=
  [(1, 1); (b2z p, 1); (1 - b2z (is_first s), 1); (1 - b2z (is_last s), 1)]
  ++ (if len =? 18 then [(0, 2)] else []) ++ [(sn, len)]
  ++ (if negb (is_first s) then [(seg_so s, 16)] else []).

Lemma am_header_fields_eq len sn s : am_header_fields len sn s = am_pdu_fields len false sn s.
Proof. reflexivity. Qed.

Lemma am_header_fields_size len p sn s :
  len = 12 \/ len = 18 ->
  fields_ok (am_pdu_fields len p sn s) /\
  zsum snd (am_pdu_fields len p sn s) = 8 * am_pdu_header_size len (is_first s).
Proof.
  unfold am_pdu_fields, am_pdu_header_size, fields_ok.
  intros [-> | ->]; destruct (is_first s); cbn; split; try done; repeat constructor; cbn; lia.
Qed.

Lemma am_header_size_bounds len f : 2 <= am_pdu_header_size len f <= 5.
Proof. unfold am_pdu_header_size. destruct f, (len =? 18); cbn; lia. Qed.

(** [buffer[0] |= 0x40] sets the second bit. *)
Lemma poll_bit_bits b0 l bits :
  buffer_bits (b0 :: l) = true :: false :: bits ->
  buffer_bits (Z.lor b0 64 :: l) = true :: true :: bits.
Proof.
  unfold buffer_bits. cbn [mbind list_bind bits_of app].
  change (Z.of_nat 7) with 7. change (Z.of_nat 6) with 6. change (Z.of_nat 5) with 5.
  change (Z.of_nat 4) with 4. change (Z.of_nat 3) with 3. change (Z.of_nat 2) with 2.
  change (Z.of_nat 1) with 1. change (Z.of_nat 0) with 0. intros E.
  assert (E7 : Z.testbit b0 7 = true) by exact (f_equal (fun l => match l with b :: _ => b | [] => true end) E).
  apply (f_equal (fun l => tail (tail l))) in E. cbn [tail] in E. rewrite <- E.
  assert (Hb : forall i, 0 <= i -> Z.testbit (Z.lor b0 64) i = Z.testbit b0 i || (i =? 6)).
  { intros i Hi. rewrite Z.lor_spec. f_equal. change 64 with (2 ^ 6).
    rewrite Z.pow2_bits_eqb by lia. apply Z.eqb_sym. }
  rewrite !Hb by lia. rewrite E7, !orb_false_r, orb_true_r. done.
Qed.

(** [pdu] carries the segment [s] of [u], with the sequence number [sn]. *)
Definition am_carries (len : Z) (p : bool) (sn : Z) (s : nr_rlc_sdu_segment_t) (u : nr_rlc_sdu_t)
    (pdu : list Z) : Prop :=
  exists hdr data, pdu = hdr ++ data /\
    zlen hdr = am_pdu_header_size len (is_first s) /\
    buffer_bits hdr = fields_bits (am_pdu_fields len p sn s) /\
    zslice (sdu_data u) (seg_so s) (seg_size s) = Some data.

Definition am_polled (e : nr_rlc_entity_am_t) : nr_rlc_entity_am_t :=
  e <| am_pdu_without_poll := 0 |> <| am_byte_without_poll := 0 |>
    <| am_poll_sn := Z.rem (am_tx_next e - 1 + am_sn_modulus e) (am_sn_modulus e) |>
    <| am_t_poll_retransmit_start := am_t_current e |>.

Lemma am_include_poll_correct e b0 l :
  am_include_poll e (b0 :: l) = Ok (Z.lor b0 64 :: l, am_polled e).
Proof.
  unfold am_include_poll, zget, zset. cbn [Z.to_nat lookup list_lookup of_option mbind outcome_bind Z.leb].
  pose proof (zlen_nonneg l). rewrite zlen_cons. destruct (0 <? zlen l + 1) eqn:E; zify_bool; [done|lia].
Qed.

Lemma am_serialize_correct e s u buffer bufsize p :
  am_sn_field_length e = 12 \/ am_sn_field_length e = 18 ->
  heap_sdus (heap (am_common e)) !! seg_sdu s = Some u ->
  seg_range s u -> zlen (sdu_data u) = sdu_size u ->
  bytes_ok buffer -> bufsize <= zlen buffer ->
  am_seg_bytes (am_sn_field_length e) s <= bufsize ->
  exists buffer',
    am_serialize_sdu e s buffer bufsize p
    = Ok (am_seg_bytes (am_sn_field_length e) s, buffer', if p then am_polled e else e) /\
    zlen buffer' = zlen buffer /\
    am_carries (am_sn_field_length e) p (sdu_sn u) s u
      (take (Z.to_nat (am_seg_bytes (am_sn_field_length e) s)) buffer').
Proof.
  intros Hlen Hu (Hso & Hsz & Hend & _) Hdata Hb Hroom Hfit. set (len := am_sn_field_length e) in *.
  unfold am_serialize_sdu, deref_sdu. rewrite Hu. cbn [of_option mbind outcome_bind]. fold len.
  rewrite am_header_fields_eq.
  destruct (am_header_fields_size len false (sdu_sn u) s Hlen) as [Hok Hsum]. unfold seg_end in Hend.
  destruct (zslice (sdu_data u) (seg_so s) (seg_size s)) as [data|] eqn:Hslice.
  2: { rewrite zslice_ok in Hslice by lia. done. }
  pose proof (zslice_len _ _ _ _ Hslice) as Hdl. unfold am_seg_bytes in *.
  destruct (put_header_data buffer bufsize _ _ data Hb Hroom Hok Hsum)
    as (enc & buffer1 & hdr & -> & Hbyte & Hblit & Hl & Hh & Hbits & Htake); [lia|].
  cbn [mbind outcome_bind of_option]. rewrite Hbyte, Hblit. cbn [mbind outcome_bind of_option].
  pose proof (am_header_size_bounds len (is_first s)). rewrite Hdl in Htake.
  destruct p.
  2: { cbn [mbind outcome_bind]. exists buffer1. split_and!; [done|done|]. by exists hdr, data. }
  destruct hdr as [|b0 hdr]; [rewrite zlen_nil in Hh; lia|].
  set (n := Z.to_nat _) in *. rewrite <- (take_drop n buffer1), Htake in Hl |- *.
  cbn [app] in *. rewrite am_include_poll_correct. cbn [mbind outcome_bind].
  eexists. split; [done|]. split; [by rewrite zlen_cons in *|].
  exists (Z.lor b0 64 :: hdr), data. split_and!; [|by rewrite zlen_cons in *| |done].
  - change (Z.lor b0 64 :: (hdr ++ data) ++ drop n buffer1)
      with (((Z.lor b0 64 :: hdr) ++ data) ++ drop n buffer1).
    apply take_app_length'. rewrite length_app. unfold zlen, n in *. cbn [length] in *. lia.
  - assert (Hf : forall q, fields_bits (am_pdu_fields len q (sdu_sn u) s)
       = true :: q :: fields_bits (tail (tail (am_pdu_fields len q (sdu_sn u) s)))).
    { intros q. unfold am_pdu_fields. cbn [app tail]. rewrite !fields_bits_cons. by destruct q. }
    rewrite Hf in Hbits |- *. cbn [am_pdu_fields app tail] in Hbits |- *. by apply poll_bit_bits.
Qed.

(** ** A segment on its way out *)

(** [s] has left the transmit list or the retransmit list, and is not in the
    wait list yet. *)
Record am_out (e : nr_rlc_entity_am_t) (s : nr_rlc_sdu_segment_t)
    (lost : list nr_rlc_sdu_segment_t) : Prop := {
  out_q : exists tx retx,
    am_q (am_sn_modulus e) (am_window_size e) (heap (am_common e)) tx (am_wait_list e) retx lost
      (am_tx_next e) (am_tx_next_ack e) /\
    (tx = s :: am_tx_list e /\ retx = am_retransmit_list e \/
     tx = am_tx_list e /\ retx = s :: am_retransmit_list e);
  out_sn : seg_sn (heap (am_common e)) s <> -1;
  out_sizes : sdu_sizes_ok (heap (am_common e));
  out_tx_end : end_ok (am_tx_list e) (am_tx_end e);
  out_wait_end : end_ok (am_wait_list e) (am_wait_end e);
  out_bytes : am_tx_size e = heap_bytes (heap (am_common e));
  out_tx : bs_tx_size (bstatus (am_common e)) = zsum (am_seg_bytes (am_sn_field_length e)) (am_tx_list e);
  out_retx : bs_retx_size (bstatus (am_common e))
            = zsum (am_seg_bytes (am_sn_field_length e)) (am_retransmit_list e ++ lost);
  out_common : common_ok (am_common e);
}.

Lemma seg_size_pos h l s : heap_inv h l -> sdu_sizes_ok h -> s ∈ l -> 0 < seg_size s.
Proof.
  intros Hh Hs Hin. pose proof (heap_segs _ _ Hh) as Hw. rewrite Forall_forall in Hw.
  destruct (Hw s Hin) as (_ & u & Hu & ? & ? & ? & Hf & Hl & [|[Hf' Hl']]); [done|].
  apply Hf in Hf'. apply Hl in Hl'. unfold seg_end in *. pose proof (Hs _ _ Hu). cbn in *. lia.
Qed.

Lemma am_out_wait e s lost :
  am_config_ok e -> am_out e s lost ->
  exists wait' end', let e' := e <| am_wait_list := wait' |> <| am_wait_end := end' |> in
    am_put_in_wait_list e s = Ok e' /\ am_tx_inv e' lost /\ wait' ≡ₚ s :: am_wait_list e.
Proof.
  intros Hc [(tx & retx & Hq & Hcase) Hsn Hsz Hte Hwe Hb Htx Hre Hco].
  assert (Hin : s ∈ tx ++ am_wait_list e ++ retx) by (destruct Hcase as [[-> ->]|[-> ->]]; set_solver).
  set (rest := am_tx_list e ++ am_retransmit_list e ++ lost).
  assert (Hp : tx ++ am_wait_list e ++ retx ++ lost ≡ₚ s :: am_wait_list e ++ rest).
  { unfold rest. destruct Hcase as [[-> ->]|[-> ->]]; solve_Permutation. }
  pose proof (q_heap _ _ _ _ _ _ _ _ _ Hq) as Hh. rewrite Hp in Hh.
  assert (Hnum : forall t, t ∈ s :: am_wait_list e -> in_flight (am_sn_modulus e) (am_tx_next_ack e)
    (am_tx_next e) (seg_sn (heap (am_common e)) t) /\ t ∈ tx ++ am_wait_list e ++ retx).
  { intros t [->|Ht]%elem_of_cons.
    - split; [|done]. by eapply am_q_numbered.
    - split; [|set_solver]. eapply am_q_sent; [exact Hq|set_solver]. }
  destruct (am_put_in_wait_list_correct (am_sn_modulus e) e s rest) as (wait' & end' & Hput & Hend & Hperm & Hsort).
  - done.
  - apply Hq.
  - done.
  - rewrite Forall_forall. intros t Ht. by apply Hnum.
  - intros x y Hx Hy Exy. destruct (Hnum x Hx) as [Hfx Hx'], (Hnum y Hy) as [_ Hy'].
    eapply (q_inj _ _ _ _ _ _ _ _ _ Hq); try done. by eapply in_flight_numbered.
  - apply Hq.
  - done.
  - eapply seg_size_pos; [exact Hh|done|set_solver].
  - exists wait', end'. cbv zeta. split; [done|]. split; [|done].
    constructor; unfold am_queues; field_simpl; try done.
    eapply am_q_sub; [exact Hq| | | | |].
    + eapply heap_inv_perm; [|exact Hh]. rewrite Hperm. unfold rest. solve_Permutation.
    + intros t Ht. exists t. split; [|done].
      rewrite Hperm in Ht. destruct Hcase as [[-> ->]|[-> ->]]; set_solver.
    + intros t [Ht|Ht]%elem_of_app.
      * rewrite Hperm in Ht. by eapply in_flight_numbered, Hnum.
      * eapply in_flight_numbered, am_q_sent; [exact Hq|]. destruct Hcase as [[-> ->]|[-> ->]]; set_solver.
    + done.
    + destruct Hcase as [[-> ->]|[-> ->]]; [apply Hq|].
      pose proof (q_retx _ _ _ _ _ _ _ _ _ Hq) as Hs. by apply StronglySorted_inv in Hs as [? _].
Qed.

(** Stalling is the window being full. *)
Lemma am_not_stalling e lost :
  am_config_ok e -> am_queues e lost -> am_is_window_stalling e = false ->
  am_key (am_sn_modulus e) (am_tx_next_ack e) (am_tx_next e) < am_window_size e.
Proof.
  intros Hc Hq. destruct (am_config_pos e Hc) as [HW HM].
  pose proof (q_nx _ _ _ _ _ _ _ _ _ Hq) as Hnx. pose proof (q_ack _ _ _ _ _ _ _ _ _ Hq) as Hack.
  unfold am_is_window_stalling. intros H. zify_bool.
  rewrite Z.rem_mod_nonneg in * by (unfold sn_range in *; lia).
  assert (sn_range (am_sn_modulus e) ((am_tx_next_ack e + am_window_size e) mod am_sn_modulus e)).
  { apply Z.mod_pos_bound. lia. }
  rewrite (am_sn_compare_tx_key (am_sn_modulus e)) in * by done.
  assert (am_key (am_sn_modulus e) (am_tx_next_ack e)
    ((am_tx_next_ack e + am_window_size e) mod am_sn_modulus e) = am_window_size e); [|lia].
  unfold am_key. rewrite Zminus_mod_idemp_l. replace (_ + _ - _) with (am_window_size e) by lia.
  apply Z.mod_small. lia.
Qed.

Lemma am_resegment_correct e s u size :
  heap_sdus (heap (am_common e)) !! seg_sdu s = Some u ->
  let n := size - am_pdu_header_size (am_sn_field_length e) (is_first s) in
  let h := (set_sdu (heap (am_common e)) s (u <| ref_count := ref_count u + 1 |>))
             <| heap_next := heap_next (heap (am_common e)) + 1 |> in
  am_resegment e s size =
    Ok (e <| am_common := (am_common e) <| heap := h |> |>, seg_head s n,
        seg_tail s (heap_next (heap (am_common e))) n).
Proof.
  intros Hu n h. unfold am_resegment, deref_sdu, am_compute_pdu_header_size.
  rewrite Hu. cbn [of_option mbind outcome_bind]. field_simpl.
  set (k := am_pdu_header_size _ _) in *. unfold seg_head, seg_tail.
  replace (k + seg_size s - size) with (seg_size s - n) by (unfold n; lia).
  by replace (seg_size s - (seg_size s - n)) with n by lia.
Qed.

Lemma am_unlink_head_spec e s l :
  end_ok (s :: l) (am_tx_end e) ->
  exists te, am_unlink_head e l = e <| am_tx_list := l |> <| am_tx_end := te |> /\ end_ok l te.
Proof.
  intros H. unfold am_unlink_head. destruct l as [|t l]; [by eexists|].
  exists (am_tx_end e). split; [by destruct e|]. unfold end_ok in *. by rewrite last_cons_cons in H.
Qed.

Lemma am_put_back_spec e s :
  end_ok (am_tx_list e) (am_tx_end e) ->
  exists te, am_put_back e s = e <| am_tx_list := s :: am_tx_list e |> <| am_tx_end := te |> /\
    end_ok (s :: am_tx_list e) te.
Proof.
  unfold am_put_back, end_ok. change (am_tx_end (e <| am_tx_list := _ |>)) with (am_tx_end e).
  intros H. destruct (am_tx_end e) as [a|] eqn:Ee.
  - exists (Some a). split; [by destruct e; cbn in Ee; subst|]. by destruct (am_tx_list e).
  - exists (Some (seg_addr s)). split; [done|]. destruct (am_tx_list e); [done|].
    symmetry in H. by apply fmap_None, last_None in H.
Qed.

(** The number the head of the transmit list is sent with. *)
Definition am_first_sn (e : nr_rlc_entity_am_t) (u : nr_rlc_sdu_t) : Z :=
  if sdu_sn u =? -1 then am_tx_next e else sdu_sn u.

(** The SDU of [s] in [h], for its bytes and its number. *)
Definition seg_sdu_is (h : sdu_heap) (s : nr_rlc_sdu_segment_t) (d : list Z) (sn : Z) : Prop :=
  exists u, heap_sdus h !! seg_sdu s = Some u /\ sdu_data u = d /\ sdu_sn u = sn.

Lemma am_pop_tx e lost s l :
  am_config_ok e -> am_tx_inv e lost -> am_tx_list e = s :: l ->
  am_key (am_sn_modulus e) (am_tx_next_ack e) (am_tx_next e) < am_window_size e ->
  exists u e1,
    heap_sdus (heap (am_common e)) !! seg_sdu s = Some u /\
    am_assign_sn ((am_unlink_head e l) <| am_common :=
      add_tx_size (am_common (am_unlink_head e l)) (- am_seg_bytes (am_sn_field_length e) s) |>) s = Ok e1 /\
    am_out e1 s lost /\ am_tx_list e1 = l /\ am_rx_view e1 = am_rx_view e /\
    seg_sdu_is (heap (am_common e1)) s (sdu_data u) (am_first_sn e u) /\
    am_q (am_sn_modulus e1) (am_window_size e1) (heap (am_common e1)) (s :: am_tx_list e1)
      (am_wait_list e1) (am_retransmit_list e1) lost (am_tx_next e1) (am_tx_next_ack e1) /\
    am_retransmit_list e1 = am_retransmit_list e /\ am_wait_list e1 = am_wait_list e.
Proof.
  intros Hc [Hq Hsz Hte Hwe Hb Htx Hre Hco] El Hk. destruct (am_config_pos e Hc) as [HW HM].
  rewrite El in *. unfold am_queues in Hq. rewrite El in Hq.
  destruct (am_unlink_head_spec e s l Hte) as (te & -> & Hend).
  pose proof (q_heap _ _ _ _ _ _ _ _ _ Hq) as Hh. cbn [app] in Hh.
  destruct (heap_inv_deref _ _ _ Hh) as (u & _ & Hu & _).
  rewrite zsum_cons in Htx.
  unfold am_assign_sn, deref_sdu, add_tx_size. field_simpl. rewrite Hu. cbn [of_option mbind outcome_bind].
  assert (Esn : seg_sn (heap (am_common e)) s = sdu_sn u) by (unfold seg_sn; by rewrite Hu).
  exists u. unfold am_first_sn. destruct (sdu_sn u =? -1) eqn:E; zify_bool; (eexists; split; [done|]; split; [done|]).
  - pose proof (am_q_assign _ _ _ _ _ _ _ _ _ _ _ Hq HM HW Hk Hu E) as Hq'.
    pose proof (q_nx _ _ _ _ _ _ _ _ _ Hq) as Hnx. unfold sn_range in Hnx.
    split_and!; [|done|done| |done|done|done].
    + constructor; field_simpl; try done.
      * exists (s :: l), (am_retransmit_list e). split; [done|by left].
      * unfold seg_sn, set_sdu. field_simpl. rewrite lookup_insert_eq. field_simpl. lia.
      * unfold sdu_sizes_ok, set_sdu. field_simpl. apply map_Forall_insert_2; [|done]. exact (Hsz _ _ Hu).
      * by rewrite (heap_bytes_set _ _ u).
      * lia.
    + unfold seg_sdu_is, set_sdu. field_simpl. rewrite lookup_insert_eq. eexists. by split_and!.
  - split_and!; [|done|done| |done|done|done].
    + constructor; field_simpl; try done; try lia.
      exists (s :: l), (am_retransmit_list e). split; [done|by left].
    + exists u. by split_and!.
Qed.

(** The code of both generators when the segment does not fit. *)
Lemma am_cut_tx e lost s size :
  am_config_ok e -> am_out e s lost ->
  am_q (am_sn_modulus e) (am_window_size e) (heap (am_common e)) (s :: am_tx_list e)
    (am_wait_list e) (am_retransmit_list e) lost (am_tx_next e) (am_tx_next_ack e) ->
  let n := size - am_pdu_header_size (am_sn_field_length e) (is_first s) in
  0 < n < seg_size s ->
  let s1 := seg_head s n in
  let s2 := seg_tail s (heap_next (heap (am_common e))) n in
  exists e2,
    ('(e, sdu, next_sdu) ← am_resegment e s size;
     let e := am_put_back e next_sdu in
     let c := add_stat (am_common e) txpdu_segmented 1 in
     let c := add_tx_size c (am_compute_pdu_header_size e next_sdu + seg_size next_sdu) in
     Ok (e <| am_common := c |>, sdu)) = Ok (e2, s1) /\
    am_out e2 s1 lost /\ am_tx_list e2 = s2 :: am_tx_list e /\ am_rx_view e2 = am_rx_view e /\
    am_wait_list e2 = am_wait_list e /\ am_retransmit_list e2 = am_retransmit_list e /\
    (forall d sn, seg_sdu_is (heap (am_common e)) s d sn -> seg_sdu_is (heap (am_common e2)) s1 d sn).
Proof.
  intros Hc [_ Hsn Hsz Hte Hwe Hb Htx Hre Hco] Hq n Hn s1 s2.
  pose proof (q_heap _ _ _ _ _ _ _ _ _ Hq) as Hh. cbn [app] in Hh.
  destruct (heap_inv_deref _ _ _ Hh) as (u & _ & Hu & _).
  rewrite (am_resegment_correct e s u size Hu). cbn [mbind outcome_bind].
  destruct (am_q_split_tx _ _ _ _ _ _ _ _ _ _ u n Hq Hu Hn) as [Hq' Hb'].
  set (h' := _ <| heap_next := _ |>) in *.
  fold n. fold s1. fold s2.
  match goal with |- context [am_put_back ?x s2] =>
    destruct (am_put_back_spec x s2 Hte) as (te & -> & Hend) end.
  field_simpl. unfold add_stat, add_tx_size, am_compute_pdu_header_size.
  eexists. split; [done|]. field_simpl. split_and!; [|done|done|done|done|].
  - constructor; field_simpl; try done.
    + eexists _, _. split; [exact Hq'|by left].
    + change (seg_sn h' s1) with (seg_sn h' s). unfold h'. by rewrite (heap_split_sn _ _ _ _ _ _ Hh Hu).
    + unfold sdu_sizes_ok, h', set_sdu. field_simpl. apply map_Forall_insert_2; [|done]. exact (Hsz _ _ Hu).
    + by rewrite Hb'.
    + rewrite zsum_cons, Htx. unfold am_seg_bytes at 2. lia.
  - intros d sn (v & Hv & Hd & Hs'). simplify_eq. unfold seg_sdu_is, h', set_sdu. field_simpl.
    change (seg_sdu s1) with (seg_sdu s). rewrite lookup_insert_eq. eexists. split_and!; [done|done|done].
Qed.

Lemma am_cut_retx e lost s size :
  am_config_ok e -> am_out e s lost ->
  am_q (am_sn_modulus e) (am_window_size e) (heap (am_common e)) (am_tx_list e)
    (am_wait_list e) (s :: am_retransmit_list e) lost (am_tx_next e) (am_tx_next_ack e) ->
  let n := size - am_pdu_header_size (am_sn_field_length e) (is_first s) in
  0 < n < seg_size s ->
  let s1 := seg_head s n in
  let s2 := seg_tail s (heap_next (heap (am_common e))) n in
  exists e2,
    ('(e, sdu, next_sdu) ← am_resegment e s size;
     let e := e <| am_retransmit_list := next_sdu :: am_retransmit_list e |> in
     let e := am_add_retx_size e (am_compute_pdu_header_size e next_sdu + seg_size next_sdu) in
     Ok (e <| am_common := add_stat (am_common e) txpdu_segmented 1 |>, sdu)) = Ok (e2, s1) /\
    am_out e2 s1 lost /\ am_retransmit_list e2 = s2 :: am_retransmit_list e /\
    am_rx_view e2 = am_rx_view e /\ am_wait_list e2 = am_wait_list e /\ am_tx_list e2 = am_tx_list e /\
    (forall d sn, seg_sdu_is (heap (am_common e)) s d sn -> seg_sdu_is (heap (am_common e2)) s1 d sn).
Proof.
  intros Hc [_ Hsn Hsz Hte Hwe Hb Htx Hre Hco] Hq n Hn s1 s2.
  pose proof (q_heap _ _ _ _ _ _ _ _ _ Hq) as Hh.
  assert (Hp : am_tx_list e ++ am_wait_list e ++ (s :: am_retransmit_list e) ++ lost
    ≡ₚ s :: am_tx_list e ++ am_wait_list e ++ am_retransmit_list e ++ lost) by solve_Permutation.
  rewrite Hp in Hh.
  destruct (heap_inv_deref _ _ _ Hh) as (u & _ & Hu & _).
  rewrite (am_resegment_correct e s u size Hu). cbn [mbind outcome_bind].
  destruct (am_q_split_retx _ _ _ _ _ _ _ _ _ _ u n Hq Hu Hn) as [Hq' Hb'].
  set (h' := _ <| heap_next := _ |>) in *.
  fold n. fold s1. fold s2.
  unfold add_stat, am_add_retx_size, add_retx_size, am_compute_pdu_header_size.
  eexists. split; [reflexivity|]. field_simpl. split_and!; [|done|done|done|done|].
  - constructor; field_simpl; try done.
    + eexists _, _. split; [exact Hq'|by right].
    + change (seg_sn h' s1) with (seg_sn h' s). unfold h'. by rewrite (heap_split_sn _ _ _ _ _ _ Hh Hu).
    + unfold sdu_sizes_ok, h', set_sdu. field_simpl. apply map_Forall_insert_2; [|done]. exact (Hsz _ _ Hu).
    + by rewrite Hb'.
    + cbn [app]. rewrite zsum_cons, Hre. unfold am_seg_bytes at 2. lia.
  - intros d sn (v & Hv & Hd & Hs'). simplify_eq. unfold seg_sdu_is, h', set_sdu. field_simpl.
    change (seg_sdu s1) with (seg_sdu s). rewrite lookup_insert_eq. eexists. split_and!; [done|done|done].
Qed.

Lemma am_pop_retx e lost s l :
  am_tx_inv e lost -> am_retransmit_list e = s :: l ->
  let e1 := am_add_retx_size (e <| am_retransmit_list := l |>) (- am_seg_bytes (am_sn_field_length e) s) in
  exists u, heap_sdus (heap (am_common e)) !! seg_sdu s = Some u /\
    am_out e1 s lost /\ seg_sdu_is (heap (am_common e1)) s (sdu_data u) (sdu_sn u) /\
    am_q (am_sn_modulus e1) (am_window_size e1) (heap (am_common e1)) (am_tx_list e1)
      (am_wait_list e1) (s :: am_retransmit_list e1) lost (am_tx_next e1) (am_tx_next_ack e1).
Proof.
  intros [Hq Hsz Hte Hwe Hb Htx Hre Hco] El e1. unfold am_queues in Hq. rewrite El in *.
  pose proof (am_q_sent _ _ _ _ _ _ _ _ _ s Hq ltac:(set_solver)) as ([u Hu] & _ & Hf).
  exists u. cbn [app] in Hre. rewrite zsum_cons in Hre.
  unfold e1, am_add_retx_size, add_retx_size. split_and!; [done| | |done].
  - constructor; field_simpl; try done.
    + exists (am_tx_list e), (s :: l). split; [done|by right].
    + by eapply in_flight_numbered.
    + lia.
  - exists u. by split_and!.
Qed.

(** ** Generation of a PDU *)

(** The PDU of the head [s] of a list, the rest [l] of which became [l']: it
    carries [s], or the first part of it, with the number [sn]. *)
Definition am_generated (len : Z) (h : sdu_heap) (s : nr_rlc_sdu_segment_t)
    (l l' wait wait' : list nr_rlc_sdu_segment_t) (sn : nr_rlc_sdu_t -> Z) (size : Z) (pdu : list Z)
    : Prop :=
  exists p u s1, heap_sdus h !! seg_sdu s = Some u /\ seg_sent s s1 l l' /\
    wait' ≡ₚ s1 :: wait /\ 0 < seg_size s1 /\ zlen pdu = am_seg_bytes len s1 /\ zlen pdu <= size /\
    am_carries len p (sn u) s1 u pdu.

(** From the wait list to the PDU. *)
Lemma am_send_correct e lost s d sn buffer size (p : bool) :
  am_config_ok e -> am_tx_inv e lost -> s ∈ am_wait_list e -> seg_sdu_is (heap (am_common e)) s d sn ->
  bytes_ok buffer -> size <= zlen buffer -> am_seg_bytes (am_sn_field_length e) s <= size ->
  exists buffer' e', am_serialize_sdu e s buffer size p = Ok (am_seg_bytes (am_sn_field_length e) s, buffer', e') /\
    am_tx_view e' = am_tx_view e /\ am_rx_view e' = am_rx_view e /\ avg_time_is_on (am_common e') = avg_time_is_on (am_common e) /\
    zlen buffer' = zlen buffer /\
    forall u, sdu_data u = d ->
      am_carries (am_sn_field_length e) p sn s u (take (Z.to_nat (am_seg_bytes (am_sn_field_length e) s)) buffer').
Proof.
  intros Hc Hinv Hs (v & Hv & <- & <-) Hb Hroom Hfit.
  pose proof (q_heap _ _ _ _ _ _ _ _ _ (ti_q _ _ Hinv)) as Hh.
  pose proof (heap_segs _ _ Hh) as Hw. rewrite Forall_forall in Hw.
  destruct (Hw s ltac:(set_solver)) as (_ & w & Hw' & Hrange). simplify_eq.
  destruct (am_serialize_correct e s v buffer size p) as (buffer' & -> & Hl & Hcarry);
    [apply Hc|done|done|apply (heap_sdu _ _ Hh _ _ Hv)|done|done|done|].
  eexists buffer', _. split; [done|]. split_and!; [by destruct p|by destruct p|by destruct p|done|].
  intros u Eu. destruct Hcarry as (hdr & data & H1 & H2 & H3 & H4). exists hdr, data. by rewrite Eu.
Qed.

Lemma am_use_force_poll_view e p :
  exists p' e', am_use_force_poll e p = (p', e') /\ am_tx_view e' = am_tx_view e /\
    am_rx_view e' = am_rx_view e /\ am_common e' = am_common e.
Proof. unfold am_use_force_poll. destruct (am_force_poll e); by eexists _, _. Qed.

Lemma am_view_len e e' : am_rx_view e' = am_rx_view e -> am_sn_field_length e' = am_sn_field_length e.
Proof. unfold am_rx_view. intros E. by simplify_eq. Qed.

Lemma am_tx_view_lists e e' : am_tx_view e' = am_tx_view e ->
  am_tx_list e' = am_tx_list e /\ am_wait_list e' = am_wait_list e /\
  am_retransmit_list e' = am_retransmit_list e /\ heap (am_common e') = heap (am_common e) /\
  txsdu_avg_time_to_tx (am_common e') = txsdu_avg_time_to_tx (am_common e) /\
  am_tx_next e' = am_tx_next e.
Proof. unfold am_tx_view. intros E. by simplify_eq. Qed.

(** A segment on its way out, once cut to the grant. *)
Definition am_ready (e e2 : nr_rlc_entity_am_t) (s1 : nr_rlc_sdu_segment_t)
    (lost : list nr_rlc_sdu_segment_t) (d : list Z) (sn size : Z) : Prop :=
  am_out e2 s1 lost /\ am_rx_view e2 = am_rx_view e /\ seg_sdu_is (heap (am_common e2)) s1 d sn /\
  0 < seg_size s1 /\ am_seg_bytes (am_sn_field_length e) s1 <= size.

(** The end of both generators. *)
Lemma am_ready_send e e2 s1 lost d sn buffer size (poll : nr_rlc_entity_am_t -> bool * nr_rlc_entity_am_t) :
  am_config_ok e -> am_ready e e2 s1 lost d sn size ->
  (forall e, exists p e', poll e = (p, e') /\ am_tx_view e' = am_tx_view e /\
     am_rx_view e' = am_rx_view e /\ am_common e' = am_common e) ->
  bytes_ok buffer -> size <= zlen buffer ->
  exists e3 p e4 buffer' e5,
    am_put_in_wait_list e2 s1 = Ok e3 /\ poll e3 = (p, e4) /\
    am_serialize_sdu e4 s1 buffer size p = Ok (am_seg_bytes (am_sn_field_length e) s1, buffer', e5) /\
    am_tx_inv e5 lost /\ am_rx_view e5 = am_rx_view e /\ zlen buffer' = zlen buffer /\
    is_Some (heap_sdus (heap (am_common e5)) !! seg_sdu s1) /\
    am_tx_list e5 = am_tx_list e2 /\ am_retransmit_list e5 = am_retransmit_list e2 /\
    am_wait_list e5 ≡ₚ s1 :: am_wait_list e2 /\
    forall u, sdu_data u = d -> am_carries (am_sn_field_length e) p sn s1 u
      (take (Z.to_nat (am_seg_bytes (am_sn_field_length e) s1)) buffer').
Proof.
  intros Hc (Hout & Hrx & His & Hpos & Hfit) Hpoll Hb Hroom.
  destruct (am_out_wait e2 s1 lost) as (wait' & end' & Hput & Hinv & Hperm);
    [by eapply am_config_view|done|]. cbv zeta in *.
  set (e3 := e2 <| am_wait_list := wait' |> <| am_wait_end := end' |>) in *.
  assert (H3 : am_rx_view e3 = am_rx_view e2 /\ am_common e3 = am_common e2 /\
    am_tx_list e3 = am_tx_list e2 /\ am_retransmit_list e3 = am_retransmit_list e2 /\ am_wait_list e3 = wait')
    by done.
  clearbody e3. destruct H3 as (Hrx3 & Hc3 & Ht3 & Hr3 & Hw3).
  destruct (Hpoll e3) as (p & e4 & Hp & Htx4 & Hrx4 & Hc4).
  assert (Hrx4' : am_rx_view e4 = am_rx_view e) by congruence.
  pose proof (am_view_len _ _ Hrx4') as Hlen4.
  pose proof (am_tx_view_lists _ _ Htx4) as (El4 & Ew4 & Er4 & _).
  destruct (am_send_correct e4 lost s1 d sn buffer size p) as (buffer' & e5 & Hser & Htx5 & Hrx5 & _ & Hl & Hcarry);
    [by eapply am_config_view|by eapply am_tx_inv_view| | |done|done|by rewrite Hlen4|].
  { rewrite Ew4, Hw3, Hperm. set_solver. }
  { by rewrite Hc4, Hc3. }
  pose proof (am_tx_view_lists _ _ Htx5) as (El5 & Ew5 & Er5 & Eh5 & _).
  rewrite Hlen4 in *. exists e3, p, e4, buffer', e5. split_and!; try done; try congruence.
  - by eapply am_tx_inv_view, am_tx_inv_view.
  - rewrite Eh5, Hc4, Hc3. destruct His as (u & -> & _). eauto.
Qed.

Lemma am_generate_retx_correct e lost s l buffer size :
  am_config_ok e -> am_tx_inv e lost -> am_retransmit_list e = s :: l ->
  bytes_ok buffer -> size <= zlen buffer ->
  exists n buffer' e', am_generate_retx_pdu e buffer size = Ok (n, buffer', e') /\
    am_tx_inv e' lost /\ am_rx_view e' = am_rx_view e /\ zlen buffer' = zlen buffer /\
    am_tx_list e' = am_tx_list e /\
    (n = 0 /\ buffer' = buffer /\ e' = e \/
     0 < n /\ zlen (take (Z.to_nat n) buffer') = n /\
     am_generated (am_sn_field_length e) (heap (am_common e)) s l (am_retransmit_list e') (am_wait_list e)
       (am_wait_list e') sdu_sn size (take (Z.to_nat n) buffer')).
Proof.
  intros Hc Hinv El Hb Hroom. unfold am_generate_retx_pdu. rewrite El.
  destruct (am_pop_retx e lost s l Hinv El) as (u & Hu & Hout & His & Hq). cbv zeta in *.
  change (am_compute_pdu_header_size e s + seg_size s) with (am_seg_bytes (am_sn_field_length e) s).
  change (am_compute_pdu_header_size e s) with (am_pdu_header_size (am_sn_field_length e) (is_first s)).
  destruct (_ + 1 >? size) eqn:Eroom; zify_bool.
  { exists 0, buffer, e. split_and!; try done. by left. }
  set (e1 := am_add_retx_size _ _) in *.
  assert (H1 : am_rx_view e1 = am_rx_view e /\ am_wait_list e1 = am_wait_list e /\
    am_retransmit_list e1 = l /\ am_tx_list e1 = am_tx_list e /\ am_sn_field_length e1 = am_sn_field_length e) by done.
  clearbody e1. destruct H1 as (Hrx1 & Hw1 & Hr1 & Ht1 & Hlen1).
  pose proof (am_header_size_bounds (am_sn_field_length e) (is_first s)) as Hhs.
  assert (Hstep : exists e2 s1,
    (if am_seg_bytes (am_sn_field_length e) s >? size then
       '(e, sdu, next_sdu) ← am_resegment e1 s size;
       let e := e <| am_retransmit_list := next_sdu :: am_retransmit_list e |> in
       let e := am_add_retx_size e (am_compute_pdu_header_size e next_sdu + seg_size next_sdu) in
       Ok (e <| am_common := add_stat (am_common e) txpdu_segmented 1 |>, sdu)
     else Ok (e1, s)) = Ok (e2, s1) /\ am_ready e e2 s1 lost (sdu_data u) (sdu_sn u) size /\
    seg_sent s s1 l (am_retransmit_list e2) /\ am_wait_list e2 = am_wait_list e /\
    am_tx_list e2 = am_tx_list e).
  { assert (Hpos : 0 < seg_size s).
    { eapply seg_size_pos; [apply (q_heap _ _ _ _ _ _ _ _ _ Hq)|apply Hout|set_solver]. }
    unfold am_seg_bytes in *. destruct (_ >? size) eqn:Efit; zify_bool.
    - destruct (am_cut_retx e1 lost s size) as (e2 & Hcut & Hout2 & Hr2 & Hrx2 & Hw2 & Ht2 & Hsdu2);
        [by eapply am_config_view|done|done|rewrite Hlen1; lia|].
      exists e2, (seg_head s (size - am_pdu_header_size (am_sn_field_length e1) (is_first s))).
      rewrite Hr1, Hlen1 in *. split; [done|]. split.
      + split; [done|]. split; [congruence|]. split; [by apply Hsdu2|].
        unfold am_seg_bytes, seg_head. field_simpl. lia.
      + split_and!; [rewrite Hr2; apply seg_sent_head|congruence|congruence].
    - exists e1, s. split; [done|]. split; [|rewrite Hr1; split; [apply seg_sent_whole|done]].
      split; [done|]. split; [done|]. split; [done|]. unfold am_seg_bytes. lia. }
  destruct Hstep as (e2 & s1 & Hcut & Hready & Hsent & Hw2 & Ht2).
  bind_with Hcut.
  pose proof Hready as (_ & _ & _ & Hpos & Hfit).
  destruct (am_ready_send e e2 s1 lost (sdu_data u) (sdu_sn u) buffer size
    (fun e => am_use_force_poll e (am_check_poll_after_pdu_assembly e)))
    as (e3 & p & e4 & buffer' & e5 & Hput & Hpoll & Hser & Hinv5 & Hrx5 & Hl & _ & Ht5 & Hr5 & Hw5 & Hcarry);
    [done|done|intros; apply am_use_force_poll_view|done|done|].
  cbv beta in Hpoll. rewrite Hput. cbn [mbind outcome_bind]. rewrite Hpoll, Hser. cbn [mbind outcome_bind].
  set (n := am_seg_bytes (am_sn_field_length e) s1) in *.
  pose proof (am_header_size_bounds (am_sn_field_length e) (is_first s1)).
  assert (0 < n) by (unfold n, am_seg_bytes; lia).
  assert (Hlen : zlen (take (Z.to_nat n) buffer') = n) by (apply zlen_take; lia).
  eexists n, buffer', _. split; [reflexivity|]. split; [by apply (am_tx_inv_view e5)|].
  split; [done|]. split; [done|]. split; [by field_simpl; congruence|].
  right. split; [done|]. split; [done|]. field_simpl.
  exists p, u, s1. rewrite Hr5, Hw5, Hw2, Hlen. split_and!; try done. by apply Hcarry.
Qed.

Lemma am_poll_new_pdu_view e s :
  exists p' e', am_poll_new_pdu e s = (p', e') /\ am_tx_view e' = am_tx_view e /\
    am_rx_view e' = am_rx_view e /\ am_common e' = am_common e.
Proof.
  unfold am_poll_new_pdu. set (p := _ || _ || _). clearbody p.
  match goal with |- context [am_use_force_poll ?x _] => set (e1 := x) end.
  destruct (am_use_force_poll_view e1 p) as (p' & e' & H & Ht & Hr & Hc). by exists p', e'.
Qed.

Lemma am_tx_inv_common e c lost :
  am_tx_inv e lost -> same_but_stats (am_common e) c -> common_ok c ->
  am_tx_inv (e <| am_common := c |>) lost.
Proof.
  intros [] (Eb & _ & Eh) Hc. constructor; unfold am_queues in *; field_simpl; by rewrite ?Eb, ?Eh.
Qed.

Lemma am_generate_tx_correct e lost buffer size now :
  am_config_ok e -> am_tx_inv e lost -> bytes_ok buffer -> size <= zlen buffer ->
  exists n buffer' e', am_generate_tx_pdu e buffer size now = Ok (n, buffer', e') /\
    am_tx_inv e' lost /\ am_rx_view e' = am_rx_view e /\ zlen buffer' = zlen buffer /\
    (n = 0 /\ buffer' = buffer /\ e' = e \/
     0 < n /\ zlen (take (Z.to_nat n) buffer') = n /\ exists s l, am_tx_list e = s :: l /\
     am_retransmit_list e' = am_retransmit_list e /\
     am_generated (am_sn_field_length e) (heap (am_common e)) s l (am_tx_list e') (am_wait_list e)
       (am_wait_list e') (am_first_sn e) size (take (Z.to_nat n) buffer')).
Proof.
  intros Hc Hinv Hb Hroom. unfold am_generate_tx_pdu.
  destruct (am_is_window_stalling e) eqn:Estall.
  { exists 0, buffer, e. split_and!; try done. by left. }
  pose proof (am_not_stalling e lost Hc (ti_q _ _ Hinv) Estall) as Hk.
  destruct (am_tx_list e) as [|s l] eqn:El.
  { exists 0, buffer, e. split_and!; try done. by left. }
  change (am_compute_pdu_header_size e s + seg_size s) with (am_seg_bytes (am_sn_field_length e) s).
  change (am_compute_pdu_header_size e s) with (am_pdu_header_size (am_sn_field_length e) (is_first s)).
  destruct (_ + 1 >? size) eqn:Eroom; zify_bool.
  { exists 0, buffer, e. split_and!; try done. by left. }
  destruct (am_pop_tx e lost s l Hc Hinv El Hk) as (u & e1 & Hu & Hassign & Hout & Ht1 & Hrx1 & His & Hq & Hr1 & Hw1).
  bind_with Hassign. pose proof (am_view_len _ _ Hrx1) as Hlen1.
  pose proof (am_header_size_bounds (am_sn_field_length e) (is_first s)) as Hhs.
  assert (Hstep : exists e2 s1,
    (if am_seg_bytes (am_sn_field_length e) s >? size then
       '(e, sdu, next_sdu) ← am_resegment e1 s size;
       let e := am_put_back e next_sdu in
       let c := add_stat (am_common e) txpdu_segmented 1 in
       let c := add_tx_size c (am_compute_pdu_header_size e next_sdu + seg_size next_sdu) in
       Ok (e <| am_common := c |>, sdu)
     else Ok (e1, s)) = Ok (e2, s1) /\ am_ready e e2 s1 lost (sdu_data u) (am_first_sn e u) size /\
    seg_sent s s1 l (am_tx_list e2) /\ am_wait_list e2 = am_wait_list e /\
    am_retransmit_list e2 = am_retransmit_list e).
  { assert (Hpos : 0 < seg_size s).
    { eapply seg_size_pos; [apply (q_heap _ _ _ _ _ _ _ _ _ Hq)|apply Hout|set_solver]. }
    unfold am_seg_bytes in *. destruct (_ >? size) eqn:Efit; zify_bool.
    - destruct (am_cut_tx e1 lost s size) as (e2 & Hcut & Hout2 & Hr2 & Hrx2 & Hw2 & Ht2 & Hsdu2);
        [by eapply am_config_view|done|done|rewrite Hlen1; lia|].
      exists e2, (seg_head s (size - am_pdu_header_size (am_sn_field_length e1) (is_first s))).
      rewrite Ht1, Hlen1 in *. split; [done|]. split.
      + split; [done|]. split; [congruence|]. split; [by apply Hsdu2|].
        unfold am_seg_bytes, seg_head. field_simpl. lia.
      + split_and!; [rewrite Hr2; apply seg_sent_head|congruence|congruence].
    - exists e1, s. split; [done|]. split; [|rewrite Ht1; split; [apply seg_sent_whole|done]].
      split; [done|]. split; [done|]. split; [done|]. unfold am_seg_bytes. lia. }
  destruct Hstep as (e2 & s1 & Hcut & Hready & Hsent & Hw2 & Hr2). bind_with Hcut.
  pose proof Hready as (_ & _ & _ & Hpos & Hfit).
  destruct (am_ready_send e e2 s1 lost (sdu_data u) (am_first_sn e u) buffer size
    (fun e => am_poll_new_pdu e s1))
    as (e3 & p & e4 & buffer' & e5 & Hput & Hpoll & Hser & Hinv5 & Hrx5 & Hl & Hu5 & Ht5 & Hr5 & Hw5 & Hcarry);
    [done|done|intros; apply am_poll_new_pdu_view|done|done|].
  cbv beta in Hpoll. rewrite Hput. cbn [mbind outcome_bind]. rewrite Hpoll, Hser. cbn [mbind outcome_bind].
  set (n := am_seg_bytes (am_sn_field_length e) s1) in *.
  pose proof (am_header_size_bounds (am_sn_field_length e) (is_first s1)).
  assert (0 < n) by (unfold n, am_seg_bytes; lia).
  assert (Hlen : zlen (take (Z.to_nat n) buffer') = n) by (apply zlen_take; lia).
  set (c := add_stat _ txpdu_bytes n).
  assert (Hcc : same_but_stats (am_common e5) c /\ common_ok c) by (split; [done|apply Hinv5]).
  clearbody c. destruct Hcc as [(Eb & Ee & Eh) Hokc].
  destruct (account_tx_time_ok c s1 now Hokc) as (c2 & -> & Hc2 & Hb2 & He2 & Hh2); [by rewrite Eh|].
  cbn [mbind outcome_bind].
  eexists n, buffer', _. split; [reflexivity|]. split.
  { apply am_tx_inv_common; [done| |done]. split_and!; congruence. }
  split; [|split; [done|]].
  { unfold am_rx_view in *. field_simpl. rewrite He2, Ee. done. }
  right. split; [done|]. split; [done|]. field_simpl. exists s, l. split; [done|]. split; [congruence|].
  exists p, u, s1. rewrite Ht5, Hw5, Hw2, Hlen. split_and!; try done. by apply Hcarry.
Qed.

(** ** The other operations *)

Definition am_accepts (e : nr_rlc_entity_am_t) (size : Z) : bool :=
  am_tx_size e + size <=? am_tx_maxsize e.

Lemma seg_sn_fmap h h' t :
  sdu_sn <$> heap_sdus h' !! seg_sdu t = sdu_sn <$> heap_sdus h !! seg_sdu t -> seg_sn h' t = seg_sn h t.
Proof.
  unfold seg_sn. intros E.
  destruct (heap_sdus h' !! seg_sdu t), (heap_sdus h !! seg_sdu t); cbn in E; congruence.
Qed.

Lemma am_recv_sdu_correct e lost d sdu_id now :
  am_tx_inv e lost -> 0 < zlen d <= NR_SDU_MAX ->
  exists e', nr_rlc_entity_am_recv_sdu e d (zlen d) sdu_id now = Ok e' /\ am_tx_inv e' lost /\
    am_rx_view e' = am_rx_view e /\ am_wait_list e' = am_wait_list e /\
    am_retransmit_list e' = am_retransmit_list e /\
    if am_accepts e (zlen d) then
      am_tx_size e' = am_tx_size e + zlen d /\
      exists s u, am_tx_list e' = am_tx_list e ++ [s] /\ heap_sdus (heap (am_common e')) !! seg_sdu s = Some u /\
        sdu_data u = d /\ sdu_sn u = -1 /\ seg_so s = 0 /\ seg_size s = zlen d /\
        is_first s = true /\ is_last s = true
    else am_tx_view e' = am_tx_view e.
Proof.
  intros Hinv Hd. pose proof Hinv as [Hq Hsz Hte Hwe Hb Htx Hre Hco].
  unfold nr_rlc_entity_am_recv_sdu, am_accepts. cbv zeta.
  set (e1 := if _ && _ then _ else _).
  assert (He1 : am_tx_view e1 = am_tx_view e /\ am_rx_view e1 = am_rx_view e /\ am_tx_maxsize e1 = am_tx_maxsize e)
    by by unfold e1; destruct (_ && _).
  clearbody e1. destruct He1 as (Hv & Hrx & Emax).
  pose proof (am_tx_inv_view _ _ _ Hv Hinv) as Hinv1. pose proof (am_tx_view_lists _ _ Hv) as (Elt & Elw & Elr & Eh & _).
  assert (Esz : am_tx_size e1 = am_tx_size e) by (unfold am_tx_view in Hv; by simplify_eq). rewrite Esz, Emax.
  destruct (_ >? am_tx_maxsize e) eqn:Efull; zify_bool;
    (destruct (_ <=? am_tx_maxsize e) eqn:Efull'; zify_bool; try lia).
  { eexists. split; [done|]. split_and!; try done. by apply (am_tx_inv_view e). }
  clear Hinv Hq Hsz Hte Hwe Hb Htx Hre Hco.
  destruct Hinv1 as [Hq Hsz Hte Hwe Hb Htx Hre Hco]. field_simpl.
  pose proof (q_heap _ _ _ _ _ _ _ _ _ Hq) as Hh.
  destruct (new_sdu_correct _ _ d (zlen d) sdu_id Hh eq_refl)
    as (h & s & u & Hnew & Hh1 & Hsame & Hu & Hun & Hdata & Hdsz & _ & Hso & Hssz & Hf & Hl & Hfr & Hhb).
  unfold add_stat64. field_simpl. rewrite Hnew. cbn [mbind outcome_bind].
  rewrite append_correct.
  2: done.
  2: { pose proof (heap_nodup _ _ Hh) as Hn. rewrite fmap_app in Hn. by apply NoDup_app in Hn as (? & _). }
  cbn [mbind outcome_bind].
  assert (Hsn : seg_sn h s = -1) by (unfold seg_sn; by rewrite Hu).
  pose proof (am_q_new _ _ _ _ _ _ _ _ _ _ _ Hq Hh1 Hsame Hsn) as Hq'.
  assert (Hall : sdu_sizes_ok h).
  { unfold nr_rlc_new_sdu in Hnew. bind_inv. simplify_eq. cbn [heap_sdus seg_sdu] in *.
    unfold sdu_sizes_ok. cbn [heap_sdus]. apply map_Forall_insert_2; [|done].
    rewrite lookup_insert_eq in Hu. by simplify_eq. }
  set (c2 := add_tx_size _ _).
  assert (Hc2 : heap c2 = h /\ events c2 = events (am_common e1) /\ common_ok c2 /\
    bs_retx_size (bstatus c2) = bs_retx_size (bstatus (am_common e1)) /\
    bs_tx_size (bstatus c2) = bs_tx_size (bstatus (am_common e1)) + am_seg_bytes (am_sn_field_length e1) s) by done.
  clearbody c2. destruct Hc2 as (E2h & E2e & H2 & E2r & E2t).
  destruct (stamp_arrival_ok c2 (s :: am_tx_list e1 ++ am_wait_list e1 ++ am_retransmit_list e1 ++ lost) s now) as
    (c3 & Hstamp & Hok3 & Hh3 & Hsame3 & Hb3 & Hdata3 & Hsn3 & Hbs3 & Hev3); [done|by rewrite E2h|rewrite E2h, Hu; eauto|].
  rewrite Hstamp. cbn [mbind outcome_bind]. eexists. split; [reflexivity|].
  assert (Esn3 : forall t, seg_sn (heap c3) t = seg_sn h t).
  { intros t. apply seg_sn_fmap. by rewrite Hsn3, E2h. }
  assert (Hperm : (am_tx_list e1 ++ [s]) ++ am_wait_list e1 ++ am_retransmit_list e1 ++ lost
    ≡ₚ s :: am_tx_list e1 ++ am_wait_list e1 ++ am_retransmit_list e1 ++ lost) by solve_Permutation.
  split; [|split; [|split; [|split; [|split]]]]; field_simpl; try done.
  - constructor; unfold am_queues; field_simpl; try done.
    + eapply am_q_sub; [exact Hq'| | | | |].
      * by rewrite Hperm.
      * intros t Ht. exists t. by rewrite Esn3.
      * intros t Ht. rewrite Esn3. by eapply in_flight_numbered, am_q_sent.
      * eapply seg_before_ext; [|apply Hq']. done.
      * eapply seg_before_ext; [|apply Hq']. done.
    + unfold sdu_sizes_ok. eapply stamp_arrival_Forall; [exact Hstamp|done|]. by rewrite E2h.
    + apply end_ok_snoc.
    + rewrite Hb3, E2h, Hhb. lia.
    + rewrite Hbs3, E2t, zsum_app, zsum_cons, zsum_nil. lia.
    + rewrite Hbs3. congruence.
  - unfold am_rx_view in *. field_simpl. rewrite Hev3, E2e. done.
  - specialize (Hdata3 (seg_sdu s)). rewrite E2h, Hu in Hdata3.
    apply fmap_Some in Hdata3 as (w & Hw & Ew).
    exists s, w. rewrite Elt. split_and!; try done; [congruence|].
    specialize (Esn3 s). unfold seg_sn in Esn3. rewrite Hw, Hu in Esn3. congruence.
Qed.

Lemma am_discard_correct e lost sdu_id :
  am_tx_inv e lost ->
  exists e', nr_rlc_entity_am_discard_sdu e sdu_id = Ok e' /\ am_tx_inv e' lost /\
    am_rx_view e' = am_rx_view e /\ am_wait_list e' = am_wait_list e /\
    am_retransmit_list e' = am_retransmit_list e /\
    (e' = e \/ exists before s next, am_tx_list e = before ++ s :: next /\
      is_first s = true /\ is_last s = true /\ am_tx_list e' = before ++ next /\
      upper_layer_id <$> heap_sdus (heap (am_common e)) !! seg_sdu s = Some sdu_id).
Proof.
  intros Hinv. pose proof Hinv as [Hq Hsz Hte Hwe Hb Htx Hre Hco].
  pose proof (q_heap _ _ _ _ _ _ _ _ _ Hq) as Hh.
  unfold nr_rlc_entity_am_discard_sdu.
  assert (Hlive : Forall (fun s => is_Some (heap_sdus (heap (am_common e)) !! seg_sdu s)) (am_tx_list e)).
  { rewrite Forall_forall. intros s Hs. eapply heap_inv_live; [exact Hh|set_solver]. }
  destruct (find_upper_layer_id_correct _ sdu_id [] (am_tx_list e) None Hlive) as (o & Hfind & _).
  destruct (find_upper_layer_id_correct _ sdu_id [] (am_tx_list e) o Hlive) as (o' & Hfind' & Ho).
  rewrite Hfind in *. injection Hfind' as <-. specialize (Ho eq_refl). cbn [mbind outcome_bind].
  destruct o as [[[before s] next]|].
  2: { exists e. split_and!; try done. by left. }
  destruct Ho as [El Hid]. cbn [app] in El. unfold am_queues in Hq. rewrite <- El in *.
  destruct (negb _ || negb _) eqn:Epart.
  { exists e. split_and!; try done. by left. }
  zify_bool.
  set (e1 := if decide _ then _ else _).
  assert (He1 : exists te, e1 = e <| am_tx_list := before ++ next |> <| am_tx_end := te |> /\
    end_ok (before ++ next) te).
  { assert (Hnd : NoDup (seg_addr <$> before ++ s :: next)).
    { pose proof (heap_nodup _ _ Hh) as Hn. rewrite fmap_app in Hn. by apply NoDup_app in Hn as (? & _). }
    pose proof (end_ok_remove _ _ _ _ Hnd Hte) as Hend'. eexists. split; [|exact Hend'].
    unfold e1. field_simpl. destruct (decide _); [done|]. by destruct e. }
  destruct He1 as (te & -> & Hend).
  unfold add_tx_size. field_simpl.
  assert (Hperm : (before ++ s :: next) ++ am_wait_list e ++ am_retransmit_list e ++ lost
    ≡ₚ s :: (before ++ next) ++ am_wait_list e ++ am_retransmit_list e ++ lost) by solve_Permutation.
  pose proof Hh as Hh'. rewrite Hperm in Hh'.
  destruct (heap_inv_deref _ _ _ Hh') as (u & Hd & Hu & Hrange & _). rewrite Hd. cbn [mbind outcome_bind].
  destruct (free_correct _ _ _ Hh') as (h' & r & v & Hfree & Hv & Hh2 & Hsame & Hbytes & Hr).
  simplify_eq. rewrite Hfree. cbn [mbind outcome_bind]. field_simpl.
  (* the segment is the whole SDU: the SDU is freed *)
  assert (Hrt : r = true).
  { apply Hr. intros t Ht Et.
    destruct (heap_disjoint _ _ Hh' s t) as [Hd1|Hd1]; [set_solver|set_solver| |done| |].
    - eapply NoDup_seg_addr_head; [apply Hh'|done].
    - pose proof (heap_segs _ _ Hh') as Hw. rewrite Forall_forall in Hw.
      destruct (Hw t ltac:(set_solver)) as (_ & w & Hw' & Htr). rewrite Et in Hw'. simplify_eq.
      pose proof (seg_size_pos _ _ t Hh' Hsz ltac:(set_solver)).
      destruct Hrange as (_ & _ & _ & _ & Hl & _), Htr as (_ & _ & ? & _). apply Hl in H0. unfold seg_end in *. lia.
    - pose proof (heap_segs _ _ Hh') as Hw. rewrite Forall_forall in Hw.
      destruct (Hw t ltac:(set_solver)) as (_ & w & Hw' & Htr). rewrite Et in Hw'. simplify_eq.
      pose proof (seg_size_pos _ _ t Hh' Hsz ltac:(set_solver)).
      destruct Hrange as (_ & _ & _ & Hf & _), Htr as (? & _). apply Hf in H. unfold seg_end in *. lia. }
  subst r. rewrite <- Permutation_middle, zsum_cons in Htx.
  eexists. split; [done|]. field_simpl. split_and!; try done.
  - constructor; unfold am_queues; field_simpl; try done.
    + eapply am_q_shrink; [exact Hq|done|done|set_solver|done|done|apply Hq|apply Hq].
    + eapply (free_map_Forall (fun _ u => 0 < sdu_size u <= NR_SDU_MAX)); [exact Hfree|done|done].
    + rewrite Hbytes. lia.
    + unfold am_seg_bytes at 1 in Htx. unfold am_compute_pdu_header_size. field_simpl. lia.
  - right. exists before, s, next. done.
Qed.

Lemma am_clear_correct e lost :
  am_config_ok e -> am_tx_inv e lost ->
  exists e', nr_rlc_entity_am_reestablishment e = Ok e' /\ am_config_ok e' /\
    am_tx_list e' = [] /\ am_wait_list e' = [] /\ am_retransmit_list e' = [] /\ am_rx_list e' = [] /\
    am_tx_size e' = 0 /\ am_rx_size e' = 0 /\ am_rx_next e' = 0 /\ am_rx_highest_status e' = 0 /\
    am_rx_next_highest e' = 0 /\ am_rx_next_status_trigger e' = 0 /\ am_t_reassembly_start e' = 0 /\
    events (am_common e') = events (am_common e) /\
    (lost = [] -> heap_sdus (heap (am_common e')) = ∅ /\ am_tx_inv e' []).
Proof.
  intros Hc [Hq Hsz Hte Hwe Hb Htx Hre Hco].
  pose proof (q_heap _ _ _ _ _ _ _ _ _ Hq) as Hh.
  unfold nr_rlc_entity_am_reestablishment, am_clear_entity. field_simpl.
  destruct (free_list_correct _ _ _ Hh) as (h1 & -> & Hh1 & _). cbn [mbind outcome_bind].
  destruct (free_list_correct _ _ _ Hh1) as (h2 & -> & Hh2 & _). cbn [mbind outcome_bind].
  destruct (free_list_correct _ _ _ Hh2) as (h3 & -> & Hh3 & _). cbn [mbind outcome_bind].
  eexists. split; [done|]. field_simpl. split; [by destruct Hc; constructor|]. split_and!; try done.
  intros ->. pose proof (heap_inv_nil_empty _ Hh3) as Hempty. split; [done|].
  destruct (am_config_pos e Hc) as [HW HM].
  constructor; unfold am_queues; field_simpl; try done.
  - assert (sn_range (am_sn_modulus e) 0) by (split; lia).
    constructor; try done; try (by constructor).
    + unfold am_key. rewrite Z.mod_0_l; lia.
    + intros s t Hs. by apply not_elem_of_nil in Hs.
  - unfold sdu_sizes_ok. by rewrite Hempty.
  - unfold heap_bytes. by rewrite Hempty, map_fold_empty.
Qed.

(** ** Retransmission on t_poll_retransmit *)

Definition am_with_events (e : nr_rlc_entity_am_t) (ev : list rlc_event) : nr_rlc_entity_am_t :=
  e <| am_common := (am_common e) <| events := events (am_common e) ++ ev |> |>.

Lemma end_ok_tail s l e :
  end_ok (s :: l) e -> end_ok l (match l with [] => None | _ => e end).
Proof. unfold end_ok. intros H. destruct l; [done|]. by rewrite last_cons_cons in H. Qed.

(** One segment from the head of the wait list to the retransmit list. *)
Lemma am_retransmit_one e lost s l :
  am_config_ok e -> am_tx_inv e lost -> am_wait_list e = s :: l ->
  let e0 := e <| am_wait_list := l |> in
  let e1 := am_add_retx_size (match l with [] => e0 <| am_wait_end := None |> | _ => e0 end)
              (am_compute_pdu_header_size e0 s + seg_size s) in
  exists retx', nr_rlc_tx_sdu_segment_list_add e1 (am_retransmit_list e1) s = Ok retx' /\
    retx' ≡ₚ s :: am_retransmit_list e /\ am_tx_inv (e1 <| am_retransmit_list := retx' |>) lost /\
    am_rx_view (e1 <| am_retransmit_list := retx' |>) = am_rx_view e /\ am_tx_list e1 = am_tx_list e /\
    heap (am_common e1) = heap (am_common e).
Proof.
  intros Hc Hinv El e0 e1. pose proof Hinv as [Hq Hsz Hte Hwe Hb Htx Hre Hco].
  unfold am_queues in Hq. rewrite El in *.
  assert (H1 : heap (am_common e1) = heap (am_common e) /\ am_sn_modulus e1 = am_sn_modulus e /\
    am_tx_next_ack e1 = am_tx_next_ack e /\ am_retransmit_list e1 = am_retransmit_list e /\
    am_tx_list e1 = am_tx_list e /\ am_wait_list e1 = l /\ end_ok l (am_wait_end e1) /\
    am_rx_view e1 = am_rx_view e /\ am_window_size e1 = am_window_size e /\ am_tx_next e1 = am_tx_next e /\
    am_tx_size e1 = am_tx_size e /\ am_tx_end e1 = am_tx_end e /\ am_sn_field_length e1 = am_sn_field_length e /\
    bs_tx_size (bstatus (am_common e1)) = bs_tx_size (bstatus (am_common e)) /\
    bs_retx_size (bstatus (am_common e1)) = bs_retx_size (bstatus (am_common e)) + am_seg_bytes (am_sn_field_length e) s /\
    txsdu_avg_time_to_tx (am_common e1) = txsdu_avg_time_to_tx (am_common e)).
  { unfold e1, e0, am_add_retx_size, add_retx_size. pose proof (end_ok_tail s l _ Hwe).
    destruct l; split_and!; done. }
  clearbody e1. clear e0.
  destruct H1 as (Eh & EM & Ea & Er & Et & Ew & Hend & Hrx & EW & En & Es & Ee & Elen & Eb1 & Eb2 & Eavg).
  assert (Hsent : forall t, t ∈ s :: am_retransmit_list e ->
    seg_live (heap (am_common e)) t /\ sn_range (am_sn_modulus e) (seg_sn (heap (am_common e)) t)).
  { intros t Ht. destruct (am_q_sent _ _ _ _ _ _ _ _ _ t Hq) as (? & ? & _); [|done].
    set_solver. }
  destruct (list_add_correct (am_sn_modulus e) e1 (am_retransmit_list e1) s EM) as (l1 & l2 & Ell & Hadd & H1 & H2).
  { rewrite Ea. apply Hq. }
  { rewrite Forall_forall, Eh, Er. exact Hsent. }
  rewrite Er in Ell. rewrite Eh, Ea in *.
  destruct (insert_sorted (am_sn_modulus e) (heap (am_common e)) (am_tx_next_ack e) s l1 l2) as [Hp Hs' _];
    rewrite <- ?Ell; try done.
  { rewrite Forall_forall. intros t Ht. by apply Hsent. }
  { apply Hq. }
  rewrite <- Ell in Hp.
  exists (l1 ++ s :: l2). split; [done|]. split; [done|]. split; [|split; [exact Hrx|done]].
  constructor; unfold am_queues; field_simpl; rewrite ?Eh, ?EM, ?EW, ?En, ?Ea, ?Ew, ?Et, ?Es, ?Ee, ?Elen, ?Eb1, ?Eb2; try done.
  - eapply am_q_sub; [exact Hq| | | | |].
    + eapply heap_inv_perm; [|exact (q_heap _ _ _ _ _ _ _ _ _ Hq)]. rewrite Hp. solve_Permutation.
    + intros t Ht. exists t. split; [|done]. rewrite Hp in Ht. set_solver.
    + intros t Ht. eapply in_flight_numbered, am_q_sent; [exact Hq|]. rewrite Hp in Ht. set_solver.
    + pose proof (q_wait _ _ _ _ _ _ _ _ _ Hq) as Hs. by apply StronglySorted_inv in Hs as [? _].
    + done.
  - rewrite Hre, Hp. cbn [app]. rewrite zsum_cons. lia.
  - unfold common_ok. by rewrite Eavg.
Qed.

Lemma am_retransmit_head_correct sn next : forall e lost cur,
  am_config_ok e -> am_tx_inv e lost -> am_wait_list e = cur :: next ->
  exists e' moved, am_retransmit_head e sn cur next = Ok e' /\ am_tx_inv e' lost /\
    am_rx_view e' = am_rx_view e /\ am_tx_list e' = am_tx_list e /\
    heap (am_common e') = heap (am_common e) /\
    cur :: next = (cur :: moved) ++ am_wait_list e' /\
    am_retransmit_list e' ≡ₚ (cur :: moved) ++ am_retransmit_list e /\
    Forall (fun s => seg_sn (heap (am_common e)) s = sn) moved /\
    match am_wait_list e' with s :: _ => seg_sn (heap (am_common e)) s <> sn | [] => True end.
Proof.
  induction next as [|nxt next IH]; intros e lost cur Hc Hinv El;
    destruct (am_retransmit_one e lost cur _ Hc Hinv El) as (retx' & Hadd & Hp & Hinv1 & Hrx1 & Ht1 & Hh1);
    cbv zeta in *; cbn [am_retransmit_head]; bind_with Hadd.
  - eexists _, []. split; [done|]. split_and!; try done.
  - set (e1 := _ <| am_retransmit_list := retx' |>) in *.
    assert (H1 : am_wait_list e1 = nxt :: next /\ am_tx_list e1 = am_tx_list e /\
      am_retransmit_list e1 = retx' /\ heap (am_common e1) = heap (am_common e)) by done.
    clearbody e1. destruct H1 as (Ew1 & Et1 & Er1 & Eh1).
    rewrite am_seg_sn_ok.
    2: { eapply heap_inv_live; [apply (q_heap _ _ _ _ _ _ _ _ _ (ti_q _ _ Hinv1))|]. rewrite Ew1. set_solver. }
    cbn [mbind outcome_bind]. rewrite Eh1. destruct (_ =? sn) eqn:E; zify_bool.
    + destruct (IH e1 lost nxt) as (e' & moved & -> & Hinv' & Hrx & Ht & Hh & Hl & Hr & Hall & Hstop);
        [by eapply am_config_view|done|done|].
      exists e', (nxt :: moved). split; [done|]. rewrite Eh1 in *. split_and!; try done; try congruence.
      * cbn [app] in *. by rewrite Hl at 1.
      * rewrite Hr, Er1, Hp. cbn [app]. solve_Permutation.
      * by constructor.
    + exists e1, []. split; [done|]. rewrite Ew1, Er1. split_and!; try done.
Qed.

(** The wait list is not empty when t_poll_retransmit expires with nothing
    else to send. *)
Definition am_poll_ok (e : nr_rlc_entity_am_t) : Prop :=
  am_t_poll_retransmit_start e <> 0 -> am_check_poll_after_pdu_assembly e = true -> am_wait_list e <> [].

Lemma am_poll_timer_correct e lost :
  am_config_ok e -> am_tx_inv e lost -> am_poll_ok e ->
  exists e' ev moved, am_check_t_poll_retransmit e = Ok e' /\ am_tx_inv e' lost /\
    am_rx_view e' = am_rx_view (am_with_events e ev) /\ (ev = [] \/ ev = [MaxRetxReached]) /\
    am_tx_list e' = am_tx_list e /\ am_wait_list e = moved ++ am_wait_list e' /\
    am_retransmit_list e' ≡ₚ moved ++ am_retransmit_list e.
Proof.
  intros Hc Hinv Hpoll. unfold am_check_t_poll_retransmit.
  assert (Hview : am_rx_view (am_with_events e []) = am_rx_view e).
  { unfold am_with_events, am_rx_view. field_simpl. by rewrite app_nil_r. }
  destruct (_ || _) eqn:Et.
  { exists e, [], []. rewrite Hview. split_and!; try done. by left. }
  zify_bool. set (e1 := _ <| am_force_poll := true |>).
  assert (H1 : am_tx_view e1 = am_tx_view e /\ am_rx_view e1 = am_rx_view e /\ am_wait_list e1 = am_wait_list e /\
    am_check_poll_after_pdu_assembly e1 = am_check_poll_after_pdu_assembly e /\ am_common e1 = am_common e) by done.
  clearbody e1. destruct H1 as (Hv1 & Hrx1 & Hw1 & Hp1 & Hc1).
  pose proof (am_tx_inv_view _ _ _ Hv1 Hinv) as Hinv1.
  pose proof (am_tx_view_lists _ _ Hv1) as (Et1 & _ & Er1 & _).
  rewrite Hp1, Hw1. destruct (am_check_poll_after_pdu_assembly e) eqn:Ep; cbn [negb].
  2: { exists e1, [], []. rewrite Hview. split_and!; try done; try (by left); by rewrite ?Hw1, ?Er1. }
  destruct (am_wait_list e) as [|cur next] eqn:El; [by destruct (Hpoll ltac:(done) Ep)|].
  pose proof (q_heap _ _ _ _ _ _ _ _ _ (ti_q _ _ Hinv)) as Hh.
  destruct (heap_inv_live _ _ cur Hh) as [u Hu]; [rewrite El; set_solver|].
  unfold deref_sdu. rewrite Hc1, Hu. cbn [of_option mbind outcome_bind]. field_simpl.
  set (h' := set_sdu _ _ _). set (e2 := e1 <| am_common := _ |>).
  assert (Hinv2 : am_tx_inv e2 lost).
  { pose proof Hinv1 as [Hq Hsz Hte Hwe Hb Htx Hre Hco]. rewrite Hc1 in *.
    assert (E : forall t, seg_sn h' t = seg_sn (heap (am_common e)) t) by (intros; by apply (seg_sn_set _ _ u)).
    unfold e2. constructor; unfold am_queues in *; field_simpl; try done.
    - rewrite Hc1 in Hq. eapply am_q_sub; [exact Hq| | | | |].
      + eapply heap_inv_set; [apply Hq|done..].
      + intros t Ht. exists t. by rewrite E.
      + intros t Ht. rewrite E. by eapply in_flight_numbered, am_q_sent.
      + eapply seg_before_ext; [|apply Hq]. done.
      + eapply seg_before_ext; [|apply Hq]. done.
    - unfold sdu_sizes_ok, h', set_sdu. field_simpl. apply map_Forall_insert_2; [|done]. exact (Hsz _ _ Hu).
    - unfold h'. by rewrite (heap_bytes_set _ _ u). }
  assert (H2 : am_wait_list e2 = cur :: next /\ am_rx_view e2 = am_rx_view e /\ am_tx_list e2 = am_tx_list e /\
    am_retransmit_list e2 = am_retransmit_list e).
  { unfold e2, am_rx_view in *. field_simpl. rewrite Hc1 in Hrx1. by split_and!; congruence. }
  clearbody e2. destruct H2 as (Ew2 & Hrx2 & Et2 & Er2).
  destruct (am_retransmit_head_correct (sdu_sn u) next e2 lost cur) as
    (e3 & moved & Hm & Hinv3 & Hrx3 & Et3 & _ & Hl3 & Hr3 & _);
    [eapply am_config_view; [exact Hrx2|done]|done|done|].
  rewrite Hm. cbn [mbind outcome_bind].
  destruct (_ >=? _).
  - exists (e3 <| am_common := emit (am_common e3) MaxRetxReached |>), [MaxRetxReached], (cur :: moved).
    split; [done|]. split; [by apply (am_tx_inv_view e3)|]. split.
    { rewrite Hrx2 in Hrx3. unfold am_rx_view, am_with_events, emit in *. field_simpl. by simplify_eq; congruence. }
    split_and!; [by right|field_simpl; congruence|done|]. field_simpl. by rewrite Hr3, Er2.
  - exists e3, [], (cur :: moved). rewrite Hview. split_and!; [done|done|congruence|by left|congruence|done|].
    by rewrite Hr3, Er2.
Qed.
