(* ===== verification/RlcAmWalk.v ===== *)
(** * What a status report does to the wait and retransmit lists

    The walk of RlcAmCtrl.v through the two lists, without the entity around
    it: segments are moved between lists according to their key (the distance
    of their sequence number to the start of the window).  For a report whose
    NACKs are in order and below ACK_SN, the result is a function of the lists
    and the set of NACKs: [walk_correct]. *)

From S2P Require Import Prelude RlcSdu RlcAm RlcAmCtrl RlcAmQueue.

(** ** The walk *)

Record walk := mk_walk {
  w_before : list nr_rlc_sdu_segment_t;
  w_rest : list nr_rlc_sdu_segment_t;
  w_over : bool;
  w_cur : list nr_rlc_sdu_segment_t;
  w_new : list nr_rlc_sdu_segment_t;
  w_after : list nr_rlc_sdu_segment_t;
  w_freed : list nr_rlc_sdu_segment_t;
}.
#[export] Instance eta_walk : RecordEta walk :=
  fld (fld (fld (fld (fld (fld (fld (fun _ => mk_walk) w_before) w_rest) w_over) w_cur) w_new)
    w_after) w_freed.

Definition w_wait (w : walk) : option nr_rlc_sdu_segment_t :=
  if w_over w then None else head (w_rest w).

Section walk.
Context (k : nr_rlc_sdu_segment_t -> Z) (ka : Z).

(** A NACK: key, first and last byte. *)
Definition overlap (n : Z * Z * Z) (s : nr_rlc_sdu_segment_t) : bool :=
  let '(kn, so_start, so_end) := n in
  (k s =? kn) && so_overlap so_start so_end (seg_so s) (seg_so s + seg_size s - 1).

Definition beyond (n : Z * Z * Z) (s : nr_rlc_sdu_segment_t) : bool :=
  let '(kn, so_start, _) := n in (k s >? kn) || ((k s =? kn) && (seg_so s >? so_start)).

Definition walk_wait (n : Z * Z * Z) (w : walk) (s : nr_rlc_sdu_segment_t) : walk * ctl_jump :=
  if overlap n s then
    (w <| w_rest := tail (w_rest w) |> <| w_new := w_new w ++ [s] |> <| w_after := [] |>, NextPdu)
  else if beyond n s then (w, DoneNack)
  else if k s <? ka then
    (w <| w_rest := tail (w_rest w) |> <| w_freed := w_freed w ++ [s] |>, NextPdu)
  else if k s >? ka then (w <| w_over := true |>, NextPdu)
  else (w <| w_before := w_before w ++ [s] |> <| w_rest := tail (w_rest w) |>, NextPdu).

Definition walk_retx (n : Z * Z * Z) (w : walk) (s : nr_rlc_sdu_segment_t) : walk * ctl_jump :=
  let keep := w <| w_cur := tail (w_cur w) |> <| w_new := w_new w ++ [s] |> <| w_after := [] |> in
  if overlap n s then (keep, NextPdu)
  else if beyond n s then (w, DoneNack)
  else if k s <? ka then
    (w <| w_cur := tail (w_cur w) |> <| w_freed := w_freed w ++ [s] |>, NextPdu)
  else match w_wait w with
  | None => (w <| w_after := w_cur w |> <| w_cur := [] |>, ListsOver)
  | Some _ => (keep, NextPdu)
  end.

Definition walk_step (n : Z * Z * Z) (w : walk) : walk * ctl_jump :=
  match w_wait w, head (w_cur w) with
  | None, None => (w, ListsOver)
  | None, Some r => walk_retx n w r
  | Some s, None => walk_wait n w s
  | Some s, Some r =>
      if (k s <? k r) || ((k s =? k r) && (seg_so s <? seg_so r)) then walk_wait n w s
      else walk_retx n w r
  end.

Fixpoint walk_next (fuel : nat) (n : Z * Z * Z) (w : walk) : outcome (walk * ctl_jump) :=
  match fuel with
  | O => Fault Diverge
  | S fuel =>
      match walk_step n w with
      | (w, NextPdu) => walk_next fuel n w
      | step => Ok step
      end
  end.

Definition walk_fuel (w : walk) : nat := 3 + length (w_rest w) + length (w_cur w).

Fixpoint walk_range (w : walk) (ns : list (Z * Z * Z)) : outcome walk :=
  match ns with
  | [] => Ok w
  | n :: ns =>
      '(w, jump) ← walk_next (walk_fuel w) n w;
      match jump with
      | ListsOver => Ok w
      | _ => walk_range w ns
      end
  end.

Fixpoint walk_blocks (w : walk) (blocks : list (list (Z * Z * Z))) : outcome walk :=
  match blocks with
  | [] => Ok w
  | ns :: blocks => w ← walk_range w ns; walk_blocks w blocks
  end.

Fixpoint walk_ack_wait (fuel : nat) (w : walk) : outcome walk :=
  match fuel with
  | O => Fault Diverge
  | S fuel =>
      match w_wait w with
      | None => Ok w
      | Some s =>
          if k s <? ka
          then walk_ack_wait fuel (w <| w_rest := tail (w_rest w) |> <| w_freed := w_freed w ++ [s] |>)
          else Ok w
      end
  end.

Fixpoint walk_ack_retx (w : walk) (cur : list nr_rlc_sdu_segment_t) : walk :=
  match cur with
  | [] => w <| w_cur := [] |>
  | s :: next =>
      if k s <? ka then walk_ack_retx (w <| w_freed := w_freed w ++ [s] |>) next
      else w <| w_cur := cur |>
  end.

Definition walk_all (w : walk) (blocks : list (list (Z * Z * Z))) : outcome walk :=
  w ← walk_blocks w blocks;
  w ← walk_ack_wait (S (length (w_rest w))) w;
  Ok (walk_ack_retx w (w_cur w)).

(** ** Termination *)

Definition walk_measure (w : walk) : nat :=
  (if w_over w then 0 else S (length (w_rest w))) + length (w_cur w).

Lemma walk_wait_measure n w s w' :
  w_wait w = Some s -> walk_wait n w s = (w', NextPdu) -> (walk_measure w' < walk_measure w)%nat.
Proof.
  unfold w_wait, walk_wait. destruct (w_over w) eqn:Eo; [done|].
  destruct (w_rest w) as [|t l] eqn:Er; [done|]. intros [= ->] H.
  repeat case_if; simplify_eq; unfold walk_measure; field_simpl; rewrite ?Eo, ?Er; cbn [tail length]; lia.
Qed.

Lemma walk_retx_measure n w s w' :
  head (w_cur w) = Some s -> walk_retx n w s = (w', NextPdu) -> (walk_measure w' < walk_measure w)%nat.
Proof.
  unfold walk_retx. destruct (w_cur w) as [|t l] eqn:Er; [done|]. intros [= ->] H.
  repeat case_if; try destruct (w_wait w); simplify_eq; unfold walk_measure; field_simpl; rewrite ?Er;
    destruct (w_over w); cbn [tail length]; lia.
Qed.

Lemma walk_step_measure n w w' :
  walk_step n w = (w', NextPdu) -> (walk_measure w' < walk_measure w)%nat.
Proof.
  unfold walk_step. destruct (w_wait w) as [s|] eqn:Ew, (head (w_cur w)) as [r|] eqn:Ec; [case_if| | |done];
    eauto using walk_wait_measure, walk_retx_measure.
Qed.

Lemma walk_next_total fuel n w :
  (walk_measure w < fuel)%nat -> exists w' j, walk_next fuel n w = Ok (w', j) /\ j <> NextPdu.
Proof.
  revert w. induction fuel as [|fuel IH]; intros w Hf; [lia|]. cbn [walk_next].
  destruct (walk_step n w) as [w' j] eqn:E. destruct j.
  - apply IH. apply walk_step_measure in E. lia.
  - by exists w', DoneNack.
  - by exists w', ListsOver.
Qed.

Lemma walk_fuel_enough w : (walk_measure w < walk_fuel w)%nat.
Proof. unfold walk_measure, walk_fuel. destruct (w_over w); lia. Qed.

(** ** Correctness *)

Definition key_le (s t : nr_rlc_sdu_segment_t) : Prop :=
  k s < k t \/ k s = k t /\ seg_so s <= seg_so t.

Definition nack_le (n n' : Z * Z * Z) : Prop :=
  n.1.1 < n'.1.1 \/ n.1.1 = n'.1.1 /\ n.1.2 <= n'.1.2.

Definition nacked (ns : list (Z * Z * Z)) (s : nr_rlc_sdu_segment_t) : bool :=
  existsb (fun n => overlap n s) ns.

Definition late (s : nr_rlc_sdu_segment_t) : bool := ka <=? k s.
Definition kept (ns : list (Z * Z * Z)) (s : nr_rlc_sdu_segment_t) : bool := nacked ns s || late s.
Definition gone (ns : list (Z * Z * Z)) (s : nr_rlc_sdu_segment_t) : bool :=
  negb (late s) && negb (nacked ns s).

Lemma beyond_no_overlap n s t :
  beyond n s = true -> overlap n s = false -> key_le s t -> overlap n t = false.
Proof.
  destruct n as [[kn a] b]. unfold beyond, overlap, key_le, so_overlap. intros Hb Ho Hle.
  destruct (k t =? kn) eqn:Et; [|done]. zify_bool. cbn [andb].
  apply orb_true_iff in Hb as [Hb|Hb]; zify_bool; [lia|]. subst kn.
  assert (Es : k s = k t) by lia. rewrite Es, Z.eqb_refl in Ho. cbn [andb] in Ho.
  destruct (a <? seg_so s) eqn:E1; zify_bool; [|lia]. destruct (a <? seg_so t) eqn:E2; zify_bool; [|lia].
  apply orb_false_iff. rewrite Z.geb_leb. split; [by apply Z.eqb_neq|apply Z.leb_gt; lia].
Qed.

Lemma before_no_overlap n n' s :
  beyond n s = false -> overlap n s = false -> nack_le n n' -> 0 < seg_size s -> 0 <= seg_so s ->
  overlap n' s = false.
Proof.
  destruct n as [[kn a] b], n' as [[kn' a'] b']. unfold beyond, overlap, nack_le, so_overlap. cbn [fst snd].
  intros Hb Ho Hle Hsz Hso. destruct (k s =? kn') eqn:Et; [|done]. zify_bool. cbn [andb]. subst kn'.
  assert (Ek : k s = kn) by lia. subst kn. rewrite Z.eqb_refl in *. cbn [andb] in *. zify_bool.
  destruct (a <? seg_so s) eqn:E1; zify_bool; [lia|].
  destruct (a' <? seg_so s) eqn:E2; zify_bool; [lia|].
  apply orb_false_iff. split; [by apply Z.eqb_neq|apply Z.leb_gt; lia].
Qed.

Lemma nacked_false ns s : nacked ns s = false <-> Forall (fun n => overlap n s = false) ns.
Proof.
  unfold nacked. induction ns as [|n ns IH]; [by split; [constructor|]|]. cbn [existsb].
  rewrite orb_false_iff, IH, Forall_cons. done.
Qed.

Lemma nacked_app a b s : nacked (a ++ b) s = nacked a s || nacked b s.
Proof. apply existsb_app. Qed.

Section report.
Context (W0 R0 : list nr_rlc_sdu_segment_t) (N : list (Z * Z * Z)).
Context (N_sorted : StronglySorted nack_le N) (N_acked : Forall (fun n => n.1.1 < ka) N).

Lemma late_not_nacked ns s : ns ⊆ N -> late s = true -> nacked ns s = false.
Proof.
  intros Hin Hl. apply nacked_false. rewrite Forall_forall in N_acked |- *. intros [[kn a] b] Hn.
  specialize (N_acked _ (Hin _ Hn)). cbn in N_acked. unfold late in Hl. zify_bool. unfold overlap.
  destruct (_ =? kn) eqn:E; zify_bool; [lia|done].
Qed.

(** [done] are the NACKs processed so far. *)
Record walk_inv (done : list (Z * Z * Z)) (w : walk) : Prop := {
  wi_wait : w_before w ++ List.filter late (w_rest w) = List.filter late W0;
  wi_retx : w_new w ++ List.filter (nacked N) (w_rest w) ++ List.filter (kept N) (w_cur w)
            ≡ₚ List.filter (nacked N) W0 ++ List.filter (kept N) R0;
  wi_freed : w_freed w ++ List.filter (gone N) (w_rest w) ++ List.filter (gone N) (w_cur w)
             ≡ₚ List.filter (gone N) (W0 ++ R0);
  wi_rest : StronglySorted key_le (w_rest w);
  wi_cur : StronglySorted key_le (w_cur w);
  wi_done : Forall (fun s => nacked done s = false) (w_rest w ++ w_cur w);
  wi_over : w_over w = true -> Forall (fun s => ka < k s) (w_rest w);
  wi_after : w_after w = [];
  wi_sizes : Forall (fun s => 0 < seg_size s /\ 0 <= seg_so s) (w_rest w ++ w_cur w);
}.

(** What a segment that is not beyond the NACK becomes. *)
Lemma walk_class done n todo s :
  N = done ++ n :: todo -> nacked done s = false -> beyond n s = false -> overlap n s = false ->
  0 < seg_size s -> 0 <= seg_so s -> nacked N s = false.
Proof.
  intros EN Hd Hb Ho Hsz Hso. rewrite EN, nacked_app, Hd. cbn [orb nacked existsb]. rewrite Ho. cbn [orb].
  apply nacked_false. rewrite EN in N_sorted. apply StronglySorted_app in N_sorted as (_ & _ & Hs).
  apply StronglySorted_inv in Hs as [_ Hs]. eapply Forall_impl; [exact Hs|]. intros n' Hn.
  by eapply before_no_overlap.
Qed.

Lemma walk_overlap_N done n todo s :
  N = done ++ n :: todo -> overlap n s = true -> nacked N s = true /\ late s = false.
Proof.
  intros EN Ho. split.
  - rewrite EN, nacked_app. cbn [nacked existsb]. by rewrite Ho, orb_true_r.
  - rewrite Forall_forall in N_acked. specialize (N_acked n ltac:(rewrite EN; set_solver)).
    destruct n as [[kn a] b]. unfold overlap, late in *. cbn in N_acked. zify_bool. apply Z.leb_gt. lia.
Qed.

Lemma walk_done_all done w ns :
  walk_inv done w -> ns ⊆ N -> Forall (fun s => nacked ns s = false) (w_rest w ++ w_cur w) -> walk_inv ns w.
Proof. intros [] ? ?. by constructor. Qed.

Lemma walk_wait_inv done n todo w s l w' j :
  walk_inv done w -> N = done ++ n :: todo -> w_over w = false -> w_rest w = s :: l ->
  Forall (key_le s) (w_cur w) -> walk_wait n w s = (w', j) ->
  j = NextPdu /\ walk_inv done w' \/ j = DoneNack /\ w' = w /\ walk_inv (done ++ [n]) w.
Proof.
  intros Hinv EN Eo Er Hcur Hw. pose proof Hinv as [H1 H2 H3 H4 H5 H6 H7 H8 H9].
  rewrite Er in *. cbn [List.filter app] in *.
  apply Forall_cons in H6 as [Hd H6], H9 as [[Hsz Hso] H9]. apply StronglySorted_inv in H4 as [H4 Hle].
  unfold walk_wait in Hw. destruct (overlap n s) eqn:Eov; [|destruct (beyond n s) eqn:Eb].
  - left. simplify_eq. split; [done|].
    destruct (walk_overlap_N done n todo s EN Eov) as [En El]. unfold gone in *. rewrite El, En in *.
    constructor; field_simpl; rewrite ?Er; cbn [tail]; try done.
    + rewrite <- H2, <- app_assoc. done.
    + intros Hov. congruence.
  - right. simplify_eq. split_and!; [done|done|]. eapply walk_done_all; [done| |].
    + rewrite EN. set_solver.
    + rewrite Er. cbn [app]. constructor.
      * rewrite nacked_app, Hd. cbn. by rewrite Eov.
      * rewrite Forall_forall in H6 |- *. intros t Ht. rewrite nacked_app, (H6 t Ht). cbn.
        rewrite orb_false_r. eapply beyond_no_overlap; [done|done|].
        rewrite Forall_forall in Hle, Hcur. apply elem_of_app in Ht as [Ht|Ht]; [by apply Hle|by apply Hcur].
  - pose proof (walk_class done n todo s EN Hd Eb Eov Hsz Hso) as Hnn. rewrite Hnn in *.
    left. assert (Eg : gone N s = negb (late s)) by (unfold gone; by rewrite Hnn, andb_true_r).
    assert (El : late s = negb (k s <? ka)) by (unfold late; rewrite Z.leb_antisym; done).
    rewrite Eg, El in *.
    destruct (k s <? ka) eqn:E1; zify_bool; cbn [negb] in *.
    + simplify_eq. split; [done|].
      constructor; field_simpl; rewrite ?Er; cbn [tail]; try done.
      * rewrite <- H3, <- app_assoc. done.
      * intros Hov. congruence.
    + destruct (k s >? ka) eqn:E3; zify_bool; simplify_eq; (split; [done|]).
      * constructor; field_simpl; rewrite ?Er; cbn [List.filter app]; rewrite ?Hnn, ?Eg, ?El; try done.
        -- by constructor.
        -- by constructor.
        -- intros _. constructor; [lia|]. eapply Forall_impl; [exact Hle|]. intros t [|[]]; lia.
        -- by constructor.
      * constructor; field_simpl; rewrite ?Er; cbn [tail]; try done.
        -- rewrite <- H1, <- app_assoc. done.
        -- intros Hov. congruence.
Qed.

Lemma walk_retx_inv done n todo w s l w' j :
  walk_inv done w -> N = done ++ n :: todo -> w_cur w = s :: l ->
  (w_over w = false -> Forall (key_le s) (w_rest w)) -> walk_retx n w s = (w', j) ->
  j = NextPdu /\ walk_inv done w' \/ j = DoneNack /\ w' = w /\ walk_inv (done ++ [n]) w.
Proof.
  intros Hinv EN Er Hrest Hw. pose proof Hinv as [H1 H2 H3 H4 H5 H6 H7 H8 H9].
  rewrite Er in *. cbn [List.filter app] in *.
  apply Forall_app in H6 as [H6 [Hd H6']%Forall_cons], H9 as [H9 [[Hsz Hso] H9']%Forall_cons].
  apply StronglySorted_inv in H5 as [H5 Hle].
  assert (Htail : forall a b, Forall (fun s => nacked done s = false) (w_rest w ++ l) /\
     Forall (fun s => 0 < seg_size s /\ 0 <= seg_so s) (w_rest w ++ l) /\
     (a ++ s :: b ≡ₚ s :: a ++ b)).
  { intros a b. split_and!; [by apply Forall_app|by apply Forall_app|by rewrite <- Permutation_middle]. }
  unfold walk_retx in Hw. destruct (overlap n s) eqn:Eov; [|destruct (beyond n s) eqn:Eb].
  - left. simplify_eq. split; [done|].
    destruct (walk_overlap_N done n todo s EN Eov) as [En El].
    unfold kept, gone in *. rewrite El, En in *. cbn [negb andb orb] in *.
    constructor; field_simpl; rewrite ?Er; cbn [tail]; try done; try by apply Htail.
    rewrite <- H2. solve_Permutation.
  - right. injection Hw as <- <-. split_and!; [done|done|]. eapply walk_done_all; [done| |].
    + rewrite EN. set_solver.
    + rewrite Er. apply Forall_app. split.
      * rewrite Forall_forall in H6 |- *. intros t Ht. rewrite nacked_app, (H6 t Ht). cbn.
        rewrite orb_false_r. destruct (w_over w) eqn:Eo.
        -- assert (Hl : late t = true).
           { specialize (H7 eq_refl). rewrite Forall_forall in H7. specialize (H7 t Ht).
             unfold late. apply Z.leb_le. lia. }
           pose proof (late_not_nacked [n] t ltac:(rewrite EN; set_solver) Hl) as Hn. cbn in Hn.
           by rewrite orb_false_r in Hn.
        -- specialize (Hrest eq_refl). rewrite Forall_forall in Hrest.
           eapply beyond_no_overlap; [done|done|by apply Hrest].
      * constructor; [rewrite nacked_app, Hd; cbn; by rewrite Eov|].
        rewrite Forall_forall in H6' |- *. intros t Ht. rewrite nacked_app, (H6' t Ht). cbn.
        rewrite orb_false_r. eapply beyond_no_overlap; [done|done|].
        rewrite Forall_forall in Hle. by apply Hle.
  - left. pose proof (walk_class done n todo s EN Hd Eb Eov Hsz Hso) as Hnn.
    assert (El : late s = false).
    { unfold late. apply Z.leb_gt. unfold beyond in Eb. destruct n as [[kn a] b]. zify_bool.
      rewrite Forall_forall in N_acked. specialize (N_acked (kn, a, b) ltac:(rewrite EN; set_solver)).
      cbn in N_acked. lia. }
    unfold kept, gone in *. rewrite Hnn, El in *. cbn [negb andb orb] in *.
    unfold late in El. rewrite Z.leb_antisym in El. zify_bool. rewrite (proj2 (Z.ltb_lt _ _) El) in Hw.
    simplify_eq. split; [done|].
    constructor; field_simpl; rewrite ?Er; cbn [tail]; try done; try by apply Htail.
    rewrite <- H3. solve_Permutation.
Qed.

Lemma walk_step_inv done n todo w w' j :
  walk_inv done w -> N = done ++ n :: todo -> walk_step n w = (w', j) ->
  j = NextPdu /\ walk_inv done w' \/ j = DoneNack /\ walk_inv (done ++ [n]) w' \/
  j = ListsOver /\ forall ns, ns ⊆ N -> walk_inv ns w'.
Proof.
  intros Hinv EN. unfold walk_step, w_wait.
  assert (Hfirst : forall x l, StronglySorted key_le (x :: l) -> Forall (key_le x) l).
  { intros x l Hs. by apply StronglySorted_inv in Hs as [_ ?]. }
  assert (Htrans : forall x y l, key_le x y -> Forall (key_le y) l -> Forall (key_le x) l).
  { intros x y l Hxy Hl. eapply Forall_impl; [exact Hl|]. unfold key_le in *. intros z. lia. }
  pose proof (wi_rest _ _ Hinv) as Hr. pose proof (wi_cur _ _ Hinv) as Hc.
  destruct (w_over w) eqn:Eo; [|destruct (w_rest w) as [|s l] eqn:Er]; cbn [head];
    destruct (w_cur w) as [|r l'] eqn:Ec; cbn [head].
  - intros [= <- <-]. right. right. split; [done|]. intros ns Hns. eapply walk_done_all; [done|done|].
    rewrite Ec, app_nil_r. pose proof (wi_over _ _ Hinv Eo) as Hov.
    eapply Forall_impl; [exact Hov|]. intros t Ht. cbn in Ht. apply late_not_nacked; [done|].
    unfold late. apply Z.leb_le. lia.
  - intros H. edestruct walk_retx_inv as [?|(?&->&?)]; [done|done|done| |done|auto|auto].
    intros ?. congruence.
  - intros [= <- <-]. right. right. split; [done|]. intros ns Hns. eapply walk_done_all; [done|done|].
    rewrite Er, Ec. constructor.
  - intros H. edestruct walk_retx_inv as [?|(?&->&?)]; [done|done|done| |done|auto|auto].
    intros _. rewrite Er. constructor.
  - intros H. edestruct walk_wait_inv as [?|(?&->&?)]; [done|done|done|done| |done|auto|auto].
    rewrite Ec. constructor.
  - destruct (_ || _) eqn:Epick; intros H.
    + edestruct walk_wait_inv as [?|(?&->&?)]; [done|done|done|done| |done|auto|auto].
      assert (key_le s r) by (unfold key_le; apply orb_true_iff in Epick as [E|E]; zify_bool; lia).
      rewrite Ec. constructor; [done|]. by eapply Htrans, Hfirst.
    + edestruct walk_retx_inv as [?|(?&->&?)]; [done|done|done| |done|auto|auto].
      intros _. rewrite Er.
      assert (key_le r s).
      { unfold key_le. zify_bool. destruct (k s =? k r) eqn:E; zify_bool; cbn [andb] in *; zify_bool; lia. }
      constructor; [done|]. by eapply Htrans, Hfirst.
Qed.

Lemma walk_next_inv fuel done n todo w w' j :
  walk_inv done w -> N = done ++ n :: todo -> walk_next fuel n w = Ok (w', j) ->
  j = DoneNack /\ walk_inv (done ++ [n]) w' \/ j = ListsOver /\ forall ns, ns ⊆ N -> walk_inv ns w'.
Proof.
  intros Hinv EN. revert w Hinv. induction fuel as [|fuel IH]; intros w Hinv; [done|]. cbn [walk_next].
  destruct (walk_step n w) as [w1 j1] eqn:E.
  destruct (walk_step_inv done n todo w w1 j1 Hinv EN E) as [[-> H]|[[-> H]|[-> H]]].
  - by apply IH.
  - intros [= <- <-]. by left.
  - intros [= <- <-]. by right.
Qed.

Lemma walk_range_inv ns done todo w :
  walk_inv done w -> N = done ++ ns ++ todo ->
  exists w', walk_range w ns = Ok w' /\ walk_inv (done ++ ns) w'.
Proof.
  revert done w. induction ns as [|n ns IH]; intros done w Hinv EN; cbn [walk_range].
  - exists w. by rewrite app_nil_r.
  - destruct (walk_next_total (walk_fuel w) n w (walk_fuel_enough w)) as (w1 & j & Hn & _).
    rewrite Hn. cbn [mbind outcome_bind].
    destruct (walk_next_inv _ done n (ns ++ todo) w w1 j Hinv EN Hn) as [[-> H]|[-> H]].
    + destruct (IH (done ++ [n]) w1 H) as (w' & -> & H'); [by rewrite <- app_assoc|].
      exists w'. split; [done|]. by rewrite <- app_assoc in H'.
    + exists w1. split; [done|]. apply H. rewrite EN. set_solver.
Qed.

Lemma walk_blocks_inv blocks done w :
  walk_inv done w -> N = done ++ concat blocks ->
  exists w', walk_blocks w blocks = Ok w' /\ walk_inv N w'.
Proof.
  revert done w. induction blocks as [|ns blocks IH]; intros done w Hinv EN; cbn [walk_blocks].
  - exists w. cbn in EN. rewrite app_nil_r in EN. by rewrite EN.
  - destruct (walk_range_inv ns done (concat blocks) w Hinv EN) as (w1 & -> & H1). cbn [mbind outcome_bind].
    apply (IH (done ++ ns)); [done|]. by rewrite <- app_assoc.
Qed.

(** An acknowledged segment, no NACK being left. *)
Lemma walk_acked s : nacked N s = false -> k s < ka -> late s = false /\ kept N s = false /\ gone N s = true.
Proof.
  intros Hn Hlt. assert (El : late s = false) by (unfold late; apply Z.leb_gt; lia).
  unfold kept, gone. by rewrite Hn, El.
Qed.

Lemma walk_late_sorted s l : ka <= k s -> StronglySorted key_le (s :: l) -> Forall (fun s => late s = true) (s :: l).
Proof.
  intros Hs Hl. apply StronglySorted_inv in Hl as [_ Hl]. unfold late. constructor; [by apply Z.leb_le|].
  eapply Forall_impl; [exact Hl|]. intros t Ht. unfold key_le in Ht. apply Z.leb_le. lia.
Qed.

Lemma walk_ack_wait_inv fuel w :
  (length (w_rest w) < fuel)%nat -> walk_inv N w ->
  exists w', walk_ack_wait fuel w = Ok w' /\ walk_inv N w' /\ Forall (fun s => late s = true) (w_rest w') /\
    w_cur w' = w_cur w.
Proof.
  revert w. induction fuel as [|fuel IH]; intros w Hf Hinv; [lia|]. cbn [walk_ack_wait].
  unfold w_wait. pose proof Hinv as [H1 H2 H3 H4 H5 H6 H7 H8 H9].
  destruct (w_over w) eqn:Eo.
  { exists w. split_and!; try done. eapply Forall_impl; [by apply H7|]. intros t Ht. cbn in Ht.
    unfold late. apply Z.leb_le. lia. }
  destruct (w_rest w) as [|s l] eqn:Er; cbn [head].
  { exists w. rewrite Er. by split_and!. }
  destruct (k s <? ka) eqn:E; zify_bool.
  2: { exists w. rewrite Er. split_and!; try done. by apply walk_late_sorted. }
  set (w1 := _ <| w_freed := _ |>).
  destruct (IH w1) as (w' & ? & ? & ? & ?).
  - unfold w1. field_simpl. cbn [length tail] in *. lia.
  - cbn [app List.filter] in *. apply Forall_cons in H6 as [Hn H6], H9 as [_ H9].
    apply StronglySorted_inv in H4 as [H4 _].
    destruct (walk_acked s Hn E) as (El & Ek & Eg). rewrite El, Hn, Eg in *.
    unfold w1. constructor; field_simpl; cbn [tail]; try done; [|congruence].
    rewrite <- H3. solve_Permutation.
  - by exists w'.
Qed.

Lemma walk_ack_retx_inv cur w :
  walk_inv N (w <| w_cur := cur |>) ->
  walk_inv N (walk_ack_retx w cur) /\ Forall (fun s => late s = true) (w_cur (walk_ack_retx w cur)) /\
  w_rest (walk_ack_retx w cur) = w_rest w.
Proof.
  revert w. induction cur as [|s l IH]; intros w Hinv; cbn [walk_ack_retx].
  - by split_and!.
  - destruct (k s <? ka) eqn:E; zify_bool.
    2: { split_and!; try done. field_simpl. apply walk_late_sorted; [done|]. exact (wi_cur _ _ Hinv). }
    pose proof Hinv as [H1 H2 H3 H4 H5 H6 H7 H8 H9]. field_simpl_all.
    apply Forall_app in H6 as [H6 [Hn H6']%Forall_cons], H9 as [H9 [_ H9']%Forall_cons].
    apply StronglySorted_inv in H5 as [H5 _].
    destruct (walk_acked s Hn E) as (El & Ek & Eg). cbn [List.filter app] in *. rewrite Ek, Eg in *.
    destruct (IH (w <| w_freed := w_freed w ++ [s] |>)) as (? & ? & ?); [|by split_and!].
    constructor; field_simpl; try done; [|by apply Forall_app|by apply Forall_app].
    rewrite <- H3. solve_Permutation.
Qed.

Lemma filter_all {A} (p : A -> bool) l : Forall (fun x => p x = true) l -> List.filter p l = l.
Proof. intros H. induction H as [|x l Hx _ IH]; [done|]. cbn. by rewrite Hx, IH. Qed.

Lemma filter_none {A} (p : A -> bool) l : Forall (fun x => p x = false) l -> List.filter p l = [].
Proof. intros H. induction H as [|x l Hx _ IH]; [done|]. cbn. by rewrite Hx, IH. Qed.

Lemma walk_correct blocks :
  N = concat blocks -> StronglySorted key_le W0 -> StronglySorted key_le R0 ->
  Forall (fun s => 0 < seg_size s /\ 0 <= seg_so s) (W0 ++ R0) ->
  exists w, walk_all (mk_walk [] W0 false R0 [] [] []) blocks = Ok w /\
    w_before w ++ w_rest w = List.filter late W0 /\
    w_new w ++ w_cur w ≡ₚ List.filter (nacked N) W0 ++ List.filter (kept N) R0 /\
    w_freed w ≡ₚ List.filter (gone N) (W0 ++ R0) /\ w_after w = [].
Proof.
  intros EN HW HR Hsz. set (w0 := mk_walk _ _ _ _ _ _ _).
  assert (Hinv0 : walk_inv [] w0).
  { unfold w0. constructor; cbn [w_before w_rest w_over w_cur w_new w_after w_freed app]; try done.
    - by rewrite List.filter_app.
    - rewrite Forall_forall. done. }
  unfold walk_all.
  destruct (walk_blocks_inv blocks [] w0 Hinv0 EN) as (w1 & -> & Hinv1). cbn [mbind outcome_bind].
  destruct (walk_ack_wait_inv _ w1 (Nat.lt_succ_diag_r _) Hinv1) as (w2 & -> & Hinv2 & Hl2 & _).
  cbn [mbind outcome_bind].
  destruct (walk_ack_retx_inv (w_cur w2) w2) as (Hinv3 & Hl3 & Er3).
  { by destruct w2. }
  set (w3 := walk_ack_retx _ _) in *. exists w3. split; [done|].
  destruct Hinv3 as [H1 H2 H3 _ _ H6 _ H8 _]. rewrite Er3 in *.
  apply Forall_app in H6 as [H6 H6']. rewrite (filter_all _ _ Hl2) in H1.
  assert (Hng : forall l, Forall (fun s => late s = true) l -> List.filter (gone N) l = []).
  { intros l Hl. apply filter_none. eapply Forall_impl; [exact Hl|]. intros s Hs. cbn in Hs.
    unfold gone. by rewrite Hs. }
  rewrite !Hng, !app_nil_r in H3 by done. rewrite (filter_none _ _ H6) in H2. cbn [app] in H2.
  rewrite (filter_all (kept N)) in H2.
  2: { eapply Forall_impl; [exact Hl3|]. intros s Hs. cbn in Hs. unfold kept. by rewrite Hs, orb_true_r. }
  by split_and!.
Qed.
End report.
End walk.
