(* ===== verification/RlcAmCtrlProps.v ===== *)
(** * Status reports: the code follows the walk

    [ctl_inv] relates the state of [process_control_pdu] to the walk of
    RlcAmWalk.v and says that the SDUs, the counters and the end pointer follow;
    each step of the code is a step of the walk.  Segments the code drops are
    in [w_after]. *)

From S2P Require Import Prelude TimeStat RlcPdu RlcSdu RlcReassembly RlcEntity RlcAm.
From S2P Require Import RlcAmCtrl RlcAmSend RlcAmQueue RlcAmTx RlcAmWalk.

(** ** What the processing leaves alone *)

Definition am_rx_state (e : nr_rlc_entity_am_t) :=
  (am_sn_field_length e, am_sn_modulus e, am_window_size e,
   (am_rx_next e, am_rx_next_status_trigger e, am_rx_highest_status e, am_rx_next_highest e),
   (am_rx_list e, am_rx_size e, am_rx_maxsize e), am_t_reassembly_start e).

Lemma am_rx_view_state e e' :
  am_rx_state e' = am_rx_state e -> events (am_common e') = events (am_common e) ->
  am_rx_view e' = am_rx_view e.
Proof. unfold am_rx_state, am_rx_view. intros E H. simplify_eq. congruence. Qed.

Definition ctl_frame (e : nr_rlc_entity_am_t) :=
  (am_rx_state e, (am_tx_list e, am_tx_end e, am_wait_end e),
   (am_tx_next e, am_tx_next_ack e, am_max_retx_threshold e, am_poll_sn e),
   txsdu_avg_time_to_tx (am_common e), bs_tx_size (bstatus (am_common e))).

Lemma ctl_frame_eqs e e' : ctl_frame e' = ctl_frame e ->
  am_sn_field_length e' = am_sn_field_length e /\ am_sn_modulus e' = am_sn_modulus e /\
  am_window_size e' = am_window_size e /\ am_tx_next_ack e' = am_tx_next_ack e /\
  am_tx_list e' = am_tx_list e /\ am_wait_end e' = am_wait_end e.
Proof. unfold ctl_frame, am_rx_state. intros E. by simplify_eq. Qed.

(** The upper layer is told of the SDUs whose last segment was freed. *)
Definition ctl_reported (e0 e : nr_rlc_entity_am_t) (freed : list nr_rlc_sdu_segment_t) : Prop :=
  exists ev, events (am_common e) = events (am_common e0) ++ ev /\
    (forall x, x ∈ ev -> x = MaxRetxReached \/ exists s u, s ∈ freed /\
       heap_sdus (heap (am_common e0)) !! seg_sdu s = Some u /\ x = SduSuccessfulDelivery (upper_layer_id u) /\
       heap_sdus (heap (am_common e)) !! seg_sdu s = None) /\
    (forall s u, s ∈ freed -> heap_sdus (heap (am_common e0)) !! seg_sdu s = Some u ->
       heap_sdus (heap (am_common e)) !! seg_sdu s = None -> SduSuccessfulDelivery (upper_layer_id u) ∈ ev).

Record ctl_inv (e0 : nr_rlc_entity_am_t) (lost : list nr_rlc_sdu_segment_t) (st : ctl_t) (w : walk)
    : Prop := {
  ci_view : wait_before st = w_before w /\ wait_rest st = w_rest w /\ wait_over st = w_over w /\
            cur_retx st = w_cur w /\ new_retx st = w_new w /\ new_after st = w_after w;
  ci_frame : ctl_frame (ctl_entity st) = ctl_frame e0;
  ci_heap : heap_inv (heap (am_common (ctl_entity st)))
              (am_tx_list e0 ++ (w_before w ++ w_rest w) ++ (w_new w ++ w_cur w) ++ w_after w ++ lost);
  ci_sn : forall s, s ∈ am_tx_list e0 ++ (w_before w ++ w_rest w) ++ (w_new w ++ w_cur w) ++ w_after w ++ lost ->
          seg_sn (heap (am_common (ctl_entity st))) s = seg_sn (heap (am_common e0)) s;
  ci_wait_in : w_before w ++ w_rest w ⊆ am_wait_list e0;
  ci_retx_in : w_new w ++ w_cur w ⊆ am_wait_list e0 ++ am_retransmit_list e0;
  ci_after : w_after w = [] \/ w_cur w = [] /\ w_wait w = None;
  ci_sizes : sdu_sizes_ok (heap (am_common (ctl_entity st)));
  ci_bytes : am_tx_size (ctl_entity st) = heap_bytes (heap (am_common (ctl_entity st)));
  ci_retx : bs_retx_size (bstatus (am_common (ctl_entity st)))
            = zsum (am_seg_bytes (am_sn_field_length e0)) ((w_new w ++ w_cur w) ++ w_after w ++ lost);
  ci_end : match end_wait_list st with
           | Some p => end_ok (w_before w ++ w_rest w) p /\ w_rest w = []
           | None => end_ok (w_before w ++ w_rest w) (am_wait_end e0)
           end;
  ci_ids : forall i u, heap_sdus (heap (am_common (ctl_entity st))) !! i = Some u ->
           exists u0, heap_sdus (heap (am_common e0)) !! i = Some u0 /\
             upper_layer_id u = upper_layer_id u0 /\ sdu_data u = sdu_data u0;
  ci_events : ctl_reported e0 (ctl_entity st) (w_freed w);
}.

(** The order of the lists, in the same state. *)
Record ctl_sorted (k : nr_rlc_sdu_segment_t -> Z) (w : walk) : Prop := {
  cs_wait : StronglySorted (key_le k) (w_before w ++ w_rest w);
  cs_retx : StronglySorted (key_le k) (w_new w ++ w_cur w);
  cs_merge : w_over w = false -> forall s t, s ∈ w_new w -> t ∈ w_rest w -> key_le k s t;
}.

Lemma key_le_trans k s t u : key_le k s t -> key_le k t u -> key_le k s u.
Proof. unfold key_le. lia. Qed.

Lemma StronglySorted_remove {A} (R : A -> A -> Prop) l1 x l2 :
  StronglySorted R (l1 ++ x :: l2) -> StronglySorted R (l1 ++ l2).
Proof.
  intros H. apply StronglySorted_app in H as (H1 & H2 & H3).
  apply StronglySorted_inv in H3 as [H3 _]. apply StronglySorted_app. split_and!; try done.
  intros y z Hy Hz. apply H1; [done|]. by apply list_elem_of_further.
Qed.

(** The order is kept by any report. *)
Lemma walk_step_sorted k ka n w w' j :
  ctl_sorted k w -> walk_step k ka n w = (w', j) -> ctl_sorted k w'.
Proof.
  intros [H1 H2 H3] Hstep. unfold walk_step in Hstep.
  assert (Hwait : forall s l, w_over w = false -> w_rest w = s :: l -> Forall (key_le k s) (w_cur w) ->
    walk_wait k ka n w s = (w', j) -> ctl_sorted k w').
  { intros s l Eo Er Hc Hw. unfold walk_wait in Hw. rewrite Er in *. specialize (H3 Eo).
    pose proof (StronglySorted_remove _ _ _ _ H1) as H1'.
    pose proof H1 as Hs. apply StronglySorted_app in Hs as (_ & _ & Hs).
    apply StronglySorted_inv in Hs as [_ Hs]. rewrite Forall_forall in Hs, Hc.
    repeat case_if; simplify_eq; cbn [tail]; constructor; field_simpl; rewrite ?Er; cbn [tail]; try done.
    - apply StronglySorted_app in H2 as (H4 & H5 & H6). rewrite <- app_assoc. cbn [app].
      apply StronglySorted_app. split_and!; [|done|constructor; [done|by rewrite Forall_forall]].
      intros x y Hx Hy. apply elem_of_cons in Hy as [->|Hy]; [apply H3; set_solver|by apply H4].
    - intros _ x t Hx Ht. apply elem_of_app in Hx as [Hx|Hx%list_elem_of_singleton].
      + apply H3; set_solver.
      + subst. by apply Hs.
    - intros _ x t Hx Ht. apply H3; set_solver.
    - by rewrite <- app_assoc.
    - intros _ x t Hx Ht. apply H3; set_solver. }
  assert (Hretx : forall s l, w_cur w = s :: l -> (w_over w = false -> Forall (key_le k s) (w_rest w)) ->
    walk_retx k ka n w s = (w', j) -> ctl_sorted k w').
  { intros s l Er Hc Hw. unfold walk_retx in Hw. rewrite Er in *.
    assert (Hk : w_over w = false -> forall s0 t, s0 ∈ w_new w ++ [s] -> t ∈ w_rest w -> key_le k s0 t).
    { intros Eo s0 t [Hx|Hx%list_elem_of_singleton]%elem_of_app Ht; [by apply H3|subst].
      specialize (Hc Eo). rewrite Forall_forall in Hc. by apply Hc. }
    repeat case_if; try destruct (w_wait w); simplify_eq; constructor; field_simpl; rewrite ?Er; cbn [tail]; try done;
      try (by rewrite <- app_assoc); try (by eapply StronglySorted_remove); try (intros; by eapply Hk).
    rewrite app_nil_r. by apply StronglySorted_app in H2 as (_ & ? & _). }
  assert (Hfirst : forall l1 x l, StronglySorted (key_le k) (l1 ++ x :: l) -> Forall (key_le k x) l).
  { intros l1 x l Hs. apply StronglySorted_app in Hs as (_ & _ & Hs). by apply StronglySorted_inv in Hs as [_ ?]. }
  assert (Htrans : forall x y l, key_le k x y -> Forall (key_le k y) l -> Forall (key_le k x) l).
  { intros x y l Hxy Hl. eapply Forall_impl; [exact Hl|]. intros z. by apply key_le_trans. }
  unfold w_wait in Hstep.
  destruct (w_over w) eqn:Eo; [|destruct (w_rest w) as [|s l] eqn:Er]; cbn [head] in Hstep;
    destruct (w_cur w) as [|r l'] eqn:Ec; cbn [head] in Hstep; rewrite ?Er in *.
  - injection Hstep as <- <-. constructor; rewrite ?Ec, ?Eo; done.
  - eapply Hretx; [done| |done]. congruence.
  - injection Hstep as <- <-. constructor; rewrite ?Er, ?Ec, ?Eo; done.
  - eapply Hretx; [done| |done]. intros _. constructor.
  - eapply Hwait; [done|done| |done]. constructor.
  - destruct (_ || _) eqn:Epick.
    + assert (key_le k s r) by (unfold key_le; apply orb_true_iff in Epick as [E|E]; zify_bool; lia).
      eapply Hwait; [done|done| |done]. constructor; [done|]. by eapply Htrans, Hfirst.
    + assert (key_le k r s).
      { unfold key_le. zify_bool. destruct (k s =? k r) eqn:E; zify_bool; cbn [andb] in *; zify_bool; lia. }
      eapply Hretx; [done| |done]. intros _. constructor; [done|]. by eapply Htrans, Hfirst.
Qed.

(** ** Freeing a segment *)

Lemma free_lookup h s u h' r i :
  nr_rlc_free_sdu_segment h s = Ok (h', r) -> heap_sdus h !! seg_sdu s = Some u ->
  heap_sdus h' !! i = if decide (seg_sdu s = i)
                      then if r then None else Some (u <| free_count := free_count u + 1 |>)
                      else heap_sdus h !! i.
Proof.
  unfold nr_rlc_free_sdu_segment, deref_sdu, set_sdu. intros H Hu. rewrite Hu in H.
  cbn [of_option mbind outcome_bind] in H. destruct (_ =? _); injection H as <- <-; field_simpl.
  - case_decide as E; [subst; by rewrite lookup_delete_eq|by rewrite lookup_delete_ne].
  - rewrite lookup_insert. by case_decide.
Qed.

Lemma am_free_acked_correct e s L :
  heap_inv (heap (am_common e)) (s :: L) -> sdu_sizes_ok (heap (am_common e)) ->
  am_tx_size e = heap_bytes (heap (am_common e)) ->
  exists e' u ev, am_free_acked e s = Ok e' /\ ctl_frame e' = ctl_frame e /\
    heap_inv (heap (am_common e')) L /\ heap_same (heap (am_common e)) (heap (am_common e')) L /\
    sdu_sizes_ok (heap (am_common e')) /\ am_tx_size e' = heap_bytes (heap (am_common e')) /\
    bs_retx_size (bstatus (am_common e')) = bs_retx_size (bstatus (am_common e)) /\
    am_wait_list e' = am_wait_list e /\
    heap_sdus (heap (am_common e)) !! seg_sdu s = Some u /\
    events (am_common e') = events (am_common e) ++ ev /\
    (forall i, i <> seg_sdu s -> heap_sdus (heap (am_common e')) !! i = heap_sdus (heap (am_common e)) !! i) /\
    (ev = [SduSuccessfulDelivery (upper_layer_id u)] /\ heap_sdus (heap (am_common e')) !! seg_sdu s = None \/
     ev = [] /\ exists u', heap_sdus (heap (am_common e')) !! seg_sdu s = Some u' /\
       upper_layer_id u' = upper_layer_id u /\ sdu_data u' = sdu_data u).
Proof.
  intros Hh Hsz Hb. destruct (free_correct _ _ _ Hh) as (h' & r & u & Hfree & Hu & Hh' & Hsame & Hbytes & _).
  assert (Hsz' : sdu_sizes_ok h').
  { eapply (free_map_Forall (fun _ u => 0 < sdu_size u <= NR_SDU_MAX)); [exact Hfree|done|done]. }
  pose proof (fun i => free_lookup _ _ _ _ _ i Hfree Hu) as Hlk.
  unfold am_free_acked, deref_sdu. rewrite Hu. cbn [of_option mbind outcome_bind].
  rewrite Hfree. cbn [mbind outcome_bind].
  assert (Hother : forall i, i <> seg_sdu s -> heap_sdus h' !! i = heap_sdus (heap (am_common e)) !! i).
  { intros i Hi. rewrite Hlk. by case_decide. }
  specialize (Hlk (seg_sdu s)). rewrite decide_True in Hlk by done.
  destruct r.
  - eexists _, u, _. split; [reflexivity|]. unfold emit, add_stat64. field_simpl.
    split_and!; try done; [lia|]. left. done.
  - eexists _, u, []. split; [reflexivity|]. field_simpl. rewrite app_nil_r.
    split_and!; try done; [lia|]. right. split; [done|]. eexists. by split_and!.
Qed.

Lemma am_count_retx_correct e s u :
  heap_sdus (heap (am_common e)) !! seg_sdu s = Some u ->
  exists e' ev, am_count_retx e s = Ok e' /\ ctl_frame e' = ctl_frame e /\
    heap (am_common e') = set_sdu (heap (am_common e)) s (u <| retx_count := retx_count u + 1 |>) /\
    am_tx_size e' = am_tx_size e /\ bs_retx_size (bstatus (am_common e')) = bs_retx_size (bstatus (am_common e)) /\
    events (am_common e') = events (am_common e) ++ ev /\ (ev = [] \/ ev = [MaxRetxReached]).
Proof.
  intros Hu. unfold am_count_retx, deref_sdu. rewrite Hu. cbn [of_option mbind outcome_bind]. field_simpl.
  destruct (_ >=? _).
  - eexists _, _. split; [reflexivity|]. unfold emit. field_simpl. split_and!; try done. by right.
  - eexists _, []. split; [reflexivity|]. field_simpl. rewrite app_nil_r. split_and!; try done. by left.
Qed.

(** ** Simulation *)

Section report.
Context (e0 : nr_rlc_entity_am_t) (lost : list nr_rlc_sdu_segment_t) (ack_sn : Z).
Context (e0_config : am_config_ok e0) (e0_inv : am_tx_inv e0 lost).
Context (ack_range : sn_range (am_sn_modulus e0) ack_sn).

Definition sn_key (sn : Z) : Z := am_key (am_sn_modulus e0) (am_tx_next_ack e0) sn.
Definition seg_key (s : nr_rlc_sdu_segment_t) : Z := sn_key (seg_sn (heap (am_common e0)) s).
Definition nack_key (n : Z * Z * Z) : Z * Z * Z := (sn_key n.1.1, n.1.2, n.2).

Lemma ctl_compare st w a b :
  ctl_inv e0 lost st w -> sn_range (am_sn_modulus e0) a -> sn_range (am_sn_modulus e0) b ->
  am_sn_compare_tx (ctl_entity st) a b = sn_key a - sn_key b.
Proof.
  intros H Ha Hb. destruct (ctl_frame_eqs _ _ (ci_frame _ _ _ _ H)) as (_ & EM & _ & Ea & _).
  rewrite (am_sn_compare_tx_key (am_sn_modulus e0)); unfold sn_key; rewrite ?Ea; try done.
  apply (q_ack _ _ _ _ _ _ _ _ _ (ti_q _ _ e0_inv)).
Qed.

Lemma ctl_seg_sn st w s :
  ctl_inv e0 lost st w -> s ∈ w_rest w ++ w_cur w ->
  am_seg_sn (ctl_entity st) s = Ok (seg_sn (heap (am_common e0)) s) /\
  sn_range (am_sn_modulus e0) (seg_sn (heap (am_common e0)) s).
Proof.
  intros H Hs. rewrite am_seg_sn_ok.
  2: { eapply heap_inv_live; [apply (ci_heap _ _ _ _ H)|]. set_solver. }
  rewrite (ci_sn _ _ _ _ H) by set_solver. split; [done|].
  assert (Hin : s ∈ am_wait_list e0 ++ am_retransmit_list e0).
  { pose proof (ci_wait_in _ _ _ _ H). pose proof (ci_retx_in _ _ _ _ H). set_solver. }
  by apply (am_q_sent _ _ _ _ _ _ _ _ _ _ (ti_q _ _ e0_inv) Hin).
Qed.

Lemma ctl_unlink_end st w s l :
  ctl_inv e0 lost st w -> w_rest w = s :: l ->
  match end_wait_list (ctl_unlink_wait st s) with
  | Some p => end_ok (w_before w ++ l) p /\ l = []
  | None => end_ok (w_before w ++ l) (am_wait_end e0)
  end.
Proof.
  intros H Er. pose proof (ci_end _ _ _ _ H) as Hend. rewrite Er in Hend.
  destruct (end_wait_list st) as [p|] eqn:Ep; [by destruct Hend|].
  assert (Hnd : NoDup (seg_addr <$> w_before w ++ s :: l)).
  { pose proof (heap_nodup _ _ (ci_heap _ _ _ _ H)) as Hn. rewrite Er in Hn. rewrite !fmap_app in Hn.
    apply NoDup_app in Hn as (_ & _ & Hn). apply NoDup_app in Hn as (Hn & _). by rewrite fmap_app. }
  destruct (ctl_frame_eqs _ _ (ci_frame _ _ _ _ H)) as (_ & _ & _ & _ & _ & Ee).
  destruct (ci_view _ _ _ _ H) as (Eb & _).
  pose proof (end_ok_remove _ _ _ _ Hnd Hend) as Hrem.
  unfold ctl_unlink_wait. field_simpl. rewrite Ee.
  destruct (decide (am_wait_end e0 = Some (seg_addr s))) as [E|E]; field_simpl; rewrite ?Ep; [|done].
  rewrite Eb. split; [done|].
  destruct l as [|t l _] using rev_ind; [done|exfalso]. unfold end_ok in Hend.
  rewrite Hend, app_comm_cons, app_assoc, last_snoc in E. cbn in E. injection E as E.
  assert (t = s) as ->.
  { eapply NoDup_addr_inj; [exact Hnd| | |done]; set_solver. }
  rewrite fmap_app, fmap_cons, fmap_app in Hnd. apply NoDup_app in Hnd as (_ & _ & Hnd).
  apply NoDup_cons in Hnd as [Hn _]. apply Hn. set_solver.
Qed.

Lemma ctl_unlink_fields st s :
  ctl_entity (ctl_unlink_wait st s) = ctl_entity st /\ wait_before (ctl_unlink_wait st s) = wait_before st /\
  wait_rest (ctl_unlink_wait st s) = tail (wait_rest st) /\ wait_over (ctl_unlink_wait st s) = wait_over st /\
  cur_retx (ctl_unlink_wait st s) = cur_retx st /\ new_retx (ctl_unlink_wait st s) = new_retx st /\
  new_after (ctl_unlink_wait st s) = new_after st.
Proof. unfold ctl_unlink_wait. by destruct (decide _). Qed.

Lemma ctl_reported_ext e e' ev freed :
  ctl_reported e0 e freed -> events (am_common e') = events (am_common e) ++ ev ->
  (ev = [] \/ ev = [MaxRetxReached]) ->
  (forall i, heap_sdus (heap (am_common e')) !! i = None <-> heap_sdus (heap (am_common e)) !! i = None) ->
  ctl_reported e0 e' freed.
Proof.
  intros (ev0 & E0 & H1 & H2) E Hev Hh. exists (ev0 ++ ev). rewrite E, E0, app_assoc. split; [done|]. split.
  - intros x [Hx|Hx]%elem_of_app.
    + destruct (H1 x Hx) as [|(s & u & ? & ? & ? & ?)]; [by left|right]. exists s, u. by rewrite Hh.
    + left. destruct Hev as [->| ->]; set_solver.
  - intros s u Hs Hu Hn. apply elem_of_app. left. eapply H2; [done..|]. by rewrite <- Hh.
Qed.

(** From the wait list to the retransmit list. *)
Lemma ctl_move_retx st w s l :
  ctl_inv e0 lost st w -> w_over w = false -> w_rest w = s :: l ->
  let st1 := ctl_push_retx (ctl_unlink_wait st s) s in
  exists e', am_count_retx (ctl_entity st) s = Ok e' /\
    ctl_inv e0 lost (st1 <| ctl_entity := am_add_retx_size e' (am_retx_bytes e' s) |>)
      (w <| w_rest := l |> <| w_new := w_new w ++ [s] |> <| w_after := [] |>).
Proof.
  intros H Eo Er st1. pose proof H as [H1 H2 H3 H4 H5 H6 H7 H8 H9 H10 H11 H12 H13].
  rewrite Er in *. assert (Ea : w_after w = []).
  { destruct H7 as [|[_ Hw]]; [done|]. unfold w_wait in Hw. by rewrite Eo, Er in Hw. }
  rewrite Ea in *. destruct H1 as (V1 & V2 & V3 & V4 & V5 & V6).
  destruct (heap_inv_live _ _ s H3 ltac:(set_solver)) as [u Hu].
  destruct (am_count_retx_correct _ _ _ Hu) as (e' & ev & Hcount & Hf & Hheap & Hb & Hbs & Hev & Hev').
  exists e'. split; [done|].
  destruct (ctl_unlink_fields st s) as (F0 & F1 & F2 & F3 & F4 & F5 & F6).
  pose proof (ctl_unlink_end st w s l H Er) as Hend.
  assert (Hlive : forall i v, heap_sdus (heap (am_common e')) !! i = Some v ->
    exists v0, heap_sdus (heap (am_common (ctl_entity st))) !! i = Some v0 /\
      upper_layer_id v = upper_layer_id v0 /\ sdu_data v = sdu_data v0).
  { intros i v. rewrite Hheap. unfold set_sdu. field_simpl. rewrite lookup_insert. case_decide as Ei.
    - intros [= <-]. exists u. rewrite <- Ei. done.
    - intros Hv. by exists v. }
  assert (Hperm : am_tx_list e0 ++ (w_before w ++ l) ++ ((w_new w ++ [s]) ++ w_cur w) ++ [] ++ lost
    ≡ₚ am_tx_list e0 ++ (w_before w ++ s :: l) ++ (w_new w ++ w_cur w) ++ [] ++ lost) by solve_Permutation.
  assert (Esn : forall t, seg_sn (heap (am_common e')) t = seg_sn (heap (am_common (ctl_entity st))) t).
  { intros t. rewrite Hheap. by apply (seg_sn_set _ _ u). }
  assert (Hlen : am_sn_field_length e' = am_sn_field_length e0).
  { apply (ctl_frame_eqs e0 e'). congruence. }
  unfold st1, ctl_push_retx, am_add_retx_size, add_retx_size.
  constructor; field_simpl; try done.
  - rewrite F1, F2, F3, F4, F5, V2, V1, V5. by split_and!.
  - rewrite <- H2, <- Hf. done.
  - rewrite Hheap, Hperm. eapply heap_inv_set; [exact H3|done..].
  - intros t Ht. rewrite Esn. apply H4. by rewrite <- Hperm.
  - set_solver.
  - set_solver.
  - by left.
  - unfold sdu_sizes_ok. rewrite Hheap. unfold set_sdu. field_simpl. apply map_Forall_insert_2; [|done].
    exact (H8 _ _ Hu).
  - rewrite Hheap, (heap_bytes_set _ _ u) by done. congruence.
  - rewrite Hbs, H10. unfold am_retx_bytes, am_compute_pdu_header_size. rewrite Hlen.
    change (am_pdu_header_size (am_sn_field_length e0) (is_first s) + seg_size s) with (am_seg_bytes (am_sn_field_length e0) s).
    rewrite !zsum_app, zsum_cons, zsum_nil. lia.
  - intros i v Hv. destruct (Hlive i v Hv) as (v0 & Hv0 & -> & ->). by apply H12.
  - eapply (ctl_reported_ext (ctl_entity st)); [done| |done|].
    + field_simpl. done.
    + intros i. field_simpl. rewrite Hheap. unfold set_sdu. field_simpl. rewrite lookup_insert.
      case_decide as Ei; [|done]. subst i. rewrite Hu. done.
Qed.

Lemma ctl_reported_free e e' s u u0 ev freed :
  ctl_reported e0 e freed -> events (am_common e') = events (am_common e) ++ ev ->
  (forall i, i <> seg_sdu s -> heap_sdus (heap (am_common e')) !! i = heap_sdus (heap (am_common e)) !! i) ->
  heap_sdus (heap (am_common e)) !! seg_sdu s = Some u ->
  heap_sdus (heap (am_common e0)) !! seg_sdu s = Some u0 -> upper_layer_id u = upper_layer_id u0 ->
  (ev = [SduSuccessfulDelivery (upper_layer_id u)] /\ heap_sdus (heap (am_common e')) !! seg_sdu s = None \/
   ev = [] /\ is_Some (heap_sdus (heap (am_common e')) !! seg_sdu s)) ->
  ctl_reported e0 e' (freed ++ [s]).
Proof.
  intros (ev0 & E0 & H1 & H2) E Hother Hu Hu0 Hid Hcase. exists (ev0 ++ ev).
  rewrite E, E0, app_assoc. split; [done|].
  assert (Hnone : forall i, heap_sdus (heap (am_common e')) !! i = None ->
    i = seg_sdu s \/ heap_sdus (heap (am_common e)) !! i = None).
  { intros i Hi. destruct (decide (i = seg_sdu s)) as [|Hne]; [by left|right]. by rewrite <- Hother. }
  split.
  - intros x [Hx|Hx]%elem_of_app.
    + destruct (H1 x Hx) as [|(t & v & Ht & Hv & Ex & Hn)]; [by left|right]. exists t, v.
      split_and!; [set_solver|done|done|]. rewrite Hother; [done|]. intros Et. rewrite Et in Hn. congruence.
    + destruct Hcase as [[-> Hn]|[-> _]]; [|by apply not_elem_of_nil in Hx].
      apply list_elem_of_singleton in Hx as ->. right. exists s, u0. rewrite Hid.
      split_and!; try done. set_solver.
  - intros t v Ht Hv Hn. apply elem_of_app. destruct (Hnone _ Hn) as [Et|Hn'].
    + destruct Hcase as [[-> _]|[_ [? Hs]]]; [|congruence]. right. rewrite Et in Hv. simplify_eq.
      rewrite Hid. set_solver.
    + left. apply elem_of_app in Ht as [Ht|Ht%list_elem_of_singleton]; [by eapply H2|subst; congruence].
Qed.

(** An acknowledged segment of the wait list. *)
Lemma ctl_move_free_wait st w s l :
  ctl_inv e0 lost st w -> w_over w = false -> w_rest w = s :: l ->
  exists e', am_free_acked (ctl_entity st) s = Ok e' /\
    ctl_inv e0 lost ((ctl_unlink_wait st s) <| ctl_entity := e' |>)
      (w <| w_rest := l |> <| w_freed := w_freed w ++ [s] |>).
Proof.
  intros H Eo Er. pose proof H as [H1 H2 H3 H4 H5 H6 H7 H8 H9 H10 H11 H12 H13].
  destruct (ctl_unlink_fields st s) as (F0 & F1 & F2 & F3 & F4 & F5 & F6).
  pose proof (ctl_unlink_end st w s l H Er) as Hend.
  rewrite Er in *. destruct H1 as (V1 & V2 & V3 & V4 & V5 & V6).
  assert (Hperm : am_tx_list e0 ++ (w_before w ++ s :: l) ++ (w_new w ++ w_cur w) ++ w_after w ++ lost
    ≡ₚ s :: am_tx_list e0 ++ (w_before w ++ l) ++ (w_new w ++ w_cur w) ++ w_after w ++ lost) by solve_Permutation.
  pose proof H3 as H3'. rewrite Hperm in H3'.
  destruct (am_free_acked_correct _ _ _ H3' H8 H9) as
    (e' & u & ev & Hfree & Hf & Hh & Hsame & Hsz & Hb & Hbs & _ & Hu & Hev & Hother & Hcase).
  exists e'. split; [done|].
  assert (Hsn : forall t, t ∈ am_tx_list e0 ++ (w_before w ++ l) ++ (w_new w ++ w_cur w) ++ w_after w ++ lost ->
    seg_sn (heap (am_common e')) t = seg_sn (heap (am_common (ctl_entity st))) t).
  { intros t Ht. eapply seg_sn_same; [done|done|]. eapply heap_inv_live; [exact H3'|]. by right. }
  destruct (H12 _ _ Hu) as (u0 & Hu0 & Eid & Edata).
  constructor; field_simpl; try done.
  - rewrite F1, F2, F3, F4, F5, F6, V2. by split_and!.
  - congruence.
  - intros t Ht. rewrite Hsn by done. apply H4. rewrite Hperm. by right.
  - set_solver.
  - destruct H7 as [|[? Hw]]; [by left|]. unfold w_wait in Hw. by rewrite Eo, Er in Hw.
  - congruence.
  - intros i v Hv. destruct (decide (i = seg_sdu s)) as [->|Hne].
    + destruct Hcase as [[_ Hn]|[_ (u' & Hu' & Ei' & Ed')]]; [congruence|]. simplify_eq.
      exists u0. split_and!; congruence.
    + rewrite Hother in Hv by done. by apply H12.
  - eapply ctl_reported_free; [exact H13|exact Hev|exact Hother|exact Hu|exact Hu0|exact Eid|].
    destruct Hcase as [|[-> (u' & Hu' & _)]]; [by left|right]. eauto.
Qed.

(** An acknowledged segment of the retransmit list. *)
Lemma ctl_move_free_retx st w s l :
  ctl_inv e0 lost st w -> w_cur w = s :: l ->
  exists e', am_free_acked (am_add_retx_size (ctl_entity st) (- am_retx_bytes (ctl_entity st) s)) s = Ok e' /\
    ctl_inv e0 lost (st <| cur_retx := tail (cur_retx st) |> <| ctl_entity := e' |>)
      (w <| w_cur := l |> <| w_freed := w_freed w ++ [s] |>).
Proof.
  intros H Er. pose proof H as [H1 H2 H3 H4 H5 H6 H7 H8 H9 H10 H11 H12 H13].
  rewrite Er in *. destruct H1 as (V1 & V2 & V3 & V4 & V5 & V6).
  assert (Hperm : am_tx_list e0 ++ (w_before w ++ w_rest w) ++ (w_new w ++ s :: l) ++ w_after w ++ lost
    ≡ₚ s :: am_tx_list e0 ++ (w_before w ++ w_rest w) ++ (w_new w ++ l) ++ w_after w ++ lost) by solve_Permutation.
  pose proof H3 as H3'. rewrite Hperm in H3'.
  set (e1 := am_add_retx_size _ _).
  assert (H1 : ctl_frame e1 = ctl_frame (ctl_entity st) /\
    heap (am_common e1) = heap (am_common (ctl_entity st)) /\ events (am_common e1) = events (am_common (ctl_entity st)) /\
    am_tx_size e1 = am_tx_size (ctl_entity st) /\
    bs_retx_size (bstatus (am_common e1)) = bs_retx_size (bstatus (am_common (ctl_entity st)))
      - am_seg_bytes (am_sn_field_length (ctl_entity st)) s) by done.
  clearbody e1. destruct H1 as (G1 & G2 & G3 & G4 & G5). rewrite <- G2, <- ?G3, <- ?G4 in *.
  destruct (am_free_acked_correct _ _ _ H3' H8 H9) as
    (e' & u & ev & Hfree & Hf & Hh & Hsame & Hsz & Hb & Hbs & _ & Hu & Hev & Hother & Hcase).
  exists e'. split; [done|].
  assert (Hsn : forall t, t ∈ am_tx_list e0 ++ (w_before w ++ w_rest w) ++ (w_new w ++ l) ++ w_after w ++ lost ->
    seg_sn (heap (am_common e')) t = seg_sn (heap (am_common e1)) t).
  { intros t Ht. eapply seg_sn_same; [done|done|]. eapply heap_inv_live; [exact H3'|]. by right. }
  destruct (H12 _ _ Hu) as (u0 & Hu0 & Eid & Edata).
  assert (Hlen : am_sn_field_length (ctl_entity st) = am_sn_field_length e0) by by apply (ctl_frame_eqs e0).
  constructor; field_simpl; try done.
  - rewrite V4. by split_and!.
  - congruence.
  - intros t Ht. rewrite Hsn by done. apply H4. rewrite Hperm. by right.
  - set_solver.
  - destruct H7 as [|[? Hw]]; [by left|done].
  - rewrite Hbs, G5, H10, Hlen, !zsum_app, zsum_cons. lia.
  - intros i v Hv. destruct (decide (i = seg_sdu s)) as [->|Hne].
    + destruct Hcase as [[_ Hn]|[_ (u' & Hu' & Ei' & Ed')]]; [congruence|]. simplify_eq.
      exists u0. split_and!; congruence.
    + rewrite Hother in Hv by done. by apply H12.
  - eapply (ctl_reported_free e1); [|exact Hev|exact Hother|exact Hu|exact Hu0|exact Eid|].
    + unfold ctl_reported in *. by rewrite G2, G3.
    + destruct Hcase as [|[-> (u' & Hu' & _)]]; [by left|right]. eauto.
Qed.

(** The other moves only change the lists. *)
Lemma ctl_move_lists st st' w w' :
  ctl_inv e0 lost st w -> ctl_entity st' = ctl_entity st -> end_wait_list st' = end_wait_list st ->
  (wait_before st' = w_before w' /\ wait_rest st' = w_rest w' /\ wait_over st' = w_over w' /\
   cur_retx st' = w_cur w' /\ new_retx st' = w_new w' /\ new_after st' = w_after w') ->
  w_before w' ++ w_rest w' = w_before w ++ w_rest w -> w_freed w' = w_freed w ->
  (w_new w' ++ w_cur w') ++ w_after w' = (w_new w ++ w_cur w) ++ w_after w ->
  (w_after w' = [] \/ w_cur w' = [] /\ w_wait w' = None) -> w_new w' ++ w_cur w' ⊆ w_new w ++ w_cur w ->
  (w_rest w = [] -> w_rest w' = []) ->
  ctl_inv e0 lost st' w'.
Proof.
  intros [H1 H2 H3 H4 H5 H6 H7 H8 H9 H10 H11 H12 H13] Ee Eend Hview Ew Efr Er Hafter Hsub Hrest.
  assert (Eall : forall a b, a ++ (w_before w' ++ w_rest w') ++ (w_new w' ++ w_cur w') ++ w_after w' ++ b
    = a ++ (w_before w ++ w_rest w) ++ (w_new w ++ w_cur w) ++ w_after w ++ b).
  { intros a b. rewrite Ew. do 2 f_equal.
    rewrite (app_assoc (w_new w' ++ w_cur w')), Er. by rewrite <- (app_assoc (w_new w ++ w_cur w)). }
  constructor; rewrite ?Ee, ?Efr, ?Eall, ?Ew; try done.
  - set_solver.
  - rewrite H10. specialize (Eall [] lost). rewrite Ew in Eall. cbn [app] in Eall.
    apply app_inv_head in Eall. by rewrite Eall.
  - rewrite Eend. destruct (end_wait_list st); [|done]. destruct H11. split; [done|by apply Hrest].
Qed.

Lemma sn_key_eqb a b :
  sn_range (am_sn_modulus e0) a -> sn_range (am_sn_modulus e0) b -> Z.eqb a b = Z.eqb (sn_key a) (sn_key b).
Proof.
  intros Ha Hb. apply eq_true_iff_eq. rewrite !Z.eqb_eq. split; [congruence|].
  intros E. by eapply am_key_inj.
Qed.

(** The tests of the code, as tests on keys. *)
Lemma ctl_tests st w s nsn a b :
  ctl_inv e0 lost st w -> s ∈ w_rest w ++ w_cur w -> sn_range (am_sn_modulus e0) nsn ->
  let sn := seg_sn (heap (am_common e0)) s in
  let e := ctl_entity st in
  am_seg_sn e s = Ok sn /\
  ((sn =? nsn) && so_overlap a b (seg_so s) (seg_so s + seg_size s - 1))%bool
  = overlap seg_key (sn_key nsn, a, b) s /\
  ((am_sn_compare_tx e sn nsn >? 0) || ((am_sn_compare_tx e sn nsn =? 0) && (seg_so s >? a)))
  = beyond seg_key (sn_key nsn, a, b) s /\
  Z.ltb (am_sn_compare_tx e sn ack_sn) 0 = Z.ltb (seg_key s) (sn_key ack_sn) /\
  Z.gtb (am_sn_compare_tx e sn ack_sn) 0 = Z.gtb (seg_key s) (sn_key ack_sn).
Proof.
  intros H Hs Hn sn e. destruct (ctl_seg_sn st w s H Hs) as [Hsn Hr].
  unfold e. rewrite !(ctl_compare st w) by done. fold (seg_key s). split; [done|].
  unfold overlap, beyond. rewrite (sn_key_eqb sn nsn) by done. fold (seg_key s).
  assert (Hgt : forall x y, (x - y >? 0) = (x >? y)) by (intros; rewrite !Z.gtb_ltb; apply eq_true_iff_eq; rewrite !Z.ltb_lt; lia).
  assert (Hlt : forall x y, (x - y <? 0) = (x <? y)) by (intros; apply eq_true_iff_eq; rewrite !Z.ltb_lt; lia).
  assert (Heq : forall x y, (x - y =? 0) = (x =? y)) by (intros; apply eq_true_iff_eq; rewrite !Z.eqb_eq; lia).
  by rewrite !Hgt, !Hlt, !Heq.
Qed.

Lemma ctl_wait_sim st w s l n :
  ctl_inv e0 lost st w -> w_over w = false -> w_rest w = s :: l -> sn_range (am_sn_modulus e0) n.1.1 ->
  exists st', process_wait_list_head st ack_sn n s
              = Ok (st', (walk_wait seg_key (sn_key ack_sn) (nack_key n) w s).2) /\
  ctl_inv e0 lost st' (walk_wait seg_key (sn_key ack_sn) (nack_key n) w s).1.
Proof.
  intros H Eo Er Hn. destruct n as [[nsn a] b]. cbn [fst snd] in Hn.
  destruct (ctl_tests st w s nsn a b H ltac:(rewrite Er; set_solver) Hn) as (Hsn & T1 & T2 & T3 & T4).
  destruct (ci_view _ _ _ _ H) as (V1 & V2 & V3 & V4 & V5 & V6).
  unfold process_wait_list_head, walk_wait, nack_key. cbn [fst snd]. rewrite Hsn. cbn [mbind outcome_bind].
  rewrite T1, T2, T3, T4, Er. cbn [tail]. clear T1 T2 T3 T4.
  destruct (overlap _ _ s); [|destruct (beyond _ _ s)]; [| |destruct (_ <? _); [|destruct (_ >? _)]]; cbn [fst snd].
  - destruct (ctl_move_retx st w s l H Eo Er) as (e' & Hc & Hinv). rewrite Hc. cbn [mbind outcome_bind].
    eexists. split; [reflexivity|exact Hinv].
  - eauto.
  - destruct (ctl_move_free_wait st w s l H Eo Er) as (e' & Hc & Hinv). rewrite Hc. cbn [mbind outcome_bind].
    eexists. split; [reflexivity|exact Hinv].
  - eexists. split; [done|]. eapply (ctl_move_lists st); [done..| | | | | | |]; field_simpl;
      rewrite ?V1, ?V2, ?V3, ?V4, ?V5, ?V6; try done.
    assert (Ea : w_after w = []); [|by left].
    destruct (ci_after _ _ _ _ H) as [|[_ Hw]]; [done|]. unfold w_wait in Hw. by rewrite Eo, Er in Hw.
  - eexists. split; [done|]. eapply (ctl_move_lists st); [done..| | | | | | |]; field_simpl;
      rewrite ?V1, ?V2, ?V3, ?V4, ?V5, ?V6, ?Er; try done; [by rewrite <- app_assoc|].
    assert (Ea : w_after w = []); [|by left].
    destruct (ci_after _ _ _ _ H) as [|[_ Hw]]; [done|]. unfold w_wait in Hw. by rewrite Eo, Er in Hw.
Qed.

Lemma ctl_cur_wait st w : ctl_inv e0 lost st w -> cur_wait st = w_wait w.
Proof. intros H. destruct (ci_view _ _ _ _ H) as (V1 & V2 & V3 & _). unfold cur_wait, w_wait. by rewrite V2, V3. Qed.

Lemma ctl_retx_sim st w s l n :
  ctl_inv e0 lost st w -> w_cur w = s :: l -> sn_range (am_sn_modulus e0) n.1.1 ->
  exists st', process_retransmit_list_head st ack_sn n s
              = Ok (st', (walk_retx seg_key (sn_key ack_sn) (nack_key n) w s).2) /\
  ctl_inv e0 lost st' (walk_retx seg_key (sn_key ack_sn) (nack_key n) w s).1.
Proof.
  intros H Er Hn. destruct n as [[nsn a] b]. cbn [fst snd] in Hn.
  destruct (ctl_tests st w s nsn a b H ltac:(rewrite Er; set_solver) Hn) as (Hsn & T1 & T2 & T3 & T4).
  destruct (ci_view _ _ _ _ H) as (V1 & V2 & V3 & V4 & V5 & V6).
  assert (Ea : w_after w = []).
  { destruct (ci_after _ _ _ _ H) as [|[Hw _]]; [done|]. by rewrite Er in Hw. }
  unfold process_retransmit_list_head, walk_retx, nack_key. cbn [fst snd]. rewrite Hsn. cbn [mbind outcome_bind].
  rewrite T1, T2, T3, (ctl_cur_wait st w H), Er. cbn [tail]. clear T1 T2 T3 T4.
  assert (Hkeep : ctl_inv e0 lost (ctl_push_retx (st <| cur_retx := tail (cur_retx st) |>) s)
    (w <| w_cur := l |> <| w_new := w_new w ++ [s] |> <| w_after := [] |>)).
  { eapply (ctl_move_lists st); [done..| | | | | | |]; unfold ctl_push_retx; field_simpl;
      rewrite ?V1, ?V2, ?V3, ?V4, ?V5, ?V6, ?Er, ?Ea; try done; [by rewrite <- (app_assoc _ [s])|by left|].
    by rewrite <- (app_assoc _ [s]). }
  destruct (overlap _ _ s); [|destruct (beyond _ _ s)]; [| |destruct (_ <? _); [|destruct (w_wait w) eqn:Ew]]; cbn [fst snd].
  - eauto.
  - eauto.
  - destruct (ctl_move_free_retx st w s l H Er) as (e' & Hc & Hinv). rewrite Hc. cbn [mbind outcome_bind].
    eexists. split; [reflexivity|exact Hinv].
  - eauto.
  - eexists. split; [done|]. eapply (ctl_move_lists st); [done..| | | | | | |]; field_simpl;
      rewrite ?V1, ?V2, ?V3, ?V4, ?V5, ?V6, ?Er, ?Ea; try done.
    + by rewrite !app_nil_r.
    + by right.
    + rewrite app_nil_r. set_solver.
Qed.

Lemma ctl_step_sim st w n :
  ctl_inv e0 lost st w -> sn_range (am_sn_modulus e0) n.1.1 ->
  exists st',
    match cur_wait st, head (cur_retx st) with
    | None, None => Ok (st, ListsOver)
    | None, Some r => process_retransmit_list_head st ack_sn n r
    | Some w, None => process_wait_list_head st ack_sn n w
    | Some w, Some r =>
        wsn ← am_seg_sn (ctl_entity st) w;
        rsn ← am_seg_sn (ctl_entity st) r;
        let cmp := am_sn_compare_tx (ctl_entity st) wsn rsn in
        if (cmp <? 0) || ((cmp =? 0) && (seg_so w <? seg_so r))
        then process_wait_list_head st ack_sn n w
        else process_retransmit_list_head st ack_sn n r
    end = Ok (st', (walk_step seg_key (sn_key ack_sn) (nack_key n) w).2) /\
    ctl_inv e0 lost st' (walk_step seg_key (sn_key ack_sn) (nack_key n) w).1.
Proof.
  intros H Hn. unfold walk_step. rewrite (ctl_cur_wait st w H).
  destruct (ci_view _ _ _ _ H) as (_ & _ & _ & -> & _).
  unfold w_wait. destruct (w_over w) eqn:Eo; [|destruct (w_rest w) as [|s l] eqn:Ew]; cbn [head];
    destruct (w_cur w) as [|r l'] eqn:Ec; cbn [head].
  - by exists st.
  - by eapply ctl_retx_sim.
  - by exists st.
  - by eapply ctl_retx_sim.
  - by eapply ctl_wait_sim.
  - destruct (ctl_seg_sn st w s H) as [-> Hs]; [rewrite Ew; set_solver|].
    destruct (ctl_seg_sn st w r H) as [-> Hr]; [rewrite Ec; set_solver|]. cbn [mbind outcome_bind].
    rewrite (ctl_compare st w) by done. fold (seg_key s) (seg_key r).
    assert (Et : (seg_key s - seg_key r <? 0) || ((seg_key s - seg_key r =? 0) && (seg_so s <? seg_so r))
      = ((seg_key s <? seg_key r) || ((seg_key s =? seg_key r) && (seg_so s <? seg_so r)))%bool).
    { f_equal; [|f_equal]; apply eq_true_iff_eq; rewrite ?Z.ltb_lt, ?Z.eqb_eq; lia. }
    rewrite Et. clear Et. destruct (_ || _); [by eapply ctl_wait_sim|by eapply ctl_retx_sim].
Qed.

Lemma ctl_next_sim fuel st w n w' j :
  ctl_inv e0 lost st w -> sn_range (am_sn_modulus e0) n.1.1 ->
  walk_next seg_key (sn_key ack_sn) fuel (nack_key n) w = Ok (w', j) ->
  exists st', process_next_pdu fuel st ack_sn n = Ok (st', j) /\ ctl_inv e0 lost st' w'.
Proof.
  revert st w. induction fuel as [|fuel IH]; intros st w H Hn Hw; [done|]. cbn [process_next_pdu walk_next] in *.
  destruct (ctl_step_sim st w n H Hn) as (st1 & Hstep & H1).
  destruct (walk_step _ _ _ w) as [w1 j1]. cbn [fst snd] in *.
  bind_with Hstep. destruct j1; [by eapply IH|by simplify_eq; eauto|by simplify_eq; eauto].
Qed.

(** The NACKs of a block, as keys. *)
Fixpoint nack_items (n : nack_t) (i : Z) (todo : nat) : list (Z * Z * Z) :=
  match todo with
  | O => []
  | S todo => cur_nack e0 n i :: nack_items n (i + 1) todo
  end.

Lemma cur_nack_range n i : 0 <= nack_sn n -> 0 <= i -> sn_range (am_sn_modulus e0) (cur_nack e0 n i).1.1.
Proof.
  intros Hn Hi. destruct (am_config_pos e0 e0_config). cbn [cur_nack fst].
  rewrite Z.rem_mod_nonneg by lia. apply Z.mod_pos_bound. lia.
Qed.

Lemma ctl_range_sim n todo st w i w' :
  ctl_inv e0 lost st w -> 0 <= nack_sn n -> 0 <= i ->
  walk_range seg_key (sn_key ack_sn) w (map nack_key (nack_items n i todo)) = Ok w' ->
  exists st', ctl_range st ack_sn n i todo = Ok st' /\ ctl_inv e0 lost st' w'.
Proof.
  intros H Hn. revert st w i H. induction todo as [|todo IH]; intros st w i H Hi Hw;
    cbn [nack_items map walk_range ctl_range] in *.
  - simplify_eq. by exists st.
  - destruct (walk_next _ _ _ _ w) as [[w1 j]|] eqn:Enext; [|done]. cbn [mbind outcome_bind] in Hw.
    assert (Efuel : ctl_fuel st = walk_fuel w).
    { unfold ctl_fuel, walk_fuel. by destruct (ci_view _ _ _ _ H) as (_ & -> & _ & -> & _). }
    assert (Ecur : cur_nack (ctl_entity st) n i = cur_nack e0 n i).
    { unfold cur_nack. by destruct (ctl_frame_eqs _ _ (ci_frame _ _ _ _ H)) as (_ & -> & _). }
    rewrite Efuel, Ecur.
    destruct (ctl_next_sim _ _ _ _ _ _ H (cur_nack_range n i Hn Hi) Enext) as (st1 & -> & H1).
    cbn [mbind outcome_bind]. destruct j; [eapply IH; [exact H1|lia|done]..|by simplify_eq; eauto].
Qed.

Lemma ctl_inv_entity st w e' :
  ctl_inv e0 lost st w -> ctl_frame e' = ctl_frame (ctl_entity st) ->
  am_common e' = am_common (ctl_entity st) -> am_tx_size e' = am_tx_size (ctl_entity st) ->
  ctl_inv e0 lost (st <| ctl_entity := e' |>) w.
Proof.
  intros [H1 H2 H3 H4 H5 H6 H7 H8 H9 H10 H11 H12 H13] Hf Hc Hs.
  constructor; field_simpl; rewrite ?Hc, ?Hs; try done; [congruence|].
  unfold ctl_reported in *. by rewrite Hc.
Qed.

(** ** The NACKs of a report *)

Fixpoint am_parse_nacks (fuel : nat) (len e1 : Z) (d : nr_rlc_pdu_decoder_t)
    : outcome (option (list nack_t)) :=
  if negb (z2b e1) then Ok (Some []) else
  match fuel with
  | O => Fault Diverge
  | S fuel =>
      nack ← am_read_nack true len d;
      match nack with
      | None => Ok None
      | Some (e1, n, d) => ns ← am_parse_nacks fuel len e1 d; Ok (option_map (cons n) ns)
      end
  end.

Lemma read_bits_unchecked d c r : read_bits true d c = Ok (Some r) -> read_bits false d c = Ok (Some r).
Proof.
  unfold read_bits. destruct (nr_rlc_pdu_decoder_get_bits d c) as [[v d']|]; [|done].
  cbn [mbind outcome_bind andb]. by destruct (dec_error d').
Qed.

Ltac unchecked_step :=
  match goal with
  | |- context [read_bits true ?d ?c] =>
      let E := fresh in
      destruct (read_bits true d c) as [[[? ?]|]|] eqn:E; [apply read_bits_unchecked in E; rewrite ?E|done|done]
  end.

Lemma am_read_nack_unchecked len d r :
  am_read_nack true len d = Ok (Some r) -> am_read_nack false len d = Ok (Some r).
Proof.
  unfold am_read_nack. do 5 unchecked_step. destruct (z2b _); [do 2 unchecked_step|]; (destruct (z2b _); [unchecked_step|]); done.
Qed.

Lemma am_read_status_unchecked len d cpt ack_sn' e1 d' :
  am_read_status true len d = Ok (Some (cpt, ack_sn', e1, d')) ->
  am_read_status false len d = Ok (Some (cpt, ack_sn', e1, d')).
Proof.
  unfold am_read_status. do 2 unchecked_step. cbn [andb]. destruct (negb _); [done|]. by do 3 unchecked_step.
Qed.

Definition nack_blocks (ns : list nack_t) : list (list (Z * Z * Z)) :=
  map (fun n => nack_items n 0 (Z.to_nat (nack_range n))) ns.

Lemma ctl_nacks_sim ns fuel st w e1 d w' :
  ctl_inv e0 lost st w -> am_parse_nacks fuel (am_sn_field_length e0) e1 d = Ok (Some ns) ->
  Forall (fun n => 0 <= nack_sn n) ns ->
  walk_blocks seg_key (sn_key ack_sn) w (map (map nack_key) (nack_blocks ns)) = Ok w' ->
  exists st', ctl_nacks fuel st ack_sn e1 d = Ok st' /\ ctl_inv e0 lost st' w'.
Proof.
  revert fuel st w e1 d. induction ns as [|n ns IH]; intros fuel st w e1 d H Hp Hns Hw;
    (destruct fuel as [|fuel]; cbn [am_parse_nacks ctl_nacks] in *;
     (destruct (negb (z2b e1)); [simplify_eq/=; try (by exists st)|try done]));
    destruct (am_read_nack true _ d) as [[[[e1' n'] d']|]|] eqn:Enack; try done; cbn [mbind outcome_bind] in Hp;
    destruct (am_parse_nacks fuel _ e1' d') as [[ns'|]|] eqn:Ep; simplify_eq/=.
  apply Forall_cons in Hns as [Hn Hns].
  destruct (ctl_frame_eqs _ _ (ci_frame _ _ _ _ H)) as (-> & _).
  rewrite (am_read_nack_unchecked _ _ _ Enack). cbn [mbind outcome_bind].
  destruct (walk_range _ _ w _) as [w1|] eqn:Er; [|done]. cbn [mbind outcome_bind] in Hw.
  destruct (ctl_range_sim n _ st w 0 w1 H Hn ltac:(done) Er) as (st1 & -> & H1). cbn [mbind outcome_bind].
  eapply IH; [|done|done|exact Hw].
  apply ctl_inv_entity; [done|unfold ctl_nack_poll; by destruct (_ && _)..].
Qed.

(** ** Acknowledgments *)

Lemma ctl_ack_wait_sim fuel st w w' :
  ctl_inv e0 lost st w -> walk_ack_wait seg_key (sn_key ack_sn) fuel w = Ok w' ->
  exists st', ctl_ack_wait fuel st ack_sn = Ok st' /\ ctl_inv e0 lost st' w'.
Proof.
  revert st w. induction fuel as [|fuel IH]; intros st w H Hw; [done|]. cbn [ctl_ack_wait walk_ack_wait] in *.
  rewrite (ctl_cur_wait st w H). destruct (w_wait w) as [s|] eqn:Ew; [|by simplify_eq; eauto].
  unfold w_wait in Ew. destruct (w_over w) eqn:Eo; [done|]. destruct (w_rest w) as [|s' l] eqn:Er; [done|].
  injection Ew as ->. destruct (ctl_seg_sn st w s H) as [-> Hs]; [rewrite Er; set_solver|].
  cbn [mbind outcome_bind]. rewrite (ctl_compare st w) by done. fold (seg_key s).
  destruct (seg_key s <? sn_key ack_sn) eqn:E; zify_bool.
  - rewrite (proj2 (Z.ltb_lt _ _)) by lia.
    destruct (ctl_move_free_wait st w s l H Eo Er) as (e' & Hc & Hinv).
    destruct (ctl_unlink_fields st s) as (F0 & _). rewrite F0, Hc. cbn [mbind outcome_bind].
    eapply IH; [exact Hinv|]. done.
  - rewrite (proj2 (Z.ltb_ge _ _)) by lia. simplify_eq. eauto.
Qed.

Lemma ctl_ack_retx_sim l st w :
  ctl_inv e0 lost (st <| cur_retx := l |>) (w <| w_cur := l |>) ->
  exists e' retx, ctl_ack_retx (ctl_entity st) l ack_sn = Ok (e', retx) /\
    ctl_inv e0 lost (st <| ctl_entity := e' |> <| cur_retx := retx |>)
      (walk_ack_retx seg_key (sn_key ack_sn) w l).
Proof.
  revert st w. induction l as [|s l IH]; intros st w H; cbn [ctl_ack_retx walk_ack_retx].
  - exists (ctl_entity st), []. split; [done|]. exact H.
  - destruct (ctl_seg_sn _ _ s H) as [Hsn Hs]; [field_simpl; set_solver|].
    change (ctl_entity (st <| cur_retx := s :: l |>)) with (ctl_entity st) in Hsn. rewrite Hsn.
    cbn [mbind outcome_bind]. pose proof (ctl_compare _ _ _ _ H Hs ack_range) as Hcmp.
    change (ctl_entity (st <| cur_retx := s :: l |>)) with (ctl_entity st) in Hcmp. rewrite Hcmp.
    fold (seg_key s). destruct (seg_key s <? sn_key ack_sn) eqn:E; zify_bool.
    + rewrite (proj2 (Z.ltb_lt _ _)) by lia.
      destruct (ctl_move_free_retx _ _ s l H eq_refl) as (e' & Hc & Hinv).
      change (ctl_entity (st <| cur_retx := s :: l |>)) with (ctl_entity st) in Hc. rewrite Hc.
      cbn [mbind outcome_bind].
      destruct (IH (st <| ctl_entity := e' |>) (w <| w_freed := w_freed w ++ [s] |>)) as (e2 & retx & He & Hinv2).
      { assert (E1 : st <| ctl_entity := e' |> <| cur_retx := l |>
          = st <| cur_retx := s :: l |> <| cur_retx := l |> <| ctl_entity := e' |>) by reflexivity.
        rewrite E1. exact Hinv. }
      change (ctl_entity (st <| ctl_entity := e' |>)) with e' in He. exists e2, retx. split; [done|]. exact Hinv2.
    + rewrite (proj2 (Z.ltb_ge _ _)) by lia. exists (ctl_entity st), (s :: l). split; [done|]. exact H.
Qed.
End report.
