(* ===== verification/RlcAmReport.v ===== *)
(** * Status reports: reading, checking, and the whole of [process_control_pdu]

    A report is read without fault whatever its bytes.  A report that is
    rejected leaves the entity as it is.  A report that is accepted keeps the
    invariant of the transmitter, and one whose NACKs are in order and below
    ACK_SN does to the lists what [walk_correct] says. *)

From S2P Require Import Prelude TimeStat RlcPdu RlcSdu RlcReassembly RlcEntity RlcAm RlcAmCtrl RlcAmSend RlcAmQueue RlcAmTx RlcAmWalk RlcAmCtrlProps.

(** ** Reading *)

Lemma read_bits_total d bits c :
  dec_repr d bits -> 0 <= c <= 31 ->
  read_bits true d c = Ok None \/
  exists v d' bits', read_bits true d c = Ok (Some (v, d')) /\ 0 <= v < 2 ^ c /\
    dec_repr d' bits' /\ zlen bits = zlen bits' + c.
Proof.
  intros Hd Hc. destruct (get_bits_total d bits c Hd Hc) as (r & d' & Hr & Hcase).
  unfold read_bits. rewrite Hr. cbn [mbind outcome_bind andb].
  destruct (dec_error d'); [by left|right]. destruct Hcase as (Hle & _ & Hv & Hd' & _).
  eexists _, _, _. split_and!; [done|apply Hv|apply Hv|exact Hd'|].
  rewrite zlen_drop; lia.
Qed.

Ltac read_step :=
  match goal with
  | Hd : dec_repr ?d ?bits |- context [read_bits true ?d ?c] =>
      let E := fresh "E" in
      destruct (read_bits_total d bits c Hd) as [E|(? & ? & ? & E & ? & ? & ?)];
      [try lia|rewrite E; try (by left)|rewrite E; clear Hd E]
  end.

Lemma am_read_status_total len d bits :
  dec_repr d bits -> len = 12 \/ len = 18 ->
  am_read_status true len d = Ok None \/
  exists ack_sn e1 d' bits', am_read_status true len d = Ok (Some (0, ack_sn, e1, d')) /\
    0 <= ack_sn < 2 ^ len /\ dec_repr d' bits' /\ zlen bits' <= zlen bits.
Proof.
  intros Hd Hlen. unfold am_read_status. do 2 read_step. cbn [andb].
  destruct (negb _) eqn:Ecpt; [by left|]. zify_bool. subst. do 2 read_step.
  destruct (len =? 18) eqn:El; read_step; right; do 4 eexists; (split; [done|]); split_and!; try done; lia.
Qed.

Lemma am_read_nack_total len d bits :
  dec_repr d bits -> len = 12 \/ len = 18 ->
  am_read_nack true len d = Ok None \/
  exists e1 n d' bits', am_read_nack true len d = Ok (Some (e1, n, d')) /\
    0 <= nack_sn n < 2 ^ len /\ 0 <= nack_range n < 256 /\
    dec_repr d' bits' /\ zlen bits' + 16 <= zlen bits.
Proof.
  intros Hd Hlen. unfold am_read_nack. do 4 read_step.
  assert (Er : 0 <= (if len =? 18 then 3 else 1) <= 3) by (destruct (len =? 18); lia).
  assert (16 <= len + 3 + (if len =? 18 then 3 else 1)) by (destruct Hlen as [-> | ->]; cbn; lia).
  set (r := if len =? 18 then 3 else 1) in *. clearbody r. read_step.
  destruct (z2b _); [do 2 read_step|]; (destruct (z2b _); [read_step|]);
    right; do 4 eexists; (split; [done|]); cbn [nack_sn nack_range]; split_and!; try done; lia.
Qed.

(** The NACKs read fit the fuel. *)
Lemma am_parse_nacks_total fuel len e1 d bits :
  dec_repr d bits -> len = 12 \/ len = 18 -> zlen bits < 16 * Z.of_nat fuel ->
  exists r, am_parse_nacks fuel len e1 d = Ok r /\
    forall ns, r = Some ns -> Forall (fun n => 0 <= nack_sn n < 2 ^ len /\ 0 <= nack_range n < 256) ns.
Proof.
  revert e1 d bits. induction fuel as [|fuel IH]; intros e1 d bits Hd Hlen Hf.
  - pose proof (zlen_nonneg bits). lia.
  - cbn [am_parse_nacks]. destruct (negb _).
    { eexists. split; [done|]. by intros ns [= <-]. }
    destruct (am_read_nack_total len d bits Hd Hlen) as [-> | (e1' & n & d' & bits' & -> & H1 & H2 & Hd' & Hz)];
      cbn [mbind outcome_bind]; [by exists None|].
    destruct (IH e1' d' bits' Hd' Hlen ltac:(lia)) as (r & -> & Hr). cbn [mbind outcome_bind].
    eexists. split; [done|]. intros ns. destruct r as [ns'|]; [|done]. intros [= <-].
    constructor; [done|by apply Hr].
Qed.

(** ** The checks *)

(** Since [prev_nack_sn] stays at -1, all that is checked is the upper bound. *)
Lemma am_check_range_eq e ack_sn n i todo :
  am_check_range e ack_sn n (-1) 0 i todo =
  forallb (fun c => negb (am_sn_compare_tx e c.1.1 ack_sn >? 0)) (nack_items e n i todo).
Proof.
  revert i. induction todo as [|todo IH]; intros i; [done|].
  cbn [am_check_range nack_items forallb]. destruct (cur_nack e n i) as [[sn a] b] eqn:E.
  cbn [negb Z.eqb andb fst]. destruct (_ >? 0); [done|]. apply IH.
Qed.

Definition am_nacks_below (e : nr_rlc_entity_am_t) (ack_sn : Z) (ns : list nack_t) : bool :=
  forallb (fun c => negb (am_sn_compare_tx e c.1.1 ack_sn >? 0)) (concat (nack_blocks e ns)).

Lemma am_check_nacks_correct fuel e ack_sn e1 d r :
  am_parse_nacks fuel (am_sn_field_length e) e1 d = Ok r ->
  exists b, am_check_nacks fuel e ack_sn e1 d = Ok b /\
    (b = true <-> exists ns, r = Some ns /\ am_nacks_below e ack_sn ns = true).
Proof.
  revert e1 d r. induction fuel as [|fuel IH]; intros e1 d r Hp; cbn [am_parse_nacks am_check_nacks] in *.
  { destruct (negb _); [|done]. injection Hp as <-. exists true. split; [done|]. split; [|done]. by exists []. }
  destruct (negb _).
  { injection Hp as <-. exists true. split; [done|]. split; [|done]. by exists []. }
  destruct (am_read_nack true _ d) as [[[[e1' n] d']|]|]; cbn [mbind outcome_bind] in *; [| |done].
  2: { injection Hp as <-. exists false. split; [done|]. split; [done|]. by intros (? & ? & ?). }
  destruct (am_parse_nacks fuel _ e1' d') as [r'|] eqn:Ep; [|done]. injection Hp as <-.
  rewrite am_check_range_eq. destruct (IH e1' d' r' Ep) as (b & Hb & Hiff).
  destruct (forallb _ _) eqn:Ef.
  - exists b. split; [done|]. rewrite Hiff. unfold am_nacks_below, nack_blocks.
    split.
    + intros (ns & -> & Hns). exists (n :: ns). split; [done|]. cbn [map concat].
      by rewrite forallb_app, Ef.
    + intros (ns & Hns & Hb'). destruct r' as [ns'|]; [|done]. injection Hns as <-. exists ns'.
      cbn [map concat] in Hb'. rewrite forallb_app in Hb'. by apply andb_true_iff in Hb' as [_ ?].
  - exists false. split; [done|]. split; [done|]. intros (ns & Hns & Hb'). destruct r' as [ns'|]; [|done].
    injection Hns as <-. unfold am_nacks_below, nack_blocks in Hb'. cbn [map concat] in Hb'.
    rewrite forallb_app, Ef in Hb'. done.
Qed.

(** ** The report *)

(** ACK_SN and the NACKs, [None] when the PDU is too short or not a status
    report. *)
Definition am_report (e : nr_rlc_entity_am_t) (buffer : list Z) (size : Z)
    : outcome (option (Z * list nack_t)) :=
  header ← am_read_status true (am_sn_field_length e) (nr_rlc_pdu_decoder_init buffer size);
  match header with
  | None => Ok None
  | Some (_, ack_sn, e1, d) =>
      ns ← am_parse_nacks (am_nacks_fuel size) (am_sn_field_length e) e1 d;
      Ok (option_map (pair ack_sn) ns)
  end.

(** What the code accepts: ACK_SN not after TX_Next, no NACK after ACK_SN. *)
Definition am_report_ok (e : nr_rlc_entity_am_t) (ack_sn : Z) (ns : list nack_t) : bool :=
  negb (am_sn_compare_tx e ack_sn (am_tx_next e) >? 0) && am_nacks_below e ack_sn ns.

Definition am_report_ranges (e : nr_rlc_entity_am_t) (ack_sn : Z) (ns : list nack_t) : Prop :=
  sn_range (am_sn_modulus e) ack_sn /\
  Forall (fun n => sn_range (am_sn_modulus e) (nack_sn n) /\ 0 <= nack_range n < 256) ns.

Lemma am_validate_correct e buffer size :
  am_config_ok e -> size = zlen buffer ->
  exists r valid, am_report e buffer size = Ok r /\ am_validate_control_pdu e buffer size = Ok valid /\
    (valid = true <-> exists ack_sn ns, r = Some (ack_sn, ns) /\ am_report_ok e ack_sn ns = true) /\
    (forall ack_sn ns, r = Some (ack_sn, ns) -> am_report_ranges e ack_sn ns).
Proof.
  intros [Hlen HM _] Hsize. unfold am_report, am_validate_control_pdu, am_report_ok, am_report_ranges, sn_range.
  rewrite HM. pose proof (dec_repr_init buffer size Hsize) as Hd.
  destruct (am_read_status_total _ _ _ Hd Hlen) as [-> | (ack_sn & e1 & d & bits & -> & Hack & Hd' & Hz)];
    cbn [mbind outcome_bind].
  { exists None, false. split_and!; try done. split; [done|]. by intros (? & ? & ? & ?). }
  destruct (am_parse_nacks_total (am_nacks_fuel size) _ e1 d bits Hd' Hlen) as (r & Hp & Hr).
  { unfold am_nacks_fuel, zlen in *. rewrite length_buffer_bits in Hz. lia. }
  rewrite Hp. cbn [mbind outcome_bind].
  destruct (am_check_nacks_correct _ e ack_sn e1 d r Hp) as (b & Hb & Hiff).
  exists (option_map (pair ack_sn) r). destruct (_ >? 0) eqn:Egt.
  - exists false. split_and!; [done|done| |].
    + split; [done|]. intros (a & ns & Hns & Hok). destruct r as [ns'|]; [|done]. injection Hns as <- <-.
      rewrite Egt in Hok. done.
    + intros a ns Hns. destruct r as [ns'|]; [|done]. injection Hns as <- <-. by split; [|apply Hr].
  - exists b. split_and!; [done|done| |].
    + rewrite Hiff. split.
      * intros (ns & -> & Hok). exists ack_sn, ns. by rewrite Egt.
      * intros (a & ns & Hns & Hok). destruct r as [ns'|]; [|done]. injection Hns as <- <-.
        exists ns'. rewrite Egt in Hok. by split.
    + intros a ns Hns. destruct r as [ns'|]; [|done]. injection Hns as <- <-. by split; [|apply Hr].
Qed.

(** ** The walk ends, and keeps the lists in order *)

Section walk.
Context (k : nr_rlc_sdu_segment_t -> Z) (ka : Z).

Lemma walk_next_sorted fuel n w w' j :
  ctl_sorted k w -> walk_next k ka fuel n w = Ok (w', j) -> ctl_sorted k w'.
Proof.
  revert w. induction fuel as [|fuel IH]; intros w Hs Hw; [done|]. cbn [walk_next] in Hw.
  destruct (walk_step k ka n w) as [w1 j1] eqn:E. pose proof (walk_step_sorted _ _ _ _ _ _ Hs E) as H1.
  destruct j1; [by eapply IH|by simplify_eq..].
Qed.

Lemma walk_range_total ns w :
  ctl_sorted k w -> exists w', walk_range k ka w ns = Ok w' /\ ctl_sorted k w'.
Proof.
  revert w. induction ns as [|n ns IH]; intros w Hs; cbn [walk_range]; [by exists w|].
  destruct (walk_next_total k ka (walk_fuel w) n w (walk_fuel_enough w)) as (w1 & j & Hw & _).
  rewrite Hw. cbn [mbind outcome_bind]. pose proof (walk_next_sorted _ _ _ _ _ Hs Hw) as H1.
  destruct j; eauto.
Qed.

Lemma walk_blocks_total blocks w :
  ctl_sorted k w -> exists w', walk_blocks k ka w blocks = Ok w' /\ ctl_sorted k w'.
Proof.
  revert w. induction blocks as [|ns blocks IH]; intros w Hs; cbn [walk_blocks]; [by exists w|].
  destruct (walk_range_total ns w Hs) as (w1 & -> & H1). cbn [mbind outcome_bind]. by apply IH.
Qed.

Lemma walk_ack_wait_total fuel w :
  (length (w_rest w) < fuel)%nat -> ctl_sorted k w ->
  exists w', walk_ack_wait k ka fuel w = Ok w' /\ ctl_sorted k w'.
Proof.
  revert w. induction fuel as [|fuel IH]; intros w Hf Hs; [lia|]. cbn [walk_ack_wait].
  destruct (w_wait w) as [s|] eqn:Ew; [|eauto]. destruct (_ <? _); [|eauto].
  unfold w_wait in Ew. destruct (w_over w) eqn:Eo; [done|]. destruct (w_rest w) as [|t l] eqn:Er; [done|].
  apply IH; field_simpl; cbn [tail length] in *; [lia|].
  destruct Hs as [H1 H2 H3]. rewrite Er in *. constructor; field_simpl; cbn [tail]; [|done|].
  - by eapply StronglySorted_remove.
  - intros _ x y Hx Hy. apply H3; set_solver.
Qed.

Lemma walk_ack_retx_sorted cur w :
  ctl_sorted k (w <| w_cur := cur |>) -> ctl_sorted k (walk_ack_retx k ka w cur).
Proof.
  revert w. induction cur as [|s l IH]; intros w Hs; cbn [walk_ack_retx]; [done|].
  destruct (_ <? _); [|done]. apply IH. destruct Hs as [H1 H2 H3]. field_simpl_all.
  constructor; field_simpl; try done. by eapply StronglySorted_remove.
Qed.

(** The rest of the retransmit list is dropped only for a NACK that is not
    before ACK_SN. *)
Definition nacks_acked (ns : list (Z * Z * Z)) : Prop := Forall (fun n => n.1.1 < ka) ns.

Lemma walk_step_after n w w' j :
  n.1.1 < ka -> w_after w = [] -> walk_step k ka n w = (w', j) -> w_after w' = [].
Proof.
  destruct n as [[kn a] b]. cbn [fst]. intros Hn Ha. unfold walk_step, walk_wait, walk_retx, beyond.
  destruct (w_wait w) as [s|], (head (w_cur w)) as [r|]; intros Hstep; repeat case_if; simplify_eq; field_simpl;
    try done; lia.
Qed.

Lemma walk_next_after fuel n w w' j :
  n.1.1 < ka -> w_after w = [] -> walk_next k ka fuel n w = Ok (w', j) -> w_after w' = [].
Proof.
  intros Hn. revert w. induction fuel as [|fuel IH]; intros w Ha Hw; [done|]. cbn [walk_next] in Hw.
  destruct (walk_step k ka n w) as [w1 j1] eqn:E. pose proof (walk_step_after _ _ _ _ Hn Ha E) as H1.
  destruct j1; [by eapply IH|by simplify_eq..].
Qed.

Lemma walk_range_after ns w w' :
  nacks_acked ns -> w_after w = [] -> walk_range k ka w ns = Ok w' -> w_after w' = [].
Proof.
  intros Hns. revert w. induction Hns as [|n ns Hn _ IH]; intros w Ha Hw; cbn [walk_range] in Hw; [by simplify_eq|].
  destruct (walk_next k ka _ n w) as [[w1 j]|] eqn:E; [|done]. cbn [mbind outcome_bind] in Hw.
  pose proof (walk_next_after _ _ _ _ _ Hn Ha E) as H1. destruct j; [by eapply IH..|by simplify_eq].
Qed.

Lemma walk_blocks_after blocks w w' :
  nacks_acked (concat blocks) -> w_after w = [] -> walk_blocks k ka w blocks = Ok w' -> w_after w' = [].
Proof.
  revert w. induction blocks as [|ns blocks IH]; intros w Hns Ha Hw; cbn [walk_blocks] in Hw; [by simplify_eq|].
  apply Forall_app in Hns as [Hns Hbl].
  destruct (walk_range k ka w ns) as [w1|] eqn:E; [|done]. cbn [mbind outcome_bind] in Hw.
  exact (IH w1 Hbl (walk_range_after _ _ _ Hns Ha E) Hw).
Qed.

Lemma walk_all_after blocks w w' :
  nacks_acked (concat blocks) -> w_after w = [] -> walk_all k ka w blocks = Ok w' -> w_after w' = [].
Proof.
  intros Hns Ha. unfold walk_all. destruct (walk_blocks k ka w blocks) as [w1|] eqn:E1; [|done].
  pose proof (walk_blocks_after _ _ _ Hns Ha E1) as H1. cbn [mbind outcome_bind].
  assert (Hwait : forall fuel w w', w_after w = [] -> walk_ack_wait k ka fuel w = Ok w' -> w_after w' = []).
  { induction fuel as [|fuel IH]; intros x x' Hx Hw; [done|]. cbn [walk_ack_wait] in Hw.
    destruct (w_wait x); [|by simplify_eq]. case_if; [|by simplify_eq]. by eapply IH; [|exact Hw]. }
  assert (Hretx : forall cur w, w_after w = [] -> w_after (walk_ack_retx k ka w cur) = []).
  { induction cur as [|s cur IH]; intros x Hx; cbn [walk_ack_retx]; [done|]. case_if; [by apply IH|done]. }
  destruct (walk_ack_wait k ka _ w1) as [w2|] eqn:E2; [|done]. cbn [mbind outcome_bind]. intros [= <-].
  eauto.
Qed.

End walk.

(** ** A whole report *)

Section report.
Context (e0 : nr_rlc_entity_am_t) (lost : list nr_rlc_sdu_segment_t) (ack_sn : Z).
Context (e0_config : am_config_ok e0) (e0_inv : am_tx_inv e0 lost).
Context (ack_range : sn_range (am_sn_modulus e0) ack_sn).

Abbreviation key := (seg_key e0).
Abbreviation kack := (sn_key e0 ack_sn).

Definition walk0 : walk := mk_walk [] (am_wait_list e0) false (am_retransmit_list e0) [] [] [].

Lemma seg_before_key_le l :
  StronglySorted (seg_before (am_sn_modulus e0) (heap (am_common e0)) (am_tx_next_ack e0)) l ->
  StronglySorted (key_le key) l.
Proof.
  intros H. induction H as [|s l Hl IH Hs]; constructor; [done|].
  eapply Forall_impl; [exact Hs|]. intros t [Ht|[E Ht]]; [by left|right].
  split; [|done]. unfold seg_key. by rewrite E.
Qed.

Lemma walk0_sorted : ctl_sorted key walk0.
Proof.
  constructor; cbn [w_before w_rest w_new w_cur walk0 app].
  - apply seg_before_key_le, (ti_q _ _ e0_inv).
  - apply seg_before_key_le, (ti_q _ _ e0_inv).
  - intros _ s t Hs. by apply not_elem_of_nil in Hs.
Qed.

(** Stopping t_poll_retransmit is not seen by the walk. *)
Lemma ctl_inv0 e :
  ctl_frame e = ctl_frame e0 -> am_common e = am_common e0 -> am_tx_size e = am_tx_size e0 ->
  ctl_inv e0 lost (mk_ctl e [] (am_wait_list e0) false None (am_retransmit_list e0) [] []) walk0.
Proof.
  intros Hf Hc Hsz. destruct e0_inv as [Hq H2 H3 H4 H5 H6 H7 H8].
  constructor; cbn [walk0 w_before w_rest w_over w_cur w_new w_after w_freed app ctl_entity wait_before wait_rest
    wait_over end_wait_list cur_retx new_retx new_after]; rewrite ?Hc, ?Hsz; try done.
  - apply Hq.
  - set_solver.
  - by left.
  - intros i u Hu. by exists u.
  - exists []. rewrite app_nil_r, Hc. split; [done|]. split; [set_solver|]. intros s u Hs. set_solver.
Qed.

Lemma ctl_walk {A} (K : ctl_t -> outcome A) e fuel e1 d ns :
  ctl_frame e = ctl_frame e0 -> am_common e = am_common e0 -> am_tx_size e = am_tx_size e0 ->
  am_parse_nacks fuel (am_sn_field_length e0) e1 d = Ok (Some ns) ->
  Forall (fun n => 0 <= nack_sn n) ns ->
  exists st w,
    (st ← ctl_nacks fuel (mk_ctl e [] (am_wait_list e0) false None (am_retransmit_list e0) [] []) ack_sn e1 d;
     st ← ctl_ack_wait (S (length (wait_rest st))) st ack_sn;
     '(e, retx) ← ctl_ack_retx (ctl_entity st) (cur_retx st) ack_sn;
     K (st <| ctl_entity := e |> <| cur_retx := retx |>)) = K st /\
    ctl_inv e0 lost st w /\ ctl_sorted key w /\
    walk_all key kack walk0 (map (map (nack_key e0)) (nack_blocks e0 ns)) = Ok w.
Proof.
  intros Hf Hc Hsz Hp Hns. unfold walk_all.
  destruct (walk_blocks_total key kack (map (map (nack_key e0)) (nack_blocks e0 ns)) walk0 walk0_sorted)
    as (w1 & Hw1 & Hs1).
  destruct (ctl_nacks_sim e0 lost ack_sn e0_config e0_inv ack_range ns fuel _ walk0 e1 d w1
    (ctl_inv0 e Hf Hc Hsz) Hp Hns Hw1) as (st1 & -> & H1).
  rewrite Hw1. cbn [mbind outcome_bind].
  destruct (walk_ack_wait_total key kack (S (length (w_rest w1))) w1 ltac:(lia) Hs1) as (w2 & Hw2 & Hs2).
  assert (Er : wait_rest st1 = w_rest w1) by apply (ci_view _ _ _ _ H1).
  destruct (ctl_ack_wait_sim e0 lost ack_sn e0_config e0_inv ack_range _ st1 w1 w2 H1 Hw2) as (st2 & Hst2 & H2).
  rewrite Er, Hst2, Hw2. cbn [mbind outcome_bind].
  assert (Ec : cur_retx st2 = w_cur w2) by apply (ci_view _ _ _ _ H2).
  destruct (ctl_ack_retx_sim e0 lost ack_sn e0_config e0_inv ack_range (w_cur w2) st2 w2) as (e' & retx & Hr & H3).
  { assert (E1 : st2 <| cur_retx := w_cur w2 |> = st2) by (rewrite <- Ec; by destruct st2).
    rewrite E1. by destruct w2. }
  rewrite Ec, Hr. cbn [mbind outcome_bind]. eexists _, _. split; [done|].
  split; [exact H3|]. split; [|done]. apply walk_ack_retx_sorted. by destruct w2.
Qed.

(** What is dropped with the rest of the retransmit list. *)
Lemma ctl_finish_inv st w :
  ctl_inv e0 lost st w -> ctl_sorted key w ->
  am_tx_inv (ctl_finish st) (w_after w ++ lost) /\
  am_wait_list (ctl_finish st) = w_before w ++ w_rest w /\
  am_retransmit_list (ctl_finish st) = w_new w ++ w_cur w /\
  ctl_frame ((ctl_finish st) <| am_wait_end := am_wait_end e0 |>) = ctl_frame e0 /\
  am_common (ctl_finish st) = am_common (ctl_entity st).
Proof.
  intros [H1 H2 H3 H4 H5 H6 H7 H8 H9 H10 H11 H12 H13] [S1 S2 _].
  destruct H1 as (V1 & V2 & V3 & V4 & V5 & V6). destruct e0_inv as [Hq T2 T3 T4 T5 T6 T7 T8].
  set (h := heap (am_common (ctl_entity st))) in *. set (h0 := heap (am_common e0)) in *.
  assert (Hsent : forall s, s ∈ (w_before w ++ w_rest w) ++ (w_new w ++ w_cur w) ->
    s ∈ am_wait_list e0 ++ am_retransmit_list e0) by set_solver.
  assert (Esn : forall s, s ∈ am_tx_list e0 ++ (w_before w ++ w_rest w) ++ w_new w ++ w_cur w ->
    seg_sn h s = seg_sn h0 s) by (intros s Hs; apply H4; set_solver).
  assert (Hsort : forall l, (forall s, s ∈ l -> s ∈ am_wait_list e0 ++ am_retransmit_list e0) ->
    StronglySorted (key_le key) l -> StronglySorted (seg_before (am_sn_modulus e0) h0 (am_tx_next_ack e0)) l).
  { intros l Hl Hs. induction Hs as [|s l Hs IH Hall]; constructor; [apply IH; set_solver|].
    rewrite Forall_forall in Hall |- *. intros t Ht.
    destruct (Hall t Ht) as [Hlt|[Hk Ho]]; [by left|right]. split; [|done].
    eapply am_key_inj; [| |exact Hk]; eapply am_q_sent; try exact Hq; apply Hl; set_solver. }
  assert (Hqueue : am_q (am_sn_modulus e0) (am_window_size e0) h (am_tx_list e0) (w_before w ++ w_rest w)
    (w_new w ++ w_cur w) (w_after w ++ lost) (am_tx_next e0) (am_tx_next_ack e0)).
  { eapply am_q_sub; [exact Hq| | | | |].
    - done.
    - intros s Hs. exists s. split_and!; [|done|by apply Esn].
      apply elem_of_app in Hs as [Hs|Hs]; apply elem_of_app; [by left|right; by apply Hsent].
    - intros s Hs. rewrite Esn by set_solver. eapply in_flight_numbered, am_q_sent; [exact Hq|by apply Hsent].
    - eapply seg_before_ext; [|apply Hsort, S1; set_solver]. intros s Hs. apply Esn. set_solver.
    - eapply seg_before_ext; [|apply Hsort, S2; set_solver]. intros s Hs. apply Esn. set_solver. }
  assert (Ef : forall x, ctl_frame ((ctl_finish st) <| am_wait_end := x |>) = ctl_frame ((ctl_entity st) <| am_wait_end := x |>)).
  { intros x. unfold ctl_finish. field_simpl. by destruct (end_wait_list st). }
  assert (Ew : am_wait_list (ctl_finish st) = w_before w ++ w_rest w).
  { unfold ctl_finish. field_simpl. destruct (end_wait_list st); field_simpl; by rewrite V1, V2. }
  assert (Er : am_retransmit_list (ctl_finish st) = w_new w ++ w_cur w).
  { unfold ctl_finish. field_simpl. destruct (end_wait_list st); field_simpl; by rewrite V4, V5. }
  assert (Ec : am_common (ctl_finish st) = am_common (ctl_entity st)).
  { unfold ctl_finish. field_simpl. by destruct (end_wait_list st). }
  assert (Es : am_tx_size (ctl_finish st) = am_tx_size (ctl_entity st)).
  { unfold ctl_finish. field_simpl. by destruct (end_wait_list st). }
  assert (Eend : am_wait_end (ctl_entity st) = am_wait_end e0) by by apply (ctl_frame_eqs _ _ H2).
  pose proof (Ef (am_wait_end e0)) as E0.
  assert (Ee : ctl_frame ((ctl_entity st) <| am_wait_end := am_wait_end e0 |>) = ctl_frame e0).
  { rewrite <- H2. unfold ctl_frame, am_rx_state. field_simpl. by rewrite Eend. }
  rewrite Ee in E0. split_and!; [|done..]. clear Ee Ef H2.
  pose proof E0 as E1. unfold ctl_frame, am_rx_state in E1. field_simpl_all. rewrite Ec in E1. simplify_eq.
  constructor; unfold am_queues, common_ok in *; rewrite ?Ew, ?Er, ?Ec, ?Es; try congruence.
  - fold h. congruence.
  - done.
  - unfold ctl_finish. field_simpl.
    destruct (end_wait_list st) as [p|] eqn:Ep; field_simpl; [by destruct H11|].
    by rewrite Eend.
  - done.
Qed.

End report.

(** ** The new start of the window *)

(** [sn] is the oldest of [ack_sn] and of the SNs waiting or retransmitted. *)
Record am_oldest (e : nr_rlc_entity_am_t) (ack_sn sn : Z) : Prop := {
  ao_range : sn_range (am_sn_modulus e) sn;
  ao_ack : am_sn_compare_tx e sn ack_sn <= 0;
  ao_le : Forall (fun s => am_sn_compare_tx e sn (seg_sn (heap (am_common e)) s) <= 0)
            (am_wait_list e ++ am_retransmit_list e);
  ao_is : sn = ack_sn \/
          exists s, s ∈ am_wait_list e ++ am_retransmit_list e /\ sn = seg_sn (heap (am_common e)) s;
}.

Lemma am_min_sn_correct e lost l x :
  am_tx_inv e lost -> sn_range (am_sn_modulus e) x -> l ⊆ am_wait_list e ++ am_retransmit_list e ->
  StronglySorted (seg_before (am_sn_modulus e) (heap (am_common e)) (am_tx_next_ack e)) l ->
  exists sn, am_min_sn e l x = Ok sn /\ sn_range (am_sn_modulus e) sn /\
    am_sn_compare_tx e sn x <= 0 /\
    Forall (fun s => am_sn_compare_tx e sn (seg_sn (heap (am_common e)) s) <= 0) l /\
    (sn = x \/ exists s, s ∈ l /\ sn = seg_sn (heap (am_common e)) s).
Proof.
  intros [Hq _ _ _ _ _ _ _] Hx Hl Hs. pose proof (q_ack _ _ _ _ _ _ _ _ _ Hq) as Ha.
  assert (Hr : forall s, s ∈ l -> sn_range (am_sn_modulus e) (seg_sn (heap (am_common e)) s)).
  { intros s Hin. eapply am_q_sent; [exact Hq|]. by apply Hl. }
  destruct l as [|s l]; cbn [am_min_sn].
  { exists x. split_and!; try done; [unfold am_sn_compare_tx; lia|by left]. }
  rewrite am_seg_sn_ok.
  2: { eapply am_q_sent; [exact Hq|]. apply Hl. set_solver. }
  cbn [mbind outcome_bind]. apply StronglySorted_inv in Hs as [_ Hs]. rewrite Forall_forall in Hs.
  pose proof (Hr s ltac:(set_solver)) as Hsr.
  assert (Hall : Forall (fun t => am_sn_compare_tx e (seg_sn (heap (am_common e)) s) (seg_sn (heap (am_common e)) t) <= 0) (s :: l)).
  { rewrite Forall_forall. intros t Ht. pose proof (Hr t Ht). rewrite (am_sn_compare_tx_key (am_sn_modulus e)) by done.
    apply elem_of_cons in Ht as [->|Ht]; [lia|].
    destruct (Hs t Ht) as [|[E _]]; [lia|]. rewrite E. lia. }
  destruct (_ <? 0) eqn:E; zify_bool; eexists; (split; [done|]); split_and!; try done; try (unfold am_sn_compare_tx; lia).
  - lia.
  - right. exists s. split; [set_solver|done].
  - rewrite Forall_forall in Hall |- *. intros t Ht. pose proof (Hall t Ht) as Hle. pose proof (Hr t Ht).
    rewrite !(am_sn_compare_tx_key (am_sn_modulus e)) in * by done. lia.
Qed.

Lemma am_sn_compare_tx_trans e a b c :
  am_config_ok e -> sn_range (am_sn_modulus e) (am_tx_next_ack e) ->
  sn_range (am_sn_modulus e) a -> sn_range (am_sn_modulus e) b -> sn_range (am_sn_modulus e) c ->
  am_sn_compare_tx e a b <= 0 -> am_sn_compare_tx e b c <= 0 -> am_sn_compare_tx e a c <= 0.
Proof. intros _ ? ? ? ?. rewrite !(am_sn_compare_tx_key (am_sn_modulus e)) by done. lia. Qed.

Lemma am_update_tx_next_ack_correct e lost ack_sn :
  am_config_ok e -> am_tx_inv e lost -> sn_range (am_sn_modulus e) ack_sn ->
  am_sn_compare_tx e ack_sn (am_tx_next e) <= 0 ->
  exists sn, am_update_tx_next_ack e ack_sn = Ok (e <| am_tx_next_ack := sn |>) /\ am_oldest e ack_sn sn.
Proof.
  intros Hc Hinv Hack Hle. pose proof (ti_q _ _ Hinv) as Hq. pose proof Hq as [_ Hnx Ha _ _ _ _ Hw Hr].
  unfold am_update_tx_next_ack.
  destruct (am_min_sn_correct e lost (am_wait_list e) (am_tx_next e) Hinv Hnx ltac:(set_solver) Hw)
    as (x & -> & Hx & Hx1 & Hx2 & Hx3). cbn [mbind outcome_bind].
  destruct (am_min_sn_correct e lost (am_retransmit_list e) x Hinv Hx ltac:(set_solver) Hr)
    as (y & -> & Hy & Hy1 & Hy2 & Hy3). cbn [mbind outcome_bind].
  assert (Htr : forall a b c, sn_range (am_sn_modulus e) a -> sn_range (am_sn_modulus e) b ->
    sn_range (am_sn_modulus e) c -> am_sn_compare_tx e a b <= 0 -> am_sn_compare_tx e b c <= 0 ->
    am_sn_compare_tx e a c <= 0) by (intros; eapply am_sn_compare_tx_trans; [| | |exact H0| | |]; done).
  assert (Hall : Forall (fun s => am_sn_compare_tx e y (seg_sn (heap (am_common e)) s) <= 0)
            (am_wait_list e ++ am_retransmit_list e)).
  { apply Forall_app. split; [|done]. rewrite Forall_forall in Hx2 |- *. intros s Hs.
    apply (Htr y x); try done; [|by apply Hx2]. eapply am_q_sent; [exact Hq|]. set_solver. }
  eexists. split; [reflexivity|].
  destruct (_ <? 0) eqn:E; zify_bool; constructor; try done.
  - unfold am_sn_compare_tx. lia.
  - rewrite Forall_forall in Hall |- *. intros s Hs. apply (Htr ack_sn y); try done; [|lia|by apply Hall].
    eapply am_q_sent; [exact Hq|done].
  - by left.
  - unfold am_sn_compare_tx in *. lia.
  - destruct Hy3 as [-> | (s & Hs & ->)]; [|right; exists s; split; [set_solver|done]].
    destruct Hx3 as [-> | (s & Hs & ->)]; [|right; exists s; split; [set_solver|done]].
    left. apply (am_key_inj (am_sn_modulus e) (am_tx_next_ack e)); try done.
    rewrite !(am_sn_compare_tx_key (am_sn_modulus e)) in * by done. lia.
Qed.

(** The peer does not acknowledge an SDU of which a part was not sent. *)
Definition am_ack_sane (e : nr_rlc_entity_am_t) (ack_sn : Z) : Prop :=
  forall s, s ∈ am_tx_list e -> seg_sn (heap (am_common e)) s <> -1 ->
    am_sn_compare_tx e ack_sn (seg_sn (heap (am_common e)) s) <= 0.

Lemma am_window_moves e lost ack_sn sn :
  am_config_ok e -> am_tx_inv e lost -> sn_range (am_sn_modulus e) ack_sn ->
  am_sn_compare_tx e ack_sn (am_tx_next e) <= 0 -> am_ack_sane e ack_sn -> am_oldest e ack_sn sn ->
  am_tx_inv (e <| am_tx_next_ack := sn |>) lost.
Proof.
  intros Hc [Hq T2 T3 T4 T5 T6 T7 T8] Hack Hle Hsane [O1 O2 O3 _].
  pose proof (q_nx _ _ _ _ _ _ _ _ _ Hq) as Hnx. pose proof (q_ack _ _ _ _ _ _ _ _ _ Hq) as Ha.
  constructor; unfold am_queues, common_ok in *; field_simpl; try done.
  eapply am_q_ack; [exact Hq|done| |].
  - rewrite !(am_sn_compare_tx_key (am_sn_modulus e)) in * by done. lia.
  - intros s Hs Hne. destruct (am_q_numbered _ _ _ _ _ _ _ _ _ s Hq Hs Hne) as [Hr _].
    apply elem_of_app in Hs as [Hs|Hs].
    + specialize (Hsane s Hs Hne). rewrite !(am_sn_compare_tx_key (am_sn_modulus e)) in * by done. lia.
    + rewrite Forall_forall in O3. specialize (O3 s Hs).
      rewrite !(am_sn_compare_tx_key (am_sn_modulus e)) in * by done. lia.
Qed.

(** ** An accepted report *)

(** The entity once the lists are put back, before TX_Next_Ack moves. *)
Record am_processed (e e1 : nr_rlc_entity_am_t) (lost : list nr_rlc_sdu_segment_t) (w : walk) : Prop := {
  ap_inv : am_tx_inv e1 (w_after w ++ lost);
  ap_wait : am_wait_list e1 = w_before w ++ w_rest w;
  ap_retx : am_retransmit_list e1 = w_new w ++ w_cur w;
  ap_frame : ctl_frame (e1 <| am_wait_end := am_wait_end e |>) = ctl_frame e;
  ap_sn : forall s, s ∈ am_tx_list e1 ++ am_wait_list e1 ++ am_retransmit_list e1 ->
          seg_sn (heap (am_common e1)) s = seg_sn (heap (am_common e)) s;
  ap_events : ctl_reported e e1 (w_freed w);
}.

Lemma am_apply_correct e lost buffer size ack_sn ns :
  am_config_ok e -> am_tx_inv e lost ->
  am_report e buffer size = Ok (Some (ack_sn, ns)) -> am_report_ranges e ack_sn ns ->
  am_report_ok e ack_sn ns = true ->
  exists e1 w sn, am_apply_control_pdu e buffer size = Ok (e1 <| am_tx_next_ack := sn |>) /\
    am_processed e e1 lost w /\ am_oldest e1 ack_sn sn /\
    walk_all (seg_key e) (sn_key e ack_sn) (walk0 e) (map (map (nack_key e)) (nack_blocks e ns)) = Ok w.
Proof.
  intros Hc Hinv Hrep [Hack Hns] Hok. unfold am_report in Hrep. unfold am_apply_control_pdu.
  destruct (am_read_status true _ _) as [[[[[cpt ack] e1] d]|]|] eqn:Eh; try done.
  apply am_read_status_unchecked in Eh. rewrite Eh. cbn [mbind outcome_bind] in *.
  destruct (am_parse_nacks _ _ e1 d) as [[ns'|]|] eqn:Ep; try done. cbn in Hrep. injection Hrep as -> ->.
  set (ep := if _ <? 0 then _ else e).
  assert (Hep : ctl_frame ep = ctl_frame e /\ am_common ep = am_common e /\ am_tx_size ep = am_tx_size e /\
    am_wait_list ep = am_wait_list e /\ am_retransmit_list ep = am_retransmit_list e).
  { unfold ep. by destruct (_ <? 0). }
  clearbody ep. destruct Hep as (P1 & P2 & P3 & P4 & P5). rewrite P4, P5.
  destruct (ctl_walk e lost ack_sn Hc Hinv Hack
    (fun st => am_update_tx_next_ack (ctl_finish st) ack_sn) ep _ e1 d ns P1 P2 P3 Ep) as (st & w & Hk & H1 & H2 & H3).
  { eapply Forall_impl; [exact Hns|]. intros n [Hn _]. apply Hn. }
  rewrite Hk. destruct (ctl_finish_inv e lost ack_sn Hc Hinv Hack st w H1 H2) as (F1 & F2 & F3 & F4 & F5).
  assert (Hf : am_sn_modulus (ctl_finish st) = am_sn_modulus e /\ am_tx_next (ctl_finish st) = am_tx_next e /\
    am_tx_next_ack (ctl_finish st) = am_tx_next_ack e /\ am_sn_field_length (ctl_finish st) = am_sn_field_length e /\
    am_window_size (ctl_finish st) = am_window_size e /\ am_tx_list (ctl_finish st) = am_tx_list e).
  { unfold ctl_frame, am_rx_state in F4. field_simpl_all. by simplify_eq. }
  destruct Hf as (G1 & G2 & G3 & G4 & G5 & G6).
  assert (Hc' : am_config_ok (ctl_finish st)) by (destruct Hc; constructor; congruence).
  unfold am_report_ok in Hok. apply andb_true_iff in Hok as [Hle _]. zify_bool.
  destruct (am_update_tx_next_ack_correct (ctl_finish st) (w_after w ++ lost) ack_sn Hc' F1) as (sn & -> & Ho).
  { by rewrite G1. }
  { unfold am_sn_compare_tx, am_modulus_tx in *. by rewrite G1, G2, G3. }
  exists (ctl_finish st), w, sn. split; [done|]. split; [|done].
  constructor; try done.
  - intros s Hs. rewrite F5. apply (ci_sn _ _ _ _ H1). rewrite F2, F3, G6 in Hs. set_solver.
  - destruct (ci_events _ _ _ _ H1) as (ev & E1 & E2 & E3). unfold ctl_reported. rewrite F5. eauto.
Qed.

Lemma am_ack_sane_processed e e1 lost w ack_sn :
  am_processed e e1 lost w -> am_ack_sane e ack_sn -> am_ack_sane e1 ack_sn.
Proof.
  intros [_ _ _ Hf Hsn _] Hs s Hin Hne. unfold ctl_frame, am_rx_state in Hf. field_simpl_all. simplify_eq.
  rewrite Hsn in * by set_solver. unfold am_sn_compare_tx, am_modulus_tx in *.
  repeat match goal with H : _ e1 = _ e |- _ => rewrite H in * end. by apply Hs.
Qed.

(** Every NACK is before ACK_SN. *)
Definition am_nacks_before (e : nr_rlc_entity_am_t) (ack_sn : Z) (ns : list nack_t) : Prop :=
  Forall (fun c => am_sn_compare_tx e c.1.1 ack_sn < 0) (concat (nack_blocks e ns)).

Lemma nack_blocks_range e ns :
  am_config_ok e -> Forall (fun n => sn_range (am_sn_modulus e) (nack_sn n) /\ 0 <= nack_range n < 256) ns ->
  Forall (fun c => sn_range (am_sn_modulus e) c.1.1) (concat (nack_blocks e ns)).
Proof.
  intros Hc Hns. unfold nack_blocks. induction Hns as [|n ns [Hn _] _ IH]; [constructor|].
  cbn [map concat]. apply Forall_app. split; [|exact IH].
  assert (H : forall todo i, 0 <= i -> Forall (fun c => sn_range (am_sn_modulus e) c.1.1) (nack_items e n i todo)).
  { induction todo as [|todo IHt]; intros i Hi; constructor; [|apply IHt; lia].
    apply cur_nack_range; [done|apply Hn|done]. }
  by apply H.
Qed.

Lemma nack_keys_acked e lost ack_sn ns :
  am_config_ok e -> am_tx_inv e lost -> am_report_ranges e ack_sn ns -> am_nacks_before e ack_sn ns ->
  nacks_acked (sn_key e ack_sn) (concat (map (map (nack_key e)) (nack_blocks e ns))).
Proof.
  intros Hc Hinv [Hack Hns] Hb. pose proof (q_ack _ _ _ _ _ _ _ _ _ (ti_q _ _ Hinv)) as Ha.
  pose proof (nack_blocks_range e ns Hc Hns) as Hr. unfold am_nacks_before in Hb.
  unfold nacks_acked. rewrite <- concat_map, Forall_map. rewrite Forall_forall in Hb, Hr |- *.
  intros c Hcin. specialize (Hb c Hcin). specialize (Hr c Hcin). cbn.
  rewrite (am_sn_compare_tx_key (am_sn_modulus e)) in Hb by done. unfold sn_key. lia.
Qed.

(** Any PDU: no fault; [lost'] is what the code drops. *)
Lemma process_control_pdu_correct e lost buffer size :
  am_config_ok e -> am_tx_inv e lost -> size = zlen buffer ->
  exists r e', am_report e buffer size = Ok r /\ process_control_pdu e buffer size = Ok e' /\
    am_rx_state e' = am_rx_state e /\ am_tx_list e' = am_tx_list e /\
    (exists ev, events (am_common e') = events (am_common e) ++ ev /\ forall d, DeliverSdu d ∉ ev) /\
    ((r = None \/ exists ack_sn ns, r = Some (ack_sn, ns) /\ am_report_ok e ack_sn ns = false) -> e' = e) /\
    ((forall ack_sn ns, r = Some (ack_sn, ns) -> am_report_ok e ack_sn ns = true -> am_ack_sane e ack_sn) ->
     exists lost', am_tx_inv e' (lost' ++ lost) /\
       ((forall ack_sn ns, r = Some (ack_sn, ns) -> am_nacks_before e ack_sn ns) -> lost' = [])).
Proof.
  intros Hc Hinv Hsize. unfold process_control_pdu.
  destruct (am_validate_correct e buffer size Hc Hsize) as (r & valid & Hr & -> & Hiff & Hrng).
  cbn [mbind outcome_bind]. exists r. destruct valid.
  2: { exists e. split_and!; try done; [|intros _; by exists []]. exists []. rewrite app_nil_r.
       split; [done|set_solver]. }
  destruct (proj1 Hiff eq_refl) as (ack_sn & ns & -> & Hok). clear Hiff.
  destruct (am_apply_correct e lost buffer size ack_sn ns Hc Hinv Hr (Hrng _ _ eq_refl) Hok)
    as (e1 & w & sn & -> & Hp & Ho & Hw).
  exists (e1 <| am_tx_next_ack := sn |>). pose proof (ap_frame _ _ _ _ Hp) as Hf.
  assert (Hf' : am_rx_state e1 = am_rx_state e /\ am_tx_list e1 = am_tx_list e /\ am_sn_modulus e1 = am_sn_modulus e /\
    am_tx_next e1 = am_tx_next e /\ am_tx_next_ack e1 = am_tx_next_ack e /\
    am_sn_field_length e1 = am_sn_field_length e /\ am_window_size e1 = am_window_size e).
  { unfold ctl_frame, am_rx_state in *. field_simpl_all. simplify_eq. split_and!; congruence. }
  destruct Hf' as (G1 & G2 & G3 & G4 & G5 & G6 & G7).
  split_and!; [done|done|done|done| | |].
  - destruct (ap_events _ _ _ _ Hp) as (ev & E1 & E2 & _). exists ev. split; [done|].
    intros d Hd. by destruct (E2 _ Hd) as [|(? & ? & _ & _ & ? & _)].
  - intros [|(? & ? & [= <- <-] & ?)]; [done|congruence].
  - intros Hsane. specialize (Hsane _ _ eq_refl Hok).
    assert (Hc1 : am_config_ok e1) by (destruct Hc; constructor; congruence).
    unfold am_report_ok in Hok. apply andb_true_iff in Hok as [Hle _]. zify_bool.
    exists (w_after w). split.
    + eapply am_window_moves; [done|apply (ap_inv _ _ _ _ Hp)| | | |done].
      * rewrite G3. by apply (Hrng _ _ eq_refl).
      * unfold am_sn_compare_tx, am_modulus_tx in *. by rewrite G3, G4, G5.
      * by eapply am_ack_sane_processed.
    + intros Hb. specialize (Hb _ _ eq_refl). eapply (walk_all_after _ _ _ (walk0 e)); [|reflexivity|exact Hw].
      exact (nack_keys_acked e lost ack_sn ns Hc Hinv (Hrng _ _ eq_refl) Hb).
Qed.

(** ** What a well-formed status report does

    A report of a peer that lists its NACKs in order, before ACK_SN: each
    segment in flight goes where its sequence number and the NACKs say. *)

(** The segment is before ACK_SN. *)
Definition am_seg_acked (e : nr_rlc_entity_am_t) (ack_sn : Z) (s : nr_rlc_sdu_segment_t) : bool :=
  am_sn_compare_tx e (seg_sn (heap (am_common e)) s) ack_sn <? 0.

(** Some of its bytes are reported missing. *)
Definition am_seg_missing (e : nr_rlc_entity_am_t) (ns : list nack_t) (s : nr_rlc_sdu_segment_t) : bool :=
  existsb (fun '(sn, so_start, so_end) =>
      (seg_sn (heap (am_common e)) s =? sn)
      && so_overlap so_start so_end (seg_so s) (seg_so s + seg_size s - 1))
    (concat (nack_blocks e ns)).

(** The NACKs by increasing SN and offset. *)
Definition am_nacks_ordered (e : nr_rlc_entity_am_t) (ns : list nack_t) : Prop :=
  StronglySorted (fun c c' => am_sn_compare_tx e c.1.1 c'.1.1 < 0 \/ c.1.1 = c'.1.1 /\ c.1.2 <= c'.1.2)
    (concat (nack_blocks e ns)).

Section report.
Context (e : nr_rlc_entity_am_t) (lost : list nr_rlc_sdu_segment_t) (ack_sn : Z) (ns : list nack_t).
Context (e_config : am_config_ok e) (e_inv : am_tx_inv e lost) (e_ranges : am_report_ranges e ack_sn ns).

Abbreviation keys := (concat (map (map (nack_key e)) (nack_blocks e ns))).

Lemma report_seg_range s :
  s ∈ am_wait_list e ++ am_retransmit_list e -> sn_range (am_sn_modulus e) (seg_sn (heap (am_common e)) s).
Proof. intros Hs. eapply am_q_sent; [apply (ti_q _ _ e_inv)|done]. Qed.

Lemma late_acked s :
  s ∈ am_wait_list e ++ am_retransmit_list e ->
  late (seg_key e) (sn_key e ack_sn) s = negb (am_seg_acked e ack_sn s).
Proof.
  intros Hs. destruct e_ranges as [Hack _]. pose proof (q_ack _ _ _ _ _ _ _ _ _ (ti_q _ _ e_inv)).
  unfold late, am_seg_acked. rewrite (am_sn_compare_tx_key (am_sn_modulus e)) by (done || by apply report_seg_range).
  fold (sn_key e (seg_sn (heap (am_common e)) s)) (sn_key e ack_sn) (seg_key e s).
  apply eq_true_iff_eq. rewrite negb_true_iff, Z.leb_le, Z.ltb_ge. lia.
Qed.

Lemma nacked_missing s :
  s ∈ am_wait_list e ++ am_retransmit_list e -> nacked (seg_key e) keys s = am_seg_missing e ns s.
Proof.
  intros Hs. unfold nacked, am_seg_missing. rewrite <- concat_map.
  pose proof (nack_blocks_range e ns e_config (proj2 e_ranges)) as Hr.
  induction Hr as [|[[sn a] b] l Hsn _ IH]; [done|]. cbn [map existsb]. rewrite IH. f_equal.
  unfold overlap, nack_key, seg_key. cbn [fst snd].
  by rewrite <- sn_key_eqb by (done || by apply report_seg_range).
Qed.

Lemma keys_sorted : am_nacks_ordered e ns -> StronglySorted nack_le keys.
Proof.
  pose proof (nack_blocks_range e ns e_config (proj2 e_ranges)) as Hr.
  pose proof (q_ack _ _ _ _ _ _ _ _ _ (ti_q _ _ e_inv)) as Ha.
  unfold am_nacks_ordered. rewrite <- concat_map. intros H.
  induction H as [|c l Hl IH Hc]; cbn [map]; constructor.
  - apply IH. by inversion Hr.
  - apply Forall_cons in Hr as [Hcr Hr]. rewrite Forall_map. rewrite Forall_forall in Hc, Hr |- *.
    intros c' Hc'. unfold nack_le, nack_key. cbn. destruct (Hc c' Hc') as [Hlt|[E Hle]].
    + rewrite (am_sn_compare_tx_key (am_sn_modulus e)) in Hlt; try done; [|by apply Hr]. left. unfold sn_key. lia.
    + right. by rewrite E.
Qed.

Lemma filter_eq (p q : nr_rlc_sdu_segment_t -> bool) l :
  l ⊆ am_wait_list e ++ am_retransmit_list e ->
  (forall s, s ∈ am_wait_list e ++ am_retransmit_list e -> p s = q s) -> List.filter p l = List.filter q l.
Proof. intros Hl H. apply filter_ext_in. intros s Hs%list_elem_of_In. apply H, Hl, Hs. Qed.

End report.

Lemma ctl_reported_perm e e' l l' : l ≡ₚ l' -> ctl_reported e e' l -> ctl_reported e e' l'.
Proof.
  intros Hp (ev & H1 & H2 & H3). exists ev. split_and!; [done| |].
  - intros x Hx. destruct (H2 x Hx) as [|(s & u & Hs & ?)]; [by left|right]. exists s, u. by rewrite <- Hp.
  - intros s u Hs. apply H3. by rewrite Hp.
Qed.

Lemma am_seg_sizes e lost :
  am_tx_inv e lost ->
  Forall (fun s => 0 < seg_size s /\ 0 <= seg_so s) (am_wait_list e ++ am_retransmit_list e).
Proof.
  intros [Hq Hsz _ _ _ _ _ _]. pose proof (q_heap _ _ _ _ _ _ _ _ _ Hq) as Hh.
  rewrite Forall_forall. intros s Hs.
  assert (Hin : s ∈ am_tx_list e ++ am_wait_list e ++ am_retransmit_list e ++ lost) by set_solver.
  split; [by eapply seg_size_pos|]. pose proof (heap_segs _ _ Hh) as Hw. rewrite Forall_forall in Hw.
  by destruct (Hw s Hin) as (_ & u & _ & Hso & _).
Qed.

(** C3: a status report of the peer, with its NACKs in order and before ACK_SN,
    does exactly what it says: the wait list keeps what is not acknowledged, what
    is reported missing goes to the retransmit list, in number order, everything
    else before ACK_SN is freed and its SDU reported delivered, and the window
    starts at the oldest number left. *)
Theorem am_report_exact e buffer size ack_sn ns :
  am_config_ok e -> am_tx_inv e [] -> size = zlen buffer ->
  am_report e buffer size = Ok (Some (ack_sn, ns)) -> am_report_ok e ack_sn ns = true ->
  am_nacks_before e ack_sn ns -> am_nacks_ordered e ns -> am_ack_sane e ack_sn ->
  exists e', process_control_pdu e buffer size = Ok e' /\ am_tx_inv e' [] /\
    am_wait_list e' = List.filter (fun s => negb (am_seg_acked e ack_sn s)) (am_wait_list e) /\
    am_retransmit_list e' ≡ₚ
      List.filter (am_seg_missing e ns) (am_wait_list e) ++
      List.filter (fun s => am_seg_missing e ns s || negb (am_seg_acked e ack_sn s)) (am_retransmit_list e) /\
    am_oldest (e' <| am_tx_next_ack := am_tx_next_ack e |>) ack_sn (am_tx_next_ack e') /\
    ctl_reported e e' (List.filter (fun s => am_seg_acked e ack_sn s && negb (am_seg_missing e ns s))
                         (am_wait_list e ++ am_retransmit_list e)).
Proof.
  intros Hc Hinv Hsize Hrep Hok Hbefore Hord Hsane.
  destruct (am_validate_correct e buffer size Hc Hsize) as (r & valid & Hr & Hv & Hiff & Hrng).
  rewrite Hrep in Hr. injection Hr as <-. specialize (Hrng _ _ eq_refl).
  destruct valid; [clear Hiff|by discriminate (proj2 Hiff (ex_intro _ _ (ex_intro _ _ (conj eq_refl Hok))))].
  destruct (process_control_pdu_correct e [] buffer size Hc Hinv Hsize) as
    (r & e' & Hr & Hproc & _ & _ & _ & _ & Hpost). rewrite Hrep in Hr. injection Hr as <-.
  destruct Hpost as (lost' & Hinv' & Hlost'); [by intros ? ? [= <- <-] _|].
  rewrite Hlost' in Hinv' by (by intros ? ? [= <- <-]). clear Hlost' lost'.
  exists e'. split; [done|]. split; [done|].
  unfold process_control_pdu in Hproc. rewrite Hv in Hproc. cbn [mbind outcome_bind] in Hproc.
  destruct (am_apply_correct e [] buffer size ack_sn ns Hc Hinv Hrep Hrng Hok) as (e1 & w & sn & Happ & Hp & Ho & Hw).
  rewrite Happ in Hproc. injection Hproc as <-.
  pose proof (ti_q _ _ Hinv) as Hq.
  destruct (walk_correct (seg_key e) (sn_key e ack_sn) (am_wait_list e) (am_retransmit_list e) _
    (keys_sorted e [] ack_sn ns Hc Hinv Hrng Hord) (nack_keys_acked e [] ack_sn ns Hc Hinv Hrng Hbefore)
    _ eq_refl (seg_before_key_le e _ (q_wait _ _ _ _ _ _ _ _ _ Hq))
    (seg_before_key_le e _ (q_retx _ _ _ _ _ _ _ _ _ Hq)) (am_seg_sizes e [] Hinv)) as
    (w' & Hw' & W1 & W2 & W3 & _). unfold walk0 in Hw. rewrite Hw in Hw'. injection Hw' as <-.
  assert (Hlate : forall s, s ∈ am_wait_list e ++ am_retransmit_list e ->
    late (seg_key e) (sn_key e ack_sn) s = negb (am_seg_acked e ack_sn s)) by (intros; by eapply late_acked).
  assert (Hnack : forall s, s ∈ am_wait_list e ++ am_retransmit_list e ->
    nacked (seg_key e) (concat (map (map (nack_key e)) (nack_blocks e ns))) s = am_seg_missing e ns s)
    by (intros; by eapply nacked_missing).
  rewrite (filter_eq e _ _ (am_wait_list e) ltac:(set_solver) Hlate) in W1.
  rewrite (filter_eq e _ _ (am_wait_list e) ltac:(set_solver) Hnack) in W2.
  rewrite (filter_eq e (kept _ _ _) (fun s => am_seg_missing e ns s || negb (am_seg_acked e ack_sn s))) in W2;
    [|set_solver|intros s Hs; unfold kept; by rewrite Hlate, Hnack].
  rewrite (filter_eq e (gone _ _ _) (fun s => am_seg_acked e ack_sn s && negb (am_seg_missing e ns s))) in W3;
    [|set_solver|intros s Hs; unfold gone; by rewrite Hlate, Hnack, negb_involutive].
  field_simpl. rewrite (ap_wait _ _ _ _ Hp), (ap_retx _ _ _ _ Hp). split_and!; [done|done| |].
  - pose proof (ap_frame _ _ _ _ Hp) as Hf. unfold ctl_frame, am_rx_state in Hf. field_simpl_all. simplify_eq.
    assert (Ea : am_tx_next_ack e1 = am_tx_next_ack e) by done.
    assert (Ecmp : forall a b, am_sn_compare_tx (e1 <| am_tx_next_ack := sn |> <| am_tx_next_ack := am_tx_next_ack e |>) a b
      = am_sn_compare_tx e1 a b).
    { intros a b. unfold am_sn_compare_tx, am_modulus_tx. field_simpl. by rewrite Ea. }
    destruct Ho as [O1 O2 O3 O4]. constructor; field_simpl; try done; [by rewrite Ecmp|].
    eapply Forall_impl; [exact O3|]. intros s Hs. by rewrite Ecmp.
  - eapply ctl_reported_perm; [exact W3|]. exact (ap_events _ _ _ _ Hp).
Qed.
