(* ===== verification/RlcAmRx.v ===== *)
(** * The receiver of the AM entity

    As for UM, the peer's SDUs are [sent 0], [sent 1], ...  The window goes up
    from [rx_next], the first SDU not delivered; a delivered SDU stays in the
    list, without its data, until [rx_next] passes it, so that late duplicates
    are recognised.  The receiver delivers every SDU exactly once: [done] holds
    all the numbers below [rx_next] and those of the delivered SDUs of the
    list. *)

From S2P Require Import Prelude TimeStat RlcPdu RlcSdu RlcReassembly RlcRxList RlcEntity RlcAm.
From S2P Require Import RlcAmCtrl RlcAmRecv RlcAmSend RlcAmQueue RlcAmTx RlcAmCtrlProps.

(** ** Delivered SDUs leave the head of the list *)

Section free.
Context (M : Z) (M_pos : 0 < M) (sent : Z -> list Z).

Lemma drop_sn_app sn l1 l2 :
  Forall (fun p => pdu_sn p = sn) l1 -> (forall p r, l2 = p :: r -> pdu_sn p <> sn) ->
  drop_sn sn (l1 ++ l2) = l2.
Proof.
  intros H1 H2. induction H1 as [|p l1 Hp _ IH]; cbn [app drop_sn].
  - destruct l2 as [|p r]; [done|]. cbn [drop_sn]. specialize (H2 p r eq_refl).
    by destruct (_ =? sn) eqn:E; zify_bool.
  - by rewrite Hp, Z.eqb_refl.
Qed.

(** The head of the list is of the SDU [base], and delivered. *)
Lemma head_delivered base top l :
  rx_list_ok M false sent base top l ->
  (head_processed l && match l with p :: _ => pdu_sn p =? base mod M | [] => false end)%bool
  = sdu_delivered l (base mod M).
Proof.
  intros [Hs Hw _ _]. destruct l as [|p l]; [done|]. unfold sdu_delivered. cbn [skip_to].
  destruct (_ =? base mod M) eqn:E; zify_bool; [by rewrite andb_true_r|]. rewrite andb_false_r.
  rewrite skip_to_none; [done|]. apply StronglySorted_inv in Hs as [_ Hs].
  apply Forall_cons in Hw as [[Hp _] Hw]. rewrite Forall_forall in Hs, Hw |- *. intros q Hq Hqs.
  destruct (Hs q Hq) as [Hlt|[Ep _]]; [|congruence]. unfold RlcRxList.sn_key in Hlt. rewrite Hqs in Hlt.
  rewrite Zminus_mod_idemp_l, Z.sub_diag, Z.mod_0_l in Hlt by lia.
  pose proof (Z.mod_pos_bound (pdu_sn p - base) M M_pos). lia.
Qed.

Lemma free_delivered_correct fuel base top l :
  rx_list_ok M false sent base top l -> base <= top <= base + M -> (length l < fuel)%nat ->
  exists k l1 l2, am_free_delivered fuel M l (base mod M) = Ok (l2, (base + k) mod M) /\
    l = l1 ++ l2 /\ 0 <= k /\ base + k <= top /\
    Forall (fun p => abs_sn M base (pdu_sn p) < base + k) l1 /\
    Forall (fun p => base + k <= abs_sn M base (pdu_sn p)) l2 /\
    (forall n, base <= n < base + k -> sdu_delivered l (n mod M) = true) /\
    sdu_delivered l2 ((base + k) mod M) = false.
Proof.
  revert base l. induction fuel as [|fuel IH]; intros base l Hok Htop Hf; [lia|].
  cbn [am_free_delivered]. rewrite (head_delivered base top l Hok).
  destruct (sdu_delivered l (base mod M)) eqn:Ed.
  2: { exists 0, [], l. rewrite Z.add_0_r. split_and!; try done; try lia.
       rewrite Forall_forall. intros p _. apply abs_sn_range. lia. }
  pose proof (delivered_in_window M false sent base top l _ Hok Ed) as [_ Hlt].
  rewrite abs_sn_of in Hlt by lia.
  destruct (rx_list_split M false sent base top l (base + 1) Hok) as (l1 & l2 & -> & H1 & H2).
  assert (Hsn1 : Forall (fun p => pdu_sn p = base mod M) l1).
  { pose proof (rl_window _ _ _ _ _ _ Hok) as Hw. apply Forall_app in Hw as [Hw _].
    rewrite Forall_forall in H1, Hw |- *. intros p Hp. specialize (H1 p Hp). cbn in H1.
    destruct (Hw p Hp) as [Hr _]. rewrite <- (abs_sn_mod M base (pdu_sn p)) by done.
    pose proof (abs_sn_range M M_pos base (pdu_sn p)). f_equal. lia. }
  assert (Hsn2 : forall p, p ∈ l2 -> pdu_sn p <> base mod M).
  { intros p Hp Hq. rewrite Forall_forall in H2. specialize (H2 p Hp). cbn in H2.
    rewrite Hq, abs_sn_of in H2 by lia. lia. }
  rewrite drop_sn_app by (done || (intros p r ->; apply Hsn2; set_solver)).
  rewrite rem_succ_mod by done.
  destruct (rx_list_suffix M M_pos false sent base top l1 l2 (base + 1) Hok H1 H2) as [Hok2 Hdel2].
  assert (Hok3 : rx_list_ok M false sent (base + 1) top l2) by (eapply rx_list_rebase; [done|exact Hok2|lia|done]).
  assert (Hl1 : l1 <> []).
  { intros ->. apply sdu_delivered_in in Ed as (p & Hp & Hq & _). by apply (Hsn2 p). }
  destruct (IH (base + 1) l2 Hok3) as (k & l3 & l4 & Hr & -> & Hk & Hkt & H3 & H4 & Hall & Hn).
  { lia. }
  { rewrite length_app in Hf. destruct l1; [done|]. cbn in Hf. lia. }
  replace (base + 1 + k) with (base + (1 + k)) in * by lia.
  assert (Hre : forall p, p ∈ l3 ++ l4 -> abs_sn M (base + 1) (pdu_sn p) = abs_sn M base (pdu_sn p)).
  { intros p Hp. pose proof (rl_window _ _ _ _ _ _ Hok2) as Hw. rewrite Forall_forall in H2, Hw.
    apply abs_sn_rebase; [done|by apply Hw|]. split; [lia|]. by apply H2. }
  exists (1 + k), (l1 ++ l3), l4. split_and!; try done; try lia.
  - by rewrite <- app_assoc.
  - apply Forall_app. split; [eapply Forall_impl; [exact H1|]; cbn; lia|].
    rewrite Forall_forall in H3 |- *. intros p Hp. specialize (H3 p Hp). cbn in *.
    rewrite Hre in H3 by set_solver. lia.
  - rewrite Forall_forall in H4 |- *. intros p Hp. specialize (H4 p Hp). cbn in *.
    rewrite Hre in H4 by set_solver. lia.
  - intros n Hnr. destruct (decide (n = base)) as [->|Hne]; [done|].
    specialize (Hall n ltac:(lia)). rewrite Hdel2, abs_sn_of in Hall by lia.
    by destruct (_ <=? _).
Qed.
End free.

(** ** Invariant *)

Section peer.
Context (sent : Z -> list Z).

(** [B], [S] and [H] are [rx_next], [rx_highest_status] and [rx_next_highest] as
    absolute numbers. *)
Record am_rx_core (e : nr_rlc_entity_am_t) (B S H : Z) (done : list Z) : Prop := {
  ar_config : am_config_ok e;
  ar_next : am_rx_next e = B mod am_sn_modulus e;
  ar_status : am_rx_highest_status e = S mod am_sn_modulus e;
  ar_highest : am_rx_next_highest e = H mod am_sn_modulus e;
  ar_range : 0 <= B <= S /\ S <= H <= B + am_window_size e;
  ar_list : rx_list_ok (am_sn_modulus e) false sent B H (am_rx_list e);
  ar_none_full : forall sn, 0 <= sn < am_sn_modulus e -> sdu_full (am_rx_list e) sn = false;
  ar_covered : forall p, p ∈ am_rx_list e -> sdu_delivered (am_rx_list e) (pdu_sn p) = true ->
    pdu_data p = None /\
    forall i, 0 <= i < zlen (sent (abs_sn (am_sn_modulus e) B (pdu_sn p))) -> byte_in (am_rx_list e) (pdu_sn p) i;
  ar_once : NoDup done;
  ar_done : forall n, n ∈ done <-> 0 <= n < B \/
    (B <= n < H /\ sdu_delivered (am_rx_list e) (n mod am_sn_modulus e) = true);
  ar_bytes : am_rx_size e = rx_bytes (am_rx_list e);
}.

(** The trigger of the running timer is a number between [lo] and [hi]. *)
Definition am_trigger (e : nr_rlc_entity_am_t) (lo hi : Z) : Prop :=
  am_t_reassembly_start e <> 0 ->
  exists T, am_rx_next_status_trigger e = T mod am_sn_modulus e /\ lo < T <= hi.

(** The SDUs the window and the reports start from are not delivered. *)
Definition am_waits (e : nr_rlc_entity_am_t) (B S : Z) : Prop :=
  sdu_delivered (am_rx_list e) (B mod am_sn_modulus e) = false /\
  sdu_delivered (am_rx_list e) (S mod am_sn_modulus e) = false.

Definition am_rx_inv (e : nr_rlc_entity_am_t) (B S H : Z) (done : list Z) : Prop :=
  am_rx_core e B S H done /\ am_waits e B S /\ am_trigger e B H.

(** What the core depends on. *)
Definition am_core_view (e : nr_rlc_entity_am_t) :=
  (am_sn_field_length e, am_sn_modulus e, am_window_size e,
   (am_rx_next e, am_rx_highest_status e, am_rx_next_highest e), (am_rx_list e, am_rx_size e)).

Lemma am_rx_core_view e e' B S H done :
  am_core_view e' = am_core_view e -> am_rx_core e B S H done -> am_rx_core e' B S H done.
Proof.
  unfold am_core_view. intros E []. simplify_eq.
  assert (am_config_ok e') by (destruct ar_config0; constructor; congruence).
  constructor; try done; by (repeat match goal with E : _ e' = _ e |- _ => rewrite ?E; clear E end).
Qed.

Lemma am_waits_view e e' B S : am_core_view e' = am_core_view e -> am_waits e B S -> am_waits e' B S.
Proof. unfold am_core_view, am_waits. intros E. simplify_eq. congruence. Qed.

Lemma am_rx_inv_state e e' B S H done :
  am_rx_state e' = am_rx_state e -> am_rx_inv e B S H done -> am_rx_inv e' B S H done.
Proof.
  intros E (Hc & Hw & Ht). unfold am_rx_state in E. simplify_eq. split_and!.
  - eapply am_rx_core_view; [|exact Hc]. unfold am_core_view. congruence.
  - unfold am_waits in *. by (repeat match goal with E : _ e' = _ e |- _ => rewrite ?E; clear E end).
  - unfold am_trigger in *. by (repeat match goal with E : _ e' = _ e |- _ => rewrite ?E; clear E end).
Qed.

(** Sequence numbers compare as absolute numbers above [rx_next]. *)
Lemma am_modulus_rx_key e B a :
  am_config_ok e -> am_rx_next e = B mod am_sn_modulus e -> 0 <= a < am_sn_modulus e ->
  am_modulus_rx e a = RlcRxList.sn_key (am_sn_modulus e) B a.
Proof.
  intros Hc HB Ha. destruct (am_config_pos e Hc) as [Hw Hm].
  unfold am_modulus_rx, RlcRxList.sn_key. rewrite HB.
  pose proof (Z.mod_pos_bound B (am_sn_modulus e) ltac:(lia)).
  rewrite <- (Zminus_mod_idemp_r a B), mod_sub_cases by lia.
  destruct (_ <? 0) eqn:E; zify_bool; case_if; lia.
Qed.

Lemma am_modulus_rx_abs e B n :
  am_config_ok e -> am_rx_next e = B mod am_sn_modulus e -> B <= n < B + am_sn_modulus e ->
  am_modulus_rx e (n mod am_sn_modulus e) = n - B.
Proof.
  intros Hc HB Hn. destruct (am_config_pos e Hc) as [Hw Hm].
  rewrite (am_modulus_rx_key e B) by (done || (apply Z.mod_pos_bound; lia)).
  pose proof (abs_sn_of (am_sn_modulus e) B n Hn). unfold abs_sn in *. lia.
Qed.

Lemma am_modulus_rx_below e B n :
  am_config_ok e -> am_rx_next e = B mod am_sn_modulus e -> B - am_sn_modulus e <= n < B ->
  am_modulus_rx e (n mod am_sn_modulus e) = n - B + am_sn_modulus e.
Proof.
  intros Hc HB Hn. destruct (am_config_pos e Hc) as [Hw Hm].
  rewrite <- (Z.mod_add n 1) by lia. rewrite (am_modulus_rx_abs e B) by (done || lia). lia.
Qed.

(** ** The timer *)

Lemma am_start_correct e B S H done x X :
  am_rx_core e B S H done -> am_trigger e B H -> B <= X <= H -> x = X mod am_sn_modulus e ->
  am_core_view (am_start_t_reassembly e x) = am_core_view e /\
  am_trigger (am_start_t_reassembly e x) B H /\
  am_tx_view (am_start_t_reassembly e x) = am_tx_view e /\
  am_common (am_start_t_reassembly e x) = am_common e.
Proof.
  intros Hcore Htr HX ->. pose proof (ar_config _ _ _ _ _ Hcore) as Hc. destruct (am_config_pos e Hc) as [Hw Hm].
  pose proof (ar_range _ _ _ _ _ Hcore) as HR. pose proof (ar_highest _ _ _ _ _ Hcore) as HH.
  pose proof (ar_next _ _ _ _ _ Hcore) as HB.
  unfold am_start_t_reassembly. rewrite HH, rem_succ_mod by lia. destruct (_ || _) eqn:E; [|by split_and!].
  split_and!; try done. intros _. exists H. field_simpl. split; [done|]. split; [|lia].
  destruct (decide (B = H)) as [->|]; [exfalso|lia].
  assert (X = H) as -> by lia. unfold am_sn_compare_rx in E. apply orb_true_iff in E as [E|E]; zify_bool.
  - rewrite !(am_modulus_rx_abs e H) in E by (done || lia). lia.
  - assert (am_modulus_rx e (H mod am_sn_modulus e) = am_modulus_rx e ((H + 1) mod am_sn_modulus e)) as Ek by by f_equal.
    rewrite !(am_modulus_rx_abs e H) in Ek by (done || lia). lia.
Qed.

Lemma am_stop_correct e B S H done lo hi :
  am_rx_core e B S H done -> am_trigger e lo hi -> B - am_window_size e <= lo -> hi <= H ->
  am_core_view (am_stop_t_reassembly e) = am_core_view e /\
  am_trigger (am_stop_t_reassembly e) B H /\
  am_tx_view (am_stop_t_reassembly e) = am_tx_view e /\
  am_common (am_stop_t_reassembly e) = am_common e.
Proof.
  intros Hcore Htrig Hlo Hhi. pose proof (ar_config _ _ _ _ _ Hcore) as Hc. destruct (am_config_pos e Hc) as [Hw Hm].
  pose proof (ar_range _ _ _ _ _ Hcore) as HR. pose proof (ar_next _ _ _ _ _ Hcore) as HB.
  unfold am_stop_t_reassembly. destruct (_ && _) eqn:E.
  { split_and!; try done. unfold am_trigger. by field_simpl. }
  split_and!; try done. intros Hrun. destruct (Htrig Hrun) as (T & HT & HTr).
  exists T. split; [done|]. split; [|lia].
  apply andb_false_iff in E as [E|E]; [by zify_bool|].
  apply orb_false_iff in E as [E E3]. apply orb_false_iff in E as [E1 _]. zify_bool.
  rewrite HT, HB in *. destruct (decide (T < B)) as [Hlt|Hge].
  2: { destruct (decide (T = B)) as [->|]; [done|lia]. }
  exfalso. unfold am_sn_in_recv_window in E3.
  rewrite (am_modulus_rx_below e B) in E3 by (done || lia).
  destruct (_ <? am_window_size e) eqn:E4; zify_bool; [lia|]. cbn [negb andb] in E3. zify_bool.
  rewrite Z.rem_mod_nonneg, Zplus_mod_idemp_l in E3; [|pose proof (Z.mod_pos_bound B (am_sn_modulus e)); lia|lia].
  rewrite <- (Z.mod_add T 1) in E3 by lia.
  apply (mod_inj _ _ _ B) in E3; lia.
Qed.

(** ** Update of the state variables *)

Context (sent_size : forall n, 0 < zlen (sent n) <= NR_SDU_MAX).

(** After the insertion of a segment of the SDU [n], which is not delivered. *)
Record am_rx_mid (e : nr_rlc_entity_am_t) (B S H : Z) (done : list Z) (n : Z) : Prop := {
  am_mid_config : am_config_ok e;
  am_mid_next : am_rx_next e = B mod am_sn_modulus e;
  am_mid_status : am_rx_highest_status e = S mod am_sn_modulus e;
  am_mid_highest : am_rx_next_highest e = H mod am_sn_modulus e;
  am_mid_range : 0 <= B <= S /\ S <= H <= B + am_window_size e;
  am_mid_number : B <= n < B + am_window_size e;
  am_mid_list : rx_list_ok (am_sn_modulus e) false sent B (Z.max H (n + 1)) (am_rx_list e);
  am_mid_new : sdu_delivered (am_rx_list e) (n mod am_sn_modulus e) = false;
  am_mid_waits : am_waits e B S;
  am_mid_none_full : forall sn, 0 <= sn < am_sn_modulus e -> sn <> n mod am_sn_modulus e ->
    sdu_full (am_rx_list e) sn = false;
  am_mid_covered : forall p, p ∈ am_rx_list e -> sdu_delivered (am_rx_list e) (pdu_sn p) = true ->
    pdu_data p = None /\
    forall i, 0 <= i < zlen (sent (abs_sn (am_sn_modulus e) B (pdu_sn p))) -> byte_in (am_rx_list e) (pdu_sn p) i;
  am_mid_once : NoDup done;
  am_mid_done : forall k, k ∈ done <-> 0 <= k < B \/
    (B <= k < Z.max H (n + 1) /\ sdu_delivered (am_rx_list e) (k mod am_sn_modulus e) = true);
  am_mid_bytes : am_rx_size e = rx_bytes (am_rx_list e);
}.

Lemma byte_in_mark x l sn i : byte_in (mark false x <$> l) sn i <-> byte_in l sn i.
Proof.
  split.
  - intros (p & (q & -> & Hq)%list_elem_of_fmap & Hs & Hi). exists q. unfold mark, processed, pdu_end in *.
    by destruct (_ =? x).
  - intros (p & Hp & Hs & Hi). exists (mark false x p). split; [by apply list_elem_of_fmap_2|].
    unfold mark, processed, pdu_end in *. by destruct (_ =? x).
Qed.

(** A complete SDU is handed to the upper layer, whole. *)
Lemma am_deliver_correct e B S H done n :
  am_rx_mid e B S H done n -> n < H -> sdu_full (am_rx_list e) (n mod am_sn_modulus e) = true ->
  exists e', am_reassemble_and_deliver e (n mod am_sn_modulus e) = Ok e' /\
    am_rx_core e' B S H (done ++ [n]) /\
    (forall sn, sdu_delivered (am_rx_list e') sn
                = (sn =? n mod am_sn_modulus e) || sdu_delivered (am_rx_list e) sn) /\
    am_tx_view e' = am_tx_view e /\ events (am_common e') = events (am_common e) ++ [DeliverSdu (sent n)] /\
    am_t_reassembly_start e' = am_t_reassembly_start e /\
    am_rx_next_status_trigger e' = am_rx_next_status_trigger e.
Proof.
  intros [] HnH Hfull. destruct (am_config_pos e am_mid_config0) as [Hw Hm].
  set (M := am_sn_modulus e) in *. set (x := n mod M) in *. assert (HM : 0 < M) by lia.
  assert (Habs : abs_sn M B x = n) by (apply abs_sn_of; lia).
  replace (Z.max H (n + 1)) with H in * by lia.
  destruct (rx_list_deliver M HM false sent _ _ _ x (am_rx_size e) am_mid_list0 Hfull)
    as (Hr & Hlist' & Hdel & p & Hp & Hpx); [apply sent_size|].
  pose proof (proj1 (sdu_full_iff M HM false sent _ _ _ x am_mid_list0 ltac:(apply sent_size)) Hfull) as [_ Hall].
  rewrite Habs in Hr. unfold am_reassemble_and_deliver. rewrite Hr. cbn [mbind outcome_bind].
  set (l' := mark false x <$> am_rx_list e) in *. eexists. split; [reflexivity|].
  split; [|by split_and!].
  constructor; field_simpl; fold M; try done.
  - by destruct am_mid_config0.
  - intros sn Hsn. destruct (decide (sn = x)) as [->|Hne].
    + assert (Hf : ~ sdu_full l' x = true).
      { rewrite (sdu_full_iff M HM false sent _ _ _ x Hlist') by apply sent_size.
        rewrite Hdel, Z.eqb_refl. by intros [? _]. }
      by destruct (sdu_full l' x).
    + rewrite <- (am_mid_none_full0 sn Hsn Hne). symmetry.
      apply eq_true_iff_eq.
      rewrite (sdu_full_iff M HM false sent _ _ _ sn am_mid_list0), (sdu_full_iff M HM false sent _ _ _ sn Hlist')
        by apply sent_size. rewrite Hdel. destruct (sn =? x) eqn:E; zify_bool; [done|]. cbn [orb].
      split; intros [? Hb]; (split; [done|]); intros i Hi; specialize (Hb i Hi); by apply (byte_in_mark x).
  - intros q (q' & -> & Hq')%list_elem_of_fmap. rewrite mark_sn, mark_data, Hdel.
    destruct (_ =? x) eqn:E; zify_bool; cbn [orb].
    + intros _. split; [done|]. intros i Hi. rewrite E in *. apply byte_in_mark. by apply Hall.
    + intros Hd. destruct (am_mid_covered0 q' Hq' Hd) as [? Hb]. split; [done|].
      intros i Hi. apply byte_in_mark. by apply Hb.
  - apply NoDup_app. split_and!; [done| |apply NoDup_singleton].
    intros k Hk ->%list_elem_of_singleton. apply am_mid_done0 in Hk as [?|[_ Hd]]; [lia|].
    fold x in Hd. congruence.
  - intros k. rewrite elem_of_app, list_elem_of_singleton, am_mid_done0, Hdel. split.
    + intros [[?|[? ->]] | -> ]; [by left|right; by rewrite orb_true_r|right].
      split; [lia|]. unfold x. by rewrite Z.eqb_refl.
    + intros [?|[? Hor]]; [by left; left|]. apply orb_true_iff in Hor as [E|Hd]; [|left; by right].
      zify_bool. right. apply (mod_inj M _ _ B); [lia|lia|done].
  - rewrite am_mid_bytes0. lia.
Qed.

(** The first SDU from [X] on that is not delivered. *)
Lemma am_first_not_delivered e B S H done X :
  am_rx_core e B S H done -> B <= X <= H ->
  exists X', first_not_delivered (am_sn_modulus e) (am_rx_list e) (X mod am_sn_modulus e)
             = Ok (X' mod am_sn_modulus e) /\ X <= X' <= H /\
    sdu_delivered (am_rx_list e) (X' mod am_sn_modulus e) = false.
Proof.
  intros Hcore HX. pose proof (ar_config _ _ _ _ _ Hcore) as Hc. destruct (am_config_pos e Hc) as [Hw Hm].
  pose proof (ar_range _ _ _ _ _ Hcore) as HR. pose proof (ar_list _ _ _ _ _ Hcore) as Hl.
  assert (E : forall j, (X mod am_sn_modulus e + j) mod am_sn_modulus e = (X + j) mod am_sn_modulus e).
  { intros j. by rewrite Zplus_mod_idemp_l. }
  destruct (first_not_delivered_correct (am_sn_modulus e) (am_rx_list e) (X mod am_sn_modulus e) (H - X))
    as (j & Hj & Hf & Hnd & _); [apply Z.mod_pos_bound; lia|lia| |].
  { rewrite E. eapply (not_delivered_outside (am_sn_modulus e) false sent B); [exact Hl|lia|lia]. }
  exists (X + j). rewrite E in *. split_and!; try done; lia.
Qed.

(** [rx_highest_status] moves past what is delivered. *)
Lemma am_status_correct e B S H done x :
  am_rx_core e B S H done -> 0 <= x < am_sn_modulus e ->
  (x <> S mod am_sn_modulus e -> sdu_delivered (am_rx_list e) (S mod am_sn_modulus e) = false) ->
  exists e' S', (if x =? am_rx_highest_status e then
           sn ← first_not_delivered (am_sn_modulus e) (am_rx_list e) (am_rx_highest_status e);
           Ok (e <| am_rx_highest_status := sn |>)
         else Ok e) = Ok e' /\ am_rx_core e' B S' H done /\
    sdu_delivered (am_rx_list e') (S' mod am_sn_modulus e') = false /\ am_rx_list e' = am_rx_list e /\
    am_rx_next e' = am_rx_next e /\
    am_tx_view e' = am_tx_view e /\ am_common e' = am_common e /\
    am_t_reassembly_start e' = am_t_reassembly_start e /\
    am_rx_next_status_trigger e' = am_rx_next_status_trigger e.
Proof.
  intros Hcore Hx Hnd. pose proof (ar_range _ _ _ _ _ Hcore) as HR. rewrite (ar_status _ _ _ _ _ Hcore).
  destruct (x =? _) eqn:E; zify_bool.
  - destruct (am_first_not_delivered e B S H done S Hcore ltac:(lia)) as (S' & Hf & HS & HSd).
    rewrite Hf. cbn [mbind outcome_bind]. exists (e <| am_rx_highest_status := S' mod am_sn_modulus e |>), S'.
    split; [done|]. split; [|by split_and!]. destruct Hcore. constructor; field_simpl; try done; [|lia].
    by destruct ar_config0.
  - exists e, S. split; [done|]. split_and!; try done. by apply Hnd.
Qed.

(** [rx_next] moves past what is delivered, and the list is freed up to it. *)
Lemma am_free_correct e B S H done x :
  am_rx_core e B S H done -> 0 <= x < am_sn_modulus e ->
  sdu_delivered (am_rx_list e) (S mod am_sn_modulus e) = false ->
  (x <> B mod am_sn_modulus e -> sdu_delivered (am_rx_list e) (B mod am_sn_modulus e) = false) ->
  exists e' B', (if x =? am_rx_next e then
      '(l, rx_next) ← am_free_delivered (Datatypes.S (length (am_rx_list e))) (am_sn_modulus e)
                        (am_rx_list e) (am_rx_next e);
      Ok (e <| am_rx_list := l |> <| am_rx_next := rx_next |>)
    else Ok e) = Ok e' /\ am_rx_core e' B' S H done /\ am_waits e' B' S /\ B <= B' /\
    am_tx_view e' = am_tx_view e /\ am_common e' = am_common e /\
    am_t_reassembly_start e' = am_t_reassembly_start e /\
    am_rx_next_status_trigger e' = am_rx_next_status_trigger e.
Proof.
  intros Hcore Hx HSd Hnd. pose proof (ar_config _ _ _ _ _ Hcore) as Hc. destruct (am_config_pos e Hc) as [Hw Hm].
  pose proof (ar_range _ _ _ _ _ Hcore) as HR. rewrite (ar_next _ _ _ _ _ Hcore).
  destruct (x =? _) eqn:E; zify_bool.
  2: { exists e, B. split; [done|]. split_and!; try done; try lia. split; [by apply Hnd|done]. }
  pose proof Hcore as []. set (M := am_sn_modulus e) in *. assert (HM : 0 < M) by lia.
  destruct (free_delivered_correct M HM sent (Datatypes.S (length (am_rx_list e))) B H (am_rx_list e) ar_list0)
    as (k & l1 & l2 & Hr & El & Hk & HkH & H1 & H2 & Hall & Hn); [lia|lia|].
  rewrite Hr. cbn [mbind outcome_bind].
  rewrite El in ar_list0. destruct (rx_list_suffix M HM false sent B H l1 l2 (B + k) ar_list0 H1 H2) as [Hok2 Hdel2].
  rewrite <- El in Hdel2.
  assert (Hok3 : rx_list_ok M false sent (B + k) H l2) by (eapply rx_list_rebase; [done|exact Hok2|lia|done]).
  assert (HkS : B + k <= S).
  { destruct (decide (B + k <= S)); [done|]. rewrite (Hall S) in HSd by lia. done. }
  assert (Hre : forall p, p ∈ l2 -> abs_sn M (B + k) (pdu_sn p) = abs_sn M B (pdu_sn p)).
  { intros p Hp. pose proof (rl_window _ _ _ _ _ _ Hok2) as Hwin. rewrite Forall_forall in H2, Hwin.
    apply abs_sn_rebase; [done|by apply Hwin|]. split; [lia|]. by apply H2. }
  assert (Hin : forall p sn, pdu_sn p = sn -> B + k <= abs_sn M B sn -> p ∈ l2 <-> p ∈ am_rx_list e).
  { intros p sn Hs Hge. rewrite El, elem_of_app. split; [by right|]. intros [Hp|Hp]; [|done]. exfalso.
    rewrite Forall_forall in H1. specialize (H1 p Hp). cbn in H1. rewrite Hs in H1. lia. }
  eexists _, (B + k). split; [reflexivity|]. split_and!; try done; try lia.
  2: { split; field_simpl; [done|]. rewrite Hdel2; fold M; rewrite HSd. by destruct (_ <=? _). }
  constructor; field_simpl; fold M; try done; try lia.
  - by destruct ar_config0.
  - intros sn Hsn. destruct (decide (B + k <= abs_sn M B sn)) as [Hge|Hlt].
    + rewrite <- (ar_none_full0 sn Hsn). symmetry.
      eapply (sdu_full_ext M HM false sent); [rewrite El; exact ar_list0|exact Hok3| |apply sent_size| |].
      * symmetry. apply abs_sn_rebase; [done|done|lia].
      * rewrite Hdel2. by destruct (_ <=? _) eqn:E'; zify_bool; [|lia].
      * intros p Hp. symmetry. by apply (Hin p sn).
    + apply sdu_full_none. intros q Hq Hqs. rewrite Forall_forall in H2. specialize (H2 q Hq). cbn in H2.
      rewrite Hqs in H2. lia.
  - intros p Hp Hd. rewrite Hre by done. rewrite Hdel2 in Hd. rewrite Forall_forall in H2. pose proof (H2 p Hp) as Hge.
    cbn in Hge. destruct (_ <=? _) eqn:E'; zify_bool; [|done].
    destruct (ar_covered0 p) as [Hnone Hb]; [rewrite El; set_solver|done|]. split; [done|].
    intros i Hi. destruct (Hb i Hi) as (q & Hq & Hqs & Hqi). exists q. split; [|done]. by apply (Hin q (pdu_sn p)).
  - intros n. rewrite ar_done0. split.
    + intros [?|[? Hd]]; [left; lia|]. destruct (decide (n < B + k)); [left; lia|right]. split; [lia|].
      rewrite Hdel2, abs_sn_of, Hd by lia. by destruct (_ <=? _) eqn:E'; zify_bool; [|lia].
    + intros [?|[? Hd]].
      * destruct (decide (n < B)); [by left; lia|right]. split; [lia|]. apply Hall. lia.
      * right. split; [lia|]. rewrite Hdel2, abs_sn_of in Hd by lia. by destruct (_ <=? _).
  - rewrite ar_bytes0, El, rx_bytes_app.
    assert (E0 : rx_bytes l1 = 0); [|lia].
    unfold rx_bytes. rewrite (zsum_ext _ (fun _ => 0)); [clear; by induction l1 as [|p l1 IH]|].
    intros p Hp. destruct (ar_covered0 p) as [-> _]; [rewrite El; set_solver| |done].
    rewrite Forall_forall in H1. specialize (H1 p Hp). cbn in H1.
    pose proof (rl_window _ _ _ _ _ _ ar_list0) as Hwin. rewrite Forall_forall in Hwin.
    destruct (Hwin p ltac:(set_solver)) as [Hsn _].
    rewrite <- (abs_sn_mod M B (pdu_sn p)) by done. apply Hall.
    pose proof (abs_sn_range M HM B (pdu_sn p)). lia.
Qed.

Lemma am_update_correct e B S H done n :
  am_rx_mid e B S H done n ->
  exists e' B' S' H' new, am_update_rx e (n mod am_sn_modulus e) = Ok e' /\
    am_rx_core e' B' S' H' (done ++ new) /\ am_waits e' B' S' /\ B <= B' /\ H' = Z.max H (n + 1) /\
    (new = [] \/ new = [n]) /\ am_tx_view e' = am_tx_view e /\
    events (am_common e') = events (am_common e) ++ ((fun k => DeliverSdu (sent k)) <$> new) /\
    am_t_reassembly_start e' = am_t_reassembly_start e /\
    am_rx_next_status_trigger e' = am_rx_next_status_trigger e.
Proof.
  intros Hmid. pose proof (am_mid_config _ _ _ _ _ _ Hmid) as Hc. destruct (am_config_pos e Hc) as [Hw Hm].
  pose proof (am_mid_range _ _ _ _ _ _ Hmid) as HR. pose proof (am_mid_number _ _ _ _ _ _ Hmid) as Hn.
  unfold am_update_rx. set (e1 := if _ >=? 0 then _ else e).
  assert (He1 : am_rx_mid e1 B S (Z.max H (n + 1)) done n /\ am_sn_modulus e1 = am_sn_modulus e /\
    am_rx_list e1 = am_rx_list e /\ am_tx_view e1 = am_tx_view e /\ am_common e1 = am_common e /\
    am_t_reassembly_start e1 = am_t_reassembly_start e /\
    am_rx_next_status_trigger e1 = am_rx_next_status_trigger e).
  { unfold e1, am_sn_compare_rx. clear e1. rewrite (am_mid_highest _ _ _ _ _ _ Hmid).
    pose proof (am_mid_next _ _ _ _ _ _ Hmid) as HB.
    rewrite !(am_modulus_rx_abs e B) by (done || lia). rewrite rem_succ_mod by lia.
    destruct (_ >=? 0) eqn:E; zify_bool; (split; [|by split_and!]); destruct Hmid.
    - constructor; field_simpl; try done; try lia; [by destruct am_mid_config0|by f_equal; lia|..].
      + by replace (Z.max (Z.max H (n + 1)) (n + 1)) with (Z.max H (n + 1)) by lia.
      + by replace (Z.max (Z.max H (n + 1)) (n + 1)) with (Z.max H (n + 1)) by lia.
    - replace (Z.max H (n + 1)) with H in * by lia. constructor; try done.
      + by replace (Z.max H (n + 1)) with H by lia.
      + by replace (Z.max H (n + 1)) with H by lia. }
  clearbody e1. destruct He1 as (Hmid1 & EM & El & Etx & Ec & Et & Eg). clear Hmid.
  rewrite <- EM, <- Et, <- Eg, <- Ec, <- Etx in *. clear EM El Et Eg Ec Etx Hc Hw Hm HR.
  pose proof (am_mid_config _ _ _ _ _ _ Hmid1) as Hc. destruct (am_config_pos e1 Hc) as [Hw Hm].
  assert (Hx : 0 <= n mod am_sn_modulus e1 < am_sn_modulus e1) by (apply Z.mod_pos_bound; lia).
  unfold am_sdu_full. destruct (sdu_full (am_rx_list e1) _) eqn:Efull.
  2: { exists e1, B, S, (Z.max H (n + 1)), []. rewrite !app_nil_r.
       split_and!; try done; [|exact (am_mid_waits _ _ _ _ _ _ Hmid1)|by left]. destruct Hmid1.
       replace (Z.max (Z.max H (n + 1)) (n + 1)) with (Z.max H (n + 1)) in * by lia. constructor; try done.
       intros sn Hsn. destruct (decide (sn = n mod am_sn_modulus e1)) as [->|]; [done|by apply am_mid_none_full0]. }
  pose proof (am_mid_waits _ _ _ _ _ _ Hmid1) as [HwB HwS].
  destruct (am_deliver_correct e1 B S _ done n Hmid1 ltac:(lia) Efull) as
    (e2 & -> & Hcore2 & Hdel2 & Htx2 & Hev2 & Et2 & Eg2). cbn [mbind outcome_bind].
  assert (EM2 : am_sn_modulus e2 = am_sn_modulus e1) by (unfold am_tx_view in Htx2; by simplify_eq).
  rewrite <- EM2 in *.
  destruct (am_status_correct e2 B S _ _ (n mod am_sn_modulus e2) Hcore2 Hx) as
    (e3 & S' & Hst & Hcore3 & HS3 & El3 & En3 & Htx3 & Ec3 & Et3 & Eg3).
  { intros Hne. rewrite Hdel2, HwS. by destruct (_ =? _) eqn:E; zify_bool; [congruence|]. }
  rewrite Hst. cbn [mbind outcome_bind].
  assert (EM3 : am_sn_modulus e3 = am_sn_modulus e2) by (unfold am_tx_view in Htx3; by simplify_eq).
  rewrite <- EM3 in *.
  destruct (am_free_correct e3 B S' _ _ (n mod am_sn_modulus e3) Hcore3 Hx HS3) as
    (e4 & B' & Hfr & Hcore4 & Hw4 & HB4 & Htx4 & Ec4 & Et4 & Eg4).
  { intros Hne. rewrite El3, Hdel2, HwB, orb_false_r. apply Z.eqb_neq. congruence. }
  exists e4, B', S', (Z.max H (n + 1)), [n]. rewrite Hfr. split_and!; try done; [by right|congruence| |congruence..].
  rewrite Ec4, Ec3, Hev2. done.
Qed.

(** ** Reception of a segment *)

(** A complete SDU: its segments are recognised as duplicates. *)
Lemma am_duplicate e B S H done n so size :
  am_rx_core e B S H done -> B <= n < H -> sdu_delivered (am_rx_list e) (n mod am_sn_modulus e) = true ->
  0 <= so -> so + size <= zlen (sent n) ->
  segment_already_received (am_rx_list e) (n mod am_sn_modulus e) so size = true.
Proof.
  intros Hcore Hn Hd Hso Hsize. pose proof (ar_config _ _ _ _ _ Hcore) as Hc. destruct (am_config_pos e Hc) as [Hw Hm].
  destruct Hcore. set (M := am_sn_modulus e) in *. assert (HM : 0 < M) by lia.
  assert (Habs : abs_sn M B (n mod M) = n) by (apply abs_sn_of; lia).
  pose proof (rl_sorted _ _ _ _ _ _ ar_list0) as Hs. pose proof (rl_sent _ _ _ _ _ _ ar_list0) as Hp.
  destruct (rx_sorted_grouped _ (am_rx_list e) (n mod M) Hs) as (pre & grp & post & El & Hg & Hsorted).
  pose proof Hg as (Hpre & Hgrp & Hpost).
  destruct (sdu_delivered_in _ _ Hd) as (q & Hq & Hqs & _).
  destruct (ar_covered0 q Hq) as [_ Hb]; [by rewrite Hqs|]. rewrite Hqs, Habs in Hb.
  assert (Hseg : Forall (seg_of (sent n)) grp).
  { rewrite Forall_forall in Hp, Hgrp |- *. intros p Hpg. pose proof (Hgrp p Hpg) as Hps.
    destruct (Hp p) as [_ Hd']; [rewrite El; set_solver|]. rewrite Hps, Habs in Hd'.
    by destruct (pdu_data p); [destruct Hd'|]. }
  assert (Hbg : forall i, 0 <= i < zlen (sent n) -> byte_in grp (n mod M) i).
  { intros i Hi. apply (byte_in_grouped (n mod M) pre grp post); [done|]. rewrite <- El. by apply Hb. }
  rewrite El, already_received_skip by done.
  eapply (already_received_complete (sent n) _ _ _ (-1)); [done|done| |lia|done].
  eapply full_scan_complete; [done|done|done| |].
  - pose proof (sent_size n). lia.
  - intros i Hi. apply Hbg. lia.
Qed.

Lemma am_insert_correct e B S H done n p :
  am_rx_core e B S H done -> am_waits e B S -> B <= n < B + am_window_size e ->
  pdu_sn p = n mod am_sn_modulus e -> genuine (sent n) p ->
  sdu_delivered (am_rx_list e) (n mod am_sn_modulus e) = false ->
  let e' := e <| am_rx_size := am_rx_size e + pdu_size p |>
              <| am_rx_list := nr_rlc_pdu_list_add (am_sn_compare_rx e) (am_rx_list e) p |> in
  am_rx_mid e' B S H done n.
Proof.
  intros Hcore [HwB HwS] Hn Hsn Hg Hnew e'. pose proof Hcore as [].
  destruct (am_config_pos e ar_config0) as [Hw Hm].
  set (M := am_sn_modulus e) in *. set (w := am_window_size e) in *. assert (HM : 0 < M) by lia.
  set (add := nr_rlc_pdu_list_add (fun a b => RlcRxList.sn_key M B a - RlcRxList.sn_key M B b) (am_rx_list e) p).
  assert (Eadd : nr_rlc_pdu_list_add (am_sn_compare_rx e) (am_rx_list e) p = add).
  { apply list_add_ext. intros q Hq. pose proof (rl_window _ _ _ _ _ _ ar_list0) as Hwin.
    rewrite Forall_forall in Hwin. destruct (Hwin q Hq) as [Hqs _]. unfold am_sn_compare_rx.
    rewrite !(am_modulus_rx_key e B); try done. rewrite Hsn. by apply Z.mod_pos_bound. }
  destruct (rx_list_insert M HM false sent _ _ _ p n ar_list0 ltac:(lia) Hsn Hg) as [Hok Hdel].
  fold add in Hok, Hdel. unfold e'. rewrite Eadd.
  assert (Hin : forall q, q ∈ add <-> q = p \/ q ∈ am_rx_list e).
  { intros q. unfold add. by rewrite list_add_perm, elem_of_cons. }
  constructor; field_simpl; fold M w; try done.
  - by destruct ar_config0.
  - by rewrite Hdel.
  - split; field_simpl; fold M; by rewrite Hdel.
  - intros sn Hs Hne. rewrite <- (ar_none_full0 sn Hs).
    eapply (sdu_full_ext M HM false sent); [exact Hok|exact ar_list0|done|apply sent_size|done|].
    intros q Hq. rewrite Hin. split; [intros [->|]; [congruence|done]|by right].
  - intros q Hq Hd. rewrite Hdel in Hd. apply Hin in Hq as [->|Hq]; [congruence|].
    destruct (ar_covered0 q Hq Hd) as [? Hb]. split; [done|]. intros i Hi.
    destruct (Hb i Hi) as (r & Hr & ?). exists r. split; [|done]. apply Hin. by right.
  - intros k. rewrite ar_done0, Hdel. split; intros [?|[? Hd]]; [by left|right|by left|right]; (split; [|done]); [lia|].
    assert (n <> k) by congruence.
    pose proof (delivered_in_window M false sent B H _ _ ar_list0 Hd) as [_ Hlt]. rewrite abs_sn_of in Hlt by lia. lia.
  - unfold add, rx_bytes. rewrite list_add_perm, zsum_cons, ar_bytes0.
    destruct Hg as (_ & Hd & _). unfold rx_bytes. destruct (pdu_data p); [lia|done].
Qed.

(** What one call of the receiver does. *)
Definition am_received (e e' : nr_rlc_entity_am_t) (B S H : Z) (done : list Z) (n : Z) : Prop :=
  exists B' S' H' new, am_rx_inv e' B' S' H' (done ++ new) /\ B <= B' /\ H <= H' <= Z.max H (n + 1) /\
    am_tx_view e' = am_tx_view e /\ (new = [] \/ new = [n]) /\
    events (am_common e') = events (am_common e) ++ ((fun k => DeliverSdu (sent k)) <$> new).

(** Nothing of the receiver changes. *)
Lemma am_received_same e e' B S H done n :
  am_rx_inv e B S H done -> am_rx_state e' = am_rx_state e -> am_tx_view e' = am_tx_view e ->
  events (am_common e') = events (am_common e) -> am_received e e' B S H done n.
Proof.
  intros Hinv Es Et Ev. exists B, S, H, []. rewrite !app_nil_r.
  split_and!; try done; try lia; [|by left]. by eapply am_rx_inv_state.
Qed.

(** The bytes of a PDU that carry the segment of [sent n] at [so]. *)
Record am_segment (buffer : list Z) (byte n so : Z) (last : bool) : Prop := {
  as_byte : 0 <= byte < zlen buffer;
  as_so : 0 <= so;
  as_fit : so + (zlen buffer - byte) <= zlen (sent n);
  as_last : last = (so + (zlen buffer - byte) =? zlen (sent n));
  as_data : zslice buffer byte (zlen buffer - byte) = zslice (sent n) so (zlen buffer - byte);
}.

Lemma am_recv_segment_correct e B S H done buffer byte n so p last :
  am_rx_inv e B S H done -> B - am_window_size e <= n < B + am_window_size e ->
  am_segment buffer byte n so last ->
  exists e', am_recv_segment e buffer (zlen buffer) p (n mod am_sn_modulus e) so (so =? 0) last byte
             = Ok e' /\ am_received e e' B S H done n.
Proof.
  intros Hinv Hn []. pose proof Hinv as (Hcore & Hwaits & Htrig).
  pose proof (ar_config _ _ _ _ _ Hcore) as Hc. destruct (am_config_pos e Hc) as [Hw Hm].
  pose proof (ar_range _ _ _ _ _ Hcore) as HR. pose proof (ar_next _ _ _ _ _ Hcore) as HB.
  unfold am_recv_segment. set (len := zlen buffer - byte) in *.
  assert (Hdisc : forall e1, am_rx_state e1 = am_rx_state e -> am_tx_view e1 = am_tx_view e ->
    events (am_common e1) = events (am_common e) ->
    exists e', Ok (am_discard_pdu e1 p (zlen buffer)) = Ok e' /\ am_received e e' B S H done n).
  { intros e1 E1 E2 E3. eexists. split; [done|]. apply am_received_same; [done|..]; unfold am_discard_pdu;
      by destruct p. }
  destruct (len <=? 0) eqn:E; zify_bool; [unfold len in *; lia|].
  destruct (_ >? am_rx_maxsize e); [by apply Hdisc|].
  unfold am_sn_in_recv_window. destruct (decide (n < B)) as [Hlt|Hge].
  { rewrite (am_modulus_rx_below e B) by (done || lia).
    destruct (_ <? am_window_size e) eqn:E1; zify_bool; [lia|]. cbn [negb]. by apply Hdisc. }
  rewrite (am_modulus_rx_abs e B) by (done || lia).
  destruct (_ <? am_window_size e) eqn:E1; zify_bool; [|lia]. cbn [negb].
  destruct (segment_already_received _ _ _ _) eqn:Edup; [by apply Hdisc|].
  assert (Hnew : sdu_delivered (am_rx_list e) (n mod am_sn_modulus e) = false).
  { destruct (sdu_delivered _ _) eqn:Ed; [exfalso|done].
    pose proof (delivered_in_window _ false sent B H _ _ (ar_list _ _ _ _ _ Hcore) Ed) as [_ HnH].
    rewrite abs_sn_of in HnH by lia.
    rewrite (am_duplicate e B S H done n so len Hcore) in Edup by (done || lia). done. }
  replace (zlen buffer - len) with byte by (unfold len; lia).
  destruct (zslice buffer byte len) as [data|] eqn:Edata.
  2: { rewrite zslice_ok in Edata by (unfold len; lia). done. }
  cbn [of_option mbind outcome_bind]. unfold am_reception_actions, nr_rlc_new_pdu.
  set (q := mk_nr_rlc_pdu _ _ _ _ _ _).
  assert (Hg : genuine (sent n) q).
  { split; [|split; [done|]].
    - split_and!; unfold pdu_end; cbn; try lia. subst last. rewrite Z.eqb_eq. done.
    - cbn. by rewrite <- as_data0. }
  pose proof (am_insert_correct e B S H done n q Hcore Hwaits ltac:(lia) eq_refl Hg Hnew) as Hmid.
  cbv zeta in Hmid. set (e1 := _ <| am_rx_list := _ |>) in Hmid.
  destruct (am_update_correct e1 B S H done n Hmid) as
    (e2 & B' & S' & H' & new & Hupd & Hcore' & Hwaits' & HB' & HH' & Hnews & Htx & Hev & Et & Eg).
  assert (Hupd' : am_update_rx ((e <| am_rx_size := am_rx_size e + len |>) <| am_rx_list :=
      nr_rlc_pdu_list_add (am_sn_compare_rx (e <| am_rx_size := am_rx_size e + len |>))
        (am_rx_list (e <| am_rx_size := am_rx_size e + len |>)) q |>) (pdu_sn q) = Ok e2) by exact Hupd.
  rewrite Hupd'. cbn [mbind outcome_bind].
  assert (EM : am_sn_modulus e2 = am_sn_modulus e /\ am_window_size e2 = am_window_size e).
  { unfold am_tx_view in Htx. by simplify_eq. }
  destruct EM as [EM EW].
  destruct (am_stop_correct e2 B' S' H' (done ++ new) B H Hcore') as (Hc3 & Htr3 & Htx3 & Ec3).
  { intros Hrun. rewrite Et in Hrun. destruct (Htrig Hrun) as (T & HT & HTr). exists T.
    split; [|done]. by rewrite Eg, EM. }
  { pose proof (ar_range _ _ _ _ _ Hcore'). lia. }
  { lia. }
  set (e3 := am_stop_t_reassembly e2) in *. clearbody e3.
  pose proof (am_rx_core_view e2 e3 _ _ _ _ Hc3 Hcore') as Hcore3.
  set (e4 := if _ =? 0 then _ else e3).
  assert (H4 : am_core_view e4 = am_core_view e2 /\ am_trigger e4 B' H' /\ am_tx_view e4 = am_tx_view e2 /\
    events (am_common e4) = events (am_common e2)).
  { unfold e4. destruct (am_t_reassembly_start e3 =? 0).
    - pose proof (ar_range _ _ _ _ _ Hcore3).
      destruct (am_start_correct e3 B' S' H' (done ++ new) (am_rx_next e3) B' Hcore3 Htr3) as (? & ? & ? & ?);
        [lia|apply (ar_next _ _ _ _ _ Hcore3)|]. split_and!; try done; congruence.
    - split_and!; try done; congruence. }
  clearbody e4. destruct H4 as (Hc4 & Htr4 & Htx4 & Ev4).
  eexists. split; [reflexivity|]. exists B', S', H', new.
  assert (Hinv4 : am_rx_inv e4 B' S' H' (done ++ new)).
  { split_and!; [by eapply am_rx_core_view|by eapply am_waits_view|done]. }
  split_and!; try done; try lia.
  - destruct p; [|done]. by apply (am_rx_inv_state e4).
  - transitivity (am_tx_view e4); [by destruct p|]. rewrite Htx4, Htx. done.
  - destruct p; field_simpl; by rewrite Ev4, Hev.
Qed.

(** ** Expiry of t_reassembly *)

Lemma am_check_t_reassembly_correct e B S H done :
  am_rx_inv e B S H done ->
  exists e' S', am_check_t_reassembly e = Ok e' /\ am_rx_inv e' B S' H done /\
    am_tx_view e' = am_tx_view e /\ am_common e' = am_common e.
Proof.
  intros Hinv. pose proof Hinv as (Hcore & [HwB HwS] & Htrig). unfold am_check_t_reassembly.
  destruct (_ || _) eqn:E; [by exists e, S|]. zify_bool.
  destruct (Htrig ltac:(done)) as (T & HT & HTr).
  pose proof (ar_range _ _ _ _ _ Hcore) as HR.
  set (e1 := e <| am_t_reassembly_start := 0 |>).
  assert (Hcore1 : am_rx_core e1 B S H done) by by eapply am_rx_core_view; [|exact Hcore].
  destruct (am_first_not_delivered e1 B S H done T Hcore1 ltac:(lia)) as (S' & Hf & HS' & HSd).
  change (am_rx_next_status_trigger e1) with (am_rx_next_status_trigger e). rewrite HT.
  change (am_sn_modulus e1) with (am_sn_modulus e) in *. change (am_rx_list e1) with (am_rx_list e) in *.
  bind_with Hf. set (e2 := _ <| am_status_triggered := true |>).
  assert (Hcore2 : am_rx_core e2 B S' H done).
  { clear -Hcore HS' HR HTr. destruct Hcore. constructor; unfold e2, e1; field_simpl; try done; [|lia].
    by destruct ar_config0. }
  destruct (am_start_correct e2 B S' H done (am_rx_highest_status e2) S' Hcore2) as (Hc3 & Htr3 & Htx3 & Ec3).
  { unfold am_trigger, e2, e1. by field_simpl. }
  { lia. }
  { apply (ar_status _ _ _ _ _ Hcore2). }
  eexists _, S'. split; [reflexivity|]. split_and!; [|by rewrite Htx3|by rewrite Ec3].
  split_and!; [by eapply am_rx_core_view| |done]. eapply am_waits_view; [exact Hc3|]. by split.
Qed.
End peer.

(** ** Decoding what the transmitter encoded *)

Definition am_count_rx (e : nr_rlc_entity_am_t) (size : Z) : nr_rlc_entity_am_t :=
  e <| am_common := add_stat (add_stat (am_common e) rxpdu_pkts 1) rxpdu_bytes size |>.

Lemma am_recv_pdu_decodes e p sn s u pdu :
  am_config_ok e -> am_carries (am_sn_field_length e) p sn s u pdu -> seg_range s u ->
  zlen (sdu_data u) = sdu_size u -> sdu_size u <= NR_SDU_MAX ->
  0 <= sn < am_sn_modulus e -> 0 < seg_size s ->
  nr_rlc_entity_am_recv_pdu e pdu (zlen pdu) =
    am_recv_segment (am_count_rx e (zlen pdu)) pdu (zlen pdu) p sn (seg_so s)
      (is_first s) (is_last s) (am_pdu_header_size (am_sn_field_length e) (is_first s)).
Proof.
  intros [Hlen Hmod _] (hdr & data & -> & Hhl & Hbits & Hslice) Hrange Hdl Hmax Hsn Hsz.
  pose proof (zslice_len _ _ _ _ Hslice) as Hdata. rewrite Hmod in Hsn.
  destruct Hrange as (Hso & _ & Hend & Hfirst & Hlast & _). unfold seg_end in *.
  unfold nr_rlc_entity_am_recv_pdu. fold (am_count_rx e (zlen (hdr ++ data))).
  change (am_sn_field_length (am_count_rx e (zlen (hdr ++ data)))) with (am_sn_field_length e).
  set (d0 := nr_rlc_pdu_decoder_init (hdr ++ data) (zlen (hdr ++ data))).
  pose proof (dec_repr_init (hdr ++ data) _ eq_refl) as Hd0. fold d0 in Hd0.
  rewrite buffer_bits_app, Hbits in Hd0.
  assert (Hf0 : dec_frame d0 d0 0) by (unfold dec_frame; split_and!; done || lia).
  set (si := 2 * b2z (negb (is_first s)) + b2z (negb (is_last s))).
  assert (Hsplit : fields_bits (am_pdu_fields (am_sn_field_length e) p sn s)
    = bits_of 1 1 ++ bits_of (b2z p) 1 ++ bits_of si 2
      ++ (if am_sn_field_length e =? 18 then bits_of 0 2 else [])
      ++ bits_of sn (Z.to_nat (am_sn_field_length e))
      ++ (if negb (is_first s) then bits_of (seg_so s) 16 else [])).
  { unfold si, am_pdu_fields. destruct (is_first s), (is_last s), (am_sn_field_length e =? 18);
      cbn [negb app b2z fields_bits mbind list_bind fst snd]; by rewrite ?app_nil_r. }
  rewrite Hsplit, <- !app_assoc in Hd0.
  destruct (read_field d0 d0 1 1 _ 0 Hd0 Hf0) as (d1 & -> & He1 & Hd1 & Hf1); [lia|lia|].
  cbn [mbind outcome_bind]. rewrite He1. cbn [Z.eqb].
  destruct (read_field d1 d0 (b2z p) 1 _ _ Hd1 Hf1) as (d2 & -> & He2 & Hd2 & Hf2); [lia|by destruct p|].
  cbn [mbind outcome_bind]. rewrite He2.
  destruct (read_field d2 d0 si 2 _ _ Hd2 Hf2) as (d3 & -> & He3 & Hd3 & Hf3); [lia| |].
  { unfold si. destruct (is_first s), (is_last s); cbn; lia. }
  cbn [mbind outcome_bind]. rewrite He3.
  assert (Hsi : (Z.land si 2 =? 0) = is_first s /\ (Z.land si 1 =? 0) = is_last s /\ z2b (b2z p) = p).
  { unfold si. by destruct (is_first s), (is_last s), p. }
  destruct Hsi as (-> & -> & ->).
  assert (H4 : exists d4 r, (if am_sn_field_length e =? 18 then nr_rlc_pdu_decoder_get_bits d3 2
      else Ok (0, d3)) = Ok (r, d4) /\ dec_error d4 = false /\
    dec_repr d4 (bits_of sn (Z.to_nat (am_sn_field_length e))
      ++ (if negb (is_first s) then bits_of (seg_so s) 16 else []) ++ buffer_bits data) /\
    dec_frame d0 d4 (0 + 1 + 1 + 2 + if am_sn_field_length e =? 18 then 2 else 0)).
  { destruct (am_sn_field_length e =? 18).
    - destruct (read_field d3 d0 0 2 _ _ Hd3 Hf3) as (d4 & ? & ? & ? & ?); [lia|cbn; lia|].
      by exists d4, 0.
    - exists d3, 0. by split_and!. }
  destruct H4 as (d4 & r & -> & He4 & Hd4 & Hf4). cbn [mbind outcome_bind]. rewrite He4.
  destruct (read_field d4 d0 sn (am_sn_field_length e) _ _ Hd4 Hf4) as (d5 & -> & He5 & Hd5 & Hf5);
    [lia|done|].
  cbn [mbind outcome_bind]. rewrite He5.
  assert (Hhs : forall d n, dec_repr d (buffer_bits data) -> dec_frame d0 d n ->
    n = 8 * am_pdu_header_size (am_sn_field_length e) (is_first s) ->
    dec_byte d = am_pdu_header_size (am_sn_field_length e) (is_first s)).
  { intros d n Hd Hf Hn. eapply dec_byte_of; [exact Hd| |exact Hn].
    unfold dec_frame in *. cbn in *. intuition. }
  destruct (is_first s) eqn:Ef; cbn [negb].
  - rewrite (Hhs d5 _ Hd5 Hf5). { by replace (seg_so s) with 0 by (symmetry; by apply Hfirst). }
    unfold am_pdu_header_size. destruct Hlen as [-> | ->]; cbn; lia.
  - cbn [negb] in Hd5. destruct (read_field d5 d0 (seg_so s) 16 _ _ Hd5 Hf5) as (d6 & -> & He6 & Hd6 & Hf6);
      [lia|unfold NR_SDU_MAX in *; lia|].
    cbn [mbind outcome_bind]. rewrite He6.
    destruct (seg_so s =? 0) eqn:Eso; zify_bool. { apply Hfirst in Eso. congruence. }
    rewrite (Hhs d6 _ Hd6 Hf6); [done|]. unfold am_pdu_header_size.
    destruct Hlen as [-> | ->]; cbn; lia.
Qed.
