(* ===== verification/RlcAmStatusProps.v ===== *)
(** * Generation of status reports: what is proved

    A report is generated without fault, fits the room given, and has the size
    the buffer status announced. *)

From S2P Require Import Prelude TimeStat RlcPdu RlcSdu RlcReassembly RlcEntity RlcAm RlcAmRecv RlcAmStatus.
From S2P Require Import RlcAmCtrl RlcAmSend RlcAmQueue RlcAmTx RlcAmCtrlProps.

(** ** The encoder between two bytes *)

Record enc_aligned (e : nr_rlc_pdu_encoder_t) : Prop := {
  ea_bit : enc_bit e = 0;
  ea_byte : 0 <= enc_byte e <= enc_size e;
  ea_size : enc_size e <= zlen (enc_buffer e);
  ea_bytes : bytes_ok (enc_buffer e);
}.

Lemma put_fields_aligned e fields k :
  enc_aligned e -> fields_ok fields -> zsum snd fields = 8 * k -> enc_byte e + k <= enc_size e ->
  exists e', put_fields e fields = Ok e' /\ enc_aligned e' /\ enc_byte e' = enc_byte e + k /\ enc_frame e e'.
Proof.
  intros [H1 H2 H3 H4] Hf Hsum Hroom.
  assert (Hr : enc_repr e (buffer_bits (take (Z.to_nat (enc_byte e)) (enc_buffer e)))).
  { unfold enc_repr. rewrite H1. cbn [Z.to_nat bits_of]. rewrite app_nil_r. split_and!; try done; lia. }
  assert (Hk : zsum snd fields <= enc_room e) by (unfold enc_room; rewrite H1; lia).
  destruct (put_fields_correct fields e _ Hr Hf Hk) as (e' & He & Hr' & Hfr).
  exists e'. split; [done|]. pose proof (enc_repr_len _ _ Hr) as L. pose proof (enc_repr_len _ _ Hr') as L'.
  rewrite zlen_app in L'.
  assert (Hb : zlen (fields_bits fields) = zsum snd fields).
  { clear -Hf. induction Hf as [|[v n] fields Hn _ IH]; [done|].
    rewrite fields_bits_cons, zlen_app, zsum_cons, IH. unfold zlen. rewrite length_bits_of. cbn in *. lia. }
  destruct Hr' as (B1 & B2 & B3 & _ & B5 & _). split_and!; [constructor; try done; lia|lia|done].
Qed.

Lemma put_bits_aligned e v n k :
  enc_aligned e -> n = 8 * k -> 0 <= n <= 31 -> enc_byte e + k <= enc_size e ->
  exists e', nr_rlc_pdu_encoder_put_bits e v n = Ok e' /\ enc_aligned e' /\ enc_byte e' = enc_byte e + k /\ enc_frame e e'.
Proof.
  intros Ha Hn Hr Hk. destruct (put_fields_aligned e [(v, n)] k Ha) as (e' & He & ?).
  - constructor; [exact Hr|constructor].
  - rewrite zsum_cons, zsum_nil. cbn. lia.
  - done.
  - exists e'. split; [|done]. cbn [put_fields] in He. by destruct (nr_rlc_pdu_encoder_put_bits e v n).
Qed.

Lemma bytes_ok_insert l i x : bytes_ok l -> is_byte x -> bytes_ok (<[i:=x]> l).
Proof. intros. by apply Forall_insert. Qed.

(** A byte of the buffer is overwritten. *)
Lemma enc_set_aligned e i x :
  enc_aligned e -> 0 <= i < zlen (enc_buffer e) -> is_byte x ->
  exists b, zset (enc_buffer e) i x = Some b /\ enc_aligned (e <| enc_buffer := b |>) /\ zlen b = zlen (enc_buffer e).
Proof.
  intros [H1 H2 H3 H4] Hi Hx. rewrite zset_ok by done. eexists. split; [done|].
  assert (Hl : zlen (<[Z.to_nat i:=x]> (enc_buffer e)) = zlen (enc_buffer e)).
  { unfold zlen. by rewrite length_insert. }
  split; [|done]. constructor; field_simpl; rewrite ?Hl; try done. by apply bytes_ok_insert.
Qed.

Lemma lor_byte a b : is_byte a -> is_byte b -> is_byte (Z.lor a b).
Proof.
  unfold is_byte. intros Ha Hb. split; [apply Z.lor_nonneg; lia|].
  destruct (Z.eq_dec (Z.lor a b) 0) as [->|Hne]; [lia|].
  assert (0 < Z.lor a b) by (pose proof (proj2 (Z.lor_nonneg a b) ltac:(lia)); lia).
  change 256 with (2 ^ 8). apply Z.log2_lt_pow2; [done|]. rewrite Z.log2_lor by lia.
  assert (Hlog : forall x, 0 <= x < 256 -> Z.log2 x < 8).
  { intros x Hx. destruct (Z.eq_dec x 0) as [->|]; [done|]. apply Z.log2_lt_pow2; lia. }
  pose proof (Hlog a Ha). pose proof (Hlog b Hb). lia.
Qed.

Lemma enc_or_aligned e i v :
  enc_aligned e -> 0 <= i < enc_byte e -> is_byte v ->
  exists e', enc_or e i v = Ok e' /\ enc_aligned e' /\ enc_byte e' = enc_byte e /\ enc_frame e e'.
Proof.
  intros Ha Hi Hv. pose proof Ha as [H1 H2 H3 H4]. unfold enc_or.
  destruct (zget_ok (enc_buffer e) i) as [b Hb]; [lia|]. rewrite Hb. cbn [of_option mbind outcome_bind].
  assert (Hbb : is_byte b).
  { apply zget_Some in Hb as [_ Hb]. rewrite Forall_lookup in H4. by eapply H4. }
  destruct (enc_set_aligned e i (Z.lor b v) Ha ltac:(lia)) as (b' & -> & Ha' & Hl); [by apply lor_byte|].
  cbn [of_option mbind outcome_bind]. eexists. split; [done|]. split; [done|]. by split.
Qed.

(** ** One NACK block *)

Record gen_ok (g : gen_t) : Prop := {
  go_enc : enc_aligned (gen_enc g);
  go_start : 3 <= enc_byte (gen_enc g);
  go_e1 : 0 <= gen_e1_byte g < enc_byte (gen_enc g) /\ 0 <= gen_e1_bit g < 8;
  go_so : forall a, gen_so_end_address g = Some a -> 0 <= a /\ a + 1 < enc_byte (gen_enc g);
}.

Definition gen_frame (g g' : gen_t) : Prop :=
  enc_frame (gen_enc g) (gen_enc g').

Lemma put_nack_correct e g sn_start so_start sn_end so_end count :
  am_config_ok e -> gen_ok g ->
  enc_byte (gen_enc g) + nack_size e sn_start so_start sn_end so_end <= enc_size (gen_enc g) ->
  exists g', put_nack e g sn_start so_start sn_end so_end count = Ok g' /\ gen_ok g' /\ gen_frame g g' /\
    enc_byte (gen_enc g') = enc_byte (gen_enc g) + nack_size e sn_start so_start sn_end so_end.
Proof.
  intros [Hlen _ _] [Ha Hs [He1 Hb1] Hso]. unfold put_nack, nack_size.
  set (nl := 2 + _). set (whole := (so_start =? 0) && _). intros Hroom.
  assert (Hnl : 2 <= nl <= 3) by (unfold nl; destruct (_ =? 18); lia).
  destruct (enc_or_aligned (gen_enc g) (gen_e1_byte g) (Z.shiftl 1 (gen_e1_bit g)) Ha He1)
    as (enc1 & -> & Ha1 & Hy1 & Hf1).
  { unfold is_byte. rewrite Z.shiftl_1_l. change 256 with (2 ^ 8). split; [apply Z.pow_nonneg; lia|].
    apply Z.pow_lt_mono_r; lia. }
  cbn [mbind outcome_bind].
  destruct (get_e1_position e enc1) as [e1_byte e1_bit] eqn:Ee1.
  assert (Hpos : enc_byte enc1 <= e1_byte < enc_byte enc1 + nl /\ 0 <= e1_bit < 8).
  { unfold get_e1_position, nl in *. destruct (_ =? 18); simplify_eq; lia. }
  pose proof Hf1 as [Fs1 Fl1].
  destruct (put_fields_aligned enc1 [(sn_start, am_sn_field_length e); (0, 1); (b2z (negb whole), 1);
      (b2z (negb (sn_start =? sn_end)), 1); (0, if am_sn_field_length e =? 18 then 3 else 1)] nl Ha1)
    as (enc2 & -> & Ha2 & Hy2 & Hf2).
  { repeat constructor; cbn; try lia; destruct Hlen as [-> | ->]; cbn; lia. }
  { rewrite !zsum_cons, zsum_nil. cbn [snd]. unfold nl. destruct Hlen as [-> | ->]; cbn; lia. }
  { rewrite Hy1, Fs1. destruct (sn_start =? sn_end), whole; lia. }
  cbn [mbind outcome_bind]. pose proof Hf2 as [Fs2 Fl2].
  assert (H3 : exists enc3 a, (if negb whole then
       enc ← nr_rlc_pdu_encoder_put_bits enc2 so_start 16;
       let so_end_address := enc_byte enc in
       enc ← nr_rlc_pdu_encoder_put_bits enc so_end 16;
       Ok (enc, Some so_end_address)
     else Ok (enc2, None)) = Ok (enc3, a) /\ enc_aligned enc3 /\ enc_frame enc2 enc3 /\
     enc_byte enc3 = enc_byte enc2 + (if whole then 0 else 4) /\
     (forall x, a = Some x -> 0 <= x /\ x + 1 < enc_byte enc3)).
  { destruct whole; cbn [negb].
    - exists enc2, None. split_and!; try done. lia.
    - destruct (put_bits_aligned enc2 so_start 16 2 Ha2) as (ea & -> & Hea & Hya & Hfa); [lia|lia| |].
      { rewrite Hy2, Hy1, Fs2, Fs1. destruct (sn_start =? sn_end); lia. }
      cbn [mbind outcome_bind]. pose proof Hfa as [Fsa _].
      destruct (put_bits_aligned ea so_end 16 2 Hea) as (eb & -> & Heb & Hyb & Hfb); [lia|lia| |].
      { rewrite Hya, Hy2, Hy1, Fsa, Fs2, Fs1. destruct (sn_start =? sn_end); lia. }
      cbn [mbind outcome_bind]. eexists _, _. split; [done|]. split_and!; [done|by eapply enc_frame_trans|lia|].
      intros x [= <-]. pose proof (ea_byte _ Hea). lia. }
  destruct H3 as (enc3 & a & H3 & Ha3 & Hf3 & Hy3 & Hso3). bind_with H3. pose proof Hf3 as [Fs3 _].
  assert (H4 : exists enc4, (if negb (sn_start =? sn_end) then nr_rlc_pdu_encoder_put_bits enc3 count 8 else Ok enc3)
      = Ok enc4 /\ enc_aligned enc4 /\ enc_frame enc3 enc4 /\
      enc_byte enc4 = enc_byte enc3 + (if sn_start =? sn_end then 0 else 1)).
  { destruct (sn_start =? sn_end) eqn:E; cbn [negb].
    - exists enc3. split_and!; try done. lia.
    - destruct (put_bits_aligned enc3 count 8 1 Ha3) as (ea & -> & Hea & Hya & Hfa); [lia|lia| |by exists ea].
      rewrite Hy3, Hy2, Hy1, Fs3, Fs2, Fs1. destruct whole; lia. }
  destruct H4 as (enc4 & H4 & Ha4 & Hf4 & Hy4). bind_with H4. eexists. split; [reflexivity|].
  assert (Hy : enc_byte enc4 = enc_byte (gen_enc g) + nl + (if whole then 0 else 4) + (if sn_start =? sn_end then 0 else 1)) by lia.
  split; [|split].
  - constructor; cbn [gen_enc gen_e1_byte gen_e1_bit gen_so_end_address]; [done|destruct whole, (sn_start =? sn_end); lia| |].
    + split; [destruct whole, (sn_start =? sn_end); lia|apply Hpos].
    + intros x Hx. destruct (Hso3 x Hx). destruct (sn_start =? sn_end); lia.
  - unfold gen_frame. cbn [gen_enc]. eauto using enc_frame_trans.
  - cbn [gen_enc]. destruct whole, (sn_start =? sn_end); lia.
Qed.

(** ** The missing parts *)

(** The sequence numbers of the receiver are in range. *)
Record am_sns_ok (e : nr_rlc_entity_am_t) : Prop := {
  sns_config : am_config_ok e;
  sns_list : Forall (fun p => sn_range (am_sn_modulus e) (pdu_sn p)) (am_rx_list e);
  sns_next : sn_range (am_sn_modulus e) (am_rx_next e);
  sns_status : sn_range (am_sn_modulus e) (am_rx_highest_status e);
}.

Lemma sns_ok_state e e' : am_rx_state e' = am_rx_state e -> am_sns_ok e -> am_sns_ok e'.
Proof.
  unfold am_rx_state. intros E [Hc H1 H2 H3]. simplify_eq.
  assert (am_config_ok e') by (destruct Hc; constructor; congruence).
  constructor; try done; by (repeat match goal with E : _ e' = _ e |- _ => rewrite ?E; clear E end).
Qed.

(** A missing part is between two sequence numbers; what is left of the list is
    shorter, unless the part is before its head. *)
Definition missing_ok (e : nr_rlc_entity_am_t) (cur : nr_rlc_pdu_t) (l : list nr_rlc_pdu_t)
    (head : bool) (m : missing_data_t) : Prop :=
  md_sn_start m = -1 \/
  sn_range (am_sn_modulus e) (md_sn_start m) /\ sn_range (am_sn_modulus e) (md_sn_end m) /\
  exists l0, (if head then cur :: l else l) = l0 ++ md_next m.

Section missing.
Context (e : nr_rlc_entity_am_t) (e_ok : am_sns_ok e).

Lemma rem_range a : 0 <= a -> sn_range (am_sn_modulus e) (Z.rem a (am_sn_modulus e)).
Proof.
  intros Ha. destruct (am_config_pos e (sns_config _ e_ok)). rewrite Z.rem_mod_nonneg by lia.
  apply Z.mod_pos_bound. lia.
Qed.

Lemma last_reported_range : sn_range (am_sn_modulus e) (am_last_reported e).
Proof. apply rem_range. pose proof (sns_status _ e_ok). unfold sn_range in *. lia. Qed.

Lemma set_end_ok sn_start so_start cur next l0 l :
  sn_range (am_sn_modulus e) sn_start -> sn_range (am_sn_modulus e) (pdu_sn cur) -> l = l0 ++ next ->
  let m := set_end_different_sdu e sn_start so_start cur next in
  sn_range (am_sn_modulus e) (md_sn_start m) /\ sn_range (am_sn_modulus e) (md_sn_end m) /\
  exists l0, l = l0 ++ md_next m.
Proof.
  intros Hs Hc ->. unfold set_end_different_sdu.
  assert (Hend : sn_range (am_sn_modulus e) (Z.rem (pdu_sn cur - 1 + am_sn_modulus e) (am_sn_modulus e))).
  { apply rem_range. unfold sn_range in Hc. lia. }
  pose proof last_reported_range.
  destruct (pdu_is_first cur); case_if; cbn; split_and!; try done; try (by exists l0);
    exists (l0 ++ next); by rewrite app_nil_r.
Qed.

Lemma missing_to_end_ok cur l sn_start so_start :
  sn_range (am_sn_modulus e) sn_start -> missing_ok e cur l false (missing_to_end e sn_start so_start).
Proof.
  intros Hs. unfold missing_to_end. case_if; [by left|right]. cbn.
  split_and!; [done|apply last_reported_range|]. exists l. by rewrite app_nil_r.
Qed.

Lemma missing_skip cur l p l' head m :
  missing_ok e p l' false m -> l = p :: l' -> missing_ok e cur l head m.
Proof.
  intros [|(H1 & H2 & l0 & ->)] ->; [by left|right]. split_and!; [done..|].
  destruct head; [by exists (cur :: p :: l0)|by exists (p :: l0)].
Qed.

Lemma next_missing_from_ok cur l max_so last_reached :
  Forall (fun p => sn_range (am_sn_modulus e) (pdu_sn p)) (cur :: l) ->
  missing_ok e cur l false (next_missing_from e cur l max_so last_reached).
Proof.
  revert cur max_so last_reached. induction l as [|next l IH]; intros cur max_so last_reached Hl;
    apply Forall_cons in Hl as [Hc Hl]; cbn [next_missing_from].
  - assert (Hs : sn_range (am_sn_modulus e) (Z.rem (pdu_sn cur + 1) (am_sn_modulus e))).
    { apply rem_range. unfold sn_range in Hc. lia. }
    destruct (pdu_data cur); [|by apply missing_to_end_ok]. case_if; by apply missing_to_end_ok.
  - set (mso := if _ >? max_so then _ else max_so). set (lr := last_reached || _). clearbody mso lr.
    assert (Hs : sn_range (am_sn_modulus e) (Z.rem (pdu_sn cur + 1) (am_sn_modulus e))).
    { apply rem_range. unfold sn_range in Hc. lia. }
    apply Forall_cons in Hl as [Hn Hl].
    destruct (_ && _); [eapply missing_skip; [by apply IH; constructor|done]|].
    destruct (_ && _); [eapply missing_skip; [by apply IH; constructor|done]|].
    destruct (_ =? pdu_sn cur).
    + case_if; [by left|right]. cbn. split_and!; [done..|]. by exists [].
    + destruct (if lr then _ else _) as [sn_start so_start] eqn:E.
      assert (sn_range (am_sn_modulus e) sn_start) by (destruct lr; by simplify_eq).
      case_if; [by left|right]. by apply (set_end_ok _ _ _ _ []).
Qed.

Lemma next_missing_ok cur l head :
  Forall (fun p => sn_range (am_sn_modulus e) (pdu_sn p)) (cur :: l) ->
  missing_ok e cur l head (next_missing e cur l head).
Proof.
  intros Hl. unfold next_missing. destruct (head && _) eqn:E.
  - apply andb_true_iff in E as [-> _]. case_if; [by left|right].
    apply Forall_cons in Hl as [Hc _]. apply (set_end_ok _ _ _ _ []); [apply e_ok|done|done].
  - destruct (next_missing_from_ok cur l 0 false Hl) as [|(H1 & H2 & l0 & El)]; [by left|right].
    split_and!; [done..|]. destruct head; [|by exists l0]. exists (cur :: l0). cbn [app]. f_equal. exact El.
Qed.

Lemma sn_count_pos m :
  sn_range (am_sn_modulus e) (md_sn_start m) -> sn_range (am_sn_modulus e) (md_sn_end m) ->
  0 < am_sn_count e m <= 255 * Z.of_nat (am_ranges_fuel e m).
Proof.
  unfold sn_range. intros Hs He. destruct (am_config_pos e (sns_config _ e_ok)).
  assert (Hp : 0 < am_sn_count e m).
  { unfold am_sn_count. rewrite Z.rem_mod_nonneg by lia.
    pose proof (Z.mod_pos_bound (md_sn_end m - md_sn_start m + am_sn_modulus e) (am_sn_modulus e)). lia. }
  split; [done|]. unfold am_ranges_fuel. pose proof (Z.div_pos (am_sn_count e m) 255 ltac:(lia) ltac:(lia)).
  rewrite Z2Nat.id by lia. pose proof (Z.mul_succ_div_gt (am_sn_count e m) 255). lia.
Qed.
End missing.

(** ** The loops: sizes and generation go together *)

(** The bits of a NACK block, in bytes. *)
Lemma nack_bits_size e sn_start so_start sn_end so_end :
  am_config_ok e ->
  let base := am_sn_field_length e + 3 + (if am_sn_field_length e =? 18 then 3 else 1) in
  Z.quot (if sn_start =? sn_end then
            if (so_start =? 0) && (so_end =? 65535) then base else base + 16 * 2
          else
            if (so_start =? 0) && (so_end =? 65535) then base + 8 else base + 16 * 2 + 8) 8
  = nack_size e sn_start so_start sn_end so_end.
Proof.
  unfold nack_size. intros [[-> | ->] _ _];
    destruct (sn_start =? sn_end), ((so_start =? 0) && (so_end =? 65535)); reflexivity.
Qed.

Lemma generate_missing_loop_correct fuel e m g sn_start sn_count :
  am_config_ok e -> gen_ok g -> 0 <= sn_count <= 255 * Z.of_nat fuel ->
  exists g' t k, generate_missing_loop fuel e m g sn_start sn_count = Ok (g', t) /\
    gen_ok g' /\ gen_frame g g' /\ 0 <= k /\ (t = false -> 0 < sn_count -> 0 < k) /\
    forall c, missing_size_loop fuel e m sn_start sn_count c (enc_byte (gen_enc g)) (enc_size (gen_enc g))
              = Ok (c + k, enc_byte (gen_enc g'), t).
Proof.
  intros Hc. revert g sn_start sn_count. induction fuel as [|fuel IH]; intros g sn_start sn_count Hg Hf;
    cbn [generate_missing_loop missing_size_loop]; (destruct (sn_count =? 0) eqn:E; zify_bool;
    [exists g, false, 0; split_and!; try done; [lia|intros c; by rewrite Z.add_0_r]|]).
  - lia.
  - set (cnt := if _ >? 255 then _ else _).
    assert (Hcnt : 0 < cnt <= 255 /\ cnt <= sn_count /\ sn_count - cnt <= 255 * Z.of_nat fuel).
    { unfold cnt. case_if; lia. }
    clearbody cnt. destruct (nack_block e m sn_start sn_count) as [[so_start sn_end] so_end].
    destruct (_ >? _) eqn:Eroom; zify_bool.
    { exists g, true, 0. split_and!; try done. intros c. by rewrite Z.add_0_r. }
    destruct (put_nack_correct e g sn_start so_start sn_end so_end cnt Hc Hg Eroom) as (g1 & -> & Hg1 & Hf1 & Hb1).
    cbn [mbind outcome_bind]. rewrite nack_bits_size by done. pose proof Hf1 as [Hs1 _].
    destruct (IH g1 (Z.rem (sn_start + cnt) (am_sn_modulus e)) (sn_count - cnt) Hg1 ltac:(lia))
      as (g' & t & k & Hr & Hg' & Hf' & Hk & _ & Hsize).
    exists g', t, (1 + k). split; [done|]. split_and!; try done; try lia.
    + unfold gen_frame in *. by eapply enc_frame_trans.
    + intros c. rewrite <- Hb1, <- Hs1, Hsize. do 3 f_equal. lia.
Qed.

Lemma generate_nacks_correct fuel e l head g last_nack nacks :
  am_sns_ok e -> gen_ok g -> Forall (fun p => sn_range (am_sn_modulus e) (pdu_sn p)) l ->
  0 <= nacks -> head = (nacks =? 0) \/ l = [] -> (length l + (if head then 1 else 0) <= fuel)%nat ->
  exists g' last', generate_nacks fuel e l head g last_nack = Ok (g', last') /\ gen_ok g' /\ gen_frame g g' /\
    status_size_loop fuel e l nacks (enc_byte (gen_enc g)) (enc_size (gen_enc g)) = Ok (enc_byte (gen_enc g')).
Proof.
  intros He. revert l head g last_nack nacks.
  induction fuel as [|fuel IH]; intros l head g last_nack nacks Hg Hl Hn Hhead Hf;
    (destruct l as [|cur l]; cbn [generate_nacks status_size_loop]; [exists g, last_nack; by split_and!|]).
  { cbn in Hf. lia. }
  destruct Hhead as [Hhead|]; [|done]. rewrite <- Hhead.
  pose proof (next_missing_ok e He cur l head Hl) as Hm. set (m := next_missing e cur l head) in *. clearbody m.
  destruct (md_sn_start m =? -1) eqn:Em; zify_bool; [exists g, last_nack; by split_and!|].
  destruct Hm as [|(Hs & Hend & l0 & El)]; [done|].
  pose proof (sn_count_pos e He m Hs Hend) as Hcount.
  assert (Hg0 : gen_ok (g <| gen_last_nack := -1 |>)) by (destruct Hg; by constructor).
  destruct (generate_missing_loop_correct (am_ranges_fuel e m) e m (g <| gen_last_nack := -1 |>) (md_sn_start m)
    (am_sn_count e m) (sns_config _ He) Hg0 ltac:(lia)) as (g1 & t & k & Hr & Hg1 & Hf1 & Hk & Ht & Hsize).
  unfold generate_missing, missing_size. rewrite Hr.
  change (gen_enc (g <| gen_last_nack := -1 |>)) with (gen_enc g) in *.
  rewrite (Hsize 0). cbn [mbind outcome_bind].
  set (m' := if t then _ else m).
  assert (Hm' : exists l1, l = l1 ++ md_next m' \/ head = true /\ cur :: l = l1 ++ md_next m').
  { unfold m'. destruct t; [exists l; left; field_simpl; by rewrite app_nil_r|]. exists l0. destruct head; [by right|by left]. }
  assert (Hkm : 0 < k \/ md_next m' = []).
  { unfold m'. destruct t; [by right|left]. apply Ht; [done|lia]. }
  clearbody m'.
  assert (Henc : exists enc, match gen_so_end_address g1 with
                  | Some a =>
                      if (t : bool) then
                        b ← of_option OutOfBounds (zset (enc_buffer (gen_enc g1)) a 255);
                        b ← of_option OutOfBounds (zset b (a + 1) 255);
                        Ok ((gen_enc g1) <| enc_buffer := b |>)
                      else Ok (gen_enc g1)
                  | None => Ok (gen_enc g1)
                  end = Ok enc /\ enc_aligned enc /\ enc_frame (gen_enc g1) enc /\
                  enc_byte enc = enc_byte (gen_enc g1)).
  { destruct (gen_so_end_address g1) as [a|] eqn:Ea; [|exists (gen_enc g1); split_and!; try done; apply Hg1].
    destruct t; [|exists (gen_enc g1); split_and!; try done; apply Hg1].
    destruct (go_so _ Hg1 a Ea) as [Ha1 Ha2]. pose proof (go_enc _ Hg1) as Hal. pose proof (ea_byte _ Hal).
    pose proof (ea_size _ Hal).
    destruct (enc_set_aligned (gen_enc g1) a 255 Hal) as (b1 & -> & Hal1 & Hl1); [lia|by unfold is_byte|].
    cbn [of_option mbind outcome_bind].
    destruct (enc_set_aligned _ (a + 1) 255 Hal1) as (b2 & Hb2 & Hal2 & Hl2); [field_simpl; lia|by unfold is_byte|].
    field_simpl_in Hb2. rewrite Hb2. cbn [of_option mbind outcome_bind]. eexists. split; [done|].
    field_simpl_in Hl2. split_and!; [done| |done]. split; field_simpl; [done|lia]. }
  destruct Henc as (enc & -> & Hal & Hfe & Hbe). cbn [mbind outcome_bind].
  destruct (IH (md_next m') false (g1 <| gen_enc := enc |>)
    (if gen_last_nack g1 =? -1 then last_nack else gen_last_nack g1) (nacks + (0 + k))) as
    (g' & last' & Hgen & Hg' & Hf' & Hst).
  - destruct Hg1 as [_ G2 G3 G4]. constructor; field_simpl; rewrite ?Hbe; done.
  - destruct Hm' as (l1 & [El'|[_ El']]); [|rewrite El' in Hl; by apply Forall_app in Hl as [_ ?]].
    apply Forall_cons in Hl as [_ Hl]. rewrite El' in Hl. by apply Forall_app in Hl as [_ ?].
  - lia.
  - destruct Hkm as [Hk0|]; [left|by right]. symmetry. apply Z.eqb_neq. lia.
  - destruct Hm' as (l1 & [El'|[-> El']]); apply (f_equal length) in El'; rewrite length_app in El';
      cbn [length] in *; lia.
  - exists g', last'. split; [done|]. split; [done|].
    change (gen_enc (g1 <| gen_enc := enc |>)) with enc in *. split.
    + unfold gen_frame in *. change (gen_enc (g1 <| gen_enc := enc |>)) with enc in Hf'.
      change (gen_enc (g <| gen_last_nack := -1 |>)) with (gen_enc g) in Hf1.
      eapply enc_frame_trans; [exact Hf1|]. by eapply enc_frame_trans.
    + destruct Hf1 as [Hs1 _], Hfe as [Hse _]. cbn [gen_enc] in Hs1.
      rewrite <- Hst, Hbe. f_equal. rewrite Hse. done.
Qed.

(** ** The whole report *)

Lemma land_byte x : is_byte (Z.land x 255).
Proof.
  unfold is_byte. change 255 with (Z.ones 8). rewrite Z.land_ones by lia. apply Z.mod_pos_bound. lia.
Qed.

Lemma zset_byte l i x :
  bytes_ok l -> 0 <= i < zlen l -> is_byte x ->
  exists l', zset l i x = Some l' /\ bytes_ok l' /\ zlen l' = zlen l.
Proof.
  intros Hl Hi Hx. rewrite zset_ok by done. eexists. split; [done|].
  split; [by apply bytes_ok_insert|]. unfold zlen. by rewrite length_insert.
Qed.

Lemma put_ack_sn_correct e buffer ack_sn :
  bytes_ok buffer -> 3 <= zlen buffer ->
  exists buffer', put_ack_sn e buffer ack_sn = Ok buffer' /\ bytes_ok buffer' /\ zlen buffer' = zlen buffer.
Proof.
  intros Hb Hl. unfold put_ack_sn.
  assert (H63 : is_byte (Z.shiftl (Z.land ack_sn 63) 2)).
  { unfold is_byte. change 63 with (Z.ones 6). rewrite Z.land_ones, Z.shiftl_mul_pow2 by lia.
    pose proof (Z.mod_pos_bound ack_sn (2 ^ 6)). lia. }
  destruct (_ =? 12).
  - destruct (zset_byte buffer 0 (Z.land (Z.shiftr ack_sn 8) 255) Hb ltac:(lia) (land_byte _)) as (b1 & -> & Hb1 & Hl1).
    cbn [of_option mbind outcome_bind].
    destruct (zset_byte b1 1 (Z.land ack_sn 255) Hb1 ltac:(lia) (land_byte _)) as (b2 & -> & Hb2 & Hl2).
    exists b2. by split_and!; [|done|congruence].
  - destruct (zset_byte buffer 0 (Z.land (Z.shiftr ack_sn 14) 255) Hb ltac:(lia) (land_byte _)) as (b1 & -> & Hb1 & Hl1).
    cbn [of_option mbind outcome_bind].
    destruct (zset_byte b1 1 (Z.land (Z.shiftr ack_sn 6) 255) Hb1 ltac:(lia) (land_byte _)) as (b2 & -> & Hb2 & Hl2).
    cbn [of_option mbind outcome_bind].
    destruct (zget_ok b2 2 ltac:(lia)) as [x Hx]. rewrite Hx. cbn [of_option mbind outcome_bind].
    assert (Hxb : is_byte x).
    { apply zget_Some in Hx as [_ Hx]. rewrite Forall_lookup in Hb2. by eapply Hb2. }
    destruct (zset_byte b2 2 _ Hb2 ltac:(lia) (lor_byte _ _ Hxb H63)) as (b3 & -> & Hb3 & Hl3).
    exists b3. by split_and!; [|done|congruence].
Qed.

Lemma generate_status_correct e buffer size :
  am_sns_ok e -> bytes_ok buffer -> size <= zlen buffer ->
  exists n buffer' e', generate_status e buffer size = Ok (n, buffer', e') /\ status_size e size = Ok n /\
    bytes_ok buffer' /\ zlen buffer' = zlen buffer /\
    am_tx_view e' = am_tx_view e /\ am_rx_view e' = am_rx_view e /\
    (size < 3 /\ n = 0 /\ buffer' = buffer /\ e' = e \/
     3 <= n <= size /\ am_status_triggered e' = false /\ am_t_status_prohibit_start e' = am_t_current e).
Proof.
  intros He Hb Hsize. unfold generate_status, status_size. destruct (size <? 3) eqn:E3; zify_bool.
  { exists 0, buffer, e. split_and!; try done. by left. }
  set (enc0 := nr_rlc_pdu_encoder_init buffer size).
  assert (Ha0 : enc_aligned enc0) by (constructor; cbn; try done; lia).
  destruct (put_bits_aligned enc0 0 (8 * 3) 3 Ha0) as (enc & -> & Ha & Hy & Hf); [lia|lia|cbn; lia|].
  cbn [mbind outcome_bind]. change (enc_byte enc0) with 0 in Hy. destruct Hf as [Hs Hl].
  change (enc_size enc0) with size in Hs. change (enc_buffer enc0) with buffer in Hl.
  set (g := mk_gen enc _ _ _ _).
  assert (Hg : gen_ok g).
  { constructor; cbn [gen_enc gen_e1_byte gen_e1_bit gen_so_end_address g]; try done; [lia|].
    destruct (_ =? 18); lia. }
  destruct (generate_nacks_correct (am_status_fuel e) e (am_rx_list e) true g
    (Z.rem (am_rx_next e - 1 + am_sn_modulus e) (am_sn_modulus e)) 0 He Hg (sns_list _ He)) as
    (g' & last & -> & Hg' & [Hs' Hl'] & Hst); [lia|by left|unfold am_status_fuel; lia|].
  cbn [mbind outcome_bind]. change (gen_enc g) with enc in *. rewrite Hy, Hs in Hst. change (0 + 3) with 3 in Hst. rewrite Hst.
  destruct (put_ack_sn_correct e (enc_buffer (gen_enc g')) (Z.rem (last + 1) (am_sn_modulus e)))
    as (buffer' & -> & Hb' & Hlen); [exact (ea_bytes _ (go_enc _ Hg'))|pose proof (ea_size _ (go_enc _ Hg')); lia|].
  cbn [mbind outcome_bind]. eexists _, _, _. split; [reflexivity|].
  pose proof (ea_byte _ (go_enc _ Hg')) as Hby. pose proof (go_start _ Hg').
  split_and!; try done; [lia|]. right. split_and!; try done; lia.
Qed.
