(* ===== verification/RlcAmProps.v ===== *)
(** * The acknowledged mode entity: properties

    Any sequence of calls: SDUs to send, grants, PDUs of the peer (segments of
    its SDUs, in its window, and status reports), time and discards. *)

From S2P Require Import Prelude TimeStat RlcPdu RlcSdu RlcReassembly RlcRxList RlcEntity RlcAm.
From S2P Require Import RlcAmCtrl RlcAmRecv RlcAmStatus RlcAmSend RlcAmQueue RlcAmTx RlcAmWalk.
From S2P Require Import RlcAmCtrlProps RlcAmReport RlcAmRx RlcAmStatusProps.

(** ** A new entity *)

Lemma new_am_correct rx_maxsize tx_maxsize t_poll t_reassembly t_prohibit poll_pdu poll_byte max_retx len :
  len = 12 \/ len = 18 ->
  exists e, new_nr_rlc_entity_am rx_maxsize tx_maxsize t_poll t_reassembly t_prohibit poll_pdu poll_byte
              max_retx len = Ok e /\
    am_config_ok e /\ am_sn_field_length e = len /\ am_tx_inv e [] /\
    (forall sent, am_rx_inv sent e 0 0 0 []) /\ events (am_common e) = [].
Proof.
  intros Hlen. destruct (new_common_ok NR_RLC_AM) as (c & Hc & Hok & Hh & He & Hb).
  unfold new_nr_rlc_entity_am. rewrite Hc.
  assert (Hr : require ((len =? 12) || (len =? 18)) Exit = Ok tt) by by destruct Hlen as [-> | ->].
  rewrite Hr. cbn [mbind outcome_bind]. eexists. split; [done|].
  assert (HM : 0 < Z.shiftl 1 len / 2 /\ Z.shiftl 1 len = 2 * (Z.shiftl 1 len / 2) /\ Z.shiftl 1 len = 2 ^ len).
  { by destruct Hlen as [-> | ->]. }
  destruct HM as (HM1 & HM2 & HM3).
  split; [|split; [done|split; [|split; [|done]]]].
  - by constructor.
  - assert (sn_range (Z.shiftl 1 len) 0) by (split; lia).
    assert (Hq : am_q (Z.shiftl 1 len) (Z.shiftl 1 len / 2) (heap c) [] [] [] [] 0 0).
    { rewrite Hh. constructor; try done; try (by constructor).
      - apply heap_inv_empty.
      - unfold am_key. rewrite Z.mod_0_l; lia. }
    constructor; try done; cbn [am_common]; rewrite ?Hh, ?Hb; try done.
  - intros sent. split_and!; [|by split|by unfold am_trigger].
    constructor; cbn [am_rx_next am_rx_highest_status am_rx_next_highest am_window_size am_sn_modulus
      am_rx_list am_rx_size]; try done; try lia.
    + apply rx_list_ok_nil.
    + constructor.
    + intros n. split; [intros Hn; by apply not_elem_of_nil in Hn|]. intros [?|[? Hd]]; [lia|done].
Qed.

(** ** Grants *)

(** The PDU carries a segment of the retransmit list or of the transmit list. *)
Definition am_sent_data (e e' : nr_rlc_entity_am_t) (size : Z) (pdu : list Z) : Prop :=
  (exists s l, am_retransmit_list e = s :: l /\ am_tx_list e' = am_tx_list e /\
     am_generated (am_sn_field_length e) (heap (am_common e)) s l (am_retransmit_list e') (am_wait_list e)
       (am_wait_list e') sdu_sn size pdu) \/
  (exists s l, am_tx_list e = s :: l /\ am_retransmit_list e' = am_retransmit_list e /\
     am_generated (am_sn_field_length e) (heap (am_common e)) s l (am_tx_list e') (am_wait_list e)
       (am_wait_list e') (am_first_sn e) size pdu).

(** Or it is a status report. *)
Definition am_sent (e e' : nr_rlc_entity_am_t) (size : Z) (pdu : list Z) : Prop :=
  am_status_triggered e' = false /\ status_size e size = Ok (zlen pdu) \/ am_sent_data e e' size pdu.

Lemma am_generated_le len h s l l' w w' sn size pdu :
  am_generated len h s l l' w w' sn size pdu -> zlen pdu <= size.
Proof. by intros (p & u & s1 & _ & _ & _ & _ & _ & ? & _). Qed.

Lemma am_generate_data_correct e lost buffer size now :
  am_config_ok e -> am_tx_inv e lost -> bytes_ok buffer -> size <= zlen buffer ->
  exists n buffer' e', am_generate_data e buffer size now = Ok (n, buffer', e') /\
    am_tx_inv e' lost /\ am_rx_view e' = am_rx_view e /\
    (n = 0 /\ e' = e \/ 0 < n <= size /\ zlen (take (Z.to_nat n) buffer') = n /\
       am_sent_data e e' size (take (Z.to_nat n) buffer')).
Proof.
  intros Hc Hinv Hb Hsize. unfold am_generate_data.
  assert (Htx : exists n buffer' e', am_generate_tx_pdu e buffer size now = Ok (n, buffer', e') /\
    am_tx_inv e' lost /\ am_rx_view e' = am_rx_view e /\
    (n = 0 /\ e' = e \/ 0 < n <= size /\ zlen (take (Z.to_nat n) buffer') = n /\
       am_sent_data e e' size (take (Z.to_nat n) buffer'))).
  { destruct (am_generate_tx_correct e lost buffer size now Hc Hinv Hb Hsize)
      as (n & buffer' & e' & -> & Hinv' & Hrx & _ & Hcase).
    exists n, buffer', e'. split_and!; try done.
    destruct Hcase as [(? & _ & ?)|(Hn & Hl & s & l & El & Er & Hg)]; [by left|right].
    pose proof (am_generated_le _ _ _ _ _ _ _ _ _ _ Hg). split; [lia|]. split; [done|].
    right. by exists s, l. }
  destruct (am_retransmit_list e) as [|s l] eqn:Er; [done|].
  destruct (am_generate_retx_correct e lost s l buffer size Hc Hinv Er Hb Hsize)
    as (n & buffer' & e' & -> & Hinv' & Hrx & _ & Et & Hcase).
  cbn [mbind outcome_bind]. destruct Hcase as [(-> & -> & ->)|(Hn & Hl & Hg)]; [done|].
  destruct (n =? 0) eqn:En; zify_bool; [lia|]. cbn [negb].
  exists n, buffer', e'. split_and!; try done. right.
  pose proof (am_generated_le _ _ _ _ _ _ _ _ _ _ Hg). split; [lia|]. split; [done|].
  left. exists s, l. by rewrite Er.
Qed.

Lemma am_generate_correct e lost buffer size now :
  am_sns_ok e -> am_tx_inv e lost -> bytes_ok buffer -> size <= zlen buffer ->
  exists n buffer' e', nr_rlc_entity_am_generate_pdu e buffer size now = Ok (n, buffer', e') /\
    am_tx_inv e' lost /\ am_rx_view e' = am_rx_view e /\
    (n = 0 /\ e' = e \/ 0 < n <= size /\ zlen (take (Z.to_nat n) buffer') = n /\
       am_sent e e' size (take (Z.to_nat n) buffer')).
Proof.
  intros Hs Hinv Hb Hsize. pose proof (sns_config _ Hs) as Hc. unfold nr_rlc_entity_am_generate_pdu.
  assert (Hdata : exists n buffer' e', am_generate_data e buffer size now = Ok (n, buffer', e') /\
    am_tx_inv e' lost /\ am_rx_view e' = am_rx_view e /\
    (n = 0 /\ e' = e \/ 0 < n <= size /\ zlen (take (Z.to_nat n) buffer') = n /\
       am_sent e e' size (take (Z.to_nat n) buffer'))).
  { destruct (am_generate_data_correct e lost buffer size now Hc Hinv Hb Hsize)
      as (n & buffer' & e' & ? & ? & ? & Hcase).
    exists n, buffer', e'. split_and!; try done.
    destruct Hcase as [?|(? & ? & ?)]; [by left|right]. split_and!; try done; lia || by right. }
  destruct (status_to_report e); [|done].
  destruct (generate_status_correct e buffer size Hs Hb Hsize)
    as (n & buffer' & e' & -> & Hst & Hb' & Hl & Htx & Hrx & Hcase). cbn [mbind outcome_bind].
  destruct Hcase as [(_ & -> & -> & ->)|(Hn & Htr & _)]; [done|].
  destruct (n =? 0) eqn:En; zify_bool; [lia|]. cbn [negb].
  assert (Hz : zlen (take (Z.to_nat n) buffer') = n) by (apply zlen_take; lia).
  exists n, buffer', e'. split_and!; try done; [by eapply am_tx_inv_view|]. right.
  split; [lia|]. split; [done|]. left. by rewrite Hz.
Qed.

(** ** PDUs of the peer *)

(** [pdu] carries an SDU of the peer, the one it numbered [n], or a segment of it. *)
Definition am_peer_pdu (sent : Z -> list Z) (len n : Z) (pdu : list Z) : Prop :=
  exists p s u, am_carries len p (n mod 2 ^ len) s u pdu /\ seg_range s u /\ 0 < seg_size s /\
    sdu_data u = sent n /\ sdu_size u = zlen (sent n).

(** [pdu] starts with the D/C bit of a status report. *)
Definition am_is_control (pdu : list Z) : bool :=
  match pdu with [] => true | b :: _ => negb (Z.testbit b 7) end.

(** A report of a peer that acknowledges what was sent: when the entity accepts
    it, its NACKs are before its ACK_SN, and no SDU before ACK_SN has bytes that
    were never sent. *)
Definition am_peer_report (e : nr_rlc_entity_am_t) (pdu : list Z) : Prop :=
  forall ack_sn ns, am_report e pdu (zlen pdu) = Ok (Some (ack_sn, ns)) ->
    am_report_ok e ack_sn ns = true -> am_nacks_before e ack_sn ns /\ am_ack_sane e ack_sn.

Lemma am_recv_control e pdu :
  am_is_control pdu = true ->
  nr_rlc_entity_am_recv_pdu e pdu (zlen pdu) =
    match pdu with
    | [] => Ok (am_discard_pdu (am_count_rx e 0) false 0)
    | _ :: _ => process_control_pdu (am_count_rx e (zlen pdu)) pdu (zlen pdu)
    end.
Proof.
  intros Hctl. unfold nr_rlc_entity_am_recv_pdu. destruct pdu as [|b l]; [done|].
  fold (am_count_rx e (zlen (b :: l))). set (d0 := nr_rlc_pdu_decoder_init _ _).
  pose proof (dec_repr_init (b :: l) _ eq_refl) as Hd0. fold d0 in Hd0.
  assert (Hb : exists bits, buffer_bits (b :: l) = [Z.testbit b 7] ++ bits) by by eexists.
  destruct Hb as [bits Hb]. rewrite Hb in Hd0.
  destruct (get_bits_correct d0 [Z.testbit b 7] bits Hd0 ltac:(done)) as (d1 & H1 & [He1 _] & _).
  change (zlen [_]) with 1 in H1. rewrite H1. cbn [mbind outcome_bind]. rewrite He1.
  cbn [am_is_control] in Hctl. destruct (Z.testbit b 7); [done|]. by change (bits_val [false] =? 0) with true.
Qed.

(** ** Calls *)

Inductive am_call : Type :=
| AmSdu (buffer : list Z) (sdu_id now : Z)
| AmGrant (buffer : list Z) (size now : Z)
| AmDiscard (sdu_id : Z)
| AmPdu (pdu : list Z)
| AmTime (now : Z).

(** What a call does, and the PDU it generates. *)
Definition am_step (e : nr_rlc_entity_am_t) (c : am_call) : outcome (list Z * nr_rlc_entity_am_t) :=
  match c with
  | AmSdu buffer sdu_id now =>
      e ← nr_rlc_entity_am_recv_sdu e buffer (zlen buffer) sdu_id now; Ok ([], e)
  | AmGrant buffer size now =>
      '(n, buffer, e) ← nr_rlc_entity_am_generate_pdu e buffer size now; Ok (take (Z.to_nat n) buffer, e)
  | AmDiscard sdu_id => e ← nr_rlc_entity_am_discard_sdu e sdu_id; Ok ([], e)
  | AmPdu pdu => e ← nr_rlc_entity_am_recv_pdu e pdu (zlen pdu); Ok ([], e)
  | AmTime now => e ← nr_rlc_entity_am_set_time e now; Ok ([], e)
  end.

Definition am_pdu_fits (c : am_call) (pdu : list Z) : Prop :=
  match c with AmGrant _ size _ => pdu = [] \/ zlen pdu <= size | _ => pdu = [] end.

(** The calls an entity expects; [B] is the absolute number of [rx_next].  The
    peer keeps its SDUs in the window, [B - W, B + W). *)
Definition am_call_ok (sent : Z -> list Z) (e : nr_rlc_entity_am_t) (B : Z) (c : am_call) : Prop :=
  match c with
  | AmSdu buffer _ _ => 0 < zlen buffer <= NR_SDU_MAX
  | AmGrant buffer size _ => bytes_ok buffer /\ size <= zlen buffer
  | AmDiscard _ => True
  | AmPdu pdu =>
      (exists n, B - am_window_size e <= n < B + am_window_size e /\
         am_peer_pdu sent (am_sn_field_length e) n pdu) \/
      (am_is_control pdu = true /\ am_peer_report e pdu)
  | AmTime _ => am_poll_ok e
  end.

(** Sequences of calls, each one expected. *)
Inductive am_steps (sent : Z -> list Z) : nr_rlc_entity_am_t -> Z -> nr_rlc_entity_am_t -> Z -> Prop :=
| am_steps_nil e B : am_steps sent e B e B
| am_steps_cons e B c pdu e1 e2 B2 :
    am_call_ok sent e B c -> am_step e c = Ok (pdu, e1) ->
    am_steps sent e1 (abs_sn (am_sn_modulus e1) B (am_rx_next e1)) e2 B2 ->
    am_steps sent e B e2 B2.

(** The SDUs handed to the upper layer. *)
Definition am_delivered (e : nr_rlc_entity_am_t) : list (list Z) :=
  omap (fun ev => match ev with DeliverSdu d => Some d | _ => None end) (events (am_common e)).

Section calls.
Context (sent : Z -> list Z) (sent_size : forall n, 0 < zlen (sent n) <= NR_SDU_MAX).

Record am_inv (e : nr_rlc_entity_am_t) (B S H : Z) (done : list Z) : Prop := {
  am_inv_rx : am_rx_inv sent e B S H done;
  am_inv_tx : am_tx_inv e [];
  am_inv_delivered : am_delivered e = sent <$> done;
}.

(** What every call does to the invariant. *)
Definition am_moves (e e' : nr_rlc_entity_am_t) (B : Z) (done : list Z) : Prop :=
  exists B' S' H' new, am_inv e' B' S' H' (done ++ new) /\ B <= B' <= B + am_window_size e /\
    am_sn_field_length e' = am_sn_field_length e /\ am_sn_modulus e' = am_sn_modulus e.

Lemma am_inv_config e B S H done : am_inv e B S H done -> am_config_ok e.
Proof. intros [(Hc & _) _ _]. apply Hc. Qed.

(** The receiver is left alone. *)
Lemma am_moves_same e e' B S H done ev :
  am_inv e B S H done -> am_tx_inv e' [] -> am_rx_state e' = am_rx_state e ->
  events (am_common e') = events (am_common e) ++ ev -> (forall d, DeliverSdu d ∉ ev) ->
  am_moves e e' B done.
Proof.
  intros Hinv Htx Hrx Hev Hno. destruct (am_config_pos e (am_inv_config _ _ _ _ _ Hinv)) as [Hw _].
  destruct Hinv as [Hr _ Hd]. exists B, S, H, []. rewrite app_nil_r. split; [split|].
  - by eapply am_rx_inv_state.
  - done.
  - unfold am_delivered in *. rewrite Hev, omap_app, Hd.
    rewrite <- (app_nil_r (sent <$> done)) at 2. f_equal.
    clear -Hno. induction ev as [|x ev IH]; [done|]. destruct x as [d| |]; cbn; try (apply IH; set_solver).
    destruct (Hno d). set_solver.
  - unfold am_rx_state in Hrx. simplify_eq. split_and!; done || lia.
Qed.

Lemma am_moves_view e e' B S H done :
  am_inv e B S H done -> am_tx_inv e' [] -> am_rx_view e' = am_rx_view e -> am_moves e e' B done.
Proof.
  intros Hinv Htx Hrx. unfold am_rx_view in Hrx.
  eapply (am_moves_same e e' B S H done []); [done|done| | |set_solver].
  - unfold am_rx_state. congruence.
  - rewrite app_nil_r. congruence.
Qed.

Lemma am_sns_ok_inv e B S H done : am_rx_inv sent e B S H done -> am_sns_ok e.
Proof.
  intros (Hc & _). destruct (am_config_pos e (ar_config _ _ _ _ _ _ Hc)) as [Hw Hm].
  constructor.
  - apply Hc.
  - eapply Forall_impl; [apply (rl_window _ _ _ _ _ _ (ar_list _ _ _ _ _ _ Hc))|]. cbn. by intros p [? _].
  - rewrite (ar_next _ _ _ _ _ _ Hc). apply Z.mod_pos_bound. lia.
  - rewrite (ar_status _ _ _ _ _ _ Hc). apply Z.mod_pos_bound. lia.
Qed.

(** A segment of an SDU of the peer. *)
Lemma am_recv_peer_pdu e B S H done n pdu :
  am_rx_inv sent e B S H done -> B - am_window_size e <= n < B + am_window_size e ->
  am_peer_pdu sent (am_sn_field_length e) n pdu ->
  exists e', nr_rlc_entity_am_recv_pdu e pdu (zlen pdu) = Ok e' /\ am_received sent (am_count_rx e (zlen pdu)) e' B S H done n.
Proof.
  intros Hinv Hn (p & s & u & Hcarry & Hrange & Hsz & Hd & Hus).
  assert (Hc : am_config_ok e) by apply Hinv. destruct (am_config_pos e Hc) as [Hw Hm].
  rewrite <- (am_cfg_modulus e Hc) in Hcarry.
  rewrite (am_recv_pdu_decodes e p (n mod am_sn_modulus e) s u pdu Hc Hcarry Hrange);
    [|by rewrite Hd, Hus|rewrite Hus; apply sent_size|apply Z.mod_pos_bound; lia|done].
  set (hs := am_pdu_header_size _ _). set (e1 := am_count_rx e (zlen pdu)).
  destruct Hrange as (Hso & _ & Hend & Hfirst & Hlast & _). unfold seg_end in *.
  assert (Ef : is_first s = (seg_so s =? 0)) by (apply eq_true_iff_eq; by rewrite Hfirst, Z.eqb_eq).
  destruct Hcarry as (hdr & data & Epdu & Hhl & _ & Hslice). fold hs in Hhl.
  assert (2 <= hs) by apply am_header_size_bounds. pose proof (zslice_len _ _ _ _ Hslice) as Hdl.
  assert (Hlen : zlen pdu - hs = seg_size s) by (rewrite Epdu, zlen_app; lia).
  rewrite Ef. change (am_sn_modulus e) with (am_sn_modulus e1).
  apply (am_recv_segment_correct sent sent_size e1 B S H done); [by eapply am_rx_inv_state; [|exact Hinv]|done|].
  constructor; rewrite ?Hlen; try lia.
  - apply eq_true_iff_eq. rewrite Hlast, Z.eqb_eq. lia.
  - rewrite Hd in Hslice. rewrite Hslice, Epdu, <- Hhl. by apply zslice_app_r.
Qed.

Lemma am_moves_pdu e B S H done n pdu :
  am_inv e B S H done -> B - am_window_size e <= n < B + am_window_size e ->
  am_peer_pdu sent (am_sn_field_length e) n pdu ->
  exists e', nr_rlc_entity_am_recv_pdu e pdu (zlen pdu) = Ok e' /\ am_moves e e' B done.
Proof.
  intros Hinv Hn Hpdu. destruct (am_config_pos e (am_inv_config _ _ _ _ _ Hinv)) as [Hw Hm].
  destruct Hinv as [Hr Htx Hd].
  destruct (am_recv_peer_pdu e B S H done n pdu Hr Hn Hpdu)
    as (e' & He' & B' & S' & H' & new & Hr' & HB & HH & Hv & _ & Hev).
  exists e'. split; [done|]. exists B', S', H', new.
  assert (Hr0 : H <= B + am_window_size e) by apply Hr.
  assert (Hr1 : B' <= H') by (destruct Hr' as [Hc' _]; pose proof (ar_range _ _ _ _ _ _ Hc'); lia).
  split; [split; [done| |]|].
  - change (am_tx_view (am_count_rx e (zlen pdu))) with (am_tx_view e) in Hv. by eapply am_tx_inv_view.
  - unfold am_delivered in *. rewrite Hev, omap_app.
    change (events (am_common (am_count_rx e (zlen pdu)))) with (events (am_common e)).
    rewrite Hd, fmap_app. f_equal. clear. induction new as [|k new IH]; [done|]. cbn. by f_equal.
  - change (am_tx_view (am_count_rx e (zlen pdu))) with (am_tx_view e) in Hv.
    unfold am_tx_view in Hv. simplify_eq. split_and!; done || lia.
Qed.

Lemma am_moves_control e B S H done pdu :
  am_inv e B S H done -> am_is_control pdu = true -> am_peer_report e pdu ->
  exists e', nr_rlc_entity_am_recv_pdu e pdu (zlen pdu) = Ok e' /\ am_moves e e' B done.
Proof.
  intros Hinv Hctl Hrep. rewrite (am_recv_control e pdu Hctl).
  pose proof (am_inv_config _ _ _ _ _ Hinv) as Hc. destruct Hinv as [Hr Htx Hd].
  assert (Hinv : am_inv e B S H done) by done.
  destruct pdu as [|b l].
  { eexists. split; [done|]. by eapply am_moves_view; [exact Hinv|eapply am_tx_inv_view; [|exact Htx]|]. }
  set (pdu := b :: l) in *. set (e1 := am_count_rx e (zlen pdu)).
  assert (Htx1 : am_tx_inv e1 []) by by eapply am_tx_inv_view; [|exact Htx].
  destruct (process_control_pdu_correct e1 [] pdu (zlen pdu) ltac:(by destruct Hc) Htx1 eq_refl)
    as (r & e' & Hr1 & -> & Hst & _ & (ev & Hev & Hno) & Hsame & Hok).
  exists e'. split; [done|]. eapply (am_moves_same e e' B S H done ev); try done.
  destruct Hok as (lost' & Htx' & Hl).
  { intros ack_sn ns -> Ho. by apply (Hrep ack_sn ns). }
  rewrite app_nil_r in Htx'. destruct r as [[ack_sn ns]|]; [|by rewrite Hl in Htx'].
  destruct (am_report_ok e1 ack_sn ns) eqn:Eo.
  - rewrite Hl in Htx'; [done|]. intros ? ? [= <- <-]. by apply (Hrep ack_sn ns).
  - rewrite Hsame; [done|]. right. by exists ack_sn, ns.
Qed.

Lemma am_retx_events (ev : list rlc_event) :
  (ev = [] \/ ev = [MaxRetxReached]) -> forall d, DeliverSdu d ∉ ev.
Proof. intros [-> | ->] d; set_solver. Qed.

Lemma am_moves_time e B S H done now :
  am_inv e B S H done -> am_poll_ok e ->
  exists e', nr_rlc_entity_am_set_time e now = Ok e' /\ am_moves e e' B done.
Proof.
  intros Hinv Hpoll. pose proof (am_inv_config _ _ _ _ _ Hinv) as Hc. destruct (am_config_pos e Hc) as [Hw Hm].
  unfold nr_rlc_entity_am_set_time. set (e1 := e <| am_t_current := now |>).
  assert (Hc1 : am_config_ok e1) by (destruct Hc; by constructor).
  destruct (am_poll_timer_correct e1 [] Hc1 ltac:(eapply am_tx_inv_view; [|apply Hinv]; done) Hpoll)
    as (e2 & ev & moved & -> & Htx2 & Hrx2 & Hev & _). cbn [mbind outcome_bind].
  assert (H2 : am_moves e e2 B done).
  { change (am_rx_view (am_with_events e1 ev)) with (am_rx_view (am_with_events e ev)) in Hrx2.
    unfold am_rx_view, am_with_events in Hrx2. field_simpl_all. simplify_eq.
    eapply (am_moves_same e e2 B S H done ev); [done|done| |done|by apply am_retx_events].
    unfold am_rx_state. congruence. }
  destruct H2 as (B2 & S2 & H2 & new & [Hr2 _ Hd2] & HB2 & El2 & EM2).
  destruct (am_check_t_reassembly_correct sent e2 B2 S2 H2 _ Hr2) as (e3 & S3 & -> & Hr3 & Hv3 & Ec3).
  exists e3. split; [done|]. exists B2, S3, H2, new. split.
  { split; [done|by eapply am_tx_inv_view|]. unfold am_delivered in *. by rewrite Ec3. }
  unfold am_tx_view in Hv3. simplify_eq. split_and!; try lia; congruence.
Qed.

(** One call: no fault, and the PDU generated fits the grant. *)
Lemma am_step_correct e B S H done c :
  am_inv e B S H done -> am_call_ok sent e B c ->
  exists pdu e', am_step e c = Ok (pdu, e') /\ am_moves e e' B done /\ am_pdu_fits c pdu.
Proof.
  intros Hinv Hok. pose proof (am_inv_tx _ _ _ _ _ Hinv) as Htx.
  assert (Hone : forall (o : outcome nr_rlc_entity_am_t),
    (exists e', o = Ok e' /\ am_moves e e' B done) ->
    exists pdu e', (e ← o; Ok (@nil Z, e)) = Ok (pdu, e') /\ am_moves e e' B done /\ pdu = []).
  { intros o (e' & -> & Hm). by exists [], e'. }
  destruct c as [d sdu_id now|buffer size now|sdu_id|pdu|now]; cbn [am_call_ok am_step am_pdu_fits] in *.
  - apply Hone. destruct (am_recv_sdu_correct e [] d sdu_id now Htx Hok) as (e' & -> & Htx' & Hrx & _).
    exists e'. split; [done|]. by eapply am_moves_view.
  - destruct Hok as [Hb Hsize].
    destruct (am_generate_correct e [] buffer size now (am_sns_ok_inv _ _ _ _ _ (am_inv_rx _ _ _ _ _ Hinv)) Htx Hb Hsize)
      as (n & buffer' & e' & -> & Htx' & Hrx & Hcase).
    eexists _, e'. split; [reflexivity|]. split; [by eapply am_moves_view|].
    destruct Hcase as [[-> _]|(Hn & -> & _)]; [by left|right; lia].
  - apply Hone. destruct (am_discard_correct e [] sdu_id Htx) as (e' & -> & Htx' & Hrx & _).
    exists e'. split; [done|]. by eapply am_moves_view.
  - apply Hone. destruct Hok as [(n & Hn & Hpdu)|[Hctl Hrep]]; [by eapply am_moves_pdu|by eapply am_moves_control].
  - apply Hone. by eapply am_moves_time.
Qed.

Lemma am_steps_inv e B e' B2 :
  am_steps sent e B e' B2 -> forall S H done, am_inv e B S H done ->
  exists S' H' new, am_inv e' B2 S' H' (done ++ new) /\ B <= B2 /\
    am_sn_field_length e' = am_sn_field_length e.
Proof.
  induction 1 as [e B|e B c pdu e1 e2 B2 Hok Hstep _ IH]; intros S H done Hinv.
  { exists S, H, []. rewrite app_nil_r. split_and!; [done|lia|done]. }
  destruct (am_config_pos e (am_inv_config _ _ _ _ _ Hinv)) as [Hw Hm].
  destruct (am_step_correct e B S H done c Hinv Hok) as (pdu' & e1' & Hstep' & Hmoves & _).
  rewrite Hstep in Hstep'. injection Hstep' as <- <-.
  destruct Hmoves as (B1 & S1 & H1 & new & Hinv1 & HB & El & EM).
  pose proof (am_inv_rx _ _ _ _ _ Hinv1) as [Hc1 _].
  rewrite (ar_next _ _ _ _ _ _ Hc1), EM, abs_sn_of in IH by lia.
  destruct (IH S1 H1 (done ++ new) Hinv1) as (S2 & H2 & new2 & Hinv2 & HB2 & El2).
  exists S2, H2, (new ++ new2). rewrite app_assoc. split_and!; [done|lia|congruence].
Qed.
End calls.

(** C1: from a new AM entity, over any sequence of the calls it expects: each SDU
    handed to the upper layer is one the peer sent, none twice, every SDU before
    [rx_next] has been handed over, the transmitter keeps its invariant, and the
    next call expected does not fault and generates no more than its grant. *)
Theorem am_exact sent len rx_maxsize tx_maxsize t_poll t_reassembly t_prohibit poll_pdu poll_byte
    max_retx e0 e B :
  (forall n, 0 < zlen (sent n) <= NR_SDU_MAX) -> len = 12 \/ len = 18 ->
  new_nr_rlc_entity_am rx_maxsize tx_maxsize t_poll t_reassembly t_prohibit poll_pdu poll_byte
    max_retx len = Ok e0 ->
  am_steps sent e0 0 e B ->
  exists delivered, NoDup delivered /\ am_delivered e = sent <$> delivered /\
    (forall n, 0 <= n < B -> n ∈ delivered) /\ am_rx_next e = B mod 2 ^ len /\
    am_tx_inv e [] /\
    (forall sn, 0 <= sn < 2 ^ len -> am_sdu_full e sn = false) /\
    (forall c, am_call_ok sent e B c ->
       exists pdu e', am_step e c = Ok (pdu, e') /\ am_pdu_fits c pdu).
Proof.
  intros Hsize Hlen Hnew Hsteps.
  destruct (new_am_correct rx_maxsize tx_maxsize t_poll t_reassembly t_prohibit poll_pdu poll_byte
    max_retx len Hlen) as (e0' & Hnew' & Hc & El & Htx & Hrx & Hev).
  rewrite Hnew in Hnew'. injection Hnew' as <-.
  assert (Hinv : am_inv sent e0 0 0 0 []).
  { split; [apply Hrx|done|]. unfold am_delivered. by rewrite Hev. }
  destruct (am_steps_inv sent Hsize e0 0 e B Hsteps 0 0 [] Hinv) as (S & H & new & Hinv' & HB & El').
  assert (EM : am_sn_modulus e = 2 ^ len).
  { by rewrite (am_cfg_modulus e (am_inv_config _ _ _ _ _ _ Hinv')), El', El. }
  pose proof Hinv' as [(Hcore & _) Htx' Hd']. exists new. rewrite <- EM. split_and!; try done.
  - apply (ar_once _ _ _ _ _ _ Hcore).
  - intros n Hn. apply (ar_done _ _ _ _ _ _ Hcore). by left.
  - apply (ar_next _ _ _ _ _ _ Hcore).
  - apply (ar_none_full _ _ _ _ _ _ Hcore).
  - intros c Hok. destruct (am_step_correct sent Hsize e B S H _ c Hinv' Hok) as (pdu & e' & ? & _ & ?).
    by exists pdu, e'.
Qed.

(** The two segments of a three byte SDU, with 12 bit sequence numbers. *)
Definition am_demo_sdu : list Z := [1; 2; 3].

Lemma am_demo_first : am_peer_pdu (fun _ => am_demo_sdu) 12 0 [144; 0; 1; 2].
Proof.
  exists false, (mk_segment 1 0 2 0 true false), (mk_nr_rlc_sdu 0 0 am_demo_sdu 3 (-1) 1 0 0).
  split; [exists [144; 0], [1; 2]; by split_and!|]. unfold seg_range, seg_end. cbn.
  split_and!; try done; try lia; split; intros; try done; lia.
Qed.

Lemma am_demo_last : am_peer_pdu (fun _ => am_demo_sdu) 12 0 [224; 0; 0; 2; 3].
Proof.
  exists true, (mk_segment 1 0 1 2 false true), (mk_nr_rlc_sdu 0 0 am_demo_sdu 3 (-1) 1 0 0).
  split; [exists [224; 0; 0; 2], [3]; by split_and!|]. unfold seg_range, seg_end. cbn.
  split_and!; try done; try lia; split; intros; try done; lia.
Qed.

(** An SDU is sent and acknowledged; another is received in two segments, the
    last one first, and polled. *)
Lemma am_exact_witness :
  exists e0 e, new_nr_rlc_entity_am 100 100 45 35 0 (-1) (-1) 8 12 = Ok e0 /\
    am_steps (fun _ => am_demo_sdu) e0 0 e 1 /\ am_delivered e = [am_demo_sdu] /\
    exists delivered, NoDup delivered /\ am_delivered e = (fun _ => am_demo_sdu) <$> delivered /\
      (forall n, 0 <= n < 1 -> n ∈ delivered) /\ am_rx_next e = 1 mod 2 ^ 12 /\
      am_tx_inv e [] /\
      (forall sn, 0 <= sn < 2 ^ 12 -> am_sdu_full e sn = false) /\
      (forall c, am_call_ok (fun _ => am_demo_sdu) e 1 c ->
         exists pdu e', am_step e c = Ok (pdu, e') /\ am_pdu_fits c pdu).
Proof.
  assert (Hsteps : exists e0 e, new_nr_rlc_entity_am 100 100 45 35 0 (-1) (-1) 8 12 = Ok e0 /\
    am_steps (fun _ => am_demo_sdu) e0 0 e 1 /\ am_delivered e = [am_demo_sdu]).
  { eexists _, _. split; [vm_compute; reflexivity|]. split.
    - eapply (am_steps_cons _ _ _ (AmTime 1)); [vm_compute; congruence|vm_compute; reflexivity|].
      eapply (am_steps_cons _ _ _ (AmSdu [7; 8] 5 1)); [vm_compute; by split|vm_compute; reflexivity|].
      eapply (am_steps_cons _ _ _ (AmGrant (replicate 9 0) 9 2));
        [split; [repeat constructor; done|done]|vm_compute; reflexivity|].
      eapply (am_steps_cons _ _ _ (AmPdu [224; 0; 0; 2; 3]));
        [left; exists 0; split; [vm_compute; by split|exact am_demo_last]|vm_compute; reflexivity|].
      eapply (am_steps_cons _ _ _ (AmTime 3)); [vm_compute; congruence|vm_compute; reflexivity|].
      eapply (am_steps_cons _ _ _ (AmGrant (replicate 9 0) 9 3));
        [split; [repeat constructor; done|done]|vm_compute; reflexivity|].
      eapply (am_steps_cons _ _ _ (AmPdu [144; 0; 1; 2]));
        [left; exists 0; split; [vm_compute; by split|exact am_demo_first]|vm_compute; reflexivity|].
      eapply (am_steps_cons _ _ _ (AmPdu [0; 1; 0])).
      { right. split; [done|]. intros ack_sn ns Hr _. vm_compute in Hr. injection Hr as <- <-.
        split; [constructor|]. intros s Hs. by apply not_elem_of_nil in Hs. }
      { vm_compute; reflexivity. }
      eapply (am_steps_cons _ _ _ (AmTime 70)); [vm_compute; congruence|vm_compute; reflexivity|].
      apply am_steps_nil.
    - reflexivity. }
  destruct Hsteps as (e0 & e & Hnew & Hsteps & Hev). exists e0, e.
  split; [exact Hnew|]. split; [exact Hsteps|]. split; [exact Hev|].
  apply (am_exact (fun _ => am_demo_sdu) 12 100 100 45 35 0 (-1) (-1) 8 e0 e 1);
    [intros _; vm_compute; by split|by left|exact Hnew|exact Hsteps].
Defined.
