(* ===== verification/RlcAmRecovery.v ===== *)
(** * The two ends of an acknowledged mode bearer

    A data PDU the transmitter generates is read back by a receiver; what the
    transmitter does to malformed or reordered status reports, on concrete
    inputs. *)

From S2P Require Import Prelude TimeStat RlcPdu RlcSdu RlcReassembly RlcRxList RlcEntity RlcAm RlcAmCtrl RlcAmRecv RlcAmStatus RlcAmSend RlcAmQueue RlcAmTx RlcAmWalk RlcAmCtrlProps RlcAmReport RlcAmRx RlcAmStatusProps RlcAmProps.

(** A receiver reads the segment [s1] of [u], numbered [sn], out of [pdu]. *)
Definition am_reads (r : nr_rlc_entity_am_t) (pdu : list Z) (sn : Z) (s1 : nr_rlc_sdu_segment_t)
    (u : nr_rlc_sdu_t) : Prop :=
  exists p data, zslice (sdu_data u) (seg_so s1) (seg_size s1) = Some data /\
    zslice pdu (zlen pdu - seg_size s1) (seg_size s1) = Some data /\
    nr_rlc_entity_am_recv_pdu r pdu (zlen pdu) =
      am_recv_segment (am_count_rx r (zlen pdu)) pdu (zlen pdu) p sn (seg_so s1)
        (is_first s1) (is_last s1) (zlen pdu - seg_size s1).

Lemma seg_sent_range s s1 l l' u :
  seg_sent s s1 l l' -> seg_range s u -> 0 < seg_size s1 ->
  (forall s2, s2 ∈ l' -> is_first s2 = false -> 0 < seg_size s2) -> seg_range s1 u.
Proof.
  intros (_ & Eso & Ef & Hcase) (Hso & Hsz & Hend & Hfirst & Hlast & Hne) Hpos Hl.
  destruct Hcase as [[-> _]|(El & s2 & -> & _ & E2 & Eend & Ef2 & _)]; [done|].
  assert (H2 : 0 < seg_size s2) by (apply Hl; [set_solver|done]).
  unfold seg_range, seg_end in *. rewrite Eso, Ef, El in *. split_and!; lia || done.
Qed.

Lemma am_inv_seg e lost s :
  am_tx_inv e lost -> s ∈ am_tx_list e ++ am_wait_list e ++ am_retransmit_list e ++ lost ->
  exists u, heap_sdus (heap (am_common e)) !! seg_sdu s = Some u /\ seg_range s u /\
    zlen (sdu_data u) = sdu_size u /\ sdu_size u <= NR_SDU_MAX.
Proof.
  intros Hinv Hin. pose proof (q_heap _ _ _ _ _ _ _ _ _ (ti_q _ _ Hinv)) as Hh.
  pose proof (heap_segs _ _ Hh) as Hw. rewrite Forall_forall in Hw. destruct (Hw s Hin) as (_ & u & Hu & Hr).
  exists u. split_and!; [done|done|apply (heap_sdu _ _ Hh _ _ Hu)|apply (ti_sizes _ _ Hinv _ _ Hu)].
Qed.

Lemma am_generated_reads e e' lost r s l l' w w' sn size pdu :
  am_tx_inv e lost -> am_tx_inv e' lost -> am_config_ok r -> am_sn_field_length r = am_sn_field_length e ->
  s ∈ am_tx_list e ++ am_wait_list e ++ am_retransmit_list e ++ lost ->
  l' ⊆ am_tx_list e' ++ am_retransmit_list e' ->
  am_generated (am_sn_field_length e) (heap (am_common e)) s l l' w w' sn size pdu ->
  (forall u, heap_sdus (heap (am_common e)) !! seg_sdu s = Some u -> sn_range (am_sn_modulus r) (sn u)) ->
  exists u s1, heap_sdus (heap (am_common e)) !! seg_sdu s = Some u /\ seg_sent s s1 l l' /\
    am_reads r pdu (sn u) s1 u.
Proof.
  intros Hinv Hinv' Hcr El Hin Hl (p & u & s1 & Hu & Hsent & _ & Hpos & Hsz & _ & Hcarry) Hsn.
  exists u, s1. split; [done|]. split; [done|].
  destruct (am_inv_seg e lost s Hinv Hin) as (u' & Hu' & Hrange & Hwf & Hmax). rewrite Hu in Hu'. injection Hu' as <-.
  assert (Hrange1 : seg_range s1 u).
  { eapply seg_sent_range; [exact Hsent|done|done|]. intros s2 Hs2%Hl Hf.
    destruct (am_inv_seg e' lost s2 Hinv' ltac:(set_solver)) as (u2 & _ & (_ & _ & _ & _ & _ & [|[? _]]) & _);
      [done|congruence]. }
  rewrite <- El in *. pose proof (am_recv_pdu_decodes r p (sn u) s1 u pdu Hcr Hcarry Hrange1 Hwf Hmax (Hsn u Hu) Hpos) as Hrecv.
  destruct Hcarry as (hdr & data & Epdu & Hhl & _ & Hslice). unfold am_seg_bytes in Hsz.
  pose proof (zslice_len _ _ _ _ Hslice) as Hdl. exists p, data. split; [done|]. split.
  - rewrite Epdu at 1. replace (zlen pdu - seg_size s1) with (zlen hdr) by lia. rewrite <- Hdl. by apply zslice_app_r.
  - rewrite Hrecv. f_equal. lia.
Qed.

(** C4: a data PDU the AM transmitter generates carries the next bytes of the
    first SDU to retransmit, or of the first to transmit, and a receiver with the
    same sequence number length reads exactly that: the number, the offset, the
    flags and the bytes. *)
Theorem am_end_to_end e lost r buffer size now :
  am_config_ok e -> am_tx_inv e lost -> am_config_ok r -> am_sn_field_length r = am_sn_field_length e ->
  bytes_ok buffer -> size <= zlen buffer ->
  exists n buffer' e', am_generate_data e buffer size now = Ok (n, buffer', e') /\
    let pdu := take (Z.to_nat n) buffer' in
    (n = 0 /\ e' = e) \/
    0 < n <= size /\ zlen pdu = n /\
    ((exists s l u s1, am_retransmit_list e = s :: l /\ heap_sdus (heap (am_common e)) !! seg_sdu s = Some u /\
        seg_sent s s1 l (am_retransmit_list e') /\ am_reads r pdu (sdu_sn u) s1 u) \/
     (exists s l u s1, am_tx_list e = s :: l /\ heap_sdus (heap (am_common e)) !! seg_sdu s = Some u /\
        seg_sent s s1 l (am_tx_list e') /\ am_reads r pdu (am_first_sn e u) s1 u)).
Proof.
  intros Hc Hinv Hcr El Hb Hroom. pose proof (ti_q _ _ Hinv) as Hq.
  assert (EM : am_sn_modulus r = am_sn_modulus e) by by rewrite (am_cfg_modulus r Hcr), El, (am_cfg_modulus e Hc).
  destruct (am_generate_data_correct e lost buffer size now Hc Hinv Hb Hroom)
    as (n & buffer' & e' & -> & Hinv' & _ & Hcase).
  exists n, buffer', e'. split; [done|]. destruct Hcase as [?|(Hn & Hlen & Hsent)]; [by left|right].
  split; [done|]. split; [done|].
  destruct Hsent as [(s & l & Els & _ & Hg)|(s & l & Els & _ & Hg)]; [left|right].
  - destruct (fun Hin Hl => am_generated_reads e e' lost r s l _ _ _ _ size _ Hinv Hinv' Hcr El Hin Hl Hg)
      as (u & s1 & ?); [rewrite Els; set_solver| | |by exists s, l, u, s1]; [set_solver|].
    intros u Hu. destruct (am_q_sent _ _ _ _ _ _ _ _ _ s Hq) as (_ & Hr & _); [rewrite Els; set_solver|].
    unfold seg_sn in Hr. rewrite Hu in Hr. by rewrite EM.
  - destruct (fun Hin Hl => am_generated_reads e e' lost r s l _ _ _ _ size _ Hinv Hinv' Hcr El Hin Hl Hg)
      as (u & s1 & ?); [rewrite Els; set_solver| | |by exists s, l, u, s1]; [set_solver|].
    intros u Hu. rewrite EM. unfold am_first_sn. destruct (sdu_sn u =? -1) eqn:E; zify_bool; [apply Hq|].
    destruct (am_q_numbered _ _ _ _ _ _ _ _ _ s Hq) as [Hr _];
      [rewrite Els; set_solver|unfold seg_sn; by rewrite Hu|].
    unfold seg_sn in Hr. by rewrite Hu in Hr.
Qed.

Lemma am_end_to_end_witness :
  exists r e, nr_rlc_entity_am_recv_sdu r [1; 2; 3; 4] 4 7 0 = Ok e /\
    exists n buffer' e', am_generate_data e (replicate 8 0) 4 1 = Ok (n, buffer', e') /\
    let pdu := take (Z.to_nat n) buffer' in
    (n = 0 /\ e' = e) \/
    0 < n <= 4 /\ zlen pdu = n /\
    ((exists s l u s1, am_retransmit_list e = s :: l /\ heap_sdus (heap (am_common e)) !! seg_sdu s = Some u /\
        seg_sent s s1 l (am_retransmit_list e') /\ am_reads r pdu (sdu_sn u) s1 u) \/
     (exists s l u s1, am_tx_list e = s :: l /\ heap_sdus (heap (am_common e)) !! seg_sdu s = Some u /\
        seg_sent s s1 l (am_tx_list e') /\ am_reads r pdu (am_first_sn e u) s1 u)).
Proof.
  destruct (new_am_correct 100 100 45 35 0 (-1) (-1) 8 12 ltac:(by left)) as (r & _ & Hc & _ & Hinv & _).
  destruct (am_recv_sdu_correct r [] [1; 2; 3; 4] 7 0 Hinv ltac:(by vm_compute)) as (e & He & Hinve & Hrx & _).
  exists r, e. split; [exact He|].
  apply (am_end_to_end e [] r (replicate 8 0) 4 1);
    [by eapply am_config_view|exact Hinve|exact Hc| |repeat constructor; done|by vm_compute].
  by rewrite (am_view_len _ _ Hrx).
Defined.

(** ** Where the code departs from what it means to do *)

Fixpoint am_run (e : nr_rlc_entity_am_t) (calls : list am_call) : outcome nr_rlc_entity_am_t :=
  match calls with
  | [] => Ok e
  | c :: calls => '(_, e) ← am_step e c; am_run e calls
  end.

Definition am_numbers (e : nr_rlc_entity_am_t) (l : list nr_rlc_sdu_segment_t) : list Z :=
  (fun s => seg_sn (heap (am_common e)) s) <$> l.

(** Three SDUs of two bytes, sent with the numbers 0, 1 and 2. *)
Definition am_three_sent : outcome nr_rlc_entity_am_t :=
  e ← new_nr_rlc_entity_am 100 100 45 35 0 (-1) (-1) 8 12;
  am_run e [AmTime 1; AmSdu [1; 2] 10 1; AmSdu [3; 4] 11 1; AmSdu [5; 6] 12 1;
            AmGrant (replicate 4 0) 4 1; AmGrant (replicate 4 0) 4 1; AmGrant (replicate 4 0) 4 1].

(** NACK_SN 1 before NACK_SN 0: the order is not checked, and the SDU of number 0,
    reported missing, is reported delivered and freed. *)
Example am_nacks_out_of_order :
  (e ← am_three_sent; e ← am_run e [AmPdu [0; 3; 128; 0; 24; 0; 0]];
   Ok (am_numbers e (am_wait_list e), am_numbers e (am_retransmit_list e), events (am_common e)))
  = Ok ([], [1], [SduSuccessfulDelivery 10; SduSuccessfulDelivery 12]).
Proof. vm_compute. reflexivity. Qed.

(** Everything waits for retransmission; a NACK of bytes 10 to 20 of the SDU of
    number ACK_SN = 1 loses the segments that follow: they are in no list, not
    freed, and still counted in [retx_size]. *)
Example am_nack_of_ack_sn_loses :
  (e ← am_three_sent;
   e ← am_run e [AmPdu [0; 3; 128; 0; 8; 0; 24; 0; 32]; AmPdu [0; 1; 128; 0; 20; 0; 10; 0; 20]];
   Ok (am_numbers e (am_retransmit_list e), bs_retx_size (bstatus (am_common e)),
       size (heap_sdus (heap (am_common e)))))
  = Ok ([], 8, 2%nat).
Proof. vm_compute. reflexivity. Qed.


(** The SDU of number 0 is retransmitted with a poll, for poll_sn = 2.  A report
    with ACK_SN 1 empties the wait list and leaves t_poll_retransmit running: when
    it expires, the code reads the head of an empty list. *)
Example am_poll_timer_reads_null :
  (e ← am_three_sent;
   e ← am_run e [AmPdu [0; 3; 128; 0; 0]; AmGrant (replicate 4 0) 4 2; AmPdu [0; 1; 0]];
   am_run e [AmTime 100]) = Fault NullDeref.
Proof. vm_compute. reflexivity. Qed.

(** ** Loss recovery and bounds of the acknowledged mode entity

    What is missing is reported, the report fits and has the size announced to
    the MAC, any status report is processed without fault, and the windows and
    the occupancy stay within their bounds in every state that calls reach. *)

(** ** States that calls reach *)

(** [e] is reached from a new entity by calls it expects. *)
Definition am_reached (sent : Z -> list Z) (e : nr_rlc_entity_am_t) (B : Z) : Prop :=
  exists rx_maxsize tx_maxsize t_poll t_reassembly t_prohibit poll_pdu poll_byte max_retx len e0,
    (len = 12 \/ len = 18) /\
    new_nr_rlc_entity_am rx_maxsize tx_maxsize t_poll t_reassembly t_prohibit poll_pdu poll_byte
      max_retx len = Ok e0 /\
    am_steps sent e0 0 e B.

Lemma am_reached_inv sent e B :
  (forall n, 0 < zlen (sent n) <= NR_SDU_MAX) -> am_reached sent e B ->
  exists S H done, am_inv sent e B S H done /\ am_config_ok e /\ am_sns_ok e.
Proof.
  intros Hsize (rx_maxsize & tx_maxsize & t_poll & t_reassembly & t_prohibit & poll_pdu & poll_byte &
    max_retx & len & e0 & Hlen & Hnew & Hsteps).
  destruct (new_am_correct rx_maxsize tx_maxsize t_poll t_reassembly t_prohibit poll_pdu poll_byte
    max_retx len Hlen) as (e0' & Hnew' & _ & _ & Htx & Hrx & Hev).
  rewrite Hnew in Hnew'. injection Hnew' as <-.
  assert (Hinv : am_inv sent e0 0 0 0 []).
  { split; [apply Hrx|done|]. unfold am_delivered. by rewrite Hev. }
  destruct (am_steps_inv sent Hsize e0 0 e B Hsteps 0 0 [] Hinv) as (S & H & new & Hinv' & _ & _).
  exists S, H, ([] ++ new). split; [exact Hinv'|].
  split; [by eapply am_inv_config|]. eapply am_sns_ok_inv, Hinv'.
Qed.

(** An entity with three SDUs sent, and nothing received. *)
Lemma am_three_sent_reached :
  exists e, am_three_sent = Ok e /\ am_reached (fun _ => [0]) e 0.
Proof.
  eexists. split; [vm_compute; reflexivity|].
  exists 100, 100, 45, 35, 0, (-1), (-1), 8, 12. eexists. split; [by left|].
  split; [vm_compute; reflexivity|].
  eapply (am_steps_cons _ _ _ (AmTime 1)); [vm_compute; congruence|vm_compute; reflexivity|].
  eapply (am_steps_cons _ _ _ (AmSdu [1; 2] 10 1)); [vm_compute; by split|vm_compute; reflexivity|].
  eapply (am_steps_cons _ _ _ (AmSdu [3; 4] 11 1)); [vm_compute; by split|vm_compute; reflexivity|].
  eapply (am_steps_cons _ _ _ (AmSdu [5; 6] 12 1)); [vm_compute; by split|vm_compute; reflexivity|].
  do 3 (eapply (am_steps_cons _ _ _ (AmGrant (replicate 4 0) 4 1));
        [split; [repeat constructor; done|done]|vm_compute; reflexivity|]).
  apply am_steps_nil.
Qed.

Lemma one_byte_size : forall n : Z, 0 < zlen ((fun _ => [0]) n) <= NR_SDU_MAX.
Proof. intros n. vm_compute. by split. Qed.

(** ** Bounds *)

(** C9: in every state the calls reach: at most a window of numbers is in flight,
    each segment that waits for an acknowledgement or for its retransmission has
    one of them, no two SDUs the same; the PDUs of the receiver are less than a
    window ahead of [rx_next]; the occupancy of the transmit buffer is the bytes
    of the SDUs allocated, and the buffer status the bytes of the PDUs to come. *)
Theorem am_bounds sent e B :
  (forall n, 0 < zlen (sent n) <= NR_SDU_MAX) -> am_reached sent e B ->
  let M := am_sn_modulus e in
  let sn s := seg_sn (heap (am_common e)) s in
  0 <= (am_tx_next e - am_tx_next_ack e) mod M <= am_window_size e /\
  Forall (fun s => 0 <= sn s < M /\
            (sn s - am_tx_next_ack e) mod M < (am_tx_next e - am_tx_next_ack e) mod M)
    (am_wait_list e ++ am_retransmit_list e) /\
  (forall s t, s ∈ am_wait_list e ++ am_retransmit_list e -> t ∈ am_wait_list e ++ am_retransmit_list e ->
     sn s = sn t -> seg_sdu s = seg_sdu t) /\
  Forall (fun p => 0 <= pdu_sn p < M /\ (pdu_sn p - am_rx_next e) mod M < am_window_size e) (am_rx_list e) /\
  am_tx_size e = heap_bytes (heap (am_common e)) /\
  bs_tx_size (bstatus (am_common e)) = zsum (am_seg_bytes (am_sn_field_length e)) (am_tx_list e) /\
  bs_retx_size (bstatus (am_common e)) = zsum (am_seg_bytes (am_sn_field_length e)) (am_retransmit_list e).
Proof.
  intros Hsize Hreach M sn. destruct (am_reached_inv sent e B Hsize Hreach) as (S & H & done & Hinv & Hc & _).
  destruct (am_config_pos e Hc) as [HW HM]. fold M in HM.
  pose proof (am_inv_tx _ _ _ _ _ _ Hinv) as Htx. pose proof (ti_q _ _ Htx) as Hq.
  pose proof (am_inv_rx _ _ _ _ _ _ Hinv) as [Hcore _].
  assert (Hfl : forall s, s ∈ am_wait_list e ++ am_retransmit_list e ->
    sn_range M (sn s) /\ am_key M (am_tx_next_ack e) (sn s) < am_key M (am_tx_next_ack e) (am_tx_next e)).
  { intros s Hs. destruct (am_q_sent _ _ _ _ _ _ _ _ _ s Hq Hs) as (_ & Hr & _ & Hk). by split. }
  split_and!.
  - apply Z.mod_pos_bound. lia.
  - exact (q_window _ _ _ _ _ _ _ _ _ Hq).
  - rewrite Forall_forall. exact Hfl.
  - intros s t Hs Ht E. eapply (q_inj _ _ _ _ _ _ _ _ _ Hq s t); [set_solver|set_solver|done|].
    destruct (Hfl s Hs) as [Hr _]. unfold sn_range, sn in Hr. lia.
  - pose proof (ar_range _ _ _ _ _ _ Hcore) as HR. pose proof (ar_next _ _ _ _ _ _ Hcore) as HB.
    eapply Forall_impl; [apply (rl_window _ _ _ _ _ _ (ar_list _ _ _ _ _ _ Hcore))|]. cbn.
    intros p [Hp Hlt]. fold M in Hp, Hlt, HB. split; [done|]. rewrite HB, Zminus_mod_idemp_r.
    unfold abs_sn, RlcRxList.sn_key in Hlt. lia.
  - apply (ti_bytes _ _ Htx).
  - apply (ti_tx _ _ Htx).
  - rewrite (ti_retx _ _ Htx). by rewrite app_nil_r.
Qed.

Lemma am_bounds_witness :
  exists e, am_three_sent = Ok e /\
    let M := am_sn_modulus e in
    let sn s := seg_sn (heap (am_common e)) s in
    0 <= (am_tx_next e - am_tx_next_ack e) mod M <= am_window_size e /\
    Forall (fun s => 0 <= sn s < M /\
              (sn s - am_tx_next_ack e) mod M < (am_tx_next e - am_tx_next_ack e) mod M)
      (am_wait_list e ++ am_retransmit_list e) /\
    (forall s t, s ∈ am_wait_list e ++ am_retransmit_list e -> t ∈ am_wait_list e ++ am_retransmit_list e ->
       sn s = sn t -> seg_sdu s = seg_sdu t) /\
    Forall (fun p => 0 <= pdu_sn p < M /\ (pdu_sn p - am_rx_next e) mod M < am_window_size e) (am_rx_list e) /\
    am_tx_size e = heap_bytes (heap (am_common e)) /\
    bs_tx_size (bstatus (am_common e)) = zsum (am_seg_bytes (am_sn_field_length e)) (am_tx_list e) /\
    bs_retx_size (bstatus (am_common e)) = zsum (am_seg_bytes (am_sn_field_length e)) (am_retransmit_list e).
Proof.
  destruct am_three_sent_reached as (e & He & Hreach). exists e. split; [exact He|].
  apply (am_bounds (fun _ => [0]) e 0); [exact one_byte_size|exact Hreach].
Defined.

(** ** Status reports *)

(** In every state the calls reach, [status_size], which the MAC is told, is
    the size of the report [generate_status] makes with a grant of that size: both
    return, the report fits the grant, and only a grant below three bytes gets
    nothing; the transmitter and what has been received are left alone. *)
Theorem status_size_exact sent e B buffer size :
  (forall n, 0 < zlen (sent n) <= NR_SDU_MAX) -> am_reached sent e B ->
  bytes_ok buffer -> size <= zlen buffer ->
  exists n buffer' e', generate_status e buffer size = Ok (n, buffer', e') /\
    status_size e size = Ok n /\
    (size < 3 /\ n = 0 /\ e' = e \/ 3 <= n <= size /\ am_status_triggered e' = false) /\
    bytes_ok buffer' /\ zlen buffer' = zlen buffer /\
    am_tx_view e' = am_tx_view e /\ am_rx_view e' = am_rx_view e.
Proof.
  intros Hsize Hreach Hb Hroom. destruct (am_reached_inv sent e B Hsize Hreach) as (_ & _ & _ & _ & _ & Hsns).
  destruct (generate_status_correct e buffer size Hsns Hb Hroom)
    as (n & buffer' & e' & Hg & Hs & Hb' & Hl & Htx & Hrx & Hcase).
  exists n, buffer', e'. split_and!; try done.
  destruct Hcase as [(? & ? & _ & ?)|(? & ? & _)]; [by left|by right].
Qed.

(** The peer's SDU of number 2 arrives, with a poll, and t_reassembly expires. *)
Definition am_gap : outcome nr_rlc_entity_am_t :=
  e ← new_nr_rlc_entity_am 100 100 45 35 0 (-1) (-1) 8 12; am_run e [AmTime 1; AmPdu [192; 2; 0]].

Lemma am_gap_reached : exists e, am_gap = Ok e /\ am_reached (fun _ => [0]) e 0.
Proof.
  assert (Hdata : am_peer_pdu (fun _ => [0]) 12 2 [192; 2; 0]).
  { exists true, (mk_segment 1 0 1 0 true true), (mk_nr_rlc_sdu 0 0 [0] 1 (-1) 1 0 0).
    split; [exists [192; 2], [0]; by split_and!|]. unfold seg_range, seg_end. cbn.
    split_and!; try done; try lia; split; intros; try done; lia. }
  eexists. split; [vm_compute; reflexivity|].
  exists 100, 100, 45, 35, 0, (-1), (-1), 8, 12. eexists. split; [by left|].
  split; [vm_compute; reflexivity|].
  eapply (am_steps_cons _ _ _ (AmTime 1)); [vm_compute; congruence|vm_compute; reflexivity|].
  eapply (am_steps_cons _ _ _ (AmPdu [192; 2; 0]));
    [left; exists 2; split; [vm_compute; by split|exact Hdata]|vm_compute; reflexivity|].
  apply am_steps_nil.
Qed.

Lemma status_size_exact_witness :
  exists e n buffer' e', am_gap = Ok e /\
    generate_status e (replicate 9 255) 9 = Ok (n, buffer', e') /\
    status_size e 9 = Ok n /\
    (9 < 3 /\ n = 0 /\ e' = e \/ 3 <= n <= 9 /\ am_status_triggered e' = false) /\
    bytes_ok buffer' /\ zlen buffer' = zlen (replicate 9 255) /\
    am_tx_view e' = am_tx_view e /\ am_rx_view e' = am_rx_view e.
Proof.
  destruct am_gap_reached as (e & He & Hreach).
  destruct (status_size_exact (fun _ => [0]) e 0 (replicate 9 255) 9) as (n & buffer' & e' & H);
    [exact one_byte_size|exact Hreach|repeat constructor; done|by vm_compute|].
  exists e, n, buffer', e'. split; [exact He|exact H].
Defined.

(** ** Gaps are reported *)

(** What the poll timer does not touch. *)
Definition am_timers (e : nr_rlc_entity_am_t) :=
  (am_t_reassembly e, am_t_current e, am_t_status_prohibit e, am_t_status_prohibit_start e).

Lemma retransmit_head_timers sn next : forall e cur e',
  am_retransmit_head e sn cur next = Ok e' -> am_timers e' = am_timers e.
Proof.
  induction next as [|nxt next IH]; intros e cur e'; cbn [am_retransmit_head]; intros H; bind_inv;
    simplify_eq; try done.
  by apply IH in H as ->.
Qed.

Lemma poll_timer_timers e e' : am_check_t_poll_retransmit e = Ok e' -> am_timers e' = am_timers e.
Proof.
  unfold am_check_t_poll_retransmit. intros H. bind_inv; simplify_eq; try done.
  match goal with H : am_retransmit_head _ _ _ _ = Ok _ |- _ => apply retransmit_head_timers in H end.
  by destruct (_ >=? _).
Qed.

(** The timer has expired: the report is triggered. *)
Lemma reassembly_expired e e' :
  am_check_t_reassembly e = Ok e' -> am_t_reassembly_start e <> 0 ->
  u64 (am_t_reassembly_start e + am_t_reassembly e) < am_t_current e ->
  am_status_triggered e' = true /\ am_t_status_prohibit_start e' = am_t_status_prohibit_start e /\
  am_rx_list e' = am_rx_list e /\ am_sn_modulus e' = am_sn_modulus e /\
  first_not_delivered (am_sn_modulus e) (am_rx_list e) (am_rx_next_status_trigger e)
    = Ok (am_rx_highest_status e').
Proof.
  unfold am_check_t_reassembly. intros H Hrun Hexp.
  destruct (_ || _) eqn:E; [zify_bool; lia|]. bind_inv. subst. unfold am_start_t_reassembly.
  match goal with |- context [if ?b then _ else _] => destruct b end; by split_and!.
Qed.



(** ** Status reports of the peer *)

(** C6: whatever the bytes of a status report, in every state the calls reach: it is
    processed without fault, nothing is handed to the upper layer, the receiver
    and the list of SDUs to transmit are left alone; and when it is truncated, of
    an unknown type, acknowledges more than was sent or has a NACK after its
    ACK_SN, the transmitter is left alone too. *)
Theorem control_pdu_safe sent e B pdu :
  (forall n, 0 < zlen (sent n) <= NR_SDU_MAX) -> am_reached sent e B -> am_is_control pdu = true ->
  exists r e', am_report e pdu (zlen pdu) = Ok r /\ nr_rlc_entity_am_recv_pdu e pdu (zlen pdu) = Ok e' /\
    am_rx_state e' = am_rx_state e /\ am_tx_list e' = am_tx_list e /\ am_delivered e' = am_delivered e /\
    ((r = None \/ exists ack_sn ns, r = Some (ack_sn, ns) /\ am_report_ok e ack_sn ns = false) ->
     am_tx_view e' = am_tx_view e /\ events (am_common e') = events (am_common e)).
Proof.
  intros Hsize Hreach Hctl. destruct (am_reached_inv sent e B Hsize Hreach) as (S & H & done & Hinv & Hc & _).
  rewrite (am_recv_control e pdu Hctl). destruct pdu as [|b l].
  { exists None. eexists. split; [|by split_and!].
    unfold am_report. destruct (am_cfg_len e Hc) as [-> | ->]; by vm_compute. }
  set (pdu := b :: l) in *. set (e1 := am_count_rx e (zlen pdu)).
  assert (Hc1 : am_config_ok e1) by (destruct Hc; by constructor).
  assert (Htx1 : am_tx_inv e1 []) by (eapply am_tx_inv_view; [|apply Hinv]; done).
  destruct (process_control_pdu_correct e1 [] pdu (zlen pdu) Hc1 Htx1 eq_refl)
    as (r & e' & Hr & -> & Hst & Ht & (ev & Hev & Hno) & Hrej & _).
  exists r, e'. split; [done|]. split; [done|]. split; [done|]. split; [done|]. split.
  - unfold am_delivered. rewrite Hev, omap_app. change (events (am_common e1)) with (events (am_common e)).
    rewrite <- (app_nil_r (omap _ (events (am_common e)))) at 2. f_equal.
    clear -Hno. induction ev as [|x ev IH]; [done|]. destruct x as [d| |]; cbn; try (apply IH; set_solver).
    destruct (Hno d). set_solver.
  - intros Hcase. by rewrite (Hrej Hcase).
Qed.

(** ACK_SN 4 when three SDUs were sent. *)
Lemma control_pdu_safe_witness :
  exists e r e', am_three_sent = Ok e /\
    am_report e [0; 4; 0] 3 = Ok r /\ nr_rlc_entity_am_recv_pdu e [0; 4; 0] 3 = Ok e' /\
    am_rx_state e' = am_rx_state e /\ am_tx_list e' = am_tx_list e /\ am_delivered e' = am_delivered e /\
    ((r = None \/ exists ack_sn ns, r = Some (ack_sn, ns) /\ am_report_ok e ack_sn ns = false) ->
     am_tx_view e' = am_tx_view e /\ events (am_common e') = events (am_common e)).
Proof.
  destruct am_three_sent_reached as (e & He & Hreach).
  destruct (control_pdu_safe (fun _ => [0]) e 0 [0; 4; 0]) as (r & e' & H);
    [exact one_byte_size|exact Hreach|reflexivity|].
  exists e, r, e'. split; [exact He|exact H].
Defined.

(** NACK_SN 1 with ACK_SN 3: 0 and 2 are delivered, 1 is to be retransmitted. *)
Lemma am_report_exact_witness :
  exists e, am_three_sent = Ok e /\
    exists e', process_control_pdu e [0; 3; 128; 0; 16] 5 = Ok e' /\ am_tx_inv e' [] /\
    am_wait_list e' = List.filter (fun s => negb (am_seg_acked e 3 s)) (am_wait_list e) /\
    am_retransmit_list e' ≡ₚ
      List.filter (am_seg_missing e [mk_nack 1 0 (-1) 1]) (am_wait_list e) ++
      List.filter (fun s => am_seg_missing e [mk_nack 1 0 (-1) 1] s || negb (am_seg_acked e 3 s))
        (am_retransmit_list e) /\
    am_oldest (e' <| am_tx_next_ack := am_tx_next_ack e |>) 3 (am_tx_next_ack e') /\
    ctl_reported e e' (List.filter (fun s => am_seg_acked e 3 s && negb (am_seg_missing e [mk_nack 1 0 (-1) 1] s))
                         (am_wait_list e ++ am_retransmit_list e)).
Proof.
  destruct am_three_sent_reached as (e & He & Hreach). exists e. split; [exact He|].
  destruct (am_reached_inv _ e 0 one_byte_size Hreach) as (S & H & dn & Hinv & Hc & _).
  apply am_report_exact; [exact Hc|exact (am_inv_tx _ _ _ _ _ _ Hinv)|reflexivity|..];
    clear Hreach Hinv Hc; vm_compute in He; injection He as <-.
  - vm_compute. reflexivity.
  - vm_compute. reflexivity.
  - repeat constructor.
  - repeat constructor.
  - intros s Hs. by apply not_elem_of_nil in Hs.
Defined.

(** ** Re-establishment *)

(** Re-establishment in any state the calls reach brings the entity back to
    its initial state: no SDU, no segment and no PDU is kept, nothing is leaked,
    and the entity is ready for the SDUs and the PDUs numbered from 0. *)
Theorem am_reestablish_fresh sent e B :
  (forall n, 0 < zlen (sent n) <= NR_SDU_MAX) -> am_reached sent e B ->
  exists e', nr_rlc_entity_am_reestablishment e = Ok e' /\
    am_tx_list e' = [] /\ am_wait_list e' = [] /\ am_retransmit_list e' = [] /\ am_rx_list e' = [] /\
    heap_sdus (heap (am_common e')) = ∅ /\ am_tx_size e' = 0 /\ am_rx_size e' = 0 /\
    am_tx_inv e' [] /\ (forall sent', am_rx_inv sent' e' 0 0 0 []) /\
    events (am_common e') = events (am_common e).
Proof.
  intros Hsize Hreach. destruct (am_reached_inv sent e B Hsize Hreach) as (S & H & done & Hinv & Hc & _).
  destruct (am_clear_correct e [] Hc (am_inv_tx _ _ _ _ _ _ Hinv))
    as (e' & -> & Hc' & H1 & H2 & H3 & H4 & H5 & H6 & H7 & H8 & H9 & H10 & H11 & H12 & Hlast).
  destruct (Hlast eq_refl) as [Hh Htx]. destruct (am_config_pos e' Hc') as [HW HM].
  exists e'. split_and!; try done. intros sent'. split; [|split].
  - constructor; rewrite ?H4, ?H6, ?H7, ?H8, ?H9, ?Z.mod_0_l by lia; try done; try lia.
    + apply rx_list_ok_nil.
    + constructor.
    + intros n. split; [intros Hn; by apply not_elem_of_nil in Hn|]. intros [?|[? Hd]]; [lia|done].
  - unfold am_waits. by rewrite H4.
  - by intros ?.
Qed.

Lemma am_reestablish_fresh_witness :
  exists e, am_three_sent = Ok e /\
  exists e', nr_rlc_entity_am_reestablishment e = Ok e' /\
    am_tx_list e' = [] /\ am_wait_list e' = [] /\ am_retransmit_list e' = [] /\ am_rx_list e' = [] /\
    heap_sdus (heap (am_common e')) = ∅ /\ am_tx_size e' = 0 /\ am_rx_size e' = 0 /\
    am_tx_inv e' [] /\ (forall sent', am_rx_inv sent' e' 0 0 0 []) /\
    events (am_common e') = events (am_common e).
Proof.
  destruct am_three_sent_reached as (e & He & Hreach). exists e. split; [exact He|].
  apply (am_reestablish_fresh (fun _ => [0]) e 0); [exact one_byte_size|exact Hreach].
Defined.
