(* ===== verification/SecuNas.v ===== *)
(** * Stream ciphers and integrity (openair3/SECU/nas_stream_*.c, secu_defs.c,
    aes_128_*.c, and nr_pdcp_security_nea*.c, nr_pdcp_integrity_nia*.c)

    The algorithms of NAS and PDCP over SNOW 3G and AES.  AES itself is
    OpenSSL's: counter mode and CMAC are operations of the class [OpenSSL],
    and what the code relies on is the class [OpenSSLLaws]. *)

From S2P Require Import Prelude SecuSnow3g.

(** ** OpenSSL *)

Class OpenSSL := {
  (** [EVP_EncryptUpdate] with [EVP_aes_128_ctr]: key, initial counter, data *)
  EVP_aes_128_ctr : list Z -> list Z -> list Z -> list Z;
  (** CMAC with AES-128: key, data *)
  EVP_cmac_aes128 : list Z -> list Z -> list Z;
}.

(** Counter mode xors a keystream that depends on the key and the counter only;
    the MAC is one AES block. *)
Class OpenSSLLaws (ssl : OpenSSL) := {
  ctr_length k iv m : length (EVP_aes_128_ctr k iv m) = length m;
  ctr_involutive k iv m : EVP_aes_128_ctr k iv (EVP_aes_128_ctr k iv m) = m;
  ctr_bytes k iv m : bytes_ok m -> bytes_ok (EVP_aes_128_ctr k iv m);
  cmac_length k m : length (EVP_cmac_aes128 k m) = 16%nat;
  cmac_bytes k m : bytes_ok (EVP_cmac_aes128 k m);
}.

(** ** Initialisation vectors *)

(** The bit-fields of the vectors: bearer on 5 bits, direction on 1. *)
Record data_iv_t := mk_iv { iv_count : Z; iv_bearer : Z; iv_direction : Z }.

(** [count] is stored in network order; the fields share one byte; the rest is
    padding. *)
Definition iv_bytes (iv : data_iv_t) (size : nat) : list Z :=
  word_bytes (iv_count iv) ++
  [Z.lor (Z.shiftl (Z.land (iv_bearer iv) 31) 3) (Z.shiftl (Z.land (iv_direction iv) 1) 2)] ++
  replicate (size - 5) 0.

(** [k_iv.type]: which of the two vectors is set. *)
Inductive aes_iv_t : Type :=
| AES_INITIALIZATION_VECTOR_8 (iv : data_iv_t)
| AES_INITIALIZATION_VECTOR_16 (iv : data_iv_t).

Record aes_128_t := mk_aes { aes_key : list Z; aes_iv : aes_iv_t }.

Section secu.
Context {ssl : OpenSSL}.

Definition aes_128_ctr (k_iv : aes_128_t) (msg : list Z) : outcome (list Z) :=
  match aes_iv k_iv with
  | AES_INITIALIZATION_VECTOR_16 iv => Ok (EVP_aes_128_ctr (aes_key k_iv) (iv_bytes iv 16) msg)
  | AES_INITIALIZATION_VECTOR_8 _ => Fault Exit
  end.

(** The context holds the key it was initialised with. *)
Definition cipher_aes_128_cbc_cmac (k_iv : aes_128_t) (msg : list Z) : outcome (list Z) :=
  let iv := match aes_iv k_iv with
            | AES_INITIALIZATION_VECTOR_8 iv => iv_bytes iv 8
            | AES_INITIALIZATION_VECTOR_16 iv => iv_bytes iv 16
            end in
  Ok (EVP_cmac_aes128 (aes_key k_iv) (iv ++ msg)).

(** ** secu_defs.c *)

Record nas_stream_cipher_t := mk_stream {
  sc_context : list Z;           (* the key *)
  sc_count : Z;                  (* uint32_t *)
  sc_bearer : Z;                 (* uint8_t *)
  sc_direction : Z;              (* uint8_t *)
  sc_message : list Z;
  sc_blength : Z;                (* bits, uint32_t *)
}.

Definition nas_stream_encrypt_eea0 (s : nas_stream_cipher_t) : outcome (list Z) :=
  of_option OutOfBounds (zslice (sc_message s) 0 (Z.shiftr (u32 (sc_blength s + 7)) 3)).

Definition nas_stream_encrypt_eea1 (s : nas_stream_cipher_t) : outcome (list Z) :=
  snow3g_ciphering (sc_count s) (sc_bearer s) (sc_direction s) (sc_context s)
    (sc_blength s / 8) (sc_message s).

Definition nas_stream_encrypt_eea2 (s : nas_stream_cipher_t) : outcome (list Z) :=
  _ ← require (sc_bearer s <? 32) Exit;
  _ ← require (sc_direction s <? 2) Exit;
  _ ← require (sc_blength s >? 7) Exit;
  let p := mk_aes (sc_context s)
    (AES_INITIALIZATION_VECTOR_16 (mk_iv (sc_count s) (sc_bearer s) (sc_direction s))) in
  _ ← require (Z.land (sc_blength s) 7 =? 0) Exit;
  msg ← of_option OutOfBounds (zslice (sc_message s) 0 (Z.shiftr (sc_blength s) 3));
  aes_128_ctr p msg.

Definition nas_stream_encrypt_eia1 (s : nas_stream_cipher_t) : outcome (list Z) :=
  snow3g_integrity (sc_count s) (sc_bearer s) (sc_direction s) (sc_context s)
    (sc_blength s / 8) (sc_message s).

Definition nas_stream_encrypt_eia2 (s : nas_stream_cipher_t) : outcome (list Z) :=
  _ ← require (sc_bearer s <? 32) Exit;
  _ ← require (Z.land (sc_blength s) 7 =? 0) Exit;
  let k_iv := mk_aes (sc_context s)
    (AES_INITIALIZATION_VECTOR_8 (mk_iv (sc_count s) (sc_bearer s) (sc_direction s))) in
  msg ← of_option OutOfBounds (zslice (sc_message s) 0 (Z.shiftr (sc_blength s) 3));
  result ← cipher_aes_128_cbc_cmac k_iv msg;
  of_option OutOfBounds (zslice result 0 4).

(** [out] is what the caller's buffer holds: EIA0 leaves it as it is. *)
Definition stream_compute_integrity (alg : Z) (s : nas_stream_cipher_t) (out : list Z) : outcome (list Z) :=
  if alg =? 0 then Ok out
  else if alg =? 1 then nas_stream_encrypt_eia1 s
  else if alg =? 2 then nas_stream_encrypt_eia2 s
  else Fault Exit.

Definition stream_compute_encrypt (alg : Z) (s : nas_stream_cipher_t) : outcome (list Z) :=
  if alg =? 0 then nas_stream_encrypt_eea0 s
  else if alg =? 1 then nas_stream_encrypt_eea1 s
  else if alg =? 2 then nas_stream_encrypt_eea2 s
  else Fault Exit.

(** Contexts are copies of the key (the CMAC context holds it too); [None] is
    the null pointer of the null algorithms. *)
Definition stream_integrity_init (integrity_algorithm : Z) (integrity_key : list Z) : outcome (option (list Z)) :=
  if integrity_algorithm =? 0 then Ok None
  else if (integrity_algorithm =? 1) || (integrity_algorithm =? 2) then
    k ← of_option OutOfBounds (zslice integrity_key 0 16); Ok (Some k)
  else Fault Exit.

Definition stream_ciphering_init (ciphering_algorithm : Z) (ciphering_key : list Z) : outcome (option (list Z)) :=
  if ciphering_algorithm =? 0 then Ok None
  else if (ciphering_algorithm =? 1) || (ciphering_algorithm =? 2) then
    k ← of_option OutOfBounds (zslice ciphering_key 0 16); Ok (Some k)
  else Fault Exit.

Record stream_security_container_t := mk_container {
  sco_integrity_algorithm : Z;
  sco_ciphering_algorithm : Z;
  sco_ciphering_context : option (list Z);
  sco_integrity_context : option (list Z);
}.

Definition stream_security_container_init (ciphering_algorithm integrity_algorithm : Z)
    (ciphering_key integrity_key : list Z) : outcome stream_security_container_t :=
  integrity ← stream_integrity_init integrity_algorithm integrity_key;
  ciphering ← stream_ciphering_init ciphering_algorithm ciphering_key;
  Ok (mk_container integrity_algorithm ciphering_algorithm ciphering integrity).

(** ** The algorithms of NR PDCP

    [count], a [uint32_t] of the entity, is passed as an [int]. *)

Definition nr_pdcp_security_nea1_cipher (key buffer : list Z) (length bearer count direction : Z)
    : outcome (list Z) :=
  let ctx := mk_stream key (u32 count) (u8 (bearer - 1)) (u8 direction) buffer (u32 (length * 8)) in
  stream_compute_encrypt 1 ctx.

Definition nr_pdcp_security_nea2_cipher (key buffer : list Z) (length bearer count direction : Z)
    : outcome (list Z) :=
  _ ← require (length >? 0) Exit;
  _ ← require ((bearer >? -1) && (bearer <? 32)) Exit;
  _ ← require ((direction >? -1) && (direction <? 2)) Exit;
  _ ← require (count >? -1) Exit;
  let p := mk_aes key (AES_INITIALIZATION_VECTOR_16 (mk_iv count (bearer - 1) direction)) in
  msg ← of_option OutOfBounds (zslice buffer 0 length);
  aes_128_ctr p msg.

Definition nr_pdcp_integrity_nia1_integrity (key buffer : list Z) (length bearer count direction : Z)
    : outcome (list Z) :=
  let ctx := mk_stream key (u32 count) (u8 (bearer - 1)) (u8 direction) buffer (u32 (length * 8)) in
  stream_compute_integrity 1 ctx (replicate 4 0).

Definition nr_pdcp_integrity_nia2_integrity (key buffer : list Z) (length bearer count direction : Z)
    : outcome (list Z) :=
  _ ← require (length >? -1) Exit;
  _ ← require ((bearer >? 0) && (bearer <? 33)) Exit;
  _ ← require (count >? -1) Exit;
  let k_iv := mk_aes key (AES_INITIALIZATION_VECTOR_8 (mk_iv count (bearer - 1) direction)) in
  msg ← of_option OutOfBounds (zslice buffer 0 length);
  result ← cipher_aes_128_cbc_cmac k_iv msg;
  of_option OutOfBounds (zslice result 0 4).
End secu.
