(* ===== verification/SecuNasProps.v ===== *)
(** * Stream ciphers: a container ciphers and deciphers

    The ciphering of NAS: a container made for an algorithm and a key, and the
    stream cipher run with its context. *)

From S2P Require Import Prelude SecuSnow3g SecuSnow3gCipher SecuNas.

Section nas.
Context {ssl : OpenSSL} {laws : OpenSSLLaws ssl}.

(** The cipher called with the context of the container. *)
Definition container_encrypt (c : stream_security_container_t) (count bearer direction : Z) (message : list Z)
    : outcome (list Z) :=
  let key := match sco_ciphering_context c with Some k => k | None => [] end in
  stream_compute_encrypt (sco_ciphering_algorithm c)
    (mk_stream key count bearer direction message (zlen message * 8)).

Lemma byte_length n : 0 <= n < 2 ^ 28 -> Z.shiftr (u32 (n * 8 + 7)) 3 = n /\ n * 8 / 8 = n /\ Z.shiftr (n * 8) 3 = n.
Proof.
  intros Hn. unfold u32. rewrite Z.mod_small, !Z.shiftr_div_pow2 by lia. change (2 ^ 3) with 8.
  rewrite Z.div_mul by done. split; [|done].
  rewrite Z.add_comm, Z.div_add by done. done.
Qed.

(** C24: for each of the algorithms EEA0, EEA1 and EEA2, a container made with a
    16-byte key ciphers any non-empty message without fault, keeps its length,
    and deciphers it with the same COUNT, bearer and direction. *)
Theorem nas_cipher_roundtrip alg int_alg key int_key count bearer direction message :
  0 <= alg <= 2 -> 0 <= int_alg <= 2 -> zlen key = 16 -> zlen int_key = 16 ->
  0 <= count < 2 ^ 32 -> 0 <= bearer < 32 -> 0 <= direction < 2 -> 0 < zlen message < 2 ^ 28 ->
  exists c out, stream_security_container_init alg int_alg key int_key = Ok c /\
    container_encrypt c count bearer direction message = Ok out /\ zlen out = zlen message /\
    container_encrypt c count bearer direction out = Ok message.
Proof.
  intros Halg Hia Hk Hik Hc Hb Hd Hm.
  assert (Hint : exists o, stream_integrity_init int_alg int_key = Ok o).
  { unfold stream_integrity_init. rewrite <- Hik, zslice_all.
    assert (int_alg = 0 \/ int_alg = 1 \/ int_alg = 2) as [->|[->| ->]] by lia; by eexists. }
  destruct Hint as [o Ho]. destruct (byte_length (zlen message)) as (E1 & E2 & E3); [lia|].
  assert (Hlast : zslice key 0 16 = Some key) by (rewrite <- Hk; apply zslice_all).
  unfold stream_security_container_init. rewrite Ho. cbn [mbind outcome_bind]. unfold stream_ciphering_init.
  rewrite Hlast.
  assert (alg = 0 \/ alg = 1 \/ alg = 2) as [->|[->| ->]] by lia; cbn [Z.eqb Pos.eqb orb of_option mbind outcome_bind];
    unfold container_encrypt, stream_compute_encrypt; cbn [sco_ciphering_context sco_ciphering_algorithm Z.eqb Pos.eqb].
  - eexists _, message. split; [reflexivity|]. unfold nas_stream_encrypt_eea0. cbn [sc_message sc_blength].
    cbn [sco_ciphering_algorithm Z.eqb]. rewrite E1, zslice_all. done.
  - eexists _, (zip_with Z.lxor message (uea2_keystream count bearer direction key (zlen message))).
    split; [reflexivity|]. cbn [sco_ciphering_algorithm sco_ciphering_context Z.eqb Pos.eqb].
    unfold nas_stream_encrypt_eea1. cbn [sc_message sc_blength sc_count sc_bearer sc_direction sc_context].
    set (out := zip_with _ _ _).
    assert (Hks : length (uea2_keystream count bearer direction key (zlen message)) = length message).
    { rewrite uea2_keystream_len by lia. unfold zlen. lia. }
    assert (Hout : zlen out = zlen message) by (unfold zlen, out; rewrite length_zip_with, Hks; lia).
    rewrite Hout, E2.
    assert (Htake : forall m : list Z, zlen m = zlen message -> take (Z.to_nat (zlen message)) m = m).
    { intros m Hml. apply take_ge. unfold zlen in *. lia. }
    rewrite !ciphering_xor, !Htake by (done || lia). split; [done|]. split; [done|].
    unfold out. by rewrite zip_lxor_twice by congruence.
  - eexists _, (EVP_aes_128_ctr key (iv_bytes (mk_iv count bearer direction) 16) message).
    split; [reflexivity|]. cbn [sco_ciphering_algorithm sco_ciphering_context Z.eqb Pos.eqb].
    set (out := EVP_aes_128_ctr _ _ _).
    assert (Hout : zlen out = zlen message) by (unfold zlen, out; by rewrite ctr_length).
    rewrite Hout.
    assert (Hrun : forall m, zlen m = zlen message ->
      nas_stream_encrypt_eea2 (mk_stream key count bearer direction m (zlen message * 8))
      = Ok (EVP_aes_128_ctr key (iv_bytes (mk_iv count bearer direction) 16) m)).
    { intros m Hml. unfold nas_stream_encrypt_eea2. cbn [sc_message sc_blength sc_count sc_bearer sc_direction sc_context].
      destruct (Z.ltb_spec bearer 32); [|lia]. destruct (Z.ltb_spec direction 2); [|lia].
      destruct (Z.gtb_spec (zlen message * 8) 7); [|lia]. cbn [require mbind outcome_bind].
      assert ((Z.land (zlen message * 8) 7 =? 0) = true) as ->.
      { apply Z.eqb_eq. change 7 with (Z.ones 3). rewrite Z.land_ones by done. change (2 ^ 3) with 8. by apply Z.mod_mul. }
      cbn [require mbind outcome_bind]. rewrite E3, <- Hml, zslice_all. done. }
    rewrite !Hrun by done. split; [done|]. split; [done|]. unfold out. by rewrite ctr_involutive.
Qed.
End nas.
