(* ===== verification/Pdcp.v ===== *)
(** * NR PDCP entity (openair2/LAYER2/nr_pdcp/nr_pdcp_entity.c, nr_pdcp_sdu.c)

    The entity of one radio bearer: COUNT recovery, ciphering and integrity,
    the ordered reception list, reordering timer, suspension, re-establishment
    and release.  A call of [deliver_sdu] appends the SDU to [delivered]. *)

From S2P Require Import Prelude SecuSnow3g SecuNas.

Definition SHORT_SN_SIZE : Z := 12.
Definition LONG_SN_SIZE : Z := 18.
Definition SHORT_PDCP_HEADER_SIZE : Z := 2.
Definition LONG_PDCP_HEADER_SIZE : Z := 3.
Definition PDCP_INTEGRITY_SIZE : Z := 4.

(** ** Data *)

Record nr_pdcp_integrity_data_t := mk_msg_integrity {
  mi_count : Z;
  mi_mac : list Z;
  mi_header_size : Z;
  mi_header : list Z;
}.

Record nr_pdcp_sdu_t := mk_pdcp_sdu {
  ps_count : Z;
  ps_buffer : list Z;
  ps_size : Z;
  ps_msg_integrity : nr_pdcp_integrity_data_t;
}.

Definition nr_pdcp_new_sdu (count : Z) (buffer : list Z) (size : Z) (mi : nr_pdcp_integrity_data_t)
    : outcome nr_pdcp_sdu_t :=
  b ← of_option OutOfBounds (zslice buffer 0 size);
  Ok (mk_pdcp_sdu count b size mi).

Fixpoint nr_pdcp_sdu_list_add (l : list nr_pdcp_sdu_t) (sdu : nr_pdcp_sdu_t) : list nr_pdcp_sdu_t :=
  match l with
  | [] => [sdu]
  | cur :: l' => if ps_count sdu <? ps_count cur then sdu :: l else cur :: nr_pdcp_sdu_list_add l' sdu
  end.

Fixpoint nr_pdcp_sdu_in_list (l : list nr_pdcp_sdu_t) (count : Z) : bool :=
  match l with
  | [] => false
  | cur :: l' => (ps_count cur =? count) || nr_pdcp_sdu_in_list l' count
  end.

Inductive nr_pdcp_entity_type_t : Type := NR_PDCP_DRB_AM | NR_PDCP_DRB_UM | NR_PDCP_SRB.
#[export] Instance pdcp_type_eq_dec : EqDecision nr_pdcp_entity_type_t.
Proof. solve_decision. Defined.

Definition is_srb (t : nr_pdcp_entity_type_t) : bool := bool_decide (t = NR_PDCP_SRB).

Record nr_pdcp_entity_security_keys_and_algos_t := mk_keys {
  integrity_algorithm : Z;
  ciphering_algorithm : Z;
  integrity_key : list Z;
  ciphering_key : list Z;
}.
#[export] Instance eta_keys : RecordEta nr_pdcp_entity_security_keys_and_algos_t :=
  fld (fld (fld (fld (fun _ => mk_keys) integrity_algorithm) ciphering_algorithm) integrity_key) ciphering_key.

(** The counters of the statistics that the code updates. *)
Record nr_pdcp_statistics_t := mk_pdcp_stats {
  p_txpdu_pkts : Z; p_txpdu_bytes : Z; p_txpdu_sn : Z;
  p_rxpdu_pkts : Z; p_rxpdu_bytes : Z; p_rxpdu_sn : Z;
  p_rxpdu_oo_pkts : Z; p_rxpdu_oo_bytes : Z; p_rxpdu_dd_pkts : Z; p_rxpdu_dd_bytes : Z;
  p_rxpdu_ro_count : Z;
  p_txsdu_pkts : Z; p_txsdu_bytes : Z; p_rxsdu_pkts : Z; p_rxsdu_bytes : Z; p_mode : Z;
}.
#[export] Instance eta_pdcp_stats : RecordEta nr_pdcp_statistics_t :=
  fld (fld (fld (fld (fld (fld (fld (fld (fld (fld (fld (fld (fld (fld (fld (fld (fun _ => mk_pdcp_stats)
    p_txpdu_pkts) p_txpdu_bytes) p_txpdu_sn) p_rxpdu_pkts) p_rxpdu_bytes) p_rxpdu_sn)
    p_rxpdu_oo_pkts) p_rxpdu_oo_bytes) p_rxpdu_dd_pkts) p_rxpdu_dd_bytes) p_rxpdu_ro_count)
    p_txsdu_pkts) p_txsdu_bytes) p_rxsdu_pkts) p_rxsdu_bytes) p_mode.

Definition pdcp_stats_zero : nr_pdcp_statistics_t := mk_pdcp_stats 0 0 0 0 0 0 0 0 0 0 0 0 0 0 0 0.

(** A security context: none, one that owns a copy of the key, one that was
    freed, or (NEA2) a pointer to the key of the entity itself. *)
Inductive security_context_t : Type :=
| CtxNull
| CtxKey (key : list Z)
| CtxFreed
| CtxEntityKey.

(** The functions [cipher] and [free_security] (1: nea1, 2: nea2), or
    [integrity] and [free_integrity] (1: nia1, 2: nia2) point to. *)
Inductive security_alg_t : Type := ALG1 | ALG2.

Record nr_pdcp_entity_t := mk_pdcp {
  pdcp_type : nr_pdcp_entity_type_t;
  rb_id : Z;
  pdusession_id : Z;
  has_sdap_rx : bool;
  has_sdap_tx : bool;
  sn_size : Z;
  t_reordering : Z;              (* ms, -1 for infinity *)
  discard_timer : Z;
  sn_max : Z;
  window_size : Z;
  tx_next : Z;
  rx_next : Z;
  rx_deliv : Z;
  rx_reord : Z;
  t_current : Z;
  t_reordering_start : Z;        (* 0 when the timer is not running *)
  has_ciphering : bool;
  has_integrity : bool;
  security_keys_and_algos : nr_pdcp_entity_security_keys_and_algos_t;
  security_context : security_context_t;
  cipher : option security_alg_t;
  free_security : option security_alg_t;
  integrity_context : security_context_t;
  integrity : option security_alg_t;
  free_integrity : option security_alg_t;
  is_gnb : bool;
  rx_list : list nr_pdcp_sdu_t;
  rx_size : Z;
  rx_maxsize : Z;
  pdcp_stats : nr_pdcp_statistics_t;
  entity_suspended : bool;
  delivered : list nr_pdcp_sdu_t;   (* what [deliver_sdu] was called with *)
}.
#[export] Instance eta_pdcp : RecordEta nr_pdcp_entity_t :=
  fld (fld (fld (fld (fld (fld (fld (fld (fld (fld (fld (fld (fld (fld (fld (fld (fld (fld (fld
    (fld (fld (fld (fld (fld (fld (fld (fld (fld (fld (fld (fld (fld (fun _ => mk_pdcp)
    pdcp_type) rb_id) pdusession_id) has_sdap_rx) has_sdap_tx) sn_size) t_reordering) discard_timer)
    sn_max) window_size) tx_next) rx_next) rx_deliv) rx_reord) t_current) t_reordering_start)
    has_ciphering) has_integrity) security_keys_and_algos) security_context) cipher) free_security)
    integrity_context) integrity) free_integrity) is_gnb) rx_list) rx_size) rx_maxsize) pdcp_stats)
    entity_suspended) delivered.

Definition pdcp_add_stat (e : nr_pdcp_entity_t) (p : nr_pdcp_statistics_t -> Z)
    {u : FieldUpdate p} (n : Z) : nr_pdcp_entity_t :=
  e <| pdcp_stats := (pdcp_stats e) <| p := u32 (p (pdcp_stats e) + n) |> |>.

Definition nr_max_pdcp_pdu_size (sdu_size : Z) : Z :=
  sdu_size + LONG_PDCP_HEADER_SIZE + PDCP_INTEGRITY_SIZE.

Definition header_size_of (e : nr_pdcp_entity_t) : Z :=
  if sn_size e =? SHORT_SN_SIZE then SHORT_PDCP_HEADER_SIZE else LONG_PDCP_HEADER_SIZE.

(** SRBs always have a MAC-I, even if integrity is not active. *)
Definition integrity_size_of (e : nr_pdcp_entity_t) : Z :=
  if has_integrity e || is_srb (pdcp_type e) then PDCP_INTEGRITY_SIZE else 0.

(** [buf[off .. off + len)] is replaced. *)
Definition blit (buf : list Z) (off : Z) (src : list Z) : outcome (list Z) :=
  of_option OutOfBounds (zblit buf off src).

(** ** Security contexts *)

Section security.
Context {ssl : OpenSSL}.

(** The key a context gives to the function that reads it. *)
Definition context_key (ctx : security_context_t) (own : list Z) : outcome (list Z) :=
  match ctx with
  | CtxNull => Fault NullDeref
  | CtxFreed => Fault Dangling
  | CtxKey k => Ok k
  | CtxEntityKey => Ok own
  end.

(** [entity->cipher(...)] on [length] bytes from [off] on, in place. *)
Definition entity_cipher (e : nr_pdcp_entity_t) (buffer : list Z) (off length count direction : Z)
    : outcome (list Z) :=
  alg ← of_option NullDeref (cipher e);
  key ← context_key (security_context e) (ciphering_key (security_keys_and_algos e));
  b ← of_option OutOfBounds (zslice buffer off length);
  out ← match alg with
        | ALG1 => nr_pdcp_security_nea1_cipher key b length (rb_id e) (i32 count) direction
        | ALG2 => nr_pdcp_security_nea2_cipher key b length (rb_id e) (i32 count) direction
        end;
  blit buffer off out.

(** [entity->integrity(...)]: the MAC of the first [length] bytes. *)
Definition entity_integrity (e : nr_pdcp_entity_t) (buffer : list Z) (length count direction : Z)
    : outcome (list Z) :=
  alg ← of_option NullDeref (integrity e);
  key ← context_key (integrity_context e) (integrity_key (security_keys_and_algos e));
  match alg with
  | ALG1 => nr_pdcp_integrity_nia1_integrity key buffer length (rb_id e) (i32 count) direction
  | ALG2 => nr_pdcp_integrity_nia2_integrity key buffer length (rb_id e) (i32 count) direction
  end.

(** [free_security] and [free_integrity]: NEA2's context is not owned. *)
Definition free_context (alg : option security_alg_t) (is_cipher : bool) (ctx : security_context_t)
    : outcome security_context_t :=
  match alg with
  | None => Ok ctx
  | Some a =>
      if is_cipher && match a with ALG2 => true | ALG1 => false end then Ok ctx
      else match ctx with
           | CtxKey _ => Ok CtxFreed
           | CtxNull => Fault NullDeref
           | CtxFreed | CtxEntityKey => Fault Dangling
           end
  end.

(** ** Reception *)

(** [HFN(RX_DELIV)] and the received SN give the COUNT of the PDU. *)
Definition rcvd_hfn_of (e : nr_pdcp_entity_t) (rcvd_sn : Z) : Z :=
  let rx_deliv_sn := Z.land (rx_deliv e) (sn_max e) in
  let rx_deliv_hfn := Z.shiftr (rx_deliv e) (sn_size e) in
  if rcvd_sn <? rx_deliv_sn - window_size e then u32 (rx_deliv_hfn + 1)
  else if rcvd_sn >=? rx_deliv_sn + window_size e then u32 (rx_deliv_hfn - 1)
  else rx_deliv_hfn.

Definition rcvd_count_of (e : nr_pdcp_entity_t) (rcvd_sn : Z) : Z :=
  Z.lor (u32 (Z.shiftl (rcvd_hfn_of e rcvd_sn) (sn_size e))) rcvd_sn.

(** The SN field of a PDU. *)
Definition rcvd_sn_of (e : nr_pdcp_entity_t) (buffer : list Z) : outcome Z :=
  b0 ← of_option OutOfBounds (zget buffer 0);
  b1 ← of_option OutOfBounds (zget buffer 1);
  if sn_size e =? SHORT_SN_SIZE then Ok (Z.lor (Z.shiftl (Z.land b0 0xf) 8) b1)
  else
    b2 ← of_option OutOfBounds (zget buffer 2);
    Ok (Z.lor (Z.lor (Z.shiftl (Z.land b0 0x3) 16) (Z.shiftl b1 8)) b2).

Definition deliver_sdu (e : nr_pdcp_entity_t) (cur : nr_pdcp_sdu_t) : nr_pdcp_entity_t :=
  let e := e <| delivered := delivered e ++ [cur] |> <| rx_size := rx_size e - ps_size cur |> in
  pdcp_add_stat (pdcp_add_stat e p_txsdu_pkts 1) p_txsdu_bytes (ps_size cur).

(** Deliver the list as long as its counts follow each other from [count]. *)
Fixpoint deliver_consecutive (e : nr_pdcp_entity_t) (l : list nr_pdcp_sdu_t) (count : Z)
    : nr_pdcp_entity_t * Z :=
  match l with
  | cur :: l' =>
      if count =? ps_count cur
      then deliver_consecutive ((deliver_sdu e cur) <| rx_list := l' |>) l' (u32 (count + 1))
      else (e, count)
  | [] => (e, count)
  end.

Definition discard_rx (e : nr_pdcp_entity_t) (size : Z) : nr_pdcp_entity_t :=
  pdcp_add_stat (pdcp_add_stat e p_rxpdu_dd_pkts 1) p_rxpdu_dd_bytes size.

(** What is stored of the integrity data of the PDU. *)
Definition msg_integrity_of (e : nr_pdcp_entity_t) (buffer : list Z) (size header_size rcvd_count : Z)
    : outcome nr_pdcp_integrity_data_t :=
  if has_integrity e || is_srb (pdcp_type e) then
    mac ← of_option OutOfBounds (zslice buffer (size - 4) 4);
    header ← of_option OutOfBounds (zslice buffer 0 header_size);
    Ok (mk_msg_integrity rcvd_count mac header_size header)
  else Ok (mk_msg_integrity 0 (replicate 4 0) 0 []).

(** The MAC-I at the end of the buffer is the one computed. *)
Definition integrity_ok (e : nr_pdcp_entity_t) (buffer : list Z) (size integrity_size rcvd_count : Z)
    : outcome bool :=
  if has_integrity e then
    mac ← entity_integrity e buffer (size - integrity_size) rcvd_count (if is_gnb e then 0 else 1);
    stored ← of_option OutOfBounds (zslice buffer (size - integrity_size) PDCP_INTEGRITY_SIZE);
    Ok (bool_decide (mac = stored))
  else Ok true.

(** The reordering timer after a PDU was put in the list. *)
Definition update_t_reordering (e : nr_pdcp_entity_t) : nr_pdcp_entity_t :=
  let e := if negb (t_reordering_start e =? 0) && (rx_deliv e >=? rx_reord e)
           then e <| t_reordering_start := 0 |> else e in
  if (t_reordering_start e =? 0) && (rx_deliv e <? rx_next e)
  then e <| rx_reord := rx_next e |> <| t_reordering_start := t_current e |>
  else e.

(** A PDU that was not received before enters the list. *)
Definition recv_new_sdu (e : nr_pdcp_entity_t) (sdu : nr_pdcp_sdu_t) (size header_size : Z) : nr_pdcp_entity_t :=
  let rcvd_count := ps_count sdu in
  let e := e <| rx_list := nr_pdcp_sdu_list_add (rx_list e) sdu |>
             <| rx_size := rx_size e + (size - header_size) |> in
  let e := if rcvd_count >=? rx_next e then e <| rx_next := u32 (rcvd_count + 1) |> else e in
  let e := if rcvd_count =? rx_deliv e
           then let '(e, count) := deliver_consecutive e (rx_list e) (rx_deliv e) in e <| rx_deliv := count |>
           else e in
  update_t_reordering e.

Definition nr_pdcp_entity_recv_pdu (e : nr_pdcp_entity_t) (buffer : list Z) (size : Z) : outcome nr_pdcp_entity_t :=
  if entity_suspended e then Ok e
  else if size <? 1 then Ok e
  else
    b0 ← of_option OutOfBounds (zget buffer 0);
    buffer ← (if negb (is_srb (pdcp_type e)) && negb (z2b (Z.land b0 0x80))
              then blit buffer 0 [Z.lor b0 128] else Ok buffer);
    let e := pdcp_add_stat (pdcp_add_stat e p_rxpdu_pkts 1) p_rxpdu_bytes size in
    let sdap_header_size := b2z (has_sdap_rx e) in
    rcvd_sn ← rcvd_sn_of e buffer;
    let header_size := header_size_of e in
    let e := e <| pdcp_stats := (pdcp_stats e) <| p_rxpdu_sn := rcvd_sn |> |> in
    let integrity_size := integrity_size_of e in
    if size <? header_size + sdap_header_size + integrity_size + 1 then Ok (discard_rx e size)
    else
      let rcvd_count := rcvd_count_of e rcvd_sn in
      mi ← msg_integrity_of e buffer size header_size rcvd_count;
      buffer ← (if has_ciphering e
                then entity_cipher e buffer (header_size + sdap_header_size)
                       (size - (header_size + sdap_header_size)) rcvd_count (if is_gnb e then 0 else 1)
                else Ok buffer);
      ok ← integrity_ok e buffer size integrity_size rcvd_count;
      if negb ok then Ok (discard_rx e size)
      else if (rcvd_count <? rx_deliv e) || nr_pdcp_sdu_in_list (rx_list e) rcvd_count
      then Ok (discard_rx e size)
      else
        data ← of_option OutOfBounds (zslice buffer header_size (size - header_size - integrity_size));
        sdu ← nr_pdcp_new_sdu rcvd_count data (size - header_size - integrity_size) mi;
        Ok (recv_new_sdu e sdu size header_size).

(** ** Transmission *)

Definition pdcp_header (e : nr_pdcp_entity_t) (sn : Z) : list Z :=
  let dc_bit := if is_srb (pdcp_type e) then 0 else 0x80 in
  if sn_size e =? SHORT_SN_SIZE
  then [Z.lor dc_bit (Z.land (Z.shiftr sn 8) 0xf); Z.land sn 0xff]
  else [Z.lor dc_bit (Z.land (Z.shiftr sn 16) 0x3); Z.land (Z.shiftr sn 8) 0xff; Z.land sn 0xff].

(** The PDU as it is in [pdu_buffer] (None: -1 is returned), and the entity. *)
Definition nr_pdcp_entity_process_sdu (e : nr_pdcp_entity_t) (buffer : list Z) (size pdu_max_size : Z)
    : outcome (option (list Z) * nr_pdcp_entity_t) :=
  _ ← require (nr_max_pdcp_pdu_size size <=? pdu_max_size) Exit;
  if entity_suspended e then Ok (None, e)
  else
    let e := pdcp_add_stat (pdcp_add_stat e p_rxsdu_pkts 1) p_rxsdu_bytes size in
    let count := tx_next e in
    let sn := Z.land (tx_next e) (sn_max e) in
    let sdap_header_size := b2z (has_sdap_tx e) in
    let header_size := header_size_of e in
    let integrity_size := integrity_size_of e in
    sdu ← of_option OutOfBounds (zslice buffer 0 size);
    let buf := pdcp_header e sn ++ sdu in
    let direction := if is_gnb e then 1 else 0 in
    buf ← (if has_integrity e then
             mac ← entity_integrity e buf (header_size + size) count direction;
             Ok (buf ++ mac)
           else if integrity_size =? PDCP_INTEGRITY_SIZE then Ok (buf ++ replicate 4 0)
           else Ok buf);
    buf ← (if has_ciphering e
           then entity_cipher e buf (header_size + sdap_header_size)
                  (size + integrity_size - sdap_header_size) count direction
           else Ok buf);
    let e := e <| tx_next := u32 (tx_next e + 1) |> in
    let e := pdcp_add_stat (pdcp_add_stat e p_txpdu_pkts 1) p_txpdu_bytes (header_size + size + integrity_size) in
    Ok (Some buf, e <| pdcp_stats := (pdcp_stats e) <| p_txpdu_sn := sn |> |>).

Definition nr_pdcp_entity_check_integrity (e : nr_pdcp_entity_t) (buffer : list Z) (buffer_size : Z)
    (msg_integrity : nr_pdcp_integrity_data_t) : outcome bool :=
  if negb (has_integrity e) then Ok false
  else
    let header_size := mi_header_size msg_integrity in
    header ← of_option OutOfBounds (zslice (mi_header msg_integrity) 0 header_size);
    b ← of_option OutOfBounds (zslice buffer 0 buffer_size);
    mac ← entity_integrity e (header ++ b) (buffer_size + header_size) (mi_count msg_integrity)
            (if is_gnb e then 0 else 1);
    Ok (bool_decide (mac = mi_mac msg_integrity)).

(** ** Security parameters *)

(** The integrity half of [set_security]. *)
Definition set_integrity (e : nr_pdcp_entity_t) (alg : Z) : outcome nr_pdcp_entity_t :=
  e ← (if alg =? 0 then
         let e := e <| has_integrity := false |> in
         ctx ← free_context (free_integrity e) false (integrity_context e);
         Ok (e <| integrity_context := ctx |> <| free_integrity := None |>)
       else Ok e);
  if negb (alg =? 0) && negb (alg =? -1) then
    let e := e <| has_integrity := true |> in
    ctx ← free_context (free_integrity e) false (integrity_context e);
    let key := integrity_key (security_keys_and_algos e) in
    if alg =? 2 then
      Ok (e <| integrity_context := CtxKey key |> <| integrity := Some ALG2 |> <| free_integrity := Some ALG2 |>)
    else if alg =? 1 then
      Ok (e <| integrity_context := CtxKey key |> <| integrity := Some ALG1 |> <| free_integrity := Some ALG1 |>)
    else Fault Exit
  else Ok e.

(** The ciphering half. *)
Definition set_ciphering (e : nr_pdcp_entity_t) (alg : Z) : outcome nr_pdcp_entity_t :=
  e ← (if alg =? 0 then
         let e := e <| has_ciphering := false |> in
         ctx ← free_context (free_security e) true (security_context e);
         Ok (e <| security_context := ctx |> <| free_security := None |>)
       else Ok e);
  if negb (alg =? 0) && negb (alg =? -1) then
    let e := e <| has_ciphering := true |> in
    ctx ← free_context (free_security e) true (security_context e);
    let key := ciphering_key (security_keys_and_algos e) in
    if alg =? 2 then
      Ok (e <| security_context := CtxEntityKey |> <| cipher := Some ALG2 |> <| free_security := Some ALG2 |>)
    else if alg =? 1 then
      Ok (e <| security_context := CtxKey key |> <| cipher := Some ALG1 |> <| free_security := Some ALG1 |>)
    else Fault Exit
  else Ok e.

(** The keys and algorithms that are given, -1 keeps the current ones. *)
Definition update_keys (k parameters : nr_pdcp_entity_security_keys_and_algos_t)
    : nr_pdcp_entity_security_keys_and_algos_t :=
  let k := if negb (integrity_algorithm parameters =? -1)
           then k <| integrity_algorithm := integrity_algorithm parameters |>
                  <| integrity_key := integrity_key parameters |> else k in
  if negb (ciphering_algorithm parameters =? -1)
  then k <| ciphering_algorithm := ciphering_algorithm parameters |>
         <| ciphering_key := ciphering_key parameters |> else k.

Definition nr_pdcp_entity_set_security (e : nr_pdcp_entity_t)
    (parameters : nr_pdcp_entity_security_keys_and_algos_t) : outcome nr_pdcp_entity_t :=
  let e := e <| security_keys_and_algos := update_keys (security_keys_and_algos e) parameters |> in
  e ← set_integrity e (integrity_algorithm parameters);
  set_ciphering e (ciphering_algorithm parameters).

(** ** Timer *)

(** Deliver all SDUs with a count below [rx_reord]. *)
Fixpoint deliver_before (e : nr_pdcp_entity_t) (l : list nr_pdcp_sdu_t) : nr_pdcp_entity_t :=
  match l with
  | cur :: l' =>
      if ps_count cur <? rx_reord e
      then deliver_before ((deliver_sdu e cur) <| rx_list := l' |>) l' else e
  | [] => e
  end.

Definition check_t_reordering (e : nr_pdcp_entity_t) : nr_pdcp_entity_t :=
  if t_reordering e =? -1 then e
  else if (t_reordering_start e =? 0) || (t_current e <=? u64 (t_reordering_start e + t_reordering e)) then e
  else
    let e := e <| t_reordering_start := 0 |> in
    let e := deliver_before e (rx_list e) in
    let '(e, count) := deliver_consecutive e (rx_list e) (rx_reord e) in
    let e := e <| rx_deliv := count |> in
    if rx_deliv e <? rx_next e
    then e <| rx_reord := rx_next e |> <| t_reordering_start := t_current e |> else e.

Definition nr_pdcp_entity_set_time (e : nr_pdcp_entity_t) (now : Z) : nr_pdcp_entity_t :=
  check_t_reordering (e <| t_current := now |>).

(** ** Suspension, re-establishment, release *)

Fixpoint deliver_list (e : nr_pdcp_entity_t) (l : list nr_pdcp_sdu_t) : nr_pdcp_entity_t :=
  match l with
  | cur :: l' => deliver_list ((deliver_sdu e cur) <| rx_list := l' |>) l'
  | [] => e
  end.

Definition deliver_all_sdus (e : nr_pdcp_entity_t) : nr_pdcp_entity_t := deliver_list e (rx_list e).

Definition nr_pdcp_entity_suspend (e : nr_pdcp_entity_t) : nr_pdcp_entity_t :=
  let e := e <| tx_next := 0 |> in
  let e := if negb (t_reordering_start e =? 0)
           then deliver_all_sdus (e <| t_reordering_start := 0 |>) else e in
  e <| rx_next := 0 |> <| rx_deliv := 0 |> <| entity_suspended := true |>.

Definition free_rx_list (e : nr_pdcp_entity_t) : nr_pdcp_entity_t :=
  let e := foldl (fun e cur => discard_rx e (ps_size cur)) e (rx_list e) in
  e <| rx_list := [] |> <| rx_size := 0 |>.

Definition nr_pdcp_entity_reestablish_drb_am (e : nr_pdcp_entity_t)
    (parameters : nr_pdcp_entity_security_keys_and_algos_t) : outcome nr_pdcp_entity_t :=
  e ← nr_pdcp_entity_set_security e parameters;
  Ok (e <| entity_suspended := false |>).

Definition nr_pdcp_entity_reestablish_drb_um (e : nr_pdcp_entity_t)
    (parameters : nr_pdcp_entity_security_keys_and_algos_t) : outcome nr_pdcp_entity_t :=
  let e := e <| tx_next := 0 |> in
  let e := if negb (t_reordering_start e =? 0) then deliver_all_sdus e else e in
  let e := e <| t_reordering_start := 0 |> <| rx_next := 0 |> <| rx_deliv := 0 |> in
  e ← nr_pdcp_entity_set_security e parameters;
  Ok (e <| entity_suspended := false |>).

Definition nr_pdcp_entity_reestablish_srb (e : nr_pdcp_entity_t)
    (parameters : nr_pdcp_entity_security_keys_and_algos_t) : outcome nr_pdcp_entity_t :=
  let e := free_rx_list (e <| tx_next := 0 |>) in
  let e := e <| t_reordering_start := 0 |> <| rx_next := 0 |> <| rx_deliv := 0 |> in
  e ← nr_pdcp_entity_set_security e parameters;
  Ok (e <| entity_suspended := false |>).

(** [entity->reestablish_entity], chosen by the type when the entity is made. *)
Definition reestablish_entity (e : nr_pdcp_entity_t)
    (parameters : nr_pdcp_entity_security_keys_and_algos_t) : outcome nr_pdcp_entity_t :=
  match pdcp_type e with
  | NR_PDCP_DRB_AM => nr_pdcp_entity_reestablish_drb_am e parameters
  | NR_PDCP_DRB_UM => nr_pdcp_entity_reestablish_drb_um e parameters
  | NR_PDCP_SRB => nr_pdcp_entity_reestablish_srb e parameters
  end.

Definition nr_pdcp_entity_release (e : nr_pdcp_entity_t) : nr_pdcp_entity_t := deliver_all_sdus e.

(** The last contents of the entity before it is freed. *)
Definition nr_pdcp_entity_delete (e : nr_pdcp_entity_t) : outcome nr_pdcp_entity_t :=
  let e := free_rx_list e in
  ctx ← free_context (free_security e) true (security_context e);
  let e := e <| security_context := ctx |> in
  ctx ← free_context (free_integrity e) false (integrity_context e);
  Ok (e <| integrity_context := ctx |>).

Definition nr_pdcp_entity_get_stats (e : nr_pdcp_entity_t) : nr_pdcp_statistics_t := pdcp_stats e.

Definition new_nr_pdcp_entity (type : nr_pdcp_entity_type_t) (gnb : bool) (rb pdusession : Z)
    (sdap_rx sdap_tx : bool) (sn reordering discard : Z)
    (parameters : nr_pdcp_entity_security_keys_and_algos_t) : outcome nr_pdcp_entity_t :=
  let e := mk_pdcp type rb pdusession sdap_rx sdap_tx sn reordering discard
    (Z.shiftl 1 sn - 1) (Z.shiftl 1 (sn - 1)) 0 0 0 0 0 0 false false
    (mk_keys 0 0 (replicate 16 0) (replicate 16 0)) CtxNull None None CtxNull None None
    gnb [] 0 0 pdcp_stats_zero false [] in
  nr_pdcp_entity_set_security e parameters.
End security.
