(* ===== verification/PdcpSecurity.v ===== *)
(** * NR PDCP: ciphering and integrity of an entity

    What [entity->cipher] and [entity->integrity] compute, for the algorithms
    NEA1/NIA1 (SNOW 3G) and NEA2/NIA2 (AES), and the life of the contexts. *)

From S2P Require Import Prelude SecuSnow3g SecuSnow3gSpec SecuSnow3gProps SecuSnow3gCipher SecuSnow3gMac SecuSnow3gUia SecuNas Pdcp.

(** ** Slices *)

Lemma zslice_prefix {A} (a c : list A) len : len = zlen a -> zslice (a ++ c) 0 len = Some a.
Proof. intros ->. by apply (zslice_mid [] a c). Qed.

Lemma zslice_suffix {A} (a b : list A) off len :
  off = zlen a -> len = zlen b -> zslice (a ++ b) off len = Some b.
Proof. intros Ha Hb. rewrite <- (app_nil_r b) at 1. by apply zslice_mid. Qed.

Lemma blit_mid (a b b' c : list Z) off :
  off = zlen a -> length b' = length b -> blit (a ++ b ++ c) off b' = Ok (a ++ b' ++ c).
Proof.
  intros -> Hb. unfold blit, zblit. rewrite !zlen_app.
  assert (zlen b' = zlen b) by (unfold zlen; congruence).
  pose proof (zlen_nonneg a). pose proof (zlen_nonneg c).
  destruct (_ && _) eqn:E; [|apply andb_false_iff in E as [E|E]; zify_bool; lia].
  cbn [of_option]. do 2 f_equal.
  - unfold zlen. by rewrite Nat2Z.id, take_app_length.
  - unfold zlen. rewrite Nat2Z.id, Hb. f_equal.
    by rewrite app_assoc, <- length_app, drop_app_length.
Qed.

(** The three parts of a buffer. *)
Lemma split_buffer {A} (l : list A) off len :
  0 <= off -> 0 <= len -> off + len <= zlen l ->
  exists a b c, l = a ++ b ++ c /\ zlen a = off /\ zlen b = len.
Proof.
  intros Ho Hl H. exists (take (Z.to_nat off) l), (take (Z.to_nat len) (drop (Z.to_nat off) l)),
    (drop (Z.to_nat len) (drop (Z.to_nat off) l)).
  rewrite !take_drop. split; [done|]. rewrite zlen_take by lia. split; [done|].
  rewrite zlen_take; [done|]. rewrite zlen_drop by lia. lia.
Qed.

(** ** The functions computed *)

Section functions.
Context {ssl : OpenSSL} {laws : OpenSSLLaws ssl}.

Definition cipher_fun (alg : security_alg_t) (key : list Z) (rb count direction : Z) (m : list Z) : list Z :=
  match alg with
  | ALG1 => zip_with Z.lxor m (uea2_keystream count (rb - 1) direction key (zlen m))
  | ALG2 => EVP_aes_128_ctr key (iv_bytes (mk_iv count (rb - 1) direction) 16) m
  end.

Definition integrity_fun (alg : security_alg_t) (key : list Z) (rb count direction : Z) (m : list Z) : list Z :=
  match alg with
  | ALG1 => word_bytes (uia2_mac count (Z.shiftl (rb - 1) 27) direction key m)
  | ALG2 => take 4 (EVP_cmac_aes128 key (iv_bytes (mk_iv count (rb - 1) direction) 8 ++ m))
  end.

(** AES takes COUNT as an [int] that must not be negative, and NEA2 refuses
    radio bearer 32. *)
Definition cipher_ok (alg : security_alg_t) (rb count : Z) : Prop :=
  match alg with
  | ALG1 => 1 <= rb <= 32 /\ 0 <= count < 2 ^ 32
  | ALG2 => 1 <= rb < 32 /\ 0 <= count < 2 ^ 31
  end.

Definition integrity_fun_ok (alg : security_alg_t) (rb count : Z) : Prop :=
  1 <= rb <= 32 /\ match alg with ALG1 => 0 <= count < 2 ^ 32 | ALG2 => 0 <= count < 2 ^ 31 end.

Lemma i32_small x : 0 <= x < 2 ^ 31 -> i32 x = x.
Proof. intros H. unfold i32. destruct (Z.ltb_spec x (2 ^ 31)); lia. Qed.

Lemma u32_i32 x : 0 <= x < 2 ^ 32 -> u32 (i32 x) = x.
Proof.
  intros H. unfold u32, i32. destruct (Z.ltb_spec x (2 ^ 31)); [by rewrite Z.mod_small|].
  symmetry. apply Z.mod_unique with (-1); lia.
Qed.

Lemma iv_i32 count b d : 0 <= count < 2 ^ 31 -> mk_iv (i32 count) b d = mk_iv count b d.
Proof. intros H. by rewrite i32_small. Qed.

Lemma nea_cipher alg key b rb count direction :
  cipher_ok alg rb count -> 0 <= direction < 2 -> zlen key = 16 -> 0 < zlen b < 2 ^ 28 ->
  match alg with
  | ALG1 => nr_pdcp_security_nea1_cipher key b (zlen b) rb (i32 count) direction
  | ALG2 => nr_pdcp_security_nea2_cipher key b (zlen b) rb (i32 count) direction
  end = Ok (cipher_fun alg key rb count direction b).
Proof.
  intros Hok Hd Hk Hb. destruct alg; cbn [cipher_ok cipher_fun] in *.
  - destruct Hok as [Hrb Hc]. unfold nr_pdcp_security_nea1_cipher, stream_compute_encrypt.
    cbn [Z.eqb Pos.eqb]. unfold nas_stream_encrypt_eea1.
    cbn [sc_count sc_bearer sc_direction sc_context sc_blength sc_message].
    rewrite u32_i32 by lia. unfold u8, u32. rewrite !Z.mod_small, Z.div_mul by lia.
    rewrite ciphering_xor by lia. unfold zlen. by rewrite Nat2Z.id, firstn_all.
  - destruct Hok as [Hrb Hc]. unfold nr_pdcp_security_nea2_cipher. rewrite iv_i32, i32_small by done.
    destruct (Z.gtb_spec (zlen b) 0); [|lia]. cbn [require mbind outcome_bind].
    destruct (Z.gtb_spec rb (-1)), (Z.ltb_spec rb 32); try lia. cbn [andb require mbind outcome_bind].
    destruct (Z.gtb_spec direction (-1)), (Z.ltb_spec direction 2); try lia. cbn [andb require mbind outcome_bind].
    destruct (Z.gtb_spec count (-1)); [|lia]. cbn [require mbind outcome_bind].
    rewrite zslice_all. done.
Qed.

Lemma nia_integrity alg key buffer len m rb count direction :
  integrity_fun_ok alg rb count -> 0 <= direction < 2 -> zlen key = 16 -> bytes_ok key ->
  zslice buffer 0 len = Some m -> 0 < len < 2 ^ 28 -> bytes_ok buffer ->
  match alg with
  | ALG1 => nr_pdcp_integrity_nia1_integrity key buffer len rb (i32 count) direction
  | ALG2 => nr_pdcp_integrity_nia2_integrity key buffer len rb (i32 count) direction
  end = Ok (integrity_fun alg key rb count direction m).
Proof.
  intros [Hrb Hc] Hd Hk Hkb Hm Hl Hb. destruct alg; cbn [integrity_fun] in *.
  - unfold nr_pdcp_integrity_nia1_integrity, stream_compute_integrity. cbn [Z.eqb Pos.eqb].
    unfold nas_stream_encrypt_eia1, snow3g_integrity.
    cbn [sc_count sc_bearer sc_direction sc_context sc_blength sc_message].
    rewrite u32_i32 by lia. unfold u8. rewrite !(Z.mod_small _ 256) by lia.
    unfold u32. rewrite (Z.mod_small (len * 8)), Z.div_mul by lia.
    rewrite Z.shiftl_mul_pow2 by lia. rewrite (Z.mod_small ((rb - 1) * 2 ^ 27)) by lia.
    apply zslice_Some in Hm as (_ & _ & Hlen & ->). rewrite integrity_mac by (done || lia). done.
  - unfold nr_pdcp_integrity_nia2_integrity. rewrite iv_i32, i32_small by done.
    destruct (Z.gtb_spec len (-1)); [|lia]. cbn [require mbind outcome_bind].
    destruct (Z.gtb_spec rb 0), (Z.ltb_spec rb 33); try lia. cbn [andb require mbind outcome_bind].
    destruct (Z.gtb_spec count (-1)); [|lia]. cbn [require mbind outcome_bind].
    rewrite Hm. cbn [mbind outcome_bind of_option]. unfold cipher_aes_128_cbc_cmac. cbn [aes_iv aes_key mbind outcome_bind].
    rewrite zslice_ok; [done|lia|lia|]. unfold zlen. rewrite cmac_length. lia.
Qed.

(** ** Their properties *)

Lemma word_bytes_ok w : bytes_ok (word_bytes w).
Proof.
  unfold word_bytes. rewrite !Forall_cons, Forall_nil. split_and!; try done; apply land_255_byte.
Qed.

Lemma uea2_keystream_bytes count b d key len : bytes_ok (uea2_keystream count b d key len).
Proof.
  apply Forall_take. generalize (uea2_start count b d key). generalize (Z.to_nat ((len + 3) / 4)).
  induction n as [|n IH]; intros s; [constructor|]. cbn [spec_keystream].
  destruct (spec_fsm s). cbn [mbind list_bind]. apply Forall_app. split; [apply word_bytes_ok|apply IH].
Qed.

Lemma zip_lxor_bytes a k : bytes_ok a -> bytes_ok k -> bytes_ok (zip_with Z.lxor a k).
Proof.
  intros Ha. revert k. induction Ha as [|x a Hx Ha IH]; intros k Hk; [constructor|].
  destruct Hk as [|y k Hy Hk]; [constructor|]. constructor; [by apply lxor_is_byte|by apply IH].
Qed.

Lemma cipher_fun_length alg key rb count d m : length (cipher_fun alg key rb count d m) = length m.
Proof.
  destruct alg; cbn [cipher_fun]; [|apply ctr_length].
  rewrite length_zip_with, uea2_keystream_len by apply zlen_nonneg. unfold zlen. lia.
Qed.

Lemma cipher_fun_involutive alg key rb count d m :
  cipher_fun alg key rb count d (cipher_fun alg key rb count d m) = m.
Proof.
  pose proof (cipher_fun_length alg key rb count d m) as Hl.
  destruct alg; cbn [cipher_fun] in *; [|apply ctr_involutive].
  assert (E : zlen (zip_with Z.lxor m (uea2_keystream count (rb - 1) d key (zlen m))) = zlen m)
    by (unfold zlen at 1; rewrite Hl; done).
  rewrite E. apply zip_lxor_twice. rewrite uea2_keystream_len by apply zlen_nonneg. unfold zlen. lia.
Qed.

Lemma cipher_fun_bytes alg key rb count d m : bytes_ok m -> bytes_ok (cipher_fun alg key rb count d m).
Proof.
  intros Hm. destruct alg; cbn [cipher_fun]; [|by apply ctr_bytes].
  apply zip_lxor_bytes; [done|apply uea2_keystream_bytes].
Qed.

Lemma integrity_fun_length alg key rb count d m : length (integrity_fun alg key rb count d m) = 4%nat.
Proof. destruct alg; cbn [integrity_fun]; [done|]. by rewrite length_take, cmac_length. Qed.

Lemma integrity_fun_bytes alg key rb count d m : bytes_ok (integrity_fun alg key rb count d m).
Proof. destruct alg; cbn [integrity_fun]; [apply word_bytes_ok|apply Forall_take, cmac_bytes]. Qed.

(** ** The contexts of an entity *)

Definition key_ok (k : list Z) : Prop := zlen k = 16 /\ bytes_ok k.

(** An algorithm that is on has its function, and a context that is alive and
    gives the entity's current key. *)
Record sec_inv (e : nr_pdcp_entity_t) : Prop := {
  sec_ikey : key_ok (integrity_key (security_keys_and_algos e));
  sec_ckey : key_ok (ciphering_key (security_keys_and_algos e));
  sec_int : has_integrity e = true <-> is_Some (free_integrity e);
  sec_int_ctx a : free_integrity e = Some a ->
    integrity e = Some a /\ integrity_context e = CtxKey (integrity_key (security_keys_and_algos e));
  sec_cip : has_ciphering e = true <-> is_Some (free_security e);
  sec_cip_ctx a : free_security e = Some a ->
    cipher e = Some a /\
    security_context e = match a with
                         | ALG1 => CtxKey (ciphering_key (security_keys_and_algos e))
                         | ALG2 => CtxEntityKey
                         end;
}.

(** [entity->cipher]: the slice is replaced by its image. *)
Lemma entity_cipher_ok e alg a b c off len count d :
  sec_inv e -> free_security e = Some alg -> cipher_ok alg (rb_id e) count -> 0 <= d < 2 ->
  off = zlen a -> len = zlen b -> 0 < len < 2 ^ 28 ->
  entity_cipher e (a ++ b ++ c) off len count d
  = Ok (a ++ cipher_fun alg (ciphering_key (security_keys_and_algos e)) (rb_id e) count d b ++ c).
Proof.
  intros Hs Hf Hok Hd -> -> Hlen. destruct (sec_cip_ctx e Hs alg Hf) as [Hc Hctx].
  unfold entity_cipher. rewrite Hc. cbn [mbind outcome_bind of_option].
  assert (E : context_key (security_context e) (ciphering_key (security_keys_and_algos e))
    = Ok (ciphering_key (security_keys_and_algos e))) by (rewrite Hctx; by destruct alg).
  rewrite E. cbn [mbind outcome_bind]. rewrite zslice_mid by done. cbn [mbind outcome_bind of_option].
  pose proof (nea_cipher alg (ciphering_key (security_keys_and_algos e)) b (rb_id e) count d Hok Hd
    (proj1 (sec_ckey e Hs)) Hlen) as H.
  destruct alg; rewrite H; cbn [mbind outcome_bind]; apply blit_mid; try done; apply cipher_fun_length.
Qed.

Lemma entity_integrity_ok e alg buffer m len count d :
  sec_inv e -> free_integrity e = Some alg -> integrity_fun_ok alg (rb_id e) count -> 0 <= d < 2 ->
  zslice buffer 0 len = Some m -> 0 < len < 2 ^ 28 -> bytes_ok buffer ->
  entity_integrity e buffer len count d
  = Ok (integrity_fun alg (integrity_key (security_keys_and_algos e)) (rb_id e) count d m).
Proof.
  intros Hs Hf Hok Hd Hm Hlen Hb. destruct (sec_int_ctx e Hs alg Hf) as [Hi Hctx].
  unfold entity_integrity. rewrite Hi, Hctx. cbn [mbind outcome_bind of_option context_key].
  apply nia_integrity; try done; apply (sec_ikey e Hs).
Qed.
End functions.

(** ** [set_security] *)

(** What [set_security] leaves alone: everything but the security fields. *)
Definition without_security (e : nr_pdcp_entity_t) : nr_pdcp_entity_t :=
  e <| has_ciphering := false |> <| has_integrity := false |>
    <| security_keys_and_algos := mk_keys 0 0 [] [] |>
    <| security_context := CtxNull |> <| cipher := None |> <| free_security := None |>
    <| integrity_context := CtxNull |> <| integrity := None |> <| free_integrity := None |>.

Definition alg_ok (alg : Z) : Prop := alg = -1 \/ alg = 0 \/ alg = 1 \/ alg = 2.

(** The keys of the algorithms that change have 16 bytes. *)
Definition params_ok (p : nr_pdcp_entity_security_keys_and_algos_t) : Prop :=
  alg_ok (integrity_algorithm p) /\ alg_ok (ciphering_algorithm p) /\
  key_ok (integrity_key p) /\ key_ok (ciphering_key p).

(** The contexts can be freed. *)
Definition contexts_live (e : nr_pdcp_entity_t) : Prop :=
  (forall a, free_integrity e = Some a -> exists k, integrity_context e = CtxKey k) /\
  (forall a, free_security e = Some a ->
     match a with ALG1 => exists k, security_context e = CtxKey k | ALG2 => security_context e = CtxEntityKey end).

Lemma sec_inv_live e : sec_inv e -> contexts_live e.
Proof.
  intros Hs. split; intros a Ha.
  - destruct (sec_int_ctx e Hs a Ha) as [_ ->]. by eexists.
  - destruct (sec_cip_ctx e Hs a Ha) as [_ ->]. destruct a; [by eexists|done].
Qed.

Lemma free_integrity_ok e : contexts_live e -> exists ctx, free_context (free_integrity e) false (integrity_context e) = Ok ctx.
Proof.
  intros [Hi _]. destruct (free_integrity e) as [a|] eqn:E; [|by eexists].
  destruct (Hi a eq_refl) as [k ->]. destruct a; by eexists.
Qed.

Lemma free_security_ok e : contexts_live e -> exists ctx, free_context (free_security e) true (security_context e) = Ok ctx.
Proof.
  intros [_ Hc]. destruct (free_security e) as [a|] eqn:E; [|by eexists].
  pose proof (Hc a eq_refl) as H. destruct a; [destruct H as [k ->]|rewrite H]; by eexists.
Qed.

(** The algorithm of a number. *)
Definition alg_of (alg : Z) : option security_alg_t :=
  if alg =? 1 then Some ALG1 else if alg =? 2 then Some ALG2 else None.

(** One of the four algorithm numbers, with the free of the context known. *)
Ltac security_step E :=
  cbn [Z.eqb Pos.eqb negb andb mbind outcome_bind]; field_simpl;
  rewrite ?E; cbn [mbind outcome_bind]; field_simpl;
  eexists; (split; [reflexivity|]); field_simpl;
  split_and!; try reflexivity;
  try (match goal with e : nr_pdcp_entity_t |- _ => destruct e; reflexivity end);
  try (split; [done|by intros [? ?]]); try (split; [by intros _; eexists|done]);
  intros ? Ha; first [discriminate Ha | injection Ha as <-; split; reflexivity].

Lemma set_integrity_ok e alg :
  contexts_live e -> alg_ok alg ->
  exists e', set_integrity e alg = Ok e' /\ without_security e' = without_security e /\
    security_keys_and_algos e' = security_keys_and_algos e /\
    has_ciphering e' = has_ciphering e /\ free_security e' = free_security e /\
    cipher e' = cipher e /\ security_context e' = security_context e /\
    if alg =? -1 then has_integrity e' = has_integrity e /\ free_integrity e' = free_integrity e /\
                      integrity e' = integrity e /\ integrity_context e' = integrity_context e
    else free_integrity e' = alg_of alg /\ (has_integrity e' = true <-> is_Some (alg_of alg)) /\
         forall a, alg_of alg = Some a -> integrity e' = Some a /\
           integrity_context e' = CtxKey (integrity_key (security_keys_and_algos e')).
Proof.
  intros Hl Halg. destruct (free_integrity_ok e Hl) as [ctx E].
  destruct Halg as [->|[->|[->| ->]]]; unfold set_integrity; security_step E.
Qed.

Lemma set_ciphering_ok e alg :
  contexts_live e -> alg_ok alg ->
  exists e', set_ciphering e alg = Ok e' /\ without_security e' = without_security e /\
    security_keys_and_algos e' = security_keys_and_algos e /\
    has_integrity e' = has_integrity e /\ free_integrity e' = free_integrity e /\
    integrity e' = integrity e /\ integrity_context e' = integrity_context e /\
    if alg =? -1 then has_ciphering e' = has_ciphering e /\ free_security e' = free_security e /\
                      cipher e' = cipher e /\ security_context e' = security_context e
    else free_security e' = alg_of alg /\ (has_ciphering e' = true <-> is_Some (alg_of alg)) /\
         forall a, alg_of alg = Some a -> cipher e' = Some a /\
           security_context e' = match a with
                                 | ALG1 => CtxKey (ciphering_key (security_keys_and_algos e'))
                                 | ALG2 => CtxEntityKey
                                 end.
Proof.
  intros Hl Halg. destruct (free_security_ok e Hl) as [ctx E].
  destruct Halg as [->|[->|[->| ->]]]; unfold set_ciphering; security_step E.
Qed.

(** The algorithm in force afterwards. *)
Definition new_alg (old : option security_alg_t) (alg : Z) : option security_alg_t :=
  if alg =? -1 then old else alg_of alg.

Lemma set_security_inv e p :
  sec_inv e -> params_ok p ->
  exists e', nr_pdcp_entity_set_security e p = Ok e' /\ sec_inv e' /\
    without_security e' = without_security e /\
    security_keys_and_algos e' = update_keys (security_keys_and_algos e) p /\
    free_integrity e' = new_alg (free_integrity e) (integrity_algorithm p) /\
    free_security e' = new_alg (free_security e) (ciphering_algorithm p).
Proof.
  intros Hs (Hia & Hca & Hik & Hck). unfold nr_pdcp_entity_set_security, new_alg.
  set (k' := update_keys (security_keys_and_algos e) p).
  assert (Hl : contexts_live (e <| security_keys_and_algos := k' |>)) by exact (sec_inv_live e Hs).
  destruct (set_integrity_ok _ (integrity_algorithm p) Hl Hia) as
    (e1 & -> & Hw1 & Hk1 & Hc1 & Hf1 & Hci1 & Hcx1 & H1). cbn [mbind outcome_bind].
  assert (Hl1 : contexts_live e1).
  { split.
    - intros a Ha. destruct (integrity_algorithm p =? -1).
      + destruct H1 as (_ & Hfi & _ & ->). rewrite Hfi in Ha. apply (proj1 Hl a Ha).
      + destruct H1 as (Hfi & _ & H1). rewrite Hfi in Ha. destruct (H1 a Ha) as [_ ->]. by eexists.
    - rewrite Hf1, Hcx1. apply Hl. }
  destruct (set_ciphering_ok e1 (ciphering_algorithm p) Hl1 Hca) as
    (e2 & -> & Hw2 & Hk2 & Hi2 & Hfi2 & Hin2 & Hix2 & H2).
  exists e2. split; [done|].
  assert (Hk : security_keys_and_algos e2 = k') by (by rewrite Hk2, Hk1).
  assert (Hki : integrity_key k' = if integrity_algorithm p =? -1 then integrity_key (security_keys_and_algos e)
    else integrity_key p).
  { unfold k', update_keys. by destruct (integrity_algorithm p =? -1), (ciphering_algorithm p =? -1). }
  assert (Hkc : ciphering_key k' = if ciphering_algorithm p =? -1 then ciphering_key (security_keys_and_algos e)
    else ciphering_key p).
  { unfold k', update_keys. by destruct (integrity_algorithm p =? -1), (ciphering_algorithm p =? -1). }
  field_simpl_in Hc1. field_simpl_in Hf1. field_simpl_in Hci1. field_simpl_in Hcx1. field_simpl_in Hk1.
  rewrite Hk1 in H1. rewrite Hk in H2. rewrite Hki in H1. rewrite Hkc in H2.
  assert (Hw : without_security e2 = without_security e).
  { rewrite Hw2, Hw1. clear. by destruct e. }
  split; [split|].
  - rewrite Hk, Hki. destruct (integrity_algorithm p =? -1); [apply Hs|done].
  - rewrite Hk, Hkc. destruct (ciphering_algorithm p =? -1); [apply Hs|done].
  - rewrite Hi2, Hfi2. destruct (integrity_algorithm p =? -1).
    + destruct H1 as (-> & -> & _). field_simpl. apply Hs.
    + destruct H1 as (-> & H1 & _). exact H1.
  - intros a. rewrite Hfi2, Hin2, Hix2, Hk, Hki. intros Ha. destruct (integrity_algorithm p =? -1).
    + destruct H1 as (_ & Hfi & -> & ->). rewrite Hfi in Ha. field_simpl_in Ha. field_simpl. by apply (sec_int_ctx e Hs).
    + destruct H1 as (Hfi & _ & H1). rewrite Hfi in Ha. by apply H1.
  - destruct (ciphering_algorithm p =? -1).
    + destruct H2 as (-> & -> & _). rewrite Hc1, Hf1. apply Hs.
    + destruct H2 as (-> & H2 & _). exact H2.
  - intros a. rewrite Hk, Hkc. intros Ha. destruct (ciphering_algorithm p =? -1).
    + destruct H2 as (_ & Hf2 & -> & ->). rewrite Hf2, Hf1 in Ha. rewrite Hci1, Hcx1. by apply (sec_cip_ctx e Hs).
    + destruct H2 as (Hf2 & _ & H2). rewrite Hf2 in Ha. by apply H2.
  - split; [exact Hw|]. split; [exact Hk|]. rewrite Hfi2. split.
    + destruct (integrity_algorithm p =? -1); [by destruct H1 as (_ & -> & _)|by destruct H1 as (-> & _)].
    + destruct (ciphering_algorithm p =? -1); [destruct H2 as (_ & -> & _); exact Hf1|by destruct H2 as (-> & _)].
Qed.
