(* ===== verification/PdcpRx.v ===== *)
(** * NR PDCP: the receiving entity

    The reception list is ordered by COUNT, above RX_DELIV and below RX_NEXT;
    what was delivered is in order, below RX_DELIV; the reordering timer runs
    while something is missing. *)

From S2P Require Import Prelude SecuNas Pdcp.

(** ** What reception does not change *)

Definition rx_frame (e : nr_pdcp_entity_t) : nr_pdcp_entity_t :=
  e <| rx_list := [] |> <| rx_size := 0 |> <| pdcp_stats := pdcp_stats_zero |> <| delivered := [] |>
    <| rx_next := 0 |> <| rx_deliv := 0 |> <| rx_reord := 0 |> <| t_reordering_start := 0 |>
    <| t_current := 0 |>.

Lemma frame_field {A} (f : nr_pdcp_entity_t -> A) e e' :
  rx_frame e' = rx_frame e -> (forall x, f (rx_frame x) = f x) -> f e' = f e.
Proof. intros H Hf. by rewrite <- (Hf e'), <- (Hf e), H. Qed.

(** [deliver_sdu] leaves the state variables alone. *)
Record same_vars (e e' : nr_pdcp_entity_t) : Prop := {
  sv_frame : rx_frame e' = rx_frame e;
  sv_next : rx_next e' = rx_next e;
  sv_deliv : rx_deliv e' = rx_deliv e;
  sv_reord : rx_reord e' = rx_reord e;
  sv_timer : t_reordering_start e' = t_reordering_start e;
  sv_current : t_current e' = t_current e;
}.

#[export] Instance same_vars_refl : Reflexive same_vars.
Proof. by split. Qed.

#[export] Instance same_vars_trans : Transitive same_vars.
Proof. intros e1 e2 e3 [] []. split; congruence. Qed.

Lemma deliver_same e cur l : same_vars e ((deliver_sdu e cur) <| rx_list := l |>).
Proof. unfold deliver_sdu, pdcp_add_stat. split; destruct e; reflexivity. Qed.

Lemma deliver_fields e cur l :
  delivered ((deliver_sdu e cur) <| rx_list := l |>) = delivered e ++ [cur] /\
  rx_list ((deliver_sdu e cur) <| rx_list := l |>) = l.
Proof. split; destruct e; reflexivity. Qed.

(** ** Counts *)

Abbreviation counts := (fmap (M:=list) ps_count).
Abbreviation increasing := (StronglySorted Z.lt).

(** The run of consecutive counts at the head of a list. *)
Fixpoint run_length (l : list nr_pdcp_sdu_t) (count : Z) : nat :=
  match l with
  | cur :: l' => if count =? ps_count cur then S (run_length l' (count + 1)) else O
  | [] => O
  end.

Lemma run_counts l c i s :
  (i < run_length l c)%nat -> l !! i = Some s -> ps_count s = c + Z.of_nat i.
Proof.
  revert c i. induction l as [|x l IH]; intros c i Hi Hs; [done|]. cbn [run_length] in Hi.
  destruct (c =? ps_count x) eqn:E; zify_bool; [|lia].
  destruct i as [|i]; cbn in Hs; [injection Hs as <-; lia|].
  rewrite (IH (c + 1) i) by (done || lia). lia.
Qed.

Lemma run_bound l c : (run_length l c <= length l)%nat.
Proof.
  revert c. induction l as [|x l IH]; intros c; cbn; [lia|].
  destruct (_ =? _); [|lia]. specialize (IH (c + 1)). lia.
Qed.

(** The element after the run has another count. *)
Lemma run_stops l c s : l !! run_length l c = Some s -> ps_count s <> c + Z.of_nat (run_length l c).
Proof.
  revert c. induction l as [|x l IH]; intros c Hs; [done|]. cbn [run_length] in *.
  destruct (c =? ps_count x) eqn:E; zify_bool.
  - cbn in Hs. apply IH in Hs. lia.
  - cbn in Hs. injection Hs as <-. lia.
Qed.

Lemma deliver_consecutive_run e l c :
  rx_list e = l -> 0 <= c -> c + Z.of_nat (run_length l c) < 2 ^ 32 ->
  exists e', deliver_consecutive e l c = (e', c + Z.of_nat (run_length l c)) /\
    delivered e' = delivered e ++ take (run_length l c) l /\
    rx_list e' = drop (run_length l c) l /\ same_vars e e'.
Proof.
  revert e c. induction l as [|x l IH]; intros e c Hl Hc Hb; cbn [deliver_consecutive run_length].
  { exists e. rewrite Z.add_0_r, app_nil_r. done. }
  cbn [run_length] in Hb. destruct (c =? ps_count x); [|exists e; rewrite Z.add_0_r, app_nil_r; done].
  assert (Hu : u32 (c + 1) = c + 1) by (unfold u32; rewrite Z.mod_small; lia). rewrite Hu.
  pose proof (deliver_same e x l) as Hsame. destruct (deliver_fields e x l) as [Hd Hr].
  destruct (IH _ (c + 1) Hr) as (e' & -> & Hd' & Hr' & Hs'); [lia|lia|].
  exists e'. split; [f_equal; lia|]. cbn [take drop]. rewrite Hd', Hd, <- app_assoc.
  split; [done|]. split; [done|]. by transitivity ((deliver_sdu e x) <| rx_list := l |>).
Qed.

(** How many SDUs of an ordered list are below [r]. *)
Fixpoint below (l : list nr_pdcp_sdu_t) (r : Z) : nat :=
  match l with
  | cur :: l' => if ps_count cur <? r then S (below l' r) else O
  | [] => O
  end.

Lemma deliver_before_below e l :
  rx_list e = l ->
  exists n, n = below l (rx_reord e) /\
    delivered (deliver_before e l) = delivered e ++ take n l /\
    rx_list (deliver_before e l) = drop n l /\ same_vars e (deliver_before e l).
Proof.
  revert e. induction l as [|x l IH]; intros e Hl; cbn [deliver_before below].
  { exists O. rewrite app_nil_r. done. }
  destruct (ps_count x <? rx_reord e); [|exists O; rewrite app_nil_r; done].
  pose proof (deliver_same e x l) as Hsame. destruct (deliver_fields e x l) as [Hd Hr].
  destruct (IH _ Hr) as (n & Hn & Hd' & Hr' & Hs').
  rewrite (sv_reord _ _ Hsame) in Hn. exists (S n). cbn [take drop].
  split; [by rewrite Hn|]. rewrite Hd', Hd, <- app_assoc. split; [done|]. split; [done|].
  by transitivity ((deliver_sdu e x) <| rx_list := l |>).
Qed.

Lemma below_lt l r i s : (i < below l r)%nat -> l !! i = Some s -> ps_count s < r.
Proof.
  revert i. induction l as [|x l IH]; intros i Hi Hs; [done|]. cbn [below] in Hi.
  destruct (ps_count x <? r) eqn:E; zify_bool; [|lia].
  destruct i; cbn in Hs; [injection Hs as <-; lia|]. apply (IH i); [lia|done].
Qed.

Lemma below_ge l r i s : increasing (counts l) -> (below l r <= i)%nat -> l !! i = Some s -> r <= ps_count s.
Proof.
  revert i. induction l as [|x l IH]; intros i Hinc Hi Hs; [done|]. cbn [below] in Hi.
  cbn in Hinc. inversion_clear Hinc as [|? ? Hl Hall].
  destruct (ps_count x <? r) eqn:E; zify_bool.
  - destruct i; [lia|]. apply (IH i); [done|lia|done].
  - destruct i; cbn in Hs; [injection Hs as <-; lia|].
    rewrite Forall_forall in Hall. assert (ps_count x < ps_count s); [|lia].
    apply Hall. apply list_elem_of_fmap. exists s. split; [done|]. by eapply list_elem_of_lookup_2.
Qed.

Lemma deliver_list_all e l :
  rx_list e = l ->
  delivered (deliver_list e l) = delivered e ++ l /\ rx_list (deliver_list e l) = [] /\
  same_vars e (deliver_list e l).
Proof.
  revert e. induction l as [|x l IH]; intros e Hl; cbn [deliver_list].
  { rewrite app_nil_r. done. }
  destruct (deliver_fields e x l) as [Hd Hr]. destruct (IH _ Hr) as (Hd' & Hr' & Hs').
  rewrite Hd', Hd, <- app_assoc. split; [done|]. split; [done|].
  transitivity ((deliver_sdu e x) <| rx_list := l |>); [apply deliver_same|done].
Qed.

(** ** The reception list *)

Lemma pdcp_list_add_perm l sdu : nr_pdcp_sdu_list_add l sdu ≡ₚ sdu :: l.
Proof.
  induction l as [|x l IH]; [done|]. cbn. destruct (_ <? _); [done|]. rewrite IH. constructor.
Qed.

Lemma list_add_increasing l sdu :
  increasing (counts l) -> ps_count sdu ∉ counts l -> increasing (counts (nr_pdcp_sdu_list_add l sdu)).
Proof.
  induction l as [|x l IH]; intros Hinc Hnot; cbn; [repeat constructor|].
  cbn in Hinc, Hnot. inversion_clear Hinc as [|? ? Hl Hall]. apply not_elem_of_cons in Hnot as [Hx Hn].
  destruct (ps_count sdu <? ps_count x) eqn:E; zify_bool.
  - constructor; [by constructor|]. constructor; [done|].
    eapply Forall_impl; [exact Hall|]. cbn. lia.
  - constructor; [by apply IH|]. rewrite pdcp_list_add_perm. cbn. constructor; [lia|done].
Qed.

Lemma in_list_spec l c : nr_pdcp_sdu_in_list l c = bool_decide (c ∈ counts l).
Proof.
  induction l as [|x l IH]; cbn; [by rewrite bool_decide_eq_false_2 by set_solver|].
  rewrite IH. destruct (ps_count x =? c) eqn:E; zify_bool; cbn [orb].
  - symmetry. apply bool_decide_eq_true_2. set_solver.
  - apply bool_decide_ext. set_solver.
Qed.

(** The first of an ordered list is the least. *)
Lemma increasing_app l1 l2 :
  increasing (l1 ++ l2) <-> increasing l1 /\ increasing l2 /\ (forall x y, x ∈ l1 -> y ∈ l2 -> x < y).
Proof.
  induction l1 as [|a l1 IH]; cbn.
  - split; [intros H; split_and!; [constructor|done|set_solver]|by intros (_ & ? & _)].
  - split.
    + intros H. inversion_clear H as [|? ? Hl Hall]. apply IH in Hl as (H1 & H2 & H3).
      apply Forall_app in Hall as [Ha1 Ha2]. split_and!; [by constructor|done|].
      intros x y Hx Hy. apply elem_of_cons in Hx as [->|Hx]; [|by apply H3].
      rewrite Forall_forall in Ha2. by apply Ha2.
    + intros (H1 & H2 & H3). inversion_clear H1 as [|? ? Hl Hall]. constructor.
      * apply IH. split_and!; [done|done|]. intros x y Hx Hy. apply H3; [set_solver|done].
      * apply Forall_app. split; [done|]. rewrite Forall_forall. intros y Hy. apply H3; [set_solver|done].
Qed.

(** ** The invariant *)

(** What holds of the list and the variables whatever the timer. *)
Record rx_core (e : nr_pdcp_entity_t) : Prop := {
  rc_range : 0 <= rx_deliv e <= rx_next e;
  rc_max : rx_next e < 2 ^ 32;
  rc_sorted : increasing (counts (rx_list e));
  rc_list c : c ∈ counts (rx_list e) -> rx_deliv e < c < rx_next e;
  rc_last : rx_deliv e < rx_next e -> rx_next e - 1 ∈ counts (rx_list e);
  rc_done : increasing (counts (delivered e));
  rc_below c : c ∈ counts (delivered e) -> c < rx_deliv e;
}.

Record rx_inv (e : nr_pdcp_entity_t) : Prop := {
  ri_core : rx_core e;
  ri_timer : t_reordering_start e <> 0 -> rx_deliv e < rx_reord e <= rx_next e;
}.

(** Something is missing only while the timer runs. *)
Definition timer_runs (e : nr_pdcp_entity_t) : Prop :=
  t_reordering_start e = 0 -> rx_deliv e = rx_next e.

Lemma increasing_index l c i s :
  increasing (counts l) -> (forall x, x ∈ counts l -> c <= x) -> l !! i = Some s -> c + Z.of_nat i <= ps_count s.
Proof.
  revert c i. induction l as [|x l IH]; intros c i Hinc Hc Hs; [done|].
  cbn in Hinc, Hc. inversion_clear Hinc as [|? ? Hl Hall]. rewrite Forall_forall in Hall.
  assert (c <= ps_count x) by (apply Hc; set_solver).
  destruct i as [|i]; cbn in Hs; [injection Hs as <-; lia|].
  assert (c + 1 + Z.of_nat i <= ps_count s); [|lia].
  apply IH; [done| |done]. intros y Hy. specialize (Hall y Hy). lia.
Qed.

Lemma elem_take_index {A} (x : A) n l : x ∈ take n l <-> exists i, (i < n)%nat /\ l !! i = Some x.
Proof.
  rewrite list_elem_of_lookup. split.
  - intros [i Hi]. apply lookup_take_Some in Hi as [Hi Hn]. eauto.
  - intros (i & Hn & Hi). exists i. rewrite lookup_take_lt by done. done.
Qed.

Lemma elem_drop_index {A} (x : A) n l : x ∈ drop n l <-> exists i, (n <= i)%nat /\ l !! i = Some x.
Proof.
  rewrite list_elem_of_lookup. split.
  - intros [i Hi]. rewrite lookup_drop in Hi. exists (n + i)%nat. split; [lia|done].
  - intros (i & Hn & Hi). exists (i - n)%nat. rewrite lookup_drop. by replace (n + (i - n))%nat with i by lia.
Qed.

(** Delivering the run of consecutive counts from [c], above everything
    delivered and at the head of an ordered list. *)
Lemma run_core e c :
  increasing (counts (rx_list e)) -> increasing (counts (delivered e)) ->
  (forall x, x ∈ counts (rx_list e) -> c <= x < rx_next e) ->
  (forall x, x ∈ counts (delivered e) -> x < c) ->
  0 <= c <= rx_next e -> rx_next e < 2 ^ 32 -> (c < rx_next e -> rx_next e - 1 ∈ counts (rx_list e)) ->
  exists e', deliver_consecutive e (rx_list e) c = (e', rx_deliv (e' <| rx_deliv := c + Z.of_nat (run_length (rx_list e) c) |>)) /\
    rx_core (e' <| rx_deliv := c + Z.of_nat (run_length (rx_list e) c) |>) /\ same_vars e e' /\
    delivered e' ++ rx_list e' = delivered e ++ rx_list e.
Proof.
  intros Hsort Hdone Hl Hd Hc Hmax Hlast. set (l := rx_list e) in *.
  pose proof (run_bound l c) as Hn. pose proof (run_counts l c) as Hrun. pose proof (run_stops l c) as Hstop.
  pose proof (deliver_consecutive_run e l c eq_refl) as Hcons. clearbody l.
  generalize dependent (run_length l c). intros n Hn Hrun Hstop Hcons.
  assert (Hcn : c + Z.of_nat n <= rx_next e).
  { destruct (decide (n = 0%nat)); [lia|].
    destruct (lookup_lt_is_Some_2 l (n - 1)) as [s Hs]; [lia|].
    assert (ps_count s = c + Z.of_nat (n - 1)) by (apply Hrun; [lia|done]).
    assert (ps_count s < rx_next e); [|lia]. apply Hl, list_elem_of_fmap. exists s.
    split; [done|]. by eapply list_elem_of_lookup_2. }
  destruct Hcons as (e' & -> & Hd' & Hr' & Hs'); [lia|lia|]. exists e'. split; [by destruct e'|]. split; [|split; [done|]].
  2: { by rewrite Hd', Hr', <- app_assoc, take_drop. }
  assert (Htake : forall x, x ∈ counts (take n l) -> c <= x < c + Z.of_nat n).
  { intros x (s & -> & Hs)%list_elem_of_fmap. apply elem_take_index in Hs as (i & Hi & Hs).
    rewrite (Hrun i s) by done. lia. }
  assert (Hdrop : forall x, x ∈ counts (drop n l) -> c + Z.of_nat n < x).
  { intros x (s & -> & Hs)%list_elem_of_fmap. apply elem_drop_index in Hs as (i & Hi & Hs).
    assert (c + Z.of_nat i <= ps_count s) by (apply (increasing_index l); [done|intros; by apply Hl|done]).
    destruct (decide (i = n)) as [->|]; [|lia].
    pose proof (Hstop s Hs). lia. }
  assert (Hsplit : counts l = counts (take n l) ++ counts (drop n l)) by (by rewrite <- fmap_app, take_drop).
  rewrite Hsplit in Hsort. apply increasing_app in Hsort as (Hst & Hsd & Hcross).
  pose proof (sv_next _ _ Hs') as Hnext.
  split; field_simpl; rewrite ?Hd', ?Hr', ?Hnext.
  - lia.
  - done.
  - done.
  - intros x Hx. split; [by apply Hdrop|]. apply Hl. rewrite Hsplit. set_solver.
  - intros Hlt. assert (Hin : rx_next e - 1 ∈ counts l) by (apply Hlast; lia).
    rewrite Hsplit in Hin. apply elem_of_app in Hin as [Hin|Hin]; [|done].
    apply Htake in Hin. lia.
  - rewrite fmap_app. apply increasing_app. split_and!; [done|done|].
    intros x y Hx Hy. apply Hd in Hx. apply Htake in Hy. lia.
  - intros x Hx. rewrite fmap_app in Hx. apply elem_of_app in Hx as [Hx|Hx].
    + apply Hd in Hx. lia.
    + apply Htake in Hx. lia.
Qed.

Lemma update_t_reordering_inv e :
  rx_core e -> (t_reordering_start e <> 0 -> rx_reord e <= rx_next e) ->
  let e' := update_t_reordering e in
  rx_inv e' /\ (t_current e <> 0 -> timer_runs e') /\
  rx_frame e' = rx_frame e /\ delivered e' = delivered e /\ rx_list e' = rx_list e /\
  rx_deliv e' = rx_deliv e /\ rx_next e' = rx_next e /\ t_current e' = t_current e.
Proof.
  intros Hc Ht. cbv zeta. unfold update_t_reordering.
  assert (Hcore : forall r t, rx_core (e <| rx_reord := r |> <| t_reordering_start := t |>)) by
    (intros; destruct Hc; by split).
  assert (Hcore' : forall t, rx_core (e <| t_reordering_start := t |>)) by (intros; destruct Hc; by split).
  assert (Hcore'' : forall s r t, rx_core (e <| t_reordering_start := s |> <| rx_reord := r |> <| t_reordering_start := t |>)) by
    (intros; destruct Hc; by split).
  pose proof (rc_range e Hc) as Hrange.
  assert (Hfr : forall s r t, rx_frame (e <| t_reordering_start := s |> <| rx_reord := r |> <| t_reordering_start := t |>) = rx_frame e)
    by (intros; by destruct e).
  assert (Hfr1 : forall r t, rx_frame (e <| rx_reord := r |> <| t_reordering_start := t |>) = rx_frame e)
    by (intros; by destruct e).
  assert (Hfr2 : forall t, rx_frame (e <| t_reordering_start := t |>) = rx_frame e) by (intros; by destruct e).
  destruct (t_reordering_start e =? 0) eqn:Es; cbn [negb andb]; rewrite ?Es; zify_bool.
  - destruct (rx_deliv e <? rx_next e) eqn:El; cbn [andb]; zify_bool.
    2: { split; [by split|]. split_and!; try done. intros _ _. lia. }
    split; [split; [apply Hcore|field_simpl; lia]|].
    split; [intros Hcur Hs; field_simpl_in Hs; done|]. split; [apply Hfr1|]. by field_simpl.
  - specialize (Ht Es). destruct (rx_deliv e >=? rx_reord e) eqn:Ed; field_simpl; zify_bool.
    + destruct (rx_deliv e <? rx_next e) eqn:El; cbn [Z.eqb andb]; zify_bool.
      * split; [split; [apply Hcore''|field_simpl; lia]|].
        split; [intros Hcur Hs; field_simpl_in Hs; done|]. split; [apply Hfr|]. by field_simpl.
      * split; [split; [apply Hcore'|by field_simpl]|].
        split; [intros _ _; field_simpl; lia|]. split; [apply Hfr2|]. by field_simpl.
    + destruct (t_reordering_start e =? 0) eqn:Es'; zify_bool; [done|]. cbn [andb].
      split; [split; [done|lia]|]. split; [by intros _ Hs|done].
Qed.

(** ** Reception of a new SDU, expiry of the timer *)

(** The effect of an event on the list and what was delivered: [input] is
    what the event adds. *)
Record rx_effect (e e' : nr_pdcp_entity_t) (l : list nr_pdcp_sdu_t) : Prop := {
  re_inv : rx_inv e';
  re_frame : rx_frame e' = rx_frame e;
  re_content : delivered e' ++ rx_list e' = delivered e ++ l;
  re_progress : rx_deliv e <= rx_deliv e';
  re_runs : t_current e' <> 0 -> timer_runs e -> timer_runs e';
  re_next n : rx_next e <= n -> (forall c, c ∈ counts l -> c < n) -> rx_next e' <= n;
}.

Lemma recv_new_sdu_effect e sdu size hs :
  rx_inv e -> ps_count sdu ∉ counts (rx_list e) -> rx_deliv e <= ps_count sdu -> ps_count sdu + 1 < 2 ^ 32 ->
  let e' := recv_new_sdu e sdu size hs in
  rx_effect e e' (nr_pdcp_sdu_list_add (rx_list e) sdu) /\ t_current e' = t_current e /\
  (ps_count sdu = rx_deliv e -> sdu ∈ delivered e').
Proof.
  intros [Hc Ht] Hnew Hge Hmax. cbv zeta. destruct Hc as [Hr Hm Hs Hl Hlast Hd Hb].
  unfold recv_new_sdu. set (l := nr_pdcp_sdu_list_add (rx_list e) sdu).
  assert (Hperm : counts l ≡ₚ ps_count sdu :: counts (rx_list e)).
  { unfold l. rewrite pdcp_list_add_perm. done. }
  assert (Hsl : increasing (counts l)) by (by apply list_add_increasing).
  assert (Hin : forall x, x ∈ counts l <-> x = ps_count sdu \/ x ∈ counts (rx_list e)).
  { intros x. rewrite Hperm. apply elem_of_cons. }
  rewrite Z.geb_leb. set (c := ps_count sdu) in *.
  set (nxt := if rx_next e <=? c then c + 1 else rx_next e).
  assert (Hu : u32 (c + 1) = c + 1) by (unfold u32; rewrite Z.mod_small; lia).
  set (e0 := e <| rx_list := l |> <| rx_size := rx_size e + (size - hs) |>).
  set (e1 := if rx_next e <=? c then e0 <| rx_next := u32 (c + 1) |> else e0).
  assert (H1 : rx_list e1 = l /\ delivered e1 = delivered e /\ rx_deliv e1 = rx_deliv e /\ rx_next e1 = nxt /\
    rx_frame e1 = rx_frame e /\ t_current e1 = t_current e /\ t_reordering_start e1 = t_reordering_start e /\
    rx_reord e1 = rx_reord e).
  { unfold e1, nxt, e0. rewrite Hu. destruct (rx_next e <=? c); split_and!; by destruct e. }
  change (rx_next e0) with (rx_next e). fold e1. clearbody e1. clear e0.
  destruct H1 as (El & Ed & Edl & En & Ef & Ec & Et & Er).
  assert (Hnxt : c < nxt /\ rx_next e <= nxt < 2 ^ 32) by (unfold nxt; case_if; lia).
  assert (Hlast1 : rx_deliv e < nxt -> nxt - 1 ∈ counts l).
  { intros Hlt. apply Hin. unfold nxt in *. case_if; [left; lia|]. right. apply Hlast. lia. }
  assert (Hbound : forall x, x ∈ counts l -> rx_deliv e <= x < nxt).
  { intros x Hx. apply Hin in Hx as [->|Hx]; [lia|]. apply Hl in Hx. lia. }
  assert (Hnb : forall b, rx_next e <= b -> (forall x, x ∈ counts l -> x < b) -> nxt <= b).
  { intros b Hb1 Hb2. unfold nxt. case_if; [|done]. assert (c < b); [|lia]. apply Hb2, Hin. by left. }
  rewrite Edl. destruct (c =? rx_deliv e) eqn:E; zify_bool.
  - destruct (run_core e1 (rx_deliv e)) as (e2 & Hrun & Hcore & Hsv & Hcont); rewrite ?El, ?Ed, ?En in *;
      [done|done|done|done|lia|lia|done|].
    rewrite Hrun. set (n := run_length l (rx_deliv e)) in *.
    change (rx_deliv (e2 <| rx_deliv := rx_deliv e + Z.of_nat n |>)) with (rx_deliv e + Z.of_nat n).
    set (e3 := e2 <| rx_deliv := rx_deliv e + Z.of_nat n |>) in *.
    assert (H3 : rx_frame e3 = rx_frame e /\ rx_next e3 = nxt /\ rx_reord e3 = rx_reord e /\
      t_reordering_start e3 = t_reordering_start e /\ t_current e3 = t_current e /\
      delivered e3 ++ rx_list e3 = delivered e ++ l /\ rx_deliv e3 = rx_deliv e + Z.of_nat n).
    { destruct Hsv as [Sf Sn Sd Sr St Sc]. unfold e3. field_simpl. split_and!; try congruence.
      all: rewrite <- Ef, <- Sf; by destruct e2. }
    destruct H3 as (F3 & N3 & R3 & T3 & C3 & D3 & V3).
    destruct (update_t_reordering_inv e3 Hcore) as (Hi & Hru & Hf & Hde & Hli & Hdv & Hnx & Hcu).
    { rewrite T3, R3, N3. intros Hne. specialize (Ht Hne). lia. }
    split; [split|split].
    + done.
    + congruence.
    + by rewrite Hde, Hli, D3.
    + rewrite Hdv, V3. lia.
    + rewrite Hcu. intros Hne _. by apply Hru.
    + intros b Hb1 Hb2. rewrite Hnx, N3. by apply Hnb.
    + congruence.
    + intros _. rewrite Hde.
      assert (Hs1 : sdu ∈ delivered e3 ++ rx_list e3).
      { rewrite D3. apply elem_of_app. right. unfold l. rewrite pdcp_list_add_perm. set_solver. }
      apply elem_of_app in Hs1 as [Hs1|Hs1]; [done|].
      assert (Hc1 : c ∈ counts (rx_list e3)) by (apply list_elem_of_fmap; eauto).
      apply (rc_list e3 Hcore) in Hc1. rewrite V3 in Hc1. lia.
  - assert (Hcore : rx_core e1).
    { split; rewrite ?El, ?Ed, ?Edl, ?En; try done; try lia.
      intros x Hx. specialize (Hbound x Hx). apply Hin in Hx as [->|Hx]; [lia|]. apply Hl in Hx. lia. }
    destruct (update_t_reordering_inv e1 Hcore) as (Hi & Hru & Hf & Hde & Hli & Hdv & Hnx & Hcu).
    { rewrite Et, Er, En. intros Hne. specialize (Ht Hne). lia. }
    split; [split|split].
    + done.
    + congruence.
    + by rewrite Hde, Hli, El, Ed.
    + rewrite Hdv, Edl. lia.
    + rewrite Hcu. intros Hne _. by apply Hru.
    + intros b Hb1 Hb2. rewrite Hnx, En. by apply Hnb.
    + congruence.
    + done.
Qed.

Lemma check_t_reordering_effect e :
  rx_inv e -> rx_effect e (check_t_reordering e) (rx_list e) /\
  t_current (check_t_reordering e) = t_current e /\
  (t_reordering e <> -1 -> t_reordering_start e <> 0 ->
   u64 (t_reordering_start e + t_reordering e) < t_current e ->
   rx_reord e <= rx_deliv (check_t_reordering e)).
Proof.
  intros [Hc Ht]. unfold check_t_reordering.
  assert (Hrefl : rx_effect e e (rx_list e)) by (by split).
  destruct (t_reordering e =? -1) eqn:E1; [zify_bool; split_and!; done|].
  destruct (t_reordering_start e =? 0) eqn:E2; cbn [orb]; [zify_bool; split_and!; done|].
  destruct (t_current e <=? _) eqn:E3; [zify_bool; split_and!; try done; lia|]. zify_bool.
  specialize (Ht E2). clear Hrefl.
  set (e1 := e <| t_reordering_start := 0 |>).
  destruct (deliver_before_below e1 (rx_list e1) eq_refl) as (n & Hn & Hd & Hl & Hs).
  set (e2 := deliver_before e1 (rx_list e1)) in *.
  change (rx_list e1) with (rx_list e) in *. change (rx_reord e1) with (rx_reord e) in *.
  change (delivered e1) with (delivered e) in *.
  destruct Hc as [Hr Hm Hsort Hli Hlast Hdone Hb].
  assert (Hsplit : counts (rx_list e) = counts (take n (rx_list e)) ++ counts (drop n (rx_list e))).
  { by rewrite <- fmap_app, take_drop. }
  pose proof Hsort as Hsort'. rewrite Hsplit in Hsort'. apply increasing_app in Hsort' as (Hst & Hsd & Hcross).
  assert (Htake : forall x, x ∈ counts (take n (rx_list e)) -> rx_deliv e < x < rx_reord e).
  { intros x Hx. split; [apply Hli; rewrite Hsplit; set_solver|].
    apply list_elem_of_fmap in Hx as (s & -> & Hs1). apply elem_take_index in Hs1 as (i & Hi & Hs1).
    apply (below_lt (rx_list e) _ i); [by rewrite <- Hn|done]. }
  assert (Hdrop : forall x, x ∈ counts (drop n (rx_list e)) -> rx_reord e <= x < rx_next e).
  { intros x Hx. split; [|apply Hli; rewrite Hsplit; set_solver].
    apply list_elem_of_fmap in Hx as (s & -> & Hs1). apply elem_drop_index in Hs1 as (i & Hi & Hs1).
    apply (below_ge (rx_list e) _ i); [done|by rewrite <- Hn|done]. }
  destruct (run_core e2 (rx_reord e)) as (e3 & Hrun & Hcore & Hsv & Hcont); rewrite ?Hl, ?Hd, ?(sv_next _ _ Hs) in *;
    change (rx_next e1) with (rx_next e) in *; [done| |done| |lia|done| |].
  { rewrite fmap_app. apply increasing_app. split_and!; [done|done|].
    intros x y Hx Hy. apply Hb in Hx. apply Htake in Hy. lia. }
  { intros x Hx. rewrite fmap_app in Hx. apply elem_of_app in Hx as [Hx|Hx].
    - apply Hb in Hx. lia.
    - apply Htake in Hx. lia. }
  { intros Hlt. assert (Hin : rx_next e - 1 ∈ counts (rx_list e)) by (apply Hlast; lia).
    rewrite Hsplit in Hin. apply elem_of_app in Hin as [Hin|Hin]; [|done]. apply Htake in Hin. lia. }
  rewrite (sv_reord _ _ Hs). change (rx_reord e1) with (rx_reord e).
  rewrite Hrun. set (k := run_length _ _) in *.
  change (rx_deliv (e3 <| rx_deliv := rx_reord e + Z.of_nat k |>)) with (rx_reord e + Z.of_nat k).
  set (e4 := e3 <| rx_deliv := rx_reord e + Z.of_nat k |>) in *.
  assert (H4 : rx_frame e4 = rx_frame e /\ rx_next e4 = rx_next e /\ t_reordering_start e4 = 0 /\
    t_current e4 = t_current e /\ delivered e4 ++ rx_list e4 = delivered e ++ rx_list e /\
    rx_deliv e4 = rx_reord e + Z.of_nat k).
  { destruct Hsv as [Sf Sn Sd Sr St Sc], Hs as [Sf' Sn' Sd' Sr' St' Sc']. unfold e4. field_simpl. split_and!.
    - rewrite Sf, Sf'. by destruct e.
    - rewrite Sn, Sn'. done.
    - rewrite St, St'. done.
    - rewrite Sc, Sc'. done.
    - by rewrite Hcont, <- app_assoc, take_drop.
    - done. }
  destruct H4 as (F4 & N4 & T4 & C4 & D4 & V4).
  assert (Hcore' : forall r t, rx_core (e4 <| rx_reord := r |> <| t_reordering_start := t |>))
    by (intros; destruct Hcore; by split).
  pose proof (rc_range e4 Hcore) as Hr4.
  destruct (rx_deliv e4 <? rx_next e4) eqn:E4; zify_bool.
  - split; [split|split]; field_simpl.
    + split; [apply Hcore'|]. field_simpl. lia.
    + rewrite <- F4. by destruct e4.
    + exact D4.
    + lia.
    + intros Hne _ Hz. field_simpl_in Hz. done.
    + intros b Hb1 _. lia.
    + done.
    + intros _ _ _. lia.
  - split; [split|split].
    + split; [done|]. intros Hne. by rewrite T4 in Hne.
    + exact F4.
    + exact D4.
    + lia.
    + intros _ _ _. lia.
    + intros b Hb1 _. lia.
    + done.
    + intros _ _ _. lia.
Qed.
