(* ===== verification/PdcpRecv.v ===== *)
(** * NR PDCP: sequence numbers, COUNT and header, and reception

    The header written by the transmitter gives back the SN, and the SN with
    RX_DELIV gives back the COUNT inside the window. *)

From S2P Require Import Prelude SecuSnow3gProps SecuSnow3gMac SecuNas Pdcp PdcpSecurity PdcpRx.

(** The lengths of SN the standard has, and what the constructor derives. *)
Record conf_ok (e : nr_pdcp_entity_t) : Prop := {
  cf_sn : sn_size e = 12 \/ sn_size e = 18;
  cf_max : sn_max e = 2 ^ sn_size e - 1;
  cf_window : window_size e = 2 ^ (sn_size e - 1);
}.

Lemma land_max x n : 0 <= n -> Z.land x (2 ^ n - 1) = x mod 2 ^ n.
Proof. intros Hn. rewrite <- Z.land_ones by done. by rewrite Z.ones_equiv, Z.sub_1_r. Qed.

Lemma lor_shiftl_add h s n : 0 <= n -> 0 <= s < 2 ^ n -> Z.lor (Z.shiftl h n) s = h * 2 ^ n + s.
Proof.
  intros Hn Hs. rewrite <- Z.shiftl_mul_pow2 by done. symmetry. apply Z.add_nocarry_lor.
  apply Z.bits_inj'. intros m Hm. rewrite Z.land_spec, Z.bits_0, Z.shiftl_spec by done.
  destruct (Z.ltb_spec m n); [by rewrite Z.testbit_neg_r by lia|].
  apply (range_bits n) in Hs as [_ Hs]; [|done]. by rewrite Hs, andb_false_r by lia.
Qed.

(** ** COUNT *)

Lemma rcvd_count_recovered e count :
  conf_ok e -> 0 <= rx_deliv e < 2 ^ 32 -> 0 <= count < 2 ^ 32 ->
  rx_deliv e - window_size e <= count < rx_deliv e + window_size e ->
  rcvd_count_of e (Z.land count (sn_max e)) = count.
Proof.
  intros [Hsn Hmax Hwin] Hd Hc Hw. unfold rcvd_count_of, rcvd_hfn_of. rewrite Hmax, Hwin in *.
  assert (Hn : 0 <= sn_size e) by lia.
  rewrite !land_max, Z.shiftr_div_pow2 by done.
  assert (HM : 2 ^ sn_size e = 2 * 2 ^ (sn_size e - 1)).
  { rewrite <- Z.pow_succ_r by lia. f_equal. lia. }
  set (W := 2 ^ (sn_size e - 1)) in *. set (M := 2 ^ sn_size e) in *.
  assert (HW : 0 < W) by (apply Z.pow_pos_nonneg; lia).
  pose proof (Z.div_mod count M ltac:(lia)) as E1. pose proof (Z.mod_pos_bound count M ltac:(lia)) as B1.
  pose proof (Z.div_mod (rx_deliv e) M ltac:(lia)) as E2. pose proof (Z.mod_pos_bound (rx_deliv e) M ltac:(lia)) as B2.
  set (h := count / M) in *. set (s := count mod M) in *. set (H := rx_deliv e / M) in *. set (S := rx_deliv e mod M) in *.
  assert (Hh : 0 <= h) by (apply Z.div_pos; lia). assert (HH : 0 <= H) by (apply Z.div_pos; lia).
  assert (Hdiff : M * h = M * H + M * (h - H)) by lia.
  assert (Hnear : -2 < h - H < 2).
  { destruct (Z.le_gt_cases 2 (h - H)) as [Hfar|?]; [apply (Z.mul_le_mono_nonneg_l _ _ M) in Hfar; lia|].
    destruct (Z.le_gt_cases (h - H) (-2)) as [Hfar|?]; [apply (Z.mul_le_mono_nonneg_l _ _ M) in Hfar; lia|lia]. }
  assert (Hcase : h = H /\ S - W <= s < S + W \/ h = H + 1 /\ s < S - W \/ h = H - 1 /\ s >= S + W).
  { assert (h - H = 0 \/ h - H = 1 \/ h - H = -1) as [E|[E|E]] by lia; rewrite E in Hdiff; lia. }
  assert (Hlast : forall x, x = h -> Z.lor (u32 (Z.shiftl x (sn_size e))) s = count).
  { intros x ->.
    assert (E : u32 (Z.shiftl h (sn_size e)) = Z.shiftl h (sn_size e)).
    { rewrite Z.shiftl_mul_pow2 by done. fold M. unfold u32. apply Z.mod_small. lia. }
    rewrite E, lor_shiftl_add by done. fold M. lia. }
  assert (Hu : forall x, x = h -> u32 x = h).
  { intros x ->. unfold u32. apply Z.mod_small. assert (1 * h <= M * h) by (apply Z.mul_le_mono_nonneg_r; lia). lia. }
  apply Hlast. destruct (Z.ltb_spec s (S - W)); [apply Hu; lia|].
  rewrite Z.geb_leb. destruct (Z.leb_spec (S + W) s); [apply Hu; lia|lia].
Qed.

(** A COUNT is recovered inside the 32 bits. *)
Lemma rcvd_count_range e sn : conf_ok e -> 0 <= sn < 2 ^ sn_size e -> 0 <= rcvd_count_of e sn < 2 ^ 32.
Proof.
  intros Hcf Hsn. unfold rcvd_count_of. apply (range_bits 32); [done|].
  assert (Hu : 0 <= u32 (Z.shiftl (rcvd_hfn_of e sn) (sn_size e)) < 2 ^ 32) by (by apply Z.mod_pos_bound).
  split; [apply Z.lor_nonneg; lia|]. intros m Hm. rewrite Z.lor_spec.
  apply (range_bits 32) in Hu as [_ Hu]; [|done]. rewrite Hu by done. cbn [orb].
  assert (Hsn' : 0 <= sn < 2 ^ 32).
  { destruct (cf_sn e Hcf) as [E|E]; rewrite E in Hsn; lia. }
  apply (range_bits 32) in Hsn' as [_ Hsn']; [|done]. by apply Hsn'.
Qed.

(** ** Header *)

Lemma header_len e sn : conf_ok e -> zlen (pdcp_header e sn) = header_size_of e.
Proof.
  intros Hcf. unfold pdcp_header, header_size_of. destruct (sn_size e =? SHORT_SN_SIZE); done.
Qed.

Lemma land_dc dc x k : Z.land dc k = 0 -> Z.land (Z.lor dc x) k = Z.land x k.
Proof. intros H. by rewrite Z.land_lor_distr_l, H, Z.lor_0_l. Qed.

Lemma sn_bytes_12 sn : 0 <= sn < 2 ^ 12 ->
  Z.lor (Z.shiftl (Z.land (Z.land (Z.shiftr sn 8) 0xf) 0xf) 8) (Z.land sn 0xff) = sn.
Proof.
  intros H. change 0xf with (Z.ones 4). change 0xff with (Z.ones 8). rewrite !Z.land_ones by done.
  rewrite Z.mod_mod by done. rewrite Z.shiftr_div_pow2 by done.
  rewrite lor_shiftl_add by (done || apply Z.mod_pos_bound; lia).
  change (2 ^ 4) with 16. change (2 ^ 8) with 256. rewrite (Z.mod_small (sn / 256)).
  - pose proof (Z.div_mod sn 256). lia.
  - split; [apply Z.div_pos; lia|]. apply Z.div_lt_upper_bound; lia.
Qed.

Lemma sn_bytes_18 sn : 0 <= sn < 2 ^ 18 ->
  Z.lor (Z.lor (Z.shiftl (Z.land (Z.land (Z.shiftr sn 16) 0x3) 0x3) 16) (Z.shiftl (Z.land (Z.shiftr sn 8) 0xff) 8))
    (Z.land sn 0xff) = sn.
Proof.
  intros H. change 0x3 with (Z.ones 2). change 0xff with (Z.ones 8). rewrite !Z.land_ones by done.
  rewrite Z.mod_mod by done. rewrite !Z.shiftr_div_pow2 by done. rewrite <- Z.lor_assoc.
  rewrite (lor_shiftl_add _ (sn mod 2 ^ 8) 8) by (done || apply Z.mod_pos_bound; lia).
  change (2 ^ 2) with 4. change (2 ^ 8) with 256. change (2 ^ 16) with 65536.
  pose proof (Z.div_mod sn 256 ltac:(done)). pose proof (Z.mod_pos_bound sn 256 ltac:(done)).
  pose proof (Z.mod_pos_bound (sn / 256) 256 ltac:(done)). pose proof (Z.div_mod (sn / 256) 256 ltac:(done)).
  assert (E : sn / 65536 = sn / 256 / 256) by (by rewrite Z.div_div).
  rewrite lor_shiftl_add by lia. change (2 ^ 16) with 65536. rewrite (Z.mod_small (sn / 65536)); [lia|].
  split; [apply Z.div_pos; lia|]. apply Z.div_lt_upper_bound; lia.
Qed.

(** The header starts with the D/C bit of DRBs and holds the SN. *)
Lemma header_sn e e' sn rest :
  sn_size e' = sn_size e -> conf_ok e -> 0 <= sn < 2 ^ sn_size e ->
  rcvd_sn_of e' (pdcp_header e sn ++ rest) = Ok sn.
Proof.
  intros Hsz Hcf Hsn. unfold rcvd_sn_of, pdcp_header. rewrite Hsz.
  assert (Hdc : forall k, k = 0xf \/ k = 0x3 -> Z.land (if is_srb (pdcp_type e) then 0 else 0x80) k = 0)
    by (intros k [->| ->]; by destruct (is_srb _)).
  destruct (cf_sn e Hcf) as [E|E]; rewrite E in *; cbn [Z.eqb SHORT_SN_SIZE Pos.eqb].
  - cbn -[Z.land Z.lor Z.shiftl Z.shiftr is_srb Z.pow].
    change (Z.to_nat 0) with 0%nat. change (Z.to_nat 1) with 1%nat. change (Z.to_nat 2) with 2%nat.
    cbn [lookup list_lookup of_option mbind outcome_bind].
    rewrite land_dc by (apply Hdc; by left). by rewrite sn_bytes_12.
  - cbn -[Z.land Z.lor Z.shiftl Z.shiftr is_srb Z.pow].
    change (Z.to_nat 0) with 0%nat. change (Z.to_nat 1) with 1%nat. change (Z.to_nat 2) with 2%nat.
    cbn [lookup list_lookup of_option mbind outcome_bind].
    rewrite land_dc by (apply Hdc; by right). by rewrite sn_bytes_18.
Qed.

Lemma rcvd_sn_range e b sn : conf_ok e -> bytes_ok b -> rcvd_sn_of e b = Ok sn -> 0 <= sn < 2 ^ sn_size e.
Proof.
  intros Hcf Hb. unfold rcvd_sn_of.
  assert (Hbyte : forall i x, zget b i = Some x -> is_byte x).
  { intros i x Hx. apply zget_Some in Hx as [_ Hx]. rewrite Forall_forall in Hb. apply Hb.
    by eapply list_elem_of_lookup_2. }
  destruct (cf_sn e Hcf) as [E|E]; rewrite E; cbn [Z.eqb SHORT_SN_SIZE Pos.eqb]; intros H; bind_inv;
    repeat match goal with H : zget b _ = Some _ |- _ => apply Hbyte in H; unfold is_byte in H end; subst.
  - change 0xf with (Z.ones 4). rewrite Z.land_ones by done. rewrite lor_shiftl_add by (done || lia).
    pose proof (Z.mod_pos_bound x 16 ltac:(done)). change (2 ^ 4) with 16. lia.
  - change 0x3 with (Z.ones 2). rewrite Z.land_ones by done. rewrite <- Z.lor_assoc.
    rewrite (lor_shiftl_add x0 x1 8) by (done || lia). change (2 ^ 8) with 256.
    pose proof (Z.mod_pos_bound x 4 ltac:(done)). change (2 ^ 2) with 4.
    rewrite lor_shiftl_add by lia. lia.
Qed.

(** ** NR PDCP: what [recv_pdu] and [process_sdu] compute

    Both functions as total functions of the entity and the bytes, once the
    parameters are in the range of the algorithms. *)

Section recv.
Context {ssl : OpenSSL} {laws : OpenSSLLaws ssl}.

(** ** Security, as functions of the entity *)

Definition ent_cipher (e : nr_pdcp_entity_t) (count d : Z) (m : list Z) : list Z :=
  match free_security e with
  | Some alg => cipher_fun alg (ciphering_key (security_keys_and_algos e)) (rb_id e) count d m
  | None => m
  end.

Definition ent_mac (e : nr_pdcp_entity_t) (count d : Z) (m : list Z) : option (list Z) :=
  match free_integrity e with
  | Some alg => Some (integrity_fun alg (integrity_key (security_keys_and_algos e)) (rb_id e) count d m)
  | None => None
  end.

(** The algorithms in force accept the bearer and the COUNT. *)
Definition sec_usable (e : nr_pdcp_entity_t) (count : Z) : Prop :=
  (forall alg, free_security e = Some alg -> cipher_ok alg (rb_id e) count) /\
  (forall alg, free_integrity e = Some alg -> integrity_fun_ok alg (rb_id e) count).

Definition rx_dir (e : nr_pdcp_entity_t) : Z := if is_gnb e then 0 else 1.
Definition tx_dir (e : nr_pdcp_entity_t) : Z := if is_gnb e then 1 else 0.

Lemma ent_cipher_involutive e count d m : ent_cipher e count d (ent_cipher e count d m) = m.
Proof. unfold ent_cipher. destruct (free_security e); [apply cipher_fun_involutive|done]. Qed.

Lemma ent_cipher_length e count d m : length (ent_cipher e count d m) = length m.
Proof. unfold ent_cipher. destruct (free_security e); [apply cipher_fun_length|done]. Qed.

Lemma ent_cipher_bytes e count d m : bytes_ok m -> bytes_ok (ent_cipher e count d m).
Proof. unfold ent_cipher. destruct (free_security e); [apply cipher_fun_bytes|done]. Qed.

Lemma ent_mac_length e count d m x : ent_mac e count d m = Some x -> length x = 4%nat /\ bytes_ok x.
Proof.
  unfold ent_mac. destruct (free_integrity e); [|done]. intros [= <-].
  split; [apply integrity_fun_length|apply integrity_fun_bytes].
Qed.

Lemma has_ciphering_spec e : sec_inv e -> has_ciphering e = if free_security e then true else false.
Proof.
  intros Hs. pose proof (sec_cip e Hs) as H. destruct (has_ciphering e), (free_security e); try done.
  - by destruct (proj1 H eq_refl).
  - assert (false = true) by (apply H; by eexists). done.
Qed.

Lemma has_integrity_spec e : sec_inv e -> has_integrity e = if free_integrity e then true else false.
Proof.
  intros Hs. pose proof (sec_int e Hs) as H. destruct (has_integrity e), (free_integrity e); try done.
  - by destruct (proj1 H eq_refl).
  - assert (false = true) by (apply H; by eexists). done.
Qed.

(** The ciphering step of either side. *)
Lemma cipher_step e a b off len count d :
  sec_inv e -> sec_usable e count -> 0 <= d < 2 -> off = zlen a -> len = zlen b -> 0 < len < 2 ^ 28 ->
  (if has_ciphering e then entity_cipher e (a ++ b) off len count d else Ok (a ++ b))
  = Ok (a ++ ent_cipher e count d b).
Proof.
  intros Hs [Hu _] Hd Ho Hl Hlen. rewrite has_ciphering_spec by done. unfold ent_cipher.
  destruct (free_security e) as [alg|] eqn:E; [|done].
  pose proof (entity_cipher_ok e alg a b [] off len count d Hs E (Hu alg eq_refl) Hd Ho Hl Hlen) as H.
  rewrite !app_nil_r in H. exact H.
Qed.

(** ** Reception *)

(** The D/C bit of a DRB is forced. *)
Definition set_dc (e : nr_pdcp_entity_t) (buffer : list Z) : list Z :=
  match buffer with
  | b0 :: rest => if negb (is_srb (pdcp_type e)) && negb (z2b (Z.land b0 0x80)) then Z.lor b0 128 :: rest else buffer
  | [] => []
  end.

Definition count_rx (e : nr_pdcp_entity_t) (size sn : Z) : nr_pdcp_entity_t :=
  let e := pdcp_add_stat (pdcp_add_stat e p_rxpdu_pkts 1) p_rxpdu_bytes size in
  e <| pdcp_stats := (pdcp_stats e) <| p_rxpdu_sn := sn |> |>.

(** Header and SDAP header stay in clear. *)
Definition clear_size (e : nr_pdcp_entity_t) : nat := Z.to_nat (header_size_of e + b2z (has_sdap_rx e)).

Definition deciphered (e : nr_pdcp_entity_t) (buffer : list Z) (count : Z) : list Z :=
  take (clear_size e) buffer ++ ent_cipher e count (rx_dir e) (drop (clear_size e) buffer).

(** The MAC-I is right, or integrity is not active. *)
Definition mac_matches (e : nr_pdcp_entity_t) (plain : list Z) (count : Z) : bool :=
  match ent_mac e count (rx_dir e) (take (length plain - 4) plain) with
  | Some mac => bool_decide (mac = drop (length plain - 4) plain)
  | None => true
  end.

Definition payload (e : nr_pdcp_entity_t) (plain : list Z) : list Z :=
  let hs := Z.to_nat (header_size_of e) in
  take (length plain - hs - Z.to_nat (integrity_size_of e)) (drop hs plain).

Definition stored_integrity (e : nr_pdcp_entity_t) (buffer : list Z) (count : Z) : nr_pdcp_integrity_data_t :=
  if has_integrity e || is_srb (pdcp_type e)
  then mk_msg_integrity count (drop (length buffer - 4) buffer) (header_size_of e)
         (take (Z.to_nat (header_size_of e)) buffer)
  else mk_msg_integrity 0 (replicate 4 0) 0 [].

Definition received_sdu (e : nr_pdcp_entity_t) (buffer : list Z) (count : Z) : nr_pdcp_sdu_t :=
  let data := payload e (deciphered e buffer count) in
  mk_pdcp_sdu count data (zlen data) (stored_integrity e buffer count).

(** What a PDU does to the entity. *)
Definition recv_outcome (e : nr_pdcp_entity_t) (buffer : list Z) (sn : Z) : nr_pdcp_entity_t :=
  let size := zlen buffer in
  let e := count_rx e size sn in
  let count := rcvd_count_of e sn in
  if size <? header_size_of e + b2z (has_sdap_rx e) + integrity_size_of e + 1 then discard_rx e size
  else if negb (mac_matches e (deciphered e buffer count) count) then discard_rx e size
  else if (count <? rx_deliv e) || nr_pdcp_sdu_in_list (rx_list e) count then discard_rx e size
  else recv_new_sdu e (received_sdu e buffer count) size (header_size_of e).

Lemma set_dc_length e b : length (set_dc e b) = length b.
Proof. unfold set_dc. destruct b; [done|]. by destruct (_ && _). Qed.

Lemma pdcp_lor_byte a b : is_byte a -> is_byte b -> is_byte (Z.lor a b).
Proof.
  intros Ha Hb. apply byte_of_bits; [apply Z.lor_nonneg; unfold is_byte in *; lia|].
  intros n Hn. by rewrite Z.lor_spec, !testbit_byte.
Qed.

Lemma set_dc_bytes e b : bytes_ok b -> bytes_ok (set_dc e b).
Proof.
  unfold set_dc. destruct 1 as [|x b Hx Hb]; [constructor|]. destruct (_ && _); constructor; try done.
  by apply pdcp_lor_byte.
Qed.

Lemma sec_inv_count_rx e size sn : sec_inv e -> sec_inv (count_rx e size sn).
Proof. intros []. by split. Qed.

Lemma deciphered_length e b count : length (deciphered e b count) = length b.
Proof. unfold deciphered. rewrite length_app, ent_cipher_length, <- length_app, take_drop. done. Qed.

Lemma deciphered_bytes e b count : bytes_ok b -> bytes_ok (deciphered e b count).
Proof.
  intros Hb. apply Forall_app. split; [by apply Forall_take|]. apply ent_cipher_bytes. by apply Forall_drop.
Qed.

Lemma rx_dir_range e : 0 <= rx_dir e < 2.
Proof. unfold rx_dir. destruct (is_gnb e); lia. Qed.

Lemma integrity_size_cases e : integrity_size_of e = 4 /\ (has_integrity e || is_srb (pdcp_type e) = true) \/
  integrity_size_of e = 0 /\ (has_integrity e || is_srb (pdcp_type e) = false).
Proof. unfold integrity_size_of. destruct (_ || _); auto. Qed.

Lemma zslice_last {A} (l : list A) n : (n <= length l)%nat ->
  zslice l (zlen l - Z.of_nat n) (Z.of_nat n) = Some (drop (length l - n) l).
Proof.
  intros Hn. rewrite zslice_ok by (unfold zlen in *; lia). f_equal.
  replace (Z.to_nat (zlen l - Z.of_nat n)) with (length l - n)%nat by (unfold zlen; lia).
  rewrite take_ge; [done|]. rewrite length_drop. lia.
Qed.

Lemma integrity_step e plain count :
  sec_inv e -> sec_usable e count -> bytes_ok plain -> zlen plain < 2 ^ 28 -> integrity_size_of e < zlen plain ->
  integrity_ok e plain (zlen plain) (integrity_size_of e) count = Ok (mac_matches e plain count).
Proof.
  intros Hs [_ Hu] Hb Hl His. unfold integrity_ok, mac_matches, ent_mac.
  rewrite has_integrity_spec by done. destruct (free_integrity e) as [alg|] eqn:E; [|done].
  assert (E4 : integrity_size_of e = 4).
  { unfold integrity_size_of. by rewrite has_integrity_spec, E. }
  rewrite E4 in *. rewrite (entity_integrity_ok e alg plain (take (length plain - 4) plain)); try done.
  - cbn [mbind outcome_bind]. pose proof (zslice_last plain 4) as Hz.
    change (Z.of_nat 4) with 4 in Hz. unfold PDCP_INTEGRITY_SIZE. rewrite Hz by (unfold zlen in *; lia). done.
  - by apply Hu.
  - apply rx_dir_range.
  - rewrite zslice_ok by lia. f_equal. rewrite drop_0. f_equal. unfold zlen. lia.
  - lia.
Qed.

Lemma msg_integrity_step e buffer count :
  0 <= header_size_of e <= zlen buffer -> integrity_size_of e <= zlen buffer ->
  msg_integrity_of e buffer (zlen buffer) (header_size_of e) count = Ok (stored_integrity e buffer count).
Proof.
  unfold integrity_size_of. intros Hh H4. unfold msg_integrity_of, stored_integrity.
  destruct (_ || _); [|done]. unfold PDCP_INTEGRITY_SIZE in H4.
  pose proof (zslice_last buffer 4) as Hz. change (Z.of_nat 4) with 4 in Hz.
  rewrite Hz by (unfold zlen in *; lia). cbn [mbind outcome_bind of_option].
  rewrite zslice_ok by lia. cbn [mbind outcome_bind of_option]. by rewrite drop_0.
Qed.

Lemma header_size_pos e : 2 <= header_size_of e <= 3.
Proof. unfold header_size_of, SHORT_PDCP_HEADER_SIZE, LONG_PDCP_HEADER_SIZE. destruct (_ =? _); lia. Qed.

Lemma payload_slice e plain :
  header_size_of e + integrity_size_of e <= zlen plain ->
  zslice plain (header_size_of e) (zlen plain - header_size_of e - integrity_size_of e) = Some (payload e plain) /\
  zlen (payload e plain) = zlen plain - header_size_of e - integrity_size_of e.
Proof.
  intros H. pose proof (header_size_pos e). assert (0 <= integrity_size_of e) by (destruct (integrity_size_cases e) as [[-> _]|[-> _]]; lia).
  assert (E : zslice plain (header_size_of e) (zlen plain - header_size_of e - integrity_size_of e) = Some (payload e plain)).
  { rewrite zslice_ok by lia. f_equal. unfold payload. f_equal. unfold zlen in *. lia. }
  split; [done|]. by apply zslice_len in E.
Qed.

(** [recv_pdu], for a PDU that holds a header. *)
Lemma recv_pdu_run e buffer sn :
  conf_ok e -> sec_inv e -> entity_suspended e = false ->
  bytes_ok buffer -> header_size_of e <= zlen buffer < 2 ^ 28 ->
  rcvd_sn_of e (set_dc e buffer) = Ok sn -> sec_usable e (rcvd_count_of e sn) ->
  nr_pdcp_entity_recv_pdu e buffer (zlen buffer) = Ok (recv_outcome e (set_dc e buffer) sn).
Proof.
  intros Hcf Hs Hsus Hb Hl Hsn Hu. pose proof (header_size_pos e) as Hhs.
  unfold nr_pdcp_entity_recv_pdu. rewrite Hsus.
  destruct (Z.ltb_spec (zlen buffer) 1); [lia|].
  destruct buffer as [|b0 rest]; [unfold zlen in *; cbn in *; lia|].
  change (zget (b0 :: rest) 0) with (Some b0). cbn [of_option mbind outcome_bind].
  assert (Edc : (if negb (is_srb (pdcp_type e)) && negb (z2b (Z.land b0 128)) then blit (b0 :: rest) 0 [Z.lor b0 128]
    else Ok (b0 :: rest)) = Ok (set_dc e (b0 :: rest))).
  { cbn [set_dc]. destruct (_ && _); [|done]. by apply (blit_mid [] [b0]). }
  rewrite Edc. cbn [mbind outcome_bind]. clear Edc.
  set (buffer := b0 :: rest) in *. set (b := set_dc e buffer) in *.
  assert (Hlen : zlen buffer = zlen b) by (unfold zlen, b; by rewrite set_dc_length).
  assert (Hbb : bytes_ok b) by (by apply set_dc_bytes).
  rewrite Hlen in *. clearbody b. clear buffer Hlen Hb.
  set (e1 := count_rx e (zlen b) sn).
  change (rcvd_sn_of (pdcp_add_stat (pdcp_add_stat e p_rxpdu_pkts 1) p_rxpdu_bytes (zlen b)) b) with (rcvd_sn_of e b).
  rewrite Hsn. cbn [mbind outcome_bind]. unfold recv_outcome. fold e1.
  change (header_size_of (pdcp_add_stat (pdcp_add_stat e p_rxpdu_pkts 1) p_rxpdu_bytes (zlen b))) with (header_size_of e1).
  change (has_sdap_rx (pdcp_add_stat (pdcp_add_stat e p_rxpdu_pkts 1) p_rxpdu_bytes (zlen b))) with (has_sdap_rx e1).
  change (_ <| pdcp_stats := _ |>) with e1.
  assert (Hs1 : sec_inv e1) by (by apply sec_inv_count_rx).
  assert (Hu1 : sec_usable e1 (rcvd_count_of e1 sn)) by exact Hu.
  change (header_size_of e) with (header_size_of e1) in *.
  clearbody e1. set (count := rcvd_count_of e1 sn) in *. clearbody count.
  destruct (Z.ltb_spec (zlen b) (header_size_of e1 + b2z (has_sdap_rx e1) + integrity_size_of e1 + 1)); [done|].
  assert (His : 0 <= integrity_size_of e1) by (destruct (integrity_size_cases e1) as [[-> _]|[-> _]]; lia).
  assert (Hsd : 0 <= b2z (has_sdap_rx e1) <= 1) by (destruct (has_sdap_rx e1); cbn; lia).
  rewrite msg_integrity_step by lia. cbn [mbind outcome_bind].
  set (n := clear_size e1). assert (Hn : Z.of_nat n = header_size_of e1 + b2z (has_sdap_rx e1)) by (unfold n, clear_size; lia).
  assert (Hcip : (if has_ciphering e1
     then entity_cipher e1 b (header_size_of e1 + b2z (has_sdap_rx e1))
            (zlen b - (header_size_of e1 + b2z (has_sdap_rx e1))) count (if is_gnb e1 then 0 else 1)
     else Ok b) = Ok (deciphered e1 b count)).
  { pose proof (cipher_step e1 (take n b) (drop n b) (header_size_of e1 + b2z (has_sdap_rx e1))
      (zlen b - (header_size_of e1 + b2z (has_sdap_rx e1))) count (rx_dir e1) Hs1 Hu1 (rx_dir_range e1)) as H1.
    rewrite take_drop in H1. apply H1; rewrite <- ?Hn, <- (Nat2Z.id n), ?zlen_take, ?zlen_drop by lia; lia. }
  rewrite Hcip. cbn [mbind outcome_bind].
  pose proof (deciphered_length e1 b count) as Hdl.
  assert (Hzl : zlen b = zlen (deciphered e1 b count)) by (unfold zlen; by rewrite Hdl).
  rewrite Hzl at 1. rewrite integrity_step; [|done|done|by apply deciphered_bytes|lia|lia]. cbn [mbind outcome_bind].
  destruct (mac_matches e1 (deciphered e1 b count) count); cbn [negb]; [|done].
  destruct (_ || _); [done|].
  destruct (payload_slice e1 (deciphered e1 b count)) as [Hp Hpl]; [lia|].
  rewrite Hzl at 1. rewrite Hp. cbn [mbind outcome_bind of_option].
  unfold nr_pdcp_new_sdu. rewrite Hzl at 1. rewrite <- Hpl. rewrite zslice_all. cbn [mbind outcome_bind of_option].
  unfold received_sdu. rewrite Hpl. rewrite <- Hzl. done.
Qed.
End recv.
