(* ===== verification/PdcpSend.v ===== *)
(** * NR PDCP: the transmitter, and a PDU read back by the peer *)

From S2P Require Import Prelude SecuSnow3gProps SecuSnow3gMac SecuNas Pdcp PdcpSecurity PdcpRx PdcpRecv.

Section send.
Context {ssl : OpenSSL} {laws : OpenSSLLaws ssl}.

(** ** [process_sdu] *)

(** The MAC-I of SRBs is zero when integrity is not active. *)
Definition tx_mac (e : nr_pdcp_entity_t) (m : list Z) : list Z :=
  match ent_mac e (tx_next e) (tx_dir e) m with
  | Some mac => mac
  | None => if is_srb (pdcp_type e) then replicate 4 0 else []
  end.

Definition tx_sn (e : nr_pdcp_entity_t) : Z := Z.land (tx_next e) (sn_max e).

Definition tx_plain (e : nr_pdcp_entity_t) (sdu : list Z) : list Z :=
  let m := pdcp_header e (tx_sn e) ++ sdu in m ++ tx_mac e m.

Definition tx_clear (e : nr_pdcp_entity_t) : nat := Z.to_nat (header_size_of e + b2z (has_sdap_tx e)).

Definition pdu_of (e : nr_pdcp_entity_t) (sdu : list Z) : list Z :=
  take (tx_clear e) (tx_plain e sdu) ++
  ent_cipher e (tx_next e) (tx_dir e) (drop (tx_clear e) (tx_plain e sdu)).

(** The entity afterwards. *)
Definition tx_done (e : nr_pdcp_entity_t) (sdu : list Z) : nr_pdcp_entity_t :=
  let sn := tx_sn e in
  let n := header_size_of e + zlen sdu + integrity_size_of e in
  let e := pdcp_add_stat (pdcp_add_stat e p_rxsdu_pkts 1) p_rxsdu_bytes (zlen sdu) in
  let e := e <| tx_next := u32 (tx_next e + 1) |> in
  let e := pdcp_add_stat (pdcp_add_stat e p_txpdu_pkts 1) p_txpdu_bytes n in
  e <| pdcp_stats := (pdcp_stats e) <| p_txpdu_sn := sn |> |>.

Lemma tx_dir_range e : 0 <= tx_dir e < 2.
Proof. unfold tx_dir. destruct (is_gnb e); lia. Qed.

Lemma header_bytes e sn : conf_ok e -> 0 <= sn < 2 ^ sn_size e -> bytes_ok (pdcp_header e sn).
Proof.
  intros Hcf Hsn. unfold pdcp_header.
  assert (Hdc : is_byte (if is_srb (pdcp_type e) then 0 else 0x80)) by (by destruct (is_srb _)).
  assert (Hff : forall x, is_byte (Z.land x 0xff)) by apply land_255_byte.
  assert (H : forall x k, 0 <= k < 256 -> is_byte (Z.land x k)).
  { intros x k Hk. apply byte_of_bits; [apply Z.land_nonneg; lia|]. intros n Hn.
    rewrite Z.land_spec. rewrite (testbit_byte k) by done. apply andb_false_r. }
  destruct (_ =? _); rewrite !Forall_cons, Forall_nil; split_and!; auto; apply pdcp_lor_byte; auto; apply H; lia.
Qed.

Lemma tx_sn_range e : conf_ok e -> 0 <= tx_sn e < 2 ^ sn_size e.
Proof.
  intros Hcf. unfold tx_sn. rewrite (cf_max e Hcf). assert (0 <= sn_size e) by (destruct (cf_sn e Hcf); lia).
  rewrite land_max by done. apply Z.mod_pos_bound. lia.
Qed.

Lemma tx_mac_length e m : sec_inv e -> zlen (tx_mac e m) = integrity_size_of e.
Proof.
  intros Hs. unfold tx_mac, integrity_size_of. rewrite has_integrity_spec by done.
  destruct (ent_mac e (tx_next e) (tx_dir e) m) as [x|] eqn:E.
  - pose proof (ent_mac_length _ _ _ _ _ E) as [Hl _]. unfold ent_mac in E.
    destruct (free_integrity e); [|done]. unfold zlen. by rewrite Hl.
  - unfold ent_mac in E. destruct (free_integrity e); [done|]. by destruct (is_srb _).
Qed.

Lemma tx_mac_bytes e m : bytes_ok (tx_mac e m).
Proof.
  unfold tx_mac. destruct (ent_mac _ _ _ _) as [x|] eqn:E; [apply ent_mac_length in E; apply E|].
  destruct (is_srb _); [|constructor]. by apply Forall_replicate.
Qed.

Lemma process_sdu_run e sdu max :
  conf_ok e -> sec_inv e -> entity_suspended e = false -> bytes_ok sdu ->
  b2z (has_sdap_tx e) < zlen sdu < 2 ^ 27 -> zlen sdu + 7 <= max -> sec_usable e (tx_next e) ->
  nr_pdcp_entity_process_sdu e sdu (zlen sdu) max = Ok (Some (pdu_of e sdu), tx_done e sdu).
Proof.
  intros Hcf Hs Hsus Hb Hl Hmax Hu. unfold nr_pdcp_entity_process_sdu.
  assert ((nr_max_pdcp_pdu_size (zlen sdu) <=? max) = true) as ->.
  { unfold nr_max_pdcp_pdu_size, LONG_PDCP_HEADER_SIZE, PDCP_INTEGRITY_SIZE. apply Z.leb_le. lia. }
  cbn [require mbind outcome_bind]. rewrite Hsus.
  set (e1 := pdcp_add_stat (pdcp_add_stat e p_rxsdu_pkts 1) p_rxsdu_bytes (zlen sdu)).
  assert (Hs1 : sec_inv e1) by (destruct Hs; by split).
  assert (Hu1 : sec_usable e1 (tx_next e1)) by exact Hu.
  assert (Hcf1 : conf_ok e1) by (destruct Hcf; by split).
  assert (Hsdap : 0 <= b2z (has_sdap_tx e1) < zlen sdu).
  { change (has_sdap_tx e1) with (has_sdap_tx e). destruct (has_sdap_tx e); cbn in *; lia. }
  rewrite zslice_all. cbn [mbind outcome_bind of_option].
  change (pdu_of e sdu) with (pdu_of e1 sdu).
  fold (tx_sn e1). set (hdr := pdcp_header e1 (tx_sn e1)).
  assert (Hh : zlen hdr = header_size_of e1) by (by apply header_len).
  pose proof (header_size_pos e1) as Hhs. fold (tx_dir e1).
  assert (Hmac : (if has_integrity e1
     then mac ← entity_integrity e1 (hdr ++ sdu) (header_size_of e1 + zlen sdu) (tx_next e1) (tx_dir e1);
          Ok ((hdr ++ sdu) ++ mac)
     else if integrity_size_of e1 =? PDCP_INTEGRITY_SIZE then Ok ((hdr ++ sdu) ++ replicate 4 0) else Ok (hdr ++ sdu))
     = Ok (tx_plain e1 sdu)).
  { unfold tx_plain, tx_mac, ent_mac, integrity_size_of. fold hdr. rewrite has_integrity_spec by done.
    destruct (free_integrity e1) as [alg|] eqn:E.
    - rewrite (entity_integrity_ok e1 alg (hdr ++ sdu) (hdr ++ sdu)); try done.
      + by apply Hu1.
      + apply tx_dir_range.
      + rewrite <- Hh, <- zlen_app. apply zslice_all.
      + lia.
      + apply Forall_app. split; [|done]. apply header_bytes; [done|by apply tx_sn_range].
    - cbn [orb]. destruct (is_srb (pdcp_type e1)); cbn [Z.eqb PDCP_INTEGRITY_SIZE Pos.eqb]; [done|by rewrite app_nil_r]. }
  rewrite Hmac. cbn [mbind outcome_bind].
  assert (Hpl : zlen (tx_plain e1 sdu) = header_size_of e1 + zlen sdu + integrity_size_of e1).
  { unfold tx_plain. fold hdr. rewrite !zlen_app, tx_mac_length by done. lia. }
  assert (His : 0 <= integrity_size_of e1 <= 4) by (destruct (integrity_size_cases e1) as [[-> _]|[-> _]]; lia).
  set (n := tx_clear e1). assert (Hn : Z.of_nat n = header_size_of e1 + b2z (has_sdap_tx e1)) by (unfold n, tx_clear; lia).
  assert (Hcip : (if has_ciphering e1
     then entity_cipher e1 (tx_plain e1 sdu) (header_size_of e1 + b2z (has_sdap_tx e1))
            (zlen sdu + integrity_size_of e1 - b2z (has_sdap_tx e1)) (tx_next e1) (tx_dir e1)
     else Ok (tx_plain e1 sdu)) = Ok (pdu_of e1 sdu)).
  { pose proof (cipher_step e1 (take n (tx_plain e1 sdu)) (drop n (tx_plain e1 sdu))
      (header_size_of e1 + b2z (has_sdap_tx e1)) (zlen sdu + integrity_size_of e1 - b2z (has_sdap_tx e1))
      (tx_next e1) (tx_dir e1) Hs1 Hu1 (tx_dir_range e1)) as H1.
    rewrite take_drop in H1. apply H1; first [lia | rewrite <- ?Hn, <- (Nat2Z.id n), ?zlen_take, ?zlen_drop by lia; lia]. }
  rewrite Hcip. cbn [mbind outcome_bind]. unfold tx_done. fold e1. done.
Qed.

(** ** The peer *)

(** Two entities of one bearer, configured alike, on the two sides. *)
Record matched (tx rx : nr_pdcp_entity_t) : Prop := {
  mt_type : pdcp_type rx = pdcp_type tx;
  mt_rb : rb_id rx = rb_id tx;
  mt_sn : sn_size rx = sn_size tx;
  mt_sdap : has_sdap_rx rx = has_sdap_tx tx;
  mt_side : is_gnb rx = negb (is_gnb tx);
  mt_cipher : free_security rx = free_security tx;
  mt_integrity : free_integrity rx = free_integrity tx;
  mt_ckey : ciphering_key (security_keys_and_algos rx) = ciphering_key (security_keys_and_algos tx);
  mt_ikey : integrity_key (security_keys_and_algos rx) = integrity_key (security_keys_and_algos tx);
}.

Lemma matched_cipher tx rx count m : matched tx rx -> ent_cipher rx count (rx_dir rx) m = ent_cipher tx count (tx_dir tx) m.
Proof.
  intros [? Hrb ? ? Hside Hc Hi Hck Hik]. unfold ent_cipher, rx_dir, tx_dir. rewrite Hc, Hck, Hrb, Hside.
  by destruct (is_gnb tx).
Qed.

Lemma matched_mac tx rx count m : matched tx rx -> ent_mac rx count (rx_dir rx) m = ent_mac tx count (tx_dir tx) m.
Proof.
  intros [? Hrb ? ? Hside Hc Hi Hck Hik]. unfold ent_mac, rx_dir, tx_dir. rewrite Hi, Hik, Hrb, Hside.
  by destruct (is_gnb tx).
Qed.

Lemma matched_header tx rx : matched tx rx -> header_size_of rx = header_size_of tx.
Proof. intros H. unfold header_size_of. by rewrite (mt_sn _ _ H). Qed.

Lemma matched_integrity tx rx : matched tx rx -> sec_inv tx -> sec_inv rx -> integrity_size_of rx = integrity_size_of tx.
Proof.
  intros H Ht Hr. unfold integrity_size_of.
  rewrite !has_integrity_spec by done. by rewrite (mt_integrity _ _ H), (mt_type _ _ H).
Qed.

Lemma matched_clear tx rx : matched tx rx -> clear_size rx = tx_clear tx.
Proof. intros H. unfold clear_size, tx_clear. by rewrite (matched_header tx rx H), (mt_sdap _ _ H). Qed.

(** The receiver undoes what the transmitter did. *)
Lemma deciphered_pdu tx rx sdu :
  matched tx rx -> sec_inv tx -> conf_ok tx -> b2z (has_sdap_tx tx) <= zlen sdu ->
  deciphered rx (pdu_of tx sdu) (tx_next tx) = tx_plain tx sdu.
Proof.
  intros Hm Hs Hcf Hl. unfold deciphered. rewrite (matched_clear tx rx), (matched_cipher tx rx) by done.
  assert (Hlen : (tx_clear tx <= length (tx_plain tx sdu))%nat).
  { assert (Hz : zlen (tx_plain tx sdu) = header_size_of tx + zlen sdu + integrity_size_of tx).
    { unfold tx_plain. rewrite !zlen_app, tx_mac_length, header_len by done. lia. }
    destruct (integrity_size_cases tx) as [[E _]|[E _]]; rewrite E in Hz; unfold tx_clear, zlen in *;
      pose proof (header_size_pos tx); lia. }
  assert (Hpre : length (take (tx_clear tx) (tx_plain tx sdu)) = tx_clear tx) by (rewrite length_take; lia).
  unfold pdu_of at 1. rewrite take_app_le, take_ge by lia.
  unfold pdu_of. rewrite drop_app_ge, Hpre, Nat.sub_diag, drop_0 by lia.
  rewrite ent_cipher_involutive. apply take_drop.
Qed.

Lemma pdu_length tx sdu : sec_inv tx -> conf_ok tx ->
  zlen (pdu_of tx sdu) = header_size_of tx + zlen sdu + integrity_size_of tx.
Proof.
  intros Hs Hcf. unfold pdu_of, zlen. rewrite length_app, ent_cipher_length, <- length_app, take_drop.
  fold (zlen (tx_plain tx sdu)). unfold tx_plain. rewrite !zlen_app, tx_mac_length, header_len by done.
  unfold zlen. lia.
Qed.

Lemma pdu_bytes tx sdu : conf_ok tx -> bytes_ok sdu -> bytes_ok (pdu_of tx sdu).
Proof.
  intros Hcf Hb. assert (Hp : bytes_ok (tx_plain tx sdu)).
  { unfold tx_plain. apply Forall_app. split; [|apply tx_mac_bytes]. apply Forall_app. split; [|done].
    apply header_bytes; [done|by apply tx_sn_range]. }
  apply Forall_app. split; [by apply Forall_take|]. apply ent_cipher_bytes. by apply Forall_drop.
Qed.

(** The PDU starts with the header, in clear. *)
Lemma pdu_header tx sdu : conf_ok tx -> exists rest, pdu_of tx sdu = pdcp_header tx (tx_sn tx) ++ rest.
Proof.
  intros Hcf. unfold pdu_of, tx_plain. pose proof (header_len tx (tx_sn tx) Hcf) as Hh.
  set (hdr := pdcp_header tx (tx_sn tx)) in *. rewrite <- app_assoc.
  assert (Hn : (length hdr <= tx_clear tx)%nat).
  { unfold tx_clear, zlen in *. destruct (has_sdap_tx tx); cbn [b2z]; lia. }
  rewrite take_app_ge by done. rewrite <- app_assoc. by eexists.
Qed.


Lemma set_dc_header tx rx sn rest :
  matched tx rx -> set_dc rx (pdcp_header tx sn ++ rest) = pdcp_header tx sn ++ rest.
Proof.
  intros Hm. unfold pdcp_header.
  assert (H : forall x, z2b (Z.land (Z.lor 0x80 x) 0x80) = true).
  { intros x. pose proof (z2b_testbit (Z.lor 0x80 x) 7 ltac:(done)) as H.
    change (Z.shiftl 1 7) with 0x80 in H. by rewrite H, Z.lor_spec. }
  destruct (_ =? _); cbn [app set_dc]; rewrite (mt_type _ _ Hm); destruct (is_srb (pdcp_type tx));
    cbn [negb andb]; rewrite ?H; done.
Qed.
End send.
