(* ===== verification/PdcpEnd.v ===== *)
(** * NR PDCP: two peers and what lies between them

    A transmitting entity, a receiving one, and PDUs that are delayed,
    reordered, duplicated or lost on the way. *)

From S2P Require Import Prelude SecuNas Pdcp PdcpSecurity PdcpRx PdcpRecv PdcpSend.

Section peers.
Context {ssl : OpenSSL} {laws : OpenSSLLaws ssl}.

(** ** One PDU *)

Lemma frame_conf e e' : rx_frame e' = rx_frame e -> conf_ok e -> conf_ok e'.
Proof.
  intros H [Hs Hm Hw].
  pose proof (frame_field sn_size e e' H ltac:(done)) as E1.
  pose proof (frame_field sn_max e e' H ltac:(done)) as E2.
  pose proof (frame_field window_size e e' H ltac:(done)) as E3.
  split; rewrite ?E1, ?E2, ?E3; done.
Qed.

Lemma frame_sec e e' : rx_frame e' = rx_frame e -> sec_inv e -> sec_inv e'.
Proof.
  intros H [H1 H2 H3 H4 H5 H6].
  pose proof (frame_field security_keys_and_algos e e' H ltac:(done)) as E1.
  pose proof (frame_field has_integrity e e' H ltac:(done)) as E2.
  pose proof (frame_field free_integrity e e' H ltac:(done)) as E3.
  pose proof (frame_field integrity e e' H ltac:(done)) as E4.
  pose proof (frame_field integrity_context e e' H ltac:(done)) as E5.
  pose proof (frame_field has_ciphering e e' H ltac:(done)) as E6.
  pose proof (frame_field free_security e e' H ltac:(done)) as E7.
  pose proof (frame_field cipher e e' H ltac:(done)) as E8.
  pose proof (frame_field security_context e e' H ltac:(done)) as E9.
  split; rewrite ?E1, ?E2, ?E3, ?E4, ?E5, ?E6, ?E7, ?E8, ?E9; done.
Qed.

Lemma frame_matched tx e e' : rx_frame e' = rx_frame e -> matched tx e -> matched tx e'.
Proof.
  intros H [H1 H2 H3 H4 H5 H6 H7 H8 H9].
  pose proof (frame_field pdcp_type e e' H ltac:(done)) as E1.
  pose proof (frame_field rb_id e e' H ltac:(done)) as E2.
  pose proof (frame_field sn_size e e' H ltac:(done)) as E3.
  pose proof (frame_field has_sdap_rx e e' H ltac:(done)) as E4.
  pose proof (frame_field is_gnb e e' H ltac:(done)) as E5.
  pose proof (frame_field free_security e e' H ltac:(done)) as E6.
  pose proof (frame_field free_integrity e e' H ltac:(done)) as E7.
  pose proof (frame_field security_keys_and_algos e e' H ltac:(done)) as E8.
  split; rewrite ?E1, ?E2, ?E3, ?E4, ?E5, ?E6, ?E7, ?E8; done.
Qed.

(** Statistics alone change. *)
Lemma discard_effect e size sn :
  rx_inv e -> rx_effect e (discard_rx (count_rx e size sn) size) (rx_list e).
Proof.
  intros [Hc Ht]. split; [|by destruct e|by destruct e|reflexivity|by intros _|by intros].
  split; [destruct Hc; by split|exact Ht].
Qed.

Lemma count_rx_inv e size sn : rx_inv e -> rx_inv (count_rx e size sn).
Proof. intros [Hc Ht]. split; [destruct Hc; by split|exact Ht]. Qed.

Lemma recv_peer_pdu tx rx sdu :
  matched tx rx -> conf_ok tx -> conf_ok rx -> sec_inv tx -> sec_inv rx -> entity_suspended rx = false ->
  rx_inv rx -> bytes_ok sdu -> b2z (has_sdap_tx tx) < zlen sdu < 2 ^ 27 ->
  0 <= tx_next tx -> tx_next tx + 1 < 2 ^ 32 ->
  rx_deliv rx - window_size rx <= tx_next tx < rx_deliv rx + window_size rx -> sec_usable rx (tx_next tx) ->
  exists rx' l, nr_pdcp_entity_recv_pdu rx (pdu_of tx sdu) (zlen (pdu_of tx sdu)) = Ok rx' /\ rx_effect rx rx' l /\
    (if (tx_next tx <? rx_deliv rx) || nr_pdcp_sdu_in_list (rx_list rx) (tx_next tx) then l = rx_list rx
     else exists s, ps_count s = tx_next tx /\ ps_buffer s = sdu /\ l = nr_pdcp_sdu_list_add (rx_list rx) s).
Proof.
  intros Hm Hct Hcr Hst Hsr Hsus Hri Hb Hl H0 Hmax Hw Hu.
  pose proof (pdu_length tx sdu Hst Hct) as Hlen. pose proof (header_size_pos tx) as Hhs.
  assert (His : 0 <= integrity_size_of tx <= 4) by (destruct (integrity_size_cases tx) as [[-> _]|[-> _]]; lia).
  destruct (pdu_header tx sdu Hct) as [rest Hrest].
  assert (Hdc : set_dc rx (pdu_of tx sdu) = pdu_of tx sdu) by (rewrite Hrest; by apply set_dc_header).
  assert (Hsn : rcvd_sn_of rx (pdu_of tx sdu) = Ok (tx_sn tx)).
  { rewrite Hrest. apply header_sn; [apply (mt_sn _ _ Hm)|done|by apply tx_sn_range]. }
  assert (Hsnmax : sn_max rx = sn_max tx) by (rewrite (cf_max rx Hcr), (cf_max tx Hct), (mt_sn _ _ Hm); done).
  destruct (ri_core rx Hri) as [Hrange Hrmax _ _ _ _ _].
  assert (Hcount : rcvd_count_of rx (tx_sn tx) = tx_next tx).
  { unfold tx_sn. rewrite <- Hsnmax. apply rcvd_count_recovered; [done|lia|lia|done]. }
  assert (Hdap : 0 <= b2z (has_sdap_tx tx) <= 1) by (destruct (has_sdap_tx tx); cbn; lia).
  rewrite (recv_pdu_run rx (pdu_of tx sdu) (tx_sn tx) Hcr Hsr Hsus); first last.
  { by rewrite Hcount. }
  { by rewrite Hdc. }
  { rewrite (matched_header tx rx Hm), Hlen. lia. }
  { by apply pdu_bytes. }
  rewrite Hdc. unfold recv_outcome.
  set (rx1 := count_rx rx (zlen (pdu_of tx sdu)) (tx_sn tx)).
  change (rcvd_count_of rx1 (tx_sn tx)) with (rcvd_count_of rx (tx_sn tx)). rewrite Hcount.
  assert (Hm1 : matched tx rx1) by (apply (frame_matched tx rx); [by destruct rx|done]).
  assert (Hs1 : sec_inv rx1) by (apply (frame_sec rx); [by destruct rx|done]).
  rewrite (matched_header tx rx1 Hm1), (mt_sdap _ _ Hm1), (matched_integrity tx rx1 Hm1) by done.
  destruct (Z.ltb_spec (zlen (pdu_of tx sdu)) (header_size_of tx + b2z (has_sdap_tx tx) + integrity_size_of tx + 1)); [lia|].
  rewrite (deciphered_pdu tx rx1 sdu Hm1 Hst Hct) by lia.
  set (m := pdcp_header tx (tx_sn tx) ++ sdu).
  assert (Hml : length (tx_mac tx m) = Z.to_nat (integrity_size_of tx)).
  { pose proof (tx_mac_length tx m Hst) as E. unfold zlen in E. lia. }
  assert (Hmac : mac_matches rx1 (tx_plain tx sdu) (tx_next tx) = true).
  { unfold mac_matches. rewrite (matched_mac tx rx1) by done.
    destruct (ent_mac tx (tx_next tx) (tx_dir tx) _) as [x|] eqn:E; [|done].
    assert (E4 : integrity_size_of tx = 4).
    { unfold ent_mac in E. unfold integrity_size_of. rewrite has_integrity_spec by done.
      by destruct (free_integrity tx). }
    rewrite E4 in Hml. unfold tx_plain in *. fold m in E |- *.
    replace (length (m ++ tx_mac tx m) - 4)%nat with (length m) in * by (rewrite length_app; lia).
    rewrite take_app_length in E. rewrite drop_app_length. apply bool_decide_eq_true_2.
    unfold tx_mac. by rewrite E. }
  rewrite Hmac. cbn [negb].
  change (rx_deliv rx1) with (rx_deliv rx). change (rx_list rx1) with (rx_list rx).
  destruct (_ || _) eqn:E.
  { exists (discard_rx rx1 (zlen (pdu_of tx sdu))), (rx_list rx). split; [done|]. split; [by apply discard_effect|done]. }
  apply orb_false_iff in E as [E1 E2]. zify_bool.
  rewrite in_list_spec in E2. apply bool_decide_eq_false in E2.
  set (s := received_sdu rx1 (pdu_of tx sdu) (tx_next tx)).
  assert (Hsc : ps_count s = tx_next tx) by done.
  destruct (recv_new_sdu_effect rx1 s (zlen (pdu_of tx sdu)) (header_size_of tx)) as ([He1 He2 He3 He4 He5 He6] & _ & _).
  { by apply count_rx_inv. }
  { by rewrite Hsc. }
  { rewrite Hsc. done. }
  { lia. }
  eexists _, (nr_pdcp_sdu_list_add (rx_list rx) s). split; [done|]. split.
  - split; [exact He1|rewrite He2; by destruct rx|exact He3|exact He4|exact He5|exact He6].
  - exists s. split; [done|]. split; [|done]. unfold s, received_sdu. cbn [ps_buffer].
    rewrite (deciphered_pdu tx rx1 sdu Hm1 Hst Hct) by lia. unfold payload, tx_plain. fold m.
    rewrite (matched_header tx rx1 Hm1), (matched_integrity tx rx1 Hm1) by done.
    pose proof (header_len tx (tx_sn tx) Hct) as Hh. unfold m in *. rewrite !length_app, Hml.
    rewrite <- app_assoc, drop_app_ge by (unfold zlen in *; lia).
    replace (Z.to_nat (header_size_of tx) - length (pdcp_header tx (tx_sn tx)))%nat with 0%nat by (unfold zlen in *; lia).
    rewrite drop_0. rewrite take_app_le by (unfold zlen in *; lia). apply take_ge. unfold zlen in *. lia.
Qed.

(** ** The link *)

(** The transmitter, the receiver, the SDUs given to the transmitter, the PDUs
    it made, and the numbers of the PDUs that reached the receiver in time. *)
Record pdcp_link := mk_link {
  l_tx : nr_pdcp_entity_t;
  l_rx : nr_pdcp_entity_t;
  l_sent : list (list Z);
  l_pdus : list (list Z);
  l_arrived : list Z;
}.

Inductive link_event : Type :=
| LSend (sdu : list Z)           (* an SDU is given to the transmitter *)
| LReceive (i : Z)               (* the receiver gets PDU number i *)
| LTick (now : Z).               (* the receiver learns the time *)

Definition link_step (l : pdcp_link) (ev : link_event) : outcome pdcp_link :=
  match ev with
  | LSend sdu =>
      '(pdu, tx) ← nr_pdcp_entity_process_sdu (l_tx l) sdu (zlen sdu) (nr_max_pdcp_pdu_size (zlen sdu));
      pdu ← of_option NullDeref pdu;
      Ok (mk_link tx (l_rx l) (l_sent l ++ [sdu]) (l_pdus l ++ [pdu]) (l_arrived l))
  | LReceive i =>
      pdu ← of_option OutOfBounds (zget (l_pdus l) i);
      rx ← nr_pdcp_entity_recv_pdu (l_rx l) pdu (zlen pdu);
      Ok (mk_link (l_tx l) rx (l_sent l) (l_pdus l)
            (if i <? rx_deliv (l_rx l) then l_arrived l else i :: l_arrived l))
  | LTick now => Ok (mk_link (l_tx l) (nr_pdcp_entity_set_time (l_rx l) now) (l_sent l) (l_pdus l) (l_arrived l))
  end.

Fixpoint link_run (l : pdcp_link) (evs : list link_event) : outcome pdcp_link :=
  match evs with
  | [] => Ok l
  | ev :: evs => l ← link_step l ev; link_run l evs
  end.

(** What is expected of the SDUs, and of the channel: a PDU arrives while its
    COUNT is less than half of the sequence number space away. *)
Definition link_event_ok (l : pdcp_link) (ev : link_event) : Prop :=
  match ev with
  | LSend sdu => bytes_ok sdu /\ b2z (has_sdap_tx (l_tx l)) < zlen sdu < 2 ^ 27 /\ zlen (l_sent l) + 1 < 2 ^ 31
  | LReceive i => 0 <= i < zlen (l_pdus l) /\
      rx_deliv (l_rx l) - window_size (l_rx l) <= i < rx_deliv (l_rx l) + window_size (l_rx l)
  | LTick _ => True
  end.

Fixpoint link_events_ok (l : pdcp_link) (evs : list link_event) : Prop :=
  match evs with
  | [] => True
  | ev :: evs => link_event_ok l ev /\ forall l', link_step l ev = Ok l' -> link_events_ok l' evs
  end.

(** The radio bearers the algorithms accept. *)
Definition bearer_ok (e : nr_pdcp_entity_t) : Prop :=
  1 <= rb_id e <= 32 /\ (free_security e = Some ALG2 -> rb_id e < 32).

Lemma bearer_usable e count : bearer_ok e -> 0 <= count < 2 ^ 31 -> sec_usable e count.
Proof.
  intros [Hrb Hn] Hc. split; intros alg Ha; destruct alg; split; try lia. specialize (Hn Ha). lia.
Qed.

(** PDU number [i] is SDU number [i], made by the transmitter when it was at
    that COUNT. *)
Definition pdu_from (tx : nr_pdcp_entity_t) (i : Z) (sdu pdu : list Z) : Prop :=
  exists tx0, pdu = pdu_of tx0 sdu /\ tx_next tx0 = i /\ conf_ok tx0 /\ sec_inv tx0 /\
    (forall rx, matched tx rx -> matched tx0 rx) /\
    bytes_ok sdu /\ b2z (has_sdap_tx tx0) < zlen sdu < 2 ^ 27.

Record link_inv (l : pdcp_link) : Prop := {
  li_tx : conf_ok (l_tx l) /\ sec_inv (l_tx l) /\ entity_suspended (l_tx l) = false;
  li_rx : conf_ok (l_rx l) /\ sec_inv (l_rx l) /\ entity_suspended (l_rx l) = false;
  li_matched : matched (l_tx l) (l_rx l);
  li_bearer : bearer_ok (l_tx l);
  li_next : tx_next (l_tx l) = zlen (l_sent l) /\ zlen (l_pdus l) = zlen (l_sent l) /\ zlen (l_sent l) < 2 ^ 31;
  li_pdus i sdu pdu : zget (l_sent l) i = Some sdu -> zget (l_pdus l) i = Some pdu -> pdu_from (l_tx l) i sdu pdu;
  li_inv : rx_inv (l_rx l);
  li_bound : rx_next (l_rx l) <= zlen (l_sent l);
  li_sdus s : s ∈ delivered (l_rx l) ++ rx_list (l_rx l) -> zget (l_sent l) (ps_count s) = Some (ps_buffer s);
  li_arrived i : i ∈ l_arrived l -> i ∈ counts (delivered (l_rx l) ++ rx_list (l_rx l));
}.

Lemma zget_app_l {A} (l k : list A) i x : zget l i = Some x -> zget (l ++ k) i = Some x.
Proof.
  intros [Hi Hx]%zget_Some. apply zget_Some. pose proof (zlen_nonneg k). rewrite zlen_app. split; [lia|].
  by apply lookup_app_l_Some.
Qed.

Lemma zget_snoc {A} (l : list A) a i x :
  zget (l ++ [a]) i = Some x <-> zget l i = Some x \/ i = zlen l /\ x = a.
Proof.
  split.
  - intros [Hi Hx]%zget_Some. apply lookup_app_Some in Hx as [Hx|[Hn Hx]].
    + left. apply zget_Some. split; [|done]. apply lookup_lt_Some in Hx. unfold zlen. lia.
    + right. rewrite zlen_app in Hi. change (zlen [a]) with 1 in Hi. unfold zlen in *.
      replace (Z.to_nat i - length l)%nat with 0%nat in Hx by lia. injection Hx as <-. split; [lia|done].
  - intros [H|[-> ->]]; [by apply zget_app_l|]. apply zget_Some. pose proof (zlen_nonneg l). rewrite zlen_app.
    change (zlen [a]) with 1. split; [lia|]. unfold zlen. rewrite Nat2Z.id, lookup_app_r by lia.
    by rewrite Nat.sub_diag.
Qed.

(** What the end of a reception gives, whatever it added to the list. *)
Lemma link_rx_step l rx' lst arr :
  link_inv l -> rx_effect (l_rx l) rx' lst ->
  (forall s, s ∈ lst -> zget (l_sent l) (ps_count s) = Some (ps_buffer s)) ->
  (forall s, s ∈ rx_list (l_rx l) -> s ∈ lst) ->
  (forall i, i ∈ arr -> i ∈ l_arrived l \/ i ∈ counts lst) ->
  link_inv (mk_link (l_tx l) rx' (l_sent l) (l_pdus l) arr).
Proof.
  intros [Htx (Hc & Hs & Hsu) Hm Hb Hn Hp Hi Hbd Hsd Har] [E1 E2 E3 E4 E5 E6] Hlst Hkeep Harr.
  split; cbn [l_tx l_rx l_sent l_pdus l_arrived]; try done.
  - split; [by apply (frame_conf (l_rx l))|]. split; [by apply (frame_sec (l_rx l))|].
    by rewrite (frame_field entity_suspended _ _ E2 ltac:(done)).
  - by apply (frame_matched _ (l_rx l)).
  - apply E6; [done|]. intros c (s & -> & Hin)%list_elem_of_fmap. apply Hlst in Hin. apply zget_Some in Hin. lia.
  - intros s Hin. rewrite E3 in Hin. apply elem_of_app in Hin as [Hin|Hin]; [|by apply Hlst].
    apply Hsd. set_solver.
  - intros i Hin. rewrite E3, fmap_app. apply elem_of_app. apply Harr in Hin as [Hin|Hin]; [|by right].
    apply Har in Hin. rewrite fmap_app in Hin. apply elem_of_app in Hin as [Hin|Hin]; [by left|right].
    apply list_elem_of_fmap in Hin as (s & -> & Hin). apply list_elem_of_fmap. eauto.
Qed.


Lemma link_tick l now : link_inv l -> exists l', link_step l (LTick now) = Ok l' /\ link_inv l' /\
  l_tx l' = l_tx l /\ l_sent l' = l_sent l.
Proof.
  intros Hl. eexists. split; [reflexivity|]. split; [|done].
  set (rx0 := (l_rx l) <| t_current := now |>).
  assert (Hi0 : rx_inv rx0) by (destruct (li_inv l Hl) as [Hc Ht]; split; [destruct Hc; by split|exact Ht]).
  destruct (check_t_reordering_effect rx0 Hi0) as ([E1 E2 E3 E4 E5 E6] & _ & _).
  apply (link_rx_step l (check_t_reordering rx0) (rx_list (l_rx l))).
  - done.
  - split; [exact E1| |exact E3|exact E4| |exact E6].
    + rewrite E2. by destruct (l_rx l).
    + intros H1 H2. apply E5; [exact H1|exact H2].
  - intros s Hs. apply (li_sdus l Hl). set_solver.
  - done.
  - intros i Hi. by left.
Qed.

Lemma link_receive l i :
  link_inv l -> link_event_ok l (LReceive i) ->
  exists l', link_step l (LReceive i) = Ok l' /\ link_inv l' /\ l_tx l' = l_tx l /\ l_sent l' = l_sent l.
Proof.
  intros Hl [Hi Hw]. destruct (zget_ok (l_pdus l) i Hi) as [pdu Hpdu].
  destruct (li_next l Hl) as (Hn & Hlen & Hmax).
  destruct (zget_ok (l_sent l) i) as [sdu Hsdu]; [lia|].
  destruct (li_pdus l Hl i sdu pdu Hsdu Hpdu) as (tx0 & -> & Hc0 & Hcf0 & Hs0 & Hm0 & Hb & Hsz).
  destruct (li_rx l Hl) as (Hcf & Hs & Hsus). pose proof (Hm0 _ (li_matched l Hl)) as Hm.
  destruct (recv_peer_pdu tx0 (l_rx l) sdu Hm Hcf0 Hcf Hs0 Hs Hsus (li_inv l Hl) Hb Hsz) as (rx' & lst & Hrecv & He & Hlst);
    rewrite ?Hc0; [lia|lia|done| |].
  { apply bearer_usable; [|lia]. destruct (li_bearer l Hl) as [Hb1 Hb2].
    pose proof (li_matched l Hl) as Hml. split; [by rewrite (mt_rb _ _ Hml)|].
    rewrite (mt_rb _ _ Hml), (mt_cipher _ _ Hml). done. }
  cbn [link_step]. rewrite Hpdu. cbn [mbind outcome_bind of_option]. rewrite Hrecv. cbn [mbind outcome_bind].
  eexists. split; [reflexivity|]. split; [|done]. rewrite Hc0 in Hlst.
  apply (link_rx_step l rx' lst); [done|done| | |].
  - intros s Hin. destruct (_ || _).
    + subst lst. apply (li_sdus l Hl). set_solver.
    + destruct Hlst as (s0 & Es & Eb & ->). rewrite pdcp_list_add_perm in Hin.
      apply elem_of_cons in Hin as [->|Hin]; [by rewrite Es, Eb|apply (li_sdus l Hl); set_solver].
  - intros s Hin. destruct (_ || _); [by subst|]. destruct Hlst as (s0 & _ & _ & ->).
    rewrite pdcp_list_add_perm. set_solver.
  - intros j Hj. destruct (Z.ltb_spec i (rx_deliv (l_rx l))); [by left|].
    apply elem_of_cons in Hj as [->|Hj]; [right|by left].
    assert (Ei : (i <? rx_deliv (l_rx l)) = false) by (apply Z.ltb_ge; lia). cbn [orb] in Hlst.
    destruct (nr_pdcp_sdu_in_list (rx_list (l_rx l)) i) eqn:E.
    + subst lst. rewrite in_list_spec in E. by apply bool_decide_eq_true in E.
    + destruct Hlst as (s0 & Es & _ & ->). rewrite pdcp_list_add_perm. rewrite <- Es. set_solver.
Qed.

Lemma matched_tx_done tx rx sdu : matched tx rx -> matched (tx_done tx sdu) rx.
Proof. intros []. by split. Qed.

Lemma link_send l sdu :
  link_inv l -> link_event_ok l (LSend sdu) ->
  exists l', link_step l (LSend sdu) = Ok l' /\ link_inv l' /\ l_sent l' = l_sent l ++ [sdu].
Proof.
  intros Hl (Hb & Hsz & Hmax). destruct (li_tx l Hl) as (Hcf & Hs & Hsus).
  destruct (li_next l Hl) as (Hn & Hlen & _). pose proof (zlen_nonneg (l_sent l)) as H0.
  assert (Hu : sec_usable (l_tx l) (tx_next (l_tx l))) by (apply bearer_usable; [apply (li_bearer l Hl)|lia]).
  cbn [link_step].
  rewrite (process_sdu_run (l_tx l) sdu (nr_max_pdcp_pdu_size (zlen sdu)) Hcf Hs Hsus Hb Hsz);
    [|unfold nr_max_pdcp_pdu_size, LONG_PDCP_HEADER_SIZE, PDCP_INTEGRITY_SIZE; lia|done].
  cbn [mbind outcome_bind of_option]. eexists. split; [reflexivity|]. split; [|done].
  assert (Hcf' : conf_ok (tx_done (l_tx l) sdu)) by (destruct Hcf; by split).
  assert (Hs' : sec_inv (tx_done (l_tx l) sdu)) by (destruct Hs; by split).
  split; cbn [l_tx l_rx l_sent l_pdus l_arrived].
  - done.
  - apply Hl.
  - apply matched_tx_done, Hl.
  - apply (li_bearer l Hl).
  - change (tx_next (tx_done (l_tx l) sdu)) with (u32 (tx_next (l_tx l) + 1)).
    unfold u32. rewrite !zlen_app. change (zlen [pdu_of (l_tx l) sdu]) with 1. change (zlen [sdu]) with 1.
    rewrite Z.mod_small by lia. lia.
  - intros i s p Hi Hp. apply zget_snoc in Hi, Hp.
    assert (Hold : forall i s p, pdu_from (l_tx l) i s p -> pdu_from (tx_done (l_tx l) sdu) i s p).
    { intros i0 s0 p0 (tx0 & E1 & E2 & E3 & E4 & E5 & E6). exists tx0. split_and!; try done; try apply E6.
      intros rx Hm. apply E5. destruct Hm. by split. }
    destruct Hi as [Hi|[-> ->]], Hp as [Hp|[Hip ->]].
    + apply Hold. by apply (li_pdus l Hl).
    + apply zget_Some in Hi. lia.
    + apply zget_Some in Hp. lia.
    + exists (l_tx l). split_and!; try done; try lia. intros rx Hm. destruct Hm. by split.
  - apply Hl.
  - rewrite zlen_app. change (zlen [sdu]) with 1. pose proof (li_bound l Hl). lia.
  - intros s Hin. apply zget_app_l. by apply (li_sdus l Hl).
  - apply Hl.
Qed.

Lemma link_run_ok l evs :
  link_inv l -> link_events_ok l evs -> exists l', link_run l evs = Ok l' /\ link_inv l'.
Proof.
  revert l. induction evs as [|ev evs IH]; intros l Hl Hok; [by exists l|]. destruct Hok as [Hev Hrest].
  assert (H : exists l', link_step l ev = Ok l' /\ link_inv l').
  { destruct ev.
    - destruct (link_send l sdu Hl Hev) as (l' & ? & ? & _). by exists l'.
    - destruct (link_receive l i Hl Hev) as (l' & ? & ? & _). by exists l'.
    - destruct (link_tick l now Hl) as (l' & ? & ? & _). by exists l'. }
  destruct H as (l' & Hst & Hl'). cbn [link_run]. rewrite Hst. cbn [mbind outcome_bind].
  apply IH; [done|]. by apply Hrest.
Qed.

(** ** Two new entities *)

Lemma new_entity_ok type gnb rb ps srx stx sn reord disc p :
  sn = 12 \/ sn = 18 -> params_ok p ->
  exists e, new_nr_pdcp_entity type gnb rb ps srx stx sn reord disc p = Ok e /\
    conf_ok e /\ sec_inv e /\ entity_suspended e = false /\ tx_next e = 0 /\ rx_inv e /\ rx_next e = 0 /\
    rx_list e = [] /\ delivered e = [] /\ timer_runs e /\
    pdcp_type e = type /\ is_gnb e = gnb /\ rb_id e = rb /\ has_sdap_rx e = srx /\ has_sdap_tx e = stx /\
    sn_size e = sn /\ t_reordering e = reord /\
    security_keys_and_algos e = update_keys (mk_keys 0 0 (replicate 16 0) (replicate 16 0)) p /\
    free_integrity e = new_alg None (integrity_algorithm p) /\ free_security e = new_alg None (ciphering_algorithm p).
Proof.
  intros Hsn Hp. unfold new_nr_pdcp_entity. set (e0 := mk_pdcp _ _ _ _ _ _ _ _ _ _ _ _ _ _ _ _ _ _ _ _ _ _ _ _ _ _ _ _ _ _ _ _).
  assert (Hz : key_ok (replicate 16 0)) by (split; [done|by apply Forall_replicate]).
  assert (Hs0 : sec_inv e0).
  { split; try done; by split; [|intros [? ?]]. }
  destruct (set_security_inv e0 p Hs0 Hp) as (e & Hrun & Hs & Hw & Hk & Hfi & Hfs).
  assert (Hf : forall A (f : nr_pdcp_entity_t -> A), (forall x, f (without_security x) = f x) -> f e = f e0).
  { intros A f Hf. by rewrite <- (Hf e), <- (Hf e0), Hw. }
  exists e. split; [done|]. split.
  { split; rewrite ?(Hf _ sn_size), ?(Hf _ sn_max), ?(Hf _ window_size) by done; unfold e0;
      cbn [sn_size sn_max window_size]; try done; by destruct Hsn as [->| ->]. }
  split; [done|].
  assert (Hrx : rx_inv e).
  { split; [split|]; rewrite ?(Hf _ rx_deliv), ?(Hf _ rx_next), ?(Hf _ rx_list), ?(Hf _ delivered),
      ?(Hf _ t_reordering_start), ?(Hf _ rx_reord) by done; unfold e0; cbn;
      first [lia | apply SSorted_nil | intros ? H; by apply not_elem_of_nil in H | done]. }
  unfold timer_runs.
  rewrite (Hf _ entity_suspended), (Hf _ tx_next), (Hf _ rx_next), (Hf _ rx_list), (Hf _ delivered),
    (Hf _ rx_deliv), (Hf _ t_reordering_start), (Hf _ pdcp_type), (Hf _ is_gnb), (Hf _ rb_id), (Hf _ has_sdap_rx),
    (Hf _ has_sdap_tx), (Hf _ sn_size), (Hf _ t_reordering) by done.
  split_and!; try done.
Qed.

Lemma link_start type rb ps sd1 sd2 sn reord disc p tx rx :
  sn = 12 \/ sn = 18 -> params_ok p -> 1 <= rb <= 32 -> (ciphering_algorithm p = 2 -> rb < 32) ->
  new_nr_pdcp_entity type true rb ps sd1 sd2 sn reord disc p = Ok tx ->
  new_nr_pdcp_entity type false rb ps sd2 sd1 sn reord disc p = Ok rx ->
  link_inv (mk_link tx rx [] [] []).
Proof.
  intros Hsn Hp Hrb Hnea Ht Hr.
  destruct (new_entity_ok type true rb ps sd1 sd2 sn reord disc p Hsn Hp) as
    (e & E & T1 & T2 & T3 & T4 & T5 & T6 & T7 & T8 & T9 & T10 & T11 & T12 & T13 & T14 & T15 & T16 & T17 & T18 & T19).
  rewrite E in Ht. injection Ht as <-.
  destruct (new_entity_ok type false rb ps sd2 sd1 sn reord disc p Hsn Hp) as
    (e' & E' & R1 & R2 & R3 & R4 & R5 & R6 & R7 & R8 & R9 & R10 & R11 & R12 & R13 & R14 & R15 & R16 & R17 & R18 & R19).
  rewrite E' in Hr. injection Hr as <-.
  split; cbn [l_tx l_rx l_sent l_pdus l_arrived]; try done.
  - split; rewrite ?R10, ?R11, ?R12, ?R13, ?R15, ?R17, ?R18, ?R19, ?T10, ?T11, ?T12, ?T14, ?T15, ?T17, ?T18, ?T19; done.
  - split; rewrite T12; [done|]. rewrite T19. unfold new_alg, alg_of. intros Ha.
    apply Hnea. destruct (ciphering_algorithm p =? -1); [done|].
    destruct (ciphering_algorithm p =? 1); [done|].
    destruct (ciphering_algorithm p =? 2) eqn:E2; [|done]. by apply Z.eqb_eq in E2.
  - intros i s q Hi. apply zget_Some in Hi as [Hi _]. unfold zlen in Hi. cbn in Hi. lia.
  - rewrite R6. done.
  - rewrite R7, R8. intros s Hin. by apply not_elem_of_nil in Hin.
  - intros i Hin. by apply not_elem_of_nil in Hin.
Qed.

(** C16: two new PDCP entities of one bearer, gNB and UE, with the same
    parameters (SN of 12 or 18 bits, SDAP header or not, integrity none, NIA1
    or NIA2, ciphering none, NEA1 or NEA2), and any sequence of SDUs sent,
    PDUs received and time updates, where the channel may lose, delay, reorder
    and duplicate PDUs but not bring one more than half the SN space away from
    RX_DELIV: nothing faults; what the receiver hands over are SDUs that were
    sent, byte for byte, in the order of their COUNT, each at most once; and
    every PDU that arrives in time is handed over by the time RX_DELIV has
    passed it. *)
Theorem pdcp_end_to_end type rb ps sd1 sd2 sn reord disc p tx rx evs :
  sn = 12 \/ sn = 18 -> params_ok p -> 1 <= rb <= 32 -> (ciphering_algorithm p = 2 -> rb < 32) ->
  new_nr_pdcp_entity type true rb ps sd1 sd2 sn reord disc p = Ok tx ->
  new_nr_pdcp_entity type false rb ps sd2 sd1 sn reord disc p = Ok rx ->
  link_events_ok (mk_link tx rx [] [] []) evs ->
  exists l, link_run (mk_link tx rx [] [] []) evs = Ok l /\
    increasing (counts (delivered (l_rx l))) /\
    (forall s, s ∈ delivered (l_rx l) -> zget (l_sent l) (ps_count s) = Some (ps_buffer s)) /\
    (forall i, i ∈ l_arrived l -> i < rx_deliv (l_rx l) ->
       exists s, s ∈ delivered (l_rx l) /\ ps_count s = i) /\
    (forall i, i ∈ l_arrived l -> rx_deliv (l_rx l) <= i ->
       exists s, s ∈ rx_list (l_rx l) /\ ps_count s = i /\ zget (l_sent l) i = Some (ps_buffer s)).
Proof.
  intros Hsn Hp Hrb Hnea Ht Hr Hok.
  destruct (link_run_ok _ evs (link_start _ _ _ _ _ _ _ _ _ _ _ Hsn Hp Hrb Hnea Ht Hr) Hok) as (l & Hrun & Hl).
  exists l. split; [done|]. destruct (ri_core _ (li_inv l Hl)) as [C1 C2 C3 C4 C5 C6 C7].
  split; [done|]. split; [intros s Hs; apply (li_sdus l Hl); set_solver|].
  assert (Hfind : forall i, i ∈ l_arrived l -> (exists s, s ∈ delivered (l_rx l) /\ ps_count s = i) \/
    exists s, s ∈ rx_list (l_rx l) /\ ps_count s = i).
  { intros i Hi. apply (li_arrived l Hl), list_elem_of_fmap in Hi as (s & -> & Hs).
    apply elem_of_app in Hs as [Hs|Hs]; [left|right]; eauto. }
  split; intros i Hi Hd; destruct (Hfind i Hi) as [(s & Hs & <-)|(s & Hs & <-)].
  - eauto.
  - assert (rx_deliv (l_rx l) < ps_count s < rx_next (l_rx l)); [|lia]. apply C4, list_elem_of_fmap. eauto.
  - assert (ps_count s < rx_deliv (l_rx l)); [|lia]. apply C7, list_elem_of_fmap. eauto.
  - exists s. split_and!; try done. apply (li_sdus l Hl). set_solver.
Qed.
End peers.
