(* ===== verification/PdcpProps.v ===== *)
(** * NR PDCP: forged PDUs, timer, security contexts, re-establishment

    The properties of one entity, whatever its peer does. *)

From S2P Require Import Prelude SecuSnow3gProps SecuSnow3gMac SecuNas Pdcp PdcpSecurity PdcpRx PdcpRecv PdcpSend PdcpEnd.

Section properties.
Context {ssl : OpenSSL} {laws : OpenSSLLaws ssl}.

(** ** Reception of any bytes *)

(** The PDU is long enough, its MAC-I is right, and its COUNT is new. *)
Definition acceptable (e : nr_pdcp_entity_t) (buffer : list Z) (sn : Z) : bool :=
  let count := rcvd_count_of e sn in
  negb (zlen buffer <? header_size_of e + b2z (has_sdap_rx e) + integrity_size_of e + 1) &&
  mac_matches e (deciphered e buffer count) count &&
  negb ((count <? rx_deliv e) || nr_pdcp_sdu_in_list (rx_list e) count).

Lemma recv_outcome_spec e buffer sn :
  recv_outcome e buffer sn =
    let e1 := count_rx e (zlen buffer) sn in
    if acceptable e buffer sn
    then recv_new_sdu e1 (received_sdu e buffer (rcvd_count_of e sn)) (zlen buffer) (header_size_of e)
    else discard_rx e1 (zlen buffer).
Proof.
  unfold recv_outcome, acceptable. cbv zeta. set (e1 := count_rx e (zlen buffer) sn).
  change (header_size_of e1) with (header_size_of e). change (has_sdap_rx e1) with (has_sdap_rx e).
  change (integrity_size_of e1) with (integrity_size_of e). change (rcvd_count_of e1 sn) with (rcvd_count_of e sn).
  change (deciphered e1 buffer) with (deciphered e buffer).
  change (mac_matches e1) with (mac_matches e). change (rx_deliv e1) with (rx_deliv e).
  change (rx_list e1) with (rx_list e). change (received_sdu e1 buffer) with (received_sdu e buffer).
  destruct (zlen buffer <? _); cbn [negb andb]; [done|].
  destruct (mac_matches e _ _); cbn [negb andb]; [|done]. by destruct (_ || _).
Qed.


(** ** COUNT *)

(** C21: the COUNT of a PDU is recovered from its SN and RX_DELIV, across the
    wrap of the SN and up to the end of the 32 bits, as long as it is less than
    half the SN space below RX_DELIV or above; and inside that window the SN
    determines the COUNT. *)
Theorem pdcp_count_recovered e count count' :
  conf_ok e -> 0 <= rx_deliv e < 2 ^ 32 ->
  0 <= count < 2 ^ 32 -> rx_deliv e - window_size e <= count < rx_deliv e + window_size e ->
  0 <= count' < 2 ^ 32 -> rx_deliv e - window_size e <= count' < rx_deliv e + window_size e ->
  rcvd_count_of e (Z.land count (sn_max e)) = count /\
  (Z.land count (sn_max e) = Z.land count' (sn_max e) -> count = count').
Proof.
  intros Hcf Hd Hc Hw Hc' Hw'. split; [by apply rcvd_count_recovered|]. intros E.
  rewrite <- (rcvd_count_recovered e count), <- (rcvd_count_recovered e count') by done. by rewrite E.
Qed.

(** ** Reordering timer *)


(** ** Security contexts *)

Inductive pdcp_management : Type :=
| MSetSecurity (p : nr_pdcp_entity_security_keys_and_algos_t)
| MReestablish (p : nr_pdcp_entity_security_keys_and_algos_t)
| MSuspend
| MRelease
| MSetTime (now : Z).

Definition manage (e : nr_pdcp_entity_t) (op : pdcp_management) : outcome nr_pdcp_entity_t :=
  match op with
  | MSetSecurity p => nr_pdcp_entity_set_security e p
  | MReestablish p => reestablish_entity e p
  | MSuspend => Ok (nr_pdcp_entity_suspend e)
  | MRelease => Ok (nr_pdcp_entity_release e)
  | MSetTime now => Ok (nr_pdcp_entity_set_time e now)
  end.

Fixpoint manage_all (e : nr_pdcp_entity_t) (ops : list pdcp_management) : outcome nr_pdcp_entity_t :=
  match ops with
  | [] => Ok e
  | op :: ops => e ← manage e op; manage_all e ops
  end.

Definition management_ok (op : pdcp_management) : Prop :=
  match op with MSetSecurity p | MReestablish p => params_ok p | _ => True end.

(** Security depends on the security fields only. *)
Definition same_security (e e' : nr_pdcp_entity_t) : Prop :=
  has_ciphering e' = has_ciphering e /\ has_integrity e' = has_integrity e /\
  security_keys_and_algos e' = security_keys_and_algos e /\
  security_context e' = security_context e /\ cipher e' = cipher e /\ free_security e' = free_security e /\
  integrity_context e' = integrity_context e /\ integrity e' = integrity e /\ free_integrity e' = free_integrity e.

Lemma same_security_inv e e' : same_security e e' -> sec_inv e -> sec_inv e'.
Proof.
  intros (E1 & E2 & E3 & E4 & E5 & E6 & E7 & E8 & E9) [].
  split; rewrite ?E1, ?E2, ?E3, ?E4, ?E5, ?E6, ?E7, ?E8, ?E9; done.
Qed.

Lemma frame_same_security e e' : rx_frame e' = rx_frame e -> same_security e e'.
Proof.
  intros H. unfold same_security.
  rewrite (frame_field has_ciphering e e' H ltac:(done)), (frame_field has_integrity e e' H ltac:(done)),
    (frame_field security_keys_and_algos e e' H ltac:(done)), (frame_field security_context e e' H ltac:(done)),
    (frame_field cipher e e' H ltac:(done)), (frame_field free_security e e' H ltac:(done)),
    (frame_field integrity_context e e' H ltac:(done)), (frame_field integrity e e' H ltac:(done)),
    (frame_field free_integrity e e' H ltac:(done)). split_and!; reflexivity.
Qed.

Lemma deliver_all_facts e :
  delivered (deliver_all_sdus e) = delivered e ++ rx_list e /\ rx_list (deliver_all_sdus e) = [] /\
  same_vars e (deliver_all_sdus e).
Proof. by apply deliver_list_all. Qed.

Lemma deliver_before_frame e l : rx_frame (deliver_before e l) = rx_frame e.
Proof.
  revert e. induction l as [|x l IH]; intros e; [done|]. cbn [deliver_before].
  destruct (_ <? _); [|done]. rewrite IH. apply (sv_frame _ _ (deliver_same e x l)).
Qed.

Lemma deliver_consecutive_frame e l c : rx_frame (deliver_consecutive e l c).1 = rx_frame e.
Proof.
  revert e c. induction l as [|x l IH]; intros e c; [done|]. cbn [deliver_consecutive].
  destruct (_ =? _); [|done]. rewrite IH. apply (sv_frame _ _ (deliver_same e x l)).
Qed.

Lemma set_time_frame e now : rx_frame (nr_pdcp_entity_set_time e now) = rx_frame e.
Proof.
  unfold nr_pdcp_entity_set_time, check_t_reordering. set (e0 := e <| t_current := now |>).
  assert (H0 : rx_frame e0 = rx_frame e) by (by destruct e).
  destruct (_ =? -1); [done|]. destruct (_ || _); [done|].
  set (e1 := deliver_before _ _).
  assert (H1 : rx_frame e1 = rx_frame e).
  { unfold e1. rewrite deliver_before_frame, <- H0. by destruct e. }
  pose proof (deliver_consecutive_frame e1 (rx_list e1) (rx_reord e1)) as H2.
  destruct (deliver_consecutive e1 (rx_list e1) (rx_reord e1)) as [e2 c]. cbn [fst] in H2.
  destruct (_ <? _); rewrite <- H1, <- H2; by destruct e2.
Qed.

Lemma suspend_security e : same_security e (nr_pdcp_entity_suspend e).
Proof.
  unfold nr_pdcp_entity_suspend. destruct (negb _); [|by destruct e].
  set (e0 := e <| tx_next := 0 |> <| t_reordering_start := 0 |>).
  destruct (deliver_all_facts e0) as (_ & _ & Hs).
  pose proof (frame_same_security _ _ (sv_frame _ _ Hs)) as H. exact H.
Qed.

Lemma free_rx_list_security e : same_security e (free_rx_list e).
Proof.
  unfold free_rx_list.
  assert (H : forall l x, same_security e x -> same_security e (foldl (fun e cur => discard_rx e (ps_size cur)) x l)).
  { induction l as [|s l IH]; intros x Hx; [done|]. cbn [foldl]. apply IH. exact Hx. }
  exact (H (rx_list e) e ltac:(by split_and!)).
Qed.

Lemma reestablish_security e p :
  sec_inv e -> params_ok p -> exists e', reestablish_entity e p = Ok e' /\ sec_inv e'.
Proof.
  intros Hs Hp. unfold reestablish_entity.
  assert (Hset : forall e0, same_security e e0 ->
    exists e', (e ← nr_pdcp_entity_set_security e0 p; Ok (e <| entity_suspended := false |>)) = Ok e' /\ sec_inv e').
  { intros e0 He. destruct (set_security_inv e0 p (same_security_inv _ _ He Hs) Hp) as (e' & -> & Hs' & _).
    eexists. split; [reflexivity|]. destruct Hs'. by split. }
  destruct (pdcp_type e).
  - apply Hset. by split_and!.
  - unfold nr_pdcp_entity_reestablish_drb_um. apply Hset. destruct (negb _); [|by destruct e].
    set (e0 := e <| tx_next := 0 |>). destruct (deliver_all_facts e0) as (_ & _ & Hv).
    exact (frame_same_security _ _ (sv_frame _ _ Hv)).
  - unfold nr_pdcp_entity_reestablish_srb. apply Hset. exact (free_rx_list_security (e <| tx_next := 0 |>)).
Qed.

Lemma manage_inv e op : sec_inv e -> management_ok op -> exists e', manage e op = Ok e' /\ sec_inv e'.
Proof.
  intros Hs Hok. destruct op as [p|p| | |now]; cbn [manage management_ok] in *.
  - destruct (set_security_inv e p Hs Hok) as (e' & ? & ? & _). by exists e'.
  - by apply reestablish_security.
  - eexists. split; [done|]. by apply (same_security_inv e); [apply suspend_security|].
  - eexists. split; [done|]. apply (same_security_inv e); [|done].
    destruct (deliver_all_facts e) as (_ & _ & Hv). by apply frame_same_security, Hv.
  - eexists. split; [done|]. apply (same_security_inv e); [|done]. by apply frame_same_security, set_time_frame.
Qed.

Lemma manage_all_inv e ops :
  sec_inv e -> Forall management_ok ops -> exists e', manage_all e ops = Ok e' /\ sec_inv e'.
Proof.
  intros Hs Hok. revert e Hs. induction Hok as [|op ops Hop Hok IH]; intros e Hs; [by exists e|].
  destruct (manage_inv e op Hs Hop) as (e1 & E & Hs1). cbn [manage_all]. rewrite E. cbn [mbind outcome_bind].
  by apply IH.
Qed.


(** ** Re-establishment *)

(** C20: re-establishment (TS 38.323, 5.1.2) of each type of bearer: an AM DRB
    keeps its state and what it stores; a UM DRB delivers what it stores if the
    timer runs and starts both COUNTs again; an SRB drops what it stores and
    starts again; all of them take the new keys, and stop being suspended. *)
Theorem pdcp_reestablish_exact e p :
  sec_inv e -> params_ok p ->
  exists e', reestablish_entity e p = Ok e' /\ sec_inv e' /\ entity_suspended e' = false /\
    security_keys_and_algos e' = update_keys (security_keys_and_algos e) p /\
    match pdcp_type e with
    | NR_PDCP_DRB_AM => tx_next e' = tx_next e /\ rx_next e' = rx_next e /\ rx_deliv e' = rx_deliv e /\
        rx_list e' = rx_list e /\ delivered e' = delivered e /\ t_reordering_start e' = t_reordering_start e
    | NR_PDCP_DRB_UM => tx_next e' = 0 /\ rx_next e' = 0 /\ rx_deliv e' = 0 /\ t_reordering_start e' = 0 /\
        if t_reordering_start e =? 0 then rx_list e' = rx_list e /\ delivered e' = delivered e
        else rx_list e' = [] /\ delivered e' = delivered e ++ rx_list e
    | NR_PDCP_SRB => tx_next e' = 0 /\ rx_next e' = 0 /\ rx_deliv e' = 0 /\ t_reordering_start e' = 0 /\
        rx_list e' = [] /\ delivered e' = delivered e
    end.
Proof.
  intros Hs Hp. unfold reestablish_entity.
  assert (Hset : forall e0, same_security e e0 ->
    exists e', (e ← nr_pdcp_entity_set_security e0 p; Ok (e <| entity_suspended := false |>)) = Ok e' /\ sec_inv e' /\
      entity_suspended e' = false /\ security_keys_and_algos e' = update_keys (security_keys_and_algos e) p /\
      tx_next e' = tx_next e0 /\ rx_next e' = rx_next e0 /\ rx_deliv e' = rx_deliv e0 /\
      rx_list e' = rx_list e0 /\ delivered e' = delivered e0 /\ t_reordering_start e' = t_reordering_start e0).
  { intros e0 He. destruct (set_security_inv e0 p (same_security_inv _ _ He Hs) Hp) as (e' & -> & Hs' & Hw & Hk & _).
    assert (Hf : forall A (f : nr_pdcp_entity_t -> A), (forall x, f (without_security x) = f x) -> f e' = f e0).
    { intros A f Hf. by rewrite <- (Hf e'), <- (Hf e0), Hw. }
    destruct He as (_ & _ & Hk0 & _). rewrite Hk0 in Hk.
    eexists. split; [reflexivity|]. split; [destruct Hs'; by split|]. field_simpl.
    rewrite (Hf _ tx_next), (Hf _ rx_next), (Hf _ rx_deliv), (Hf _ rx_list), (Hf _ delivered), (Hf _ t_reordering_start) by done.
    done. }
  destruct (pdcp_type e).
  - destruct (Hset e ltac:(by split_and!)) as (e' & He & H). exists e'. split; [exact He|]. tauto.
  - unfold nr_pdcp_entity_reestablish_drb_um. set (e0 := e <| tx_next := 0 |>).
    destruct (deliver_all_facts e0) as (Hd & Hl & Hv).
    change (t_reordering_start e0) with (t_reordering_start e).
    destruct (t_reordering_start e =? 0); cbn [negb].
    + destruct (Hset (e0 <| t_reordering_start := 0 |> <| rx_next := 0 |> <| rx_deliv := 0 |>) ltac:(by split_and!)) as
        (e' & -> & H1 & H2 & H3 & H4 & H5 & H6 & H7 & H8 & H9). exists e'. done.
    + destruct (Hset ((deliver_all_sdus e0) <| t_reordering_start := 0 |> <| rx_next := 0 |> <| rx_deliv := 0 |>)) as
        (e' & -> & H1 & H2 & H3 & H4 & H5 & H6 & H7 & H8 & H9).
      { exact (frame_same_security _ _ (sv_frame _ _ Hv)). }
      exists e'. rewrite H4, H5, H6, H7, H8, H9. field_simpl. rewrite Hl, Hd.
      pose proof (frame_field tx_next _ _ (sv_frame _ _ Hv) ltac:(done)) as ->. done.
  - unfold nr_pdcp_entity_reestablish_srb.
    assert (Hfold : forall l x, delivered (foldl (fun e cur => discard_rx e (ps_size cur)) x l) = delivered x /\
      tx_next (foldl (fun e cur => discard_rx e (ps_size cur)) x l) = tx_next x).
    { induction l as [|s l IH]; intros x; [done|]. cbn [foldl]. destruct (IH (discard_rx x (ps_size s))) as [-> ->]. done. }
    destruct (Hset ((free_rx_list (e <| tx_next := 0 |>)) <| t_reordering_start := 0 |> <| rx_next := 0 |> <| rx_deliv := 0 |>)) as
      (e' & -> & H1 & H2 & H3 & H4 & H5 & H6 & H7 & H8 & H9).
    { exact (free_rx_list_security (e <| tx_next := 0 |>)). }
    exists e'. rewrite H4, H5, H6, H7, H8, H9. unfold free_rx_list. field_simpl.
    destruct (Hfold (rx_list e) (e <| tx_next := 0 |>)) as [-> ->]. done.
Qed.
End properties.
