(* ===== verification/PdcpExamples.v ===== *)
(** * NR PDCP: concrete entities

    Witnesses of the theorems of PdcpEnd.v and PdcpProps.v, and the behaviours
    the code has outside of their hypotheses.  OpenSSL is a stand-in that
    satisfies the laws: a fixed byte for the keystream, a checksum for the MAC. *)

From S2P Require Import Prelude SecuSnow3gProps SecuNas SecuNasProps Pdcp PdcpSecurity PdcpRx PdcpRecv PdcpSend PdcpEnd PdcpProps.

Definition checksum (l : list Z) : Z := Z.land (foldr Z.lxor 0x5a l) 255.

#[export] Instance stand_in : OpenSSL := {
  EVP_aes_128_ctr k iv m := (fun b => Z.lxor b (checksum (k ++ iv))) <$> m;
  EVP_cmac_aes128 k m := replicate 16 (checksum (k ++ m));
}.

#[export] Instance stand_in_laws : OpenSSLLaws stand_in.
Proof.
  split.
  - intros k iv m. apply length_fmap.
  - intros k iv m. cbn. induction m as [|b m IH]; cbn; [done|]. rewrite IH. f_equal.
    by rewrite Z.lxor_assoc, Z.lxor_nilpotent, Z.lxor_0_r.
  - intros k iv m Hm. apply Forall_fmap. eapply Forall_impl; [exact Hm|]. intros b Hb.
    apply lxor_is_byte; [done|apply land_255_byte].
  - done.
  - intros k m. apply Forall_replicate, land_255_byte.
Qed.

Definition some_key : list Z := Z.of_nat <$> seq 1 16.

Lemma nas_cipher_roundtrip_witness :
  exists c out, stream_security_container_init 1 2 some_key some_key = Ok c /\
    container_encrypt c 77 4 1 [1; 2; 3; 4; 5] = Ok out /\ zlen out = zlen [1; 2; 3; 4; 5] /\
    container_encrypt c 77 4 1 out = Ok [1; 2; 3; 4; 5].
Proof.
  apply (nas_cipher_roundtrip 1 2 some_key some_key 77 4 1 [1; 2; 3; 4; 5]); vm_compute; intuition congruence.
Defined.

Definition algos (integrity ciphering : Z) : nr_pdcp_entity_security_keys_and_algos_t :=
  mk_keys integrity ciphering some_key some_key.

Lemma algos_ok i c : alg_ok i -> alg_ok c -> params_ok (algos i c).
Proof.
  intros Hi Hc. assert (key_ok some_key) by (split; [reflexivity|repeat constructor; discriminate]). by split_and!.
Qed.

Definition drb (gnb : bool) (rb t integrity ciphering : Z) : outcome nr_pdcp_entity_t :=
  new_nr_pdcp_entity NR_PDCP_DRB_AM gnb rb 10 false false 12 t (-1) (algos integrity ciphering).

(** ** Two peers *)

(** The conditions on concrete events. *)
Ltac link_events :=
  repeat (split; [cbn [link_event_ok];
                  first [exact I | split; [repeat constructor; discriminate|vm_compute; intuition congruence]
                        | vm_compute; intuition congruence]|
                  let H := fresh in intros ? H; vm_compute in H; injection H as <-]);
  exact I.

Definition some_events : list link_event :=
  [LTick 1; LSend [1; 2; 3]; LSend [4; 5]; LSend [6]; LReceive 1; LReceive 0; LReceive 1; LTick 50].

Lemma pdcp_end_to_end_witness :
  exists tx rx, drb true 1 40 2 2 = Ok tx /\ drb false 1 40 2 2 = Ok rx /\
  exists l, link_run (mk_link tx rx [] [] []) some_events = Ok l /\
    increasing (counts (delivered (l_rx l))) /\
    (forall s, s ∈ delivered (l_rx l) -> zget (l_sent l) (ps_count s) = Some (ps_buffer s)) /\
    (forall i, i ∈ l_arrived l -> i < rx_deliv (l_rx l) ->
       exists s, s ∈ delivered (l_rx l) /\ ps_count s = i) /\
    (forall i, i ∈ l_arrived l -> rx_deliv (l_rx l) <= i ->
       exists s, s ∈ rx_list (l_rx l) /\ ps_count s = i /\ zget (l_sent l) i = Some (ps_buffer s)).
Proof.
  eexists _, _. split; [vm_compute; reflexivity|]. split; [vm_compute; reflexivity|].
  apply (pdcp_end_to_end NR_PDCP_DRB_AM 1 10 false false 12 40 (-1) (algos 2 2)).
  - by left.
  - apply algos_ok; unfold alg_ok; auto.
  - lia.
  - lia.
  - vm_compute. reflexivity.
  - vm_compute. reflexivity.
  - link_events.
Defined.

(** With SNOW 3G: both SDUs arrive, in order. *)
Example pdcp_snow3g_in_order :
  (tx ← drb true 1 40 1 1; rx ← drb false 1 40 1 1;
   l ← link_run (mk_link tx rx [] [] []) some_events;
   Ok (ps_buffer <$> delivered (l_rx l))) = Ok [[1; 2; 3]; [4; 5]].
Proof. vm_compute. reflexivity. Qed.

(** ** One entity *)

(** An entity that has received PDU 2 of its peer, at time 7. *)
Definition waiting : outcome nr_pdcp_entity_t :=
  tx ← drb true 1 40 2 2; rx ← drb false 1 40 2 2;
  l ← link_run (mk_link tx rx [] [] []) [LTick 7; LSend [1]; LSend [2]; LSend [3]; LReceive 2];
  Ok (l_rx l).

Ltac record_facts :=
  repeat match goal with
  | |- conf_ok _ => split; cbn; auto
  | |- sec_inv _ => split; cbn; [split; [reflexivity|repeat constructor; discriminate]
      |split; [reflexivity|repeat constructor; discriminate]
      |by split; [eexists|]|by intros ? [= <-]|by split; [eexists|]|by intros ? [= <-]]
  end.

Lemma waiting_ok : exists e, waiting = Ok e /\ conf_ok e /\ sec_inv e /\ rx_inv e /\ timer_runs e /\ rx_list e <> [] /\
  t_reordering e = 40 /\ t_reordering_start e = 7 /\ entity_suspended e = false /\ bearer_ok e /\ rx_deliv e = 0 /\
  window_size e = 2048 /\ sn_max e = 4095.
Proof.
  eexists. split; [vm_compute; reflexivity|]. split; [record_facts|]. split; [record_facts|]. split.
  { split; [split|]; cbn; try lia.
    - repeat constructor.
    - intros c Hc. apply list_elem_of_singleton in Hc. lia.
    - intros _. set_solver.
    - constructor.
    - intros c Hc. by apply not_elem_of_nil in Hc. }
  split; [done|]. split; [done|]. split_and!; done.
Qed.



Lemma pdcp_count_recovered_witness :
  exists e, waiting = Ok e /\ rcvd_count_of e (Z.land 2000 (sn_max e)) = 2000 /\
    (Z.land 2000 (sn_max e) = Z.land 5 (sn_max e) -> 2000 = 5).
Proof.
  destruct waiting_ok as (e & E & H1 & _ & _ & _ & _ & _ & _ & _ & _ & H2 & H3 & _). exists e. split; [exact E|].
  apply (pdcp_count_recovered e 2000 5 H1); rewrite ?H2, ?H3; lia.
Defined.

Definition some_management : list pdcp_management :=
  [MSetSecurity (algos 1 2); MSuspend; MReestablish (algos 2 1); MSetSecurity (algos 0 (-1)); MSetTime 3; MRelease].


Lemma pdcp_reestablish_exact_witness :
  exists e, waiting = Ok e /\
  exists e', reestablish_entity e (algos 1 1) = Ok e' /\ sec_inv e' /\ entity_suspended e' = false /\
    security_keys_and_algos e' = update_keys (security_keys_and_algos e) (algos 1 1) /\
    match pdcp_type e with
    | NR_PDCP_DRB_AM => tx_next e' = tx_next e /\ rx_next e' = rx_next e /\ rx_deliv e' = rx_deliv e /\
        rx_list e' = rx_list e /\ delivered e' = delivered e /\ t_reordering_start e' = t_reordering_start e
    | NR_PDCP_DRB_UM => tx_next e' = 0 /\ rx_next e' = 0 /\ rx_deliv e' = 0 /\ t_reordering_start e' = 0 /\
        if t_reordering_start e =? 0 then rx_list e' = rx_list e /\ delivered e' = delivered e
        else rx_list e' = [] /\ delivered e' = delivered e ++ rx_list e
    | NR_PDCP_SRB => tx_next e' = 0 /\ rx_next e' = 0 /\ rx_deliv e' = 0 /\ t_reordering_start e' = 0 /\
        rx_list e' = [] /\ delivered e' = delivered e
    end.
Proof.
  destruct waiting_ok as (e & E & _ & H2 & _). exists e. split; [exact E|].
  apply (pdcp_reestablish_exact e (algos 1 1) H2). apply algos_ok; unfold alg_ok; auto.
Defined.

(** ** Outside of the hypotheses *)

(** A PDU of one byte is read one byte further than its buffer, before its
    size is looked at. *)
Example pdcp_one_byte_read_outside :
  (e ← drb true 1 40 2 2; nr_pdcp_entity_recv_pdu e [128] 1) = Fault OutOfBounds.
Proof. vm_compute. reflexivity. Qed.

(** At HFN 0 a SN of half the space or more gives HFN 0 - 1 = 2^20 - 1 on the
    bits kept, a COUNT that is negative as an [int]: NEA2 asserts, before the
    MAC-I is looked at.  A new entity is ended by one forged PDU. *)
Example pdcp_forged_sn_ends_process :
  (e ← drb true 1 40 2 2; nr_pdcp_entity_recv_pdu e [0x88; 0; 1; 2; 3; 4; 5] 7) = Fault Exit.
Proof. vm_compute. reflexivity. Qed.

(** Without ciphering and integrity the same PDU is stored with a COUNT near
    2^32; when the timer expires it is delivered and RX_DELIV follows it, so
    that every PDU of the peer is then discarded. *)
Example pdcp_forged_sn_blocks_bearer :
  (e ← drb true 1 40 0 0;
   let e := nr_pdcp_entity_set_time e 1 in
   e ← nr_pdcp_entity_recv_pdu e [0x88; 0; 9] 3;
   let e := nr_pdcp_entity_set_time e 42 in
   e ← nr_pdcp_entity_recv_pdu e [0x80; 0; 1] 3;
   e ← nr_pdcp_entity_recv_pdu e [0x80; 1; 2] 3;
   Ok (rx_deliv e, ps_buffer <$> delivered e, p_rxpdu_dd_pkts (pdcp_stats e))) = Ok (2 ^ 32 - 2047, [[9]], 2).
Proof. vm_compute. reflexivity. Qed.

(** DRB 32 is a legal identity; NEA2 asserts that it is below 32. *)
Example pdcp_nea2_refuses_drb_32 :
  (e ← drb true 32 40 0 2; nr_pdcp_entity_process_sdu e [1; 2] 2 100) = Fault Exit.
Proof. vm_compute. reflexivity. Qed.

(** With an SDAP header and no integrity, an SDU that is a header alone (an
    end marker) leaves nothing to cipher: NEA2 asserts.  The receiver would
    refuse it as too short. *)
Example pdcp_nea2_refuses_end_marker :
  (e ← new_nr_pdcp_entity NR_PDCP_DRB_AM false 1 10 true true 12 40 (-1) (algos 0 2);
   nr_pdcp_entity_process_sdu e [0x05] 1 100) = Fault Exit.
Proof. vm_compute. reflexivity. Qed.

(** [rx_size] counts the MAC-I when an SDU is stored and not when it is
    delivered: four bytes stay for each. *)
Example pdcp_rx_size_keeps_mac :
  (tx ← drb true 1 40 2 2; rx ← drb false 1 40 2 2;
   l ← link_run (mk_link tx rx [] [] []) [LSend [1]; LReceive 0; LSend [2]; LReceive 1];
   Ok (rx_list (l_rx l), rx_size (l_rx l))) = Ok ([], 8).
Proof. vm_compute. reflexivity. Qed.
