(* ===== verification/Sdap.v ===== *)
(** * SDAP (openair2/SDAP/nr_sdap/nr_sdap_entity.c, nr_sdap.c)

    The list of SDAP entities, one per UE and PDU session, the mapping of QoS
    flows to bearers each of them keeps, and the data path between PDCP and
    the upper layers (GTP-U at the gNB, the tunnel interface at the UE).

    A pointer to an entity is the entity itself: an operation returns the
    changed entity, which takes the place of the old one in the list.  The
    function pointers of an entity are set once, to the functions below.  Calls
    of other layers are recorded as events; what [nr_pdcp_data_req_drb]
    answers is an argument. *)

From S2P Require Import Prelude.

Definition SDAP_MAX_QFI : Z := 64.
Definition SDAP_MAP_RULE_EMPTY : Z := 0.
Definition SDAP_NO_MAPPING_RULE : Z := 0.
Definition AVLBL_DRB : Z := 5.
Definition SDAP_HDR_LENGTH : Z := 1.
Definition SDAP_HDR_UL_DATA_PDU : Z := 1.
Definition SDAP_HDR_UL_CTRL_PDU : Z := 0.
Definition SDAP_REFLECTIVE_MAPPING : Z := 1.
Definition SDAP_CTRL_PDU_MAP_DEF_DRB : Z := 0.
Definition SDAP_CTRL_PDU_MAP_RULE_DRB : Z := 1.
Definition SDAP_MAX_PDU : Z := 9000.
Definition NGAP_MAX_PDU_SESSION : Z := 256.
Definition SDAP_MAX_UE_ID : Z := 65536.
Definition MAX_DRBS_PER_UE : Z := 32.
(** Without UE_EXPANSION and LARGE_SCALE. *)
Definition MAX_MOBILES_PER_ENB : Z := 40.
Definition SDAP_MAX_NUM_OF_ENTITIES : Z := MAX_DRBS_PER_UE * MAX_MOBILES_PER_ENB.
Definition RLC_MUI_UNDEFINED : Z := 0.
Definition PDCP_TRANSMISSION_MODE_UNKNOWN : Z := 0.

(** ** Headers: one byte, first field in the low order bits *)

Record nr_sdap_dl_hdr_t := mk_dl_hdr { dl_QFI : Z; dl_RQI : Z; dl_RDI : Z }.
Record nr_sdap_ul_hdr_t := mk_ul_hdr { ul_QFI : Z; ul_R : Z; ul_DC : Z }.

(** Assignment to a bit-field of [w] bits. *)
Definition bits_field (w x : Z) : Z := Z.land x (Z.ones w).

Definition dl_hdr_byte (h : nr_sdap_dl_hdr_t) : Z :=
  Z.lor (dl_QFI h) (Z.lor (Z.shiftl (dl_RQI h) 6) (Z.shiftl (dl_RDI h) 7)).
Definition ul_hdr_byte (h : nr_sdap_ul_hdr_t) : Z :=
  Z.lor (ul_QFI h) (Z.lor (Z.shiftl (ul_R h) 6) (Z.shiftl (ul_DC h) 7)).

Definition dl_hdr_of (b : Z) : nr_sdap_dl_hdr_t :=
  mk_dl_hdr (bits_field 6 b) (bits_field 1 (Z.shiftr b 6)) (bits_field 1 (Z.shiftr b 7)).
Definition ul_hdr_of (b : Z) : nr_sdap_ul_hdr_t :=
  mk_ul_hdr (bits_field 6 b) (bits_field 1 (Z.shiftr b 6)) (bits_field 1 (Z.shiftr b 7)).

(** ** Data *)

Record qfi2drb_t := mk_qfi2drb { q_drb_id : Z; q_has_sdap_rx : bool; q_has_sdap_tx : bool }.
#[export] Instance eta_qfi2drb : RecordEta qfi2drb_t :=
  fld (fld (fld (fun _ => mk_qfi2drb) q_drb_id) q_has_sdap_rx) q_has_sdap_tx.

Record nr_sdap_entity_t := mk_sdap {
  se_ue_id : Z;
  se_default_drb : Z;
  se_pdusession_id : Z;
  qfi2drb_table : list qfi2drb_t;
}.
#[export] Instance eta_sdap : RecordEta nr_sdap_entity_t :=
  fld (fld (fld (fld (fun _ => mk_sdap) se_ue_id) se_default_drb) se_pdusession_id) qfi2drb_table.

(** The arguments of [nr_pdcp_data_req_drb]; [pr_ue_id] is the identity in the
    context. *)
Record pdcp_req_t := mk_pdcp_req {
  pr_ue_id : Z;
  pr_srb_flag : bool;
  pr_rb_id : Z;
  pr_mui : Z;
  pr_confirm : Z;
  pr_size : Z;
  pr_buffer : list Z;
  pr_pt_mode : Z;
}.

Inductive sdap_event : Type :=
| PdcpDataReqDrb (req : pdcp_req_t)
| GtpTunnelDataReq (instance ue_id bearer_id : Z) (data : list Z)
| NasWrite (data : list Z).

(** The part of [NR_SDAP_Config_t] the code reads.  A list is the array of
    pointers of the ASN.1 structure, by the values pointed to. *)
Record NR_SDAP_Config_t := mk_sdap_config {
  sdap_HeaderDL : Z;
  sdap_HeaderUL : Z;
  mappedQoS_FlowsToAdd : option (list Z);
  mappedQoS_FlowsToRelease : option (list Z);
}.
Definition NR_SDAP_Config__sdap_Header_present : Z := 0.

Definition is_sdap_rx (is_gnb : bool) (c : NR_SDAP_Config_t) : bool :=
  if is_gnb then sdap_HeaderUL c =? NR_SDAP_Config__sdap_Header_present
  else sdap_HeaderDL c =? NR_SDAP_Config__sdap_Header_present.

Definition is_sdap_tx (is_gnb : bool) (c : NR_SDAP_Config_t) : bool :=
  if is_gnb then sdap_HeaderDL c =? NR_SDAP_Config__sdap_Header_present
  else sdap_HeaderUL c =? NR_SDAP_Config__sdap_Header_present.

(** [qfi2drb_table[qfi]] *)
Definition table_get (e : nr_sdap_entity_t) (qfi : Z) : outcome qfi2drb_t :=
  of_option OutOfBounds (zget (qfi2drb_table e) qfi).
Definition table_set (e : nr_sdap_entity_t) (qfi : Z) (r : qfi2drb_t) : outcome nr_sdap_entity_t :=
  t ← of_option OutOfBounds (zset (qfi2drb_table e) qfi r);
  Ok (e <| qfi2drb_table := t |>).

(** ** Mapping rules *)

Definition nr_sdap_qfi2drb_map_update (e : nr_sdap_entity_t) (qfi drb : Z)
    (has_sdap_rx has_sdap_tx : bool) : outcome nr_sdap_entity_t :=
  if (qfi <? SDAP_MAX_QFI) && (qfi >? SDAP_MAP_RULE_EMPTY) && (drb >? 0) && (drb <=? AVLBL_DRB)
  then table_set e qfi (mk_qfi2drb drb has_sdap_rx has_sdap_tx)
  else Ok e.

Definition nr_sdap_qfi2drb_map_del (e : nr_sdap_entity_t) (qfi : Z) : outcome nr_sdap_entity_t :=
  r ← table_get e qfi;
  table_set e qfi (r <| q_drb_id := SDAP_NO_MAPPING_RULE |>).

Definition nr_sdap_qfi2drb_map (e : nr_sdap_entity_t) (qfi : Z) : outcome (nr_sdap_entity_t * Z) :=
  r ← table_get e qfi;
  if z2b (q_drb_id r) then Ok (e, q_drb_id r)
  else if z2b (se_default_drb e) then
    e ← nr_sdap_qfi2drb_map_update e qfi (se_default_drb e) (q_has_sdap_rx r) (q_has_sdap_tx r);
    Ok (e, se_default_drb e)
  else Ok (e, SDAP_MAP_RULE_EMPTY).

(** ** End markers *)

Definition nr_sdap_construct_ctrl_pdu (qfi : Z) : nr_sdap_ul_hdr_t :=
  mk_ul_hdr (bits_field 6 qfi) 0 SDAP_HDR_UL_CTRL_PDU.

Definition nr_sdap_map_ctrl_pdu (e : nr_sdap_entity_t) (pdcp_entity map_type dl_qfi : Z)
    : outcome (nr_sdap_entity_t * Z) :=
  let drb_of_endmarker := if map_type =? SDAP_CTRL_PDU_MAP_DEF_DRB then se_default_drb e else 0 in
  if map_type =? SDAP_CTRL_PDU_MAP_RULE_DRB then nr_sdap_qfi2drb_map e dl_qfi
  else Ok (e, drb_of_endmarker).

Definition nr_pdcp_submit_sdap_ctrl_pdu (ue_id sdap_ctrl_pdu_drb : Z) (ctrl_pdu : nr_sdap_ul_hdr_t)
    : sdap_event :=
  PdcpDataReqDrb (mk_pdcp_req ue_id false sdap_ctrl_pdu_drb RLC_MUI_UNDEFINED (b2z false)
    SDAP_HDR_LENGTH [ul_hdr_byte ctrl_pdu] PDCP_TRANSMISSION_MODE_UNKNOWN).

Definition nr_sdap_submit_ctrl_pdu (ue_id sdap_ctrl_pdu_drb : Z) (ctrl_pdu : nr_sdap_ul_hdr_t)
    : list sdap_event :=
  if z2b sdap_ctrl_pdu_drb then [nr_pdcp_submit_sdap_ctrl_pdu ue_id sdap_ctrl_pdu_drb ctrl_pdu] else [].

(** Construct, map and submit. *)
Definition send_end_marker (e : nr_sdap_entity_t) (ue_id pdcp_entity map_type qfi : Z)
    : outcome (nr_sdap_entity_t * list sdap_event) :=
  let sdap_ctrl_pdu := nr_sdap_construct_ctrl_pdu qfi in
  '(e, sdap_ctrl_pdu_drb) ← nr_sdap_map_ctrl_pdu e pdcp_entity map_type qfi;
  Ok (e, nr_sdap_submit_ctrl_pdu ue_id sdap_ctrl_pdu_drb sdap_ctrl_pdu).

(** ** Data path *)

(** The arguments of [tx_entity] that are handed on as they are. *)
Record sdap_tx_args_t := mk_tx_args {
  ta_enb_flag : bool; ta_ue_id : Z; ta_srb_flag : bool; ta_mui : Z; ta_confirm : Z; ta_pt_mode : Z;
}.
Definition data_req (a : sdap_tx_args_t) (rb_id size : Z) (buffer : list Z) : sdap_event :=
  PdcpDataReqDrb (mk_pdcp_req (ta_ue_id a) (ta_srb_flag a) rb_id (ta_mui a) (ta_confirm a) size
                    buffer (ta_pt_mode a)).

(** The header [nr_sdap_tx_entity] puts before the SDU. *)
Definition tx_header (enb_flag : bool) (qfi : Z) (rqi : bool) : Z :=
  if enb_flag then dl_hdr_byte (mk_dl_hdr (bits_field 6 qfi) (b2z rqi) 0)
  else ul_hdr_byte (mk_ul_hdr (bits_field 6 qfi) 0 (b2z rqi)).

Definition nr_sdap_tx_entity (e : nr_sdap_entity_t) (a : sdap_tx_args_t) (rb_id sdu_buffer_size : Z)
    (sdu_buffer : option (list Z)) (qfi : Z) (rqi accepted : bool)
    : outcome (nr_sdap_entity_t * list sdap_event * bool) :=
  sdu_buffer ← of_option Exit sdu_buffer;
  '(e, pdcp_entity) ← nr_sdap_qfi2drb_map e qfi;
  r ← table_get e qfi;
  let '(sdap_drb_id, pdcp_ent_has_sdap) :=
    if z2b pdcp_entity then (pdcp_entity, q_has_sdap_tx r) else (rb_id, false) in
  if negb pdcp_ent_has_sdap then
    Ok (e, [data_req a sdap_drb_id sdu_buffer_size sdu_buffer], accepted)
  else if (sdu_buffer_size =? 0) || (sdu_buffer_size >? 8999) then Ok (e, [], false)
  else
    (* sdap_buf: the header, then the SDU *)
    sdu ← of_option OutOfBounds (zslice sdu_buffer 0 sdu_buffer_size);
    _ ← require (SDAP_HDR_LENGTH + sdu_buffer_size <=? SDAP_MAX_PDU) OutOfBounds;
    let sdap_buf := tx_header (ta_enb_flag a) qfi rqi :: sdu in
    Ok (e, [data_req a sdap_drb_id (sdu_buffer_size + SDAP_HDR_LENGTH) sdap_buf], accepted).

(** Reflective mapping, clause 5.3.2. *)
Definition reflective_mapping (e : nr_sdap_entity_t) (ue_id pdcp_entity qfi : Z)
    : outcome (nr_sdap_entity_t * list sdap_event) :=
  r ← table_get e qfi;
  '(e, out1) ← (if negb (z2b (q_drb_id r)) && z2b (se_default_drb e)
                then send_end_marker e ue_id pdcp_entity SDAP_CTRL_PDU_MAP_DEF_DRB qfi
                else Ok (e, []));
  r ← table_get e qfi;
  '(e, out2) ← (if negb (pdcp_entity =? q_drb_id r)
                then send_end_marker e ue_id pdcp_entity SDAP_CTRL_PDU_MAP_RULE_DRB qfi
                else Ok (e, []));
  r ← table_get e qfi;
  e ← table_set e qfi (r <| q_drb_id := pdcp_entity |>);
  Ok (e, out1 ++ out2).

Definition nr_sdap_rx_entity (N3GTPUInst : option Z) (e : nr_sdap_entity_t) (pdcp_entity : Z)
    (is_gnb has_sdap_rx : bool) (pdusession_id ue_id : Z) (buf : list Z) (size : Z)
    : outcome (nr_sdap_entity_t * list sdap_event) :=
  let offset := if has_sdap_rx then SDAP_HDR_LENGTH else 0 in
  if is_gnb then
    (* the D/C bit is only logged *)
    _ ← (if has_sdap_rx then h ← of_option OutOfBounds (zget buf 0); Ok tt else Ok tt);
    data ← of_option OutOfBounds (zslice buf offset (size - offset));
    instance ← of_option NullDeref N3GTPUInst;
    Ok (e, [GtpTunnelDataReq instance ue_id pdusession_id data])
  else
    '(e, out) ←
      (if has_sdap_rx then
         h ← of_option OutOfBounds (zget buf 0);
         let sdap_hdr := dl_hdr_of h in
         if dl_RDI sdap_hdr =? SDAP_REFLECTIVE_MAPPING
         then reflective_mapping e ue_id pdcp_entity (dl_QFI sdap_hdr)
         else Ok (e, [])
       else Ok (e, []));
    data ← of_option OutOfBounds (zslice buf offset (size - offset));
    Ok (e, out ++ [NasWrite data]).

(** ** Configuration *)

(** [p[i]] for a pointer to an object of the given elements. *)
Definition deref_at (p : option (list Z)) (i : Z) : outcome Z :=
  l ← of_option NullDeref p;
  of_option OutOfBounds (zget l i).

(** One QFI of [nr_sdap_ue_qfi2drb_config]. *)
Definition ue_qfi2drb_config_one (pdcp_entity ue_id : Z) (mapped_qfi_2_add : option (list Z))
    (drb_identity : Z) (has_sdap_rx has_sdap_tx : bool) (i : Z)
    (st : nr_sdap_entity_t * list sdap_event) : outcome (nr_sdap_entity_t * list sdap_event) :=
  let '(e, out) := st in
  v ← deref_at mapped_qfi_2_add i;
  let qfi := u8 v in
  '(e, out1) ←
    (if z2b (se_default_drb e) then
       r ← table_get e qfi;
       if q_drb_id r =? SDAP_NO_MAPPING_RULE
       then send_end_marker e ue_id pdcp_entity SDAP_CTRL_PDU_MAP_DEF_DRB qfi
       else Ok (e, [])
     else Ok (e, []));
  r ← table_get e qfi;
  '(e, out2) ←
    (if negb (q_drb_id r =? drb_identity) && q_has_sdap_tx r
     then send_end_marker e ue_id pdcp_entity SDAP_CTRL_PDU_MAP_RULE_DRB qfi
     else Ok (e, []));
  e ← nr_sdap_qfi2drb_map_update e qfi drb_identity has_sdap_rx has_sdap_tx;
  Ok (e, out ++ out1 ++ out2).

Definition nr_sdap_ue_qfi2drb_config (e : nr_sdap_entity_t) (pdcp_entity ue_id : Z)
    (mapped_qfi_2_add : option (list Z)) (mappedQFIs2AddCount drb_identity : Z)
    (has_sdap_rx has_sdap_tx : bool) : outcome (nr_sdap_entity_t * list sdap_event) :=
  cfor (Z.to_nat mappedQFIs2AddCount) 0
    (ue_qfi2drb_config_one pdcp_entity ue_id mapped_qfi_2_add drb_identity has_sdap_rx has_sdap_tx)
    (e, []).

(** ** The list of entities *)

(** [sdap_info] is the list, its head first; [nas_qfi] and [nas_pduid] are the
    globals of nr_sdap.c, [N3GTPUInst] the instance GTP-U registers. *)
Record sdap_state := mk_sdap_state {
  sdap_entity_llist : list nr_sdap_entity_t;
  N3GTPUInst : option Z;
  nas_qfi : Z;
  nas_pduid : Z;
}.
#[export] Instance eta_sdap_state : RecordEta sdap_state :=
  fld (fld (fld (fld (fun _ => mk_sdap_state) sdap_entity_llist) N3GTPUInst) nas_qfi) nas_pduid.

Definition sdap_is (e : nr_sdap_entity_t) (ue_id pdusession_id : Z) : bool :=
  (se_ue_id e =? ue_id) && (se_pdusession_id e =? pdusession_id).

(** The walk stops at the entity looked for or at the last one. *)
Fixpoint sdap_walk (e : nr_sdap_entity_t) (next : list nr_sdap_entity_t) (ue_id pdusession_id : Z)
    : nr_sdap_entity_t :=
  match next with
  | [] => e
  | e' :: next' => if negb (sdap_is e ue_id pdusession_id) then sdap_walk e' next' ue_id pdusession_id else e
  end.

Definition nr_sdap_get_entity (l : list nr_sdap_entity_t) (ue_id pdusession_id : Z)
    : option nr_sdap_entity_t :=
  match l with
  | [] => None
  | e :: next =>
      let e := sdap_walk e next ue_id pdusession_id in
      if sdap_is e ue_id pdusession_id then Some e else None
  end.

(** The object [nr_sdap_get_entity] found is changed in place. *)
Fixpoint sdap_put (l : list nr_sdap_entity_t) (e : nr_sdap_entity_t) : list nr_sdap_entity_t :=
  match l with
  | [] => []
  | x :: l' => if sdap_is x (se_ue_id e) (se_pdusession_id e) then e :: l' else x :: sdap_put l' e
  end.

(** The entity of a new PDU session. *)
Definition create_sdap_entity (has_sdap_rx has_sdap_tx : bool) (ue_id pdusession_id : Z)
    (is_defaultDRB : bool) (drb_identity : Z) (mapped_qfi_2_add : option (list Z))
    (mappedQFIs2AddCount : Z) : outcome nr_sdap_entity_t :=
  let e := mk_sdap ue_id 0 pdusession_id (replicate 64 (mk_qfi2drb 0 false false)) in
  if is_defaultDRB then
    cfor (Z.to_nat mappedQFIs2AddCount) 0
      (fun i e => v ← deref_at mapped_qfi_2_add i;
                  nr_sdap_qfi2drb_map_update e (u8 v) (se_default_drb e) has_sdap_rx has_sdap_tx)
      (e <| se_default_drb := drb_identity |>)
  else Ok e.

Definition new_nr_sdap_entity (l : list nr_sdap_entity_t) (is_gnb has_sdap_rx has_sdap_tx : bool)
    (ue_id pdusession_id : Z) (is_defaultDRB : bool) (drb_identity : Z)
    (mapped_qfi_2_add : option (list Z)) (mappedQFIs2AddCount : Z)
    : outcome (list nr_sdap_entity_t * list sdap_event * nr_sdap_entity_t) :=
  match nr_sdap_get_entity l ue_id pdusession_id with
  | Some e =>
      '(e, out) ← (if negb is_gnb
                   then nr_sdap_ue_qfi2drb_config e (se_default_drb e) ue_id mapped_qfi_2_add
                          mappedQFIs2AddCount drb_identity has_sdap_rx has_sdap_tx
                   else Ok (e, []));
      Ok (sdap_put l e, out, e)
  | None =>
      e ← create_sdap_entity has_sdap_rx has_sdap_tx ue_id pdusession_id is_defaultDRB drb_identity
            mapped_qfi_2_add mappedQFIs2AddCount;
      Ok (e :: l, [], e)
  end.

Definition release_rules (e : nr_sdap_entity_t) (drb_id : Z) : nr_sdap_entity_t :=
  e <| qfi2drb_table := map (fun r => if q_drb_id r =? drb_id
                                      then r <| q_drb_id := SDAP_NO_MAPPING_RULE |> else r)
                            (qfi2drb_table e) |>.

Definition nr_sdap_release_drb (l : list nr_sdap_entity_t) (ue_id drb_id pdusession_id : Z)
    : list nr_sdap_entity_t :=
  match nr_sdap_get_entity l ue_id pdusession_id with
  | Some e => sdap_put l (release_rules e drb_id)
  | None => l
  end.

(** The loop of [nr_sdap_delete_entity] from an entity that does not match, and
    the deletion of the entity it stops at; [upperBound] counts the steps. *)
Fixpoint sdap_unlink (prev : nr_sdap_entity_t) (l : list nr_sdap_entity_t)
    (ue_id pdusession_id upperBound : Z) : list nr_sdap_entity_t * bool :=
  match l with
  | [] => ([prev], false)
  | e :: next =>
      if upperBound <? SDAP_MAX_NUM_OF_ENTITIES then
        if sdap_is e ue_id pdusession_id then (prev :: next, true)
        else let '(l', ret) := sdap_unlink e next ue_id pdusession_id (upperBound + 1) in (prev :: l', ret)
      else (prev :: l, false)
  end.

Definition nr_sdap_delete_entity (l : list nr_sdap_entity_t) (ue_id pdusession_id : Z)
    : outcome (list nr_sdap_entity_t * bool) :=
  match l with
  | [] =>
      if i32 (u32 (pdusession_id * (pdusession_id - NGAP_MAX_PDU_SESSION))) >? 0 then Ok (l, false)
      else Fault NullDeref
  | e :: next =>
      if sdap_is e ue_id pdusession_id then Ok (next, true)
      else Ok (sdap_unlink e next ue_id pdusession_id 0)
  end.

(** The two loops of [nr_sdap_delete_ue_entities]; [upperBound] stays 0. *)
Fixpoint drop_ue_head (l : list nr_sdap_entity_t) (ue_id : Z) (ret : bool)
    : list nr_sdap_entity_t * bool :=
  match l with
  | [] => ([], ret)
  | e :: next => if se_ue_id e =? ue_id then drop_ue_head next ue_id true else (l, ret)
  end.

Fixpoint drop_ue_rest (prev : bool) (l : list nr_sdap_entity_t) (ue_id : Z) (ret : bool)
    : outcome (list nr_sdap_entity_t * bool) :=
  match l with
  | [] => Ok ([], ret)
  | e :: next =>
      if negb (se_ue_id e =? ue_id) then
        '(l', ret) ← drop_ue_rest true next ue_id ret; Ok (e :: l', ret)
      else
        (* entityPrev->next_entity is written *)
        _ ← require prev NullDeref;
        drop_ue_rest prev next ue_id true
  end.

Definition nr_sdap_delete_ue_entities (l : list nr_sdap_entity_t) (ue_id : Z)
    : outcome (list nr_sdap_entity_t * bool) :=
  if bool_decide (l = []) && (u64 (ue_id * u64 (ue_id - SDAP_MAX_UE_ID)) >? 0) then Ok (l, false)
  else
    let '(l, ret) := drop_ue_head l ue_id false in
    drop_ue_rest false l ue_id ret.

(** The object [list.array[0]] points to: a single QFI.  An empty list has no
    array. *)
Definition first_qfi (l : list Z) : outcome (option (list Z)) :=
  match l with
  | [] => Fault NullDeref
  | q :: _ => Ok (Some [q])
  end.

Definition reconfigure_entity (e : nr_sdap_entity_t) (sdap_config : NR_SDAP_Config_t)
    (ue_id drb_id : Z) : outcome (nr_sdap_entity_t * list sdap_event) :=
  to_add ← of_option NullDeref (mappedQoS_FlowsToAdd sdap_config);
  mappedQFIs2Add ← first_qfi to_add;
  '(e, out) ← nr_sdap_ue_qfi2drb_config e (se_default_drb e) ue_id mappedQFIs2Add
                (u8 (zlen to_add)) (u8 drb_id)
                (is_sdap_rx false sdap_config) (is_sdap_tx false sdap_config);
  e ← (match mappedQoS_FlowsToRelease sdap_config with
       | None => Ok e
       | Some to_release =>
           mappedQFIs2release ← first_qfi to_release;
           cfor (Z.to_nat (u8 (zlen to_release))) 0
             (fun i e => v ← deref_at mappedQFIs2release i; nr_sdap_qfi2drb_map_del e (u8 v)) e
       end);
  Ok (e, out).

Definition nr_reconfigure_sdap_entity (l : list nr_sdap_entity_t) (sdap_config : NR_SDAP_Config_t)
    (ue_id pdusession_id drb_id : Z) : outcome (list nr_sdap_entity_t * list sdap_event) :=
  match nr_sdap_get_entity l ue_id pdusession_id with
  | None => Ok (l, [])
  | Some e =>
      '(e, out) ← reconfigure_entity e sdap_config ue_id drb_id;
      Ok (sdap_put l e, out)
  end.

(** ** nr_sdap.c *)

Definition sdap_data_req (l : list nr_sdap_entity_t) (a : sdap_tx_args_t) (ue_id rb_id sdu_buffer_size : Z)
    (sdu_buffer : option (list Z)) (qfi : Z) (rqi : bool) (pdusession_id : Z) (accepted : bool)
    : outcome (list nr_sdap_entity_t * list sdap_event * bool) :=
  match nr_sdap_get_entity l ue_id pdusession_id with
  | None => Ok (l, [], false)
  | Some e =>
      '(e, out, ret) ← nr_sdap_tx_entity e a rb_id sdu_buffer_size sdu_buffer qfi rqi accepted;
      Ok (sdap_put l e, out, ret)
  end.

Definition sdap_data_ind (l : list nr_sdap_entity_t) (N3GTPUInst : option Z) (pdcp_entity : Z)
    (is_gnb has_sdap_rx : bool) (pdusession_id ue_id : Z) (buf : list Z) (size : Z)
    : outcome (list nr_sdap_entity_t * list sdap_event) :=
  match nr_sdap_get_entity l ue_id pdusession_id with
  | None => Ok (l, [])
  | Some e =>
      '(e, out) ← nr_sdap_rx_entity N3GTPUInst e pdcp_entity is_gnb has_sdap_rx pdusession_id ue_id buf size;
      Ok (sdap_put l e, out)
  end.

Definition set_qfi_pduid (st : sdap_state) (qfi pduid : Z) : sdap_state :=
  st <| nas_qfi := qfi |> <| nas_pduid := pduid |>.
