(* ===== verification/SdapList.v ===== *)
(** * The list of SDAP entities as a map (openair2/SDAP/nr_sdap)

    The abstract state is a finite map from UE and PDU session to entity.  A
    lookup in the list is a lookup in the map, and each operation on the list
    is the operation of the same name on the map. *)

From S2P Require Import Prelude Sdap.

Definition sdap_key (e : nr_sdap_entity_t) : Z * Z := (se_ue_id e, se_pdusession_id e).

Abbreviation keys := (fmap (M:=list) sdap_key).

Definition sdap_map (l : list nr_sdap_entity_t) : gmap (Z * Z) nr_sdap_entity_t :=
  list_to_map ((fun e => (sdap_key e, e)) <$> l).
Arguments sdap_map : simpl never.

Lemma sdap_is_key e u p : sdap_is e u p = bool_decide (sdap_key e = (u, p)).
Proof.
  unfold sdap_is, sdap_key. apply eq_bool_prop_intro. rewrite bool_decide_spec, andb_True, !Is_true_true, !Z.eqb_eq.
  naive_solver congruence.
Qed.

Lemma sdap_map_cons e l : sdap_map (e :: l) = <[sdap_key e := e]> (sdap_map l).
Proof. reflexivity. Qed.

Lemma get_entity_walk e l u p :
  (let x := sdap_walk e l u p in if sdap_is x u p then Some x else None) = sdap_map (e :: l) !! (u, p).
Proof.
  revert e. induction l as [|e' l IH]; intros e; cbn [sdap_walk]; rewrite sdap_map_cons, lookup_insert.
  - rewrite sdap_is_key. case_bool_decide; case_decide; naive_solver.
  - destruct (sdap_is e u p) eqn:E; rewrite sdap_is_key in E; cbn [negb].
    + apply bool_decide_eq_true in E. rewrite sdap_is_key, bool_decide_true by done.
      by rewrite decide_True.
    + apply bool_decide_eq_false in E. rewrite decide_False by done. apply IH.
Qed.

(** The code's search is the lookup. *)
Lemma get_entity_lookup l u p : nr_sdap_get_entity l u p = sdap_map l !! (u, p).
Proof. destruct l as [|e l]; [done|]. apply get_entity_walk. Qed.

Lemma sdap_map_Some l k e :
  NoDup (keys l) -> sdap_map l !! k = Some e <-> e ∈ l /\ sdap_key e = k.
Proof.
  intros Hnd. unfold sdap_map. rewrite <- elem_of_list_to_map.
  - rewrite list_elem_of_fmap. naive_solver.
  - rewrite <- list_fmap_compose. exact Hnd.
Qed.

Lemma sdap_map_None l k : sdap_map l !! k = None <-> k ∉ keys l.
Proof.
  unfold sdap_map. rewrite <- not_elem_of_list_to_map, <- list_fmap_compose. done.
Qed.

Lemma sdap_map_key l k e : sdap_map l !! k = Some e -> sdap_key e = k.
Proof.
  intros H. unfold sdap_map in H. apply elem_of_list_to_map_2 in H.
  apply list_elem_of_fmap in H. naive_solver.
Qed.

Lemma put_keys l e : keys (sdap_put l e) = keys l.
Proof.
  induction l as [|x l IH]; [done|]. cbn [sdap_put].
  rewrite sdap_is_key. case_bool_decide as E; cbn; [|by rewrite IH].
  unfold sdap_key in *. by rewrite E.
Qed.

Lemma put_length l e : length (sdap_put l e) = length l.
Proof. by rewrite <- (length_fmap sdap_key), put_keys, length_fmap. Qed.

(** Changing an entity in place is an insertion. *)
Lemma put_insert l e : is_Some (sdap_map l !! sdap_key e) -> sdap_map (sdap_put l e) = <[sdap_key e := e]> (sdap_map l).
Proof.
  induction l as [|x l IH]; intros Hs; [by destruct Hs|]. cbn [sdap_put].
  rewrite sdap_is_key. change (se_ue_id e, se_pdusession_id e) with (sdap_key e).
  rewrite sdap_map_cons in *. case_bool_decide as E.
  - rewrite sdap_map_cons, E. by rewrite insert_insert_eq.
  - rewrite sdap_map_cons, insert_insert_ne by done. f_equal. apply IH.
    by rewrite lookup_insert_ne in Hs.
Qed.

Lemma sdap_map_size l : NoDup (keys l) -> size (sdap_map l) = length l.
Proof.
  induction l as [|e l IH]; intros Hnd; [done|]. cbn in Hnd. apply NoDup_cons in Hnd as [Hn Hnd].
  rewrite sdap_map_cons, map_size_insert_None, IH; [done|done|by apply sdap_map_None].
Qed.

Lemma sdap_map_empty l : sdap_map l = ∅ <-> l = [].
Proof.
  split; [|by intros ->]. destruct l as [|e l]; [done|]. rewrite sdap_map_cons.
  intros H. by destruct (insert_non_empty _ _ _ H).
Qed.

Section Filter.
Context (P : nr_sdap_entity_t -> Prop) `{!forall e, Decision (P e)}.

Lemma filter_keys_in (k : Z * Z) (l : list nr_sdap_entity_t) : k ∈ keys (base.filter P l) -> k ∈ keys l.
Proof. rewrite !list_elem_of_fmap. intros (e & -> & [_ ?]%list_elem_of_filter). eauto. Qed.

Lemma filter_keys (l : list nr_sdap_entity_t) : NoDup (keys l) -> NoDup (keys (base.filter P l)).
Proof.
  induction l as [|e l IH]; intros Hnd; [done|]. cbn in Hnd. apply NoDup_cons in Hnd as [Hn Hnd].
  rewrite filter_cons. case_decide; [|by apply IH]. cbn. constructor; [|by apply IH].
  intros ?%filter_keys_in. done.
Qed.

Lemma filter_whole (l : list nr_sdap_entity_t) : (forall e, e ∈ l -> P e) -> base.filter P l = l.
Proof.
  induction l as [|e l IH]; intros Hall; [done|].
  rewrite filter_cons_True by (apply Hall; set_solver). f_equal. apply IH. set_solver.
Qed.

(** Entities filtered from the list are the ones filtered from the map. *)
Lemma filter_lookup l k e : NoDup (keys l) ->
  sdap_map (base.filter P l) !! k = Some e <-> sdap_map l !! k = Some e /\ P e.
Proof.
  intros Hnd. rewrite (sdap_map_Some _ _ _ (filter_keys _ Hnd)), (sdap_map_Some _ _ _ Hnd).
  rewrite list_elem_of_filter. tauto.
Qed.
End Filter.

Lemma sdap_delete_map l k : NoDup (keys l) ->
  sdap_map (base.filter (fun e => sdap_key e <> k) l) = delete k (sdap_map l).
Proof.
  intros Hnd. apply map_eq. intros j. apply option_eq. intros e.
  rewrite filter_lookup, lookup_delete_Some by done.
  split; [intros [H1 H2]|intros [H2 H1]]; split; try done; pose proof (sdap_map_key _ _ _ H1); congruence.
Qed.

(** ** Deletions *)

Lemma unlink_filter prev l u p ub :
  NoDup (keys (prev :: l)) -> sdap_key prev <> (u, p) -> ub + zlen l <= SDAP_MAX_NUM_OF_ENTITIES ->
  sdap_unlink prev l u p ub
  = (base.filter (fun e => sdap_key e <> (u, p)) (prev :: l), bool_decide ((u, p) ∈ keys l)).
Proof.
  revert prev ub. induction l as [|e l IH]; intros prev ub Hnd Hp Hub; cbn [sdap_unlink].
  - rewrite filter_cons, decide_True by done. rewrite bool_decide_false; [done|]. set_solver.
  - rewrite zlen_cons in Hub. pose proof (zlen_nonneg l).
    destruct (ub <? _) eqn:E; zify_bool; [|lia].
    rewrite fmap_cons in Hnd. apply NoDup_cons in Hnd as [Hn1 Hnd]. pose proof Hnd as Hnd'.
    rewrite fmap_cons in Hnd'. apply NoDup_cons in Hnd' as [Hn2 _].
    rewrite sdap_is_key. destruct (decide (sdap_key e = (u, p))) as [Ek|Ek];
      [rewrite (bool_decide_true (_ = _)) by done|rewrite (bool_decide_false (_ = _)) by done].
    + rewrite filter_cons_True by done. rewrite filter_cons_False by (intros Hk; by apply Hk). f_equal.
      * f_equal. symmetry. apply filter_whole. intros x Hx Hk. apply Hn2.
        rewrite Ek, <- Hk. by apply list_elem_of_fmap_2.
      * symmetry. apply bool_decide_true. rewrite <- Ek. cbn. set_solver.
    + rewrite IH by (done || lia). rewrite (filter_cons _ prev), decide_True by done.
      do 2 f_equal. apply bool_decide_ext. cbn. set_solver.
Qed.

Lemma delete_entity_filter l u p :
  l <> [] -> NoDup (keys l) -> zlen l <= SDAP_MAX_NUM_OF_ENTITIES + 1 ->
  nr_sdap_delete_entity l u p
  = Ok (base.filter (fun e => sdap_key e <> (u, p)) l, bool_decide ((u, p) ∈ keys l)).
Proof.
  intros Hne Hnd Hl. destruct l as [|e l]; [done|]. cbn [nr_sdap_delete_entity].
  rewrite zlen_cons in Hl. pose proof Hnd as Hnd'. rewrite fmap_cons in Hnd'. apply NoDup_cons in Hnd' as [Hn _].
  rewrite sdap_is_key. destruct (decide (sdap_key e = (u, p))) as [Ek|Ek];
    [rewrite (bool_decide_true (_ = _)) by done|rewrite (bool_decide_false (_ = _)) by done].
  - rewrite filter_cons_False by (intros Hk; by apply Hk). do 2 f_equal.
    + symmetry. apply filter_whole. intros x Hx Hk. apply Hn.
      rewrite Ek, <- Hk. by apply list_elem_of_fmap_2.
    + symmetry. apply bool_decide_true. rewrite <- Ek. cbn. set_solver.
  - rewrite unlink_filter by (done || lia). do 2 f_equal. apply bool_decide_ext. cbn. set_solver.
Qed.

Definition other_ue (ue_id : Z) (e : nr_sdap_entity_t) : Prop := se_ue_id e <> ue_id.
#[export] Instance other_ue_dec u e : Decision (other_ue u e).
Proof. unfold other_ue. apply _. Defined.

Lemma drop_ue_rest_filter l u ret :
  drop_ue_rest true l u ret
  = Ok (base.filter (other_ue u) l, ret || existsb (fun e => se_ue_id e =? u) l).
Proof.
  revert ret. induction l as [|e l IH]; intros ret; cbn [drop_ue_rest existsb].
  - by rewrite orb_false_r.
  - rewrite filter_cons. destruct (se_ue_id e =? u) eqn:E; cbn [negb require mbind outcome_bind]; zify_bool.
    + rewrite IH, decide_False by (unfold other_ue; lia). by rewrite orb_true_l, orb_true_r.
    + rewrite IH, decide_True by (unfold other_ue; lia). done.
Qed.

Lemma delete_ue_filter l u :
  nr_sdap_delete_ue_entities l u
  = Ok (base.filter (other_ue u) l, existsb (fun e => se_ue_id e =? u) l).
Proof.
  unfold nr_sdap_delete_ue_entities.
  destruct (_ && _) eqn:E.
  { apply andb_true_iff in E as [E _]. apply bool_decide_eq_true in E. by subst. }
  assert (forall ret, (let '(l, ret) := drop_ue_head l u ret in drop_ue_rest false l u ret)
    = Ok (base.filter (other_ue u) l, ret || existsb (fun e => se_ue_id e =? u) l)) as H; [|apply H].
  clear E. induction l as [|e l IH]; intros ret; cbn [drop_ue_head existsb]; [by rewrite orb_false_r|].
  rewrite filter_cons. destruct (se_ue_id e =? u) eqn:E; zify_bool.
  - rewrite IH, decide_False by (unfold other_ue; lia). by rewrite orb_true_l, orb_true_r.
  - cbn [drop_ue_rest]. destruct (se_ue_id e =? u) eqn:E'; zify_bool; [lia|].
    cbn [negb]. by rewrite drop_ue_rest_filter, decide_True by (unfold other_ue; lia).
Qed.

Lemma delete_ue_map l u : NoDup (keys l) ->
  sdap_map (base.filter (other_ue u) l) = filter (fun kv => fst (fst kv) <> u) (sdap_map l).
Proof.
  intros Hnd. apply map_eq. intros j. apply option_eq. intros e.
  rewrite filter_lookup, map_lookup_filter_Some by done.
  split; intros [H1 H2]; split; try done; pose proof (sdap_map_key _ _ _ H1) as <-; done.
Qed.
