(* ===== verification/SdapRefine.v ===== *)
(** * The SDAP layer refines a map of entities (openair2/SDAP/nr_sdap)

    Sequences of calls of the SDAP interface on the linked list, and the same
    calls on a finite map from UE and PDU session to entity; the results,
    the messages sent and the faults are the same. *)

From S2P Require Import Prelude Sdap SdapList.

(** ** The key of an entity never changes *)

Lemma table_set_key e q r e' : table_set e q r = Ok e' -> sdap_key e' = sdap_key e.
Proof. intros H. unfold table_set in H. bind_inv. by subst e'. Qed.

Lemma map_update_key e q d rx tx e' :
  nr_sdap_qfi2drb_map_update e q d rx tx = Ok e' -> sdap_key e' = sdap_key e.
Proof. unfold nr_sdap_qfi2drb_map_update. intros H. bind_inv; [by eapply table_set_key|by subst]. Qed.

Lemma map_del_key e q e' : nr_sdap_qfi2drb_map_del e q = Ok e' -> sdap_key e' = sdap_key e.
Proof. unfold nr_sdap_qfi2drb_map_del. intros H. bind_inv. by eapply table_set_key. Qed.

Lemma qfi2drb_map_key e q e' d : nr_sdap_qfi2drb_map e q = Ok (e', d) -> sdap_key e' = sdap_key e.
Proof.
  unfold nr_sdap_qfi2drb_map. intros H. bind_inv; simplify_eq; try done. by eapply map_update_key.
Qed.

Lemma end_marker_key e ue rb ty q e' out :
  send_end_marker e ue rb ty q = Ok (e', out) -> sdap_key e' = sdap_key e.
Proof.
  unfold send_end_marker, nr_sdap_map_ctrl_pdu. intros H. bind_inv; simplify_eq; try done.
  by eapply qfi2drb_map_key.
Qed.

(** A step that may send an end marker. *)
Ltac key_solve :=
  repeat match goal with
  | H : send_end_marker _ _ _ _ _ = Ok (_, _) |- _ => apply end_marker_key in H
  | H : table_set _ _ _ = Ok _ |- _ => apply table_set_key in H
  | H : nr_sdap_qfi2drb_map_update _ _ _ _ _ = Ok _ |- _ => apply map_update_key in H
  | H : nr_sdap_qfi2drb_map _ _ = Ok (_, _) |- _ => apply qfi2drb_map_key in H
  | H : nr_sdap_qfi2drb_map_del _ _ = Ok _ |- _ => apply map_del_key in H
  end; simplify_eq; unfold sdap_key in *; try congruence.

Lemma cfor_Ok {A} (P : A -> Prop) n lo (body : Z -> A -> outcome A) a a' :
  (forall i b b', P b -> body i b = Ok b' -> P b') -> P a -> cfor n lo body a = Ok a' -> P a'.
Proof.
  intros Hb. revert lo a. induction n as [|n IH]; intros lo a Ha H; cbn [cfor] in H; bind_inv.
  - by subst.
  - eapply IH; [|exact H]. by eapply Hb.
Qed.

Lemma reflective_key e ue rb q e' out :
  reflective_mapping e ue rb q = Ok (e', out) -> sdap_key e' = sdap_key e.
Proof. unfold reflective_mapping. intros H. bind_inv; key_solve. Qed.

Lemma config_one_key rb ue m d rx tx i st e' out :
  ue_qfi2drb_config_one rb ue m d rx tx i st = Ok (e', out) -> sdap_key e' = sdap_key (fst st).
Proof. destruct st as [e o]. unfold ue_qfi2drb_config_one. intros H. cbn [fst]. bind_inv; key_solve. Qed.

Lemma config_key e rb ue m n d rx tx e' out :
  nr_sdap_ue_qfi2drb_config e rb ue m n d rx tx = Ok (e', out) -> sdap_key e' = sdap_key e.
Proof.
  unfold nr_sdap_ue_qfi2drb_config. intros H.
  change (sdap_key (fst (e', out)) = sdap_key e). revert H.
  apply (cfor_Ok (fun st => sdap_key (fst st) = sdap_key e)); [|done].
  intros i b [b' o'] Hb H. cbn [fst]. by rewrite (config_one_key _ _ _ _ _ _ _ _ _ _ H).
Qed.

Lemma create_key rx tx ue pdu def d m n e' :
  create_sdap_entity rx tx ue pdu def d m n = Ok e' -> sdap_key e' = (ue, pdu).
Proof.
  unfold create_sdap_entity. intros H. destruct def; [|by simplify_eq]. revert H.
  apply (cfor_Ok (fun e => sdap_key e = (ue, pdu))); [|done].
  intros i b b' Hb H. bind_inv. key_solve.
Qed.

Lemma tx_key e a rb n buf q rqi acc e' out ret :
  nr_sdap_tx_entity e a rb n buf q rqi acc = Ok (e', out, ret) -> sdap_key e' = sdap_key e.
Proof. unfold nr_sdap_tx_entity. intros H. bind_inv; key_solve. Qed.

Lemma rx_key inst e rb gnb hdr pdu ue buf n e' out :
  nr_sdap_rx_entity inst e rb gnb hdr pdu ue buf n = Ok (e', out) -> sdap_key e' = sdap_key e.
Proof.
  unfold nr_sdap_rx_entity. intros H. bind_inv; simplify_eq; try done.
  all: by eapply reflective_key.
Qed.

Lemma reconfigure_key e c ue drb e' out :
  reconfigure_entity e c ue drb = Ok (e', out) -> sdap_key e' = sdap_key e.
Proof.
  unfold reconfigure_entity. intros H. bind_inv; simplify_eq.
  all: match goal with H : nr_sdap_ue_qfi2drb_config _ _ _ _ _ _ _ _ = _ |- _ => apply config_key in H; rewrite <- H end.
  2: done.
  match goal with H : cfor _ _ _ ?x = _ |- _ => revert H; apply (cfor_Ok (fun e => sdap_key e = sdap_key x)) end; [|done].
  intros i b b' Hb H. bind_inv. key_solve.
Qed.

(** ** Calls of the interface *)

Inductive sdap_op : Type :=
| SdapNew (is_gnb has_sdap_rx has_sdap_tx : bool) (ue_id pdusession_id : Z) (is_defaultDRB : bool)
    (drb_identity : Z) (mapped_qfi_2_add : option (list Z)) (mappedQFIs2AddCount : Z)
| SdapReleaseDrb (ue_id drb_id pdusession_id : Z)
| SdapDelete (ue_id pdusession_id : Z)
| SdapDeleteUe (ue_id : Z)
| SdapReconfigure (sdap_config : NR_SDAP_Config_t) (ue_id pdusession_id drb_id : Z)
| SdapDataReq (a : sdap_tx_args_t) (ue_id rb_id size : Z) (buffer : option (list Z)) (qfi : Z)
    (rqi : bool) (pdusession_id : Z) (accepted : bool)
| SdapDataInd (N3GTPUInst : option Z) (pdcp_entity : Z) (is_gnb has_sdap_rx : bool)
    (pdusession_id ue_id : Z) (buf : list Z) (size : Z).

(** The list after the call, the messages sent, and the boolean returned
    ([true] for a function that returns none). *)
Definition sdap_step (l : list nr_sdap_entity_t) (op : sdap_op)
    : outcome (list nr_sdap_entity_t * list sdap_event * bool) :=
  match op with
  | SdapNew gnb rx tx ue pdu def drb m n =>
      '(l, out, _) ← new_nr_sdap_entity l gnb rx tx ue pdu def drb m n; Ok (l, out, true)
  | SdapReleaseDrb ue drb pdu => Ok (nr_sdap_release_drb l ue drb pdu, [], true)
  | SdapDelete ue pdu => '(l, ret) ← nr_sdap_delete_entity l ue pdu; Ok (l, [], ret)
  | SdapDeleteUe ue => '(l, ret) ← nr_sdap_delete_ue_entities l ue; Ok (l, [], ret)
  | SdapReconfigure cfg ue pdu drb =>
      '(l, out) ← nr_reconfigure_sdap_entity l cfg ue pdu drb; Ok (l, out, true)
  | SdapDataReq a ue rb n buf qfi rqi pdu acc => sdap_data_req l a ue rb n buf qfi rqi pdu acc
  | SdapDataInd inst rb gnb hdr pdu ue buf n =>
      '(l, out) ← sdap_data_ind l inst rb gnb hdr pdu ue buf n; Ok (l, out, true)
  end.

Fixpoint sdap_run (l : list nr_sdap_entity_t) (ops : list sdap_op)
    : outcome (list nr_sdap_entity_t * list (list sdap_event * bool)) :=
  match ops with
  | [] => Ok (l, [])
  | op :: ops =>
      '(l, out, ret) ← sdap_step l op;
      '(l, outs) ← sdap_run l ops;
      Ok (l, (out, ret) :: outs)
  end.

(** ** The specification *)

Abbreviation smap := (gmap (Z * Z) nr_sdap_entity_t).

(** Use the entity of a session, if there is one, and store it back. *)
Definition with_entity (m : smap) (k : Z * Z) (ret : bool)
    (f : nr_sdap_entity_t -> outcome (nr_sdap_entity_t * list sdap_event * bool))
    : outcome (smap * list sdap_event * bool) :=
  match m !! k with
  | None => Ok (m, [], ret)
  | Some e => '(e, out, ret) ← f e; Ok (<[k := e]> m, out, ret)
  end.

Definition spec_step (m : smap) (op : sdap_op) : outcome (smap * list sdap_event * bool) :=
  match op with
  | SdapNew gnb rx tx ue pdu def drb q n =>
      match m !! (ue, pdu) with
      | Some e =>
          if gnb then Ok (m, [], true)
          else '(e, out) ← nr_sdap_ue_qfi2drb_config e (se_default_drb e) ue q n drb rx tx;
               Ok (<[(ue, pdu) := e]> m, out, true)
      | None =>
          e ← create_sdap_entity rx tx ue pdu def drb q n;
          Ok (<[(ue, pdu) := e]> m, [], true)
      end
  | SdapReleaseDrb ue drb pdu => Ok (alter (fun e => release_rules e drb) (ue, pdu) m, [], true)
  | SdapDelete ue pdu =>
      if bool_decide (m = ∅) then
        if i32 (u32 (pdu * (pdu - NGAP_MAX_PDU_SESSION))) >? 0 then Ok (m, [], false) else Fault NullDeref
      else Ok (delete (ue, pdu) m, [], bool_decide (is_Some (m !! (ue, pdu))))
  | SdapDeleteUe ue =>
      Ok (filter (fun kv => fst (fst kv) <> ue) m, [],
          negb (bool_decide (filter (fun kv => fst (fst kv) = ue) m = ∅)))
  | SdapReconfigure cfg ue pdu drb => 
      with_entity m (ue, pdu) true (fun e => '(e, out) ← reconfigure_entity e cfg ue drb; Ok (e, out, true))
  | SdapDataReq a ue rb n buf qfi rqi pdu acc =>
      with_entity m (ue, pdu) false (fun e => nr_sdap_tx_entity e a rb n buf qfi rqi acc)
  | SdapDataInd inst rb gnb hdr pdu ue buf n =>
      with_entity m (ue, pdu) true (fun e =>
        '(e, out) ← nr_sdap_rx_entity inst e rb gnb hdr pdu ue buf n; Ok (e, out, true))
  end.

Fixpoint spec_run (m : smap) (ops : list sdap_op) : outcome (smap * list (list sdap_event * bool)) :=
  match ops with
  | [] => Ok (m, [])
  | op :: ops =>
      '(m, out, ret) ← spec_step m op;
      '(m, outs) ← spec_run m ops;
      Ok (m, (out, ret) :: outs)
  end.

(** ** The simulation *)

Definition abs3 (r : outcome (list nr_sdap_entity_t * list sdap_event * bool))
    : outcome (smap * list sdap_event * bool) :=
  '(l, out, ret) ← r; Ok (sdap_map l, out, ret).

Lemma with_entity_put l k ret (f : nr_sdap_entity_t -> outcome (nr_sdap_entity_t * list sdap_event * bool)) :
  (forall e e' out b, f e = Ok (e', out, b) -> sdap_key e' = sdap_key e) ->
  abs3 (match sdap_map l !! k with
        | None => Ok (l, [], ret)
        | Some e => '(e, out, ret) ← f e; Ok (sdap_put l e, out, ret)
        end) = with_entity (sdap_map l) k ret f.
Proof.
  intros Hf. unfold with_entity. destruct (sdap_map l !! k) as [e|] eqn:E; [|done].
  destruct (f e) as [[[e' out] b]|] eqn:Ef; [|done]. cbn.
  pose proof (Hf _ _ _ _ Ef) as Hk. pose proof (sdap_map_key _ _ _ E) as Hke.
  rewrite put_insert; [by rewrite Hk, Hke|]. rewrite Hk, Hke. by eexists.
Qed.

Lemma sdap_step_refines l op :
  NoDup (keys l) -> zlen l <= SDAP_MAX_NUM_OF_ENTITIES + 1 ->
  abs3 (sdap_step l op) = spec_step (sdap_map l) op.
Proof.
  intros Hnd Hl. destruct op as [gnb rx tx ue pdu def drb q n|ue drb pdu|ue pdu|ue|cfg ue pdu drb
    |a ue rb n buf qfi rqi pdu acc|inst rb gnb hdr pdu ue buf n]; cbn [sdap_step spec_step].
  - unfold new_nr_sdap_entity. rewrite get_entity_lookup.
    destruct (sdap_map l !! (ue, pdu)) as [e|] eqn:E.
    + pose proof (sdap_map_key _ _ _ E) as Hke. destruct gnb; cbn.
      * rewrite put_insert by (rewrite Hke; by eexists). rewrite Hke, insert_id by done. done.
      * destruct (nr_sdap_ue_qfi2drb_config _ _ _ _ _ _ _ _) as [[e' out]|] eqn:Ec; [|done]. cbn.
        apply config_key in Ec. rewrite put_insert by (rewrite Ec, Hke; by eexists). by rewrite Ec, Hke.
    + destruct (create_sdap_entity _ _ _ _ _ _ _ _) as [e|] eqn:Ec; [|done]. cbn.
      apply create_key in Ec. by rewrite sdap_map_cons, Ec.
  - unfold nr_sdap_release_drb. rewrite get_entity_lookup.
    destruct (sdap_map l !! (ue, pdu)) as [e|] eqn:E; cbn.
    + pose proof (sdap_map_key _ _ _ E) as Hke.
      assert (sdap_key (release_rules e drb) = (ue, pdu)) as Hk by done.
      rewrite put_insert, Hk by (rewrite Hk; by eexists). do 3 f_equal.
      apply map_eq. intros j. rewrite lookup_insert, lookup_alter.
      case_decide as Ej; [|done]. by rewrite E.
    + do 3 f_equal. apply map_eq. intros j. rewrite lookup_alter.
      case_decide as Ej; [|done]. by rewrite <- Ej, E.
  - case_bool_decide as Em; rewrite sdap_map_empty in Em.
    + subst l. cbn. by case_if.
    + rewrite delete_entity_filter by done. cbn. rewrite sdap_delete_map by done. do 2 f_equal.
      apply bool_decide_ext. rewrite <- not_eq_None_Some, sdap_map_None.
      split; [tauto|]. apply dec_stable.
  - rewrite delete_ue_filter. cbn. rewrite delete_ue_map by done. do 2 f_equal.
    apply eq_bool_prop_intro. rewrite negb_True, bool_decide_spec, Is_true_true, existsb_exists.
    rewrite map_empty. split.
    + intros (e & He & Hu) Hall. zify_bool. specialize (Hall (sdap_key e)).
      apply eq_None_not_Some in Hall. apply Hall. exists e. apply map_lookup_filter_Some.
      split; [|done]. apply sdap_map_Some; [done|]. split; [|done]. by apply list_elem_of_In.
    + intros Hne. destruct (existsb (fun e => se_ue_id e =? ue) l) eqn:Eb; [by apply existsb_exists|].
      exfalso. apply Hne. intros k. apply map_lookup_filter_None. right. intros e He.
      pose proof (sdap_map_key _ _ _ He) as <-. apply sdap_map_Some in He as [He _]; [|done].
      cbn. intros Hu. assert (existsb (fun e => se_ue_id e =? ue) l = true); [|congruence].
      apply existsb_exists. exists e. split; [by apply list_elem_of_In|lia].
  - rewrite <- with_entity_put.
    + unfold nr_reconfigure_sdap_entity. rewrite get_entity_lookup.
      destruct (sdap_map l !! _) as [e|]; [|done].
      by destruct (reconfigure_entity e cfg ue drb) as [[e' out]|].
    + intros e e' out b H. bind_inv; simplify_eq. by eapply reconfigure_key.
  - rewrite <- with_entity_put.
    + unfold sdap_data_req. by rewrite get_entity_lookup.
    + intros e e' out b H. by eapply tx_key.
  - rewrite <- with_entity_put.
    + unfold sdap_data_ind. rewrite get_entity_lookup.
      destruct (sdap_map l !! _) as [e|]; [|done].
      by destruct (nr_sdap_rx_entity inst e rb gnb hdr pdu ue buf n) as [[e' out]|].
    + intros e e' out b H. bind_inv; simplify_eq. by eapply rx_key.
Qed.

Lemma spec_step_size m op m' out ret :
  spec_step m op = Ok (m', out, ret) -> (size m' <= S (size m))%nat.
Proof.
  assert (forall k e, size (<[k := e]> m) <= S (size m))%nat as Hins.
  { intros k e. rewrite map_size_insert. destruct (m !! k); unfold id; lia. }
  assert (forall P `{!forall kv, Decision (P kv)}, size (filter P m) <= S (size m))%nat as Hfil.
  { intros P ?. pose proof (map_size_filter P m). lia. }
  intros H. destruct op; cbn [spec_step] in H; unfold with_entity in H; bind_inv; simplify_eq; auto.
  - apply Nat.le_trans with (size m); [|lia]. rewrite <- !size_dom, dom_alter_L. done.
  - rewrite map_size_delete. destruct (m !! _); unfold id; lia.
Qed.

(** A history of [n] calls leaves at most [n] entities. *)
Lemma spec_run_size ops m m' outs :
  spec_run m ops = Ok (m', outs) -> (size m' <= size m + length ops)%nat.
Proof.
  revert m outs. induction ops as [|op ops IH]; intros m outs H; cbn [spec_run length] in *; bind_inv.
  - simplify_eq. lia.
  - simplify_eq. match goal with H : spec_step _ _ = _ |- _ => apply spec_step_size in H end.
    match goal with H : spec_run _ _ = _ |- _ => apply IH in H end. lia.
Qed.

Lemma sdap_step_nodup l op l' out ret :
  NoDup (keys l) -> zlen l <= SDAP_MAX_NUM_OF_ENTITIES + 1 ->
  sdap_step l op = Ok (l', out, ret) -> NoDup (keys l').
Proof.
  intros Hnd Hl H. destruct op; cbn [sdap_step] in H;
    unfold new_nr_sdap_entity, nr_sdap_release_drb, nr_reconfigure_sdap_entity, sdap_data_req, sdap_data_ind in H.
  4: { rewrite delete_ue_filter in H. cbn in H. simplify_eq. by apply filter_keys. }
  3: { destruct l as [|e l]; [cbn in H; bind_inv; by simplify_eq|].
       rewrite delete_entity_filter in H by done. cbn [mbind outcome_bind] in H. injection H as <- _ _.
       by apply filter_keys. }
  all: bind_inv; simplify_eq; rewrite ?put_keys; try done.
  2: { destruct (nr_sdap_get_entity _ _ _); by rewrite ?put_keys. }
  match goal with H : create_sdap_entity _ _ _ _ _ _ _ _ = _ |- _ => apply create_key in H as Hk end.
  rewrite fmap_cons. apply NoDup_cons. split; [|done].
  rewrite Hk. apply sdap_map_None. by rewrite <- get_entity_lookup.
Qed.

Lemma sdap_run_refines l ops :
  NoDup (keys l) ->
  (forall ops1 m outs, ops1 `prefix_of` ops -> spec_run (sdap_map l) ops1 = Ok (m, outs) ->
     Z.of_nat (size m) <= SDAP_MAX_NUM_OF_ENTITIES + 1) ->
  ('(l', outs) ← sdap_run l ops; Ok (sdap_map l', outs)) = spec_run (sdap_map l) ops.
Proof.
  revert l. induction ops as [|op ops IH]; intros l Hnd Hsz; [done|]. cbn [sdap_run spec_run].
  assert (zlen l <= SDAP_MAX_NUM_OF_ENTITIES + 1) as Hl.
  { unfold zlen. rewrite <- sdap_map_size by done. by apply (Hsz [] _ []); [apply prefix_nil|]. }
  rewrite <- sdap_step_refines by done.
  destruct (sdap_step l op) as [[[l' out] ret]|] eqn:E; [|done]. cbn.
  pose proof (sdap_step_refines l op Hnd Hl) as Hs. rewrite E in Hs. cbn in Hs.
  rewrite <- IH.
  - by destruct (sdap_run l' ops) as [[l'' outs]|].
  - by eapply sdap_step_nodup.
  - intros ops1 m outs Hp H. apply (Hsz (op :: ops1) m ((out, ret) :: outs)).
    + by apply prefix_cons.
    + cbn. rewrite <- Hs. cbn. by rewrite H.
Qed.

(** C25: any sequence of calls of the SDAP interface on the linked list sends
    the same messages, returns the same values, fails in the same way and
    leaves the same entities as the sequence on a finite map from UE and PDU
    session to entity, whatever the order in which sessions come and go, as
    long as there are no more entities than the bound of the search loop. *)
Theorem sdap_refines_map ops :
  (forall ops1 m outs, ops1 `prefix_of` ops -> spec_run ∅ ops1 = Ok (m, outs) ->
     Z.of_nat (size m) <= SDAP_MAX_NUM_OF_ENTITIES + 1) ->
  ('(l, outs) ← sdap_run [] ops; Ok (sdap_map l, outs)) = spec_run ∅ ops.
Proof. apply (sdap_run_refines []). constructor. Qed.

Definition sdap_demo : list sdap_op :=
  [SdapNew false true true 7 1 true 1 (Some [5]) 1;
   SdapNew false true true 7 2 true 2 (Some [6]) 1;
   SdapNew false true true 8 1 true 1 (Some [5]) 1;
   SdapNew false true true 7 1 false 3 (Some [5]) 1;
   SdapReleaseDrb 7 3 1;
   SdapDelete 7 2;
   SdapDelete 7 2;
   SdapDeleteUe 8].

Lemma sdap_refines_map_witness :
  (exists l outs, sdap_run [] sdap_demo = Ok (l, outs) /\ length l = 1%nat /\
     snd <$> outs = [true; true; true; true; true; true; false; true]) /\
  ('(l, outs) ← sdap_run [] sdap_demo; Ok (sdap_map l, outs)) = spec_run ∅ sdap_demo.
Proof.
  split.
  - eexists _, _. split; [vm_compute; reflexivity|]. split; reflexivity.
  - apply (sdap_refines_map sdap_demo). intros ops1 m outs Hp H.
    apply spec_run_size in H. apply prefix_length in Hp.
    rewrite map_size_empty in H. unfold sdap_demo in Hp. cbn in Hp. unfold SDAP_MAX_NUM_OF_ENTITIES, MAX_DRBS_PER_UE, MAX_MOBILES_PER_ENB. lia.
Defined.
