(* ===== verification/SdapProps.v ===== *)
(** * SDAP: entities stay well formed, data path, reflective mapping

    (openair2/SDAP/nr_sdap/nr_sdap_entity.c) *)

From S2P Require Import Prelude Sdap SdapList SdapRefine.

(** ** Well-formed entities *)

Definition drb_ok (d : Z) : Prop := 0 <= d <= MAX_DRBS_PER_UE.

Record sdap_wf (e : nr_sdap_entity_t) : Prop := {
  wf_table : zlen (qfi2drb_table e) = SDAP_MAX_QFI;
  wf_rules : Forall (fun r => drb_ok (q_drb_id r)) (qfi2drb_table e);
  wf_default : 0 <= se_default_drb e < 256;
}.

Definition qfi_ok (q : Z) : Prop := 0 <= q < SDAP_MAX_QFI.

(** The rule stored for a QFI. *)
Definition row (e : nr_sdap_entity_t) (q : Z) : qfi2drb_t :=
  default (mk_qfi2drb 0 false false) (zget (qfi2drb_table e) q).
Definition rule (e : nr_sdap_entity_t) (q : Z) : Z := q_drb_id (row e q).

Lemma table_get_ok e q : sdap_wf e -> qfi_ok q -> table_get e q = Ok (row e q) /\ drb_ok (rule e q).
Proof.
  intros [Ht Hr _] Hq. unfold rule, row, table_get.
  destruct (zget_ok (qfi2drb_table e) q) as [r Hg]; [unfold qfi_ok in Hq; lia|].
  rewrite Hg. split; [done|]. apply zget_Some in Hg as [_ Hg]. cbn.
  by eapply (Forall_lookup_1 (fun r => drb_ok (q_drb_id r))).
Qed.

Lemma table_set_ok e q r : sdap_wf e -> qfi_ok q -> drb_ok (q_drb_id r) ->
  exists e', table_set e q r = Ok e' /\ sdap_wf e' /\ se_default_drb e' = se_default_drb e /\
    sdap_key e' = sdap_key e /\ forall q', 0 <= q' -> row e' q' = if q' =? q then r else row e q'.
Proof.
  intros [Ht Hr Hd] Hq Hdrb. unfold qfi_ok in Hq. unfold table_set.
  rewrite zset_ok by lia. cbn [of_option mbind outcome_bind].
  eexists. split; [done|]. split; [constructor; field_simpl|split_and!; try done].
  - unfold zlen in *. by rewrite length_insert.
  - apply Forall_insert; done.
  - done.
  - intros q' Hq'. unfold row. field_simpl. unfold zget. destruct (0 <=? q') eqn:E'; zify_bool; [|lia].
    destruct (q' =? q) eqn:E; zify_bool.
    + subst q'. rewrite list_lookup_insert_eq; [done|]. unfold zlen in *. lia.
    + rewrite list_lookup_insert_ne; [done|]. lia.
Qed.

Lemma map_update_ok e q d rx tx : sdap_wf e -> 0 <= q ->
  exists e', nr_sdap_qfi2drb_map_update e q d rx tx = Ok e' /\ sdap_wf e' /\
    se_default_drb e' = se_default_drb e /\
    forall q', 0 <= q' -> row e' q' =
      if (q' =? q) && (q <? 64) && (0 <? q) && (0 <? d) && (d <=? 5) then mk_qfi2drb d rx tx else row e q'.
Proof.
  intros Hwf Hq. unfold nr_sdap_qfi2drb_map_update, SDAP_MAX_QFI, SDAP_MAP_RULE_EMPTY, AVLBL_DRB.
  rewrite !Z.gtb_ltb.
  destruct ((q <? 64) && (0 <? q) && (0 <? d) && (d <=? 5)) eqn:E.
  - zify_bool. destruct (table_set_ok e q (mk_qfi2drb d rx tx) Hwf) as (e' & -> & Hw & Hd & _ & Hrow);
      [unfold qfi_ok, SDAP_MAX_QFI; lia|unfold drb_ok, MAX_DRBS_PER_UE; cbn; lia|].
    exists e'. split_and!; try done. intros q' Hq'. rewrite Hrow by done.
    rewrite (proj2 (Z.ltb_lt q 64)), (proj2 (Z.ltb_lt 0 q)), (proj2 (Z.ltb_lt 0 d)), (proj2 (Z.leb_le d 5)) by lia.
    by rewrite !andb_true_r.
  - exists e. split_and!; try done. intros q' _.
    assert ((q' =? q) && (q <? 64) && (0 <? q) && (0 <? d) && (d <=? 5) = false) as ->; [|done].
    destruct (q' =? q); [exact E|done].
Qed.

Lemma qfi2drb_map_ok e q : sdap_wf e -> qfi_ok q ->
  exists e', nr_sdap_qfi2drb_map e q = Ok (e', if rule e q =? 0 then se_default_drb e else rule e q) /\
    sdap_wf e' /\ se_default_drb e' = se_default_drb e /\
    (forall q', 0 <= q' -> q' <> q -> row e' q' = row e q') /\
    q_has_sdap_tx (row e' q) = q_has_sdap_tx (row e q) /\
    q_has_sdap_rx (row e' q) = q_has_sdap_rx (row e q).
Proof.
  intros Hwf Hq. unfold nr_sdap_qfi2drb_map.
  destruct (table_get_ok e q Hwf Hq) as [-> _]. cbn [mbind outcome_bind].
  change (q_drb_id (row e q)) with (rule e q). unfold z2b.
  destruct (rule e q =? 0) eqn:Er; cbn [negb].
  - destruct (se_default_drb e =? 0) eqn:Ed; cbn [negb].
    + apply Z.eqb_eq in Ed. exists e. by rewrite Ed.
    + destruct (map_update_ok e q (se_default_drb e) (q_has_sdap_rx (row e q)) (q_has_sdap_tx (row e q)) Hwf)
        as (e' & -> & Hw & Hd & Hrow); [apply Hq|].
      exists e'. cbn. rewrite Hd. split_and!; try done.
      * intros q' Hq' Hne. rewrite Hrow by done. by rewrite (proj2 (Z.eqb_neq q' q)).
      * rewrite Hrow by apply Hq. by case_if.
      * rewrite Hrow by apply Hq. by case_if.
  - exists e. done.
Qed.

(** ** End markers *)

(** The control PDU for QFI [q], submitted to DRB [d]. *)
Definition end_marker (ue_id q d : Z) : sdap_event :=
  PdcpDataReqDrb (mk_pdcp_req ue_id false d 0 0 1 [bits_field 6 q] 0).

Arguments nr_sdap_submit_ctrl_pdu : simpl never.
Arguments nr_sdap_construct_ctrl_pdu : simpl never.

Lemma ctrl_byte q : ul_hdr_byte (nr_sdap_construct_ctrl_pdu q) = bits_field 6 q.
Proof. unfold ul_hdr_byte. cbn. by rewrite Z.lor_0_r. Qed.

Lemma submit_markers ue d q :
  nr_sdap_submit_ctrl_pdu ue d (nr_sdap_construct_ctrl_pdu q) = end_marker ue q <$> (if d =? 0 then [] else [d]).
Proof.
  unfold nr_sdap_submit_ctrl_pdu, z2b. destruct (d =? 0); [done|]. cbn [negb].
  unfold nr_pdcp_submit_sdap_ctrl_pdu. by rewrite ctrl_byte.
Qed.

(** The DRBs the end markers of a reflective mapping to [rb] go to. *)
Definition marker_drbs (stored dflt rb : Z) : list Z :=
  if stored =? 0 then if dflt =? 0 then [] else [dflt; dflt]
  else if stored =? rb then [] else [stored].

Lemma default_marker_ok e ue rb q :
  send_end_marker e ue rb SDAP_CTRL_PDU_MAP_DEF_DRB q
  = Ok (e, end_marker ue q <$> (if se_default_drb e =? 0 then [] else [se_default_drb e])).
Proof. rewrite <- submit_markers. done. Qed.

Lemma rule_marker_ok e ue rb q : sdap_wf e -> qfi_ok q ->
  exists e', send_end_marker e ue rb SDAP_CTRL_PDU_MAP_RULE_DRB q
    = Ok (e', end_marker ue q <$> (let d := if rule e q =? 0 then se_default_drb e else rule e q in
                                   if d =? 0 then [] else [d])) /\
    sdap_wf e' /\ se_default_drb e' = se_default_drb e /\
    (forall q', 0 <= q' -> q' <> q -> row e' q' = row e q') /\
    q_has_sdap_tx (row e' q) = q_has_sdap_tx (row e q) /\
    q_has_sdap_rx (row e' q) = q_has_sdap_rx (row e q).
Proof.
  intros Hwf Hq. destruct (qfi2drb_map_ok e q Hwf Hq) as (e' & Hm & H).
  exists e'. split; [|done]. unfold send_end_marker, nr_sdap_map_ctrl_pdu.
  rewrite (proj2 (Z.eqb_eq _ _)) by done. rewrite Hm. cbn [mbind outcome_bind].
  by rewrite submit_markers.
Qed.

Lemma reflective_ok e ue rb q : sdap_wf e -> qfi_ok q -> 0 < rb <= MAX_DRBS_PER_UE ->
  exists e', reflective_mapping e ue rb q
    = Ok (e', end_marker ue q <$> marker_drbs (rule e q) (se_default_drb e) rb) /\
    sdap_wf e' /\ se_default_drb e' = se_default_drb e /\
    forall q', 0 <= q' -> row e' q' = if q' =? q then (row e q) <| q_drb_id := rb |> else row e q'.
Proof.
  intros Hwf Hq Hrb. unfold reflective_mapping, marker_drbs.
  destruct (table_get_ok e q Hwf Hq) as [Hg _]. rewrite Hg. cbn [mbind outcome_bind].
  change (q_drb_id (row e q)) with (rule e q). unfold z2b. rewrite negb_involutive.
  set (first := if _ && _ then _ else _).
  assert (first = Ok (e, end_marker ue q <$> (if (rule e q =? 0) && negb (se_default_drb e =? 0)
                                              then [se_default_drb e] else []))) as ->.
  { unfold first. destruct (rule e q =? 0); [|done]. destruct (se_default_drb e =? 0) eqn:Ed; [done|].
    cbn [andb negb]. rewrite default_marker_ok. by rewrite Ed. }
  cbn [mbind outcome_bind]. rewrite Hg. cbn [mbind outcome_bind].
  change (q_drb_id (row e q)) with (rule e q).
  assert (exists e1, (if negb (rb =? rule e q) then send_end_marker e ue rb SDAP_CTRL_PDU_MAP_RULE_DRB q else Ok (e, []))
    = Ok (e1, end_marker ue q <$> (if rb =? rule e q then [] else
         let d := if rule e q =? 0 then se_default_drb e else rule e q in if d =? 0 then [] else [d])) /\
    sdap_wf e1 /\ se_default_drb e1 = se_default_drb e /\
    (forall q', 0 <= q' -> q' <> q -> row e1 q' = row e q') /\
    q_has_sdap_tx (row e1 q) = q_has_sdap_tx (row e q) /\
    q_has_sdap_rx (row e1 q) = q_has_sdap_rx (row e q)) as (e1 & -> & Hwf1 & Hd1 & Hrow1 & Htx & Hrx).
  { destruct (rb =? rule e q); cbn [negb]; [by exists e|by apply rule_marker_ok]. }
  cbn [mbind outcome_bind]. destruct (table_get_ok e1 q Hwf1 Hq) as [-> _]. cbn [mbind outcome_bind].
  destruct (table_set_ok e1 q ((row e1 q) <| q_drb_id := rb |>) Hwf1 Hq) as (e' & -> & Hwf' & Hd' & _ & Hrow');
    [field_simpl; unfold drb_ok; lia|].
  cbn [mbind outcome_bind]. exists e'. split_and!; [|done|by rewrite Hd'|].
  - rewrite <- fmap_app. do 3 f_equal. destruct (rule e q =? 0) eqn:E0; zify_bool; cbn [andb].
    + destruct (rb =? rule e q) eqn:E1; zify_bool; [lia|]. by destruct (se_default_drb e =? 0).
    + destruct (rb =? rule e q) eqn:E1; zify_bool; [by rewrite (proj2 (Z.eqb_eq _ _))|].
      rewrite (proj2 (Z.eqb_neq (rule e q) rb)) by lia. by rewrite (proj2 (Z.eqb_neq _ 0)).
  - intros q' Hq'. rewrite Hrow' by done. destruct (q' =? q) eqn:E; zify_bool; [|by apply Hrow1].
    destruct (row e1 q), (row e q). cbn in Htx, Hrx. by subst.
Qed.

(** ** Reception at the UE *)

Lemma zslice_tail {A} (x : A) l : zslice (x :: l) 1 (zlen (x :: l) - 1) = Some l.
Proof.
  apply zslice_Some. rewrite zlen_cons. pose proof (zlen_nonneg l). split_and!; try lia.
  change (drop (Z.to_nat 1) (x :: l)) with l. unfold zlen. rewrite take_ge; [done|lia].
Qed.


Lemma sdap_wf_fresh ue pdu d : 0 <= d < 256 ->
  sdap_wf (mk_sdap ue d pdu (replicate 64 (mk_qfi2drb 0 false false))).
Proof. intros Hd. constructor; [done| |done]. by apply Forall_replicate. Qed.

Definition demo_entity : nr_sdap_entity_t := mk_sdap 7 2 1 (replicate 64 (mk_qfi2drb 0 false true)).


(** ** Transmission and reception *)

Lemma lor_low7_bit h b : 0 <= h < 64 ->
  Z.testbit (Z.lor h (Z.shiftl (b2z b) 6)) 7 = false.
Proof.
  intros Hh. rewrite <- (Z.mod_small h (2 ^ 6)) by lia.
  rewrite Z.lor_spec, Z.shiftl_spec, Z.mod_pow2_bits_high by lia. by destruct b.
Qed.

(** The header of a transmitter of QFI [q]: QFI, RQI (D/C at the UE) and zero. *)
Lemma tx_header_fields gnb q rqi : qfi_ok q ->
  bits_field 6 (tx_header gnb q rqi) = q /\
  (gnb = true -> Z.testbit (tx_header gnb q rqi) 7 = false).
Proof.
  intros Hq. unfold qfi_ok, SDAP_MAX_QFI in Hq.
  assert (bits_field 6 q = q) as Eq.
  { unfold bits_field. rewrite Z.land_ones by lia. apply Z.mod_small. lia. }
  unfold tx_header, dl_hdr_byte, ul_hdr_byte. cbn -[bits_field Z.shiftl]. rewrite Eq.
  split.
  - unfold bits_field in *. assert (Z.land q (Z.ones 6) = q) by exact Eq.
    apply Z.bits_inj'. intros i Hi.
    destruct gnb; rewrite Z.land_spec, !Z.lor_spec, ?Z.shiftl_spec, Z.testbit_ones_nonneg by lia;
      (destruct (i <? 6) eqn:E; zify_bool;
       [rewrite ?(Z.testbit_neg_r _ (i - 6)), ?(Z.testbit_neg_r _ (i - 7)) by lia; by rewrite ?Z.testbit_0_l, ?orb_false_r, andb_true_r
       |rewrite andb_false_r; symmetry; rewrite <- H, Z.land_spec, Z.testbit_ones_nonneg by lia;
        rewrite (proj2 (Z.ltb_ge i 6)) by lia; by rewrite andb_false_r]).
  - intros ->. rewrite Z.lor_0_r. by apply lor_low7_bit.
Qed.

(** The bearer an SDU of QFI [q] goes to when the caller proposes [rb], and
    whether it carries a header. *)
Definition tx_drb (e : nr_sdap_entity_t) (q rb : Z) : Z :=
  let d := if rule e q =? 0 then se_default_drb e else rule e q in if d =? 0 then rb else d.
Definition tx_with_header (e : nr_sdap_entity_t) (q : Z) : bool :=
  let d := if rule e q =? 0 then se_default_drb e else rule e q in
  negb (d =? 0) && q_has_sdap_tx (row e q).

Lemma tx_entity_ok e a rb sdu q rqi acc :
  sdap_wf e -> qfi_ok q -> 1 <= zlen sdu <= 8999 ->
  exists e', sdap_wf e' /\ se_default_drb e' = se_default_drb e /\
    nr_sdap_tx_entity e a rb (zlen sdu) (Some sdu) q rqi acc
    = Ok (e', [if tx_with_header e q
               then data_req a (tx_drb e q rb) (zlen sdu + 1) (tx_header (ta_enb_flag a) q rqi :: sdu)
               else data_req a (tx_drb e q rb) (zlen sdu) sdu], acc).
Proof.
  intros Hwf Hq Hn. destruct (qfi2drb_map_ok e q Hwf Hq) as (e' & Hm & Hwf' & Hd & _ & Htx & _).
  exists e'. split_and!; [done|done|]. unfold nr_sdap_tx_entity. cbn [of_option mbind outcome_bind].
  rewrite Hm. cbn [mbind outcome_bind]. destruct (table_get_ok e' q Hwf' Hq) as [-> _].
  cbn [mbind outcome_bind]. rewrite Htx. unfold tx_with_header, tx_drb, z2b.
  set (d := if rule e q =? 0 then se_default_drb e else rule e q).
  destruct (d =? 0); cbn [negb andb]; [done|].
  destruct (q_has_sdap_tx (row e q)); cbn [negb]; [|done].
  rewrite (proj2 (Z.eqb_neq (zlen sdu) 0)), Z.gtb_ltb, (proj2 (Z.ltb_ge 8999 (zlen sdu))) by lia. cbn [orb].
  rewrite zslice_all. cbn [of_option mbind outcome_bind]. unfold SDAP_HDR_LENGTH, SDAP_MAX_PDU.
  by rewrite (proj2 (Z.leb_le (1 + zlen sdu) 9000)) by lia.
Qed.

(** C26: what one side's SDAP transmits, the other side's SDAP hands over.
    The SDU of a QoS flow makes exactly one PDU for PDCP, on the bearer of the
    flow's rule, else the default bearer, else the caller's; with one byte
    more when the rule says a header is there; and the entity at the other
    end, told by PDCP whether there is a header, hands exactly the SDU to GTP-U
    (gNB) or to the tunnel interface (UE) and keeps its rules. *)
Theorem sdap_roundtrip e r a rb sdu q rqi acc inst pdu ue :
  sdap_wf e -> qfi_ok q -> 1 <= zlen sdu <= 8999 ->
  exists e' req, sdap_wf e' /\
    nr_sdap_tx_entity e a rb (zlen sdu) (Some sdu) q rqi acc = Ok (e', [PdcpDataReqDrb req], acc) /\
    pr_rb_id req = tx_drb e q rb /\ pr_ue_id req = ta_ue_id a /\
    pr_size req = zlen sdu + b2z (tx_with_header e q) /\
    nr_sdap_rx_entity (Some inst) r (pr_rb_id req) (negb (ta_enb_flag a)) (tx_with_header e q)
      pdu ue (pr_buffer req) (pr_size req)
    = Ok (r, [if ta_enb_flag a then NasWrite sdu else GtpTunnelDataReq inst ue pdu sdu]).
Proof.
  intros Hwf Hq Hn. destruct (tx_entity_ok e a rb sdu q rqi acc Hwf Hq Hn) as (e' & Hwf' & _ & ->).
  exists e'. unfold nr_sdap_rx_entity.
  destruct (tx_header_fields (ta_enb_flag a) q rqi Hq) as [_ Hrdi].
  destruct (tx_with_header e q); eexists; (split; [done|]); (split; [reflexivity|]); cbn [pr_rb_id pr_ue_id pr_size pr_buffer b2z].
  - split_and!; [done..|]. set (h := tx_header _ _ _) in *.
    replace (zlen sdu + 1) with (zlen (h :: sdu)) by apply zlen_cons. unfold SDAP_HDR_LENGTH.
    rewrite zslice_tail. change (zget (h :: sdu) 0) with (Some h).
    destruct (ta_enb_flag a); cbn [negb of_option mbind outcome_bind]; [|done].
    assert (dl_RDI (dl_hdr_of h) = 0) as ->; [|done].
    clearbody h. cbn. unfold bits_field. rewrite Z.land_ones, <- Z.bit0_mod, Z.shiftr_spec by lia.
    change (0 + 7) with 7. by rewrite Hrdi.
  - split_and!; [done|done|by rewrite Z.add_0_r|]. rewrite Z.sub_0_r, zslice_all.
    by destruct (ta_enb_flag a).
Qed.

Lemma sdap_roundtrip_witness :
  let a := mk_tx_args false 7 false 0 0 2 in
  sdap_wf demo_entity /\ qfi_ok 9 /\ tx_with_header demo_entity 9 = true /\
  exists req, pr_buffer req = [137; 69; 0; 1] /\
    nr_sdap_rx_entity (Some 3) demo_entity 2 true true 1 7 (pr_buffer req) 4
    = Ok (demo_entity, [GtpTunnelDataReq 3 7 1 [69; 0; 1]]).
Proof.
  assert (sdap_wf demo_entity) as Hwf by (constructor; [done|by apply Forall_replicate|done]).
  split; [exact Hwf|]. split; [done|]. split; [reflexivity|].
  destruct (sdap_roundtrip demo_entity demo_entity (mk_tx_args false 7 false 0 0 2) 1 [69; 0; 1] 9 true true 3 1 7)
    as (e' & req & _ & Htx & Hrb & _ & Hn & Hrx); [exact Hwf|done|done|].
  assert (nr_sdap_tx_entity demo_entity (mk_tx_args false 7 false 0 0 2) 1 3 (Some [69; 0; 1]) 9 true true
          = Ok (e', [PdcpDataReqDrb req], true)) as H by exact Htx.
  vm_compute in H. injection H as _ <-. eexists. split; [|exact Hrx]. reflexivity.
Defined.
