(* ===== verification/SdapTyped.v ===== *)
(** * SDAP: well-formed calls never fail; findings on concrete runs

    (openair2/SDAP/nr_sdap) *)

From S2P Require Import Prelude Sdap SdapList SdapRefine SdapProps.

(** ** Calls the callers promise *)

(** The QFIs of a pointer and a count. *)
Definition qfis_ok (m : option (list Z)) (n : Z) : Prop :=
  0 <= n < 256 /\ forall i, 0 <= i < n -> exists v, deref_at m i = Ok v /\ qfi_ok (u8 v).

(** At most one QFI in each list of a reconfiguration, as the code reads the
    first element only. *)
Definition one_qfi (l : list Z) : Prop := exists q, l = [q] /\ qfi_ok (u8 q).

Definition sdap_op_ok (l : list nr_sdap_entity_t) (op : sdap_op) : Prop :=
  match op with
  | SdapNew _ _ _ _ _ _ drb m n => 0 <= drb < 256 /\ qfis_ok m n
  | SdapReleaseDrb _ _ _ | SdapDeleteUe _ => True
  | SdapDelete _ _ => l <> []
  | SdapReconfigure c _ _ _ =>
      (exists q, mappedQoS_FlowsToAdd c = Some q /\ one_qfi q) /\
      (forall q, mappedQoS_FlowsToRelease c = Some q -> one_qfi q)
  | SdapDataReq _ _ _ n buf q _ _ _ => qfi_ok q /\ exists b, buf = Some b /\ 0 <= n <= zlen b
  | SdapDataInd inst rb gnb hdr _ _ buf n =>
      (gnb = true -> is_Some inst) /\ 0 < rb <= MAX_DRBS_PER_UE /\ b2z hdr <= n <= zlen buf
  end.

(** ** Totality on well-formed entities *)

Lemma config_one_ok rb ue m d rx tx i v e out :
  sdap_wf e -> deref_at m i = Ok v -> qfi_ok (u8 v) ->
  exists e' out', ue_qfi2drb_config_one rb ue m d rx tx i (e, out) = Ok (e', out') /\ sdap_wf e'.
Proof.
  intros Hwf Hv Hq. unfold ue_qfi2drb_config_one. rewrite Hv. cbn [mbind outcome_bind].
  destruct (table_get_ok e (u8 v) Hwf Hq) as [Hg _].
  assert (exists out1, (if z2b (se_default_drb e) then
      r ← table_get e (u8 v);
      (if q_drb_id r =? SDAP_NO_MAPPING_RULE
       then send_end_marker e ue rb SDAP_CTRL_PDU_MAP_DEF_DRB (u8 v) else Ok (e, []))
     else Ok (e, [])) = Ok (e, out1)) as [out1 ->].
  { destruct (z2b _); [|by eexists]. rewrite Hg. cbn [mbind outcome_bind].
    destruct (_ =? _); [|by eexists]. rewrite default_marker_ok. by eexists. }
  cbn [mbind outcome_bind]. rewrite Hg. cbn [mbind outcome_bind].
  assert (exists e1 out2, (if negb (q_drb_id (row e (u8 v)) =? d) && q_has_sdap_tx (row e (u8 v))
     then send_end_marker e ue rb SDAP_CTRL_PDU_MAP_RULE_DRB (u8 v) else Ok (e, [])) = Ok (e1, out2) /\
     sdap_wf e1) as (e1 & out2 & -> & Hwf1).
  { destruct (_ && _); [|by eexists _, _].
    destruct (rule_marker_ok e ue rb (u8 v) Hwf Hq) as (e1 & -> & Hwf1 & _). by eexists _, _. }
  cbn [mbind outcome_bind]. destruct (map_update_ok e1 (u8 v) d rx tx Hwf1) as (e' & -> & Hwf' & _); [apply Hq|].
  cbn [mbind outcome_bind]. by eexists _, _.
Qed.

Lemma config_ok e rb ue m n d rx tx : sdap_wf e -> qfis_ok m n ->
  exists e' out, nr_sdap_ue_qfi2drb_config e rb ue m n d rx tx = Ok (e', out) /\ sdap_wf e'.
Proof.
  intros Hwf [Hn Hm]. unfold nr_sdap_ue_qfi2drb_config.
  destruct (cfor_inv (fun _ st => sdap_wf (fst st)) (Z.to_nat n) 0
              (ue_qfi2drb_config_one rb ue m d rx tx) (e, [])) as ([e' out] & -> & H); [done| |by exists e', out].
  intros i [b o] Hi Hb. destruct (Hm i) as (v & Hv & Hq); [lia|].
  destruct (config_one_ok rb ue m d rx tx i v b o Hb Hv Hq) as (b' & o' & -> & Hb'). by exists (b', o').
Qed.

Lemma create_ok rx tx ue pdu def d m n : 0 <= d < 256 -> qfis_ok m n ->
  exists e, create_sdap_entity rx tx ue pdu def d m n = Ok e /\ sdap_wf e.
Proof.
  intros Hd [Hn Hm]. unfold create_sdap_entity. destruct def.
  2: { eexists. split; [done|]. by apply sdap_wf_fresh. }
  edestruct (cfor_inv (fun (_ : Z) e => sdap_wf e) (Z.to_nat n) 0) as (e & -> & He); [| |by exists e].
  - by apply (sdap_wf_fresh ue pdu).
  - intros i b Hi Hb. destruct (Hm i) as (v & -> & Hq); [lia|]. cbn [mbind outcome_bind].
    destruct (map_update_ok b (u8 v) (se_default_drb b) rx tx Hb) as (b' & -> & Hb' & _); [apply Hq|].
    by exists b'.
Qed.

Lemma one_qfi_ok l : one_qfi l ->
  exists p, first_qfi l = Ok p /\ qfis_ok p (u8 (zlen l)).
Proof.
  intros (q & -> & Hq). eexists. split; [done|]. change (u8 (zlen [q])) with 1. split; [lia|].
  intros i Hi. assert (i = 0) as -> by lia. by exists q.
Qed.

Lemma reconfigure_ok e c ue d : sdap_wf e ->
  (exists q, mappedQoS_FlowsToAdd c = Some q /\ one_qfi q) ->
  (forall q, mappedQoS_FlowsToRelease c = Some q -> one_qfi q) ->
  exists e' out, reconfigure_entity e c ue d = Ok (e', out) /\ sdap_wf e'.
Proof.
  intros Hwf (q & Ha & Hq) Hr. unfold reconfigure_entity. rewrite Ha. cbn [of_option mbind outcome_bind].
  destruct (one_qfi_ok q Hq) as (p & -> & Hp). cbn [mbind outcome_bind].
  destruct (config_ok e (se_default_drb e) ue p (u8 (zlen q)) (u8 d) (is_sdap_rx false c) (is_sdap_tx false c) Hwf Hp)
    as (e1 & out & -> & Hwf1). cbn [mbind outcome_bind].
  destruct (mappedQoS_FlowsToRelease c) as [q'|] eqn:E; cbn [mbind outcome_bind]; [|by eexists _, _].
  destruct (one_qfi_ok q' (Hr _ eq_refl)) as (p' & -> & Hn' & Hp'). cbn [mbind outcome_bind].
  edestruct (cfor_inv (fun (_ : Z) e => sdap_wf e) (Z.to_nat (u8 (zlen q'))) 0) as (e' & -> & He'); [| |by exists e', out].
  - exact Hwf1.
  - intros i b Hi Hb. destruct (Hp' i) as (v & -> & Hqv); [lia|]. cbn [mbind outcome_bind].
    unfold nr_sdap_qfi2drb_map_del. destruct (table_get_ok b (u8 v) Hb Hqv) as [-> _]. cbn [mbind outcome_bind].
    destruct (table_set_ok b (u8 v) ((row b (u8 v)) <| q_drb_id := SDAP_NO_MAPPING_RULE |>) Hb Hqv)
      as (b' & Hb' & ? & _); [done|]. by exists b'.
Qed.

Lemma tx_ok e a rb n b q rqi acc : sdap_wf e -> qfi_ok q -> 0 <= n <= zlen b ->
  exists e' out ret, nr_sdap_tx_entity e a rb n (Some b) q rqi acc = Ok (e', out, ret) /\ sdap_wf e'.
Proof.
  intros Hwf Hq Hn. unfold nr_sdap_tx_entity. cbn [of_option mbind outcome_bind].
  destruct (qfi2drb_map_ok e q Hwf Hq) as (e' & -> & Hwf' & _). cbn [mbind outcome_bind].
  destruct (table_get_ok e' q Hwf' Hq) as [-> _]. cbn [mbind outcome_bind].
  destruct (if z2b _ then _ else _) as [d h]. destruct h; cbn [negb]; [|by eexists _, _, _].
  destruct (_ || _) eqn:E; [by eexists _, _, _|]. zify_bool.
  rewrite zslice_ok by lia. cbn [of_option mbind outcome_bind].
  unfold SDAP_HDR_LENGTH, SDAP_MAX_PDU. rewrite (proj2 (Z.leb_le (1 + n) 9000)) by lia.
  by eexists _, _, _.
Qed.

Lemma rx_ok inst e rb gnb hdr pdu ue buf n : sdap_wf e -> (gnb = true -> is_Some inst) ->
  0 < rb <= MAX_DRBS_PER_UE -> b2z hdr <= n <= zlen buf ->
  exists e' out, nr_sdap_rx_entity inst e rb gnb hdr pdu ue buf n = Ok (e', out) /\ sdap_wf e'.
Proof.
  intros Hwf Hi Hrb Hn. unfold nr_sdap_rx_entity.
  change SDAP_HDR_LENGTH with 1. change (if hdr then 1 else 0) with (b2z hdr).
  rewrite (zslice_ok buf (b2z hdr) (n - b2z hdr)) by (destruct hdr; cbn in *; lia).
  assert (hdr = true -> exists h, zget buf 0 = Some h) as Hh.
  { intros ->. cbn in Hn. apply zget_ok. lia. }
  cbn [of_option mbind outcome_bind]. destruct gnb.
  - destruct (Hi eq_refl) as [inst' ->].
    destruct hdr; cbn [of_option mbind outcome_bind]; [|by eexists _, _].
    destruct (Hh eq_refl) as [h ->]. by eexists _, _.
  - destruct hdr; cbn [mbind outcome_bind]; [|by eexists _, _].
    destruct (Hh eq_refl) as [h ->]. cbn [of_option mbind outcome_bind].
    destruct (_ =? _); cbn [mbind outcome_bind]; [|by eexists _, _].
    destruct (reflective_ok e ue rb (dl_QFI (dl_hdr_of h)) Hwf) as (e' & -> & Hwf' & _); [|done|].
    { unfold qfi_ok. cbn. unfold bits_field. rewrite Z.land_ones by lia. by apply Z.mod_pos_bound. }
    by eexists _, _.
Qed.

(** ** All entities of the list *)

Abbreviation all_wf := (Forall sdap_wf).

Lemma get_wf l u p e : all_wf l -> nr_sdap_get_entity l u p = Some e -> sdap_wf e.
Proof.
  intros Hall H. rewrite get_entity_lookup in H. unfold sdap_map in H.
  apply elem_of_list_to_map_2, list_elem_of_fmap in H as (x & Heq & Hx).
  assert (e = x) as -> by congruence.
  rewrite Forall_forall in Hall. by apply Hall.
Qed.

Lemma put_wf l e : all_wf l -> sdap_wf e -> all_wf (sdap_put l e).
Proof.
  intros Hall He. induction Hall as [|x l Hx Hall IH]; [done|]. cbn [sdap_put].
  destruct (sdap_is _ _ _); by constructor.
Qed.

Lemma release_wf e d : sdap_wf e -> sdap_wf (release_rules e d).
Proof.
  intros [Ht Hr Hd]. unfold release_rules. constructor; field_simpl; [|apply List.Forall_map|done].
  - unfold zlen in *. by rewrite length_map.
  - eapply Forall_impl; [exact Hr|]. intros r Hdrb. cbn. case_if; field_simpl; done.
Qed.

Lemma filter_wf (P : nr_sdap_entity_t -> Prop) `{!forall e, Decision (P e)} l :
  all_wf l -> all_wf (base.filter P l).
Proof. intros Hall. apply Forall_forall. intros e [_ He]%list_elem_of_filter.
  rewrite Forall_forall in Hall. by apply Hall. Qed.

Lemma sdap_step_ok l op : all_wf l -> NoDup (keys l) -> zlen l <= SDAP_MAX_NUM_OF_ENTITIES + 1 ->
  sdap_op_ok l op ->
  exists l' out ret, sdap_step l op = Ok (l', out, ret) /\ all_wf l' /\ zlen l' <= zlen l + 1.
Proof.
  intros Hall Hnd Hl Hop.
  assert (forall e : nr_sdap_entity_t, zlen (sdap_put l e) <= zlen l + 1) as Hput.
  { intros e. unfold zlen. rewrite put_length. lia. }
  assert (forall (P : nr_sdap_entity_t -> Prop) `{!forall e, Decision (P e)}, zlen (base.filter P l) <= zlen l + 1) as Hfil.
  { intros P ?. unfold zlen. pose proof (length_filter P l). lia. }
  destruct op as [gnb rx tx ue pdu def drb m n|ue drb pdu|ue pdu|ue|c ue pdu drb
    |a ue rb n buf q rqi pdu acc|inst rb gnb hdr pdu ue buf n]; cbn [sdap_step sdap_op_ok] in *.
  - destruct Hop as [Hd Hm]. unfold new_nr_sdap_entity.
    destruct (nr_sdap_get_entity l ue pdu) as [e|] eqn:E.
    + pose proof (get_wf _ _ _ _ Hall E) as He. destruct gnb; cbn [negb mbind outcome_bind].
      * eexists _, _, _. split; [done|]. split; [by apply put_wf|apply Hput].
      * destruct (config_ok e (se_default_drb e) ue m n drb rx tx He Hm) as (e' & out & -> & He').
        eexists _, _, _. split; [done|]. split; [by apply put_wf|apply Hput].
    + destruct (create_ok rx tx ue pdu def drb m n Hd Hm) as (e & -> & He).
      eexists _, _, _. split; [done|]. split; [by constructor|]. rewrite zlen_cons. lia.
  - eexists _, _, _. split; [done|]. unfold nr_sdap_release_drb.
    destruct (nr_sdap_get_entity l ue pdu) as [e|] eqn:E; [|by split; [|lia]].
    split; [|apply Hput]. apply put_wf; [done|]. apply release_wf. by eapply get_wf.
  - rewrite delete_entity_filter by done. eexists _, _, _. split; [done|]. split; [by apply filter_wf|apply Hfil].
  - rewrite delete_ue_filter. eexists _, _, _. split; [done|]. split; [by apply filter_wf|apply Hfil].
  - destruct Hop as [Ha Hr]. unfold nr_reconfigure_sdap_entity.
    destruct (nr_sdap_get_entity l ue pdu) as [e|] eqn:E; [|by eexists _, _, _; split; [done|]; split; [|lia]].
    destruct (reconfigure_ok e c ue drb (get_wf _ _ _ _ Hall E) Ha Hr) as (e' & out & -> & He').
    eexists _, _, _. split; [done|]. split; [by apply put_wf|apply Hput].
  - destruct Hop as (Hq & b & -> & Hn). unfold sdap_data_req.
    destruct (nr_sdap_get_entity l ue pdu) as [e|] eqn:E; [|by eexists _, _, _; split; [done|]; split; [|lia]].
    destruct (tx_ok e a rb n b q rqi acc (get_wf _ _ _ _ Hall E) Hq Hn) as (e' & out & ret & -> & He').
    eexists _, _, _. split; [done|]. split; [by apply put_wf|apply Hput].
  - destruct Hop as (Hi & Hrb & Hn). unfold sdap_data_ind.
    destruct (nr_sdap_get_entity l ue pdu) as [e|] eqn:E; [|by eexists _, _, _; split; [done|]; split; [|lia]].
    destruct (rx_ok inst e rb gnb hdr pdu ue buf n (get_wf _ _ _ _ Hall E) Hi Hrb Hn) as (e' & out & -> & He').
    eexists _, _, _. split; [done|]. split; [by apply put_wf|apply Hput].
Qed.

(** The calls are as promised, each in the state it finds. *)
Fixpoint sdap_ops_ok (l : list nr_sdap_entity_t) (ops : list sdap_op) : Prop :=
  match ops with
  | [] => True
  | op :: ops =>
      sdap_op_ok l op /\
      match sdap_step l op with Ok (l, _, _) => sdap_ops_ok l ops | Fault _ => True end
  end.

Lemma sdap_run_typed ops l :
  all_wf l -> NoDup (keys l) -> zlen l + zlen ops <= SDAP_MAX_NUM_OF_ENTITIES + 1 -> sdap_ops_ok l ops ->
  exists l' outs, sdap_run l ops = Ok (l', outs) /\ all_wf l' /\ NoDup (keys l') /\ length outs = length ops.
Proof.
  revert l. induction ops as [|op ops IH]; intros l Hall Hnd Hl Hok; cbn [sdap_run].
  { by eexists _, _. }
  rewrite zlen_cons in Hl. pose proof (zlen_nonneg ops). destruct Hok as [Hop Hok].
  destruct (sdap_step_ok l op Hall Hnd ltac:(lia) Hop) as (l1 & out & ret & Hs & Hall1 & Hl1).
  rewrite Hs in Hok |- *. cbn [mbind outcome_bind].
  destruct (IH l1) as (l' & outs & -> & Hall' & Hnd' & Hlen); [done| |lia|done|].
  { eapply sdap_step_nodup; [exact Hnd| |exact Hs]. lia. }
  cbn [mbind outcome_bind]. eexists _, _. split; [done|]. split_and!; [done|done|]. cbn. by rewrite Hlen.
Qed.

(** C28: with calls as the callers promise them (QFIs below 64, a first session
    before a deletion, buffers as long as announced, GTP-U up before uplink
    data), no sequence of calls fails; all entities keep a table of 64 rules
    for bearers 0 to 32 and a default bearer of one byte, and no two entities
    have the same UE and PDU session. *)
Theorem sdap_typed ops :
  zlen ops <= SDAP_MAX_NUM_OF_ENTITIES + 1 -> sdap_ops_ok [] ops ->
  exists l outs, sdap_run [] ops = Ok (l, outs) /\ Forall sdap_wf l /\ NoDup (keys l) /\
    length outs = length ops.
Proof. intros Hn Hok. apply sdap_run_typed; [constructor|constructor| |done]. by rewrite zlen_nil. Qed.

Lemma sdap_typed_witness :
  sdap_ops_ok [] [SdapNew false true true 7 1 true 1 (Some [5]) 1; SdapDataReq (mk_tx_args false 7 false 0 0 2) 7 1 2
                    (Some [69; 0]) 5 true 1 true; SdapDelete 7 1] /\
  exists l outs, sdap_run [] [SdapNew false true true 7 1 true 1 (Some [5]) 1;
                    SdapDataReq (mk_tx_args false 7 false 0 0 2) 7 1 2 (Some [69; 0]) 5 true 1 true;
                    SdapDelete 7 1] = Ok (l, outs) /\ Forall sdap_wf l /\ length outs = 3%nat.
Proof.
  match goal with |- ?P /\ _ => assert P as Hok end.
  { cbn [sdap_ops_ok sdap_op_ok]. split.
    - split; [lia|]. split; [lia|]. intros i Hi. assert (i = 0) as -> by lia. by exists 5.
    - vm_compute sdap_step. split.
      + split; [done|]. exists [69; 0]. done.
      + vm_compute sdap_step. done. }
  split; [exact Hok|].
  destruct (fun H => sdap_typed _ H Hok) as (l & outs & Hrun & Hwf & _ & Hlen).
  { vm_compute. discriminate. }
  by exists l, outs.
Defined.

(** ** What the code does on some concrete runs *)

(** Deleting a session before any was created: the guard tests "empty list and
    bad identity" where it means "or". *)
Example sdap_delete_empty : nr_sdap_delete_entity [] 7 1 = Fault NullDeref.
Proof. reflexivity. Qed.

(** A QoS flow without rule goes to the default bearer without SDAP header: the
    gNB, where the bearer has one, takes the first byte of the SDU for it. *)
Example sdap_default_omits_header :
  exists l, sdap_run [] [SdapNew false true true 7 1 true 1 (Some [5]) 1;
                         SdapDataReq (mk_tx_args false 7 false 0 0 2) 7 1 3 (Some [69; 0; 1]) 6 true 1 true]
    = Ok (l, [([], true); ([PdcpDataReqDrb (mk_pdcp_req 7 false 1 0 0 3 [69; 0; 1] 2)], true)]) /\
  nr_sdap_rx_entity (Some 3) demo_entity 1 true true 1 7 [69; 0; 1] 3
    = Ok (demo_entity, [GtpTunnelDataReq 3 7 1 [0; 1]]).
Proof. eexists. split; vm_compute; reflexivity. Qed.

(** A reconfiguration with two QFIs reads behind the first one. *)
Example sdap_reconfigure_two_qfis :
  sdap_run [] [SdapNew false true true 7 1 true 1 (Some [5]) 1;
               SdapReconfigure (mk_sdap_config 0 0 (Some [5; 6]) None) 7 1 2] = Fault OutOfBounds.
Proof. vm_compute. reflexivity. Qed.

(** Bearers above 5 get no rule, so no header either. *)
Example sdap_bearer_6_no_rule :
  exists e, create_sdap_entity true true 7 1 true 6 (Some [5]) 1 = Ok e /\ rule e 5 = 0 /\
    tx_drb e 5 1 = 6 /\ tx_with_header e 5 = false.
Proof. eexists. split; [vm_compute; reflexivity|]. split_and!; vm_compute; reflexivity. Qed.

(** The default bearer stays the default after its release. *)
Example sdap_release_keeps_default :
  exists e, create_sdap_entity true true 7 1 true 1 (Some [5]) 1 = Ok e /\
    rule (release_rules e 1) 5 = 0 /\ tx_drb (release_rules e 1) 5 4 = 1.
Proof. eexists. split; [vm_compute; reflexivity|]. split_and!; vm_compute; reflexivity. Qed.

(** At the gNB an end marker becomes an empty packet for GTP-U. *)
Example sdap_end_marker_to_gtp :
  nr_sdap_rx_entity (Some 3) demo_entity 1 true true 1 7 [9] 1
  = Ok (demo_entity, [GtpTunnelDataReq 3 7 1 []]).
Proof. reflexivity. Qed.

(** A QFI of 64 or more reads and writes outside of the table. *)
Example sdap_qfi_64 acc :
  nr_sdap_tx_entity demo_entity (mk_tx_args false 7 false 0 0 2) 1 1 (Some [69]) 64 true acc = Fault OutOfBounds.
Proof. reflexivity. Qed.

(** Reflective mapping sends the end marker on a bearer without UL header. *)
Example sdap_marker_without_header :
  exists e, nr_sdap_rx_entity None (mk_sdap 7 2 1 (replicate 64 (mk_qfi2drb 0 false false))) 4 false true 1 7 [137] 1
    = Ok (e, [end_marker 7 9 2; end_marker 7 9 2; NasWrite []]).
Proof. eexists. vm_compute. reflexivity. Qed.
