(* ===== verification/PqcDispatch.v ===== *)
(** * Dispatch layer of the post-quantum DTLS wrapper (pqc/dtls/pqc_obf.h,
      pqc_dispatch.h, pqc_dispatch.c)

    The state machine whose values the wrapper throws away, the table through
    which OpenSSL is called, the counters of an operation, and the buffer
    transformation with its would-be inverse.  All words are [uint32_t]. *)

From S2P Require Import Prelude.

(** ** pqc_obf.h *)

Definition _QOBF_STATE_ROL (x n : Z) : Z := Z.lor (u32 (Z.shiftl x n)) (Z.shiftr x (32 - n)).
Definition _QOBF_STATE_ROR (x n : Z) : Z := Z.lor (Z.shiftr x n) (u32 (Z.shiftl x (32 - n))).
Definition _QOBF_XOR_KEY : Z := 0xDEADBEEF.
Definition _QOBF_STATE_MIX (a b : Z) : Z := u32 (Z.lxor a b + _QOBF_XOR_KEY).

Record _qobf_state_machine := mk_qsm {
  _qsm_state_0 : Z;
  _qsm_state_1 : Z;
  _qsm_transition_key : Z;
  _qsm_entropy_pool : Z;
}.

Definition _qobf_init_state_machine (seed : Z) : _qobf_state_machine :=
  let s0 := _QOBF_STATE_ROL seed 7 in
  let s1 := _QOBF_STATE_ROR seed 13 in
  mk_qsm s0 s1 (_QOBF_STATE_MIX s0 s1) (Z.lxor seed _QOBF_XOR_KEY).

Definition _qobf_state_transition (q : _qobf_state_machine) : Z * _qobf_state_machine :=
  let s0 := _QOBF_STATE_MIX (_qsm_state_1 q) (_qsm_transition_key q) in
  let s1 := _QOBF_STATE_ROL (_qsm_state_0 q) 11 in
  let pool := Z.lxor (_qsm_entropy_pool q) s0 in
  (pool, mk_qsm s0 s1 (_qsm_transition_key q) pool).

Fixpoint buffer_hash_from (h i : Z) (buf : list Z) : Z :=
  match buf with
  | [] => h
  | b :: buf => buffer_hash_from (_QOBF_STATE_MIX (Z.lxor (_QOBF_STATE_ROL h 5) b) (u32 i)) (i + 1) buf
  end.
Definition _qobf_buffer_hash (buf : list Z) : Z := buffer_hash_from 0x5A5A5A5A 0 buf.

(** ** The dispatch table *)

(** The six function pointers are set together, to OpenSSL's and libc's
    functions; [vt_set] says that they are. *)
Record _qdisp_vtable := mk_vtable { vt_set : bool; _vtbl_magic : Z; _vtbl_version : Z }.

Definition _qdisp_init_vtable : _qdisp_vtable := mk_vtable true 0xDEADC0DE 0x00010001.
Definition _QDISP_VALIDATE_TBL (t : _qdisp_vtable) : bool := _vtbl_magic t =? 0xDEADC0DE.

(** The globals of pqc_dispatch.c. *)
Record qdisp_globals := mk_qdisp {
  _g_qdisp_tbl : _qdisp_vtable;
  _g_qdisp_initialized : bool;
  _g_qdisp_init_counter : Z;
}.

Definition qdisp_start : qdisp_globals := mk_qdisp (mk_vtable false 0 0) false 0.

Definition _qdisp_ensure_init (g : qdisp_globals) : Z * qdisp_globals :=
  if negb (_g_qdisp_initialized g)
  then (1, mk_qdisp _qdisp_init_vtable true (u32 (_g_qdisp_init_counter g + 1)))
  else (0, g).

Definition _qdisp_is_initialized (g : qdisp_globals) : bool :=
  _g_qdisp_initialized g && _QDISP_VALIDATE_TBL (_g_qdisp_tbl g).

Definition _qdisp_get_table (g : qdisp_globals) : _qdisp_vtable * qdisp_globals :=
  let g := if negb (_qdisp_is_initialized g) then snd (_qdisp_ensure_init g) else g in
  (_g_qdisp_tbl g, g).

(** ** Operation contexts *)

Inductive _qdisp_operation_t : Type :=
| _QDISP_OP_ENCRYPT | _QDISP_OP_DECRYPT | _QDISP_OP_HANDSHAKE | _QDISP_OP_VERIFY.

Definition op_code (t : _qdisp_operation_t) : Z :=
  match t with
  | _QDISP_OP_ENCRYPT => 1 | _QDISP_OP_DECRYPT => 2 | _QDISP_OP_HANDSHAKE => 4 | _QDISP_OP_VERIFY => 8
  end.

Record _qdisp_op_ctx := mk_op_ctx { _op_type : _qdisp_operation_t; _op_counter : Z; _op_flags : Z }.

Definition _qdisp_init_op_ctx (t : _qdisp_operation_t) : _qdisp_op_ctx :=
  mk_op_ctx t 0 (Z.lor (Z.shiftl (op_code t) 16) 0xBEEF).

Definition _qdisp_op_tick (q : _qdisp_op_ctx) : Z * _qdisp_op_ctx :=
  let counter := Z.land (u32 (_op_counter q + 1)) 0x7FFFFFFF in
  (counter, mk_op_ctx (_op_type q) counter (Z.land (Z.lxor (_op_flags q) counter) 0xFFFF)).

Definition op_flag (t : _qdisp_operation_t) : Z :=
  match t with
  | _QDISP_OP_ENCRYPT => 0x0100 | _QDISP_OP_DECRYPT => 0x0200
  | _QDISP_OP_HANDSHAKE => 0x0400 | _QDISP_OP_VERIFY => 0x0800
  end.

Definition _qdisp_execute_op (q : option _qdisp_op_ctx) : Z * option _qdisp_op_ctx :=
  match q with
  | None => (-1, None)
  | Some q =>
      let '(tick, q) := _qdisp_op_tick q in
      (Z.land tick 0xFF,
       Some (mk_op_ctx (_op_type q) (_op_counter q) (Z.lor (_op_flags q) (op_flag (_op_type q)))))
  end.

(** ** The buffer transformation *)

Record _qdisp_transform_ctx := mk_transform {
  _transform_seed : Z;
  _transform_state : list Z;
  _transform_rounds : Z;
}.

Definition _qdisp_init_transform (seed : Z) : _qdisp_transform_ctx :=
  mk_transform seed
    [Z.lxor seed 0xA5A5A5A5;
     Z.lor (u32 (Z.shiftl seed 8)) (Z.shiftr seed 24);
     u32 (Z.lnot seed);
     u32 (seed + 0x12345678)] 3.

(** One byte with the key at its position. *)
Definition transform_byte (key i b : Z) : Z :=
  let v := Z.lxor b (Z.land (Z.shiftr key (Z.land i 0x18)) 0xFF) in
  u8 (Z.lor (Z.shiftl v 3) (Z.shiftr v 5)).
Definition inverse_byte (key i b : Z) : Z :=
  let v := u8 (Z.lor (Z.shiftr b 3) (Z.shiftl b 5)) in
  Z.lxor v (Z.land (Z.shiftr key (Z.land i 0x18)) 0xFF).

Definition key_left (key : Z) : Z := _QOBF_STATE_ROL key 7.
Definition key_right (key : Z) : Z := _QOBF_STATE_ROR key 7.

(** A round of [_qdisp_transform_buffer] from position [i]. *)
Fixpoint transform_round (key i : Z) (buf : list Z) : list Z :=
  match buf with
  | [] => []
  | b :: buf => transform_byte key i b :: transform_round (key_left key) (i + 1) buf
  end.

(** A round of [_qdisp_inverse_transform], on the bytes from the last to the
    first; [i] is the position of the first of them. *)
Fixpoint inverse_round (key i : Z) (rev_buf : list Z) : list Z :=
  match rev_buf with
  | [] => []
  | b :: buf => inverse_byte key i b :: inverse_round (key_right key) (i - 1) buf
  end.

Definition state_key (c : _qdisp_transform_ctx) (r : Z) : outcome Z :=
  of_option OutOfBounds (zget (_transform_state c) (Z.land r 3)).

Definition transform_step (r : Z) (st : _qdisp_transform_ctx * list Z)
    : outcome (_qdisp_transform_ctx * list Z) :=
  let '(c, buf) := st in
  key ← state_key c r;
  s ← of_option OutOfBounds (zset (_transform_state c) (Z.land r 3) (u32 (Z.lxor key (zlen buf))));
  Ok (mk_transform (_transform_seed c) s (_transform_rounds c), transform_round key 0 buf).

Definition _qdisp_transform_buffer (c : _qdisp_transform_ctx) (buf : list Z)
    : outcome (_qdisp_transform_ctx * list Z) :=
  cfor (Z.to_nat (_transform_rounds c)) 0 transform_step (c, buf).

Definition inverse_step (c : _qdisp_transform_ctx) (k : Z) (buf : list Z) : outcome (list Z) :=
  key ← state_key c (_transform_rounds c - 1 - k);
  let key := u32 (Z.lxor key (zlen buf)) in
  let key := Nat.iter (length buf) key_right key in
  Ok (reverse (inverse_round key (zlen buf - 1) (reverse buf))).

Definition _qdisp_inverse_transform (c : _qdisp_transform_ctx) (buf : list Z) : outcome (list Z) :=
  cfor (Z.to_nat (_transform_rounds c)) 0 (inverse_step c) buf.

Definition _qdisp_process_buffer (buf : list Z) (seed : Z) (forward : bool) : outcome (list Z) :=
  let c := _qdisp_init_transform seed in
  if forward then '(_, buf) ← _qdisp_transform_buffer c buf; Ok buf
  else _qdisp_inverse_transform c buf.

(** The inverse does not undo the transformation: it xors the length into a
    state that does not hold it, and turns the key to the right where the
    forward direction turned it to the left. *)
Example pqc_inverse_is_not :
  (b ← _qdisp_process_buffer [1; 2; 3; 4] 0xCAFEBABE true;
    _qdisp_process_buffer b 0xCAFEBABE false) <> Ok [1; 2; 3; 4].
Proof. vm_compute. discriminate. Qed.
