(* ===== verification/Dtls.v ===== *)
(** * The post-quantum DTLS client object (pqc/dtls/dtls.c)

    The buffers around an OpenSSL connection: the handshake, the encryption of
    a message into [write_buf], the decryption of a record.  OpenSSL is the
    class [Dtls]: its SSL objects and memory BIOs are abstract, and the laws
    the client relies on are [DtlsLaws].  Bytes the C code never wrote are
    arguments ([..._stack]): the content the memory happened to have. *)

From S2P Require Import Prelude PqcDispatch.

(** ** OpenSSL *)

(** A call returns its [int] first.  [SSL_write] and [SSL_read] also change the
    memory BIO the SSL object writes to, or reads from. *)
Class Dtls := {
  ssl_t : Type;
  bio_t : Type;
  BIO_new_mem : bio_t;
  BIO_write : bio_t -> list Z -> Z * bio_t;
  BIO_read : bio_t -> Z -> Z * bio_t * list Z;
  BIO_should_retry : bio_t -> bool;
  SSL_get_error : ssl_t -> Z -> Z;
  SSL_write : ssl_t -> bio_t -> list Z -> Z * ssl_t * bio_t;
  SSL_read : ssl_t -> bio_t -> Z -> Z * ssl_t * bio_t * list Z;
}.

Ltac is_param a ::= lazymatch type of a with Dtls => idtac end.

Definition SSL_ERROR_NONE : Z := 0.
Definition SSL_ERROR_SSL : Z := 1.
Definition SSL_ERROR_WANT_READ : Z := 2.
Definition SSL_ERROR_WANT_WRITE : Z := 3.
Definition SSL_ERROR_SYSCALL : Z := 5.
Definition SSL_ERROR_ZERO_RETURN : Z := 6.
Definition X509_V_OK : Z := 0.

(** Memory BIOs are byte queues; a connection delivers what it is given. *)
Class DtlsLaws (d : Dtls) := {
  bio_contents : bio_t -> list Z;
  (** [connected a b]: what [a] writes, [b] can read. *)
  connected : ssl_t -> ssl_t -> Prop;
  (** The record [SSL_write] makes of a message. *)
  record_of : ssl_t -> list Z -> list Z;
  record_overhead : Z;
  BIO_new_empty : bio_contents BIO_new_mem = [];
  BIO_write_appends b data : data <> [] ->
    exists b', BIO_write b data = (zlen data, b') /\ bio_contents b' = bio_contents b ++ data;
  BIO_read_takes b cap : bio_contents b <> [] -> zlen (bio_contents b) <= cap ->
    exists b', BIO_read b cap = (zlen (bio_contents b), b', bio_contents b) /\ bio_contents b' = [];
  record_size s m : zlen m < zlen (record_of s m) <= zlen m + record_overhead;
  SSL_write_seals a b w m : connected a b -> 0 < zlen m <= 16384 ->
    exists a' w', SSL_write a w m = (zlen m, a', w') /\
      bio_contents w' = bio_contents w ++ record_of a m /\ SSL_get_error a' (zlen m) = SSL_ERROR_NONE;
  (** A datagram that begins with the next record of the peer gives its
      message; what follows the record is not one, and is dropped. *)
  SSL_read_opens a b w r m junk cap : connected a b -> 0 < zlen m <= cap ->
    bio_contents r = record_of a m ++ junk ->
    exists b' r', SSL_read b r cap = (zlen m, b', r', m) /\ bio_contents r' = [] /\
      connected (snd (fst (SSL_write a w m))) b';
}.

Section Client.
Context `{d : Dtls}.

(** ** The client *)

Inductive ssl_ptr : Type := SslNull | SslLive (s : ssl_t) | SslFreed.

(** A pointer to a heap buffer is its content.  [leaked] counts the bytes of
    buffers to which no pointer is left. *)
Record Client := mk_client {
  c_ssl : ssl_ptr;
  rbio : option bio_t;
  wbio : option bio_t;
  write_buf : option (list Z);
  write_len : Z;
  encrypt_buf : option (list Z);
  encrypt_len : Z;
  plain_text_size : Z;
  c_sd : Z;
  handshake_done : Z;
  leaked : Z;
}.
#[export] Instance eta_client : RecordEta Client :=
  fld (fld (fld (fld (fld (fld (fld (fld (fld (fld (fld (fun _ => mk_client) c_ssl) rbio) wbio) write_buf)
    write_len) encrypt_buf) encrypt_len) plain_text_size) c_sd) handshake_done) leaked.

(** [ssl] is the result of SSL_new, with the groups and the mode set. *)
Definition _q_ssl_client_init_v1 (ssl : option ssl_t) (fd plain_text_size : Z) : Z * Client :=
  match ssl with
  | None => (-1, mk_client SslNull None None None 0 None 0 0 0 0 0)
  | Some s => (0, mk_client (SslLive s) None None None 0 None 0 plain_text_size fd 0 0)
  end.

Inductive sslstatus : Type := SSLSTATUS_OK | SSLSTATUS_WANT_IO | SSLSTATUS_FAIL.
#[export] Instance sslstatus_eq_dec : EqDecision sslstatus.
Proof. solve_decision. Defined.

Definition _q_get_ssl_status_v1 (ssl : ssl_t) (n : Z) : sslstatus :=
  let err := SSL_get_error ssl n in
  if err =? SSL_ERROR_NONE then SSLSTATUS_OK
  else if (err =? SSL_ERROR_WANT_WRITE) || (err =? SSL_ERROR_WANT_READ) then SSLSTATUS_WANT_IO
  else SSLSTATUS_FAIL.

Definition live (p : ssl_ptr) : outcome ssl_t :=
  match p with SslLive s => Ok s | SslNull => Fault NullDeref | SslFreed => Fault Dangling end.

(** ** Handshake *)

(** One attempt on the socket: what SSL_do_handshake returned, the error code,
    the SSL object after it, whether the peer sent a certificate, and the
    result of its verification. *)
Record hs_attempt := mk_hs { hs_ret : Z; hs_err : Z; hs_ssl : ssl_t; hs_peer_cert : bool; hs_verify : Z }.

(** The memory BIOs can always be made. *)
Definition _q_do_ssl_handshake_v1 (c : Client) (a : hs_attempt) : outcome (sslstatus * Client) :=
  _ ← live (c_ssl c);
  let c := c <| c_ssl := SslLive (hs_ssl a) |> in
  if hs_ret a <=? 0 then
    if (hs_err a =? SSL_ERROR_WANT_READ) || (hs_err a =? SSL_ERROR_WANT_WRITE)
    then Ok (SSLSTATUS_WANT_IO, c)
    else Ok (SSLSTATUS_FAIL, c <| c_ssl := SslFreed |>)
  else if negb (hs_verify a =? X509_V_OK) then Ok (SSLSTATUS_FAIL, c)
  else
    (* the subject of the certificate is printed *)
    _ ← require (hs_peer_cert a) NullDeref;
    Ok (SSLSTATUS_OK, c <| rbio := Some BIO_new_mem |> <| wbio := Some BIO_new_mem |>).

(** ** Encryption *)

Definition buf_size (p : option (list Z)) : Z := match p with Some b => zlen b | None => 0 end.

Definition _q_send_unenc_bytes_v1 (c : Client) (buf : list Z) (buf_len : Z) : outcome Client :=
  data ← of_option OutOfBounds (zslice buf 0 buf_len);
  Ok (c <| leaked := leaked c + buf_size (encrypt_buf c) |>
        <| encrypt_buf := Some data |> <| encrypt_len := buf_len |>).

(** [allocate_and_copy] on [write_buf], and the length. *)
Definition _q_queue_enc_bytes_v1 (c : Client) (buf : list Z) (buf_len : Z) : outcome Client :=
  data ← of_option OutOfBounds (zslice buf 0 buf_len);
  Ok (c <| write_buf := Some data |> <| write_len := buf_len |>).

(** The body of the loop: [None] for [continue]. *)
Definition encrypt_once (c : Client) : outcome (option Z * Client) :=
  s ← live (c_ssl c);
  w ← of_option NullDeref (wbio c);
  b ← of_option NullDeref (encrypt_buf c);
  plain ← of_option OutOfBounds (zslice b 0 (encrypt_len c));
  let '(n, s, w) := SSL_write s w plain in
  let c := c <| c_ssl := SslLive s |> <| wbio := Some w |> in
  let status := _q_get_ssl_status_v1 s n in
  let finish c := Ok (Some (if bool_decide (status = SSLSTATUS_FAIL) then -1 else 0), c) in
  if n >? 0 then
    rest ← of_option OutOfBounds (zslice b n (encrypt_len c - n));
    let c := c <| encrypt_len := encrypt_len c - n |> in
    let c := if encrypt_len c =? 0 then c else c <| encrypt_buf := Some rest |> in
    let '(bytes_read, w, buf) := BIO_read w (plain_text_size c) in
    let c := c <| wbio := Some w |> in
    if bytes_read >? 0 then c ← _q_queue_enc_bytes_v1 c buf bytes_read; finish c
    else if negb (BIO_should_retry w) then Ok (None, c)
    else Ok (Some (-1), c)
  else finish c.

Fixpoint encrypt_loop (fuel : nat) (c : Client) : outcome (Z * Client) :=
  match fuel with
  | O => Fault Diverge
  | S fuel =>
      if encrypt_len c >? 0 then
        '(r, c) ← encrypt_once c;
        match r with Some r => Ok (r, c) | None => encrypt_loop fuel c end
      else Ok (0, c)
  end.

(** The global dispatch table and state machine are initialised; their values
    are not used. *)
Definition _q_encrypt_buffer_v1 (c : Client) : outcome (Z * Client) :=
  encrypt_loop (S (Z.to_nat (encrypt_len c))) c.

Definition _q_msg_encrypt_v1 (c : Client) (buf : list Z) (buf_len : Z) : outcome (Z * Client) :=
  c ← _q_send_unenc_bytes_v1 c buf buf_len;
  _q_encrypt_buffer_v1 c.

(** ** Decryption *)

(** [buf_copy] is a local array of [plain_text_size] bytes; all of it is copied
    to [dst]. *)
Definition _q_read_enc_bytes_v1 (c : Client) (src : list Z) (src_len : Z) (dst buf_copy_stack : list Z)
    : outcome (Z * Client * list Z) :=
  if src_len >? 0 then
    r ← of_option NullDeref (rbio c);
    data ← of_option OutOfBounds (zslice src 0 src_len);
    let '(n, r) := BIO_write r data in
    let c := c <| rbio := Some r |> in
    if n <=? 0 then Ok (-1, c, dst)
    else
      s ← live (c_ssl c);
      let '(n, s, r, plain) := SSL_read s r (plain_text_size c) in
      let c := c <| c_ssl := SslLive s |> <| rbio := Some r |> in
      if n >? 0 then
        buf_copy ← of_option OutOfBounds (zblit buf_copy_stack 0 plain);
        buf_copy ← of_option OutOfBounds (zslice buf_copy 0 (plain_text_size c));
        dst ← of_option OutOfBounds (zblit dst 0 buf_copy);
        Ok (0, c, dst)
      else Ok (0, c, dst)
  else Ok (0, c, dst).

Definition _q_msg_decrypt_v1 (c : Client) (src : list Z) (src_len : Z) (dst buf_copy_stack : list Z)
    : outcome (Client * list Z) :=
  '(_, c, dst) ← _q_read_enc_bytes_v1 c src src_len dst buf_copy_stack;
  Ok (c, dst).

Definition _q_sock_read_v1 (c : Client) (buf : list Z) (buf_len : Z) : outcome (Z * Client) :=
  r ← of_option NullDeref (rbio c);
  data ← of_option OutOfBounds (zslice buf 0 buf_len);
  let '(n, r) := BIO_write r data in
  Ok (if n =? -1 then -1 else 0, c <| rbio := Some r |>).

(** The SSL object and the three allocations are freed; a second free faults. *)
Definition _q_cleanup_ssl_client_v1 (c : Client) : outcome unit :=
  match c_ssl c with SslFreed => Fault Dangling | _ => Ok tt end.

End Client.
Arguments Client : clear implicits.
Arguments Client d : rename.
