(* ===== verification/DtlsProps.v ===== *)
(** * Encryption and decryption of one message by the DTLS client
      (pqc/dtls/dtls.c), and an instance of the laws of OpenSSL *)

From S2P Require Import Prelude Dtls.

Section Client.
Context `{d : Dtls}.

(** What a call leaves of a client besides its SSL object and BIOs. *)
Definition same_config (c c' : Client d) : Prop :=
  plain_text_size c' = plain_text_size c /\ handshake_done c' = handshake_done c /\ c_sd c' = c_sd c.

Lemma status_none s n : SSL_get_error s n = SSL_ERROR_NONE -> _q_get_ssl_status_v1 s n = SSLSTATUS_OK.
Proof. unfold _q_get_ssl_status_v1. by intros ->. Qed.

Definition status_ret (s : ssl_t) (n : Z) : Z :=
  if bool_decide (_q_get_ssl_status_v1 s n = SSLSTATUS_FAIL) then -1 else 0.

(** The message is written and its record read back: it is in [write_buf]. *)
Lemma msg_encrypt_writes c s w m s' w' k w'' rec :
  c_ssl c = SslLive s -> wbio c = Some w -> 0 < zlen m ->
  SSL_write s w m = (zlen m, s', w') -> BIO_read w' (plain_text_size c) = (k, w'', rec) ->
  0 < k -> k = zlen rec ->
  exists c', _q_msg_encrypt_v1 c m (zlen m) = Ok (status_ret s' (zlen m), c') /\
    c_ssl c' = SslLive s' /\ wbio c' = Some w'' /\ rbio c' = rbio c /\
    write_buf c' = Some rec /\ write_len c' = k /\
    encrypt_buf c' = Some m /\ leaked c' = leaked c + buf_size (encrypt_buf c) /\ same_config c c'.
Proof.
  intros Hs Hw Hm Hwr Hrd Hk ->.
  unfold _q_msg_encrypt_v1, _q_send_unenc_bytes_v1. rewrite zslice_all. cbn [of_option mbind outcome_bind].
  unfold _q_encrypt_buffer_v1. field_simpl. cbn [encrypt_loop]. field_simpl.
  rewrite (proj2 (Z.gtb_lt _ _)) by lia. unfold encrypt_once. field_simpl. rewrite Hs, Hw.
  cbn [live of_option mbind outcome_bind]. rewrite zslice_all. cbn [of_option mbind outcome_bind].
  rewrite Hwr. cbn [mbind outcome_bind]. rewrite (proj2 (Z.gtb_lt _ _)) by lia.
  rewrite Z.sub_diag, zslice_ok by lia. cbn [of_option mbind outcome_bind]. field_simpl.
  rewrite Z.eqb_refl. field_simpl. rewrite Hrd.
  rewrite (proj2 (Z.gtb_lt _ _)) by lia. unfold _q_queue_enc_bytes_v1. rewrite zslice_all.
  cbn [of_option mbind outcome_bind]. eexists. split; [reflexivity|]. unfold same_config. field_simpl. done.
Qed.

(** When SSL_write does not write, [write_buf] keeps the record before. *)
Lemma msg_encrypt_fails c s w m n s' w' :
  c_ssl c = SslLive s -> wbio c = Some w -> 0 < zlen m -> SSL_write s w m = (n, s', w') -> n <= 0 ->
  exists c', _q_msg_encrypt_v1 c m (zlen m) = Ok (status_ret s' n, c') /\
    c_ssl c' = SslLive s' /\ wbio c' = Some w' /\ rbio c' = rbio c /\
    write_buf c' = write_buf c /\ write_len c' = write_len c /\
    encrypt_buf c' = Some m /\ leaked c' = leaked c + buf_size (encrypt_buf c) /\ same_config c c'.
Proof.
  intros Hs Hw Hm Hwr Hn.
  unfold _q_msg_encrypt_v1, _q_send_unenc_bytes_v1. rewrite zslice_all. cbn [of_option mbind outcome_bind].
  unfold _q_encrypt_buffer_v1. field_simpl. cbn [encrypt_loop]. field_simpl.
  rewrite (proj2 (Z.gtb_lt _ _)) by lia. unfold encrypt_once. field_simpl. rewrite Hs, Hw.
  cbn [live of_option mbind outcome_bind]. rewrite zslice_all. cbn [of_option mbind outcome_bind].
  rewrite Hwr. destruct (n >? 0) eqn:E; zify_bool; [lia|]. cbn [mbind outcome_bind].
  eexists. split; [reflexivity|]. unfold same_config. field_simpl. done.
Qed.

(** What SSL_read gives is copied, with what the local array held behind it. *)
Lemma msg_decrypt_reads c s r src dst copy n1 r1 s' r' plain :
  c_ssl c = SslLive s -> rbio c = Some r -> 0 < zlen src -> BIO_write r src = (n1, r1) -> 0 < n1 ->
  SSL_read s r1 (plain_text_size c) = (zlen plain, s', r', plain) -> 0 < zlen plain <= plain_text_size c ->
  zlen copy = plain_text_size c -> plain_text_size c <= zlen dst ->
  exists c', _q_msg_decrypt_v1 c src (zlen src) dst copy
    = Ok (c', plain ++ drop (length plain) copy ++ drop (length copy) dst) /\
    c_ssl c' = SslLive s' /\ rbio c' = Some r' /\ wbio c' = wbio c /\ same_config c c'.
Proof.
  intros Hs Hr Hn Hbw Hn1 Hrd Hp Hcopy Hdst. unfold _q_msg_decrypt_v1, _q_read_enc_bytes_v1.
  rewrite (proj2 (Z.gtb_lt _ _)) by lia. rewrite Hr, zslice_all. cbn [of_option mbind outcome_bind].
  rewrite Hbw. field_simpl. rewrite (proj2 (Z.leb_gt _ _)) by lia. rewrite Hs. cbn [live mbind outcome_bind].
  rewrite Hrd. rewrite (proj2 (Z.gtb_lt _ _)) by lia. field_simpl.
  rewrite zblit_ok by lia. cbn [of_option mbind outcome_bind].
  change (take (Z.to_nat 0) copy) with (@nil Z). change (Z.to_nat 0 + length plain)%nat with (length plain).
  set (full := [] ++ plain ++ drop (length plain) copy).
  assert (length full = length copy) as Hl.
  { unfold full, zlen in *. rewrite !length_app, length_drop. cbn. lia. }
  assert (zslice full 0 (plain_text_size c) = Some full) as ->.
  { rewrite <- Hcopy. unfold zlen. rewrite <- Hl. apply zslice_all. }
  cbn [of_option mbind outcome_bind].
  assert (zlen full = zlen copy) as Hzl by (unfold zlen; lia).
  rewrite zblit_ok by lia. cbn [of_option mbind outcome_bind].
  eexists. split.
  - cbn [mbind outcome_bind]. change (take (Z.to_nat 0) dst) with (@nil Z).
    change (Z.to_nat 0 + length full)%nat with (length full). rewrite Hl. unfold full. cbn [app].
    by rewrite <- app_assoc.
  - unfold same_config. field_simpl. done.
Qed.

(** When SSL_read gives nothing, the destination is not written. *)
Lemma msg_decrypt_fails c s r src dst copy n1 r1 n2 s' r' plain :
  c_ssl c = SslLive s -> rbio c = Some r -> 0 < zlen src -> BIO_write r src = (n1, r1) -> 0 < n1 ->
  SSL_read s r1 (plain_text_size c) = (n2, s', r', plain) -> n2 <= 0 ->
  exists c', _q_msg_decrypt_v1 c src (zlen src) dst copy = Ok (c', dst) /\
    c_ssl c' = SslLive s' /\ rbio c' = Some r' /\ wbio c' = wbio c /\ same_config c c'.
Proof.
  intros Hs Hr Hn Hbw Hn1 Hrd Hn2. unfold _q_msg_decrypt_v1, _q_read_enc_bytes_v1.
  rewrite (proj2 (Z.gtb_lt _ _)) by lia. rewrite Hr, zslice_all. cbn [of_option mbind outcome_bind].
  rewrite Hbw. field_simpl. rewrite (proj2 (Z.leb_gt _ _)) by lia. rewrite Hs. cbn [live mbind outcome_bind].
  rewrite Hrd. destruct (n2 >? 0) eqn:E; zify_bool; [lia|]. cbn [mbind outcome_bind].
  eexists. split; [reflexivity|]. unfold same_config. field_simpl. done.
Qed.

End Client.

(** ** From the laws of OpenSSL *)

Section Laws.
Context `{laws : DtlsLaws}.

(** A client ready to write (or read): an SSL object and an empty BIO. *)
Definition can_write (c : Client d) (s : ssl_t) : Prop :=
  c_ssl c = SslLive s /\ exists w, wbio c = Some w /\ bio_contents w = [].
Definition can_read (c : Client d) (s : ssl_t) : Prop :=
  c_ssl c = SslLive s /\ exists r, rbio c = Some r /\ bio_contents r = [].

(** The message becomes one record in [write_buf]; the buffer of the message
    before it is lost. *)
Lemma msg_encrypt_ok c a b m :
  can_write c a -> connected a b -> 0 < zlen m <= 16384 -> zlen m + record_overhead <= plain_text_size c ->
  exists c' w, _q_msg_encrypt_v1 c m (zlen m) = Ok (0, c') /\
    can_write c' (snd (fst (SSL_write a w m))) /\
    write_buf c' = Some (record_of a m) /\ write_len c' = zlen (record_of a m) /\
    leaked c' = leaked c + buf_size (encrypt_buf c) /\ encrypt_buf c' = Some m /\ same_config c c'.
Proof.
  intros (Hs & w & Hw & Hwe) Hab Hm Hcap.
  destruct (SSL_write_seals a b w m Hab Hm) as (a' & w' & Hwr & Hwc & Herr).
  pose proof (record_size a m) as Hrec. rewrite Hwe in Hwc. cbn in Hwc.
  destruct (BIO_read_takes w' (plain_text_size c)) as (w'' & Hrd & Hre); [|rewrite Hwc; lia|].
  { rewrite Hwc. intros E. rewrite E in Hrec. rewrite zlen_nil in Hrec. lia. }
  rewrite Hwc in Hrd.
  destruct (msg_encrypt_writes c a w m a' w' _ w'' _ Hs Hw ltac:(lia) Hwr Hrd ltac:(lia) eq_refl)
    as (c' & He & Hs' & Hw' & _ & Hbuf & Hlen & Henc & Hleak & Hsame).
  exists c', w. unfold status_ret in He. rewrite status_none in He by done.
  rewrite Hwr. unfold can_write. split_and!; eauto.
Qed.

(** A datagram that begins with the next record gives its message. *)
Lemma msg_decrypt_ok c a b w m junk dst copy :
  can_read c b -> connected a b -> 0 < zlen m <= plain_text_size c ->
  zlen copy = plain_text_size c -> plain_text_size c <= zlen dst ->
  exists b' c', _q_msg_decrypt_v1 c (record_of a m ++ junk) (zlen (record_of a m ++ junk)) dst copy
    = Ok (c', m ++ drop (length m) copy ++ drop (length copy) dst) /\
    can_read c' b' /\ connected (snd (fst (SSL_write a w m))) b' /\ same_config c c'.
Proof.
  intros (Hs & r & Hr & Hre) Hab Hm Hcopy Hdst.
  pose proof (record_size a m) as Hrec. pose proof (zlen_nonneg junk) as Hj.
  assert (0 < zlen (record_of a m ++ junk)) as Hn by (rewrite zlen_app; lia).
  destruct (BIO_write_appends r (record_of a m ++ junk)) as (r1 & Hbw & Hr1).
  { intros E. apply (f_equal zlen) in E. rewrite zlen_nil in E. lia. }
  rewrite Hre in Hr1. cbn in Hr1.
  destruct (SSL_read_opens a b w r1 m junk (plain_text_size c) Hab Hm Hr1) as (b' & r2 & Hrd & Hr2 & Hab').
  destruct (msg_decrypt_reads c b r _ dst copy _ r1 b' r2 m Hs Hr Hn Hbw Hn Hrd Hm Hcopy Hdst)
    as (c' & Hdec & Hs' & Hr' & _ & Hsame).
  exists b', c'. unfold can_read. split_and!; eauto.
Qed.

End Laws.

(** ** An instance of the laws of OpenSSL

    A record is the number of the record, the length and the message, in clear;
    an SSL object is the number of the next record.  It shows that the laws of
    [DtlsLaws] can hold, and runs the examples. *)

Definition toy_record (s : Z) (m : list Z) : list Z := [s mod 256; zlen m / 256; zlen m mod 256] ++ m.

Definition toy_read (s : Z) (r : list Z) (cap : Z) : Z * Z * list Z * list Z :=
  match r with
  | n :: h :: l :: rest =>
      let len := h * 256 + l in
      if (n =? s mod 256) && (0 <? len) && (len <=? zlen rest) && (len <=? cap)
      then (len, s + 1, [], take (Z.to_nat len) rest)
      else (-1, s, [], [])
  | _ => (-1, s, [], [])
  end.

#[export] Instance toy : Dtls := {|
  ssl_t := Z;
  bio_t := list Z;
  BIO_new_mem := [];
  BIO_write b data := match data with [] => (-1, b) | _ => (zlen data, b ++ data) end;
  BIO_read b cap :=
    match b with
    | [] => (-1, [], [])
    | _ => (Z.min (zlen b) cap, drop (Z.to_nat cap) b, take (Z.to_nat cap) b)
    end;
  BIO_should_retry _ := true;
  SSL_get_error _ n := if 0 <? n then SSL_ERROR_NONE else SSL_ERROR_WANT_READ;
  SSL_write s w m :=
    if 0 <? zlen m then (zlen m, s + 1, w ++ toy_record s m) else (-1, s, w);
  SSL_read := toy_read;
|}.

Lemma toy_seals (a b : Z) (w m : list Z) : a = b -> 0 < zlen m <= 16384 ->
  exists a' w', SSL_write (Dtls := toy) a w m = (zlen m, a', w') /\
    w' = w ++ toy_record a m /\ SSL_get_error (Dtls := toy) a' (zlen m) = SSL_ERROR_NONE.
Proof.
  intros _ Hm. cbn. rewrite (proj2 (Z.ltb_lt _ _)) by lia. cbn. by eexists _, _.
Qed.

Lemma toy_opens (a b : Z) (w r m junk : list Z) cap : a = b -> 0 < zlen m <= cap -> r = toy_record a m ++ junk ->
  exists b' r', SSL_read (Dtls := toy) b r cap = (zlen m, b', r', m) /\ r' = [] /\
    snd (fst (SSL_write (Dtls := toy) a w m)) = b'.
Proof.
  intros <- Hm ->. unfold toy_record. cbn [SSL_read toy toy_read app].
  assert (zlen m / 256 * 256 + zlen m mod 256 = zlen m) as -> by (pose proof (Z.div_mod (zlen m) 256); lia).
  rewrite Z.eqb_refl, (proj2 (Z.ltb_lt _ _)) by lia. rewrite (proj2 (Z.leb_le _ (zlen (m ++ junk)))) by (rewrite zlen_app; pose proof (zlen_nonneg junk); lia).
  rewrite (proj2 (Z.leb_le _ cap)) by lia. cbn [andb]. eexists _, _. split_and!; [|done|].
  - unfold zlen. rewrite Nat2Z.id, take_app_length. reflexivity.
  - cbn. rewrite (proj2 (Z.ltb_lt _ _)) by lia. done.
Qed.

#[export] Instance toy_laws : DtlsLaws toy.
Proof.
  refine {| bio_contents := (fun b : @bio_t toy => b : list Z);
            connected := (fun a b : @ssl_t toy => a = b :> Z);
            record_of := toy_record; record_overhead := 3 |}.
  - done.
  - intros b data Hd. destruct data as [|x data]; [done|]. by eexists.
  - intros b cap Hb Hcap. destruct b as [|x b]; [done|]. eexists. cbn in Hcap |- *. split; [|].
    + rewrite Z.min_l by done. rewrite take_ge by (unfold zlen in Hcap; lia). reflexivity.
    + apply drop_ge. unfold zlen in Hcap. lia.
  - intros s m. unfold toy_record. rewrite zlen_app. unfold zlen. cbn [length]. lia.
  - intros a b w m Hab Hm. by apply (toy_seals a b).
  - intros a b w r m junk cap Hab Hm Hr. by apply (toy_opens a b w r m junk).
Defined.
