(* ===== verification/Sctp.v ===== *)
(** * The SCTP task (openair3/SCTP/sctp_eNB_task.c)

    The list of associations, sending and receiving on them through the DTLS
    client once its handshake is done, the handshake itself, accepting and
    closing.  What the kernel answers is an argument of each operation; calls
    of the kernel and messages to other tasks are events. *)

From S2P Require Import Prelude Dtls.

Definition SCTP_RECV_BUFFER_SIZE : Z := 8192.

Inductive sctp_connection_type_e : Type := SCTP_TYPE_CLIENT | SCTP_TYPE_SERVER | SCTP_TYPE_MULTI_SERVER.

(** The tasks the code tells apart. *)
Inductive task_id_t : Type :=
| TASK_DU_F1 | TASK_CU_F1 | TASK_CUCP_E1 | TASK_CUUP_E1 | TASK_NGAP | TASK_OTHER (n : Z).

Inductive sctp_state_e : Type := SCTP_STATE_ESTABLISHED | SCTP_STATE_UNREACHABLE | SCTP_STATE_SHUTDOWN.

Inductive sctp_event : Type :=
| SctpSendmsg (sd ppid stream : Z) (buf : option (list Z)) (len : Z)
| NewMessageInd (task : task_id_t) (instance assoc_id : Z) (buffer : list Z) (len stream : Z)
| AssociationResp (task : task_id_t) (instance assoc_id cnx_id : Z) (state : sctp_state_e) (out_streams in_streams : Z)
| AssociationInd (task : task_id_t) (instance assoc_id port out_streams in_streams : Z)
| CloseSocket (sd : Z)
| SubscribeFd (sd : Z)
| UnsubscribeFd (sd : Z).

Section Sctp.
Context `{d : Dtls}.

Record sctp_cnx_t := mk_cnx {
  connection_type : sctp_connection_type_e;
  sd : Z;
  local_port : Z;
  in_streams : Z;
  out_streams : Z;
  ppid : Z;
  assoc_id : Z;
  messages_recv : Z;
  messages_sent : Z;
  task_id : task_id_t;
  instance : Z;
  cnx_id : Z;
  ssl_client : option (Client d);
}.
#[export] Instance eta_cnx : RecordEta sctp_cnx_t :=
  fld (fld (fld (fld (fld (fld (fld (fld (fld (fld (fld (fld (fld (fun _ => mk_cnx) connection_type) sd)
    local_port) in_streams) out_streams) ppid) assoc_id) messages_recv) messages_sent) task_id) instance)
    cnx_id) ssl_client.

(** The list, first element first, and the counter of its elements. *)
Record sctp_state := mk_sctp { sctp_cnx_list : list sctp_cnx_t; sctp_nb_cnx : Z }.
#[export] Instance eta_sctp : RecordEta sctp_state :=
  fld (fld (fun _ => mk_sctp) sctp_cnx_list) sctp_nb_cnx.

(** The position of the connection found. *)
Fixpoint find_cnx (p : sctp_cnx_t -> bool) (l : list sctp_cnx_t) : option nat :=
  match l with
  | [] => None
  | c :: l => if p c then Some O else S <$> find_cnx p l
  end.

Definition sctp_get_cnx (st : sctp_state) (assoc sock : Z) : option nat :=
  find_cnx (fun c => if negb (assoc =? -1) then assoc_id c =? assoc else sd c =? sock) (sctp_cnx_list st).

(** The object of the connection at [i] is changed in place. *)
Definition set_cnx (st : sctp_state) (i : nat) (c : sctp_cnx_t) : sctp_state :=
  st <| sctp_cnx_list := <[i := c]> (sctp_cnx_list st) |>.
(** STAILQ_REMOVE *)
Definition remove_cnx (st : sctp_state) (i : nat) : sctp_state :=
  st <| sctp_cnx_list := base.delete i (sctp_cnx_list st) |>.
(** STAILQ_INSERT_TAIL, and the counter. *)
Definition insert_cnx (st : sctp_state) (c : sctp_cnx_t) : sctp_state :=
  st <| sctp_cnx_list := sctp_cnx_list st ++ [c] |> <| sctp_nb_cnx := u16 (sctp_nb_cnx st + 1) |>.

Definition is_encryption_ready (c : sctp_cnx_t) : bool :=
  match ssl_client c with Some s => handshake_done s =? 1 | None => false end.

(** ** Sending *)

Record sctp_data_req_t := mk_data_req {
  dr_assoc_id : Z;
  dr_stream : Z;
  dr_buffer : option (list Z);
  dr_buffer_length : Z;
}.

Definition is_valid_data_request (r : option sctp_data_req_t) : bool :=
  match r with
  | Some r => match dr_buffer r with Some _ => dr_buffer_length r >? 0 | None => false end
  | None => false
  end.

Definition is_stream_valid (stream max : Z) : bool := stream <? max.

Definition send_sctp_message (c : sctp_cnx_t) (buf : option (list Z)) (len stream : Z) : list sctp_event :=
  [SctpSendmsg (sd c) (ppid c) stream buf len].

Definition sctp_send_data (st : sctp_state) (req : option sctp_data_req_t)
    : outcome (sctp_state * list sctp_event) :=
  if negb (is_valid_data_request req) then Ok (st, []) else
  r ← of_option NullDeref req;
  match sctp_get_cnx st (dr_assoc_id r) 0 with
  | None => Ok (st, [])
  | Some i =>
      c ← of_option Dangling (sctp_cnx_list st !! i);
      if negb (is_stream_valid (dr_stream r) (out_streams c)) then Ok (st, []) else
      payload ← of_option NullDeref (dr_buffer r);
      match ssl_client c with
      | Some client =>
          if is_encryption_ready c then
            (* the result of the encryption is not used *)
            '(_, client) ← _q_msg_encrypt_v1 client payload (dr_buffer_length r);
            Ok (set_cnx st i (c <| ssl_client := Some client |>),
                send_sctp_message c (write_buf client) (write_len client) (dr_stream r))
          else Ok (st, send_sctp_message c (Some payload) (dr_buffer_length r) (dr_stream r))
      | None => Ok (st, send_sctp_message c (Some payload) (dr_buffer_length r) (dr_stream r))
      end
  end.

Definition sctp_close_association (st : sctp_state) (assoc : Z) : outcome (Z * sctp_state * list sctp_event) :=
  match sctp_get_cnx st assoc 0 with
  | None => Ok (-1, st, [])
  | Some i =>
      c ← of_option Dangling (sctp_cnx_list st !! i);
      Ok (0, remove_cnx st i, [CloseSocket (sd c)])
  end.

(** ** Receiving *)

Inductive sctp_notification : Type :=
| SCTP_SHUTDOWN_EVENT
| SCTP_COMM_UP
| SCTP_OTHER_CHANGE
| SCTP_OTHER_NOTIFICATION.

(** What the kernel answers: the return value and data of sctp_recvmsg, whether
    errno says that the socket is not connected, the flags, the sender
    information, and the answers to the two socket queries; and what the three
    local arrays happen to hold. *)
Record sctp_recv_t := mk_recv {
  rx_n : Z;
  rx_data : list Z;
  rx_disconnected : bool;
  rx_eor : bool;
  rx_notification : option sctp_notification;
  rx_assoc_id : Z;
  rx_stream : Z;
  rx_peeraddresses : Z;
  rx_sockinfo : option (Z * Z * Z);
  rx_buffer_stack : list Z;
  rx_buffer_copy_stack : list Z;
  rx_buf_copy_stack : list Z;
}.

Definition assoc_resp (c : sctp_cnx_t) (s : sctp_state_e) (out inn : Z) : sctp_event :=
  AssociationResp (task_id c) (instance c) (assoc_id c) (cnx_id c) s out inn.

(** A notification of the kernel. *)
Definition sctp_notify (st : sctp_state) (i : nat) (c : sctp_cnx_t) (k : sctp_recv_t) (n : sctp_notification)
    : sctp_state * list sctp_event :=
  match n with
  | SCTP_SHUTDOWN_EVENT =>
      ((remove_cnx st i) <| sctp_nb_cnx := u16 (sctp_nb_cnx st - 1) |>,
       [UnsubscribeFd (sd c); CloseSocket (sd c); assoc_resp c SCTP_STATE_SHUTDOWN 0 0])
  | SCTP_COMM_UP =>
      let c := match rx_sockinfo k with
               | Some (inn, out, assoc) =>
                   if rx_peeraddresses k =? 0
                   then c <| in_streams := inn |> <| out_streams := out |> <| assoc_id := assoc |> else c
               | None => c
               end in
      (set_cnx st i c, [assoc_resp c SCTP_STATE_ESTABLISHED (out_streams c) (in_streams c)])
  | SCTP_OTHER_CHANGE | SCTP_OTHER_NOTIFICATION => (st, [])
  end.

Definition sctp_eNB_read_from_socket (st : sctp_state) (i : option nat) (k : sctp_recv_t)
    : outcome (sctp_state * list sctp_event) :=
  match i with
  | None => Ok (st, [])
  | Some i =>
      c ← of_option Dangling (sctp_cnx_list st !! i);
      buffer ← of_option OutOfBounds
                 (if rx_n k >? 0 then zblit (rx_buffer_stack k) 0 (rx_data k) else Some (rx_buffer_stack k));
      (* decrypting using ssl, whatever was received *)
      '(c, buffer_copy) ←
        match ssl_client c with
        | Some client =>
            if is_encryption_ready c then
              '(client, copy) ← _q_msg_decrypt_v1 client buffer SCTP_RECV_BUFFER_SIZE
                                  (rx_buffer_copy_stack k) (rx_buf_copy_stack k);
              Ok (c <| ssl_client := Some client |>, copy)
            else Ok (c, rx_buffer_copy_stack k)
        | None => Ok (c, rx_buffer_copy_stack k)
        end;
      let st := set_cnx st i c in
      if rx_n k <? 0 then
        if rx_disconnected k
        then Ok ((remove_cnx st i) <| sctp_nb_cnx := u16 (sctp_nb_cnx st - 1) |>,
                 [UnsubscribeFd (sd c); assoc_resp c SCTP_STATE_UNREACHABLE 0 0; CloseSocket (sd c)])
        else Ok (st, [])
      else if rx_n k =? 0 then Ok (st, [])
      else if negb (rx_eor k) then Ok (st, [])
      else match rx_notification k with
      | Some n => Ok (sctp_notify st i c k n)
      | None =>
          let c := c <| messages_recv := u32 (messages_recv c + 1) |> in
          let b := if is_encryption_ready c then buffer_copy else buffer in
          msg ← of_option OutOfBounds (zslice b 0 (rx_n k));
          Ok (set_cnx st i c,
              [NewMessageInd (task_id c) (instance c) (rx_assoc_id k) msg (rx_n k) (rx_stream k)])
      end
  end.

(** ** Handshake *)

Definition sctp_ssl_do_handshake (st : sctp_state) (assoc : Z) (a : hs_attempt)
    : outcome (sslstatus * sctp_state) :=
  i ← of_option NullDeref (sctp_get_cnx st assoc 0);
  c ← of_option Dangling (sctp_cnx_list st !! i);
  client ← of_option NullDeref (ssl_client c);
  '(status, client) ← _q_do_ssl_handshake_v1 client a;
  match status with
  | SSLSTATUS_OK =>
      Ok (SSLSTATUS_OK, set_cnx st i (c <| ssl_client := Some (client <| handshake_done := 1 |>) |>))
  | _ => Ok (SSLSTATUS_FAIL, set_cnx st i (c <| ssl_client := Some client |>))
  end.

(** SCTP_SSL_DO_HANDSHAKE: again and again until it succeeds.  [attempts] are
    the answers of OpenSSL; when they run out the loop still runs. *)
Fixpoint handshake_loop (st : sctp_state) (assoc : Z) (attempts : list hs_attempt) : outcome sctp_state :=
  match attempts with
  | [] => Fault Diverge
  | a :: attempts =>
      '(status, st) ← sctp_ssl_do_handshake st assoc a;
      match status with SSLSTATUS_OK => Ok st | _ => handshake_loop st assoc attempts end
  end.

(** ** Accepting *)

Record sctp_accept_t := mk_accept {
  ac_sd : Z;                            (* accept *)
  ac_port : Z;
  ac_fcntl : Z;
  ac_ctx : Z;                           (* init_global_server_ctx *)
  ac_ssl : option ssl_t;                (* SSL_new *)
  ac_sockinfo : option (Z * Z * Z);
}.

Definition dtls_task (t : task_id_t) : bool := match t with TASK_OTHER _ => false | _ => true end.

Definition sctp_eNB_accept_associations (st : sctp_state) (srv : option sctp_cnx_t) (k : sctp_accept_t)
    : sctp_state * list sctp_event :=
  match srv with
  | None => (st, [])
  | Some s =>
      if ac_sd k <? 0 then (st, [])
      else if ac_fcntl k <? 0 then (st, [CloseSocket (ac_sd k)])
      else if dtls_task (task_id s) then
        if negb (ac_ctx k =? 0) then (st, [CloseSocket (ac_sd k)])
        else
          let '(ret, client) := _q_ssl_client_init_v1 (ac_ssl k) (ac_sd k) 8192 in
          if ret =? -1 then (st, [CloseSocket (ac_sd k)])
          else match ac_sockinfo k with
          | None => (st, [CloseSocket (ac_sd k)])
          | Some (inn, out, assoc) =>
              let c := mk_cnx SCTP_TYPE_CLIENT (ac_sd k) (local_port s) inn out (ppid s) assoc 0 0
                         (task_id s) (instance s) 0 (Some client) in
              (insert_cnx st c,
               [SubscribeFd (ac_sd k);
                AssociationInd (task_id s) (instance s) assoc (ac_port k) out inn])
          end
      else (st, [])
  end.

End Sctp.
Arguments sctp_cnx_t : clear implicits.
Arguments sctp_cnx_t d : rename.
Arguments sctp_state : clear implicits.
Arguments sctp_state d : rename.
