(* ===== verification/SctpProps.v ===== *)
(** * What the SCTP task sends, delivers and waits for
      (openair3/SCTP/sctp_eNB_task.c over pqc/dtls/dtls.c)

    The lemmas first: a connection changed in place is still found, and what
    one send or one reception does to a connection whose handshake is done.
    The properties of the task are at the end. *)

From S2P Require Import Prelude PqcDispatch Dtls DtlsProps Sctp.

(** ** The list of connections *)

Section Lists.
Context `{d : Dtls}.

Lemma find_cnx_insert p (l : list (sctp_cnx_t d)) i c c' :
  l !! i = Some c -> p c' = p c -> find_cnx p (<[i := c']> l) = find_cnx p l.
Proof.
  intros Hl Hp. revert i Hl. induction l as [|x l IH]; intros [|i] Hl; try done.
  - inversion Hl; subst. cbn. by rewrite Hp.
  - change (<[S i:=c']> (x :: l)) with (x :: <[i:=c']> l). cbn [find_cnx]. by rewrite (IH i Hl).
Qed.

Lemma get_cnx_set (st : sctp_state d) assoc sock i c c' :
  sctp_cnx_list st !! i = Some c -> assoc_id c' = assoc_id c -> sd c' = sd c ->
  sctp_get_cnx (set_cnx st i c') assoc sock = sctp_get_cnx st assoc sock.
Proof. intros Hl Ha Hs. apply (find_cnx_insert _ _ _ c); [done|]. by rewrite Ha, Hs. Qed.

Lemma set_cnx_lookup (st : sctp_state d) i c c' :
  sctp_cnx_list st !! i = Some c -> sctp_cnx_list (set_cnx st i c') !! i = Some c'.
Proof. intros Hl. unfold set_cnx. field_simpl. apply list_lookup_insert_eq. by eapply lookup_lt_Some. Qed.

Lemma set_cnx_twice (st : sctp_state d) i c c' : set_cnx (set_cnx st i c) i c' = set_cnx st i c'.
Proof. unfold set_cnx. field_simpl. by rewrite list_insert_insert_eq. Qed.

Lemma ready_iff c client : ssl_client (d := d) c = Some client ->
  is_encryption_ready c = true <-> handshake_done client = 1.
Proof. unfold is_encryption_ready. intros ->. apply Z.eqb_eq. Qed.

End Lists.

(** ** Sending *)

Section Send.
Context `{d : Dtls}.
Variables (st : sctp_state d) (r : sctp_data_req_t) (i : nat) (c : sctp_cnx_t d) (m : list Z).
Hypothesis Hget : sctp_get_cnx st (dr_assoc_id r) 0 = Some i.
Hypothesis Hc : sctp_cnx_list st !! i = Some c.
Hypothesis Hbuf : dr_buffer r = Some m.
Hypothesis Hlen : dr_buffer_length r = zlen m.
Hypothesis Hpos : 0 < zlen m.

Lemma send_valid : is_valid_data_request (Some r) = true.
Proof. cbn. rewrite Hbuf, Hlen. apply Z.gtb_lt. lia. Qed.

Lemma send_stream_out : out_streams c <= dr_stream r -> sctp_send_data st (Some r) = Ok (st, []).
Proof.
  intros Hs. unfold sctp_send_data. rewrite send_valid. cbn [negb of_option mbind outcome_bind].
  rewrite Hget, Hc. cbn [of_option mbind outcome_bind]. unfold is_stream_valid.
  by rewrite (proj2 (Z.ltb_ge _ _)).
Qed.

Lemma send_clear : dr_stream r < out_streams c -> is_encryption_ready c = false ->
  sctp_send_data st (Some r) = Ok (st, [SctpSendmsg (sd c) (ppid c) (dr_stream r) (Some m) (zlen m)]).
Proof.
  intros Hs Hr. unfold sctp_send_data. rewrite send_valid. cbn [negb of_option mbind outcome_bind].
  rewrite Hget, Hc. cbn [of_option mbind outcome_bind]. unfold is_stream_valid.
  rewrite (proj2 (Z.ltb_lt _ _)) by done. cbn [negb]. rewrite Hbuf. cbn [of_option mbind outcome_bind].
  rewrite Hlen, Hr. by destruct (ssl_client c).
Qed.

Lemma send_encrypted client ret client' :
  dr_stream r < out_streams c -> ssl_client c = Some client -> handshake_done client = 1 ->
  _q_msg_encrypt_v1 client m (zlen m) = Ok (ret, client') ->
  sctp_send_data st (Some r)
  = Ok (set_cnx st i (c <| ssl_client := Some client' |>),
        [SctpSendmsg (sd c) (ppid c) (dr_stream r) (write_buf client') (write_len client')]).
Proof.
  intros Hs Hcl Hh He. unfold sctp_send_data. rewrite send_valid. cbn [negb of_option mbind outcome_bind].
  rewrite Hget, Hc. cbn [of_option mbind outcome_bind]. unfold is_stream_valid.
  rewrite (proj2 (Z.ltb_lt _ _)) by done. cbn [negb]. rewrite Hbuf. cbn [of_option mbind outcome_bind].
  rewrite Hcl, (proj2 (ready_iff c client Hcl) Hh), Hlen, He. done.
Qed.

End Send.

(** ** Receiving *)

(** The three local arrays of the reception have the sizes of the code. *)
Definition stacks_ok (k : sctp_recv_t) : Prop :=
  zlen (rx_buffer_stack k) = SCTP_RECV_BUFFER_SIZE /\
  zlen (rx_buffer_copy_stack k) = SCTP_RECV_BUFFER_SIZE /\
  zlen (rx_buf_copy_stack k) = SCTP_RECV_BUFFER_SIZE.

(** The answer of the kernel is a whole data message of [rx_n] bytes. *)
Definition is_message (k : sctp_recv_t) : Prop :=
  stacks_ok k /\ rx_n k = zlen (rx_data k) /\ 0 < rx_n k <= SCTP_RECV_BUFFER_SIZE /\
  rx_eor k = true /\ rx_notification k = None.

(** The local array [buffer] once the message is in it. *)
Definition recv_buffer (k : sctp_recv_t) : list Z := rx_data k ++ drop (length (rx_data k)) (rx_buffer_stack k).

Section Receive.
Context `{d : Dtls}.
Variables (st : sctp_state d) (i : nat) (c : sctp_cnx_t d) (k : sctp_recv_t).
Hypothesis Hc : sctp_cnx_list st !! i = Some c.

Definition delivered (c : sctp_cnx_t d) (k : sctp_recv_t) (msg : list Z) : sctp_event :=
  NewMessageInd (task_id c) (instance c) (rx_assoc_id k) msg (rx_n k) (rx_stream k).
Definition counted (c : sctp_cnx_t d) : sctp_cnx_t d := c <| messages_recv := u32 (messages_recv c + 1) |>.

Lemma recv_buffer_len : is_message k -> zlen (recv_buffer k) = SCTP_RECV_BUFFER_SIZE.
Proof.
  intros ((Hs & _) & Hn & Hb & _). unfold recv_buffer, zlen in *. rewrite length_app, length_drop. lia.
Qed.

Lemma recv_buffer_blit : is_message k -> zblit (rx_buffer_stack k) 0 (rx_data k) = Some (recv_buffer k).
Proof. intros ((Hs & _) & Hn & Hb & _). rewrite zblit_ok by lia. done. Qed.

Lemma recv_clear : is_message k -> is_encryption_ready c = false ->
  sctp_eNB_read_from_socket st (Some i) k = Ok (set_cnx st i (counted c), [delivered c k (rx_data k)]).
Proof.
  intros Hm Hr. pose proof (recv_buffer_blit Hm) as Hbl. pose proof (recv_buffer_len Hm) as Hbn.
  destruct Hm as (Hs & Hn & Hb & He & Hno). unfold sctp_eNB_read_from_socket. rewrite Hc. cbn [of_option mbind outcome_bind].
  rewrite (proj2 (Z.gtb_lt _ _)) by lia. rewrite Hbl. cbn [of_option mbind outcome_bind]. rewrite Hr.
  destruct (ssl_client c); cbn [mbind outcome_bind];
    (rewrite (proj2 (Z.ltb_ge _ _)) by lia; rewrite (proj2 (Z.eqb_neq _ _)) by lia; rewrite He, Hno;
     cbn [negb]; change (is_encryption_ready (c <| messages_recv := _ |>)) with (is_encryption_ready c);
     rewrite Hr, zslice_ok by lia; cbn [of_option mbind outcome_bind];
     unfold recv_buffer; rewrite Hn; unfold zlen; rewrite Nat2Z.id;
     change (Z.to_nat 0) with O; rewrite drop_0, take_app_length; rewrite set_cnx_twice;
     unfold delivered; rewrite Hn; reflexivity).
Qed.

Lemma recv_encrypted client client' copy : is_message k ->
  ssl_client c = Some client -> handshake_done client = 1 -> handshake_done client' = 1 ->
  _q_msg_decrypt_v1 client (recv_buffer k) SCTP_RECV_BUFFER_SIZE (rx_buffer_copy_stack k) (rx_buf_copy_stack k)
    = Ok (client', copy) -> zlen copy = SCTP_RECV_BUFFER_SIZE ->
  sctp_eNB_read_from_socket st (Some i) k
  = Ok (set_cnx st i (counted (c <| ssl_client := Some client' |>)),
        [delivered c k (take (Z.to_nat (rx_n k)) copy)]).
Proof.
  intros Hm Hcl Hh Hh' Hd Hcopy. pose proof (recv_buffer_blit Hm) as Hbl.
  destruct Hm as (Hs & Hn & Hb & He & Hno). unfold sctp_eNB_read_from_socket. rewrite Hc. cbn [of_option mbind outcome_bind].
  rewrite (proj2 (Z.gtb_lt _ _)) by lia. rewrite Hbl. cbn [of_option mbind outcome_bind].
  rewrite Hcl, (proj2 (ready_iff c client Hcl) Hh), Hd. cbn [mbind outcome_bind].
  rewrite (proj2 (Z.ltb_ge _ _)) by lia. rewrite (proj2 (Z.eqb_neq _ _)) by lia. rewrite He, Hno. cbn [negb].
  assert (forall x : sctp_cnx_t d, ssl_client x = Some client' -> is_encryption_ready x = true) as Hr'.
  { intros x Hx. by apply (ready_iff x client'). }
  rewrite Hr', zslice_ok by (done || lia). cbn [of_option mbind outcome_bind].
  change (Z.to_nat 0) with O. by rewrite drop_0, set_cnx_twice.
Qed.

End Receive.
