(* ===== verification/SctpEnd.v ===== *)
(** * Two SCTP tasks at the two ends of an association, and the handshake
      before (openair3/SCTP/sctp_eNB_task.c over pqc/dtls/dtls.c)

    [transfer] sends messages at one end and receives at the other what was
    sent, one datagram for each.  [Toy] is an instance of the laws of OpenSSL,
    for the witnesses. *)

From S2P Require Import Prelude PqcDispatch Dtls DtlsProps Sctp SctpProps.

(** ** The two ends *)

Section Ends.
Context `{d : Dtls}.

(** A datagram that arrives whole, with what the local arrays hold. *)
Record stacks := mk_stacks { st_buffer : list Z; st_buffer_copy : list Z; st_buf_copy : list Z }.
Definition sized (s : stacks) : Prop :=
  zlen (st_buffer s) = SCTP_RECV_BUFFER_SIZE /\ zlen (st_buffer_copy s) = SCTP_RECV_BUFFER_SIZE /\
  zlen (st_buf_copy s) = SCTP_RECV_BUFFER_SIZE.
Definition arrives (assoc stream : Z) (data : list Z) (s : stacks) : sctp_recv_t :=
  mk_recv (zlen data) data false true None assoc stream 0 None (st_buffer s) (st_buffer_copy s) (st_buf_copy s).

(** One message: sent at the first end, received at the second, whose
    connection is the [i]th and whose kernel calls the association [assoc']. *)
Definition transfer1 (stA stB : sctp_state d) (assoc stream : Z) (i : nat) (assoc' : Z) (m : list Z) (s : stacks)
    : outcome (sctp_state d * sctp_state d * list sctp_event) :=
  '(stA, sent) ← sctp_send_data stA (Some (mk_data_req assoc stream (Some m) (zlen m)));
  match sent with
  | [SctpSendmsg _ _ stream (Some buf) len] =>
      data ← of_option OutOfBounds (zslice buf 0 len);
      '(stB, evs) ← sctp_eNB_read_from_socket stB (Some i) (arrives assoc' stream data s);
      Ok (stA, stB, evs)
  | _ => Ok (stA, stB, [])
  end.

Fixpoint transfer (stA stB : sctp_state d) (assoc stream : Z) (i : nat) (assoc' : Z) (l : list (list Z * stacks))
    : outcome (sctp_state d * sctp_state d * list sctp_event) :=
  match l with
  | [] => Ok (stA, stB, [])
  | (m, s) :: l =>
      '(stA, stB, evs) ← transfer1 stA stB assoc stream i assoc' m s;
      '(stA, stB, evs') ← transfer stA stB assoc stream i assoc' l;
      Ok (stA, stB, evs ++ evs')
  end.

End Ends.

Section Transfer.
Context `{laws : DtlsLaws}.

Definition can_send (st : sctp_state d) (assoc stream : Z) (s : ssl_t) : Prop :=
  exists i c client, sctp_get_cnx st assoc 0 = Some i /\ sctp_cnx_list st !! i = Some c /\
    stream < out_streams c /\ ssl_client c = Some client /\ handshake_done client = 1 /\
    plain_text_size client = SCTP_RECV_BUFFER_SIZE /\ can_write client s.

Definition can_receive (st : sctp_state d) (i : nat) (s : ssl_t) : Prop :=
  exists c client, sctp_cnx_list st !! i = Some c /\ ssl_client c = Some client /\
    handshake_done client = 1 /\ plain_text_size client = SCTP_RECV_BUFFER_SIZE /\ can_read client s.

(** The message fits, as one record, in the buffers. *)
Definition fits (m : list Z) : Prop := 0 < zlen m /\ zlen m + record_overhead <= SCTP_RECV_BUFFER_SIZE.

(** What is delivered of [m] when its record has [n] bytes: the message, and
    after it [n - zlen m] bytes of a local array that was never written. *)
Definition delivery (assoc' stream : Z) (m : list Z) (s : stacks) (ev : sctp_event) : Prop :=
  exists task inst n, zlen m < n <= zlen m + record_overhead /\
    ev = NewMessageInd task inst assoc' (m ++ take (Z.to_nat (n - zlen m)) (drop (length m) (st_buf_copy s))) n stream.

Lemma can_send_step st assoc stream a b m :
  can_send st assoc stream a -> connected a b -> fits m ->
  exists w st' sock ppid, sctp_send_data st (Some (mk_data_req assoc stream (Some m) (zlen m)))
      = Ok (st', [SctpSendmsg sock ppid stream (Some (record_of a m)) (zlen (record_of a m))]) /\
    can_send st' assoc stream (snd (fst (SSL_write a w m))).
Proof.
  intros (i & c & client & Hget & Hc & Hst & Hcl & Hh & Hsz & Hw) Hab (Hm & Hfit).
  destruct (msg_encrypt_ok client a b m Hw Hab) as (client' & w & He & Hw' & Hbuf & Hlen & _ & _ & Hpt & Hh' & _);
    [pose proof (record_size a m); unfold SCTP_RECV_BUFFER_SIZE in *; lia..|].
  eexists w, _, _, _. split.
  - rewrite (send_encrypted st (mk_data_req assoc stream (Some m) (zlen m)) i c m Hget Hc eq_refl eq_refl Hm client 0 client' Hst Hcl Hh He).
    rewrite Hbuf, Hlen. reflexivity.
  - exists i, (c <| ssl_client := Some client' |>), client'. split_and!; field_simpl; try done; try congruence.
    + by rewrite (get_cnx_set st assoc 0 i c).
    + by apply (set_cnx_lookup st i c).
Qed.

Lemma arrives_message assoc' stream data s :
  sized s -> 0 < zlen data <= SCTP_RECV_BUFFER_SIZE -> is_message (arrives assoc' stream data s).
Proof. intros Hs Hd. unfold is_message, stacks_ok, arrives. destruct Hs as (?&?&?). cbn. split_and!; try done; lia. Qed.

Lemma can_receive_step st i assoc' stream a b m s w :
  can_receive st i b -> connected a b -> fits m -> sized s ->
  exists b' st' ev, sctp_eNB_read_from_socket st (Some i) (arrives assoc' stream (record_of a m) s) = Ok (st', [ev]) /\
    delivery assoc' stream m s ev /\ can_receive st' i b' /\ connected (snd (fst (SSL_write a w m))) b'.
Proof.
  intros (c & client & Hc & Hcl & Hh & Hsz & Hr) Hab (Hm & Hfit) Hs. pose proof (record_size a m) as Hrec.
  assert (is_message (arrives assoc' stream (record_of a m) s)) as Hmsg by (apply arrives_message; [done|lia]).
  pose proof (recv_buffer_len _ Hmsg) as Hbl. destruct Hs as (H1 & H2 & H3).
  destruct (msg_decrypt_ok client a b w m (drop (length (record_of a m)) (st_buffer s)) (st_buffer_copy s) (st_buf_copy s)
    Hr Hab ltac:(unfold SCTP_RECV_BUFFER_SIZE in *; lia) ltac:(congruence) ltac:(lia))
    as (b' & client' & Hd & Hr' & Hab' & Hpt & Hh' & _).
  change (record_of a m ++ drop _ _) with (recv_buffer (arrives assoc' stream (record_of a m) s)) in Hd.
  rewrite Hbl in Hd. eexists b', _, _. split_and!.
  - apply (recv_encrypted st i c _ Hc client client' _ Hmsg Hcl Hh ltac:(congruence) Hd).
    unfold zlen in *. rewrite !length_app, !length_drop. lia.
  - exists (task_id c), (instance c), (zlen (record_of a m)). split; [lia|].
    unfold delivered, arrives. cbn. f_equal. rewrite take_app_ge by (unfold zlen in *; lia). f_equal.
    rewrite take_app_le by (rewrite length_drop; unfold zlen in *; lia). f_equal. unfold zlen. lia.
  - exists (counted (c <| ssl_client := Some client' |>)), client'. unfold counted.
    split_and!; field_simpl; try done; try congruence. by apply (set_cnx_lookup st i c).
  - done.
Qed.
End Transfer.

(** ** The handshake *)

Section Handshake.
Context `{d : Dtls}.

(** The connection [i] of the association has a client with the SSL object [s]. *)
Definition ssl_at (st : sctp_state d) (assoc : Z) (i : nat) (s : ssl_t) : Prop :=
  exists c client, sctp_get_cnx st assoc 0 = Some i /\ sctp_cnx_list st !! i = Some c /\
    ssl_client c = Some client /\ c_ssl client = SslLive s.

(** The attempts after which the code tries again with the same SSL object:
    OpenSSL waits for the peer, or the certificate is refused. *)
Definition retries (a : hs_attempt (d := d)) : Prop :=
  (hs_ret a <= 0 /\ (hs_err a = SSL_ERROR_WANT_READ \/ hs_err a = SSL_ERROR_WANT_WRITE)) \/
  (0 < hs_ret a /\ hs_verify a <> X509_V_OK).

(** OpenSSL reports an error. *)
Definition fatal (a : hs_attempt (d := d)) : Prop :=
  hs_ret a <= 0 /\ hs_err a <> SSL_ERROR_WANT_READ /\ hs_err a <> SSL_ERROR_WANT_WRITE.

(** The handshake is complete and the certificate of the peer accepted. *)
Definition succeeds (a : hs_attempt (d := d)) : Prop :=
  0 < hs_ret a /\ hs_verify a = X509_V_OK /\ hs_peer_cert a = true.

Lemma client_retries (cl : Client d) s a : c_ssl cl = SslLive s -> retries a ->
  exists status, _q_do_ssl_handshake_v1 cl a = Ok (status, cl <| c_ssl := SslLive (hs_ssl a) |>) /\ status <> SSLSTATUS_OK.
Proof.
  intros Hs [[Hn He]|[Hn Hv]]; unfold _q_do_ssl_handshake_v1; rewrite Hs; cbn [live mbind outcome_bind].
  - rewrite (proj2 (Z.leb_le _ _)) by done.
    destruct He as [-> | ->]; (eexists; split; [reflexivity|done]).
  - rewrite (proj2 (Z.leb_gt _ _)) by done. rewrite (proj2 (Z.eqb_neq _ _)) by done.
    eexists; split; [reflexivity|done].
Qed.

Lemma client_fatal (cl : Client d) s a : c_ssl cl = SslLive s -> fatal a ->
  exists cl', _q_do_ssl_handshake_v1 cl a = Ok (SSLSTATUS_FAIL, cl') /\ c_ssl cl' = SslFreed.
Proof.
  intros Hs (Hn & Hr & Hw). unfold _q_do_ssl_handshake_v1; rewrite Hs; cbn [live mbind outcome_bind].
  rewrite (proj2 (Z.leb_le _ _)) by done.
  rewrite !(proj2 (Z.eqb_neq _ _)) by done. eexists; split; [reflexivity|]. by field_simpl.
Qed.

Lemma handshake_fails st assoc i c cl a status cl' :
  sctp_get_cnx st assoc 0 = Some i -> sctp_cnx_list st !! i = Some c -> ssl_client c = Some cl ->
  _q_do_ssl_handshake_v1 cl a = Ok (status, cl') -> status <> SSLSTATUS_OK ->
  sctp_ssl_do_handshake st assoc a = Ok (SSLSTATUS_FAIL, set_cnx st i (c <| ssl_client := Some cl' |>)).
Proof.
  intros Hget Hc Hcl Hd Hno. unfold sctp_ssl_do_handshake. rewrite Hget. cbn [of_option mbind outcome_bind].
  rewrite Hc. cbn [of_option mbind outcome_bind]. rewrite Hcl. cbn [of_option mbind outcome_bind]. rewrite Hd.
  by destruct status.
Qed.

Lemma handshake_retry st assoc i s a : ssl_at st assoc i s -> retries a ->
  exists st', sctp_ssl_do_handshake st assoc a = Ok (SSLSTATUS_FAIL, st') /\ ssl_at st' assoc i (hs_ssl a).
Proof.
  intros (c & cl & Hget & Hc & Hcl & Hs) Ha. destruct (client_retries cl s a Hs Ha) as (status & Hd & Hno).
  eexists. split; [by eapply handshake_fails|].
  eexists _, _. split_and!; [by rewrite (get_cnx_set st assoc 0 i c)|by apply (set_cnx_lookup st i c)|by field_simpl..].
Qed.

Lemma loop_retries st assoc i s pre : ssl_at st assoc i s -> Forall retries pre ->
  exists st' s', ssl_at st' assoc i s' /\
    forall rest, handshake_loop st assoc (pre ++ rest) = handshake_loop st' assoc rest.
Proof.
  intros Hs Hpre. revert st s Hs. induction Hpre as [|a pre Ha Hpre IH]; intros st s Hs; [by eauto|].
  destruct (handshake_retry st assoc i s a Hs Ha) as (st1 & Hd & Hs1).
  destruct (IH st1 _ Hs1) as (st' & s' & Hs' & Hl). exists st', s'. split; [done|].
  intros rest. cbn [app handshake_loop]. rewrite Hd. cbn [mbind outcome_bind]. apply Hl.
Qed.

Lemma loop_fatal st assoc i s a a' rest : ssl_at st assoc i s -> fatal a ->
  handshake_loop st assoc (a :: a' :: rest) = Fault Dangling.
Proof.
  intros (c & cl & Hget & Hc & Hcl & Hs) Ha. destruct (client_fatal cl s a Hs Ha) as (cl' & Hd & Hf).
  cbn [handshake_loop]. rewrite (handshake_fails st assoc i c cl a _ cl' Hget Hc Hcl Hd) by done.
  cbn [mbind outcome_bind]. unfold sctp_ssl_do_handshake. rewrite (get_cnx_set st assoc 0 i c) by done.
  rewrite Hget. cbn [of_option mbind outcome_bind]. rewrite (set_cnx_lookup st i c) by done.
  cbn [of_option mbind outcome_bind]. field_simpl. cbn [of_option mbind outcome_bind]. unfold _q_do_ssl_handshake_v1. by rewrite Hf.
Qed.

End Handshake.

Lemma loop_succeeds `{laws : DtlsLaws} st assoc i s a rest : ssl_at st assoc i s -> succeeds a ->
  exists st' c' cl', handshake_loop st assoc (a :: rest) = Ok st' /\
    sctp_get_cnx st' assoc 0 = Some i /\ sctp_cnx_list st' !! i = Some c' /\ ssl_client c' = Some cl' /\
    handshake_done cl' = 1 /\ can_write cl' (hs_ssl a) /\ can_read cl' (hs_ssl a).
Proof.
  intros (c & cl & Hget & Hc & Hcl & Hs) (Hn & Hv & Hp).
  cbn [handshake_loop]. unfold sctp_ssl_do_handshake. rewrite Hget. cbn [of_option mbind outcome_bind]. rewrite Hc.
  cbn [of_option mbind outcome_bind]. rewrite Hcl. cbn [of_option mbind outcome_bind].
  unfold _q_do_ssl_handshake_v1. rewrite Hs. cbn [live mbind outcome_bind].
  rewrite (proj2 (Z.leb_gt _ _)) by done. rewrite Hv, Hp. cbn [Z.eqb X509_V_OK negb require mbind outcome_bind].
  pose proof BIO_new_empty as Hb.
  eexists _, _, _. split; [reflexivity|]. unfold can_write, can_read.
  split_and!; [by rewrite (get_cnx_set st assoc 0 i c)|by apply (set_cnx_lookup st i c)|field_simpl; eauto..].
Qed.
