(* ===== verification/SctpMain.v ===== *)
(** * Properties of the SCTP task (openair3/SCTP/sctp_eNB_task.c) *)

From S2P Require Import Prelude PqcDispatch Dtls DtlsProps Sctp SctpProps SctpEnd.

(** Two states of the SCTP task with one connection each, for the witnesses:
    the handshake is done, and the next record is the first. *)
Definition toy_client (done : Z) : Client toy :=
  mk_client (SslLive (0 : @ssl_t toy)) (Some ([] : @bio_t toy)) (Some ([] : @bio_t toy)) (Some [9]) 1 None 0 8192 5 done 0.
Definition toy_cnx (done : Z) : sctp_cnx_t toy :=
  mk_cnx SCTP_TYPE_CLIENT 5 38472 2 2 62 7 0 0 TASK_CU_F1 0 1 (Some (toy_client done)).
Definition toy_state (done : Z) : sctp_state toy := mk_sctp [toy_cnx done] 1.
Definition toy_stacks : stacks := mk_stacks (replicate (Z.to_nat 8192) 1) (replicate (Z.to_nat 8192) 2) (replicate (Z.to_nat 8192) 3).

Definition toy_wait : hs_attempt (d := toy) := mk_hs (-1) SSL_ERROR_WANT_READ (0 : @ssl_t toy) false 0.
Definition toy_error : hs_attempt (d := toy) := mk_hs (-1) SSL_ERROR_SSL (0 : @ssl_t toy) false 0.



(** C38: every case of [sctp_send_data] for a valid request on a known
    association: nothing on a stream the association does not have; the payload
    in clear while the handshake is not done; after it the record of the payload,
    or, when OpenSSL does not write, the record of the message sent before, once
    more. *)
Theorem sctp_send_exact `{d : Dtls} (st : sctp_state d) r i c m :
  sctp_get_cnx st (dr_assoc_id r) 0 = Some i -> sctp_cnx_list st !! i = Some c ->
  dr_buffer r = Some m -> dr_buffer_length r = zlen m -> 0 < zlen m ->
  (out_streams c <= dr_stream r -> sctp_send_data st (Some r) = Ok (st, [])) /\
  (dr_stream r < out_streams c ->
    (is_encryption_ready c = false ->
      sctp_send_data st (Some r) = Ok (st, [SctpSendmsg (sd c) (ppid c) (dr_stream r) (Some m) (zlen m)])) /\
    (forall client s w n s' w', ssl_client c = Some client -> handshake_done client = 1 ->
      c_ssl client = SslLive s -> wbio client = Some w -> SSL_write s w m = (n, s', w') ->
      (n <= 0 -> exists c', sctp_send_data st (Some r)
        = Ok (set_cnx st i c', [SctpSendmsg (sd c) (ppid c) (dr_stream r) (write_buf client) (write_len client)])) /\
      (n = zlen m -> forall w'' rec, BIO_read w' (plain_text_size client) = (zlen rec, w'', rec) -> 0 < zlen rec ->
        exists c', sctp_send_data st (Some r)
        = Ok (set_cnx st i c', [SctpSendmsg (sd c) (ppid c) (dr_stream r) (Some rec) (zlen rec)])))).
Proof.
  intros Hget Hc Hbuf Hlen Hpos. split; [by apply (send_stream_out st r i c m)|].
  intros Hs. split; [by apply (send_clear st r i c m)|].
  intros client s w n s' w' Hcl Hh Hss Hw Hwr. split; [intros Hn|intros -> w'' rec Hrd Hrec].
  - destruct (msg_encrypt_fails client s w m n s' w' Hss Hw Hpos Hwr Hn)
      as (client' & He & _ & _ & _ & Hwb & Hwl & _).
    eexists. rewrite (send_encrypted st r i c m Hget Hc Hbuf Hlen Hpos client _ client' Hs Hcl Hh He).
    by rewrite Hwb, Hwl.
  - destruct (msg_encrypt_writes client s w m s' w' (zlen rec) w'' rec Hss Hw Hpos Hwr Hrd Hrec eq_refl)
      as (client' & He & _ & _ & _ & Hwb & Hwl & _).
    eexists. rewrite (send_encrypted st r i c m Hget Hc Hbuf Hlen Hpos client _ client' Hs Hcl Hh He).
    by rewrite Hwb, Hwl.
Qed.

Lemma sctp_send_exact_witness :
  sctp_send_data (toy_state 0) (Some (mk_data_req 7 0 (Some [4; 5]) 2)) = Ok (toy_state 0, [SctpSendmsg 5 62 0 (Some [4; 5]) 2]).
Proof.
  apply (sctp_send_exact (toy_state 0) (mk_data_req 7 0 (Some [4; 5]) 2) 0%nat (toy_cnx 0) [4; 5]);
    reflexivity.
Defined.

(** C39: what [sctp_eNB_read_from_socket] hands over of a data message: the
    bytes received while the handshake is not done; after it, as many bytes as
    were received of a local array, which begins with the decrypted message when
    OpenSSL accepts the record, and which was never written when it does not.
    The message is counted on the connection, and nothing else is sent. *)
Theorem sctp_receive_exact `{d : Dtls} (st : sctp_state d) i c k :
  sctp_cnx_list st !! i = Some c -> is_message k ->
  (is_encryption_ready c = false ->
    sctp_eNB_read_from_socket st (Some i) k = Ok (set_cnx st i (counted c), [delivered c k (rx_data k)])) /\
  (forall client s r n1 r1 n2 s' r' plain, ssl_client c = Some client -> handshake_done client = 1 ->
    plain_text_size client = SCTP_RECV_BUFFER_SIZE -> c_ssl client = SslLive s -> rbio client = Some r ->
    BIO_write r (recv_buffer k) = (n1, r1) -> 0 < n1 ->
    SSL_read s r1 SCTP_RECV_BUFFER_SIZE = (n2, s', r', plain) ->
    (0 < n2 <= SCTP_RECV_BUFFER_SIZE -> n2 = zlen plain -> exists client',
      sctp_eNB_read_from_socket st (Some i) k
      = Ok (set_cnx st i (counted (c <| ssl_client := Some client' |>)),
            [delivered c k (take (Z.to_nat (rx_n k)) (plain ++ drop (length plain) (rx_buf_copy_stack k)))])) /\
    (n2 <= 0 -> exists client',
      sctp_eNB_read_from_socket st (Some i) k
      = Ok (set_cnx st i (counted (c <| ssl_client := Some client' |>)),
            [delivered c k (take (Z.to_nat (rx_n k)) (rx_buffer_copy_stack k))]))).
Proof.
  intros Hc Hm. split; [by apply recv_clear|].
  intros client s r n1 r1 n2 s' r' plain Hcl Hh Hsz Hs Hr Hbw Hn1 Hrd.
  pose proof (recv_buffer_len k Hm) as Hbl. pose proof Hm as ((_ & H2 & H3) & Hn & Hb & _).
  assert (0 < zlen (recv_buffer k)) as Hpos by lia. rewrite <- Hsz in Hrd. split; [intros Hn2 ->|intros Hn2].
  - destruct (msg_decrypt_reads client s r (recv_buffer k) (rx_buffer_copy_stack k) (rx_buf_copy_stack k) n1 r1 s' r' plain
      Hs Hr Hpos Hbw Hn1 Hrd ltac:(lia) ltac:(congruence) ltac:(lia)) as (client' & Hd & _ & _ & _ & _ & Hh' & _).
    rewrite Hbl in Hd. exists client'.
    rewrite (recv_encrypted st i c k Hc client client' _ Hm Hcl Hh ltac:(congruence) Hd).
    + do 3 f_equal. rewrite app_assoc. rewrite take_app_le; [done|].
      rewrite length_app, length_drop. unfold zlen in *. lia.
    + unfold zlen in *. rewrite !length_app, !length_drop. lia.
  - destruct (msg_decrypt_fails client s r (recv_buffer k) (rx_buffer_copy_stack k) (rx_buf_copy_stack k) n1 r1 n2 s' r' plain
      Hs Hr Hpos Hbw Hn1 Hrd Hn2) as (client' & Hd & _ & _ & _ & _ & Hh' & _).
    rewrite Hbl in Hd. exists client'.
    by rewrite (recv_encrypted st i c k Hc client client' _ Hm Hcl Hh ltac:(congruence) Hd).
Qed.

Lemma sctp_receive_exact_witness :
  let k := arrives 7 0 [4; 5] toy_stacks in
  sctp_eNB_read_from_socket (toy_state 0) (Some 0%nat) k
  = Ok (set_cnx (toy_state 0) 0 (counted (toy_cnx 0)), [delivered (toy_cnx 0) k [4; 5]]).
Proof.
  intros k. apply (sctp_receive_exact (toy_state 0) 0%nat (toy_cnx 0) k); [reflexivity| |reflexivity].
  unfold is_message, stacks_ok. split_and!; vm_compute; done.
Defined.

(** C40: the handshake on an accepted socket ends only in success.  After any
    number of attempts that wait for the peer, one that succeeds leaves the
    connection ready to send and to receive, with empty BIOs; an error of
    OpenSSL frees the SSL object, which the next attempt then uses; and while the
    peer's certificate is refused the loop goes on for ever. *)
Theorem sctp_handshake_exact `{laws : DtlsLaws} (st : sctp_state d) assoc i s pre :
  ssl_at st assoc i s -> Forall retries pre ->
  (forall a rest, succeeds a -> exists st' c' cl', handshake_loop st assoc (pre ++ a :: rest) = Ok st' /\
    sctp_get_cnx st' assoc 0 = Some i /\ sctp_cnx_list st' !! i = Some c' /\ ssl_client c' = Some cl' /\
    handshake_done cl' = 1 /\ can_write cl' (hs_ssl a) /\ can_read cl' (hs_ssl a)) /\
  (forall a a' rest, fatal a -> handshake_loop st assoc (pre ++ a :: a' :: rest) = Fault Dangling) /\
  handshake_loop st assoc pre = Fault Diverge.
Proof.
  intros Hs Hpre. destruct (loop_retries st assoc i s pre Hs Hpre) as (st1 & s1 & Hs1 & Hl).
  split; [|split].
  - intros a rest Ha. rewrite Hl. by apply (loop_succeeds st1 assoc i s1).
  - intros a a' rest Ha. rewrite Hl. by apply (loop_fatal st1 assoc i s1).
  - specialize (Hl []). rewrite app_nil_r in Hl. by rewrite Hl.
Qed.

Lemma sctp_handshake_exact_witness :
  handshake_loop (toy_state 0) 7 ([toy_wait; toy_wait] ++ [toy_error; toy_wait]) = Fault Dangling.
Proof.
  apply (sctp_handshake_exact (d := toy) (toy_state 0) 7 0%nat (0 : @ssl_t toy) [toy_wait; toy_wait]).
  - exists (toy_cnx 0), (toy_client 0). by split_and!.
  - do 2 (constructor; [left; split; [by vm_compute|by left]|]). constructor.
  - split_and!; [vm_compute; done|by vm_compute|by vm_compute].
Defined.
