(* ===== verification/Crc.v ===== *)
(** * Cyclic redundancy checks of the physical layer
      (PHY/CODING/crc_byte.c, crc.h, crcext.h)

    The bit by bit CRC that fills the tables, the table driven CRCs, the folding
    with carry-less multiplications that builds with SSE4.1 use for whole bytes
    ([USE_INTEL_CRC]), and the check of a received block.  A pointer is the list
    of the bytes from there to the end of the memory of its object; a CRC is a
    [uint32_t] with its first coefficient in bit 31.  The 128 bit registers and
    intrinsics have Intel's documented meaning. *)

From S2P Require Import Prelude.

Definition poly24a : Z := 0x864cfb00.
Definition poly24b : Z := 0x80006300.
Definition poly24c : Z := 0xb2b11700.
Definition poly16 : Z := 0x10210000.
Definition poly12 : Z := 0x80F00000.
Definition poly8 : Z := 0x9B000000.
Definition poly6 : Z := 0x84000000.
Definition poly11 : Z := 0xc4200000.

(** ** Bit by bit *)

(** The inner loop, [i] rounds left. *)
Fixpoint crcbit_byte (i : nat) (poly c crc : Z) : Z :=
  match i with
  | O => crc
  | S i =>
      let crc := if negb (Z.land (Z.shiftl 1 31) (Z.lxor c crc) =? 0)
                 then Z.lxor (u32 (Z.shiftl crc 1)) poly
                 else u32 (Z.shiftl crc 1) in
      crcbit_byte i poly (u32 (Z.shiftl c 1)) crc
  end.

Fixpoint crcbit_octets (octets : list Z) (poly crc : Z) : Z :=
  match octets with
  | [] => crc
  | b :: octets => crcbit_octets octets poly (crcbit_byte 8 poly (Z.shiftl b 24) crc)
  end.

Definition crcbit (inputptr : list Z) (octetlen poly : Z) : outcome Z :=
  octets ← of_option OutOfBounds (zslice inputptr 0 (Z.max 0 octetlen));
  Ok (crcbit_octets octets poly 0).

(** ** Tables *)

(** 128 bit registers: the byte at address 0 is the lowest. *)
Definition xmm_bytes (r : Z) : list Z :=
  (fun i => Z.land (Z.shiftr r (8 * Z.of_nat i)) 255) <$> seq 0 16.
Definition xmm_of_bytes (l : list Z) : Z := foldr (fun b r => Z.lxor b (Z.shiftl r 8)) 0 l.

Definition simde_mm_setr_epi32 (e0 e1 e2 e3 : Z) : Z :=
  Z.lor e0 (Z.lor (Z.shiftl e1 32) (Z.lor (Z.shiftl e2 64) (Z.shiftl e3 96))).

Record crc_tables := mk_crc_tables {
  crc24aTable : list Z;
  crc24bTable : list Z;
  crc24cTable : list Z;
  crc16Table : list Z;
  crc12Table : list Z;
  crc11Table : list Z;
  crc8Table : list Z;
  crc6Table : list Z;
  crc_xmm_be_le_swap128 : Z;
}.

(** One table: [c] goes from 0 to 255, where the [unsigned char] wraps. *)
Definition crc_table (poly shift : Z) : list Z :=
  (fun c => Z.shiftr (crcbit_octets [Z.of_nat c] poly 0) shift) <$> seq 0 256.

Definition crcTableInit : crc_tables :=
  mk_crc_tables (crc_table poly24a 0) (crc_table poly24b 0) (crc_table poly24c 0)
    (crc_table poly16 16) (crc_table poly12 16) (crc_table poly11 16)
    (crc_table poly8 24) (crc_table poly6 24)
    (simde_mm_setr_epi32 0x0c0d0e0f 0x08090a0b 0x04050607 0x00010203).

(** ** Carry-less multiplication (crc.h, crcext.h) *)

Definition ones128 : Z := Z.ones 128.
Definition simde_mm_loadu_si128 (mem : list Z) (off : Z) : outcome Z :=
  bs ← of_option OutOfBounds (zslice mem off 16);
  Ok (xmm_of_bytes bs).
Definition simde_mm_slli_si128 (r n : Z) : Z := Z.land (Z.shiftl r (8 * n)) ones128.
Definition simde_mm_srli_si128 (r n : Z) : Z := Z.shiftr r (8 * n).
Definition simde_mm_shuffle_epi8 (r idx : Z) : Z :=
  xmm_of_bytes ((fun i => if Z.testbit i 7 then 0 else Z.land (Z.shiftr r (8 * Z.land i 15)) 255) <$> xmm_bytes idx).
(** The low 32 bits set to [v], or read. *)
Definition simde_mm_insert_epi32 (r v : Z) : Z := Z.lxor (Z.shiftl (Z.shiftr r 32) 32) v.
Definition simde_mm_extract_epi32 (r : Z) : Z := Z.land r 0xffffffff.

(** The product of two polynomials over GF(2), [a] of [n] bits. *)
Fixpoint clmul (n : nat) (a b : Z) : Z :=
  match n with
  | O => 0
  | S n => Z.lxor (if Z.testbit a (Z.of_nat n) then Z.shiftl b (Z.of_nat n) else 0) (clmul n a b)
  end.
Definition low64 (r : Z) : Z := Z.land r (Z.ones 64).
Definition high64 (r : Z) : Z := Z.land (Z.shiftr r 64) (Z.ones 64).
(** Bit 0 of [imm] takes the high half of [x], bit 4 that of [y]. *)
Definition _mm_clmulepi64_si128 (x y imm : Z) : Z :=
  clmul 64 (if Z.testbit imm 0 then high64 x else low64 x) (if Z.testbit imm 4 then high64 y else low64 y).

Definition crc_xmm_shift_tab : list Z :=
  replicate 16 0xff ++ (Z.of_nat <$> seq 0 16) ++ replicate 16 0xff.
Definition xmm_shift_right (reg num : Z) : outcome Z :=
  tab ← simde_mm_loadu_si128 crc_xmm_shift_tab (16 + num);
  Ok (simde_mm_shuffle_epi8 reg tab).
Definition xmm_shift_left (reg num : Z) : outcome Z :=
  tab ← simde_mm_loadu_si128 crc_xmm_shift_tab (16 - num);
  Ok (simde_mm_shuffle_epi8 reg tab).

Record crc_pclmulqdq_ctx := mk_pclmulqdq { k1 : Z; k2 : Z; k3 : Z; q : Z; p : Z; res : Z }.
(** The pairs of words loaded from the context. *)
Definition pair128 (lo hi : Z) : Z := Z.lor lo (Z.shiftl hi 64).

Definition lte_crc24a_pclmulqdq : crc_pclmulqdq_ctx :=
  mk_pclmulqdq 0x64e4d700 0x2c8c9d00 0xd9fe8c00 0xf845fe24 0x864cfb00 0.
Definition lte_crc24b_pclmulqdq : crc_pclmulqdq_ctx :=
  mk_pclmulqdq 0x80140500 0x42000100 0x90042100 0xffff83ff 0x80006300 0.

Definition crc32_folding_round (data_block k1_k2 fold : Z) : Z :=
  let tmp := _mm_clmulepi64_si128 fold k1_k2 0x11 in
  Z.lxor (_mm_clmulepi64_si128 fold k1_k2 0x00) (Z.lxor data_block tmp).

Definition crc32_reduce_128_to_64 (data128 k3_q : Z) : Z :=
  let tmp := Z.lxor (_mm_clmulepi64_si128 data128 k3_q 0x01) data128 in
  let data128 := Z.lxor (_mm_clmulepi64_si128 tmp k3_q 0x01) data128 in
  simde_mm_srli_si128 (simde_mm_slli_si128 data128 8) 8.

Definition crc32_reduce_64_to_32 (fold k3_q p_res : Z) : Z :=
  let temp := _mm_clmulepi64_si128 (simde_mm_srli_si128 fold 4) k3_q 0x10 in
  let temp := simde_mm_srli_si128 (Z.lxor temp fold) 4 in
  let temp := _mm_clmulepi64_si128 temp p_res 0 in
  simde_mm_extract_epi32 (Z.lxor temp fold).

Definition bswap4 (v : Z) : Z :=
  Z.lor (Z.shiftl (Z.land v 0xff) 24) (Z.lor (Z.shiftl (Z.land (Z.shiftr v 8) 0xff) 16)
    (Z.lor (Z.shiftl (Z.land (Z.shiftr v 16) 0xff) 8) (Z.shiftr v 24))).

(** The main loop: [n] is the next byte to read. *)
Fixpoint folding_loop (fuel : nat) (data : list Z) (swap k data_len n fold : Z) : outcome (Z * Z) :=
  match fuel with
  | O => Fault Diverge
  | S fuel =>
      if n <? data_len - 16 then
        new_data ← simde_mm_loadu_si128 data n;
        let new_data := simde_mm_shuffle_epi8 new_data swap in
        folding_loop fuel data swap k data_len (n + 16) (crc32_folding_round new_data k fold)
      else Ok (n, fold)
  end.

(** At most 12 bytes, with the 4 bytes of zeros, fit into one block; [fold]
    holds the first 16 bytes. *)
Definition fold_one_block (swap : Z) (data_len crc fold : Z) : outcome Z :=
  let fold := simde_mm_shuffle_epi8 fold swap in
  fold ← xmm_shift_right fold (20 - data_len);
  let fold := simde_mm_slli_si128 fold 4 in
  temp ← xmm_shift_left (simde_mm_insert_epi32 0 (bswap4 crc)) (data_len - 4);
  Ok (Z.lxor fold temp).

(** The first two blocks, aligned on the end of the data. *)
Definition fold_two_blocks (swap : Z) (data : list Z) (data_len crc n k fold : Z) : outcome Z :=
  let fold := Z.lxor fold (simde_mm_insert_epi32 0 crc) in
  let fold := simde_mm_shuffle_epi8 fold swap in
  next_data ← simde_mm_loadu_si128 data 16;
  let next_data := simde_mm_shuffle_epi8 next_data swap in
  next_right ← xmm_shift_right next_data n;
  fold_left ← xmm_shift_left fold (16 - n);
  let next_data := Z.lor next_right fold_left in
  fold ← xmm_shift_right fold n;
  let next_data := if data_len <=? 32 then simde_mm_slli_si128 (simde_mm_srli_si128 next_data 4) 4 else next_data in
  Ok (crc32_folding_round next_data k fold).

(** The blocks after them, and the last 12 bytes. *)
Definition fold_other_blocks (swap : Z) (data : list Z) (data_len n k fold : Z) : outcome Z :=
  '(n, fold) ← folding_loop (Z.to_nat data_len) data swap k data_len (16 + 16 - n) fold;
  new_data ← simde_mm_loadu_si128 data (n - 4);
  let new_data := simde_mm_shuffle_epi8 new_data swap in
  let new_data := simde_mm_slli_si128 new_data 4 in
  Ok (crc32_folding_round new_data k fold).

(** The two reductions. *)
Definition crc32_reduce (params : crc_pclmulqdq_ctx) (fold : Z) : Z :=
  let k := pair128 (k3 params) (q params) in
  let fold := crc32_reduce_128_to_64 fold k in
  crc32_reduce_64_to_32 fold k (pair128 (p params) (res params)).

Definition crc32_calc_pclmulqdq (swap : Z) (data : list Z) (data_len crc : Z) (params : crc_pclmulqdq_ctx)
    : outcome Z :=
  if data_len =? 0 then Ok crc else
  let data_len := data_len + 4 in
  fold ← simde_mm_loadu_si128 data 0;
  fold ←
    (if data_len <=? 16 then fold_one_block swap data_len crc fold
     else
       let n := Z.land (u32 (- data_len)) 15 in
       let k := pair128 (k1 params) (k2 params) in
       fold ← fold_two_blocks swap data data_len crc n k fold;
       if data_len >? 32 then fold_other_blocks swap data data_len n k fold else Ok fold);
  Ok (crc32_reduce params fold).

(** ** Byte by byte *)

Definition lut (table : list Z) (i : Z) : outcome Z := of_option OutOfBounds (zget table i).

(** The loop over whole bytes; the entries of [table] are shifted left by [sh]. *)
Fixpoint crc_octets (table : list Z) (sh : Z) (octets : list Z) (crc : Z) : outcome Z :=
  match octets with
  | [] => Ok crc
  | b :: octets =>
      x ← lut table (Z.lxor b (Z.shiftr crc 24));
      crc_octets table sh octets (Z.lxor (u32 (Z.shiftl crc 8)) (u32 (Z.shiftl x sh)))
  end.

(** The loop of the CRCs of at most 8 bits, which drops the old value. *)
Fixpoint crc_octets_short (table : list Z) (octets : list Z) (crc : Z) : outcome Z :=
  match octets with
  | [] => Ok crc
  | b :: octets =>
      x ← lut table (Z.lxor b (Z.shiftr crc 24));
      crc_octets_short table octets (u32 (Z.shiftl x 24))
  end.

(** The first [resbit] bits of the last byte. *)
Definition crc_rest (table : list Z) (sh : Z) (inptr : list Z) (octetlen resbit crc : Z) : outcome Z :=
  if resbit >? 0 then
    b ← of_option OutOfBounds (zget inptr (Z.max 0 octetlen));
    x ← lut table (Z.lxor (Z.shiftr b (8 - resbit)) (Z.shiftr crc (32 - resbit)));
    Ok (Z.lxor (u32 (Z.shiftl crc resbit)) (u32 (Z.shiftl x sh)))
  else Ok crc.

Definition crc_table_driven (table : list Z) (sh : Z) (inptr : list Z) (bitlen : Z) : outcome Z :=
  let octetlen := Z.quot bitlen 8 in
  octets ← of_option OutOfBounds (zslice inptr 0 (Z.max 0 octetlen));
  crc ← crc_octets table sh octets 0;
  crc_rest table sh inptr octetlen (Z.rem bitlen 8) crc.

Definition crc_short (table : list Z) (inptr : list Z) (bitlen : Z) : outcome Z :=
  let octetlen := Z.quot bitlen 8 in
  octets ← of_option OutOfBounds (zslice inptr 0 (Z.max 0 octetlen));
  crc ← crc_octets_short table octets 0;
  crc_rest table 24 inptr octetlen (Z.rem bitlen 8) crc.

(** [use_intel] is the macro USE_INTEL_CRC. *)
Definition crc24a (use_intel : bool) (t : crc_tables) (inptr : list Z) (bitlen : Z) : outcome Z :=
  if negb (Z.rem bitlen 8 =? 0) || negb use_intel then crc_table_driven (crc24aTable t) 0 inptr bitlen
  else crc32_calc_pclmulqdq (crc_xmm_be_le_swap128 t) inptr (u32 (Z.quot bitlen 8)) 0 lte_crc24a_pclmulqdq.
Definition crc24b (use_intel : bool) (t : crc_tables) (inptr : list Z) (bitlen : Z) : outcome Z :=
  if negb (Z.rem bitlen 8 =? 0) || negb use_intel then crc_table_driven (crc24bTable t) 0 inptr bitlen
  else crc32_calc_pclmulqdq (crc_xmm_be_le_swap128 t) inptr (u32 (Z.quot bitlen 8)) 0 lte_crc24b_pclmulqdq.
Definition crc24c (t : crc_tables) (inptr : list Z) (bitlen : Z) : outcome Z :=
  crc_table_driven (crc24cTable t) 0 inptr bitlen.
Definition crc16 (t : crc_tables) (inptr : list Z) (bitlen : Z) : outcome Z :=
  crc_table_driven (crc16Table t) 16 inptr bitlen.
Definition crc12 (t : crc_tables) (inptr : list Z) (bitlen : Z) : outcome Z :=
  crc_table_driven (crc12Table t) 16 inptr bitlen.
Definition crc11 (t : crc_tables) (inptr : list Z) (bitlen : Z) : outcome Z :=
  crc_table_driven (crc11Table t) 16 inptr bitlen.
Definition crc8 (t : crc_tables) (inptr : list Z) (bitlen : Z) : outcome Z :=
  crc_short (crc8Table t) inptr bitlen.
Definition crc6 (t : crc_tables) (inptr : list Z) (bitlen : Z) : outcome Z :=
  crc_short (crc6Table t) inptr bitlen.

(** ** Checking a block *)

Inductive crc_type_t : Type := CRC24_A | CRC24_B | CRC16 | CRC8 | CRC_OTHER (n : Z).

(** For another type AssertFatal is given the condition 1, and does nothing. *)
Definition crc_len_of (t : crc_type_t) : Z :=
  match t with CRC24_A | CRC24_B => 3 | CRC16 => 2 | CRC8 => 1 | CRC_OTHER _ => 0 end.

Definition check_crc (use_intel : bool) (t : crc_tables) (decoded_bytes : list Z) (n : Z) (crc_type : crc_type_t)
    : outcome Z :=
  let crc_len := crc_len_of crc_type in
  oldcrc ← cfor (Z.to_nat crc_len) 0
    (fun i oldcrc =>
       b ← of_option OutOfBounds (zget decoded_bytes (u32 (Z.shiftr n 3 - crc_len + i)));
       Ok (Z.lor oldcrc (Z.shiftl b (Z.shiftl (crc_len - 1 - i) 3)))) 0;
  '(crc, oldcrc) ←
    match crc_type with
    | CRC24_A => crc ← crc24a use_intel t decoded_bytes (i32 (u32 (n - 24)));
                 Ok (Z.shiftr crc 8, Z.land oldcrc 0x00ffffff)
    | CRC24_B => crc ← crc24b use_intel t decoded_bytes (i32 (u32 (n - 24)));
                 Ok (Z.shiftr crc 8, Z.land oldcrc 0x00ffffff)
    | CRC16 => crc ← crc16 t decoded_bytes (i32 (u32 (n - 16)));
               Ok (Z.shiftr crc 16, Z.land oldcrc 0x0000ffff)
    | CRC8 => crc ← crc8 t decoded_bytes (i32 (u32 (n - 8)));
              Ok (Z.shiftr crc 24, Z.land oldcrc 0x000000ff)
    | CRC_OTHER _ => Ok (0, oldcrc)
    end;
  Ok (if crc =? oldcrc then 1 else 0).

Example crc_intel_agrees :
  let m := Z.of_nat <$> seq 3 60 in
  (a ← crc24a true crcTableInit m 400; b ← crc24a false crcTableInit m 400; Ok (a =? b)) = Ok true /\
  (a ← crc24b true crcTableInit m 104; b ← crc24b false crcTableInit m 104; Ok (a =? b)) = Ok true /\
  (a ← crc24b true crcTableInit m 24; b ← crc24b false crcTableInit m 24; Ok (a =? b)) = Ok true.
Proof. vm_compute. auto. Qed.
