(* ===== verification/CrcBits.v ===== *)
(** * The algebra of the CRCs

    One step of the division register, its iteration, and the value
    [crc_of_bits] that every CRC of the code computes.  All of it is linear over
    GF(2), so that two linear functions are equal when they agree on the powers
    of two, which is decided by computation ([linear_eq]). *)

From S2P Require Import Prelude.

(** ** Linear functions *)

Class Linear (f : Z -> Z) : Prop := linear a b : f (Z.lxor a b) = Z.lxor (f a) (f b).

Create Rewrite HintDb linear.
#[export] Hint Rewrite Z.shiftl_lxor Z.shiftr_lxor : linear.
Ltac linear_solve := autorewrite with linear; lxor_solve.

Lemma linear_0 f : Linear f -> f 0 = 0.
Proof.
  intros Hf. pose proof (Hf 0 0) as H. change (Z.lxor 0 0) with 0 in H.
  by rewrite Z.lxor_nilpotent in H.
Qed.

Lemma linear_compose f g : Linear f -> Linear g -> Linear (fun x => f (g x)).
Proof. intros Hf Hg a b. by rewrite Hg, Hf. Qed.

Lemma linear_lxor f g : Linear f -> Linear g -> Linear (fun x => Z.lxor (f x) (g x)).
Proof. intros Hf Hg a b. rewrite Hf, Hg. lxor_solve. Qed.

Lemma land_lxor a b c : Z.land (Z.lxor a b) c = Z.lxor (Z.land a c) (Z.land b c).
Proof.
  apply Z.bits_inj'. intros n Hn. rewrite ?Z.lxor_spec, ?Z.land_spec, Z.lxor_spec.
  by destruct (Z.testbit a n), (Z.testbit b n), (Z.testbit c n).
Qed.
#[export] Hint Rewrite land_lxor : linear.

Lemma u32_land x : u32 x = Z.land x (Z.ones 32).
Proof. symmetry. by apply Z.land_ones. Qed.

Lemma u32_lxor a b : u32 (Z.lxor a b) = Z.lxor (u32 a) (u32 b).
Proof. rewrite !u32_land. apply land_lxor. Qed.
#[export] Hint Rewrite u32_lxor : linear.

Lemma if_lxor (a b : bool) (x : Z) :
  (if xorb a b then x else 0) = Z.lxor (if a then x else 0) (if b then x else 0).
Proof. destruct a, b; cbn; rewrite ?Z.lxor_0_r, ?Z.lxor_0_l, ?Z.lxor_nilpotent; done. Qed.

(** The bits of a number of [S n] bits. *)
Lemma split_top x n : 0 <= x < 2 ^ Z.of_nat (S n) ->
  exists y, 0 <= y < 2 ^ Z.of_nat n /\
    x = Z.lxor (if Z.testbit x (Z.of_nat n) then 2 ^ Z.of_nat n else 0) y.
Proof.
  intros Hx. exists (x mod 2 ^ Z.of_nat n). split; [apply Z.mod_pos_bound; lia|].
  apply range_bits in Hx as [Hx Hhigh]; [|lia].
  apply Z.bits_inj'. intros m Hm. rewrite Z.lxor_spec.
  destruct (Z.lt_trichotomy m (Z.of_nat n)) as [H|[->|H]].
  - rewrite Z.mod_pow2_bits_low by lia.
    assert (Z.testbit (if Z.testbit x (Z.of_nat n) then 2 ^ Z.of_nat n else 0) m = false) as ->; [|done].
    destruct (Z.testbit x (Z.of_nat n)); [|apply Z.bits_0]. apply Z.pow2_bits_false. lia.
  - rewrite Z.mod_pow2_bits_high by lia.
    destruct (Z.testbit x (Z.of_nat n)); [by rewrite Z.pow2_bits_true by lia|by rewrite Z.bits_0].
  - rewrite Z.mod_pow2_bits_high, Hhigh by lia.
    destruct (Z.testbit x (Z.of_nat n)); [by rewrite Z.pow2_bits_false by lia|by rewrite Z.bits_0].
Qed.

Definition agree (n : nat) (f g : Z -> Z) : bool := forallb (fun i => f (2 ^ Z.of_nat i) =? g (2 ^ Z.of_nat i)) (seq 0 n).

Lemma linear_eq f g n x : Linear f -> Linear g -> agree n f g = true -> 0 <= x < 2 ^ Z.of_nat n -> f x = g x.
Proof.
  intros Hf Hg Hag. pose proof (linear_0 f Hf) as Hf0. pose proof (linear_0 g Hg) as Hg0.
  revert x. induction n as [|n IH]; intros x Hx.
  - assert (x = 0) as -> by (cbn in Hx; lia). congruence.
  - unfold agree in Hag. rewrite seq_S, forallb_app in Hag. apply andb_true_iff in Hag as [Hag Hn].
    cbn in Hn. rewrite andb_true_r in Hn. apply Z.eqb_eq in Hn.
    destruct (split_top x n Hx) as (y & Hy & ->). rewrite Hf, Hg, (IH Hag y Hy). f_equal.
    destruct (Z.testbit _ _); congruence.
Qed.

(** ** The division register *)

Section Register.
Context (poly : Z).

Definition step (x : Z) : Z := Z.lxor (u32 (Z.shiftl x 1)) (if Z.testbit x 31 then poly else 0).
Definition steps (n : nat) (x : Z) : Z := Nat.iter n step x.

#[export] Instance step_linear : Linear step.
Proof. intros a b. unfold step. rewrite Z.lxor_spec, if_lxor. linear_solve. Qed.

#[export] Instance steps_linear n : Linear (steps n).
Proof.
  intros a b. induction n as [|n IH]; [done|].
  change (step (steps n (Z.lxor a b)) = Z.lxor (step (steps n a)) (step (steps n b))).
  by rewrite IH, step_linear.
Qed.

Lemma steps_add m n x : steps (m + n) x = steps m (steps n x).
Proof. apply Nat.iter_add. Qed.

Lemma steps_step n x : steps n (step x) = step (steps n x).
Proof. unfold steps. by rewrite <- Nat.iter_succ_r. Qed.

(** While no one comes to bit 31 a step is a shift. *)
Lemma steps_shift n x : 0 <= x < 2 ^ (32 - Z.of_nat n) -> (n <= 32)%nat ->
  steps n x = Z.shiftl x (Z.of_nat n).
Proof.
  intros Hx Hn. induction n as [|n IH]; [by rewrite Z.shiftl_0_r|].
  assert (2 ^ (32 - Z.of_nat (S n)) < 2 ^ (32 - Z.of_nat n)) by (apply Z.pow_lt_mono_r; lia).
  change (step (steps n x) = Z.shiftl x (Z.of_nat (S n))). rewrite IH by lia.
  assert (0 <= Z.shiftl x (Z.of_nat n) < 2 ^ 31) as Hs.
  { rewrite Z.shiftl_mul_pow2 by lia. split; [lia|].
    replace 31 with (32 - Z.of_nat (S n) + Z.of_nat n) by lia. rewrite Z.pow_add_r by lia.
    apply Z.mul_lt_mono_pos_r; lia. }
  unfold step. pose proof Hs as [_ Hb]%range_bits; [|done]. rewrite Hb by done. rewrite Z.lxor_0_r.
  unfold u32. rewrite Z.shiftl_shiftl by lia. rewrite Z.mod_small.
  - f_equal. lia.
  - rewrite Z.shiftl_mul_pow2 in * by lia. rewrite Z.pow_add_r by lia. lia.
Qed.

(** ** Feeding bits *)

Definition feed (s : Z) (b : bool) : Z := step (Z.lxor s (if b then 2 ^ 31 else 0)).
Definition crc_from (s : Z) (bits : list bool) : Z := fold_left feed bits s.

(** The CRC of a sequence of bits, the first one first. *)
Definition crc_of_bits (bits : list bool) : Z := crc_from 0 bits.

(** The bits as a number. *)
Fixpoint num_of_bits (bits : list bool) : Z :=
  match bits with
  | [] => 0
  | b :: bits => Z.lxor (if b then 2 ^ zlen bits else 0) (num_of_bits bits)
  end.

Lemma num_of_bits_range bits : 0 <= num_of_bits bits < 2 ^ zlen bits.
Proof.
  induction bits as [|b bits IH]; [done|]. cbn [num_of_bits]. rewrite zlen_cons.
  pose proof (zlen_nonneg bits) as Hn.
  assert (2 ^ zlen bits < 2 ^ (zlen bits + 1)) by (apply Z.pow_lt_mono_r; lia).
  apply lxor_range; [lia| |lia]. destruct b; lia.
Qed.

Lemma crc_from_app s l1 l2 : crc_from s (l1 ++ l2) = crc_from (crc_from s l1) l2.
Proof. apply fold_left_app. Qed.

(** At most 32 bits at once. *)
Lemma crc_from_short s bits : zlen bits <= 32 ->
  crc_from s bits = steps (length bits) (Z.lxor s (Z.shiftl (num_of_bits bits) (32 - zlen bits))).
Proof.
  revert s. induction bits as [|b bits IH]; intros s Hn; [cbn; by rewrite Z.lxor_0_r|].
  rewrite zlen_cons in *. pose proof (zlen_nonneg bits) as Hn0. pose proof (num_of_bits_range bits) as Hb.
  change (crc_from s (b :: bits)) with (crc_from (feed s b) bits).
  replace (length (b :: bits)) with (length bits + 1)%nat by (cbn; lia).
  rewrite IH, steps_add by lia. f_equal. cbn [num_of_bits]. unfold feed.
  change (steps 1 ?x) with (step x). rewrite Z.shiftl_lxor, <- Z.lxor_assoc, !step_linear.
  f_equal.
  - f_equal. destruct b; [|by rewrite Z.shiftl_0_l].
    rewrite Z.shiftl_mul_pow2, <- Z.pow_add_r by lia.
    by replace (zlen bits + (32 - (zlen bits + 1))) with 31 by lia.
  - change (step ?x) with (steps 1 x). rewrite steps_shift; [|change (32 - Z.of_nat 1) with 31; split|lia].
    + rewrite Z.shiftl_shiftl by lia. f_equal. lia.
    + apply Z.shiftl_nonneg. lia.
    + rewrite Z.shiftl_mul_pow2 by lia. replace (32 - (zlen bits + 1)) with (31 - zlen bits) by lia.
      replace (2 ^ 31) with (2 ^ (zlen bits + (31 - zlen bits))) by (f_equal; lia).
      rewrite Z.pow_add_r by lia. apply Z.mul_lt_mono_pos_r; lia.
Qed.

End Register.

(** ** Bits of bytes *)

Definition bits_of_byte (b : Z) : list bool :=
  [Z.testbit b 7; Z.testbit b 6; Z.testbit b 5; Z.testbit b 4; Z.testbit b 3; Z.testbit b 2; Z.testbit b 1; Z.testbit b 0].
Definition bits_of (l : list Z) : list bool := mjoin (bits_of_byte <$> l).

Lemma bits_of_cons b l : bits_of (b :: l) = bits_of_byte b ++ bits_of l.
Proof. reflexivity. Qed.

Lemma bits_of_app l1 l2 : bits_of (l1 ++ l2) = bits_of l1 ++ bits_of l2.
Proof. unfold bits_of. by rewrite fmap_app, join_app. Qed.

Lemma bits_of_len l : length (bits_of l) = (8 * length l)%nat.
Proof. induction l as [|b l IH]; [done|]. rewrite bits_of_cons, length_app, IH. cbn. lia. Qed.

Lemma num_lxor l1 l2 : length l1 = length l2 ->
  num_of_bits (zip_with xorb l1 l2) = Z.lxor (num_of_bits l1) (num_of_bits l2).
Proof.
  revert l2. induction l1 as [|b1 l1 IH]; intros [|b2 l2] Hl; try done.
  cbn [zip_with num_of_bits]. injection Hl as Hl. rewrite (IH _ Hl), if_lxor.
  assert (zlen (zip_with xorb l1 l2) = zlen l1) as -> by (unfold zlen; rewrite length_zip_with; lia).
  assert (zlen l2 = zlen l1) as -> by (unfold zlen; lia). lxor_solve.
Qed.

Lemma num_linear k : Linear (fun b => num_of_bits (take k (bits_of_byte b))).
Proof.
  intros a b. rewrite <- num_lxor, <- zip_with_take by (rewrite !length_take; done).
  unfold bits_of_byte. by rewrite !Z.lxor_spec.
Qed.

Lemma num_of_byte b k : is_byte b -> (k <= 8)%nat ->
  num_of_bits (take k (bits_of_byte b)) = Z.shiftr b (8 - Z.of_nat k).
Proof.
  intros Hb Hk.
  assert (agree 8 (fun b => num_of_bits (take k (bits_of_byte b))) (fun b => Z.shiftr b (8 - Z.of_nat k)) = true) as Hag.
  { do 9 (destruct k as [|k]; [vm_compute; reflexivity|]). lia. }
  exact (linear_eq _ _ 8 b (num_linear k) (fun x y => Z.shiftr_lxor x y _) Hag Hb).
Qed.
