(* ===== verification/CrcTables.v ===== *)
(** * The table driven CRCs compute the CRC of the bits they are given
      (PHY/CODING/crc_byte.c) *)

From S2P Require Import Prelude CrcBits Crc.

Section Poly.
Context (poly : Z).

(** The two registers of [crcbit] are one. *)
Lemma crcbit_byte_steps i c crc :
  Z.lxor (crcbit_byte i poly c crc) (Nat.iter i (fun c => u32 (Z.shiftl c 1)) c)
  = steps poly i (Z.lxor crc c).
Proof.
  revert c crc. induction i as [|i IH]; intros c crc; [done|].
  rewrite Nat.iter_succ_r. cbn [crcbit_byte]. rewrite IH.
  change (steps poly (S i)) with (steps poly (1 + i)). rewrite Nat.add_comm, steps_add. f_equal.
  change (steps poly 1 ?x) with (step poly x). unfold step. rewrite !u32_land, Z.lxor_spec.
  assert (negb (Z.land (Z.shiftl 1 31) (Z.lxor c crc) =? 0) = xorb (Z.testbit crc 31) (Z.testbit c 31)) as ->.
  { rewrite xorb_comm, <- Z.lxor_spec. destruct (Z.testbit (Z.lxor c crc) 31) eqn:E.
    - apply negb_true_iff, Z.eqb_neq. intros H. apply (f_equal (fun x => Z.testbit x 31)) in H.
      rewrite Z.land_spec, E, Z.bits_0 in H. done.
    - apply negb_false_iff, Z.eqb_eq. apply Z.bits_inj'. intros n Hn.
      rewrite Z.land_spec, Z.bits_0. destruct (Z.eq_dec n 31) as [->|Hne]; [by rewrite E|].
      change (Z.shiftl 1 31) with (2 ^ 31). by rewrite Z.pow2_bits_false. }
  rewrite if_lxor. destruct (Z.testbit crc 31), (Z.testbit c 31); cbn [xorb]; linear_solve.
Qed.

Lemma crcbit_byte_feed b crc : is_byte b ->
  crcbit_byte 8 poly (Z.shiftl b 24) crc = crc_from poly crc (bits_of_byte b).
Proof.
  intros Hb. pose proof (crcbit_byte_steps 8 (Z.shiftl b 24) crc) as H.
  assert (Nat.iter 8 (fun c => u32 (Z.shiftl c 1)) (Z.shiftl b 24) = 0) as Hz.
  { assert (agree 8 (fun b => Nat.iter 8 (fun c => u32 (Z.shiftl c 1)) (Z.shiftl b 24)) (fun _ => 0) = true) as Hag by (vm_compute; done).
    apply (linear_eq (fun b => Nat.iter 8 (fun c => u32 (Z.shiftl c 1)) (Z.shiftl b 24)) (fun _ => 0) 8); [|done|done|done].
    intros x y. cbn [Nat.iter nat_rect]. linear_solve. }
  rewrite Hz, Z.lxor_0_r in H. rewrite H, crc_from_short by done.
  pose proof (num_of_byte b 8 Hb ltac:(lia)) as E. change (take 8 (bits_of_byte b)) with (bits_of_byte b) in E.
  rewrite E. by rewrite Z.shiftr_0_r.
Qed.

(** [crcbit] is the reference. *)
Lemma crcbit_octets_feed l crc : bytes_ok l ->
  crcbit_octets l poly crc = crc_from poly crc (bits_of l).
Proof.
  intros Hl. revert crc. induction Hl as [|b l Hb Hl IH]; intros crc; [done|].
  cbn [crcbit_octets]. by rewrite IH, crcbit_byte_feed, bits_of_cons, crc_from_app.
Qed.

(** ** Registers *)

(** A register whose low [w] bits are zero. *)
Definition aligned (w : Z) (s : Z) : Prop := 0 <= s < 2 ^ 32 /\ forall m, 0 <= m < w -> Z.testbit s m = false.

Lemma aligned_lxor w a b : aligned w a -> aligned w b -> aligned w (Z.lxor a b).
Proof.
  intros [Ha Ha'] [Hb Hb']. split; [by apply lxor_range|].
  intros m Hm. by rewrite Z.lxor_spec, Ha', Hb'.
Qed.

Lemma aligned_shiftl w x n : 0 <= w <= n -> 0 <= x < 2 ^ (32 - n) -> n <= 32 -> aligned w (Z.shiftl x n).
Proof.
  intros Hw Hx Hn. split.
  - rewrite Z.shiftl_mul_pow2 by lia. split; [lia|].
    replace (2 ^ 32) with (2 ^ (32 - n) * 2 ^ n) by (rewrite <- Z.pow_add_r by lia; f_equal; lia).
    apply Z.mul_lt_mono_pos_r; lia.
  - intros m Hm. rewrite Z.shiftl_spec by lia. apply Z.testbit_neg_r. lia.
Qed.

Lemma aligned_shift_back w sh s : 0 <= sh <= w -> aligned w s -> Z.shiftl (Z.shiftr s sh) sh = s.
Proof.
  intros Hsh [Hs Hlow]. apply Z.bits_inj'. intros m Hm. rewrite Z.shiftl_spec by done.
  destruct (Z.lt_ge_cases m sh).
  - rewrite Z.testbit_neg_r, Hlow by lia. done.
  - rewrite Z.shiftr_spec by lia. f_equal. lia.
Qed.

Section Tables.
Context (w : Z) (Hw : 0 <= w <= 24) (Hpoly : aligned w poly).

Lemma aligned_step s : aligned w s -> aligned w (step poly s).
Proof.
  intros [Hs Hlow]. unfold step. apply aligned_lxor.
  - split; [apply u32_range|]. intros m Hm. rewrite u32_land, Z.land_spec, Z.shiftl_spec by lia.
    destruct (Z.eq_dec m 0) as [->|Hne]; [by rewrite Z.testbit_neg_r|]. by rewrite Hlow by lia.
  - destruct (Z.testbit s 31); [done|]. split; [done|]. intros m Hm. apply Z.bits_0.
Qed.

Lemma aligned_steps n s : aligned w s -> aligned w (steps poly n s).
Proof. intros Hs. induction n as [|n IH]; [done|]. by apply aligned_step. Qed.

Lemma aligned_crc_from bits s : aligned w s -> aligned w (crc_from poly s bits).
Proof.
  revert s. induction bits as [|b bits IH]; intros s Hs; [done|].
  apply IH. apply aligned_step, aligned_lxor; [done|]. destruct b; [|split; [done|]; intros m Hm; apply Z.bits_0].
  split; [done|]. intros m Hm. by apply Z.pow2_bits_false; lia.
Qed.

(** The first [r] bits of the register select the entry of the table. *)
Lemma register_split r s x : (1 <= r <= 8)%nat -> 0 <= s < 2 ^ 32 -> 0 <= x < 2 ^ Z.of_nat r ->
  steps poly r (Z.lxor s (Z.shiftl x (32 - Z.of_nat r)))
  = Z.lxor (u32 (Z.shiftl s (Z.of_nat r)))
      (steps poly 8 (Z.shiftl (Z.lxor x (Z.shiftr s (32 - Z.of_nat r))) 24)).
Proof.
  intros Hr Hs Hx. set (n := Z.of_nat r) in *. set (lo := Z.land s (Z.ones (32 - n))).
  assert (s = Z.lxor (Z.shiftl (Z.shiftr s (32 - n)) (32 - n)) lo) as Hsplit.
  { apply Z.bits_inj'. intros m Hm. unfold lo. rewrite Z.lxor_spec, testbit_land_ones, Z.shiftl_spec by lia.
    destruct (Z.ltb_spec m (32 - n)).
    - rewrite (Z.testbit_neg_r _ (m - _)) by lia. by destruct (Z.testbit s m).
    - rewrite Z.shiftr_spec by lia. replace (m - (32 - n) + (32 - n)) with m by lia. by destruct (Z.testbit s m). }
  assert (0 <= Z.shiftr s (32 - n) < 2 ^ n) as Hhi.
  { rewrite Z.shiftr_div_pow2 by lia. split; [apply Z.div_pos; lia|]. apply Z.div_lt_upper_bound; [lia|].
    rewrite <- Z.pow_add_r by lia. replace (32 - n + n) with 32 by lia. lia. }
  assert (0 <= lo < 2 ^ (32 - n)) as Hlo by (unfold lo; rewrite Z.land_ones by lia; apply Z.mod_pos_bound; lia).
  set (y := Z.lxor x (Z.shiftr s (32 - n))).
  assert (0 <= y < 2 ^ n) as Hy by (apply lxor_range; lia || done).
  assert (Z.lxor s (Z.shiftl x (32 - n)) = Z.lxor lo (Z.shiftl y (32 - n))) as ->.
  { unfold y. rewrite Z.shiftl_lxor. rewrite Hsplit at 1. clearbody lo. lxor_solve. }
  rewrite steps_linear. f_equal.
  - rewrite steps_shift by (fold n; lia). fold n. unfold lo.
    apply Z.bits_inj'. intros m Hm. rewrite u32_land, testbit_land_ones, !Z.shiftl_spec by lia.
    destruct (Z.ltb_spec m n); [rewrite !Z.testbit_neg_r by lia; by rewrite andb_false_r|].
    rewrite testbit_land_ones by lia. f_equal. destruct (Z.ltb_spec (m - n) (32 - n)), (Z.ltb_spec m 32); done || lia.
  - replace 8%nat with (r + (8 - r))%nat by lia. rewrite steps_add. f_equal.
    rewrite steps_shift; [|split|lia].
    + rewrite Z.shiftl_shiftl by lia. f_equal. lia.
    + apply Z.shiftl_nonneg. lia.
    + rewrite Z.shiftl_mul_pow2 by lia. replace (32 - Z.of_nat (8 - r)) with (n + 24) by lia.
      rewrite Z.pow_add_r by lia. apply Z.mul_lt_mono_pos_r; lia.
Qed.

Context (sh : Z) (Hsh : 0 <= sh <= w).

Lemma lut_entry x : is_byte x ->
  exists e, lut (crc_table poly sh) x = Ok e /\ u32 (Z.shiftl e sh) = steps poly 8 (Z.shiftl x 24).
Proof.
  intros Hx. exists (Z.shiftr (steps poly 8 (Z.shiftl x 24)) sh). split.
  - unfold lut, crc_table, zget. unfold is_byte in Hx. rewrite (proj2 (Z.leb_le _ _)) by lia.
    rewrite list_lookup_fmap, lookup_seq_lt by lia. cbn [fmap option_fmap option_map of_option].
    f_equal. f_equal. assert (bytes_ok [x]) by (constructor; [exact Hx|constructor]).
    rewrite Nat.add_0_l, Z2Nat.id by lia. rewrite crcbit_octets_feed by done.
    rewrite bits_of_cons, app_nil_r, crc_from_short by done. f_equal. rewrite Z.lxor_0_l.
    pose proof (num_of_byte x 8 Hx ltac:(lia)) as E. change (take 8 (bits_of_byte x)) with (bits_of_byte x) in E.
    rewrite E. by rewrite Z.shiftr_0_r.
  - rewrite (aligned_shift_back w); [|done|].
    + apply u32_small. apply aligned_steps. apply aligned_shiftl; unfold is_byte in Hx; lia.
    + apply aligned_steps. apply aligned_shiftl; unfold is_byte in Hx; lia.
Qed.

(** ** The loops *)

Lemma shiftr24_byte s : 0 <= s < 2 ^ 32 -> is_byte (Z.shiftr s 24).
Proof.
  intros Hs. unfold is_byte. rewrite Z.shiftr_div_pow2 by lia.
  split; [apply Z.div_pos; lia|apply Z.div_lt_upper_bound; lia].
Qed.

Lemma feed_byte s b : 0 <= s < 2 ^ 32 -> is_byte b ->
  crc_from poly s (bits_of_byte b)
  = Z.lxor (u32 (Z.shiftl s 8)) (steps poly 8 (Z.shiftl (Z.lxor b (Z.shiftr s 24)) 24)).
Proof.
  intros Hs Hb. rewrite crc_from_short by done.
  pose proof (num_of_byte b 8 Hb ltac:(lia)) as E. change (take 8 (bits_of_byte b)) with (bits_of_byte b) in E.
  rewrite E, Z.shiftr_0_r. exact (register_split 8 s b ltac:(lia) Hs Hb).
Qed.

Lemma crc_octets_feed l s : bytes_ok l -> aligned w s ->
  crc_octets (crc_table poly sh) sh l s = Ok (crc_from poly s (bits_of l)).
Proof.
  intros Hl. revert s. induction Hl as [|b l Hb Hl IH]; intros s Hs; [done|]. cbn [crc_octets].
  destruct (lut_entry (Z.lxor b (Z.shiftr s 24))) as (e & -> & He).
  { apply lxor_is_byte; [done|apply shiftr24_byte, Hs]. }
  cbn [mbind outcome_bind]. rewrite He, <- feed_byte by (done || apply Hs).
  rewrite IH by (by apply aligned_crc_from). by rewrite bits_of_cons, crc_from_app.
Qed.

Lemma crc_octets_short_feed l s : sh = 24 -> bytes_ok l -> aligned w s ->
  crc_octets_short (crc_table poly sh) l s = Ok (crc_from poly s (bits_of l)).
Proof.
  intros H24 Hl. revert s. induction Hl as [|b l Hb Hl IH]; intros s Hs; [done|]. cbn [crc_octets_short].
  destruct (lut_entry (Z.lxor b (Z.shiftr s 24))) as (e & -> & He).
  { apply lxor_is_byte; [done|apply shiftr24_byte, Hs]. }
  cbn [mbind outcome_bind]. rewrite H24 in He. rewrite He.
  assert (u32 (Z.shiftl s 8) = 0) as Hz.
  { apply Z.bits_inj'. intros m Hm. rewrite u32_land, testbit_land_ones, Z.shiftl_spec, Z.bits_0 by lia.
    destruct (Z.ltb_spec m 32); [|done]. cbn [andb].
    destruct (Z.lt_ge_cases (m - 8) 0); [by apply Z.testbit_neg_r|]. apply Hs. lia. }
  rewrite <- (Z.lxor_0_l (steps poly 8 _)), <- Hz, <- feed_byte by (done || apply Hs).
  rewrite IH by (by apply aligned_crc_from). by rewrite bits_of_cons, crc_from_app.
Qed.

Lemma crc_rest_feed l k r s b : aligned w s -> 0 <= k -> l !! Z.to_nat k = Some b -> is_byte b -> 0 <= r < 8 ->
  crc_rest (crc_table poly sh) sh l k r s = Ok (crc_from poly s (take (Z.to_nat r) (bits_of_byte b))).
Proof.
  intros Hs Hk Hb Hbb Hr. unfold crc_rest. destruct (r >? 0) eqn:E; zify_bool.
  - unfold zget. rewrite (proj2 (Z.leb_le _ _)) by lia. rewrite Z.max_r, Hb by lia. cbn [of_option mbind outcome_bind].
    assert (0 <= Z.shiftr b (8 - r) < 2 ^ r) as Hx.
    { unfold is_byte in Hbb. rewrite Z.shiftr_div_pow2 by lia. split; [apply Z.div_pos; lia|].
      apply Z.div_lt_upper_bound; [lia|]. rewrite <- Z.pow_add_r by lia. replace (8 - r + r) with 8 by lia. lia. }
    assert (0 <= Z.shiftr s (32 - r) < 2 ^ r) as Hhi.
    { rewrite Z.shiftr_div_pow2 by lia. split; [apply Z.div_pos; [apply Hs|lia]|]. apply Z.div_lt_upper_bound; [lia|].
      rewrite <- Z.pow_add_r by lia. replace (32 - r + r) with 32 by lia. apply Hs. }
    destruct (lut_entry (Z.lxor (Z.shiftr b (8 - r)) (Z.shiftr s (32 - r)))) as (e & -> & He).
    { pose proof (lxor_range r _ _ ltac:(lia) Hx Hhi). assert (2 ^ r < 2 ^ 8) by (apply Z.pow_lt_mono_r; lia).
      unfold is_byte. lia. }
    cbn [mbind outcome_bind]. rewrite He. f_equal.
    rewrite crc_from_short by (unfold zlen; rewrite length_take; cbn; lia).
    rewrite num_of_byte by (done || lia).
    assert (length (take (Z.to_nat r) (bits_of_byte b)) = Z.to_nat r) as Hlen by (rewrite length_take; cbn; lia).
    unfold zlen. rewrite Hlen. pose proof (register_split (Z.to_nat r) s (Z.shiftr b (8 - r)) ltac:(lia) (proj1 Hs)) as Hsp.
    rewrite Z2Nat.id in Hsp |- * by lia. by rewrite Hsp.
  - by replace r with 0 by lia.
Qed.

(** The bits the code is to read: whole bytes, then some of the next. *)
Lemma take_bits l k r b : l !! k = Some b -> (r <= 8)%nat ->
  take (8 * k + r) (bits_of l) = bits_of (take k l) ++ take r (bits_of_byte b).
Proof.
  intros Hb Hr. pose proof (lookup_lt_Some _ _ _ Hb) as Hk.
  rewrite <- (take_drop_middle l k b Hb) at 1. rewrite bits_of_app, bits_of_cons.
  assert (length (bits_of (take k l)) = (8 * k)%nat) as Hl by (rewrite bits_of_len, length_take; lia).
  rewrite take_app_ge by lia. f_equal. rewrite Hl. replace (8 * k + r - 8 * k)%nat with r by lia.
  apply take_app_le. done.
Qed.

Lemma take_bits_whole l k : take (8 * k) (bits_of l) = bits_of (take k l).
Proof.
  rewrite <- (take_drop k l) at 1. rewrite bits_of_app.
  destruct (Nat.le_gt_cases k (length l)).
  - rewrite take_app_le by (rewrite bits_of_len, length_take; lia).
    apply take_ge. rewrite bits_of_len, length_take. lia.
  - rewrite drop_ge, app_nil_r by lia. apply take_ge. rewrite bits_of_len, length_take. lia.
Qed.

(** After the whole bytes, the rest. *)
Lemma crc_after_octets l n : bytes_ok l -> 0 <= n <= 8 * zlen l ->
  zslice l 0 (Z.max 0 (Z.quot n 8)) = Some (take (Z.to_nat (n / 8)) l) /\ bytes_ok (take (Z.to_nat (n / 8)) l) /\
  crc_rest (crc_table poly sh) sh l (Z.quot n 8) (Z.rem n 8) (crc_from poly 0 (bits_of (take (Z.to_nat (n / 8)) l)))
  = Ok (crc_of_bits poly (take (Z.to_nat n) (bits_of l))).
Proof.
  intros Hl Hn. rewrite Z.quot_div_nonneg, Z.rem_mod_nonneg by lia.
  pose proof (Z.div_mod n 8 ltac:(lia)) as Hdm. pose proof (Z.mod_pos_bound n 8 ltac:(lia)) as Hmod.
  assert (0 <= n / 8 <= zlen l) as Hk by lia. split_and!.
  - rewrite Z.max_r, zslice_ok by lia. change (Z.to_nat 0) with O. by rewrite drop_0.
  - by apply Forall_take.
  - assert (aligned w 0) as H0 by (split; [done|]; intros; apply Z.bits_0). unfold crc_of_bits.
    destruct (Z.eq_dec (n mod 8) 0) as [E|E].
    + rewrite E. cbn [crc_rest Z.gtb]. unfold crc_rest. cbn. do 2 f_equal.
      replace (Z.to_nat n) with (8 * Z.to_nat (n / 8))%nat by lia. by rewrite take_bits_whole.
    + destruct (lookup_lt_is_Some_2 l (Z.to_nat (n / 8))) as [b Hb]; [unfold zlen in *; lia|].
      rewrite (crc_rest_feed l (n / 8) (n mod 8) _ b); try done; try lia.
      * replace (Z.to_nat n) with (8 * Z.to_nat (n / 8) + Z.to_nat (n mod 8))%nat by lia.
        rewrite (take_bits l _ _ b Hb) by lia. by rewrite crc_from_app.
      * by apply aligned_crc_from.
      * by apply (Forall_lookup_1 _ _ _ _ Hl Hb).
Qed.

Lemma crc_table_driven_ok l n : bytes_ok l -> 0 <= n <= 8 * zlen l ->
  crc_table_driven (crc_table poly sh) sh l n = Ok (crc_of_bits poly (take (Z.to_nat n) (bits_of l))).
Proof.
  intros Hl Hn. destruct (crc_after_octets l n Hl Hn) as (Hs & Ht & Hr).
  unfold crc_table_driven. rewrite Hs. cbn [of_option mbind outcome_bind].
  rewrite crc_octets_feed by (done || (split; [done|]; intros; apply Z.bits_0)). exact Hr.
Qed.

Lemma crc_short_ok l n : sh = 24 -> bytes_ok l -> 0 <= n <= 8 * zlen l ->
  crc_short (crc_table poly sh) l n = Ok (crc_of_bits poly (take (Z.to_nat n) (bits_of l))).
Proof.
  intros Hsh24 Hl Hn. destruct (crc_after_octets l n Hl Hn) as (Hs & Ht & Hr).
  unfold crc_short. rewrite Hs. cbn [of_option mbind outcome_bind].
  rewrite crc_octets_short_feed by (done || (split; [done|]; intros; apply Z.bits_0)).
  rewrite Hsh24 in Hr |- *. exact Hr.
Qed.

End Tables.
End Poly.
