(* ===== verification/CrcClmul.v ===== *)
(** * The folding CRC computes the CRC of the bytes (PHY/CODING/crc.h)

    A 128 bit register stands for a polynomial, of which only the remainder
    counts.  Folding, reductions and byte shuffles are linear: what they do is
    decided on the powers of two. *)

From S2P Require Import Prelude CrcBits Crc CrcTables.

(** ** Remainders *)

Section Rem.
Context (poly : Z).

(** The remainder of the polynomial of [n] bits [v]. *)
Fixpoint prem (n : nat) (v : Z) : Z :=
  match n with
  | O => 0
  | S n => Z.lxor (if Z.testbit v (Z.of_nat n) then steps poly n 1 else 0) (prem n v)
  end.

#[export] Instance prem_linear n : Linear (prem n).
Proof.
  intros a b. induction n as [|n IH]; [done|]. cbn [prem]. rewrite IH, Z.lxor_spec, if_lxor. lxor_solve.
Qed.

Lemma prem_ext n v v' : (forall i, 0 <= i < Z.of_nat n -> Z.testbit v i = Z.testbit v' i) -> prem n v = prem n v'.
Proof.
  induction n as [|n IH]; intros H; [done|]. cbn [prem]. rewrite IH, H by (intros; (apply H || idtac); lia). done.
Qed.

Lemma prem_extend n m v : 0 <= v < 2 ^ Z.of_nat n -> prem (m + n) v = prem n v.
Proof.
  intros Hv. apply range_bits in Hv as [_ Hv]; [|lia].
  induction m as [|m IH]; [done|]. cbn [Nat.add prem]. rewrite Hv, IH by lia. apply Z.lxor_0_l.
Qed.

Lemma prem_shiftl n k v : prem (n + k) (Z.shiftl v (Z.of_nat k)) = steps poly k (prem n v).
Proof.
  induction n as [|n IH]; cbn [Nat.add prem].
  - rewrite (linear_0 _ (steps_linear poly k)). rewrite <- (linear_0 _ (prem_linear k)).
    apply prem_ext. intros i Hi. by rewrite Z.shiftl_spec_low, Z.bits_0 by lia.
  - rewrite IH, steps_linear. f_equal. rewrite Z.shiftl_spec by lia.
    replace (Z.of_nat (n + k) - Z.of_nat k) with (Z.of_nat n) by lia.
    destruct (Z.testbit v (Z.of_nat n)); [|symmetry; apply linear_0, steps_linear].
    by rewrite Nat.add_comm, steps_add.
Qed.

(** The remainder of a sequence of bits. *)
Definition rem_of_bits (bits : list bool) : Z := prem (length bits) (num_of_bits bits).

Lemma num_of_app l1 l2 : num_of_bits (l1 ++ l2) = Z.lxor (Z.shiftl (num_of_bits l1) (zlen l2)) (num_of_bits l2).
Proof.
  pose proof (zlen_nonneg l2) as H2. induction l1 as [|b l1 IH]; [cbn; by rewrite Z.shiftl_0_l, Z.lxor_0_l|].
  cbn [app num_of_bits]. rewrite IH, Z.shiftl_lxor, Z.lxor_assoc. f_equal. pose proof (zlen_nonneg l1) as H1.
  destruct b; [|by rewrite Z.shiftl_0_l]. rewrite zlen_app, Z.shiftl_mul_pow2, <- Z.pow_add_r by lia. done.
Qed.

Lemma rem_of_app l1 l2 :
  rem_of_bits (l1 ++ l2) = Z.lxor (steps poly (length l2) (rem_of_bits l1)) (rem_of_bits l2).
Proof.
  unfold rem_of_bits. rewrite num_of_app, length_app, prem_linear. unfold zlen. rewrite prem_shiftl. f_equal.
  apply prem_extend, num_of_bits_range.
Qed.

(** A register that holds the bits. *)
Lemma prem_register n bits : (length bits <= n)%nat -> prem n (num_of_bits bits) = rem_of_bits bits.
Proof.
  intros Hn. unfold rem_of_bits. replace n with (n - length bits + length bits)%nat by lia.
  apply prem_extend, num_of_bits_range.
Qed.

Lemma feed_rem s b : feed poly s b = Z.lxor (step poly s) (steps poly 32 (rem_of_bits [b])).
Proof.
  unfold feed. rewrite step_linear. f_equal.
  change 32%nat with (1 + 31)%nat. rewrite steps_add. change (steps poly 1 ?x) with (step poly x). f_equal.
  rewrite steps_shift; [|by destruct b|lia]. by destruct b.
Qed.

(** The CRC is the remainder of the bits followed by 32 zeros. *)
Lemma crc_rem s bits : crc_from poly s bits = Z.lxor (steps poly (length bits) s) (steps poly 32 (rem_of_bits bits)).
Proof.
  revert s. induction bits as [|b bits IH]; intros s.
  - change (rem_of_bits []) with 0. by rewrite (linear_0 _ (steps_linear poly 32)), Z.lxor_0_r.
  - change (crc_from poly s (b :: bits)) with (crc_from poly (feed poly s b) bits).
    rewrite IH, feed_rem, steps_linear, steps_step. change (b :: bits) with ([b] ++ bits).
    change (steps poly (length ([b] ++ bits)) s) with (step poly (steps poly (length bits) s)).
    rewrite rem_of_app, steps_linear, <- !steps_add, (Nat.add_comm 32). lxor_solve.
Qed.

Lemma crc_of_bits_rem bits : crc_of_bits poly bits = steps poly 32 (rem_of_bits bits).
Proof. unfold crc_of_bits. by rewrite crc_rem, (linear_0 _ (steps_linear poly _)), Z.lxor_0_l. Qed.
End Rem.

(** ** Carry-less products *)

#[export] Instance clmul_linear n b : Linear (fun a => clmul n a b).
Proof.
  intros x y. induction n as [|n IH]; [done|]. cbn [clmul]. rewrite IH, Z.lxor_spec, if_lxor. lxor_solve.
Qed.

Lemma clmul_lxor n x y b : clmul n (Z.lxor x y) b = Z.lxor (clmul n x b) (clmul n y b).
Proof. apply (clmul_linear n b). Qed.
#[export] Hint Rewrite clmul_lxor : linear.

Lemma clmul_range n m a b : 0 <= b < 2 ^ Z.of_nat m -> 0 <= clmul n a b < 2 ^ Z.of_nat (n + m).
Proof.
  intros Hb. induction n as [|n IH]; [cbn [clmul]; lia|]. cbn [clmul].
  assert (2 ^ Z.of_nat (n + m) < 2 ^ Z.of_nat (S n + m)) by (apply Z.pow_lt_mono_r; lia).
  apply lxor_range; [lia| |lia]. destruct (Z.testbit a (Z.of_nat n)); [|lia].
  rewrite Z.shiftl_mul_pow2 by lia. split; [lia|].
  replace (2 ^ Z.of_nat (S n + m)) with (2 * (2 ^ Z.of_nat m * 2 ^ Z.of_nat n))
    by (rewrite <- Z.pow_add_r, <- Z.pow_succ_r by lia; f_equal; lia).
  assert (b * 2 ^ Z.of_nat n < 2 ^ Z.of_nat m * 2 ^ Z.of_nat n) by (apply Z.mul_lt_mono_pos_r; lia). lia.
Qed.

Lemma low64_range x : 0 <= low64 x < 2 ^ Z.of_nat 64.
Proof. unfold low64. rewrite Z.land_ones by lia. apply Z.mod_pos_bound. lia. Qed.
Lemma high64_range x : 0 <= high64 x < 2 ^ Z.of_nat 64.
Proof. unfold high64. rewrite Z.land_ones by lia. apply Z.mod_pos_bound. lia. Qed.

Lemma clmulepi64_range x y imm : 0 <= _mm_clmulepi64_si128 x y imm < 2 ^ 128.
Proof.
  unfold _mm_clmulepi64_si128. apply (clmul_range 64 64). destruct (Z.testbit imm 4); [apply high64_range|apply low64_range].
Qed.

#[export] Instance clmulepi64_linear y imm : Linear (fun x => _mm_clmulepi64_si128 x y imm).
Proof.
  intros a b. unfold _mm_clmulepi64_si128, high64, low64. destruct (Z.testbit imm 0); linear_solve.
Qed.
Lemma clmulepi64_lxor x x' y imm :
  _mm_clmulepi64_si128 (Z.lxor x x') y imm = Z.lxor (_mm_clmulepi64_si128 x y imm) (_mm_clmulepi64_si128 x' y imm).
Proof. apply (clmulepi64_linear y imm). Qed.
#[export] Hint Rewrite clmulepi64_lxor : linear.

(** ** Byte shuffles *)

Lemma xmm_of_bytes_lxor l1 l2 : length l1 = length l2 ->
  xmm_of_bytes (zip_with Z.lxor l1 l2) = Z.lxor (xmm_of_bytes l1) (xmm_of_bytes l2).
Proof.
  revert l2. induction l1 as [|b1 l1 IH]; intros [|b2 l2] Hl; try done. cbn [zip_with xmm_of_bytes foldr].
  injection Hl as Hl. fold (xmm_of_bytes (zip_with Z.lxor l1 l2)) (xmm_of_bytes l1) (xmm_of_bytes l2).
  rewrite (IH _ Hl). linear_solve.
Qed.

#[export] Instance shuffle_linear idx : Linear (fun r => simde_mm_shuffle_epi8 r idx).
Proof.
  intros a b. unfold simde_mm_shuffle_epi8. rewrite <- xmm_of_bytes_lxor by (by rewrite !length_fmap).
  f_equal. induction (xmm_bytes idx) as [|i l IH]; [done|]. cbn [fmap list_fmap zip_with]. f_equal; [|exact IH].
  destruct (Z.testbit i 7); [done|]. linear_solve.
Qed.

Definition shift_table_ok (num : nat) : bool :=
  match simde_mm_loadu_si128 crc_xmm_shift_tab (16 + Z.of_nat num), simde_mm_loadu_si128 crc_xmm_shift_tab (16 - Z.of_nat num) with
  | Ok tr, Ok tl =>
      agree 128 (fun r => simde_mm_shuffle_epi8 r tr) (fun r => Z.shiftr r (8 * Z.of_nat num)) &&
      agree 128 (fun r => simde_mm_shuffle_epi8 r tl) (fun r => Z.land (Z.shiftl r (8 * Z.of_nat num)) ones128)
  | _, _ => false
  end.

Lemma shift_tables : forallb shift_table_ok (seq 0 17) = true.
Proof. vm_compute. reflexivity. Qed.

Lemma xmm_shifts r num : 0 <= num <= 16 -> 0 <= r < 2 ^ 128 ->
  xmm_shift_right r num = Ok (Z.shiftr r (8 * num)) /\
  xmm_shift_left r num = Ok (Z.land (Z.shiftl r (8 * num)) ones128).
Proof.
  intros Hn Hr. pose proof shift_tables as Ht. rewrite forallb_forall in Ht.
  specialize (Ht (Z.to_nat num) ltac:(apply in_seq; lia)). unfold shift_table_ok in Ht. rewrite Z2Nat.id in Ht by lia.
  unfold xmm_shift_right, xmm_shift_left.
  destruct (simde_mm_loadu_si128 _ (16 + num)) as [tr|], (simde_mm_loadu_si128 _ (16 - num)) as [tl|];
    try discriminate Ht.
  apply andb_prop in Ht as [H1 H2]. cbn [mbind outcome_bind].
  split; f_equal.
  - exact (linear_eq _ _ 128 r (shuffle_linear tr) (fun x y => Z.shiftr_lxor x y _) H1 Hr).
  - refine (linear_eq _ _ 128 r (shuffle_linear tl) _ H2 Hr). intros x y. linear_solve.
Qed.
