(* ===== verification/CrcIntel.v ===== *)
(** * Folding, and the CRC it computes (PHY/CODING/crc.h)

    What each block of the computation holds, as a polynomial, and the whole. *)

From S2P Require Import Prelude Crc CrcBits CrcTables CrcClmul.

(** ** Bytes in a register *)

(** The bytes as one number, the first one highest. *)
Definition be (l : list Z) : Z := num_of_bits (bits_of l).

Lemma be_range l : 0 <= be l < 2 ^ (8 * zlen l).
Proof.
  pose proof (num_of_bits_range (bits_of l)) as H. unfold be, zlen in *. rewrite bits_of_len in H.
  by replace (Z.of_nat (8 * length l)) with (8 * Z.of_nat (length l)) in H by lia.
Qed.

Lemma be_app l1 l2 : be (l1 ++ l2) = Z.lxor (Z.shiftl (be l1) (8 * zlen l2)) (be l2).
Proof.
  unfold be. rewrite bits_of_app, num_of_app. f_equal. f_equal. unfold zlen. rewrite bits_of_len. lia.
Qed.

(** A number of few bits, placed low. *)
Lemma shiftr_lxor_low a b n : 0 <= n -> 0 <= b < 2 ^ n -> Z.shiftr (Z.lxor (Z.shiftl a n) b) n = a.
Proof.
  intros Hn Hb. rewrite Z.shiftr_lxor, Z.shiftr_shiftl_l, Z.sub_diag, Z.shiftl_0_r by lia.
  rewrite (Z.shiftr_div_pow2 b), Z.div_small by lia. apply Z.lxor_0_r.
Qed.

Lemma be_high l1 l2 : Z.shiftr (be (l1 ++ l2)) (8 * zlen l2) = be l1.
Proof. rewrite be_app. apply shiftr_lxor_low; [pose proof (zlen_nonneg l2); lia|apply be_range]. Qed.

Lemma land_ones_small n x : 0 <= n -> 0 <= x < 2 ^ n -> Z.land x (Z.ones n) = x.
Proof. intros Hn Hx. rewrite Z.land_ones by done. by apply Z.mod_small. Qed.

Lemma shiftl_range x n m : 0 <= n -> 0 <= m -> 0 <= x < 2 ^ n -> 0 <= Z.shiftl x m < 2 ^ (n + m).
Proof.
  intros Hn Hm Hx. rewrite Z.shiftl_mul_pow2, Z.pow_add_r by lia.
  split; [lia|]. apply Z.mul_lt_mono_pos_r; lia.
Qed.

Lemma be_low l1 l2 : zlen l1 + zlen l2 = 16 ->
  Z.land (Z.shiftl (be (l1 ++ l2)) (8 * zlen l1)) ones128 = Z.shiftl (be l2) (8 * zlen l1).
Proof.
  intros Hl. pose proof (zlen_nonneg l1). pose proof (zlen_nonneg l2). pose proof (be_range l2) as Hb.
  rewrite be_app, Z.shiftl_lxor, land_lxor, Z.shiftl_shiftl by lia.
  replace (8 * zlen l2 + 8 * zlen l1) with 128 by lia. unfold ones128.
  rewrite (Z.land_ones (Z.shiftl _ 128)), Z.shiftl_mul_pow2, Z.mod_mul, Z.lxor_0_l by lia.
  apply land_ones_small; [done|]. replace 128 with (8 * zlen l2 + 8 * zlen l1) by lia. by apply shiftl_range; lia.
Qed.

(** ** Loads *)

Definition swap128 : Z := simde_mm_setr_epi32 0x0c0d0e0f 0x08090a0b 0x04050607 0x00010203.

Lemma xmm_byte l i : bytes_ok l ->
  Z.land (Z.shiftr (xmm_of_bytes l) (8 * Z.of_nat i)) 255 = default 0 (l !! i).
Proof.
  intros Hl. revert i. induction Hl as [|b l Hb Hl IH]; intros i; [by rewrite Z.shiftr_0_l|].
  cbn [xmm_of_bytes foldr]. fold (xmm_of_bytes l).
  assert (0 <= b < 2 ^ 8) as Hb' by exact Hb. destruct i as [|i].
  - rewrite Z.shiftr_0_r, land_lxor. change 255 with (Z.ones 8).
    rewrite land_ones_small by (done || lia).
    rewrite Z.land_ones, Z.shiftl_mul_pow2, Z.mod_mul, Z.lxor_0_r by lia. done.
  - rewrite Z.lxor_comm. replace (8 * Z.of_nat (S i)) with (8 + 8 * Z.of_nat i) by lia.
    rewrite <- Z.shiftr_shiftr, shiftr_lxor_low by (done || lia). apply IH.
Qed.

Lemma xmm_reverse l : bytes_ok l -> xmm_of_bytes (reverse l) = be l.
Proof.
  induction l as [|b l IH] using rev_ind; intros Hl; [done|]. apply Forall_app in Hl as [Hl Hb].
  apply Forall_cons in Hb as [Hb _].
  rewrite reverse_app, reverse_singleton, be_app. cbn [app xmm_of_bytes foldr]. fold (xmm_of_bytes (reverse l)).
  rewrite IH, Z.lxor_comm by done. f_equal. unfold be. rewrite bits_of_cons, app_nil_r.
  pose proof (num_of_byte b 8 Hb ltac:(lia)) as E. change (take 8 (bits_of_byte b)) with (bits_of_byte b) in E.
  rewrite E. by rewrite Z.shiftr_0_r.
Qed.

Lemma load_swap l : bytes_ok l -> length l = 16%nat -> simde_mm_shuffle_epi8 (xmm_of_bytes l) swap128 = be l.
Proof.
  intros Hl Hn. rewrite <- xmm_reverse by done. unfold simde_mm_shuffle_epi8.
  assert (xmm_bytes swap128 = Z.of_nat <$> reverse (seq 0 16)) as -> by (vm_compute; reflexivity).
  f_equal. rewrite <- list_fmap_compose.
  transitivity ((fun i => default 0 (l !! i)) <$> reverse (seq 0 16)).
  - apply list_fmap_ext. intros i x Hx. cbn [compose]. apply list_elem_of_lookup_2 in Hx.
    apply elem_of_reverse, elem_of_seq in Hx.
    assert (0 <= Z.of_nat x < 2 ^ 4) as Hr by lia. change 15 with (Z.ones 4). rewrite land_ones_small by done.
    apply range_bits in Hr as [_ Hr]; [|done]. rewrite Hr by done. by apply xmm_byte.
  - do 16 (destruct l as [|? l]; [done|]). by destruct l.
Qed.

Lemma loadu_ok mem off : 0 <= off -> off + 16 <= zlen mem ->
  simde_mm_loadu_si128 mem off = Ok (xmm_of_bytes (take 16 (drop (Z.to_nat off) mem))).
Proof. intros H1 H2. unfold simde_mm_loadu_si128. by rewrite zslice_ok. Qed.

(** Sixteen bytes of the data, in the order of the polynomial. *)
Lemma load_be mem off : bytes_ok mem -> 0 <= off -> off + 16 <= zlen mem ->
  exists r, simde_mm_loadu_si128 mem off = Ok r /\ simde_mm_shuffle_epi8 r swap128 = be (take 16 (drop (Z.to_nat off) mem)).
Proof.
  intros Hm H1 H2. eexists. split; [by apply loadu_ok|]. apply load_swap.
  - by apply Forall_take, Forall_drop.
  - rewrite length_take, length_drop. unfold zlen in *. lia.
Qed.

Lemma be_lor l1 l2 : Z.lor (be l2) (Z.shiftl (be l1) (8 * zlen l2)) = be (l1 ++ l2).
Proof.
  rewrite be_app, Z.lor_comm. symmetry. apply Z.lxor_lor. pose proof (zlen_nonneg l2).
  pose proof (be_range l2) as Hb. apply range_bits in Hb as [_ Hb]; [|lia].
  apply Z.bits_inj'. intros m Hm. rewrite Z.land_spec, Z.shiftl_spec, Z.bits_0 by lia.
  destruct (Z.lt_ge_cases m (8 * zlen l2)); [by rewrite Z.testbit_neg_r by lia|]. rewrite Hb by lia. apply andb_false_r.
Qed.

(** A block of 16 bytes with its last four cleared. *)
Lemma be_clear l1 l2 : zlen l2 = 4 -> zlen l1 <= 12 ->
  simde_mm_slli_si128 (simde_mm_srli_si128 (be (l1 ++ l2)) 4) 4 = Z.shiftl (be l1) 32.
Proof.
  intros H2 H1. unfold simde_mm_slli_si128, simde_mm_srli_si128.
  pose proof (be_high l1 l2) as E. rewrite H2 in E. rewrite E. change (8 * 4) with 32.
  pose proof (be_range l1) as Hb. pose proof (zlen_nonneg l1).
  apply land_ones_small; [done|]. pose proof (shiftl_range (be l1) (8 * zlen l1) 32 ltac:(lia) ltac:(lia) Hb) as Hs.
  assert (2 ^ (8 * zlen l1 + 32) <= 2 ^ 128) by (apply Z.pow_le_mono_r; lia). lia.
Qed.

(** ** Reductions *)

Lemma land_linear c : Linear (fun x => Z.land x c).
Proof. intros a b. apply land_lxor. Qed.
Lemma shiftr_linear n : Linear (fun x => Z.shiftr x n).
Proof. intros a b. apply Z.shiftr_lxor. Qed.
Lemma shiftl_linear n : Linear (fun x => Z.shiftl x n).
Proof. intros a b. apply Z.shiftl_lxor. Qed.
Lemma id_linear : Linear (fun x => x).
Proof. by intros a b. Qed.

Lemma reduce_128_linear k : Linear (fun x => crc32_reduce_128_to_64 x k).
Proof.
  set (t := fun x => Z.lxor (_mm_clmulepi64_si128 x k 1) x).
  assert (Linear t) as Ht by exact (linear_lxor _ _ (clmulepi64_linear k 1) id_linear).
  assert (Linear (fun x => Z.lxor (_mm_clmulepi64_si128 (t x) k 1) x)) as H
    by exact (linear_lxor _ _ (linear_compose _ _ (clmulepi64_linear k 1) Ht) id_linear).
  exact (linear_compose _ _ (shiftr_linear (8 * 8)) (linear_compose _ _ (land_linear ones128)
    (linear_compose _ _ (shiftl_linear (8 * 8)) H))).
Qed.

Lemma reduce_64_linear k p_res : Linear (fun x => crc32_reduce_64_to_32 x k p_res).
Proof.
  assert (Linear (fun x => Z.lxor (_mm_clmulepi64_si128 (Z.shiftr x (8 * 4)) k 0x10) x)) as H1
    by exact (linear_lxor _ _ (linear_compose _ _ (clmulepi64_linear k 0x10) (shiftr_linear (8 * 4))) id_linear).
  exact (linear_compose _ _ (land_linear 0xffffffff)
    (linear_lxor _ _ (linear_compose _ _ (clmulepi64_linear p_res 0) (linear_compose _ _ (shiftr_linear (8 * 4)) H1)) id_linear)).
Qed.

(** ** Folding *)

Section Fold.
Context (poly : Z) (params : crc_pclmulqdq_ctx).

Definition k12 : Z := pair128 (k1 params) (k2 params).
Hypothesis Hround :
  agree 128 (fun fold => prem poly 128 (crc32_folding_round 0 k12 fold)) (fun fold => steps poly 128 (prem poly 128 fold)) = true.
Hypothesis Hreduce : agree 128 (crc32_reduce params) (prem poly 128) = true.

Definition rem_bytes (l : list Z) : Z := rem_of_bits poly (bits_of l).

Lemma rem_bytes_app l1 l2 :
  rem_bytes (l1 ++ l2) = Z.lxor (steps poly (8 * length l2) (rem_bytes l1)) (rem_bytes l2).
Proof. unfold rem_bytes. by rewrite bits_of_app, rem_of_app, bits_of_len. Qed.

Lemma rem_be l : (length l <= 16)%nat -> prem poly 128 (be l) = rem_bytes l.
Proof. intros Hl. apply prem_register. rewrite bits_of_len. lia. Qed.

Lemma rem_be_shifted l : (length l <= 12)%nat -> prem poly 128 (Z.shiftl (be l) 32) = steps poly 32 (rem_bytes l).
Proof.
  intros Hl. pose proof (prem_shiftl poly 96 32 (be l)) as H. change (96 + 32)%nat with 128%nat in H.
  change (Z.of_nat 32) with 32 in H. rewrite H. f_equal. apply prem_register. rewrite bits_of_len. lia.
Qed.

Lemma round_split data fold : crc32_folding_round data k12 fold = Z.lxor (crc32_folding_round 0 k12 fold) data.
Proof. unfold crc32_folding_round. cbv zeta. lxor_solve. Qed.

Lemma round_range data fold : 0 <= data < 2 ^ 128 -> 0 <= crc32_folding_round data k12 fold < 2 ^ 128.
Proof.
  intros Hd. unfold crc32_folding_round. cbv zeta.
  apply lxor_range; [done|apply clmulepi64_range|].
  apply lxor_range; [done|done|apply clmulepi64_range].
Qed.

Lemma round_rem data fold : 0 <= fold < 2 ^ 128 ->
  prem poly 128 (crc32_folding_round data k12 fold)
  = Z.lxor (steps poly 128 (prem poly 128 fold)) (prem poly 128 data).
Proof.
  intros Hf. rewrite round_split, prem_linear. f_equal.
  refine (linear_eq _ _ 128 fold _ _ Hround Hf).
  - refine (linear_compose (prem poly 128) (fun fold => crc32_folding_round 0 k12 fold) (prem_linear poly 128) _).
    intros a b. unfold crc32_folding_round. cbv zeta. linear_solve.
  - exact (linear_compose _ _ (steps_linear poly 128) (prem_linear poly 128)).
Qed.

Lemma reduce_rem fold : 0 <= fold < 2 ^ 128 -> crc32_reduce params fold = prem poly 128 fold.
Proof.
  intros Hf. refine (linear_eq (crc32_reduce params) _ 128 fold _ (prem_linear poly 128) Hreduce Hf).
  exact (linear_compose _ _ (reduce_64_linear _ _) (reduce_128_linear _)).
Qed.

(** A block of 16 bytes, and the last one. *)
Lemma round_block l1 l2 fold : length l2 = 16%nat -> 0 <= fold < 2 ^ 128 -> prem poly 128 fold = rem_bytes l1 ->
  prem poly 128 (crc32_folding_round (be l2) k12 fold) = rem_bytes (l1 ++ l2).
Proof.
  intros Hl Hf Hr. rewrite (round_rem _ _ Hf), Hr, rem_be, rem_bytes_app, Hl by lia.
  change (8 * 16)%nat with 128%nat. reflexivity.
Qed.

Lemma round_last l1 l2 fold : length l2 = 12%nat -> 0 <= fold < 2 ^ 128 -> prem poly 128 fold = rem_bytes l1 ->
  prem poly 128 (crc32_folding_round (Z.shiftl (be l2) 32) k12 fold) = steps poly 32 (rem_bytes (l1 ++ l2)).
Proof.
  intros Hl Hf Hr. rewrite (round_rem _ _ Hf), Hr, rem_be_shifted, rem_bytes_app, Hl, steps_linear, <- steps_add by lia.
  change (32 + 8 * 12)%nat with 128%nat. reflexivity.
Qed.

End Fold.

(** ** [crc32_calc_pclmulqdq] computes the CRC of the bytes (PHY/CODING/crc.h) *)

Section Intel.
Context (poly : Z) (params : crc_pclmulqdq_ctx).
Hypothesis Hround :
  agree 128 (fun fold => prem poly 128 (crc32_folding_round 0 (k12 params) fold))
    (fun fold => steps poly 128 (prem poly 128 fold)) = true.
Hypothesis Hreduce : agree 128 (crc32_reduce params) (prem poly 128) = true.
Context (data : list Z) (Hdata : bytes_ok data).

Definition bytes_at (off n : Z) : list Z := take (Z.to_nat n) (drop (Z.to_nat off) data).

Lemma bytes_at_len off n : 0 <= off -> 0 <= n -> off + n <= zlen data -> length (bytes_at off n) = Z.to_nat n.
Proof. intros. unfold bytes_at. rewrite length_take, length_drop. unfold zlen in *. lia. Qed.

Lemma bytes_at_zlen off n : 0 <= off -> 0 <= n -> off + n <= zlen data -> zlen (bytes_at off n) = n.
Proof. intros. unfold zlen at 1. rewrite bytes_at_len; lia. Qed.

Lemma be_at_range off n : 0 <= off -> 0 <= n -> off + n <= zlen data -> 0 <= be (bytes_at off n) < 2 ^ (8 * n).
Proof. intros. pose proof (be_range (bytes_at off n)) as Hb. by rewrite bytes_at_zlen in Hb by lia. Qed.

Lemma be_at_shifted off n : 0 <= off -> 0 <= n <= 12 -> off + n <= zlen data ->
  0 <= Z.shiftl (be (bytes_at off n)) 32 < 2 ^ 128.
Proof.
  intros. pose proof (shiftl_range _ (8 * n) 32 ltac:(lia) ltac:(lia) (be_at_range off n ltac:(lia) ltac:(lia) ltac:(lia))).
  assert (2 ^ (8 * n + 32) <= 2 ^ 128) by (apply Z.pow_le_mono_r; lia). lia.
Qed.

Lemma bytes_at_app off n m : 0 <= off -> 0 <= n -> 0 <= m -> bytes_at off n ++ bytes_at (off + n) m = bytes_at off (n + m).
Proof.
  intros. unfold bytes_at. rewrite !Z2Nat.inj_add by lia.
  rewrite <- drop_drop, take_take_drop. done.
Qed.

Lemma bytes_at_more n m : 0 <= n -> 0 <= m -> bytes_at 0 n ++ bytes_at n m = bytes_at 0 (n + m).
Proof. exact (bytes_at_app 0 n m ltac:(lia)). Qed.

Lemma load_at off : 0 <= off -> off + 16 <= zlen data ->
  exists r, simde_mm_loadu_si128 data off = Ok r /\ simde_mm_shuffle_epi8 r swap128 = be (bytes_at off 16).
Proof. apply load_be, Hdata. Qed.

Lemma be_range_16 l : zlen l <= 16 -> 0 <= be l < 2 ^ 128.
Proof.
  intros Hl. pose proof (be_range l) as Hb.
  assert (2 ^ (8 * zlen l) <= 2 ^ 128) by (apply Z.pow_le_mono_r; lia). lia.
Qed.

(** What a block holds. *)
Definition holds (fold : Z) (l : list Z) : Prop := 0 <= fold < 2 ^ 128 /\ prem poly 128 fold = rem_bytes poly l.
Definition finished (fold : Z) (n : Z) : Prop :=
  0 <= fold < 2 ^ 128 /\ prem poly 128 fold = steps poly 32 (rem_bytes poly (bytes_at 0 n)).

Lemma xmm_zero : simde_mm_insert_epi32 0 (bswap4 0) = 0 /\ simde_mm_insert_epi32 0 0 = 0.
Proof. split; reflexivity. Qed.

Lemma shift_split off n : 0 <= off -> off + 16 <= zlen data -> 0 <= n <= 16 ->
  xmm_shift_right (be (bytes_at off 16)) n = Ok (be (bytes_at off (16 - n))) /\
  xmm_shift_left (be (bytes_at off 16)) (16 - n) = Ok (Z.shiftl (be (bytes_at (off + (16 - n)) n)) (8 * (16 - n))).
Proof.
  intros Ho Hl Hn. pose proof (bytes_at_app off (16 - n) n ltac:(lia) ltac:(lia) ltac:(lia)) as E.
  replace (16 - n + n) with 16 in E by lia.
  pose proof (bytes_at_zlen off (16 - n) ltac:(lia) ltac:(lia) ltac:(lia)) as H1.
  pose proof (bytes_at_zlen (off + (16 - n)) n ltac:(lia) ltac:(lia) ltac:(lia)) as H2.
  assert (0 <= be (bytes_at off 16) < 2 ^ 128) as Hr by (apply be_range_16; rewrite bytes_at_zlen; lia).
  destruct (xmm_shifts _ n Hn Hr) as [-> _]. destruct (xmm_shifts _ (16 - n) ltac:(lia) Hr) as [_ ->].
  rewrite <- E. split; f_equal.
  - rewrite <- (be_high (bytes_at off (16 - n)) (bytes_at (off + (16 - n)) n)). by rewrite H2.
  - pose proof (be_low (bytes_at off (16 - n)) (bytes_at (off + (16 - n)) n) ltac:(lia)) as El.
    by rewrite H1 in El.
Qed.

(** ** Blocks *)

Lemma one_block_ok n r : 0 < n <= 12 -> 16 <= zlen data ->
  simde_mm_shuffle_epi8 r swap128 = be (bytes_at 0 16) ->
  exists fold, fold_one_block swap128 (n + 4) 0 r = Ok fold /\ finished fold n.
Proof.
  intros Hn Hl Hr. unfold fold_one_block. cbv zeta. rewrite Hr.
  replace (20 - (n + 4)) with (16 - n) by lia.
  destruct (shift_split 0 (16 - n) ltac:(lia) ltac:(lia) ltac:(lia)) as [-> _]. cbn [mbind outcome_bind].
  replace (16 - (16 - n)) with n by lia. replace (n + 4 - 4) with n by lia.
  rewrite (proj1 xmm_zero). destruct (xmm_shifts 0 n ltac:(lia) ltac:(lia)) as [_ ->]. cbn [mbind outcome_bind].
  rewrite Z.shiftl_0_l, Z.land_0_l, Z.lxor_0_r.
  pose proof (bytes_at_zlen 0 n ltac:(lia) ltac:(lia) ltac:(lia)) as Hz.
  assert (simde_mm_slli_si128 (be (bytes_at 0 n)) 4 = Z.shiftl (be (bytes_at 0 n)) 32) as ->.
  { unfold simde_mm_slli_si128. change (8 * 4) with 32. apply land_ones_small; [done|]. apply be_at_shifted; lia. }
  eexists. split; [reflexivity|]. split.
  - apply be_at_shifted; lia.
  - apply rem_be_shifted. unfold zlen in Hz. lia.
Qed.

Lemma two_blocks_ok len n r : 0 <= n < 16 -> 32 <= zlen data ->
  simde_mm_shuffle_epi8 r swap128 = be (bytes_at 0 16) -> (len + 4 <= 32 -> n = 28 - len) -> 12 < len ->
  exists fold, fold_two_blocks swap128 data (len + 4) 0 n (k12 params) r = Ok fold /\
    (if len + 4 <=? 32 then finished fold len else holds fold (bytes_at 0 (32 - n))).
Proof.
  intros Hn Hl Hr Hshort Hlen. unfold fold_two_blocks. cbv zeta. rewrite (proj2 xmm_zero), Z.lxor_0_r, Hr.
  destruct (load_at 16 ltac:(lia) ltac:(lia)) as (r2 & -> & Hr2). cbn [mbind outcome_bind]. rewrite Hr2.
  destruct (shift_split 0 n ltac:(lia) ltac:(lia) ltac:(lia)) as [Ha1 Ha2].
  destruct (shift_split 16 n ltac:(lia) ltac:(lia) ltac:(lia)) as [Hb1 _].
  rewrite Hb1. cbn [mbind outcome_bind]. rewrite Ha2. cbn [mbind outcome_bind]. rewrite Ha1. cbn [mbind outcome_bind].
  pose proof (bytes_at_zlen 16 (16 - n) ltac:(lia) ltac:(lia) ltac:(lia)) as Hzb.
  pose proof (bytes_at_zlen 0 (16 - n) ltac:(lia) ltac:(lia) ltac:(lia)) as Hza.
  replace (8 * (16 - n)) with (8 * zlen (bytes_at 16 (16 - n))) by lia. rewrite be_lor.
  pose proof (bytes_at_app (0 + (16 - n)) n (16 - n) ltac:(lia) ltac:(lia) ltac:(lia)) as Happ.
  replace (0 + (16 - n) + n) with 16 in Happ by lia. rewrite Happ. replace (n + (16 - n)) with 16 by lia.
  set (off := 0 + (16 - n)). eexists. split; [reflexivity|].
  assert (0 <= be (bytes_at 0 (16 - n)) < 2 ^ 128) as Hrange by (apply be_range_16; lia).
  assert (prem poly 128 (be (bytes_at 0 (16 - n))) = rem_bytes poly (bytes_at 0 (16 - n))) as Hrem.
  { apply rem_be. unfold zlen in Hza. lia. }
  destruct (len + 4 <=? 32) eqn:E; zify_bool.
  - specialize (Hshort E). pose proof (bytes_at_app off 12 4 ltac:(lia) ltac:(lia) ltac:(lia)) as Hsp.
    change (12 + 4) with 16 in Hsp. rewrite <- Hsp, be_clear by (rewrite bytes_at_zlen; lia).
    split.
    + apply round_range, be_at_shifted; lia.
    + rewrite (round_last poly params Hround (bytes_at 0 (16 - n))); [|rewrite bytes_at_len; lia|done|done].
      unfold off. rewrite bytes_at_app by lia. do 3 f_equal. lia.
  - split; [apply round_range, be_range_16; rewrite bytes_at_zlen; lia|].
    rewrite (round_block poly params Hround (bytes_at 0 (16 - n))); [|rewrite bytes_at_len; lia|done|done].
    unfold off. rewrite bytes_at_app by lia. do 2 f_equal. lia.
Qed.

Lemma loop_ok fuel len n fold : len <= zlen data -> 0 <= n <= len - 12 -> (len - 12 - n) mod 16 = 0 ->
  (Z.to_nat (len - 12 - n) < fuel)%nat -> holds fold (bytes_at 0 n) ->
  exists fold', folding_loop fuel data swap128 (k12 params) (len + 4) n fold = Ok (len - 12, fold') /\
    holds fold' (bytes_at 0 (len - 12)).
Proof.
  revert n fold. induction fuel as [|fuel IH]; intros n fold Hlen Hn Hmod Hfuel Hh; [lia|]. cbn [folding_loop].
  replace (len + 4 - 16) with (len - 12) by lia.
  destruct (n <? len - 12) eqn:E; zify_bool.
  - assert (n + 16 <= len - 12) as Hn16.
    { pose proof (Z.div_mod (len - 12 - n) 16 ltac:(lia)). lia. }
    destruct (load_at n ltac:(lia) ltac:(lia)) as (r & -> & Hr). cbn [mbind outcome_bind]. rewrite Hr.
    destruct Hh as [Hf Hrem]. apply IH; [done|lia| |lia|].
    + replace (len - 12 - (n + 16)) with (len - 12 - n + (-1) * 16) by lia. by rewrite Z.mod_add by lia.
    + split; [apply round_range, be_range_16; rewrite bytes_at_zlen; lia|].
      rewrite (round_block poly params Hround (bytes_at 0 n)); [|rewrite bytes_at_len; lia|done|done].
      by rewrite bytes_at_more by lia.
  - assert (n = len - 12) as -> by lia. exists fold. split; [reflexivity|exact Hh].
Qed.

Lemma other_blocks_ok len n fold : len <= zlen data -> 28 < len -> 0 <= n < 16 -> (len + 4 + n) mod 16 = 0 ->
  holds fold (bytes_at 0 (32 - n)) ->
  exists fold', fold_other_blocks swap128 data (len + 4) n (k12 params) fold = Ok fold' /\ finished fold' len.
Proof.
  intros Hl Hlen Hn Hmod Hh. unfold fold_other_blocks.
  assert ((len - 12 - (32 - n)) mod 16 = 0) as Hmod'.
  { replace (len - 12 - (32 - n)) with (len + 4 + n + (-3) * 16) by lia. by rewrite Z.mod_add by lia. }
  assert (32 - n <= len - 12) as Hle.
  { pose proof (Z.div_mod (len + 4 + n) 16 ltac:(lia)). lia. }
  destruct (loop_ok (Z.to_nat (len + 4)) len (32 - n) fold Hl ltac:(lia) Hmod' ltac:(lia) Hh) as (f & Hloop & Hf & Hrem).
  change (16 + 16 - n) with (32 - n). rewrite Hloop. cbn [mbind outcome_bind].
  destruct (load_at (len - 12 - 4) ltac:(lia) ltac:(lia)) as (r & -> & Hr). cbn [mbind outcome_bind]. rewrite Hr.
  pose proof (bytes_at_app (len - 12 - 4) 4 12 ltac:(lia) ltac:(lia) ltac:(lia)) as Hsp. change (4 + 12) with 16 in Hsp.
  replace (len - 12 - 4 + 4) with (len - 12) in Hsp by lia.
  pose proof (bytes_at_zlen (len - 12 - 4) 4 ltac:(lia) ltac:(lia) ltac:(lia)) as H4.
  pose proof (bytes_at_zlen (len - 12) 12 ltac:(lia) ltac:(lia) ltac:(lia)) as H12.
  assert (simde_mm_slli_si128 (be (bytes_at (len - 12 - 4) 16)) 4 = Z.shiftl (be (bytes_at (len - 12) 12)) 32) as ->.
  { pose proof (be_low (bytes_at (len - 12 - 4) 4) (bytes_at (len - 12) 12) ltac:(lia)) as El.
    by rewrite H4, Hsp in El. }
  eexists. split; [reflexivity|]. split.
  - apply round_range, be_at_shifted; lia.
  - rewrite (round_last poly params Hround (bytes_at 0 (len - 12))); [|rewrite bytes_at_len; lia|done|done].
    rewrite bytes_at_more by lia. do 3 f_equal. lia.
Qed.

(** ** The whole *)

(** The bytes behind the data that the first loads read as well. *)
Definition loads (len : Z) : Z := if len =? 0 then 0 else if len <=? 12 then 16 else Z.max 32 len.

Lemma calc_ok len : 0 <= len < 2 ^ 31 -> len <= zlen data -> loads len <= zlen data ->
  crc32_calc_pclmulqdq swap128 data len 0 params = Ok (crc_of_bits poly (bits_of (bytes_at 0 len))).
Proof.
  intros Hlen Hl Hloads. unfold crc32_calc_pclmulqdq, loads in *.
  destruct (len =? 0) eqn:E0; zify_bool; [by subst|]. cbv zeta.
  assert (16 <= zlen data) as H16 by (destruct (len <=? 12); lia).
  destruct (load_at 0 ltac:(lia) ltac:(lia)) as (r & -> & Hr). cbn [mbind outcome_bind].
  assert (forall fold, finished fold len -> crc32_reduce params fold = crc_of_bits poly (bits_of (bytes_at 0 len))) as Hfin.
  { intros fold [Hf Hrem]. by rewrite (reduce_rem poly params Hreduce), Hrem, crc_of_bits_rem. }
  destruct (len + 4 <=? 16) eqn:E16; zify_bool.
  - destruct (one_block_ok len r ltac:(lia) H16 Hr) as (fold & -> & Hf). cbn [mbind outcome_bind].
    by rewrite (Hfin fold Hf).
  - destruct (len <=? 12) eqn:E12; zify_bool; [lia|].
    set (n := Z.land (u32 (- (len + 4))) 15).
    assert (n = (- (len + 4)) mod 16) as Hn.
    { unfold n. change 15 with (Z.ones 4). rewrite Z.land_ones by lia. unfold u32.
      change (2 ^ 32) with (16 * 2 ^ 28). change (2 ^ 4) with 16. rewrite Z.rem_mul_r by lia.
      rewrite Z.mul_comm, Z.mod_add by lia. apply Z.mod_mod. lia. }
    pose proof (Z.mod_pos_bound (- (len + 4)) 16 ltac:(lia)) as Hnr. rewrite <- Hn in Hnr.
    pose proof (Z.div_mod (- (len + 4)) 16 ltac:(lia)) as Hdm. rewrite <- Hn in Hdm.
    change (pair128 (k1 params) (k2 params)) with (k12 params).
    destruct (two_blocks_ok len n r Hnr ltac:(lia) Hr ltac:(lia) ltac:(lia)) as (fold & -> & Hf). cbn [mbind outcome_bind].
    destruct (len + 4 >? 32) eqn:E32; zify_bool.
    + rewrite (proj2 (Z.leb_gt _ _)) in Hf by lia.
      destruct (other_blocks_ok len n fold Hl ltac:(lia) Hnr) as (fold' & -> & Hf'); [|done|].
      * replace (len + 4 + n) with (0 + (- ((- (len + 4)) / 16)) * 16) by lia. by rewrite Z.mod_add by lia.
      * cbn [mbind outcome_bind]. by rewrite (Hfin fold' Hf').
    + rewrite (proj2 (Z.leb_le _ _)) in Hf by lia. cbn [mbind outcome_bind]. by rewrite (Hfin fold Hf).
Qed.

End Intel.
