(* ===== verification/CrcCheck.v ===== *)
(** * Properties of the CRCs (PHY/CODING/crc_byte.c, crc.h) *)

From S2P Require Import Prelude Crc CrcBits CrcTables CrcClmul CrcIntel.

(** ** The eight CRCs *)

(** What may be read when whole bytes are folded 16 at a time. *)
Definition readable (use_intel : bool) (l : list Z) (n : Z) : Prop :=
  use_intel = true -> n mod 8 = 0 -> loads (n / 8) <= zlen l.

Lemma aligned_check w poly : forallb (fun m => negb (Z.testbit poly (Z.of_nat m))) (seq 0 (Z.to_nat w)) = true ->
  0 <= poly < 2 ^ 32 -> aligned w poly.
Proof.
  intros Hb Hp. split; [done|]. intros m Hm. rewrite forallb_forall in Hb.
  specialize (Hb (Z.to_nat m) ltac:(apply in_seq; lia)). rewrite Z2Nat.id in Hb by lia. by apply negb_true_iff.
Qed.

Ltac aligned_poly := apply aligned_check; [vm_compute; reflexivity|vm_compute; split; [discriminate|reflexivity]].

Lemma round_24a : agree 128 (fun fold => prem poly24a 128 (crc32_folding_round 0 (k12 lte_crc24a_pclmulqdq) fold))
    (fun fold => steps poly24a 128 (prem poly24a 128 fold)) = true.
Proof. vm_compute. reflexivity. Qed.
Lemma reduce_24a : agree 128 (crc32_reduce lte_crc24a_pclmulqdq) (prem poly24a 128) = true.
Proof. vm_compute. reflexivity. Qed.
Lemma round_24b : agree 128 (fun fold => prem poly24b 128 (crc32_folding_round 0 (k12 lte_crc24b_pclmulqdq) fold))
    (fun fold => steps poly24b 128 (prem poly24b 128 fold)) = true.
Proof. vm_compute. reflexivity. Qed.
Lemma reduce_24b : agree 128 (crc32_reduce lte_crc24b_pclmulqdq) (prem poly24b 128) = true.
Proof. vm_compute. reflexivity. Qed.

Section Correct.
Context (use_intel : bool) (l : list Z) (n : Z).
Hypothesis Hl : bytes_ok l.
Hypothesis Hn : 0 <= n <= 8 * zlen l.
Hypothesis Hn31 : n < 2 ^ 31.
Hypothesis Hread : readable use_intel l n.

(** Whole bytes by folding. *)
Lemma intel_ok poly params :
  agree 128 (fun fold => prem poly 128 (crc32_folding_round 0 (k12 params) fold))
    (fun fold => steps poly 128 (prem poly 128 fold)) = true ->
  agree 128 (crc32_reduce params) (prem poly 128) = true -> use_intel = true -> n mod 8 = 0 ->
  crc32_calc_pclmulqdq swap128 l (u32 (n ÷ 8)) 0 params = Ok (crc_of_bits poly (take (Z.to_nat n) (bits_of l))).
Proof.
  intros H1 H2 Hui Hmod. pose proof (Z.div_mod n 8 ltac:(lia)) as Hdm.
  rewrite Z.quot_div_nonneg, u32_small by lia.
  rewrite (calc_ok poly params H1 H2 l Hl) by (first [exact (Hread Hui Hmod)|lia]).
  do 2 f_equal. unfold bytes_at. rewrite drop_0, <- take_bits_whole. f_equal. lia.
Qed.

Lemma crc24a_ok : crc24a use_intel crcTableInit l n = Ok (crc_of_bits poly24a (take (Z.to_nat n) (bits_of l))).
Proof.
  unfold crc24a. rewrite Z.rem_mod_nonneg by lia.
  destruct (negb (n mod 8 =? 0) || negb use_intel) eqn:E.
  - apply (crc_table_driven_ok poly24a 8); [lia|aligned_poly|lia|done|done].
  - apply orb_false_iff in E as [E1 E2]. apply negb_false_iff, Z.eqb_eq in E1. apply negb_false_iff in E2.
    exact (intel_ok poly24a lte_crc24a_pclmulqdq round_24a reduce_24a E2 E1).
Qed.

Lemma crc24b_ok : crc24b use_intel crcTableInit l n = Ok (crc_of_bits poly24b (take (Z.to_nat n) (bits_of l))).
Proof.
  unfold crc24b. rewrite Z.rem_mod_nonneg by lia.
  destruct (negb (n mod 8 =? 0) || negb use_intel) eqn:E.
  - apply (crc_table_driven_ok poly24b 8); [lia|aligned_poly|lia|done|done].
  - apply orb_false_iff in E as [E1 E2]. apply negb_false_iff, Z.eqb_eq in E1. apply negb_false_iff in E2.
    exact (intel_ok poly24b lte_crc24b_pclmulqdq round_24b reduce_24b E2 E1).
Qed.

Lemma crc16_ok : crc16 crcTableInit l n = Ok (crc_of_bits poly16 (take (Z.to_nat n) (bits_of l))).
Proof. apply (crc_table_driven_ok poly16 16); [lia|aligned_poly|lia|done|done]. Qed.
Lemma crc8_ok : crc8 crcTableInit l n = Ok (crc_of_bits poly8 (take (Z.to_nat n) (bits_of l))).
Proof. apply (crc_short_ok poly8 24); [lia|aligned_poly|lia|done|done|done]. Qed.
Lemma crc_others_ok :
  crc24c crcTableInit l n = Ok (crc_of_bits poly24c (take (Z.to_nat n) (bits_of l))) /\
  crc12 crcTableInit l n = Ok (crc_of_bits poly12 (take (Z.to_nat n) (bits_of l))) /\
  crc11 crcTableInit l n = Ok (crc_of_bits poly11 (take (Z.to_nat n) (bits_of l))) /\
  crc6 crcTableInit l n = Ok (crc_of_bits poly6 (take (Z.to_nat n) (bits_of l))).
Proof.
  split_and!.
  - apply (crc_table_driven_ok poly24c 8); [lia|aligned_poly|lia|done|done].
  - apply (crc_table_driven_ok poly12 20); [lia|aligned_poly|lia|done|done].
  - apply (crc_table_driven_ok poly11 21); [lia|aligned_poly|lia|done|done].
  - apply (crc_short_ok poly6 24); [lia|aligned_poly|lia|done|done|done].
Qed.
End Correct.

(** ** Detection *)

Section Detection.
Context (poly w : Z).
Hypothesis Hw : 0 <= w <= 24.
Hypothesis Hpoly : aligned w poly.
Hypothesis Hlow : Z.testbit poly w = true.

Lemma step_zero x : aligned w x -> step poly x = 0 -> x = 0.
Proof.
  intros [Hx Hxl] H. unfold step in H. apply Z.lxor_eq in H.
  destruct (Z.testbit x 31) eqn:E.
  - apply (f_equal (fun v => Z.testbit v w)) in H. rewrite Hlow, u32_land, testbit_land_ones, Z.shiftl_spec in H by lia.
    destruct (Z.eq_dec w 0) as [Hw0|Hw0]; [rewrite Z.testbit_neg_r in H by lia|rewrite Hxl in H by lia];
      by rewrite andb_false_r in H.
  - pose proof (proj1 (range_bits 32 x ltac:(lia)) Hx) as [_ Hhigh]. apply Z.bits_inj'. intros m Hm. rewrite Z.bits_0.
    destruct (Z.lt_ge_cases m 31) as [Hlt|Hge].
    + apply (f_equal (fun v => Z.testbit v (m + 1))) in H.
      rewrite u32_land, testbit_land_ones, Z.shiftl_spec, Z.bits_0 in H by lia.
      replace (m + 1 - 1) with m in H by lia. destruct (Z.ltb_spec (m + 1) 32); [exact H|lia].
    + destruct (Z.eq_dec m 31) as [->|Hne]; [done|]. apply Hhigh. lia.
Qed.

Lemma steps_zero n x : aligned w x -> steps poly n x = 0 -> x = 0.
Proof.
  intros Hx. induction n as [|n IH]; [done|]. intros H. apply IH, step_zero; [|exact H]. by apply aligned_steps.
Qed.

Lemma num_inj l1 l2 : length l1 = length l2 -> num_of_bits l1 = num_of_bits l2 -> l1 = l2.
Proof.
  revert l2. induction l1 as [|b1 l1 IH]; intros [|b2 l2] Hl Hn; try done. injection Hl as Hl.
  cbn [num_of_bits] in Hn. assert (zlen l2 = zlen l1) as Hz by (unfold zlen; lia). rewrite Hz in Hn.
  assert (forall (b : bool) l, zlen l = zlen l1 -> Z.testbit (Z.lxor (if b then 2 ^ zlen l1 else 0) (num_of_bits l)) (zlen l1) = b) as Htop.
  { intros b l Hzl. pose proof (num_of_bits_range l) as Hr. apply range_bits in Hr as [_ Hr]; [|apply zlen_nonneg].
    rewrite Z.lxor_spec, Hr, xorb_false_r by lia. destruct b; [|apply Z.bits_0]. apply Z.pow2_bits_true, zlen_nonneg. }
  assert (b1 = b2) as <-.
  { rewrite <- (Htop b1 l1 eq_refl), <- (Htop b2 l2 Hz). by rewrite Hn. }
  f_equal. apply IH; [done|]. apply (f_equal (Z.lxor (if b1 then 2 ^ zlen l1 else 0))) in Hn.
  by rewrite <- !Z.lxor_assoc, Z.lxor_nilpotent, !Z.lxor_0_l in Hn.
Qed.

Lemma crc_from_diff bits s s' : Z.lxor (crc_from poly s bits) (crc_from poly s' bits) = steps poly (length bits) (Z.lxor s s').
Proof. rewrite !crc_rem, steps_linear. lxor_solve. Qed.

(** Sequences that differ in a window of at most [32 - w] bits. *)
Lemma burst_detected a x y b : length x = length y -> zlen x <= 32 - w -> x <> y ->
  crc_of_bits poly (a ++ x ++ b) = 0 -> crc_of_bits poly (a ++ y ++ b) <> 0.
Proof.
  intros Hxy Hk Hne Hx Hy. unfold crc_of_bits in Hx, Hy. rewrite !crc_from_app in Hx, Hy.
  pose proof (crc_from_diff b (crc_from poly (crc_from poly 0 a) x) (crc_from poly (crc_from poly 0 a) y)) as Hd.
  rewrite Hx, Hy, Z.lxor_0_l in Hd. symmetry in Hd.
  assert (zlen y = zlen x) as Hz by (unfold zlen; lia).
  set (s := crc_from poly 0 a) in *.
  assert (Z.lxor (crc_from poly s x) (crc_from poly s y)
          = steps poly (length x) (Z.shiftl (Z.lxor (num_of_bits x) (num_of_bits y)) (32 - zlen x))) as Hdiff.
  { rewrite !crc_from_short by lia. rewrite <- Hxy, Hz, !steps_linear, Z.shiftl_lxor, steps_linear. lxor_solve. }
  rewrite Hdiff, <- steps_add in Hd.
  assert (0 <= Z.lxor (num_of_bits x) (num_of_bits y) < 2 ^ zlen x) as Hr.
  { apply lxor_range; [apply zlen_nonneg|apply num_of_bits_range|]. rewrite <- Hz. apply num_of_bits_range. }
  pose proof (zlen_nonneg x). apply steps_zero in Hd.
  - apply Z.shiftl_eq_0_iff in Hd; [|lia]. apply Z.lxor_eq in Hd. by apply Hne, num_inj.
  - apply aligned_shiftl; [lia| |lia]. replace (32 - (32 - zlen x)) with (zlen x) by lia. done.
Qed.

(** The register after the check bits is zero when they are the register. *)
Lemma codeword_iff bits last : zlen last = 32 - w ->
  crc_of_bits poly (bits ++ last) = 0 <-> Z.shiftr (crc_of_bits poly bits) w = num_of_bits last.
Proof.
  intros Hlen. unfold crc_of_bits. rewrite crc_from_app, crc_from_short by lia.
  set (s := crc_from poly 0 bits). replace (32 - zlen last) with w by lia.
  assert (aligned w s) as Hs by (apply aligned_crc_from; [done|done|]; split; [done|]; intros; apply Z.bits_0).
  pose proof (num_of_bits_range last) as Hr. rewrite Hlen in Hr.
  assert (aligned w (Z.shiftl (num_of_bits last) w)) as Ha by (apply aligned_shiftl; lia).
  split; intros H.
  - apply steps_zero in H; [|by apply aligned_lxor]. apply Z.lxor_eq in H. rewrite H.
    rewrite Z.shiftr_shiftl_l, Z.sub_diag, Z.shiftl_0_r by lia. done.
  - rewrite <- H, (aligned_shift_back w w s) by (done || lia). rewrite Z.lxor_nilpotent. apply linear_0, steps_linear.
Qed.
End Detection.

(** ** The check of a received block (check_crc of PHY/CODING/crc_byte.c)

    [check_crc] accepts a block exactly when its bits, the check bits
    included, leave the register at zero. *)

Definition poly_of (t : crc_type_t) : Z :=
  match t with CRC24_A => poly24a | CRC24_B => poly24b | CRC16 => poly16 | CRC8 => poly8 | CRC_OTHER _ => 0 end.
Definition crc_type_ok (t : crc_type_t) : Prop := match t with CRC_OTHER _ => False | _ => True end.
(** Bits of the register the CRC does not use. *)
Definition unused_bits (t : crc_type_t) : Z := 32 - 8 * crc_len_of t.

Lemma poly_facts t : crc_type_ok t ->
  0 <= unused_bits t <= 24 /\ aligned (unused_bits t) (poly_of t) /\ Z.testbit (poly_of t) (unused_bits t) = true.
Proof. destruct t; intros Ht; [| | | |done]; (split; [vm_compute; split; discriminate|split; [aligned_poly|reflexivity]]). Qed.

Lemma be_snoc l b : is_byte b -> be (l ++ [b]) = Z.lor b (Z.shiftl (be l) 8).
Proof.
  intros Hb. rewrite <- be_lor. f_equal. unfold be. rewrite bits_of_cons, app_nil_r.
  pose proof (num_of_byte b 8 Hb ltac:(lia)) as E. change (take 8 (bits_of_byte b)) with (bits_of_byte b) in E.
  rewrite E. by rewrite Z.shiftr_0_r.
Qed.

Ltac lor_solve :=
  apply Z.bits_inj'; intros ? ?; rewrite ?Z.lor_spec, ?Z.bits_0;
  repeat match goal with |- context [Z.testbit ?x ?n] => destruct (Z.testbit x n) end; reflexivity.

Lemma be_1 b : is_byte b -> be [b] = b.
Proof. intros Hb. exact (eq_trans (be_snoc [] b Hb) (Z.lor_0_r b)). Qed.
Lemma be_2 b0 b1 : is_byte b0 -> is_byte b1 -> be [b0; b1] = Z.lor b1 (Z.shiftl b0 8).
Proof. intros H0 H1. pose proof (be_snoc [b0] b1 H1) as E. by rewrite be_1 in E. Qed.
Lemma be_3 b0 b1 b2 : is_byte b0 -> is_byte b1 -> is_byte b2 ->
  be [b0; b1; b2] = Z.lor b2 (Z.shiftl (Z.lor b1 (Z.shiftl b0 8)) 8).
Proof. intros H0 H1 H2. pose proof (be_snoc [b0; b1] b2 H2) as E. by rewrite be_2 in E. Qed.

(** The bytes read and their number. *)
Ltac be_bytes :=
  rewrite ?be_3, ?be_2, ?be_1 by done; change (Z.to_nat 0) with 0%nat; change (Z.to_nat (0 + 1)) with 1%nat;
  change (Z.to_nat (0 + 1 + 1)) with 2%nat; cbn -[Z.lor Z.shiftl be]; f_equal;
  repeat match goal with
    |- context [Z.shiftl (?a - ?b) 3] => let v := eval vm_compute in (Z.shiftl (a - b) 3) in change (Z.shiftl (a - b) 3) with v
  end;
  rewrite ?Z.shiftl_lor, ?Z.shiftl_shiftl, ?Z.shiftl_0_r, ?Z.shiftl_0_l by lia; change (8 + 8) with 16; lor_solve.

(** The check bytes, read one by one. *)
Lemma oldcrc_ok l n len last : 0 <= len <= 3 -> 8 * len <= n -> n < 2 ^ 31 -> n mod 8 = 0 -> bytes_ok last ->
  drop (Z.to_nat (n / 8 - len)) (take (Z.to_nat (n / 8)) l) = last -> zlen last = len ->
  cfor (Z.to_nat len) 0
    (fun i oldcrc =>
       b ← of_option OutOfBounds (zget l (u32 (Z.shiftr n 3 - len + i)));
       Ok (Z.lor oldcrc (Z.shiftl b (Z.shiftl (len - 1 - i) 3)))) 0 = Ok (be last).
Proof.
  intros Hlen Hn Hn31 Hmod Hb Hlast Hz.
  assert (forall i, 0 <= i < len -> zget l (u32 (Z.shiftr n 3 - len + i)) = last !! Z.to_nat i) as Hget.
  { intros i Hi. rewrite Z.shiftr_div_pow2 by lia. change (2 ^ 3) with 8.
    pose proof (Z.div_mod n 8 ltac:(lia)). rewrite u32_small by lia. unfold zget.
    rewrite (proj2 (Z.leb_le _ _)) by lia. rewrite <- Hlast, lookup_drop, lookup_take_lt by lia. f_equal. lia. }
  assert (length last = Z.to_nat len) as Hlen' by (unfold zlen in Hz; lia). clear Hz.
  assert (len = 0 \/ len = 1 \/ len = 2 \/ len = 3) as Hcases by lia.
  destruct Hcases as [E|[E|[E|E]]]; subst len;
    (destruct last as [|b0 [|b1 [|b2 [|b3 last]]]]; try discriminate Hlen');
    repeat (apply Forall_cons in Hb as [? Hb]).
  - reflexivity.
  - change (Z.to_nat 1) with 1%nat. cbn [cfor]. rewrite Hget by lia. be_bytes.
  - change (Z.to_nat 2) with 2%nat. cbn [cfor]. rewrite (Hget 0), (Hget (0 + 1)) by lia.
    be_bytes.
  - change (Z.to_nat 3) with 3%nat. cbn [cfor]. rewrite (Hget 0), (Hget (0 + 1)), (Hget (0 + 1 + 1)) by lia.
    be_bytes.
Qed.

(** ** The check *)

Section Check.
Context (use_intel : bool) (t : crc_type_t) (n : Z).
Hypothesis Ht : crc_type_ok t.
Hypothesis Hn : 8 * crc_len_of t <= n.
Hypothesis Hn31 : n < 2 ^ 31.
Hypothesis Hmod : n mod 8 = 0.

Lemma len_cases : 1 <= crc_len_of t <= 3.
Proof. destruct t; cbn in *; lia || done. Qed.

(** The CRC the type selects, over the bits before the check bits. *)
Lemma check_unfold l old : bytes_ok l -> n <= 8 * zlen l -> readable use_intel l (n - 8 * crc_len_of t) ->
  0 <= be old < 2 ^ (8 * crc_len_of t) ->
  drop (Z.to_nat (n / 8 - crc_len_of t)) (take (Z.to_nat (n / 8)) l) = old -> zlen old = crc_len_of t ->
  check_crc use_intel crcTableInit l n t
  = Ok (if Z.shiftr (crc_of_bits (poly_of t) (take (Z.to_nat (n - 8 * crc_len_of t)) (bits_of l))) (unused_bits t)
           =? be old then 1 else 0).
Proof.
  intros Hl Hnl Hread Hbe Hold Hz. pose proof len_cases as Hlen. unfold check_crc. cbv zeta.
  rewrite (oldcrc_ok l n (crc_len_of t) old) by (try lia; try done; rewrite <- Hold; by apply Forall_drop, Forall_take).
  cbn [mbind outcome_bind].
  assert (i32 (u32 (n - 8 * crc_len_of t)) = n - 8 * crc_len_of t) as Hi.
  { rewrite u32_small by lia. unfold i32. by rewrite (proj2 (Z.ltb_lt _ _)) by lia. }
  destruct t; cbn [crc_len_of poly_of unused_bits Z.mul Pos.mul Z.sub Pos.sub_mask] in *; [| | | |done].
  - change (8 * 3) with 24 in *. rewrite Hi, (crc24a_ok use_intel l (n - 24) Hl) by (lia || done). cbn [mbind outcome_bind].
    change 0x00ffffff with (Z.ones 24). rewrite land_ones_small by (lia || done). done.
  - change (8 * 3) with 24 in *. rewrite Hi, (crc24b_ok use_intel l (n - 24) Hl) by (lia || done). cbn [mbind outcome_bind].
    change 0x00ffffff with (Z.ones 24). rewrite land_ones_small by (lia || done). done.
  - change (8 * 2) with 16 in *. rewrite Hi, (crc16_ok l (n - 16) Hl) by (lia || done). cbn [mbind outcome_bind].
    change 0x0000ffff with (Z.ones 16). rewrite land_ones_small by (lia || done). done.
  - change (8 * 1) with 8 in *. rewrite Hi, (crc8_ok l (n - 8) Hl) by (lia || done). cbn [mbind outcome_bind].
    change 0x000000ff with (Z.ones 8). rewrite land_ones_small by (lia || done). done.
Qed.

Lemma check_iff l : bytes_ok l -> n <= 8 * zlen l -> readable use_intel l (n - 8 * crc_len_of t) ->
  check_crc use_intel crcTableInit l n t
  = Ok (if crc_of_bits (poly_of t) (take (Z.to_nat n) (bits_of l)) =? 0 then 1 else 0).
Proof.
  intros Hl Hnl Hread. pose proof len_cases as Hlen. pose proof (Z.div_mod n 8 ltac:(lia)) as Hdm.
  set (payload := take (Z.to_nat (n / 8 - crc_len_of t)) l).
  set (old := drop (Z.to_nat (n / 8 - crc_len_of t)) (take (Z.to_nat (n / 8)) l)).
  assert (take (Z.to_nat (n / 8)) l = payload ++ old) as Hsplit.
  { unfold payload, old. rewrite <- (take_drop (Z.to_nat (n / 8 - crc_len_of t)) (take (Z.to_nat (n / 8)) l)) at 1.
    f_equal. rewrite take_take. f_equal. lia. }
  assert (zlen old = crc_len_of t) as Hz.
  { unfold old, zlen in *. rewrite length_drop, length_take. lia. }
  assert (0 <= be old < 2 ^ (8 * crc_len_of t)) as Hbe by (rewrite <- Hz; apply be_range).
  assert (take (Z.to_nat n) (bits_of l) = bits_of payload ++ bits_of old) as Hbits.
  { rewrite <- bits_of_app, <- Hsplit, <- take_bits_whole. f_equal. lia. }
  assert (take (Z.to_nat (n - 8 * crc_len_of t)) (bits_of l) = bits_of payload) as Hpay.
  { unfold payload. rewrite <- take_bits_whole. f_equal. lia. }
  destruct (poly_facts t Ht) as (Hw & Ha & Hlow).
  assert (zlen (bits_of old) = 32 - unused_bits t) as Hzb.
  { unfold unused_bits, zlen in *. rewrite bits_of_len. lia. }
  pose proof (codeword_iff (poly_of t) (unused_bits t) Hw Ha Hlow (bits_of payload) (bits_of old) Hzb) as Hiff.
  rewrite (check_unfold l old) by done. rewrite Hpay, Hbits. fold (be old) in Hiff. f_equal.
  destruct (Z.eqb_spec (Z.shiftr (crc_of_bits (poly_of t) (bits_of payload)) (unused_bits t)) (be old)) as [E|E],
    (Z.eqb_spec (crc_of_bits (poly_of t) (bits_of payload ++ bits_of old)) 0) as [E'|E']; tauto.
Qed.
End Check.
