(* ===== verification/CrcMain.v ===== *)
(** * What the CRCs promise (PHY/CODING/crc_byte.c, crc.h) *)

From S2P Require Import Prelude Crc CrcBits CrcTables CrcClmul CrcIntel CrcCheck.

(** The check bytes that are sent behind a payload: the CRC, first coefficient
    first. *)
Definition check_bytes (t : crc_type_t) (payload : list Z) : list Z :=
  (fun i => Z.land (Z.shiftr (crc_of_bits (poly_of t) (bits_of payload)) (24 - 8 * Z.of_nat i)) 255)
  <$> seq 0 (Z.to_nat (crc_len_of t)).

Lemma land_255_ok x : 0 <= x -> is_byte (Z.land x 255).
Proof. intros Hx. change 255 with (Z.ones 8). unfold is_byte. rewrite Z.land_ones by lia. apply Z.mod_pos_bound. lia. Qed.

Lemma check_bytes_ok t payload : bytes_ok (check_bytes t payload).
Proof. apply Forall_fmap, Forall_true. intros i. apply land_255_byte. Qed.

Lemma check_bytes_len t payload : zlen (check_bytes t payload) = crc_len_of t.
Proof. unfold check_bytes, zlen. rewrite length_fmap, length_seq. destruct t; done. Qed.

(** The check bytes as a number are the used part of the register. *)
Definition top_bytes (k : nat) (c : Z) : Z :=
  xmm_of_bytes ((fun i => Z.land (Z.shiftr c (24 - 8 * Z.of_nat i)) 255) <$> reverse (seq 0 k)).

Lemma top_bytes_linear k : Linear (top_bytes k).
Proof.
  intros a b. unfold top_bytes. rewrite <- xmm_of_bytes_lxor by (by rewrite !length_fmap). f_equal.
  induction (reverse (seq 0 k)) as [|i l IH]; [done|]. cbn [fmap list_fmap zip_with]. f_equal; [|exact IH]. linear_solve.
Qed.

Lemma check_bytes_value t payload : crc_type_ok t -> bytes_ok payload ->
  be (check_bytes t payload) = Z.shiftr (crc_of_bits (poly_of t) (bits_of payload)) (unused_bits t).
Proof.
  intros Ht Hp. rewrite <- xmm_reverse by apply check_bytes_ok.
  destruct (poly_facts t Ht) as (Hw & Ha & _).
  assert (aligned (unused_bits t) (crc_of_bits (poly_of t) (bits_of payload))) as [Hc _].
  { apply aligned_crc_from; [done|done|]. split; [done|]. intros; apply Z.bits_0. }
  unfold check_bytes. rewrite <- fmap_reverse.
  change (xmm_of_bytes _)
    with (top_bytes (Z.to_nat (crc_len_of t)) (crc_of_bits (poly_of t) (bits_of payload))).
  assert (agree 32 (top_bytes (Z.to_nat (crc_len_of t))) (fun c => Z.shiftr c (unused_bits t)) = true) as Hag
    by (destruct t; try done; vm_compute; reflexivity).
  exact (linear_eq _ _ 32 _ (top_bytes_linear _) (shiftr_linear _) Hag Hc).
Qed.

(** C32: every CRC of the code, computed with its table of 256 entries, or by
    folding 16 bytes at a time with carry-less multiplications where the build
    has them, is the CRC by the shift register with its polynomial of the first
    [n] bits, for any number of bits, also one that is not a multiple of 8. *)
Theorem crc_matches_register (use_intel : bool) (l : list Z) (n : Z) :
  bytes_ok l -> 0 <= n <= 8 * zlen l -> n < 2 ^ 31 -> readable use_intel l n ->
  let crc poly := crc_of_bits poly (take (Z.to_nat n) (bits_of l)) in
  crc24a use_intel crcTableInit l n = Ok (crc poly24a) /\
  crc24b use_intel crcTableInit l n = Ok (crc poly24b) /\
  crc24c crcTableInit l n = Ok (crc poly24c) /\
  crc16 crcTableInit l n = Ok (crc poly16) /\
  crc12 crcTableInit l n = Ok (crc poly12) /\
  crc11 crcTableInit l n = Ok (crc poly11) /\
  crc8 crcTableInit l n = Ok (crc poly8) /\
  crc6 crcTableInit l n = Ok (crc poly6) /\
  (n mod 8 = 0 -> forall poly, crcbit l (n / 8) poly = Ok (crc poly)).
Proof.
  intros Hl Hn Hn31 Hread crc. destruct (crc_others_ok l n Hl Hn) as (H1 & H2 & H3 & H4).
  split_and!; try done; [by apply crc24a_ok|by apply crc24b_ok|by apply crc16_ok|by apply crc8_ok|].
  intros Hmod poly. pose proof (Z.div_mod n 8 ltac:(lia)) as Hdm.
  unfold crcbit. rewrite Z.max_r, zslice_ok by lia. cbn [of_option mbind outcome_bind].
  change (Z.to_nat 0) with O. rewrite drop_0, crcbit_octets_feed by (by apply Forall_take).
  unfold crc, crc_of_bits. rewrite <- take_bits_whole. do 3 f_equal. lia.
Qed.

Lemma crc_matches_register_witness :
  let l := Z.of_nat <$> seq 1 40 in
  crc24a true crcTableInit l 320 = Ok (crc_of_bits poly24a (take (Z.to_nat 320) (bits_of l))).
Proof.
  intros l. refine (proj1 (crc_matches_register true l 320 _ _ _ _)).
  - apply Forall_fmap, Forall_forall. intros x Hx. apply elem_of_seq in Hx. cbn. unfold is_byte. lia.
  - split; [lia|]. vm_compute. discriminate.
  - vm_compute. reflexivity.
  - intros _ _. vm_compute. discriminate.
Defined.

Lemma take_bits_app l1 l2 n : n = 8 * zlen l1 -> take (Z.to_nat n) (bits_of (l1 ++ l2)) = bits_of l1.
Proof. intros ->. rewrite bits_of_app. apply take_app_length'. rewrite bits_of_len. unfold zlen. lia. Qed.

Lemma zlen_bits l : zlen (bits_of l) = 8 * zlen l.
Proof. unfold zlen. rewrite bits_of_len. lia. Qed.

(** A payload followed by its check bytes is accepted. *)
Lemma check_accepts use_intel t payload rest n : crc_type_ok t -> n = 8 * (zlen payload + crc_len_of t) -> n < 2 ^ 31 ->
  bytes_ok payload -> bytes_ok rest ->
  readable use_intel (payload ++ check_bytes t payload ++ rest) (n - 8 * crc_len_of t) ->
  check_crc use_intel crcTableInit (payload ++ check_bytes t payload ++ rest) n t = Ok 1.
Proof.
  intros Ht En Hn31 Hp Hrest Hread. destruct (poly_facts t Ht) as (Hw & Ha & Hlow).
  pose proof (zlen_nonneg payload). pose proof (zlen_nonneg rest). pose proof (check_bytes_len t payload) as Hcl.
  rewrite check_iff; try done; try lia.
  - rewrite app_assoc, take_bits_app, bits_of_app by (rewrite zlen_app; lia).
    assert (zlen (bits_of (check_bytes t payload)) = 32 - unused_bits t) as Hlen.
    { rewrite zlen_bits, Hcl. unfold unused_bits. lia. }
    rewrite (proj2 (codeword_iff _ _ Hw Ha Hlow (bits_of payload) _ Hlen)); [done|].
    symmetry. by apply check_bytes_value.
  - rewrite En, Z.mul_comm. apply Z.mod_mul. lia.
  - apply Forall_app. split; [done|]. apply Forall_app. split; [apply check_bytes_ok|done].
  - rewrite !zlen_app. lia.
Qed.

(** C33: [check_crc] accepts a payload followed by its check bytes; it rejects
    every block that differs from an accepted one only within a window of no
    more bits than the CRC has, wherever the window lies, the check bits
    included.  A block of any other type is accepted unread. *)
Theorem check_crc_exact (use_intel : bool) (t : crc_type_t) (l : list Z) (n : Z) :
  crc_type_ok t -> 8 * crc_len_of t <= n -> n < 2 ^ 31 -> n mod 8 = 0 ->
  bytes_ok l -> n <= 8 * zlen l -> readable use_intel l (n - 8 * crc_len_of t) ->
  (forall payload rest, l = payload ++ check_bytes t payload ++ rest -> n = 8 * (zlen payload + crc_len_of t) ->
    check_crc use_intel crcTableInit l n t = Ok 1) /\
  (forall l' a x y b, check_crc use_intel crcTableInit l n t = Ok 1 ->
    bytes_ok l' -> bits_of l = a ++ x ++ b -> bits_of l' = a ++ y ++ b -> length x = length y ->
    x <> y -> zlen x <= 8 * crc_len_of t -> zlen a + zlen x <= n ->
    check_crc use_intel crcTableInit l' n t = Ok 0) /\
  (forall k, check_crc use_intel crcTableInit l n (CRC_OTHER k) = Ok 1).
Proof.
  intros Ht Hn Hn31 Hmod Hl Hnl Hread. destruct (poly_facts t Ht) as (Hw & Ha & Hlow).
  split; [|split; [|reflexivity]].
  - intros payload rest El En. subst l. apply Forall_app in Hl as [Hp Hr]. apply Forall_app in Hr as [_ Hr].
    by apply check_accepts.
  - intros l' a x y b Hok Hl' Ex Ey Hxy Hne Hx Hax.
    assert (zlen l' = zlen l) as Hz.
    { pose proof (zlen_bits l) as B1. pose proof (zlen_bits l') as B2. rewrite Ex, !zlen_app in B1. rewrite Ey, !zlen_app in B2.
      assert (zlen y = zlen x) by (unfold zlen; lia). lia. }
    rewrite check_iff in Hok by done. rewrite check_iff by (try done; try lia; by unfold readable in *; rewrite Hz).
    assert (forall z, length z = length x -> take (Z.to_nat n) (a ++ z ++ b) = a ++ z ++ take (Z.to_nat n - length a - length x) b) as Htake.
    { intros z Hlz. unfold zlen in *. rewrite take_app_ge by lia. f_equal. rewrite take_app_ge by lia. f_equal. f_equal. lia. }
    rewrite Ex, (Htake x) in Hok by done. rewrite Ey, (Htake y) by done.
    destruct (Z.eqb_spec (crc_of_bits (poly_of t) (a ++ x ++ take (Z.to_nat n - length a - length x) b)) 0) as [E|E]; [|done].
    pose proof (burst_detected _ _ Hw Ha Hlow a x y _ Hxy ltac:(unfold unused_bits; lia) Hne E) as Hd.
    by rewrite (proj2 (Z.eqb_neq _ _) Hd).
Qed.

Lemma check_crc_exact_witness :
  let l := [72; 101; 108; 108; 111] ++ check_bytes CRC24_A [72; 101; 108; 108; 111] ++ repeat 0 24 in
  check_crc true crcTableInit l 64 CRC24_A = Ok 1.
Proof.
  intros l. refine (proj1 (check_crc_exact true CRC24_A l 64 I _ _ _ _ _ _) [72; 101; 108; 108; 111] (repeat 0 24) eq_refl eq_refl).
  - vm_compute. discriminate.
  - vm_compute. reflexivity.
  - vm_compute. reflexivity.
  - unfold l. repeat (apply Forall_app; split); [|apply check_bytes_ok|]; repeat constructor; vm_compute; done.
  - vm_compute. discriminate.
  - intros _ _. vm_compute. discriminate.
Defined.

(** The folding reads 16 or 32 bytes whatever the length of the data: behind the
    end of a short block. *)
Example crc_reads_behind : crc24a true crcTableInit [1; 2; 3] 24 = Fault OutOfBounds.
Proof. vm_compute. reflexivity. Qed.
Example crc_reads_behind_30 : crc24b true crcTableInit (repeat 7 30) 240 = Fault OutOfBounds.
Proof. vm_compute. reflexivity. Qed.
