(* ===== verification/NrSegmentation.v ===== *)
(** * Transport blocks and code blocks
      (PHY/CODING/nr_segmentation.c, PHY/NR_TRANSPORT/nr_dlsch_coding.c,
      nr_ulsch_decoding.c, SCHED_NR/phy_procedures_nr_gNB.c)

    The check bytes of a transport block, its division into code blocks with
    their own check bytes and filler, and at the other end the collection of the
    decoded code blocks, in the order the decoder threads finish. *)

From S2P Require Import Prelude Crc.

(** ** nr_segmentation.c *)

(** What the caller's pointers are given, but for the buffers. *)
Record seg_sizes := mk_seg_sizes { seg_C : Z; seg_K : Z; seg_Zout : Z; seg_F : Z; seg_Kb : Z; seg_Kprime : Z; seg_L : Z }.

Definition seg_Kcb (BG : Z) : Z := if BG =? 1 then 8448 else 3840.

(** Number of blocks, CRC bits per block, and bits of all blocks. *)
Definition seg_blocks (B BG : Z) : Z * Z * Z :=
  let Kcb := seg_Kcb BG in
  if B <=? Kcb then (1, 0, B)
  else
    let L := 24 in
    let C := B / (Kcb - L) in
    let C := if u32 ((Kcb - L) * C) <? B then u32 (C + 1) else C in
    (C, L, u32 (B + u32 (C * L))).

Definition seg_columns (B BG : Z) : Z :=
  if BG =? 1 then 22
  else if B >? 640 then 10 else if B >? 560 then 9 else if B >? 192 then 8 else 6.

(** The size [Z] rounded to the next that exists; [None] for [return -1]. *)
Definition seg_round (z : Z) : option Z :=
  let up sh := let k := Z.shiftl (Z.shiftr z sh) sh in if k <? z then k + Z.shiftl 1 sh else k in
  if z <=? 2 then Some 2
  else if z <=? 16 then Some z
  else if z <=? 32 then Some (up 1)
  else if z <=? 64 then Some (up 2)
  else if z <=? 128 then Some (up 3)
  else if z <=? 256 then Some (up 4)
  else if z <=? 384 then Some (up 5)
  else None.

Definition nr_segmentation_sizes (B BG : Z) : option seg_sizes :=
  let '(C, L, Bprime) := seg_blocks B BG in
  let Kprime := Bprime / C in
  let Kb := seg_columns B BG in
  let z := if Kprime mod Kb >? 0 then Kprime / Kb + 1 else Kprime / Kb in
  match seg_round z with
  | None => None
  | Some zout =>
      let K := if BG =? 1 then u32 (zout * 22) else u32 (zout * 10) in
      Some (mk_seg_sizes C K zout (u32 (K - Kprime)) Kb Kprime L)
  end.

(** Block [r], from byte [s] of the input: the data, the CRC, the filler. *)
Definition seg_block (use_intel : bool) (t : crc_tables) (z : seg_sizes) (input : list Z) (s : Z) (out : list Z)
    : outcome (Z * list Z) :=
  let k := Z.shiftr (u32 (seg_Kprime z - seg_L z)) 3 in
  data ← of_option OutOfBounds (zslice input s k);
  out ← of_option OutOfBounds (zblit out 0 data);
  out ←
    (if seg_C z >? 1 then
       crc ← crc24b use_intel t out (i32 (u32 (seg_Kprime z - seg_L z)));
       let crc := Z.shiftr crc 8 in
       out ← of_option OutOfBounds (zset out k (Z.land (Z.shiftr crc 16) 255));
       out ← of_option OutOfBounds (zset out (u32 (1 + k)) (Z.land (Z.shiftr crc 8) 255));
       of_option OutOfBounds (zset out (u32 (2 + k)) (Z.land crc 255))
     else Ok out);
  out ←
    (if seg_F z >? 0 then
       let k := Z.shiftr (seg_Kprime z) 3 in
       of_option OutOfBounds (zblit out k (replicate (Z.to_nat (Z.shiftr (seg_K z) 3 - k)) 0))
     else Ok out);
  Ok (u32 (s + k), out).

(** The loop over the blocks; [outs] are the buffers from the next one on. *)
Fixpoint seg_loop (n : nat) (use_intel : bool) (t : crc_tables) (z : seg_sizes) (input : list Z) (s : Z)
    (outs : list (list Z)) : outcome (list (list Z)) :=
  match n with
  | O => Ok outs
  | S n =>
      match outs with
      | [] => Fault OutOfBounds
      | out :: outs =>
          '(s, out) ← seg_block use_intel t z input s out;
          outs ← seg_loop n use_intel t z input s outs;
          Ok (out :: outs)
      end
  end.

(** The result, the sizes, and the buffers; either of the two may be NULL. *)
Definition nr_segmentation (use_intel : bool) (t : crc_tables) (input_buffer : option (list Z))
    (output_buffers : option (list (list Z))) (B BG : Z) : outcome (Z * option seg_sizes * option (list (list Z))) :=
  match nr_segmentation_sizes B BG with
  | None => Ok (-1, None, output_buffers)
  | Some z =>
      match input_buffer, output_buffers with
      | Some input, Some outs =>
          outs ← seg_loop (Z.to_nat (seg_C z)) use_intel t z input 0 outs;
          Ok (seg_Kb z, Some z, Some outs)
      | _, _ => Ok (seg_Kb z, Some z, output_buffers)
      end
  end.

(** ** The check bytes of a transport block *)

Definition NR_MAX_PDSCH_TBS : Z := 3824.

Definition lenWithCrc (nbSeg len : Z) : Z :=
  if nbSeg >? 1 then Z.quot (len + 24 + 24 * nbSeg) nbSeg
  else len + (if len >? NR_MAX_PDSCH_TBS then 24 else 16).
Definition crcType (nbSeg len : Z) : crc_type_t :=
  if nbSeg >? 1 then CRC24_B else if len >? NR_MAX_PDSCH_TBS then CRC24_A else CRC16.

(** nr_dlsch_encoding: [a] is the PDU of [A] bits with room for the check bytes;
    what is copied to [harq->b] has one byte more. *)
Definition tb_attach_crc (use_intel : bool) (t : crc_tables) (a : list Z) (A : Z) : outcome (list Z * list Z * Z) :=
  if A >? NR_MAX_PDSCH_TBS then
    crc ← crc24a use_intel t a (i32 A);
    let crc := Z.shiftr crc 8 in
    a ← of_option OutOfBounds (zset a (Z.shiftr A 3) (Z.land (Z.shiftr crc 16) 255));
    a ← of_option OutOfBounds (zset a (u32 (1 + Z.shiftr A 3)) (Z.land (Z.shiftr crc 8) 255));
    a ← of_option OutOfBounds (zset a (u32 (2 + Z.shiftr A 3)) (Z.land crc 255));
    b ← of_option OutOfBounds (zslice a 0 (A / 8 + 4));
    Ok (a, b, i32 (u32 (A + 24)))
  else
    crc ← crc16 t a (i32 A);
    let crc := Z.shiftr crc 16 in
    a ← of_option OutOfBounds (zset a (Z.shiftr A 3) (Z.land (Z.shiftr crc 8) 255));
    a ← of_option OutOfBounds (zset a (u32 (1 + Z.shiftr A 3)) (Z.land crc 255));
    b ← of_option OutOfBounds (zslice a 0 (A / 8 + 3));
    Ok (a, b, i32 (u32 (A + 16))).

(** ** Collecting the decoded blocks *)

Record ul_harq := mk_ul_harq { h_C : Z; h_K : Z; h_F : Z; h_b : list Z; h_processed : Z; h_abort : bool }.

(** Bytes of the transport block in one code block. *)
Definition block_bytes (h : ul_harq) : Z :=
  u32 (u32 (Z.shiftr (h_K h) 3 - Z.shiftr (h_F h) 3) - (if h_C h >? 1 then 3 else 0)).

(** What nr_ulsch_decoding prepares for a transport block of [A] bits on
    [nb_rb] resource blocks and [n_layers] layers: the sizes, nothing
    processed; [None] for its [return(-1)].  The result of nr_segmentation is not
    tested; it is not -1 for the lengths of transport blocks. *)
Definition MAX_NUM_NR_ULSCH_SEGMENTS_PER_LAYER : Z := 34.
Definition too_many_segments (C nb_rb n_layers : Z) : bool :=
  let a_segments := u16 (MAX_NUM_NR_ULSCH_SEGMENTS_PER_LAYER * n_layers) in
  (C >? a_segments)
  || (C >? (if negb (nb_rb =? 273) then u16 (Z.quot (u16 (a_segments * nb_rb)) 273 + 1) else a_segments)).
Definition ulsch_start (b : list Z) (A BG nb_rb n_layers : Z) : option ul_harq :=
  match nr_segmentation_sizes (lenWithCrc 1 A) BG with
  | Some z =>
      if too_many_segments (seg_C z) nb_rb n_layers then None
      else Some (mk_ul_harq (seg_C z) (seg_K z) (seg_F z) b 0 false)
  | None => None
  end.

(** The byte where block [r] goes, summed up while the jobs are made. *)
Fixpoint block_offset (h : ul_harq) (r : nat) : Z :=
  match r with
  | O => 0
  | S r => u32 (block_offset h r + block_bytes h)
  end.

Inductive tb_verdict : Type := Ack | Nak.

(** nr_postDecode for block [r], decoded into [c]: the verdict when it was the
    last block.  A decoder that fails, or gives up, has set the abort flag. *)
Definition nr_postDecode (use_intel : bool) (t : crc_tables) (dtx : bool) (A : Z) (h : ul_harq) (r : nat)
    (success : bool) (c : list Z) : outcome (ul_harq * option tb_verdict) :=
  let processed := u32 (h_processed h + 1) in
  b ← (if success then
         data ← of_option OutOfBounds (zslice c 0 (block_bytes h));
         of_option OutOfBounds (zblit (h_b h) (block_offset h r) data)
       else Ok (h_b h));
  let h := mk_ul_harq (h_C h) (h_K h) (h_F h) b processed (h_abort h || negb success) in
  if processed =? h_C h then
    crc_valid ← (if h_C h >? 1 then check_crc use_intel t b (lenWithCrc 1 A) (crcType 1 A) else Ok 1);
    Ok (h, Some (if negb (crc_valid =? 0) && negb (h_abort h) && negb dtx then Ack else Nak))
  else Ok (h, None).

(** The blocks, in the order in which they come back. *)
Fixpoint collect (use_intel : bool) (t : crc_tables) (dtx : bool) (A : Z) (h : ul_harq)
    (blocks : list (nat * bool * list Z)) : outcome (ul_harq * option tb_verdict) :=
  match blocks with
  | [] => Ok (h, None)
  | (r, success, c) :: blocks =>
      '(h, v) ← nr_postDecode use_intel t dtx A h r success c;
      match v with
      | Some v => Ok (h, Some v)
      | None => collect use_intel t dtx A h blocks
      end
  end.
