(* ===== verification/NrSegSizes.v ===== *)
(** * The sizes of code blocks (PHY/CODING/nr_segmentation.c) *)

From S2P Require Import Prelude Crc NrSegmentation.

(** The lifting sizes of TS 38.212, table 5.3.2-1: [a * 2^j], at most 384. *)
Definition lifting_sizes : list Z :=
  filter (fun z => z <= 384)
    (a ← [2; 3; 5; 7; 9; 11; 13; 15]; (fun j => a * 2 ^ Z.of_nat j) <$> seq 0 8).

(** The least of them that is at least [z]. *)
Definition least_size (z : Z) : option Z :=
  head (filter (fun x => z <= x /\ Forall (fun y => z <= y -> x <= y) lifting_sizes) lifting_sizes).

Lemma least_size_spec z x : least_size z = Some x ->
  x ∈ lifting_sizes /\ z <= x /\ forall y, y ∈ lifting_sizes -> z <= y -> x <= y.
Proof.
  unfold least_size. intros H. apply head_Some_elem_of in H. apply list_elem_of_filter in H as [[H1 H2] H3].
  rewrite Forall_forall in H2. auto.
Qed.

Definition round_ok (n : nat) : bool := bool_decide (seg_round (Z.of_nat n) = least_size (Z.of_nat n)).
Lemma rounds_ok : forallb round_ok (seq 0 385) = true.
Proof. vm_compute. reflexivity. Qed.

(** The cascade of the code finds it. *)
Lemma seg_round_least z : 0 <= z <= 384 -> exists x, seg_round z = Some x /\ least_size z = Some x.
Proof.
  intros Hz. pose proof rounds_ok as H. rewrite forallb_forall in H. specialize (H (Z.to_nat z) ltac:(apply in_seq; lia)).
  unfold round_ok in H. rewrite Z2Nat.id in H by lia. apply bool_decide_eq_true in H.
  assert (exists x, seg_round z = Some x) as [x Hx].
  { unfold seg_round. repeat (case_if; [by eexists|]). lia. }
  exists x. rewrite <- H. done.
Qed.

Lemma Kcb_cases BG : seg_Kcb BG = 8448 \/ seg_Kcb BG = 3840.
Proof. unfold seg_Kcb. destruct (BG =? 1); auto. Qed.

(** The number of blocks is the least possible. *)
Lemma blocks_ok B BG : seg_Kcb BG < B <= 2 ^ 30 ->
  exists C, seg_blocks B BG = (C, 24, B + C * 24) /\
    (C - 1) * (seg_Kcb BG - 24) < B <= C * (seg_Kcb BG - 24) /\ 2 <= C < 2 ^ 20 /\ (B + C * 24) / C = B / C + 24.
Proof.
  intros HB. pose proof (Kcb_cases BG) as HK. unfold seg_blocks. rewrite (proj2 (Z.leb_gt _ _)) by lia. cbv zeta.
  set (M := seg_Kcb BG - 24) in *. assert (3816 <= M) by lia.
  pose proof (Z.div_mod B M ltac:(lia)) as Hdm. pose proof (Z.mod_pos_bound B M ltac:(lia)) as Hm.
  assert (0 <= B / M <= 2 ^ 30 / 3816) as Hq.
  { split; [apply Z.div_pos; lia|]. transitivity (B / 3816); [apply Z.div_le_compat_l; lia|apply Z.div_le_mono; lia]. }
  change (2 ^ 30 / 3816) with 281378 in Hq.
  assert (u32 (M * (B / M)) = M * (B / M)) as -> by (apply Z.mod_small; lia).
  set (C := if M * (B / M) <? B then u32 (B / M + 1) else B / M).
  assert ((C - 1) * M < B <= C * M /\ 1 <= C <= 281379) as [H1 H2].
  { unfold C. destruct (M * (B / M) <? B) eqn:E; zify_bool.
    - unfold u32. rewrite Z.mod_small by lia. nia.
    - assert (M * (B / M) = B) by lia. nia. }
  assert (2 <= C) by nia.
  exists C. assert (u32 (C * 24) = C * 24) as -> by (apply Z.mod_small; lia).
  assert (u32 (B + C * 24) = B + C * 24) as -> by (apply Z.mod_small; lia).
  split_and!; try lia; [done|]. rewrite Z.add_comm, (Z.mul_comm C), Z.div_add_l by lia. lia.
Qed.

Lemma columns_ok B BG : (seg_columns B BG = 22 /\ BG = 1) \/
  (BG <> 1 /\ ((640 < B /\ seg_columns B BG = 10) \/ (B <= 640 /\ 6 <= seg_columns B BG <= 9))).
Proof. unfold seg_columns. repeat case_if; lia. Qed.

(** The rounded quotient of the code is the least [z] that fits. *)
Lemma ceil_ok k c : 0 < c -> 0 <= k ->
  let z := if k mod c >? 0 then k / c + 1 else k / c in
  0 <= z /\ forall y, k <= c * y <-> z <= y.
Proof.
  intros Hc Hk z. pose proof (Z.div_mod k c ltac:(lia)) as Hdm. pose proof (Z.mod_pos_bound k c Hc) as Hm.
  pose proof (Z.div_pos k c Hk Hc) as Hq. unfold z. destruct (k mod c >? 0) eqn:E; zify_bool; split; try lia; intros y; split; nia.
Qed.

(** What TS 38.212, 5.2.2 asks of the sizes for a transport block of [B] bits. *)
Definition seg_spec (B BG : Z) (z : seg_sizes) : Prop :=
  (B <= seg_Kcb BG -> seg_C z = 1 /\ seg_L z = 0 /\ seg_Kprime z = B) /\
  (seg_Kcb BG < B -> seg_L z = 24 /\ (seg_C z - 1) * (seg_Kcb BG - 24) < B <= seg_C z * (seg_Kcb BG - 24) /\
     2 <= seg_C z < 2 ^ 20 /\ seg_Kprime z = B / seg_C z + 24) /\
  seg_Kb z = seg_columns B BG /\
  seg_Zout z ∈ lifting_sizes /\ seg_Kprime z <= seg_Kb z * seg_Zout z /\
  (forall y, y ∈ lifting_sizes -> seg_Kprime z <= seg_Kb z * y -> seg_Zout z <= y) /\
  seg_K z = (if BG =? 1 then 22 else 10) * seg_Zout z /\
  0 <= seg_Kprime z <= seg_K z /\ seg_K z <= seg_Kcb BG /\ seg_F z = seg_K z - seg_Kprime z.

Lemma lifting_range x : x ∈ lifting_sizes -> 2 <= x <= 384.
Proof.
  intros Hx. assert (Forall (fun y => 2 <= y <= 384) lifting_sizes) as H.
  { apply Forall_forall. apply (proj1 (Forall_forall (fun y => 2 <= y <= 384) lifting_sizes)).
    apply (bool_decide_unpack _). vm_compute. exact I. }
  rewrite Forall_forall in H. by apply H.
Qed.

Lemma sizes_ok B BG : 0 <= B <= 2 ^ 30 -> exists z, nr_segmentation_sizes B BG = Some z /\ seg_spec B BG z.
Proof.
  intros HB. pose proof (Kcb_cases BG) as HK.
  assert (exists C L B', seg_blocks B BG = (C, L, B') /\ 0 <= B' / C <= seg_Kcb BG /\
    (B <= seg_Kcb BG -> C = 1 /\ L = 0 /\ B' / C = B) /\
    (seg_Kcb BG < B -> L = 24 /\ (C - 1) * (seg_Kcb BG - 24) < B <= C * (seg_Kcb BG - 24) /\ 2 <= C < 2 ^ 20 /\ B' / C = B / C + 24))
    as (C & L & B' & Hbl & Hkp & H1 & H2).
  { destruct (Z.le_gt_cases B (seg_Kcb BG)) as [Hle|Hgt].
    - exists 1, 0, B. unfold seg_blocks. rewrite (proj2 (Z.leb_le _ _)) by done. rewrite Z.div_1_r. split_and!; try lia; done.
    - destruct (blocks_ok B BG ltac:(lia)) as (C & -> & HC & HC2 & Hdiv). exists C, 24, (B + C * 24).
      rewrite Hdiv. assert (B / C <= seg_Kcb BG - 24) by (apply Z.div_le_upper_bound; lia).
      pose proof (Z.div_pos B C ltac:(lia) ltac:(lia)). split_and!; try lia; done. }
  unfold nr_segmentation_sizes. rewrite Hbl. cbv zeta.
  set (Kb := seg_columns B BG). set (kp := B' / C) in *.
  pose proof (columns_ok B BG) as Hcol. fold Kb in Hcol. assert (6 <= Kb <= 22) as HKb by lia.
  destruct (ceil_ok kp Kb ltac:(lia) ltac:(lia)) as [Hz0 Hz].
  set (zz := if kp mod Kb >? 0 then kp / Kb + 1 else kp / Kb) in *.
  assert (kp <= Kb * 384) as Hmax.
  { destruct Hcol as [[-> HBG]|[HBG [[HB1 ->]|[HB1 HKb2]]]].
    - unfold seg_Kcb in Hkp. rewrite HBG in Hkp. cbn in Hkp. lia.
    - unfold seg_Kcb in Hkp. rewrite (proj2 (Z.eqb_neq _ _) HBG) in Hkp. lia.
    - destruct (Z.le_gt_cases B (seg_Kcb BG)); [|lia]. destruct H1 as (_ & _ & ->); [done|]. nia. }
  apply Hz in Hmax. destruct (seg_round_least zz ltac:(lia)) as (x & -> & Hleast).
  apply least_size_spec in Hleast as (Hin & Hzx & Hmin). pose proof (lifting_range x Hin) as Hx.
  eexists. split; [reflexivity|]. unfold seg_spec. cbn [seg_C seg_K seg_Zout seg_F seg_Kb seg_Kprime seg_L].
  assert ((if BG =? 1 then u32 (x * 22) else u32 (x * 10)) = (if BG =? 1 then 22 else 10) * x) as ->.
  { destruct (BG =? 1); unfold u32; rewrite Z.mod_small by lia; lia. }
  assert (kp <= Kb * x) as Hfit by (by apply Hz).
  assert (kp <= (if BG =? 1 then 22 else 10) * x) as Hfit2.
  { destruct Hcol as [[HKb2 HBG]|[HBG HKb2]].
    - rewrite HBG. cbn. lia.
    - rewrite (proj2 (Z.eqb_neq _ _) HBG). nia. }
  assert ((if BG =? 1 then 22 else 10) * x <= seg_Kcb BG) by (unfold seg_Kcb; destruct (BG =? 1); lia).
  assert (u32 ((if BG =? 1 then 22 else 10) * x - kp) = (if BG =? 1 then 22 else 10) * x - kp) as ->
    by (apply Z.mod_small; lia).
  split_and!; try done; try lia. intros y Hy Hky. apply Hmin; [done|]. by apply Hz.
Qed.
