(* ===== verification/NrSegBlocks.v ===== *)
(** * The contents of code blocks and of a transport block
      (PHY/CODING/nr_segmentation.c, PHY/NR_TRANSPORT/nr_dlsch_coding.c) *)

From S2P Require Import Prelude Crc CrcBits CrcTables CrcClmul CrcIntel CrcCheck CrcMain NrSegmentation NrSegSizes.

(** ** Writing check bytes *)

Lemma zset_middle {A} (l1 l2 : list A) x y i : i = zlen l1 -> zset (l1 ++ x :: l2) i y = Some (l1 ++ y :: l2).
Proof.
  intros ->. pose proof (zlen_nonneg l1). pose proof (zlen_nonneg l2). unfold zset.
  rewrite zlen_app, zlen_cons. rewrite (proj2 (Z.leb_le _ _)), (proj2 (Z.ltb_lt _ _)) by lia. cbn [andb].
  unfold zlen. rewrite Nat2Z.id, insert_app_r_alt, Nat.sub_diag by lia. done.
Qed.

(** One and two elements further on. *)
Lemma zset_1 {A} (l1 l2 : list A) y0 x y i : i = zlen l1 + 1 -> zset (l1 ++ y0 :: x :: l2) i y = Some (l1 ++ y0 :: y :: l2).
Proof.
  intros ->. change (y0 :: x :: l2) with ([y0] ++ x :: l2). rewrite (app_assoc l1).
  rewrite zset_middle by (by rewrite zlen_app). by rewrite <- (app_assoc l1).
Qed.
Lemma zset_2 {A} (l1 l2 : list A) y0 y1 x y i : i = zlen l1 + 2 ->
  zset (l1 ++ y0 :: y1 :: x :: l2) i y = Some (l1 ++ y0 :: y1 :: y :: l2).
Proof.
  intros ->. change (y0 :: y1 :: x :: l2) with ([y0; y1] ++ x :: l2). rewrite (app_assoc l1).
  rewrite zset_middle by (by rewrite zlen_app). by rewrite <- (app_assoc l1).
Qed.

Lemma zblit_app {A} (l1 l2 src : list A) : (length src <= length l2)%nat ->
  zblit (l1 ++ l2) (zlen l1) src = Some (l1 ++ src ++ drop (length src) l2).
Proof.
  intros Hl. rewrite zblit_ok by (rewrite ?zlen_app; unfold zlen; lia). unfold zlen. rewrite Nat2Z.id.
  by rewrite take_app_length, drop_app_add.
Qed.

(** The bytes of [crc], high byte first, as [check_bytes] has them. *)
Lemma check_bytes_3 t payload c : crc_len_of t = 3 -> c = crc_of_bits (poly_of t) (bits_of payload) ->
  check_bytes t payload = [Z.land (Z.shiftr (Z.shiftr c 8) 16) 255; Z.land (Z.shiftr (Z.shiftr c 8) 8) 255; Z.land (Z.shiftr c 8) 255].
Proof. intros Ht ->. unfold check_bytes. rewrite Ht, !Z.shiftr_shiftr by lia. reflexivity. Qed.

Lemma check_bytes_2 payload c : c = crc_of_bits poly16 (bits_of payload) ->
  check_bytes CRC16 payload = [Z.land (Z.shiftr (Z.shiftr c 16) 8) 255; Z.land (Z.shiftr c 16) 255].
Proof. intros ->. unfold check_bytes. rewrite !Z.shiftr_shiftr by lia. reflexivity. Qed.

Lemma split3 {A} (l : list A) : 3 <= zlen l -> exists x y z l', l = x :: y :: z :: l'.
Proof.
  intros Hl. do 3 (destruct l as [|? l]; [unfold zlen in Hl; cbn in Hl; lia|]). by eexists _, _, _, _.
Qed.

Lemma i32_u32_small x : 0 <= x < 2 ^ 31 -> i32 (u32 x) = x.
Proof. intros Hx. rewrite u32_small by lia. unfold i32. by rewrite (proj2 (Z.ltb_lt _ _)) by lia. Qed.

(** Whole bytes are never too few to be read 32 at a time. *)
Lemma loads_long n m : 32 <= n -> n <= m -> loads n <= m.
Proof. intros H1 H2. unfold loads. rewrite (proj2 (Z.eqb_neq _ _)), (proj2 (Z.leb_gt _ _)) by lia. lia. Qed.

(** ** One code block *)

(** The data, its check bytes when there are several blocks, the filler, and
    what the buffer held behind. *)
Definition block_crc (z : seg_sizes) (data : list Z) : list Z :=
  if seg_C z >? 1 then check_bytes CRC24_B data else [].
Definition block_content (z : seg_sizes) (data out : list Z) : list Z :=
  data ++ block_crc z data ++ replicate (Z.to_nat (Z.shiftr (seg_K z) 3 - Z.shiftr (seg_Kprime z) 3)) 0
  ++ drop (Z.to_nat (Z.shiftr (seg_K z) 3)) out.

(** Bytes of the transport block in a code block. *)
Definition data_bytes (z : seg_sizes) : Z := (seg_Kprime z - seg_L z) / 8.

(** Sizes for which the division leaves nothing over. *)
Definition seg_exact (z : seg_sizes) : Prop :=
  (seg_Kprime z - seg_L z) mod 8 = 0 /\ 0 <= seg_Kprime z - seg_L z /\ 0 <= seg_Kprime z <= seg_K z /\ seg_K z <= 8448 /\
  seg_F z = seg_K z - seg_Kprime z /\
  ((1 < seg_C z /\ seg_L z = 24 /\ 256 <= seg_Kprime z - seg_L z) \/ (seg_C z = 1 /\ seg_L z = 0)).

Lemma exact_shift z : seg_exact z ->
  Z.shiftr (u32 (seg_Kprime z - seg_L z)) 3 = data_bytes z /\
  Z.shiftr (seg_Kprime z) 3 = data_bytes z + zlen (block_crc z []) /\
  seg_Kprime z - seg_L z = 8 * data_bytes z /\ 0 <= data_bytes z <= 1056 /\
  data_bytes z + zlen (block_crc z []) <= Z.shiftr (seg_K z) 3 /\ Z.shiftr (seg_K z) 3 <= 1056.
Proof.
  intros (Hmod & Hpos & Hk & HK & HF & Hc). pose proof (Z.div_mod (seg_Kprime z - seg_L z) 8 ltac:(lia)) as Hdm.
  assert (zlen (block_crc z []) * 8 = seg_L z) as Hcrc.
  { unfold block_crc. destruct Hc as [(HC & HL & _)|(HC & HL)].
    - rewrite (proj2 (Z.gtb_lt _ _)), check_bytes_len, HL by lia. done.
    - rewrite HC, HL. done. }
  unfold data_bytes. rewrite u32_small by lia. rewrite !Z.shiftr_div_pow2 by lia. change (2 ^ 3) with 8.
  assert (seg_Kprime z / 8 = (seg_Kprime z - seg_L z) / 8 + zlen (block_crc z [])) as E.
  { rewrite <- Z.div_add by lia. f_equal. lia. }
  assert (seg_Kprime z / 8 <= seg_K z / 8) by (apply Z.div_le_mono; lia).
  assert (seg_K z / 8 <= 8448 / 8) by (apply Z.div_le_mono; lia). change (8448 / 8) with 1056 in *.
  pose proof (Z.div_pos (seg_Kprime z - seg_L z) 8 ltac:(lia) ltac:(lia)). pose proof (zlen_nonneg (block_crc z [])).
  split_and!; try lia.
Qed.

Lemma block_crc_len z data : zlen (block_crc z data) = zlen (block_crc z []).
Proof. unfold block_crc. destruct (seg_C z >? 1); [|done]. by rewrite !check_bytes_len. Qed.

Lemma seg_block_ok use_intel z input s out data : seg_exact z -> bytes_ok out ->
  zslice input s (data_bytes z) = Some data -> bytes_ok data -> 0 <= s < 2 ^ 31 -> Z.shiftr (seg_K z) 3 <= zlen out ->
  seg_block use_intel crcTableInit z input s out = Ok (s + data_bytes z, block_content z data out).
Proof.
  intros Hz Hout Hdata Hbd Hs Hlen. destruct (exact_shift z Hz) as (E1 & E2 & E3 & Hk & Hle & HK).
  pose proof (zslice_len _ _ _ _ Hdata) as Hdl. pose proof (zlen_nonneg (block_crc z [])) as Hcl.
  pose proof Hz as (_ & _ & Hkk & _ & HF & Hc).
  unfold seg_block. rewrite E1, E2, Hdata. cbn [of_option mbind outcome_bind].
  destruct (firstn_split out (data_bytes z) ltac:(lia)) as (o1 & o2 & -> & Ho1). rewrite zlen_app in Hlen.
  assert (zblit (o1 ++ o2) 0 data = Some (data ++ o2)) as ->.
  { pose proof (zlen_nonneg o2). rewrite zblit_ok by (rewrite ?zlen_app; lia). change (Z.to_nat 0) with O. cbn [take app Nat.add].
    rewrite (drop_app_length' o1 o2) by (unfold zlen in *; lia). done. }
  cbn [of_option mbind outcome_bind]. apply Forall_app in Hout as [_ Hout2].
  (* the check bytes *)
  destruct (firstn_split o2 (zlen (block_crc z [])) ltac:(lia)) as (c1 & o3 & -> & Hc1). rewrite zlen_app in Hlen.
  match goal with |- context [if seg_C z >? 1 then ?a else ?b] =>
    assert ((if seg_C z >? 1 then a else b) = Ok (data ++ block_crc z data ++ o3)) as -> end.
  { destruct Hc as [(HC & HL & H256)|(HC & HL)].
    - unfold block_crc in *. rewrite (proj2 (Z.gtb_lt _ _)) in * by lia.
      rewrite check_bytes_len in *. cbn [crc_len_of] in *.
      rewrite i32_u32_small by lia. rewrite (crc24b_ok use_intel) by
        (first [by apply Forall_app|rewrite ?zlen_app; pose proof (zlen_nonneg o3); lia
               |intros _ _; rewrite E3, Z.mul_comm, Z.div_mul by lia; apply loads_long;
                [lia|rewrite !zlen_app; pose proof (zlen_nonneg o3); lia]]).
      rewrite take_bits_app by lia. cbn [of_option mbind outcome_bind].
      set (c := crc_of_bits poly24b (bits_of data)).
      rewrite (check_bytes_3 CRC24_B data c eq_refl eq_refl).
      destruct c1 as [|x0 [|x1 [|x2 [|x3 c1]]]]; try (unfold zlen in Hc1; cbn in Hc1; lia). cbn [app].
      rewrite zset_middle by lia. cbn [of_option mbind outcome_bind].
      set (y0 := Z.land (Z.shiftr (Z.shiftr c 8) 16) 255). set (y1 := Z.land (Z.shiftr (Z.shiftr c 8) 8) 255).
      set (y2 := Z.land (Z.shiftr c 8) 255).
      rewrite zset_1 by (rewrite u32_small; lia). cbn [of_option mbind outcome_bind].
      by rewrite zset_2 by (rewrite u32_small; lia).
    - unfold block_crc in *. rewrite HC in *. change (1 >? 1) with false in *. cbv iota in *.
      destruct c1; [done|]. rewrite zlen_cons in Hc1. pose proof (zlen_nonneg c1). change (zlen []) with 0 in Hc1. lia. }
  cbn [mbind outcome_bind].
  (* the filler *)
  unfold block_content. rewrite E2. set (zeros := replicate _ 0).
  assert (length zeros = Z.to_nat (Z.shiftr (seg_K z) 3 - (data_bytes z + zlen (block_crc z [])))) as Hzl
    by (unfold zeros; by rewrite length_replicate).
  assert (drop (Z.to_nat (Z.shiftr (seg_K z) 3)) (o1 ++ c1 ++ o3) = drop (length zeros) o3) as Hdrop.
  { rewrite app_assoc, Hzl. replace (Z.to_nat (Z.shiftr (seg_K z) 3)) with (length (o1 ++ c1) + Z.to_nat (Z.shiftr (seg_K z) 3 - (data_bytes z + zlen (block_crc z []))))%nat.
    - apply drop_app_add.
    - rewrite length_app. unfold zlen in *. lia. }
  rewrite Hdrop.
  match goal with |- context [if seg_F z >? 0 then ?a else ?b] =>
    assert ((if seg_F z >? 0 then a else b) = Ok (data ++ block_crc z data ++ zeros ++ drop (length zeros) o3)) as -> end.
  { destruct (seg_F z >? 0) eqn:EF; zify_bool.
    - rewrite (app_assoc data).
      replace (data_bytes z + zlen (block_crc z [])) with (zlen (data ++ block_crc z data)) by (rewrite zlen_app, block_crc_len; lia).
      rewrite zblit_app by (rewrite Hzl; unfold zlen in *; lia). cbn [of_option]. by rewrite <- (app_assoc data).
    - assert (length zeros = O) as H0.
      { rewrite Hzl. assert (seg_K z = seg_Kprime z) as -> by lia. rewrite E2. lia. }
      rewrite H0, drop_0. destruct zeros; [|done]. done. }
  cbn [mbind outcome_bind]. by rewrite u32_small by lia.
Qed.

(** ** All code blocks of a transport block, and their collection
      (PHY/CODING/nr_segmentation.c, SCHED_NR/phy_procedures_nr_gNB.c) *)

(** ** Cutting a list into pieces of [k] elements *)

Fixpoint chunks {A} (n : nat) (k : nat) (l : list A) : list (list A) :=
  match n with O => [] | S n => take k l :: chunks n k (drop k l) end.

Lemma chunks_len {A} n k (l : list A) : length (chunks n k l) = n.
Proof. revert l. induction n as [|n IH]; intros l; [done|]. cbn. by rewrite IH. Qed.

Lemma chunks_lookup {A} n k (l : list A) r : (r < n)%nat -> chunks n k l !! r = Some (take k (drop (r * k) l)).
Proof.
  revert l r. induction n as [|n IH]; intros l [|r] Hr; try lia; [done|].
  cbn [chunks lookup list_lookup]. rewrite IH, drop_drop by lia. done.
Qed.

Lemma chunks_join {A} n k (l : list A) : mjoin (chunks n k l) = take (n * k) l.
Proof.
  revert l. induction n as [|n IH]; intros l; [done|]. cbn [chunks]. cbn [mjoin list_join].
  change (take k l ++ mjoin (chunks n k (drop k l)) = take (S n * k) l). rewrite IH, take_take_drop. f_equal.
Qed.

Lemma Forall_chunks {A} (P : A -> Prop) n k (l : list A) : Forall P l -> Forall (Forall P) (chunks n k l).
Proof.
  revert l. induction n as [|n IH]; intros l Hl; constructor; [by apply Forall_take|]. by apply IH, Forall_drop.
Qed.

(** ** The blocks nr_segmentation makes *)

Definition buffers_ok (z : seg_sizes) (outs : list (list Z)) : Prop :=
  Forall (fun out => bytes_ok out /\ Z.shiftr (seg_K z) 3 <= zlen out) outs.

Lemma seg_loop_ok use_intel z input n s outs : seg_exact z -> bytes_ok input -> (n <= length outs)%nat ->
  buffers_ok z outs -> 0 <= s -> s + Z.of_nat n * data_bytes z <= zlen input -> zlen input < 2 ^ 31 ->
  seg_loop n use_intel crcTableInit z input s outs
  = Ok (zip_with (block_content z) (chunks n (Z.to_nat (data_bytes z)) (drop (Z.to_nat s) input)) outs
        ++ drop n outs).
Proof.
  intros Hz Hin Hn Houts Hs Hlen Hin31. destruct (exact_shift z Hz) as (_ & _ & _ & Hk & _).
  revert s outs Hn Houts Hs Hlen. induction n as [|n IH]; intros s [|out outs] Hn Houts Hs Hlen; try (cbn in Hn; lia); [done|done|].
  apply Forall_cons in Houts as [[Ho1 Ho2] Houts]. cbn [seg_loop].
  assert (zslice input s (data_bytes z) = Some (take (Z.to_nat (data_bytes z)) (drop (Z.to_nat s) input))) as Hsl
    by (apply zslice_ok; lia).
  rewrite (seg_block_ok use_intel z input s out _ Hz Ho1 Hsl) by (first [by apply Forall_take, Forall_drop|lia|done]).
  cbn [mbind outcome_bind]. cbn [length] in Hn. rewrite IH by (done || lia). cbn [mbind outcome_bind chunks zip_with app drop].
  by rewrite drop_drop, Z2Nat.inj_add by lia.
Qed.

(** ** Writing the blocks back *)

Section Writes.
Context {A : Type} (k : Z) (Hk : 0 <= k).

Lemma blit_disjoint (l l' src : list A) off o n : zblit l off src = Some l' -> 0 <= o -> 0 <= n ->
  o + n <= off \/ off + zlen src <= o -> zslice l' o n = zslice l o n.
Proof.
  intros Hb Ho Hn Hd. pose proof (zblit_len _ _ _ _ Hb) as Hlen. apply zblit_Some in Hb as (H1 & H2 & ->).
  unfold zslice. rewrite Hlen. destruct ((0 <=? o) && (0 <=? n) && (o + n <=? zlen l)) eqn:E; [|done]. zify_bool.
  f_equal. destruct Hd as [Hd|Hd].
  - rewrite skipn_app, take_app_le by (rewrite length_drop, length_take; unfold zlen in *; lia).
    rewrite !take_drop_commute, take_take. do 2 f_equal. lia.
  - rewrite app_assoc, skipn_app, drop_ge by (rewrite length_app, length_take; unfold zlen in *; lia).
    cbn [app]. rewrite drop_drop. do 2 f_equal. rewrite length_app, length_take. unfold zlen in *. lia.
Qed.

Lemma blit_read (l l' src : list A) off : zblit l off src = Some l' -> zslice l' off (zlen src) = Some src.
Proof.
  intros Hb. pose proof (zblit_len _ _ _ _ Hb) as Hlen. apply zblit_Some in Hb as (H1 & H2 & E).
  pose proof (zlen_nonneg src). rewrite zslice_ok by lia. f_equal. subst l'.
  rewrite drop_app_length' by (rewrite length_take; unfold zlen in *; lia).
  unfold zlen. by rewrite Nat2Z.id, take_app_length.
Qed.

(** The pieces, read one after another. *)
Lemma pieces_join (l : list A) (f : nat -> list A) n :
  (forall r, (r < n)%nat -> zslice l (Z.of_nat r * k) k = Some (f r)) -> Z.of_nat n * k <= zlen l ->
  zslice l 0 (Z.of_nat n * k) = Some (mjoin (f <$> seq 0 n)).
Proof.
  intros Hf Hl. induction n as [|n IH].
  - cbn. rewrite zslice_ok by lia. done.
  - rewrite seq_S, fmap_app, join_app. cbn [fmap list_fmap mjoin list_join Nat.add]. rewrite app_nil_r.
    replace (Z.of_nat (S n) * k) with (Z.of_nat n * k + k) by lia. apply zslice_app.
    + apply IH; [intros r Hr; apply Hf; lia|lia].
    + rewrite Z.add_0_l. apply Hf. lia.
Qed.
End Writes.

(** ** nr_postDecode on all blocks *)

Section Collect.
Context (use_intel dtx : bool) (z : seg_sizes) (A : Z) (Hz : seg_exact z) (HC : 1 <= seg_C z < 2 ^ 20).
Definition dk : Z := data_bytes z.

Definition harq_of (b : list Z) (processed : Z) : ul_harq :=
  mk_ul_harq (seg_C z) (seg_K z) (seg_F z) b processed false.

Lemma block_bytes_ok b p : block_bytes (harq_of b p) = dk.
Proof.
  destruct (exact_shift z Hz) as (_ & E2 & E3 & Hk & Hle & HK). pose proof Hz as (_ & _ & Hkk & _ & HF & Hc).
  unfold block_bytes, harq_of, dk in *. cbn [h_K h_F h_C].
  assert (Z.shiftr (seg_K z) 3 - Z.shiftr (seg_F z) 3 = data_bytes z + zlen (block_crc z [])) as Hd.
  { rewrite <- E2, !Z.shiftr_div_pow2 by lia. change (2 ^ 3) with 8. rewrite HF.
    assert (seg_Kprime z = 8 * (seg_Kprime z / 8)) as Hm.
    { rewrite Z.shiftr_div_pow2 in E2 by lia. change (2 ^ 3) with 8 in E2. rewrite E2.
      pose proof (block_crc_len z []) as Hl. unfold block_crc in *. destruct Hc as [(H1 & H2 & _)|(H1 & H2)].
      - rewrite (proj2 (Z.gtb_lt _ _)), check_bytes_len by lia. cbn [crc_len_of]. lia.
      - rewrite H1. change (zlen (if 1 >? 1 then check_bytes CRC24_B [] else [])) with 0. lia. }
    assert ((seg_K z - seg_Kprime z) / 8 = seg_K z / 8 - seg_Kprime z / 8) as ->; [|lia].
    rewrite Hm at 1. rewrite <- Z.add_opp_r, Z.mul_comm, <- Z.mul_opp_l, Z.div_add by lia. lia. }
  pose proof (zlen_nonneg (block_crc z [])) as Hcl.
  rewrite Hd. clear Hd E2. unfold block_crc in *. destruct Hc as [(H1 & H2 & _)|(H1 & H2)].
  - rewrite (proj2 (Z.gtb_lt _ _)), check_bytes_len in * by lia. cbn [crc_len_of] in *.
    rewrite (u32_small (_ + 3)), u32_small by lia. lia.
  - rewrite H1 in *. change (1 >? 1) with false in *. cbv iota in *. rewrite zlen_nil in *. rewrite (u32_small (_ + 0)), u32_small by lia. lia.
Qed.

Lemma block_offset_ok b p r : (Z.of_nat r < 2 ^ 20) -> block_offset (harq_of b p) r = Z.of_nat r * dk.
Proof.
  destruct (exact_shift z Hz) as (_ & _ & _ & Hk & _). fold dk in Hk.
  induction r as [|r IH]; intros Hr; [done|]. cbn [block_offset]. rewrite IH, block_bytes_ok by lia.
  rewrite u32_small by nia. lia.
Qed.

Definition final (b : list Z) : outcome (ul_harq * option tb_verdict) :=
  crc_valid ← (if seg_C z >? 1 then check_crc use_intel crcTableInit b (lenWithCrc 1 A) (crcType 1 A) else Ok 1);
  Ok (harq_of b (seg_C z), Some (if negb (crc_valid =? 0) && negb dtx then Ack else Nak)).

Context (c d : nat -> list Z).
Definition block_of (r : nat) : nat * bool * list Z := (r, true, c r).

Lemma collect_ok rs b p : rs <> [] -> NoDup rs -> 0 <= p -> p + zlen rs = seg_C z ->
  (forall r, r ∈ rs -> Z.of_nat r < seg_C z /\ zslice (c r) 0 dk = Some (d r)) -> seg_C z * dk <= zlen b ->
  exists b', collect use_intel crcTableInit dtx A (harq_of b p) (block_of <$> rs) = final b' /\
    zlen b' = zlen b /\
    (forall r, Z.of_nat r < seg_C z -> zslice b' (Z.of_nat r * dk) dk = if bool_decide (r ∈ rs) then Some (d r) else zslice b (Z.of_nat r * dk) dk) /\
    (forall o n, seg_C z * dk <= o -> 0 <= n -> zslice b' o n = zslice b o n).
Proof.
  intros Hne Hnd Hp Hlen Hd Hb. destruct (exact_shift z Hz) as (_ & _ & _ & Hk & _). fold dk in Hk.
  revert b p Hne Hnd Hp Hlen Hd Hb. induction rs as [|r rs IH]; intros b p Hne Hnd Hp Hlen Hd Hb; [done|].
  apply NoDup_cons in Hnd as [Hr Hnd]. rewrite zlen_cons in Hlen. pose proof (zlen_nonneg rs) as Hrs.
  destruct (Hd r ltac:(left)) as [HrC Hdr]. pose proof (zslice_len _ _ _ _ Hdr) as Hdl.
  assert (Z.of_nat r * dk + dk <= seg_C z * dk) as Hroom by nia.
  assert (exists b1, zblit b (Z.of_nat r * dk) (d r) = Some b1) as [b1 Hb1].
  { eexists. apply zblit_ok; nia. }
  pose proof (zblit_len _ _ _ _ Hb1) as Hl1.
  assert (nr_postDecode use_intel crcTableInit dtx A (harq_of b p) r true (c r)
    = if u32 (p + 1) =? seg_C z then final b1 else Ok (harq_of b1 (p + 1), None)) as Hpost.
  { unfold nr_postDecode. cbv zeta. rewrite block_bytes_ok, block_offset_ok, Hdr by lia. cbn [of_option mbind outcome_bind].
    cbn [harq_of h_b h_C h_K h_F h_processed h_abort]. rewrite Hb1. cbn [of_option mbind outcome_bind].
    rewrite u32_small by lia. destruct (p + 1 =? seg_C z) eqn:E; zify_bool; [|done].
    unfold final. rewrite E. cbn [negb orb]. destruct (if seg_C z >? 1 then _ else _) as [v|f]; cbn [mbind outcome_bind]; [|done].
    by rewrite andb_true_r. }
  cbn [fmap list_fmap collect]. unfold block_of at 1. rewrite Hpost, u32_small by lia.
  destruct (p + 1 =? seg_C z) eqn:E; zify_bool.
  - destruct rs as [|r' rs]; [|rewrite zlen_cons in Hlen; pose proof (zlen_nonneg rs); lia].
    exists b1. split_and!; [|done| |].
    + unfold final. destruct (if seg_C z >? 1 then _ else _) as [v|f]; cbn [mbind outcome_bind]; done.
    + intros r0 Hr0. destruct (bool_decide_reflect (r0 ∈ [r])) as [Hin|Hin].
      * apply list_elem_of_singleton in Hin as ->. pose proof (blit_read _ _ _ _ Hb1) as Hr1. by rewrite Hdl in Hr1.
      * apply (blit_disjoint _ _ _ _ _ _ Hb1); [nia|lia|]. assert (r0 <> r) by set_solver. nia.
    + intros o n Ho Hn. apply (blit_disjoint _ _ _ _ _ _ Hb1); [nia|done|nia].
  - assert (rs <> []) as Hne' by (intros ->; rewrite zlen_nil in Hlen; lia).
    destruct (IH b1 (p + 1) Hne' Hnd ltac:(lia) ltac:(lia) ltac:(intros r0 Hr0; apply Hd; by right) ltac:(lia))
      as (b' & Hcol & Hl' & Hread & Hrest).
    exists b'. split_and!; [exact Hcol|lia| |].
    + intros r0 Hr0. rewrite (Hread r0 Hr0).
      destruct (bool_decide_reflect (r0 ∈ rs)) as [Hin|Hin], (bool_decide_reflect (r0 ∈ r :: rs)) as [Hin'|Hin']; try done.
      * set_solver.
      * assert (r0 = r) as -> by set_solver. pose proof (blit_read _ _ _ _ Hb1) as Hr1. by rewrite Hdl in Hr1.
      * apply (blit_disjoint _ _ _ _ _ _ Hb1); [nia|lia|]. assert (r0 <> r) by set_solver. nia.
    + intros o n Ho Hn. rewrite (Hrest o n Ho Hn). apply (blit_disjoint _ _ _ _ _ _ Hb1); [nia|done|nia].
Qed.
End Collect.

(** An acknowledgement means that every block was decoded. *)
Lemma collect_ack use_intel dtx A h blocks h' :
  collect use_intel crcTableInit dtx A h blocks = Ok (h', Some Ack) ->
  h_abort h = false /\ dtx = false /\ exists done rest, blocks = done ++ rest /\ Forall (fun b => snd (fst b) = true) done /\
    (0 <= h_processed h -> h_processed h + zlen done < 2 ^ 32 -> h_processed h + zlen done = h_C h).
Proof.
  revert h. induction blocks as [|[[r success] c] blocks IH]; intros h H; [done|]. cbn [collect] in H.
  destruct (nr_postDecode use_intel crcTableInit dtx A h r success c) as [[h1 v]|f] eqn:E; [|done].
  cbn [mbind outcome_bind] in H. unfold nr_postDecode in E. cbv zeta in E.
  match type of E with mbind _ ?m = _ => destruct m as [b|f]; [|done] end. cbn [mbind outcome_bind] in E.
  cbn [h_C h_K h_F h_b h_processed h_abort] in E.
  destruct (u32 (h_processed h + 1) =? h_C h) eqn:EC; zify_bool.
  - destruct (if h_C h >? 1 then _ else _) as [cv|f]; [|done]. cbn [mbind outcome_bind] in E. inversion E; subst h1 v. clear E.
    inversion H as [[Hh Hv]]. destruct (negb (cv =? 0)), (h_abort h), success, dtx; try discriminate Hv.
    split_and!; [done|done|]. exists [(r, true, c)], blocks. split_and!; [done|by repeat constructor|].
    intros Hp Hlt. change (zlen [(r, true, c)]) with 1 in *. rewrite u32_small in EC by lia. lia.
  - inversion E; subst h1 v. clear E. destruct (IH _ H) as (Ha & Hd & done & rest & -> & Hall & Hcount).
    cbn [h_abort h_processed h_C] in *. apply orb_false_iff in Ha as [Ha Hs]. apply negb_false_iff in Hs.
    split_and!; [done|done|]. exists ((r, success, c) :: done), rest. split_and!; [done|by constructor|].
    intros Hp Hlt. rewrite zlen_cons in *. pose proof (zlen_nonneg done). rewrite u32_small in Hcount by lia. lia.
Qed.
