(* ===== verification/NrSegMain.v ===== *)
(** * A transport block, through code blocks and back
      (PHY/NR_TRANSPORT/nr_dlsch_coding.c, nr_ulsch_decoding.c,
      PHY/CODING/nr_segmentation.c, SCHED_NR/phy_procedures_nr_gNB.c) *)

From S2P Require Import Prelude Crc CrcBits CrcTables CrcClmul CrcIntel CrcCheck CrcMain NrSegmentation NrSegSizes NrSegBlocks.

Lemma readable_32 use_intel l n : n / 8 <= zlen l -> 32 <= zlen l -> readable use_intel l n.
Proof. intros H1 H2 _ _. unfold loads. repeat case_if; lia. Qed.

(** The length of a transport block with its check bytes. *)
Lemma lenWithCrc_1 A : lenWithCrc 1 A = A + 8 * crc_len_of (crcType 1 A).
Proof. unfold lenWithCrc, crcType. change (1 >? 1) with false. cbv iota. by case_if. Qed.

Lemma crcType_ok C A : crc_type_ok (crcType C A).
Proof. unfold crcType. by repeat case_if. Qed.

(** ** The check bytes of the transport block *)

Lemma zslice_0_app {A} (l1 l2 : list A) n : n = zlen l1 -> zslice (l1 ++ l2) 0 n = Some l1.
Proof.
  intros ->. pose proof (zlen_nonneg l1). pose proof (zlen_nonneg l2). rewrite zslice_ok by (rewrite ?zlen_app; lia).
  change (Z.to_nat 0) with 0%nat. rewrite drop_0. unfold zlen. by rewrite Nat2Z.id, take_app_length.
Qed.

Lemma split_room {A} (room : list A) k : 0 <= k -> k + 1 <= zlen room ->
  exists l x tail, room = l ++ x :: tail /\ zlen l = k.
Proof.
  intros Hk Hr. destruct (firstn_split room k ltac:(lia)) as (l & r & -> & Hl). rewrite zlen_app in Hr.
  destruct r as [|x tail]; [rewrite zlen_nil in Hr; lia|]. by eexists l, x, tail.
Qed.

Lemma tb_attach_ok use_intel payload l x tail :
  let A := 8 * zlen payload in
  bytes_ok (payload ++ l ++ x :: tail) -> A < 2 ^ 30 -> zlen l = crc_len_of (crcType 1 A) ->
  exists a, tb_attach_crc use_intel crcTableInit (payload ++ l ++ x :: tail) A
    = Ok (a, payload ++ check_bytes (crcType 1 A) payload ++ [x], lenWithCrc 1 A).
Proof.
  intros A Hb HA Hl. pose proof (zlen_nonneg payload) as Hp. pose proof (zlen_nonneg tail) as Ht.
  assert (Z.shiftr A 3 = zlen payload) as Es.
  { unfold A. rewrite Z.shiftr_div_pow2 by lia. change (2 ^ 3) with 8. rewrite Z.mul_comm. apply Z.div_mul. lia. }
  assert (A / 8 = zlen payload) as Ed by (rewrite <- Es, Z.shiftr_div_pow2 by lia; done).
  assert (A = 8 * zlen payload) as EA8 by done. clearbody A.
  assert (i32 A = A) as Ei by (unfold i32; by rewrite (proj2 (Z.ltb_lt _ _)) by lia).
  assert (zlen (payload ++ l ++ x :: tail) = zlen payload + zlen l + zlen tail + 1) as Hlen by (rewrite !zlen_app, zlen_cons; lia).
  rewrite lenWithCrc_1. unfold tb_attach_crc. rewrite Ei, Es, Ed.
  unfold crcType in *. change (1 >? 1) with false in *. cbv iota in *.
  destruct (A >? NR_MAX_PDSCH_TBS) eqn:EA; zify_bool; cbn [crc_len_of] in *.
  - destruct l as [|x0 [|x1 [|x2 [|x3 l]]]]; try (unfold zlen in Hl; cbn in Hl; lia).
    unfold NR_MAX_PDSCH_TBS in *. rewrite (crc24a_ok use_intel) by (first [done|lia|apply readable_32; lia]).
    rewrite take_bits_app by lia. cbn [of_option mbind outcome_bind].
    set (c := crc_of_bits poly24a (bits_of payload)). rewrite (check_bytes_3 CRC24_A payload c eq_refl eq_refl).
    set (y0 := Z.land (Z.shiftr (Z.shiftr c 8) 16) 255). set (y1 := Z.land (Z.shiftr (Z.shiftr c 8) 8) 255).
    set (y2 := Z.land (Z.shiftr c 8) 255). cbn [app].
    rewrite zset_middle by lia. cbn [of_option mbind outcome_bind].
    rewrite zset_1 by (rewrite u32_small; lia). cbn [of_option mbind outcome_bind].
    rewrite zset_2 by (rewrite u32_small; lia). cbn [of_option mbind outcome_bind].
    change (payload ++ y0 :: y1 :: y2 :: x :: tail) with (payload ++ [y0; y1; y2; x] ++ tail). rewrite (app_assoc payload).
    rewrite (zslice_0_app (payload ++ [y0; y1; y2; x])) by (rewrite zlen_app; change (zlen [y0; y1; y2; x]) with 4; lia).
    cbn [of_option mbind outcome_bind]. rewrite i32_u32_small by lia. by eexists.
  - destruct l as [|x0 [|x1 [|x2 l]]]; try (unfold zlen in Hl; cbn in Hl; lia).
    rewrite crc16_ok by (first [done|lia]).
    rewrite take_bits_app by lia. cbn [of_option mbind outcome_bind].
    set (c := crc_of_bits poly16 (bits_of payload)). rewrite (check_bytes_2 payload c eq_refl).
    set (y0 := Z.land (Z.shiftr (Z.shiftr c 16) 8) 255). set (y1 := Z.land (Z.shiftr c 16) 255). cbn [app].
    rewrite zset_middle by lia. cbn [of_option mbind outcome_bind].
    rewrite zset_1 by (rewrite u32_small; lia). cbn [of_option mbind outcome_bind].
    change (payload ++ y0 :: y1 :: x :: tail) with (payload ++ [y0; y1; x] ++ tail). rewrite (app_assoc payload).
    rewrite (zslice_0_app (payload ++ [y0; y1; x])) by (rewrite zlen_app; change (zlen [y0; y1; x]) with 3; lia).
    cbn [of_option mbind outcome_bind]. rewrite i32_u32_small by lia. by eexists.
Qed.

(** ** When the code blocks are of equal length *)

Lemma exact_of_spec B BG z : 0 <= B <= 2 ^ 30 -> seg_spec B BG z -> B mod (8 * seg_C z) = 0 ->
  seg_exact z /\ 1 <= seg_C z < 2 ^ 20 /\ B = 8 * (seg_C z * data_bytes z).
Proof.
  intros HB (Hone & Hmany & _ & _ & _ & _ & _ & HK & HKcb & HF) Hmod. pose proof (Kcb_cases BG) as Hcb.
  destruct (Z.le_gt_cases B (seg_Kcb BG)) as [Hle|Hgt].
  - destruct (Hone Hle) as (HC & HL & HKp). rewrite HC in *. unfold seg_exact, data_bytes. rewrite HL, HC, HKp, Z.sub_0_r in *.
    change (8 * 1) with 8 in Hmod. pose proof (Z.div_mod B 8 ltac:(lia)). split_and!; try lia; first [lia|by right].
  - destruct (Hmany Hgt) as (HL & Hmin & HC & HKp). set (C := seg_C z) in *.
    pose proof (Z.div_mod B (8 * C) ltac:(lia)) as Hdm. rewrite Hmod in Hdm. set (q := B / (8 * C)) in *.
    assert (B / C = 8 * q) as Hq.
    { replace B with (8 * q * C) by lia. apply Z.div_mul. lia. }
    unfold seg_exact, data_bytes. fold C. rewrite HL, HKp, Hq in *. replace (8 * q + 24 - 24) with (q * 8) by lia.
    rewrite Z.mod_mul, Z.div_mul by lia. split_and!; try lia. left. nia.
Qed.

Lemma content_len z data out : seg_exact z -> zlen data = data_bytes z -> Z.shiftr (seg_K z) 3 <= zlen out ->
  zlen (block_content z data out) = zlen out.
Proof.
  intros Hz Hd Ho. destruct (exact_shift z Hz) as (_ & E2 & _ & Hk & Hle & _). unfold block_content.
  pose proof (zlen_nonneg (block_crc z [])). rewrite !zlen_app, block_crc_len, zlen_drop, E2 by lia.
  unfold zlen at 3. rewrite length_replicate. lia.
Qed.

Lemma content_bytes z data out : bytes_ok data -> bytes_ok out -> bytes_ok (block_content z data out).
Proof.
  intros Hd Ho. unfold block_content, block_crc. repeat (apply Forall_app; split).
  - done.
  - case_if; [apply check_bytes_ok|constructor].
  - apply Forall_replicate. unfold is_byte. lia.
  - by apply Forall_drop.
Qed.

(** ** What is checked of a code block *)

Section Block.
Context (use_intel : bool) (A BG : Z) (z : seg_sizes) (Hz : seg_exact z) (HC : 1 <= seg_C z < 2 ^ 20).
Context (HB : lenWithCrc 1 A = 8 * (seg_C z * data_bytes z)) (Hspec : seg_spec (lenWithCrc 1 A) BG z) (HA : 0 <= A < 2 ^ 30).

(** A transport block of more than one code block has 24 check bits. *)
Lemma many_long : 1 < seg_C z -> NR_MAX_PDSCH_TBS < A /\ lenWithCrc 1 A = A + 24.
Proof.
  intros H1. destruct Hspec as (Hone & _). pose proof (Kcb_cases BG) as Hcb.
  assert (seg_Kcb BG < lenWithCrc 1 A) as Hgt by (destruct (Z.le_gt_cases (lenWithCrc 1 A) (seg_Kcb BG)) as [H|H]; [apply Hone in H; lia|done]).
  unfold lenWithCrc in *. change (1 >? 1) with false in *. cbv iota in *. unfold NR_MAX_PDSCH_TBS in *. case_if; zify_bool; lia.
Qed.

Lemma block_check data out :
  zlen data = data_bytes z -> bytes_ok data -> bytes_ok out -> 1056 <= zlen out ->
  (seg_C z = 1 -> exists payload, data = payload ++ check_bytes (crcType 1 A) payload /\ A = 8 * zlen payload) ->
  check_crc use_intel crcTableInit (block_content z data out) (lenWithCrc (seg_C z) A) (crcType (seg_C z) A) = Ok 1.
Proof.
  intros Hdl Hd Ho Hol Hone. destruct (exact_shift z Hz) as (_ & _ & E3 & Hk & Hle & HK).
  pose proof (content_len z data out Hz Hdl ltac:(lia)) as Hcl. pose proof (content_bytes z data out Hd Ho) as Hcb.
  unfold block_content in *. destruct (Z.eq_dec (seg_C z) 1) as [H1|H1].
  - destruct (Hone H1) as (payload & -> & EA). rewrite H1 in *. unfold block_crc in *. rewrite H1 in *.
    change (1 >? 1) with false in *. cbv iota in *. rewrite app_nil_l in *. rewrite <- app_assoc in *.
    apply Forall_app in Hcb as [Hb1 Hb2]. apply Forall_app in Hb2 as [_ Hb2]. rewrite lenWithCrc_1 in *.
    rewrite zlen_app, check_bytes_len in Hdl.
    apply check_accepts; try done; [apply crcType_ok|lia|lia|].
    pose proof (zlen_nonneg (check_bytes (crcType 1 A) payload)) as Hp. rewrite check_bytes_len in Hp.
    apply readable_32; [|lia]. rewrite Hcl. apply Z.div_le_upper_bound; lia.
  - destruct (many_long ltac:(lia)) as [H24 HB24].
    unfold block_crc, crcType, lenWithCrc in *. rewrite (proj2 (Z.gtb_lt (seg_C z) 1)) in * by lia.
    assert ((A + 24 + 24 * seg_C z) ÷ seg_C z = 8 * (zlen data + crc_len_of CRC24_B)) as ->.
    { rewrite Z.quot_div_nonneg by lia. cbn [crc_len_of]. replace (A + 24 + 24 * seg_C z) with (8 * (zlen data + 3) * seg_C z) by lia.
      apply Z.div_mul. lia. }
    apply Forall_app in Hcb as [_ Hcb]. apply Forall_app in Hcb as [_ Hcb]. cbn [crc_len_of] in *.
    apply check_accepts; try done; [cbn [crc_len_of]; lia|].
    apply readable_32; [|lia]. rewrite Hcl. cbn [crc_len_of]. apply Z.div_le_upper_bound; lia.
Qed.
End Block.

(** ** The whole way *)

Section Way.
Context (use_intel : bool) (A BG : Z) (z : seg_sizes) (payload : list Z).
Context (Hz : seg_exact z) (HC : 1 <= seg_C z < 2 ^ 20) (Hspec : seg_spec (lenWithCrc 1 A) BG z).
Context (HB : lenWithCrc 1 A = 8 * (seg_C z * data_bytes z)) (HA : A = 8 * zlen payload) (HA30 : A < 2 ^ 30).
Context (Hp : bytes_ok payload).
Definition tb : list Z := payload ++ check_bytes (crcType 1 A) payload.

Lemma tb_len : zlen tb = seg_C z * data_bytes z.
Proof. unfold tb. rewrite zlen_app, check_bytes_len. pose proof (lenWithCrc_1 A). lia. Qed.

Lemma tb_bytes : bytes_ok tb.
Proof. apply Forall_app. split; [done|apply check_bytes_ok]. Qed.

Definition piece (b : list Z) (r : nat) : list Z := take (Z.to_nat (data_bytes z)) (drop (r * Z.to_nat (data_bytes z)) b).

Lemma piece_len x r : (r < Z.to_nat (seg_C z))%nat -> zlen (piece (tb ++ [x]) r) = data_bytes z.
Proof.
  intros Hr. destruct (exact_shift z Hz) as (_ & _ & _ & Hk & _). pose proof tb_len as Hl.
  unfold piece, zlen in *. rewrite length_take, length_drop, length_app. nia.
Qed.

Lemma pieces_tb x : mjoin (piece (tb ++ [x]) <$> seq 0 (Z.to_nat (seg_C z))) = tb.
Proof.
  pose proof tb_len as Hl. transitivity (mjoin (chunks (Z.to_nat (seg_C z)) (Z.to_nat (data_bytes z)) (tb ++ [x]))).
  - f_equal. apply list_eq. intros r. rewrite list_lookup_fmap. destruct (Nat.lt_ge_cases r (Z.to_nat (seg_C z))) as [H|H].
    + rewrite lookup_seq_lt, chunks_lookup by done. done.
    + rewrite lookup_seq_ge, lookup_ge_None_2 by (rewrite ?chunks_len; done). done.
  - destruct (exact_shift z Hz) as (_ & _ & _ & Hk & _).
    rewrite chunks_join. apply take_app_length'. unfold zlen in Hl. nia.
Qed.

(** What is collected is accepted. *)
Lemma final_ack b : zslice b 0 (zlen tb) = Some tb -> bytes_ok b ->
  final use_intel false z A b = Ok (harq_of z b (seg_C z), Some Ack).
Proof.
  intros Hb Hbb. apply zslice_Some in Hb as (_ & _ & Hlen & Hb). pose proof (lenWithCrc_1 A) as HL.
  unfold final. destruct (seg_C z >? 1) eqn:EC; [|done]. zify_bool.
  destruct (many_long A BG z HB Hspec EC) as [H24 H24']. unfold NR_MAX_PDSCH_TBS in *.
  assert (b = payload ++ check_bytes (crcType 1 A) payload ++ drop (Z.to_nat (zlen tb)) b) as Eb.
  { rewrite app_assoc. fold tb. rewrite Hb at 1. change (Z.to_nat 0) with 0%nat. by rewrite drop_0, take_drop. }
  assert (readable use_intel b (lenWithCrc 1 A - 8 * crc_len_of (crcType 1 A))) as Hread.
  { pose proof (zlen_nonneg (check_bytes (crcType 1 A) payload)) as Hcl. unfold tb in Hlen.
    rewrite zlen_app in Hlen. apply readable_32; [|lia]. apply Z.div_le_upper_bound; lia. }
  rewrite Eb in Hread. rewrite Eb at 1.
  by rewrite check_accepts by (first [apply crcType_ok|by apply Forall_drop|exact Hread|done|lia]).
Qed.
End Way.

(** The bytes of the buffer after the collection. *)
Lemma bytes_ok_split (l : list Z) k t : zslice l 0 k = Some t -> bytes_ok t ->
  (forall s, zslice l k (zlen l - k) = Some s -> bytes_ok s) -> bytes_ok l.
Proof.
  intros H Ht Hs. apply zslice_Some in H as (_ & Hk & Hl & ->). change (Z.to_nat 0) with 0%nat in Ht. rewrite drop_0 in Ht.
  rewrite <- (take_drop (Z.to_nat k) l). apply Forall_app. split; [done|]. apply Hs. rewrite zslice_ok by lia. f_equal.
  apply take_ge. rewrite length_drop. unfold zlen. lia.
Qed.

Section Ordered.
Context (use_intel : bool) (A BG : Z) (z : seg_sizes) (payload : list Z).
Context (Hz : seg_exact z) (HC : 1 <= seg_C z < 2 ^ 20) (Hspec : seg_spec (lenWithCrc 1 A) BG z).
Context (HB : lenWithCrc 1 A = 8 * (seg_C z * data_bytes z)) (HA : A = 8 * zlen payload) (HA30 : A < 2 ^ 30).
Context (Hp : bytes_ok payload).

Lemma collect_all b0 x (c : nat -> list Z) rs :
  bytes_ok b0 -> zlen (tb A payload) <= zlen b0 ->
  (forall r, Z.of_nat r < seg_C z -> exists rest, c r = piece z (tb A payload ++ [x]) r ++ rest) ->
  rs ≡ₚ seq 0 (Z.to_nat (seg_C z)) ->
  exists h, collect use_intel crcTableInit false A (harq_of z b0 0) (block_of c <$> rs) = Ok (h, Some Ack) /\
    zslice (h_b h) 0 (zlen (tb A payload)) = Some (tb A payload).
Proof.
  intros Hb0 Hroom Hc Hrs. pose proof (tb_len A z payload HB HA) as Htl.
  destruct (exact_shift z Hz) as (_ & _ & _ & Hk & _).
  assert (zlen rs = seg_C z) as Hlrs by (unfold zlen; rewrite Hrs, length_seq; lia).
  assert (forall r, r ∈ rs <-> Z.of_nat r < seg_C z) as Hin.
  { intros r. rewrite Hrs, elem_of_seq. lia. }
  destruct (collect_ok use_intel false z A Hz HC c (piece z (tb A payload ++ [x])) rs b0 0) as (b' & Hcol & Hl' & Hread & Hrest).
  - intros ->. rewrite zlen_nil in Hlrs. lia.
  - rewrite Hrs. apply NoDup_seq.
  - lia.
  - lia.
  - intros r Hr. apply Hin in Hr. split; [done|]. destruct (Hc r Hr) as [rest ->]. apply zslice_0_app.
    unfold dk. symmetry. apply piece_len; try done. lia.
  - unfold dk. lia.
  - unfold dk in *.
    assert (zslice b' 0 (zlen (tb A payload)) = Some (tb A payload)) as Htb.
    { rewrite Htl. rewrite <- (pieces_tb A z payload Hz HC HB HA x).
      rewrite <- (Z2Nat.id (seg_C z)) at 1 by lia. apply pieces_join; [lia|intros r Hr|lia].
      rewrite Hread by lia. by rewrite bool_decide_true by (apply Hin; lia). }
    exists (harq_of z b' (seg_C z)). rewrite Hcol. split; [|exact Htb].
    apply final_ack with (BG := BG) (payload := payload); try done.
    apply (bytes_ok_split _ _ _ Htb); [by apply tb_bytes|]. intros s Hs. rewrite Hrest in Hs by lia.
    apply zslice_Some in Hs as (_ & _ & _ & ->). by apply Forall_take, Forall_drop.
Qed.
End Ordered.

(** The blocks of the code: the pieces with check bytes and filler. *)
Lemma segments_ok use_intel A BG z payload x outs :
  seg_exact z -> 1 <= seg_C z < 2 ^ 20 -> seg_spec (lenWithCrc 1 A) BG z ->
  lenWithCrc 1 A = 8 * (seg_C z * data_bytes z) -> A = 8 * zlen payload -> A < 2 ^ 30 ->
  nr_segmentation_sizes (lenWithCrc 1 A) BG = Some z -> bytes_ok payload -> is_byte x ->
  zlen outs = seg_C z -> Forall (fun out => bytes_ok out /\ 1056 <= zlen out) outs ->
  exists cs, nr_segmentation use_intel crcTableInit (Some (tb A payload ++ [x])) (Some outs) (lenWithCrc 1 A) BG
      = Ok (seg_Kb z, Some z, Some cs) /\ zlen cs = seg_C z /\
    forall r, (r < Z.to_nat (seg_C z))%nat -> exists out, bytes_ok out /\ 1056 <= zlen out /\
      nth r cs [] = block_content z (piece z (tb A payload ++ [x]) r) out.
Proof.
  intros Hz HC Hspec HB HA HA30 Hsz Hp Hx Hlo Hout. destruct (exact_shift z Hz) as (_ & _ & _ & Hk & _ & HK).
  pose proof (tb_len A z payload HB HA) as Htl. pose proof (tb_bytes A payload Hp) as Htb.
  unfold nr_segmentation. rewrite Hsz.
  assert (length outs = Z.to_nat (seg_C z)) as Hlo' by (unfold zlen in Hlo; lia).
  rewrite (seg_loop_ok use_intel z); try done; try lia.
  - cbn [mbind outcome_bind]. change (Z.to_nat 0) with 0%nat. rewrite drop_0, (drop_ge outs), app_nil_r by lia.
    eexists. split; [reflexivity|]. split; [unfold zlen; rewrite length_zip_with, chunks_len; lia|].
    intros r Hr. destruct (lookup_lt_is_Some_2 outs r ltac:(lia)) as [out Ho].
    rewrite Forall_lookup in Hout. destruct (Hout _ _ Ho) as [Ho1 Ho2]. exists out. split_and!; [done|done|].
    apply nth_lookup_Some. by rewrite lookup_zip_with, chunks_lookup, Ho by done.
  - apply Forall_app. split; [done|by constructor].
  - eapply Forall_impl; [exact Hout|]. cbn. intros out [? ?]. split; [done|lia].
  - rewrite zlen_app, Htl. change (zlen [x]) with 1. lia.
  - rewrite zlen_app, Htl. change (zlen [x]) with 1. nia.
Qed.

(** C29: a transport block of whole bytes gets the sizes the standard asks for
    (the least number of code blocks, the least lifting size in which one fits,
    the filler), unless there are more code blocks than the allocation may have.
    When they divide it evenly, its CRC is attached and it is
    divided; the decoder's check of every code block passes; and collected in
    any order in which the decoders finish, the blocks are acknowledged, with
    the payload and its CRC in the buffer.  Nothing is acknowledged, whatever
    the blocks, before each of them has come back decoded. *)
Theorem transport_block_roundtrip (use_intel : bool) (payload room : list Z) (BG nb_rb n_layers : Z) (b0 : list Z) :
  let A := 8 * zlen payload in
  let B := lenWithCrc 1 A in
  bytes_ok (payload ++ room) -> crc_len_of (crcType 1 A) + 1 <= zlen room -> B <= 2 ^ 30 ->
  bytes_ok b0 -> B <= 8 * zlen b0 ->
  exists z h0, nr_segmentation_sizes B BG = Some z /\ seg_spec B BG z /\
    ulsch_start b0 A BG nb_rb n_layers = (if too_many_segments (seg_C z) nb_rb n_layers then None else Some h0) /\
    (forall outs, B mod (8 * seg_C z) = 0 -> zlen outs = seg_C z ->
       Forall (fun out => bytes_ok out /\ 1056 <= zlen out) outs ->
       exists a b cs,
         tb_attach_crc use_intel crcTableInit (payload ++ room) A = Ok (a, b, B) /\
         nr_segmentation use_intel crcTableInit (Some b) (Some outs) B BG = Ok (seg_Kb z, Some z, Some cs) /\
         zlen cs = seg_C z /\
         (forall r, (r < Z.to_nat (seg_C z))%nat ->
            check_crc use_intel crcTableInit (nth r cs []) (lenWithCrc (seg_C z) A) (crcType (seg_C z) A) = Ok 1) /\
         (forall rs, rs ≡ₚ seq 0 (Z.to_nat (seg_C z)) ->
            exists h, collect use_intel crcTableInit false A h0 ((fun r => (r, true, nth r cs [])) <$> rs) = Ok (h, Some Ack) /\
              zslice (h_b h) 0 (B / 8) = Some (payload ++ check_bytes (crcType 1 A) payload))) /\
    (forall dtx blocks h, zlen blocks < 2 ^ 32 ->
       collect use_intel crcTableInit dtx A h0 blocks = Ok (h, Some Ack) ->
       exists decoded rest, blocks = decoded ++ rest /\ zlen decoded = seg_C z /\ Forall (fun b => snd (fst b) = true) decoded).
Proof.
  intros A B Hb Hroom HB30 Hb0 Hlb0. pose proof (zlen_nonneg payload) as Hpn.
  pose proof (lenWithCrc_1 A) as HL. pose proof (zlen_nonneg (check_bytes (crcType 1 A) payload)) as Hcl.
  rewrite check_bytes_len in Hcl. assert (0 <= A < 2 ^ 30) as HA.
  { unfold A in *. destruct (len_cases (crcType 1 (8 * zlen payload)) (8 * 3)) as [H1 H3]; [apply crcType_ok|..]; try (unfold B in *; lia).
    unfold crcType. by repeat case_if. }
  destruct (sizes_ok B BG ltac:(lia)) as (z & Hsz & Hspec). exists z, (harq_of z b0 0).
  split_and!; [done|done|unfold ulsch_start; fold B; by rewrite Hsz|intros outs Hmod Hlo Hout|].
  - destruct (exact_of_spec B BG z ltac:(lia) Hspec Hmod) as (Hz & HC & HBz).
    destruct (split_room room _ Hcl Hroom) as (l & x & tail & -> & Hl).
    destruct (tb_attach_ok use_intel payload l x tail Hb ltac:(lia) Hl) as [a Ha].
    apply Forall_app in Hb as [Hp Hb]. apply Forall_app in Hb as [_ Hb]. apply Forall_cons in Hb as [Hx _].
    destruct (segments_ok use_intel A BG z payload x outs Hz HC Hspec HBz eq_refl ltac:(lia) Hsz Hp Hx Hlo Hout) as (cs & Hcs & Hlc & Hcont).
    pose proof (tb_len A z payload HBz eq_refl) as Htl. pose proof (tb_bytes A payload Hp) as Htb.
    exists a, (tb A payload ++ [x]), cs. split_and!; [unfold tb; rewrite <- app_assoc; exact Ha|exact Hcs|exact Hlc| |].
    + intros r Hr. destruct (Hcont r Hr) as (out & Ho & Hol & ->).
      apply (block_check use_intel A BG); try done.
      * apply (piece_len A z payload); try done; lia.
      * apply Forall_take, Forall_drop, Forall_app. split; [done|by constructor].
      * intros H1. exists payload. split; [|done]. rewrite H1 in Hr. assert (r = 0%nat) as -> by (change (Z.to_nat 1) with 1%nat in Hr; lia).
        unfold piece. rewrite Nat.mul_0_l, drop_0. rewrite take_app_length' by (unfold zlen in Htl; lia). done.
    + intros rs Hrs. destruct (collect_all use_intel A BG z payload Hz HC Hspec HBz eq_refl ltac:(lia) Hp b0 x (fun r => nth r cs []) rs)
        as (h & Hh & Hslice); try done; [lia| |].
      * intros r Hr. destruct (Hcont r ltac:(lia)) as (out & _ & _ & ->). by eexists.
      * exists h. split; [exact Hh|]. rewrite HBz, Z.mul_comm, Z.div_mul, <- Htl by lia. exact Hslice.
  - intros dtx blocks h Hlt Hcol. apply collect_ack in Hcol as (_ & _ & decoded & rest & -> & Hall & Hcount).
    exists decoded, rest. cbn [harq_of h_processed h_C] in Hcount. rewrite zlen_app in Hlt. pose proof (zlen_nonneg rest).
    split_and!; [done| |done]. rewrite <- Hcount by lia. lia.
Qed.

(** Three code blocks that come back in the order 2, 0, 1. *)
Lemma transport_block_roundtrip_witness :
  let payload := replicate 954 7 in
  exists h0 cs h, ulsch_start (replicate 957 0) 7632 2 20 1 = Some h0 /\ zlen cs = 3 /\
    collect true crcTableInit false 7632 h0 [(2%nat, true, nth 2 cs []); (0%nat, true, nth 0 cs []); (1%nat, true, nth 1 cs [])]
      = Ok (h, Some Ack) /\
    zslice (h_b h) 0 957 = Some (payload ++ check_bytes CRC24_A payload).
Proof.
  intros payload.
  assert (forall n b, is_byte b -> bytes_ok (replicate n b)) as Hrep by (intros n b Hb; by apply Forall_replicate).
  assert (is_byte 0 /\ is_byte 7) as [B0 B7] by (unfold is_byte; lia).
  edestruct (transport_block_roundtrip true payload (replicate 4 0) 2 20 1 (replicate 957 0)) as (z & h0 & Hz & _ & Hh0 & H & _).
  - apply Forall_app. split; by apply Hrep.
  - vm_compute. discriminate.
  - vm_compute. discriminate.
  - by apply Hrep.
  - vm_compute. discriminate.
  - assert (seg_C z = 3) as HC by (vm_compute in Hz; inversion Hz; reflexivity).
    edestruct (H (replicate 3 (replicate 1056 0))) as (a & b & cs & _ & _ & Hcs & _ & Hcol).
    + rewrite HC. vm_compute. reflexivity.
    + rewrite HC. reflexivity.
    + apply Forall_replicate. split; [by apply Hrep|]. vm_compute. discriminate.
    + rewrite HC in Hcs. destruct (Hcol [2; 0; 1]%nat) as (h & Hh & Hsl).
      { rewrite HC. change (seq 0 (Z.to_nat 3)) with [0; 1; 2]%nat. exact (Permutation_cons_append [0; 1]%nat 2%nat). }
      exists h0, cs, h. rewrite HC in Hh0. split_and!; [exact Hh0|exact Hcs|exact Hh|exact Hsl].
Defined.
