(* ===== verification/NrTbs.v ===== *)
(** * Transport block sizes
      (LAYER2/NR_MAC_COMMON/nr_compute_tbs_common.c, nr_mac_common.c)

    The size the MAC chooses for an allocation, the base graph, and what they
    promise to the segmentation of the PHY: code blocks of equal length. *)

From S2P Require Import Prelude Crc NrSegmentation NrSegSizes.

Definition Tbstable_nr : list Z :=
  [24; 32; 40; 48; 56; 64; 72; 80; 88; 96; 104; 112; 120; 128; 136; 144; 152; 160; 168;
   176; 184; 192; 208; 224; 240; 256; 272; 288; 304; 320; 336; 352; 368; 384; 408; 432; 456; 480;
   504; 528; 552; 576; 608; 640; 672; 704; 736; 768; 808; 848; 888; 928; 984; 1032; 1064; 1128; 1160;
   1192; 1224; 1256; 1288; 1320; 1352; 1416; 1480; 1544; 1608; 1672; 1736; 1800; 1864; 1928; 2024; 2088; 2152; 2216;
   2280; 2408; 2472; 2536; 2600; 2664; 2728; 2792; 2856; 2976; 3104; 3240; 3368; 3496; 3624; 3752; 3824].

Definition NPRB_LBRM : list Z := [32; 66; 107; 135; 162; 217; 273].

Definition CEILIDIV (a b : Z) : Z := u32 (u32 (a + b) - 1) / b.
Definition ROUNDIDIV (a b : Z) : Z := u32 (u32 (Z.shiftl a 1) + b) / u32 (Z.shiftl b 1).

(** The first entry of a table that is at least [x]; the variable keeps its 0
    when there is none. *)
Definition first_at_least (table : list Z) (x : Z) : Z :=
  default 0 (head (filter (fun y => y >= x) table)).

(** The size for [Ninfo] bits of information.  log2 is used where its floor is
    taken at once: [Z.log2], also for 0, where max takes the other argument. *)
Definition tbs_of_info (R R_quarter Ninfo : Z) : Z :=
  if Ninfo <=? NR_MAX_PDSCH_TBS then
    let n := Z.max 3 (Z.log2 Ninfo - 6) in
    let Np_info := Z.max 24 (u32 (Z.shiftl (Z.shiftr Ninfo n) n)) in
    first_at_least Tbstable_nr Np_info
  else
    let n := Z.log2 (Ninfo - 24) - 5 in
    let Np_info := Z.max 3840 (u32 (Z.shiftl (ROUNDIDIV (Ninfo - 24) (Z.shiftl 1 n)) n)) in
    if R <=? R_quarter then
      let C := CEILIDIV (u32 (Np_info + 24)) 3816 in
      u32 (u32 (u32 (Z.shiftl C 3) * CEILIDIV (u32 (Np_info + 24)) (u32 (Z.shiftl C 3))) - 24)
    else if Np_info >? 8424 then
      let C := CEILIDIV (u32 (Np_info + 24)) 8424 in
      u32 (u32 (u32 (Z.shiftl C 3) * CEILIDIV (u32 (Np_info + 24)) (u32 (Z.shiftl C 3))) - 24)
    else u32 (u32 (Z.shiftl (CEILIDIV (u32 (Np_info + 24)) 8) 3) - 24).

(** Bits of information of an allocation. *)
Definition tbs_info (Qm R nb_rb nb_symb_sch nb_dmrs_prb nb_rb_oh tb_scaling Nl : Z) : Z :=
  let nbp_re := u32 (12 * nb_symb_sch - nb_dmrs_prb - nb_rb_oh) in
  let nb_re := u32 (Z.min 156 nbp_re * nb_rb) in
  let R_5 := Z.quot R 5 in
  Z.shiftr (Z.shiftr (u32 (u32 (u32 (nb_re * R_5) * Qm) * Nl)) 11) tb_scaling.

Definition nr_compute_tbs (Qm R nb_rb nb_symb_sch nb_dmrs_prb nb_rb_oh tb_scaling Nl : Z) : Z :=
  tbs_of_info R 2560 (tbs_info Qm R nb_rb nb_symb_sch nb_dmrs_prb nb_rb_oh tb_scaling Nl).

(** The size that limits the circular buffer of rate matching. *)
Definition nr_compute_tbslbrm (table nb_rb Nl : Z) : Z :=
  let nb_rb_lbrm := first_at_least NPRB_LBRM nb_rb in
  let Qm := if table =? 1 then 8 else 6 in
  let R := 948 in
  let nb_re := u16 (156 * nb_rb_lbrm) in
  tbs_of_info R 256 (u32 (Z.shiftr (i32 (u32 (nb_re * R * Qm * Nl))) 10)).

(** The comparisons of a [float] with 0.6667 and 0.25, as fractions: no
    [uint16_t] over 10240 is close enough to either for the rounding to matter. *)
Definition get_BG (A R : Z) : Z :=
  if (A <=? 292) || ((A <=? NR_MAX_PDSCH_TBS) && (R * 10000 <=? 6667 * 10240)) || (R * 4 <=? 10240) then 2 else 1.

(** ** The size fits the segmentation *)

Lemma table_facts x : x <= 3824 -> let A := first_at_least Tbstable_nr x in
  24 <= A <= 3824 /\ A mod 8 = 0 /\ x <= A /\ A ∈ Tbstable_nr /\ forall y, y ∈ Tbstable_nr -> x <= y -> A <= y.
Proof.
  intros Hx. unfold first_at_least.
  assert (forall l : list Z, StronglySorted Z.le l -> (exists y, y ∈ l /\ x <= y) ->
    let A := default 0 (head (filter (fun y => y >= x) l)) in A ∈ l /\ x <= A /\ forall y, y ∈ l -> x <= y -> A <= y) as Hhead.
  { intros l Hs. induction Hs as [|a l Hs IH Ha]; intros (y & Hy & Hxy); [by apply not_elem_of_nil in Hy|].
    rewrite filter_cons. destruct (decide (a >= x)) as [Hge|Hlt].
    - cbn. split_and!; [left|lia|]. intros y' [->|Hy']%elem_of_cons _; [lia|]. rewrite Forall_forall in Ha. by apply Ha.
    - apply elem_of_cons in Hy as [->|Hy]; [lia|]. destruct (IH (ex_intro _ y (conj Hy Hxy))) as (H1 & H2 & H3).
      cbv zeta. split_and!; [by right|done|]. intros y' [->|Hy']%elem_of_cons Hxy'; [lia|]. by apply H3. }
  assert (StronglySorted Z.le Tbstable_nr) as Hsorted.
  { apply Sorted_StronglySorted; [intros ? ? ?; apply Z.le_trans|]. unfold Tbstable_nr. repeat constructor; lia. }
  destruct (Hhead Tbstable_nr Hsorted) as (Hin & Hle & Hmin).
  { exists 3824. split; [|done]. apply (bool_decide_unpack _). vm_compute. exact I. }
  cbv zeta. assert (Forall (fun y => 24 <= y <= 3824 /\ y mod 8 = 0) Tbstable_nr) as Hall.
  { unfold Tbstable_nr. repeat constructor; try lia. }
  rewrite Forall_forall in Hall. destruct (Hall _ Hin) as [H1 H2]. split_and!; (done || lia).
Qed.

Lemma CEILIDIV_ok a b : 0 <= a < 2 ^ 31 -> 0 < b < 2 ^ 31 -> 0 < a + b ->
  CEILIDIV a b = (a + b - 1) / b /\ a <= b * CEILIDIV a b < a + b.
Proof.
  intros Ha Hb Hab. unfold CEILIDIV. rewrite (u32_small (a + b)), u32_small by lia.
  pose proof (Z.div_mod (a + b - 1) b ltac:(lia)). pose proof (Z.mod_pos_bound (a + b - 1) b ltac:(lia)). split; [done|]. lia.
Qed.

(** Cut into [C] blocks of whole bytes, a size rounded up stays within the
    blocks, whose capacity [M] is a number of bytes. *)
Lemma round_up_ok P M : 0 < P < 2 ^ 26 -> M = 3816 \/ M = 8424 ->
  let C := CEILIDIV P M in
  let B := C * 8 * CEILIDIV P (C * 8) in
  u32 (u32 (Z.shiftl C 3) * CEILIDIV P (u32 (Z.shiftl C 3))) = B /\
  1 <= C < 2 ^ 20 /\ (C - 1) * M < P <= B /\ B <= C * M /\ B < P + C * 8.
Proof.
  intros HP HM C B. destruct (CEILIDIV_ok P M ltac:(lia) ltac:(lia) ltac:(lia)) as [_ HC]. fold C in HC.
  assert (1 <= C < 2 ^ 20) as HC1 by lia.
  destruct (CEILIDIV_ok P (C * 8) ltac:(lia) ltac:(lia) ltac:(lia)) as [E Hq]. set (q := CEILIDIV P (C * 8)) in *.
  assert (Z.shiftl C 3 = C * 8) as Es by (rewrite Z.shiftl_mul_pow2 by lia; done).
  assert (B = C * 8 * q) as EB by done. clearbody B.
  assert (B <= C * M).
  { assert (q <= M / 8) by (destruct HM as [-> | ->]; [change (3816 / 8) with 477|change (8424 / 8) with 1053]; nia).
    destruct HM as [-> | ->]; [change (3816 / 8) with 477 in *|change (8424 / 8) with 1053 in *]; nia. }
  split_and!; try lia. rewrite Es, (u32_small (C * 8)) by lia. fold q. rewrite u32_small by nia. done.
Qed.

(** The rounded number of bits. *)
Lemma np_info_ok Ninfo : NR_MAX_PDSCH_TBS < Ninfo < 2 ^ 21 ->
  let n := Z.log2 (Ninfo - 24) - 5 in
  let Np := Z.max 3840 (u32 (Z.shiftl (ROUNDIDIV (Ninfo - 24) (Z.shiftl 1 n)) n)) in 3840 <= Np < 2 ^ 22.
Proof.
  intros Hi n Np. unfold NR_MAX_PDSCH_TBS in Hi. split; [lia|].
  assert (6 <= n <= 15) as Hn.
  { assert (11 <= Z.log2 (Ninfo - 24)) by (apply (Z.log2_le_mono 2048); lia).
    assert (Z.log2 (Ninfo - 24) <= 20) by (apply Z.lt_succ_r; change (Z.succ 20) with 21; apply Z.log2_lt_pow2; lia). lia. }
  unfold Np. apply Z.max_lub_lt; [lia|]. unfold ROUNDIDIV.
  assert (64 <= 2 ^ n <= 32768) as Hp by (change 64 with (2 ^ 6); change 32768 with (2 ^ 15); split; apply Z.pow_le_mono_r; lia).
  rewrite !(Z.shiftl_mul_pow2 _ n), !(Z.shiftl_mul_pow2 _ 1) by lia. rewrite Z.mul_1_l. change (2 ^ 1) with 2.
  rewrite (u32_small ((Ninfo - 24) * 2)), (u32_small ((Ninfo - 24) * 2 + 2 ^ n)), (u32_small (2 ^ n * 2)) by lia.
  set (x := (Ninfo - 24) * 2 + 2 ^ n). pose proof (Z.div_mod x (2 ^ n * 2) ltac:(lia)) as Hdm.
  pose proof (Z.mod_pos_bound x (2 ^ n * 2) ltac:(lia)) as Hm. pose proof (Z.div_pos x (2 ^ n * 2) ltac:(lia) ltac:(lia)) as Hk. set (k := x / _) in *. set (m := x mod _) in *. clearbody k m. assert (k * 2 ^ n * 2 <= x) by lia. unfold x in *. clear x. assert (0 <= k * 2 ^ n) by (apply Z.mul_nonneg_nonneg; lia). rewrite u32_small; lia.
Qed.

(** What the segmentation makes of a size computed for rate [R]. *)
Definition tbs_even (A BG : Z) : Prop :=
  24 <= A < 2 ^ 25 /\ A mod 8 = 0 /\
  exists z, nr_segmentation_sizes (lenWithCrc 1 A) BG = Some z /\ lenWithCrc 1 A mod (8 * seg_C z) = 0.

(** One block, or the number of blocks that the size was computed for. *)
Lemma even_one A BG : 24 <= A < 2 ^ 25 -> A mod 8 = 0 -> lenWithCrc 1 A <= seg_Kcb BG -> tbs_even A BG.
Proof.
  intros HA Hmod Hle. split_and!; [lia..|]. unfold lenWithCrc in *. change (1 >? 1) with false in *. cbv iota in *.
  destruct (sizes_ok (A + (if A >? NR_MAX_PDSCH_TBS then 24 else 16)) BG ltac:(case_if; lia)) as (z & Hz & Hone & _).
  exists z. split; [done|]. destruct (Hone Hle) as (-> & _ & _). change (8 * 1) with 8.
  case_if; rewrite <- (Z.add_mod_idemp_l A), Hmod by lia; reflexivity.
Qed.

Lemma even_many A BG C q : NR_MAX_PDSCH_TBS < A < 2 ^ 25 -> A + 24 = C * 8 * q -> 0 < C ->
  (C - 1) * (seg_Kcb BG - 24) < A + 24 <= C * (seg_Kcb BG - 24) -> seg_Kcb BG < A + 24 -> tbs_even A BG.
Proof.
  unfold NR_MAX_PDSCH_TBS. intros HA EB HC HCB Hgt.
  assert (lenWithCrc 1 A = A + 24) as HL.
  { unfold lenWithCrc, NR_MAX_PDSCH_TBS. change (1 >? 1) with false. cbv iota. by rewrite (proj2 (Z.gtb_lt _ _)) by lia. }
  split_and!; try lia.
  - replace A with (0 + (C * q - 3) * 8) by lia. by rewrite Z.mod_add by lia.
  - rewrite HL. destruct (sizes_ok (A + 24) BG ltac:(lia)) as (z & Hz & _ & Hmany & _). exists z. split; [done|].
    destruct (Hmany Hgt) as (_ & Hmin & HzC & _). pose proof (Kcb_cases BG) as Hcb.
    assert (seg_C z = C) as -> by (destruct Hcb as [E|E]; rewrite E in *; nia).
    rewrite EB. replace (C * 8 * q) with (q * (8 * C)) by lia. apply Z.mod_mul. lia.
Qed.

(** The base graph of a large block. *)
Lemma get_BG_1 A R : NR_MAX_PDSCH_TBS < A -> 2560 < R -> get_BG A R = 1.
Proof.
  unfold NR_MAX_PDSCH_TBS. intros HA HR. unfold get_BG, NR_MAX_PDSCH_TBS.
  rewrite (proj2 (Z.leb_gt A 292)), (proj2 (Z.leb_gt A 3824)), (proj2 (Z.leb_gt (R * 4) _)) by lia. done.
Qed.
Lemma get_BG_2 A R : R <= 2560 -> get_BG A R = 2.
Proof. intros HR. unfold get_BG. rewrite (proj2 (Z.leb_le (R * 4) _)) by lia. by rewrite !orb_true_r. Qed.

(** C31: the transport block size the MAC computes is a positive number of
    bytes for any arguments, and with the base graph the MAC chooses for it and
    its rate, the segmentation of the PHY divides it with its CRC into code
    blocks of equal numbers of bytes: nothing is left over.  A size below the
    limit is the least of the table that holds the bits of information. *)
Theorem tbs_fits_segmentation (Qm R nb_rb nb_symb_sch nb_dmrs_prb nb_rb_oh tb_scaling Nl : Z) :
  0 <= tb_scaling ->
  let A := nr_compute_tbs Qm R nb_rb nb_symb_sch nb_dmrs_prb nb_rb_oh tb_scaling Nl in
  let Ninfo := tbs_info Qm R nb_rb nb_symb_sch nb_dmrs_prb nb_rb_oh tb_scaling Nl in
  24 <= A < 2 ^ 25 /\ A mod 8 = 0 /\
  (exists z, nr_segmentation_sizes (lenWithCrc 1 A) (get_BG A R) = Some z /\ lenWithCrc 1 A mod (8 * seg_C z) = 0) /\
  (Ninfo <= NR_MAX_PDSCH_TBS -> A ∈ Tbstable_nr /\
     forall y, y ∈ Tbstable_nr -> Z.max 24 (Ninfo - Ninfo mod 2 ^ Z.max 3 (Z.log2 Ninfo - 6)) <= y -> A <= y) /\
  (NR_MAX_PDSCH_TBS < Ninfo -> NR_MAX_PDSCH_TBS < A).
Proof.
  intros Hts A Ninfo.
  assert (0 <= Ninfo < 2 ^ 21) as Hi.
  { unfold Ninfo, tbs_info. set (x := u32 (_ * Nl)). pose proof (u32_range (u32 (u32 (u32 (Z.min 156 (u32 (12 * nb_symb_sch - nb_dmrs_prb - nb_rb_oh)) * nb_rb) * Z.quot R 5) * Qm) * Nl)) as Hx.
    fold x in Hx. rewrite !Z.shiftr_div_pow2 by lia. pose proof (Z.pow_pos_nonneg 2 tb_scaling ltac:(lia) Hts) as Hp.
    assert (0 <= x / 2 ^ 11 < 2 ^ 21) as H1 by (split; [apply Z.div_pos; lia|apply Z.div_lt_upper_bound; lia]).
    split; [apply Z.div_pos; lia|]. apply Z.div_lt_upper_bound; [done|]. nia. }
  unfold A, nr_compute_tbs. fold Ninfo. clearbody Ninfo. unfold tbs_of_info.
  destruct (Ninfo <=? NR_MAX_PDSCH_TBS) eqn:EN; zify_bool.
  - set (n := Z.max 3 (Z.log2 Ninfo - 6)).
    assert (u32 (Z.shiftl (Z.shiftr Ninfo n) n) = Ninfo - Ninfo mod 2 ^ n) as ->.
    { rewrite Z.shiftl_mul_pow2, Z.shiftr_div_pow2 by lia. pose proof (Z.pow_pos_nonneg 2 n ltac:(lia) ltac:(lia)) as Hp.
      pose proof (Z.div_mod Ninfo (2 ^ n) ltac:(lia)) as Hdm. pose proof (Z.mod_pos_bound Ninfo (2 ^ n) Hp).
      pose proof (Z.div_pos Ninfo (2 ^ n) ltac:(lia) Hp). rewrite u32_small by nia. lia. }
    pose proof (Z.mod_pos_bound Ninfo (2 ^ n) ltac:(apply Z.pow_pos_nonneg; lia)) as Hm.
    unfold NR_MAX_PDSCH_TBS in EN.
    destruct (table_facts (Z.max 24 (Ninfo - Ninfo mod 2 ^ n)) ltac:(lia)) as (H1 & H2 & H3 & H4 & H5).
    set (a := first_at_least _ _) in *.
    destruct (even_one a (get_BG a R)) as (E1 & E2 & E3).
    + lia.
    + done.
    + unfold lenWithCrc, NR_MAX_PDSCH_TBS. change (1 >? 1) with false. cbv iota. pose proof (Kcb_cases (get_BG a R)). case_if; zify_bool; lia.
    + split_and!; try done; unfold NR_MAX_PDSCH_TBS; lia.
  - pose proof (np_info_ok Ninfo ltac:(lia)) as HNp. cbv zeta in *. set (Np := Z.max 3840 _) in *. clearbody Np.
    unfold NR_MAX_PDSCH_TBS in *. rewrite (u32_small (Np + 24)) by lia.
    match goal with |- 24 <= ?t < _ /\ _ => assert (tbs_even t (get_BG t R) /\ 3824 < t) as [(E1 & E2 & E3) E4] end.
    2: { split_and!; try done; try lia. }
    destruct (R <=? 2560) eqn:ER; zify_bool; [|destruct (Np >? 8424) eqn:E8; zify_bool].
    + destruct (round_up_ok (Np + 24) 3816 ltac:(lia) ltac:(by left)) as (-> & HC & H1 & H2 & H3).
      set (C := CEILIDIV (Np + 24) 3816) in *. set (B := C * 8 * _) in *. rewrite u32_small by lia.
      assert (get_BG (B - 24) R = 2) as ->.
      { apply get_BG_2. lia. }
      split; [|lia]. apply (even_many _ _ C (CEILIDIV (Np + 24) (C * 8))); unfold NR_MAX_PDSCH_TBS; change (seg_Kcb 2) with 3840; try lia.
    + destruct (round_up_ok (Np + 24) 8424 ltac:(lia) ltac:(by right)) as (-> & HC & H1 & H2 & H3).
      set (C := CEILIDIV (Np + 24) 8424) in *. set (B := C * 8 * _) in *. rewrite u32_small by lia.
      assert (get_BG (B - 24) R = 1) as ->.
      { apply get_BG_1; unfold NR_MAX_PDSCH_TBS; lia. }
      split; [|lia]. apply (even_many _ _ C (CEILIDIV (Np + 24) (C * 8))); unfold NR_MAX_PDSCH_TBS; change (seg_Kcb 1) with 8448; try lia.
    + destruct (CEILIDIV_ok (Np + 24) 8 ltac:(lia) ltac:(lia) ltac:(lia)) as [_ Hc]. set (c := CEILIDIV (Np + 24) 8) in *.
      rewrite Z.shiftl_mul_pow2 by lia. change (2 ^ 3) with 8. rewrite (u32_small (c * 8)), u32_small by lia.
      assert (get_BG (c * 8 - 24) R = 1) as ->.
      { apply get_BG_1; unfold NR_MAX_PDSCH_TBS; lia. }
      split; [|lia]. apply even_one; [lia| |].
      * replace (c * 8 - 24) with (0 + (c - 3) * 8) by lia. by rewrite Z.mod_add by lia.
      * unfold lenWithCrc, NR_MAX_PDSCH_TBS. change (1 >? 1) with false. cbv iota. change (seg_Kcb 1) with 8448. case_if; lia.
Qed.

(** 100 resource blocks with 256-QAM at rate 948/1024 on two layers. *)
Lemma tbs_fits_segmentation_witness :
  let A := nr_compute_tbs 8 9480 100 12 12 0 0 2 in
  exists z, nr_segmentation_sizes (lenWithCrc 1 A) (get_BG A 9480) = Some z /\ lenWithCrc 1 A mod (8 * seg_C z) = 0 /\ seg_C z = 24.
Proof.
  intros A. destruct (tbs_fits_segmentation 8 9480 100 12 12 0 0 2 ltac:(lia)) as (_ & _ & (z & Hz & Hmod) & _).
  exists z. split_and!; [exact Hz|exact Hmod|]. vm_compute in Hz. inversion Hz. reflexivity.
Defined.

(** A full carrier of 273 resource blocks with 13 symbols, 256-QAM and rate
    948/1024 on one layer: 36 code blocks, two more than nr_ulsch_decoding
    accepts. *)
Example tbs_uplink_refused :
  let A := nr_compute_tbs 8 9480 273 13 12 0 0 1 in
  A = 295176 /\ ulsch_start [] A (get_BG A 9480) 273 1 = None /\
  (seg_C <$> nr_segmentation_sizes (lenWithCrc 1 A) (get_BG A 9480)) = Some 36.
Proof. vm_compute. auto. Qed.

(** The limit for the buffer of rate matching, in bits. *)
Example tbslbrm_full : nr_compute_tbslbrm 1 273 4 = 1277992.
Proof. vm_compute. reflexivity. Qed.
