(* ===== verification/NrRateMatching.v ===== *)
(** * Rate matching and interleaving
      (PHY/CODING/nr_rate_matching.c, PHY/NR_TRANSPORT/nr_tbs_tools.c,
      nr_dlsch_coding.c, nr_ulsch_decoding.c)

    From the circular buffer of each coded block to the codeword, and from the
    soft values of a codeword back to the buffers.  The encoder and the decoder
    themselves are not modelled: [coded] are the encoder's outputs. *)

From S2P Require Import Prelude Crc NrSegmentation.

(** [int16_t] *)
Definition i16 (x : Z) : Z := (x + 2 ^ 15) mod 2 ^ 16 - 2 ^ 15.

Definition NR_NULL : Z := 2.
Definition index_k0 : list (list Z) := [[0; 17; 33; 56]; [0; 13; 25; 43]].

(** memcpy between two objects. *)
Definition memcpy (dst : list Z) (doff : Z) (src : list Z) (soff n : Z) : outcome (list Z) :=
  data ← of_option OutOfBounds (zslice src soff n);
  of_option OutOfBounds (zblit dst doff data).

(** ** Interleaving *)

(** The four cases of the switch, for [Qm] of 2, 4, 6 and 8, differ in the number
    of copies only: [f\[j * Qm + i\]] is [e\[i * EQm + j\]]. *)
Definition interleave_symbol (Qm EQm : Z) (e : list Z) (j : Z) (f : list Z) : outcome (list Z) :=
  cfor (Z.to_nat Qm) 0
    (fun i f =>
       x ← of_option OutOfBounds (zget e (i * EQm + j));
       of_option OutOfBounds (zset f (j * Qm + i) x)) f.

Definition modulation_ok (Qm : Z) : bool := (Qm =? 2) || (Qm =? 4) || (Qm =? 6) || (Qm =? 8).

Definition nr_interleaving_ldpc (E Qm : Z) (e f : list Z) : outcome (list Z) :=
  _ ← require (negb (Qm =? 0)) Exit;
  let EQm := E / Qm in
  f ← of_option OutOfBounds (zblit f 0 (replicate (Z.to_nat E) 0));
  _ ← require (modulation_ok Qm) Exit;
  cfor (Z.to_nat EQm) 0 (interleave_symbol Qm EQm e) f.

Definition deinterleave_symbol (Qm EQm : Z) (f : list Z) (j : Z) (e : list Z) : outcome (list Z) :=
  cfor (Z.to_nat Qm) 0
    (fun i e =>
       x ← of_option OutOfBounds (zget f (j * Qm + i));
       of_option OutOfBounds (zset e (i * EQm + j) x)) e.

Definition nr_deinterleaving_ldpc (E Qm : Z) (e f : list Z) : outcome (list Z) :=
  _ ← require (modulation_ok Qm) Exit;
  _ ← require (E mod Qm =? 0) Exit;
  cfor (Z.to_nat (E / Qm)) 0 (deinterleave_symbol Qm (E / Qm) f) e.

(** ** Bit selection *)

Definition rm_N (BG Z_ : Z) : Z := if BG =? 1 then 66 * Z_ else 50 * Z_.

(** The size of the circular buffer. *)
Definition rm_Ncb (Tbslbrm C N : Z) : Z :=
  if Tbslbrm =? 0 then N else Z.min N (u32 (3 * Tbslbrm) / (2 * C)).

(** The first bit of redundancy version [rvidx]; dividing by zero ends the
    process. *)
Definition rm_k0 (BG rvidx Ncb N Z_ : Z) : outcome Z :=
  row ← of_option OutOfBounds (zget index_k0 (BG - 1));
  k0 ← of_option OutOfBounds (zget row rvidx);
  _ ← require (negb (N =? 0)) Exit;
  Ok (u32 (u32 (k0 * Ncb) / N * Z_)).

(** One turn of [for (ind = 0; ind < Ncb && k < E; ind++)] from [ind] on. *)
Fixpoint rm_turn (n : nat) (E : Z) (w : list Z) (ind k : Z) (e : list Z) : outcome (Z * list Z) :=
  match n with
  | O => Ok (k, e)
  | S n =>
      if k <? E then
        x ← of_option OutOfBounds (zget w ind);
        if negb (x =? NR_NULL) then
          e ← of_option OutOfBounds (zset e k x);
          rm_turn n E w (ind + 1) (k + 1) e
        else rm_turn n E w (ind + 1) k e
      else Ok (k, e)
  end.

(** [while (k < E)]: the repetitions.  A turn without a bit would go on for ever. *)
Fixpoint rm_repeat (fuel : nat) (Ncb E : Z) (w : list Z) (k : Z) (e : list Z) : outcome (list Z) :=
  if k <? E then
    match fuel with
    | O => Fault Diverge
    | S fuel =>
        '(k, e) ← rm_turn (Z.to_nat Ncb) E w 0 k e;
        rm_repeat fuel Ncb E w k e
    end
  else Ok e.

(** The copies before the repetitions, from bit [ind] on. *)
Definition rm_first (Ncb F Foffset E ind : Z) (w e : list Z) : outcome (Z * list Z) :=
  if ind <? Foffset then
    e ← memcpy e 0 w ind (Foffset - ind);
    if u32 (E + F) <=? u32 (Ncb - ind) then
      e ← memcpy e (Foffset - ind) w (u32 (Foffset + F)) (u32 (E - Foffset + ind));
      Ok (E, e)
    else
      e ← memcpy e (Foffset - ind) w (u32 (Foffset + F)) (u32 (Ncb - Foffset - F));
      Ok (u32 (Ncb - F - ind), e)
  else if E <=? u32 (Ncb - ind) then
    e ← memcpy e 0 w ind E;
    Ok (E, e)
  else
    e ← memcpy e 0 w ind (u32 (Ncb - ind));
    Ok (u32 (Ncb - ind), e).

(** The first bit behind the filler when [ind] is in it. *)
Definition skip_filler (F Foffset ind : Z) : Z :=
  if (ind >=? Foffset) && (ind <? u32 (F + Foffset)) then u32 (F + Foffset) else ind.

Definition nr_rate_matching_ldpc (Tbslbrm BG Z_ : Z) (w e : list Z) (C F Foffset rvidx E : Z) : outcome (Z * list Z) :=
  if C =? 0 then Ok (-1, e)
  else
    let N := rm_N BG Z_ in
    let Ncb := rm_Ncb Tbslbrm C N in
    ind ← rm_k0 BG rvidx Ncb N Z_;
    if Foffset >? E then Ok (-1, e)
    else if Foffset >? Ncb then Ok (-1, e)
    else
      '(k, e) ← rm_first Ncb F Foffset E (skip_filler F Foffset ind) w e;
      e ← rm_repeat (Z.to_nat E) Ncb E w k e;
      Ok (0, e).

(** ** Soft combining *)

(** [for (; ind < bound && k < E; ind++) w\[ind\] += soft_input\[k++\]]: the next
    [ind] and [k]. *)
Fixpoint rx_run (n : nat) (E : Z) (soft : list Z) (ind k : Z) (w : list Z) : outcome (Z * Z * list Z) :=
  match n with
  | O => Ok (ind, k, w)
  | S n =>
      if k <? E then
        x ← of_option OutOfBounds (zget w ind);
        s ← of_option OutOfBounds (zget soft k);
        w ← of_option OutOfBounds (zset w ind (i16 (x + s)));
        rx_run n E soft (ind + 1) (k + 1) w
      else Ok (ind, k, w)
  end.

Fixpoint rx_repeat (fuel : nat) (Ncb F Foffset E : Z) (soft : list Z) (k : Z) (w : list Z) : outcome (list Z) :=
  if k <? E then
    match fuel with
    | O => Fault Diverge
    | S fuel =>
        '(_, k, w) ← rx_run (Z.to_nat Foffset) E soft 0 k w;
        '(_, k, w) ← rx_run (Z.to_nat (Ncb - u32 (Foffset + F))) E soft (u32 (Foffset + F)) k w;
        rx_repeat fuel Ncb F Foffset E soft k w
    end
  else Ok w.

Definition nr_rate_matching_ldpc_rx (Tbslbrm BG Z_ : Z) (w soft_input : list Z) (C rvidx clear E F Foffset : Z)
    : outcome (Z * list Z) :=
  if C =? 0 then Ok (-1, w)
  else
    let N := rm_N BG Z_ in
    let Ncb := rm_Ncb Tbslbrm C N in
    ind ← rm_k0 BG rvidx Ncb N Z_;
    if Foffset >? E then Ok (-1, w)
    else if Foffset >? Ncb then Ok (-1, w)
    else
      w ← (if clear =? 1 then of_option OutOfBounds (zblit w 0 (replicate (Z.to_nat Ncb) 0)) else Ok w);
      '(ind, k, w) ← rx_run (Z.to_nat (Foffset - ind)) E soft_input ind 0 w;
      let ind := skip_filler F Foffset ind in
      '(_, k, w) ← rx_run (Z.to_nat (Ncb - ind)) E soft_input ind k w;
      w ← rx_repeat (Z.to_nat E) Ncb F Foffset E soft_input k w;
      Ok (0, w).

(** ** The codeword *)

Definition NR_NB_SC_PER_RB : Z := 12.
Definition nr_get_G (nb_rb nb_symb_sch nb_re_dmrs length_dmrs unav_res Qm Nl : Z) : Z :=
  u32 (u32 ((NR_NB_SC_PER_RB * nb_symb_sch - nb_re_dmrs * length_dmrs) * nb_rb * Qm * Nl) - u32 (unav_res * Qm * Nl)).

Definition nr_get_E (G C Qm Nl r : Z) : outcome Z :=
  let Cprime := u8 C in
  _ ← require (negb (Nl * Qm * Cprime =? 0)) Exit;
  Ok (if u8 r <=? u32 (u32 (Cprime - G / (Nl * Qm) mod Cprime) - 1)
      then u32 (Nl * Qm * (G / (Nl * Qm * Cprime)))
      else u32 (Nl * Qm * (G / (Nl * Qm * Cprime) + 1))).

(** The parameters of a transport block that the threads share. *)
Record dl_params := mk_dl_params {
  dl_BG : Z; dl_Zc : Z; dl_n_segments : Z; dl_K : Z; dl_F : Z;
  dl_G : Z; dl_Qm : Z; dl_Nl : Z; dl_Tbslbrm : Z; dl_rv : Z }.

Definition dl_E (p : dl_params) (r : Z) : outcome Z := nr_get_E (dl_G p) (dl_n_segments p) (dl_Qm p) (dl_Nl p) r.
Definition dl_Foffset (p : dl_params) : Z := u32 (dl_K p - dl_F p - 2 * dl_Zc p).

(** The body of the loop of ldpc8blocks: block [rr] goes to [output] at
    [r_offset].  The result of rate matching is not tested. *)
Definition ldpc_block (p : dl_params) (coded : list Z) (rr r_offset : Z) (output : list Z) : outcome (Z * list Z) :=
  d ← (if dl_F p >? 0 then of_option OutOfBounds (zblit coded (dl_Foffset p) (replicate (Z.to_nat (dl_F p)) NR_NULL)) else Ok coded);
  E ← dl_E p rr;
  '(_, e) ← nr_rate_matching_ldpc (dl_Tbslbrm p) (dl_BG p) (dl_Zc p) d (replicate (Z.to_nat E) 0) (u8 (dl_n_segments p))
              (dl_F p) (dl_Foffset p) (dl_rv p) E;
  room ← of_option OutOfBounds (zslice output r_offset (zlen output - r_offset));
  f ← nr_interleaving_ldpc E (dl_Qm p) e room;
  output ← of_option OutOfBounds (zblit output r_offset f);
  Ok (u32 (r_offset + E), output).

(** The offset of block [n]. *)
Definition dl_offset (p : dl_params) (n : Z) : outcome Z :=
  cfor (Z.to_nat n) 0 (fun i off => E ← dl_E p i; Ok (u32 (off + E))) 0.

(** ldpc8blocks: blocks [8 * macro_num] to [8 * macro_num + 7]. *)
Definition ldpc8blocks (p : dl_params) (coded : list (list Z)) (macro_num : Z) (output : list Z) : outcome (list Z) :=
  r_offset ← dl_offset p (macro_num * 8);
  '(_, output) ← cfor (Z.to_nat (Z.min (dl_n_segments p) ((macro_num + 1) * 8) - macro_num * 8)) (macro_num * 8)
    (fun rr '(r_offset, output) =>
       d ← of_option OutOfBounds (zget coded rr);
       ldpc_block p d rr r_offset output) (r_offset, output);
  Ok output.

(** The threads, in the order [macros] in which they run. *)
Fixpoint ldpc_threads (p : dl_params) (coded : list (list Z)) (macros : list Z) (output : list Z) : outcome (list Z) :=
  match macros with
  | [] => Ok output
  | i :: macros => output ← ldpc8blocks p coded i output; ldpc_threads p coded macros output
  end.

(** nr_processULSegment up to the decoder: block [r], whose soft values begin at
    [r_offset], is added to [d].  [None] when rate matching fails. *)
Definition ul_segment (p : dl_params) (llr : list Z) (r r_offset : Z) (clear : bool) (d : list Z) : outcome (option (list Z)) :=
  E ← dl_E p r;
  soft ← of_option OutOfBounds (zslice llr r_offset (zlen llr - r_offset));
  harq_e ← nr_deinterleaving_ldpc E (dl_Qm p) (replicate (Z.to_nat E) 0) soft;
  '(ret, d) ← nr_rate_matching_ldpc_rx (dl_Tbslbrm p) (dl_BG p) (dl_Zc p) d harq_e (u8 (dl_n_segments p)) (dl_rv p)
                (b2z clear) E (dl_F p) (dl_Foffset p);
  Ok (if ret =? -1 then None else Some d).
