(* ===== verification/NrRateProps.v ===== *)
(** * Rate matching takes the bits of the circular buffer in turn
      (PHY/CODING/nr_rate_matching.c)

    [selected] is the order of TS 38.212, 5.4.2.1: from bit k0 on around the
    buffer, without the filler.  The copies and loops of the transmitter take
    the bits in this order; the receiver adds the soft values in the same. *)

From S2P Require Import Prelude Crc NrSegmentation NrRateMatching.

Lemma filter_id_all {A} (P : A -> Prop) `{!forall x, Decision (P x)} (l : list A) : (forall x, x ∈ l -> P x) -> filter P l = l.
Proof.
  induction l as [|x l IH]; intros Hl; [done|]. rewrite filter_cons_True by (apply Hl; left). f_equal.
  apply IH. intros y Hy. apply Hl. by right.
Qed.
Lemma filter_nil_none {A} (P : A -> Prop) `{!forall x, Decision (P x)} (l : list A) : (forall x, x ∈ l -> ~ P x) -> filter P l = [].
Proof.
  induction l as [|x l IH]; intros Hl; [done|]. rewrite filter_cons_False by (apply Hl; left).
  apply IH. intros y Hy. apply Hl. by right.
Qed.

(** ** The order of the standard *)

Section Order.
Context (Ncb F Foffset : Z).

Definition is_coded (i : Z) : bool := (i <? Foffset) || (Foffset + F <=? i).

(** The coded bits of an interval. *)
Definition coded_bits (from n : Z) : list Z := filter (fun i => is_coded i = true) (seqZ from n).

Definition circular (k0 n : Z) : list Z := (fun j => (k0 + j) mod Ncb) <$> seqZ 0 n.

(** The first [E] coded bits of the circular buffer from [k0] on. *)
Definition selected (k0 E : Z) : list Z :=
  take (Z.to_nat E) (filter (fun i => is_coded i = true) (circular k0 ((E + 1) * Ncb))).

Definition turns (m : nat) : list Z := mjoin (replicate m (coded_bits 0 Ncb)).

Context (HF : 0 <= F) (Hoff : 0 <= Foffset) (Hfit : Foffset + F <= Ncb).

Lemma coded_split from n : 0 <= from -> 0 <= n ->
  coded_bits from n = seqZ from (Z.min n (Foffset - from))
    ++ seqZ (Z.max from (Foffset + F)) (from + n - Z.max from (Foffset + F)).
Proof.
  intros Hf Hn. unfold coded_bits.
  set (a := Z.max 0 (Z.min n (Foffset - from))). set (b := Z.max 0 (Z.min n (Foffset + F - from)) - a).
  assert (0 <= a /\ 0 <= b /\ 0 <= n - a - b) as (Ha & Hb & Hc) by lia.
  replace (seqZ from (Z.min n (Foffset - from))) with (seqZ from a) by (destruct (Z.le_gt_cases 0 (Z.min n (Foffset - from))); [f_equal; lia|rewrite !seqZ_nil by lia; done]).
  replace n with (a + (b + (n - a - b))) at 1 by lia. rewrite seqZ_app by lia. rewrite (seqZ_app _ b) by lia.
  rewrite !filter_app. f_equal; [|rewrite <- (app_nil_l (seqZ (Z.max _ _) _)); f_equal].
  - apply filter_id_all. intros i [Hi1 Hi2]%elem_of_seqZ. unfold is_coded.
    rewrite (proj2 (Z.ltb_lt _ _)) by lia. done.
  - apply filter_nil_none. intros i [Hi1 Hi2]%elem_of_seqZ. unfold is_coded.
    rewrite (proj2 (Z.ltb_ge _ _)), (proj2 (Z.leb_gt _ _)) by lia. done.
  - destruct (Z.le_gt_cases (n - a - b) 0) as [Hz|Hpos]; [rewrite !seqZ_nil by lia; done|].
    replace (from + a + b) with (Z.max from (Foffset + F)) by lia.
    rewrite filter_id_all; [f_equal; lia|]. intros i [Hi1 Hi2]%elem_of_seqZ. unfold is_coded.
    rewrite (proj2 (Z.leb_le _ _)), orb_true_r by lia. done.
Qed.

Lemma coded_bits_app from n m : 0 <= n -> 0 <= m -> coded_bits from (n + m) = coded_bits from n ++ coded_bits (from + n) m.
Proof. intros Hn Hm. unfold coded_bits. by rewrite seqZ_app, filter_app by done. Qed.

Lemma elem_of_coded from n i : i ∈ coded_bits from n -> from <= i < from + n.
Proof. intros [_ Hi]%list_elem_of_filter. apply elem_of_seqZ in Hi. lia. Qed.

(** *** Around the buffer *)

Lemma fmap_mod_seqZ k0 a n c : (forall j, a <= j < a + n -> (k0 + j) mod Ncb = c - a + j) ->
  (fun j => (k0 + j) mod Ncb) <$> seqZ a n = seqZ c n.
Proof.
  intros H. transitivity (Z.add (c - a) <$> seqZ a n).
  - apply list_fmap_ext. intros i j Hj%list_elem_of_lookup_2. apply elem_of_seqZ in Hj. by apply H.
  - rewrite fmap_add_seqZ. f_equal. lia.
Qed.

Lemma turns_S m : turns (S m) = turns m ++ coded_bits 0 Ncb.
Proof. unfold turns. rewrite replicate_S_end, join_app. cbn [mjoin list_join]. by rewrite app_nil_r. Qed.

Lemma turns_add m n : turns (m + n) = turns m ++ turns n.
Proof. unfold turns. by rewrite replicate_add, join_app. Qed.

Lemma circular_split k0 m : 0 <= k0 <= Ncb -> 0 < Ncb ->
  filter (fun i => is_coded i = true) (circular k0 (Ncb - k0 + Z.of_nat m * Ncb)) = coded_bits k0 (Ncb - k0) ++ turns m.
Proof.
  intros Hk HN. induction m as [|m IH].
  - cbn [turns replicate mjoin list_join]. rewrite app_nil_r. unfold circular, coded_bits.
    replace (Ncb - k0 + Z.of_nat 0 * Ncb) with (Ncb - k0) by lia.
    rewrite (fmap_mod_seqZ k0 0 (Ncb - k0) k0); [done|]. intros j Hj. rewrite Z.mod_small by lia. lia.
  - rewrite turns_S, app_assoc, <- IH. unfold circular.
    replace (Ncb - k0 + Z.of_nat (S m) * Ncb) with ((Ncb - k0 + Z.of_nat m * Ncb) + Ncb) by lia.
    rewrite seqZ_app, fmap_app, filter_app by lia. f_equal. unfold coded_bits.
    rewrite (fmap_mod_seqZ k0 _ Ncb 0); [done|]. intros j Hj.
    replace (k0 + j) with (0 - (0 + (Ncb - k0 + Z.of_nat m * Ncb)) + j + Z.of_nat (S m) * Ncb) by lia.
    rewrite Z.mod_add, Z.mod_small by lia. lia.
Qed.

Lemma turn_len : zlen (coded_bits 0 Ncb) = Ncb - F.
Proof. rewrite coded_split by lia. rewrite zlen_app. unfold zlen. rewrite !length_seqZ. lia. Qed.

Lemma turns_len m : zlen (turns m) = Z.of_nat m * (Ncb - F).
Proof.
  induction m as [|m IH]; [done|]. rewrite turns_S, zlen_app, IH, turn_len. lia.
Qed.

(** The order of the standard is the end of the buffer, then whole turns. *)
Lemma selected_turns k0 E m : 0 <= k0 <= Ncb -> F < Ncb -> 0 <= E <= Z.of_nat m ->
  selected k0 E = take (Z.to_nat E) (coded_bits k0 (Ncb - k0) ++ turns m).
Proof.
  intros Hk HFN HE. unfold selected.
  assert (forall l1 l2 : list Z, take (Z.to_nat E) (coded_bits k0 (Ncb - k0) ++ turns (Z.to_nat E) ++ l2)
    = take (Z.to_nat E) (coded_bits k0 (Ncb - k0) ++ turns (Z.to_nat E) ++ l1)) as Htake.
  { intros l1 l2. rewrite !(app_assoc (coded_bits _ _)). pose proof (turns_len (Z.to_nat E)) as Hl. unfold zlen in Hl.
    rewrite !(take_app_le (coded_bits k0 (Ncb - k0) ++ turns (Z.to_nat E))) by (rewrite length_app; nia). done. }
  replace (turns m) with (turns (Z.to_nat E) ++ turns (m - Z.to_nat E)) by (rewrite <- turns_add; f_equal; lia).
  replace ((E + 1) * Ncb) with (Ncb - k0 + Z.of_nat (Z.to_nat E) * Ncb + k0) by (rewrite Z2Nat.id by lia; lia).
  unfold circular. rewrite seqZ_app, fmap_app, filter_app by nia.
  change (filter (fun i => is_coded i = true) ((fun j => (k0 + j) mod Ncb) <$> seqZ 0 (Ncb - k0 + Z.of_nat (Z.to_nat E) * Ncb)))
    with (filter (fun i => is_coded i = true) (circular k0 (Ncb - k0 + Z.of_nat (Z.to_nat E) * Ncb))).
  rewrite circular_split by lia. rewrite <- (app_assoc (coded_bits _ _)). apply Htake.
Qed.

Lemma selected_len k0 E : 0 <= k0 <= Ncb -> F < Ncb -> 0 <= E -> zlen (selected k0 E) = E.
Proof.
  intros Hk HFN HE. rewrite (selected_turns k0 E (Z.to_nat E)) by lia.
  pose proof (turns_len (Z.to_nat E)) as Hl. unfold zlen in *. rewrite length_take, length_app. nia.
Qed.

Lemma elem_of_turns m i : i ∈ turns m -> 0 <= i < Ncb.
Proof.
  induction m as [|m IH]; [by intros ?%not_elem_of_nil|]. rewrite turns_S.
  intros [Hi|Hi]%elem_of_app; [by apply IH|]. apply elem_of_coded in Hi. lia.
Qed.

Lemma elem_of_selected k0 E i : 0 <= k0 <= Ncb -> F < Ncb -> 0 <= E -> i ∈ selected k0 E -> 0 <= i < Ncb /\ is_coded i = true.
Proof.
  intros Hk HFN HE Hi. split.
  - rewrite (selected_turns k0 E (Z.to_nat E)) in Hi by lia. apply elem_of_take in Hi as (n & Hi & _).
    apply list_elem_of_lookup_2 in Hi. apply elem_of_app in Hi as [Hi|Hi]; [apply elem_of_coded in Hi; lia|by apply elem_of_turns in Hi].
  - unfold selected in Hi. apply elem_of_take in Hi as (n & Hi & _). apply list_elem_of_lookup_2 in Hi.
    by apply list_elem_of_filter in Hi as [Hi _].
Qed.
End Order.

(** With room for all coded bits, every one is sent. *)
Lemma selected_covers Ncb F Foffset k0 E i : 0 <= F -> 0 <= Foffset -> Foffset + F <= Ncb -> F < Ncb -> 0 <= k0 <= Ncb ->
  Ncb - F <= E -> 0 <= i < Ncb -> is_coded F Foffset i = true -> i ∈ selected Ncb F Foffset k0 E.
Proof.
  intros HF Ho Hfit HFN Hk HE Hi Hc. rewrite (selected_turns Ncb F Foffset HF Ho Hfit k0 E (S (Z.to_nat E))) by lia.
  change (turns Ncb F Foffset (S (Z.to_nat E))) with (coded_bits F Foffset 0 Ncb ++ turns Ncb F Foffset (Z.to_nat E)).
  pose proof (turn_len Ncb F Foffset HF Ho Hfit) as Hl.
  replace Ncb with (k0 + (Ncb - k0)) in Hl at 1 by lia. rewrite coded_bits_app, zlen_app in Hl by lia.
  replace (coded_bits F Foffset 0 Ncb) with (coded_bits F Foffset 0 k0 ++ coded_bits F Foffset (0 + k0) (Ncb - k0))
    by (rewrite <- coded_bits_app by lia; f_equal; lia).
  rewrite <- app_assoc, app_assoc. rewrite take_app_ge by (rewrite length_app; unfold zlen in *; rewrite Z.add_0_l in Hl; lia).
  apply elem_of_app. left. apply elem_of_app. unfold coded_bits. rewrite !list_elem_of_filter, !elem_of_seqZ.
  destruct (Z.lt_ge_cases i k0); [right|left]; (split; [done|lia]).
Qed.

(** ** Bit selection of the transmitter (PHY/CODING/nr_rate_matching.c)

    The copies, then the repetitions, fill the output with the bits of the
    circular buffer in the order of the standard. *)

(** ** Reading and writing *)

Definition wv (w : list Z) (i : Z) : Z := nth (Z.to_nat i) w 0.

Lemma zget_wv w i : 0 <= i < zlen w -> zget w i = Some (wv w i).
Proof.
  intros Hi. unfold zget, wv. rewrite (proj2 (Z.leb_le _ _)) by lia.
  destruct (lookup_lt_is_Some_2 w (Z.to_nat i)) as [x Hx]; [unfold zlen in Hi; lia|].
  rewrite Hx. f_equal. symmetry. by apply nth_lookup_Some.
Qed.

Lemma zslice_wv w soff n : 0 <= soff -> 0 <= n -> soff + n <= zlen w -> zslice w soff n = Some (wv w <$> seqZ soff n).
Proof.
  intros Hs Hn Hl. rewrite zslice_ok by lia. f_equal. apply list_eq. intros i. rewrite list_lookup_fmap.
  destruct (Nat.lt_ge_cases i (Z.to_nat n)) as [Hi|Hi].
  - rewrite lookup_seqZ_lt, lookup_take_lt, lookup_drop by lia. cbn [fmap option_fmap option_map].
    pose proof (zget_wv w (soff + Z.of_nat i) ltac:(lia)) as H. unfold zget in H.
    rewrite (proj2 (Z.leb_le _ _)) in H by lia. rewrite <- H. f_equal. lia.
  - rewrite lookup_seqZ_ge, lookup_take_ge by lia. done.
Qed.

(** [vs] written over the beginning of [rest], behind [pre]. *)
Definition put (pre rest vs : list Z) : list Z := pre ++ vs ++ drop (length vs) rest.

Lemma put_nil pre rest : put pre rest [] = pre ++ rest.
Proof. done. Qed.

Lemma put_app pre rest v1 v2 : put pre rest (v1 ++ v2) = put (pre ++ v1) (drop (length v1) rest) v2.
Proof. unfold put. by rewrite <- !app_assoc, drop_drop, length_app. Qed.

Lemma put_pre pre rest v : put pre rest v = (pre ++ v) ++ drop (length v) rest.
Proof. unfold put. by rewrite app_assoc. Qed.

Lemma zblit_put pre rest vs off : off = zlen pre -> zlen vs <= zlen rest -> zblit (pre ++ rest) off vs = Some (put pre rest vs).
Proof.
  intros -> Hl. rewrite zblit_ok by (rewrite ?zlen_app; unfold zlen in *; lia). unfold zlen. rewrite Nat2Z.id.
  by rewrite take_app_length, drop_app_add.
Qed.

Lemma zset_put pre rest x off : off = zlen pre -> 1 <= zlen rest -> zset (pre ++ rest) off x = Some (put pre rest [x]).
Proof.
  intros -> Hl. destruct rest as [|y rest]; [rewrite zlen_nil in Hl; lia|]. unfold zset.
  pose proof (zlen_nonneg pre). pose proof (zlen_nonneg rest). rewrite zlen_app, zlen_cons.
  rewrite (proj2 (Z.leb_le _ _)), (proj2 (Z.ltb_lt _ _)) by lia. cbn [andb]. unfold zlen.
  rewrite Nat2Z.id, insert_app_r_alt, Nat.sub_diag by lia. done.
Qed.

Lemma memcpy_put pre rest doff src soff n : doff = zlen pre -> 0 <= n <= zlen rest -> 0 <= soff -> soff + n <= zlen src ->
  memcpy (pre ++ rest) doff src soff n = Ok (put pre rest (wv src <$> seqZ soff n)).
Proof.
  intros Hd Hn Hs Hl. unfold memcpy. rewrite zslice_wv by lia. cbn [of_option mbind outcome_bind].
  by rewrite zblit_put by (done || (unfold zlen; rewrite length_fmap, length_seqZ; unfold zlen in Hn; lia)).
Qed.

Lemma zlen_seqZ a n : 0 <= n -> zlen (seqZ a n) = n.
Proof. intros Hn. unfold zlen. rewrite length_seqZ. lia. Qed.

Lemma take_app_split {A} (l1 l2 : list A) n : take n (l1 ++ l2) = take n l1 ++ take (n - length l1) l2.
Proof. apply firstn_app. Qed.

Lemma take_seqZ n a m : 0 <= n <= m -> take (Z.to_nat n) (seqZ a m) = seqZ a n.
Proof.
  intros Hn. replace m with (n + (m - n)) by lia. rewrite seqZ_app by lia. apply take_app_length'. rewrite length_seqZ. lia.
Qed.

Section Tx.
Context (Ncb F Foffset E : Z) (w : list Z).
Context (HF : 0 <= F) (Hoff : 0 <= Foffset) (Hfit : Foffset + F <= Ncb) (HFN : F < Ncb).
Context (Hw : Ncb <= zlen w) (HE : Foffset <= E < 2 ^ 31) (HN31 : Ncb < 2 ^ 31).
Context (Hnull : forall i, 0 <= i < Ncb -> (wv w i =? NR_NULL) = negb (is_coded F Foffset i)).

(** ** One turn *)

Lemma coded_bits_S n from : coded_bits F Foffset from (Z.of_nat (S n))
  = (if is_coded F Foffset from then [from] else []) ++ coded_bits F Foffset (from + 1) (Z.of_nat n).
Proof.
  unfold coded_bits. rewrite seqZ_cons by lia. rewrite filter_cons. replace (Z.pred (Z.of_nat (S n))) with (Z.of_nat n) by lia.
  unfold Z.succ. destruct (decide (is_coded F Foffset from = true)) as [H|H].
  - by rewrite H.
  - by rewrite (proj1 (not_true_iff_false _) H).
Qed.

Lemma rm_turn_ok n ind pre rest : 0 <= ind -> ind + Z.of_nat n <= Ncb -> zlen pre <= E -> E <= zlen pre + zlen rest ->
  let ps := take (Z.to_nat (E - zlen pre)) (coded_bits F Foffset ind (Z.of_nat n)) in
  rm_turn n E w ind (zlen pre) (pre ++ rest) = Ok (zlen pre + zlen ps, put pre rest (wv w <$> ps)).
Proof.
  revert ind pre rest. induction n as [|n IH]; intros ind pre rest Hi Hn Hp Hr ps.
  - unfold ps. change (coded_bits F Foffset ind (Z.of_nat 0)) with (@nil Z). rewrite take_nil. cbn [rm_turn fmap list_fmap].
    by rewrite zlen_nil, Z.add_0_r, put_nil.
  - cbn [rm_turn]. destruct (zlen pre <? E) eqn:EP; zify_bool.
    2: { unfold ps. replace (Z.to_nat (E - zlen pre)) with 0%nat by lia. rewrite take_0. cbn [fmap list_fmap].
         by rewrite zlen_nil, Z.add_0_r, put_nil. }
    rewrite zget_wv by lia. cbn [of_option mbind outcome_bind]. rewrite Hnull, negb_involutive by lia.
    unfold ps. rewrite coded_bits_S. destruct (is_coded F Foffset ind).
    + rewrite zset_put by lia. cbn [of_option mbind outcome_bind]. rewrite put_pre.
      replace (zlen pre + 1) with (zlen (pre ++ [wv w ind])) by (rewrite zlen_app; done).
      assert (zlen (pre ++ [wv w ind]) = zlen pre + 1) as Hl1 by (by rewrite zlen_app).
      assert (zlen (drop 1 rest) = zlen rest - 1) as Hl2 by (apply (zlen_drop 1); lia).
      cbn [length] in *. rewrite IH by lia. rewrite Hl1.
      replace (Z.to_nat (E - zlen pre)) with (S (Z.to_nat (E - (zlen pre + 1)))) by lia. cbn [app take fmap list_fmap].
      set (ps' := take _ _). rewrite zlen_cons. f_equal. f_equal; [lia|].
      exact (eq_sym (put_app pre rest [wv w ind] (wv w <$> ps'))).
    + cbn [app]. apply IH; lia.
Qed.

(** ** The repetitions *)

Lemma rm_repeat_ok fuel pre rest : zlen pre <= E -> E <= zlen pre + zlen rest -> E - zlen pre <= Z.of_nat fuel ->
  rm_repeat fuel Ncb E w (zlen pre) (pre ++ rest)
  = Ok (put pre rest (wv w <$> take (Z.to_nat (E - zlen pre)) (turns Ncb F Foffset fuel))).
Proof.
  revert pre rest. induction fuel as [|fuel IH]; intros pre rest Hp Hr Hf; cbn [rm_repeat]; destruct (zlen pre <? E) eqn:EP; zify_bool; try lia.
  - replace (Z.to_nat (E - zlen pre)) with 0%nat by lia. done.
  - pose proof (rm_turn_ok (Z.to_nat Ncb) 0 pre rest ltac:(lia) ltac:(lia) Hp Hr) as Hturn. cbv zeta in Hturn. rewrite Hturn. clear Hturn.
    rewrite Z2Nat.id by lia. cbn [mbind outcome_bind]. change (turns Ncb F Foffset (S fuel)) with (coded_bits F Foffset 0 Ncb ++ turns Ncb F Foffset fuel).
    rewrite take_app_split. pose proof (turn_len Ncb F Foffset HF Hoff Hfit) as Htl. set (l := coded_bits F Foffset 0 Ncb) in *.
    set (ps := take (Z.to_nat (E - zlen pre)) l).
    assert (zlen ps = Z.min (E - zlen pre) (Ncb - F)) as Hps by (unfold ps, zlen in *; rewrite length_take; lia).
    assert (zlen (pre ++ (wv w <$> ps)) = zlen pre + zlen ps) as Hpre by (by rewrite zlen_app, zlen_fmap).
    rewrite <- Hpre, put_pre. rewrite IH.
    + rewrite fmap_app, put_app. do 2 f_equal. f_equal. f_equal. rewrite Hpre. unfold zlen in *. lia.
    + lia.
    + rewrite Hpre. unfold zlen in *. rewrite length_drop, length_fmap. lia.
    + lia.
  - replace (Z.to_nat (E - zlen pre)) with 0%nat by lia. done.
Qed.

(** ** The copies *)

Lemma skip_filler_eq k0 : 0 <= k0 < Ncb ->
  skip_filler F Foffset k0 = if is_coded F Foffset k0 then k0 else Foffset + F.
Proof.
  intros Hk. unfold skip_filler, is_coded. rewrite (u32_small (F + Foffset)) by lia.
  destruct (k0 >=? Foffset) eqn:E1, (k0 <? F + Foffset) eqn:E2, (k0 <? Foffset) eqn:E3, (Foffset + F <=? k0) eqn:E4; cbn [andb orb]; zify_bool; lia.
Qed.

Lemma coded_end k0 : 0 <= k0 < Ncb ->
  coded_bits F Foffset k0 (Ncb - k0)
  = if k0 <? Foffset then seqZ k0 (Foffset - k0) ++ seqZ (Foffset + F) (Ncb - Foffset - F)
    else seqZ (skip_filler F Foffset k0) (Ncb - skip_filler F Foffset k0).
Proof.
  intros Hk. rewrite coded_split, skip_filler_eq by lia. unfold is_coded. destruct (k0 <? Foffset) eqn:E1; zify_bool.
  - f_equal; f_equal; lia.
  - rewrite seqZ_nil by lia. cbn [app orb]. destruct (Foffset + F <=? k0) eqn:E2; zify_bool; f_equal; lia.
Qed.

Lemma rm_first_ok k0 e : 0 <= k0 < Ncb -> E <= zlen e ->
  let ps := take (Z.to_nat E) (coded_bits F Foffset k0 (Ncb - k0)) in
  rm_first Ncb F Foffset E (skip_filler F Foffset k0) w e = Ok (zlen ps, put [] e (wv w <$> ps)).
Proof.
  intros Hk He. rewrite coded_end by done. unfold rm_first. pose proof (zlen_nonneg e) as Hne.
  destruct (k0 <? Foffset) eqn:E1; zify_bool.
  - assert (skip_filler F Foffset k0 = k0) as -> by (rewrite skip_filler_eq by lia; unfold is_coded; by rewrite (proj2 (Z.ltb_lt _ _)) by lia).
    rewrite (proj2 (Z.ltb_lt k0 Foffset)) by lia. cbv zeta.
    change e with ([] ++ e) at 1. rewrite memcpy_put by (done || (rewrite ?zlen_nil; lia)). cbn [mbind outcome_bind].
    rewrite (u32_small (E + F)), (u32_small (Ncb - k0)), (u32_small (Foffset + F)) by lia. rewrite put_pre, app_nil_l.
    rewrite length_fmap, length_seqZ. rewrite take_app_split, length_seqZ.
    rewrite (take_ge (seqZ k0 _)) by (rewrite length_seqZ; lia).
    assert (zlen (drop (Z.to_nat (Foffset - k0)) e) = zlen e - (Foffset - k0)) as Hd by (apply zlen_drop; lia).
    assert (zlen (wv w <$> seqZ k0 (Foffset - k0)) = Foffset - k0) as Hl by (rewrite zlen_fmap, zlen_seqZ; lia).
    destruct (E + F <=? Ncb - k0) eqn:E2; zify_bool.
    + rewrite (u32_small (E - Foffset + k0)) by lia. rewrite memcpy_put by lia. cbn [mbind outcome_bind].
      replace (Z.to_nat E - Z.to_nat (Foffset - k0))%nat with (Z.to_nat (E - Foffset + k0)) by lia.
      rewrite take_seqZ by lia. rewrite zlen_app, !zlen_seqZ, fmap_app by lia. rewrite put_app. rewrite length_fmap, length_seqZ.
      do 2 f_equal. lia.
    + rewrite (u32_small (Ncb - Foffset - F)), (u32_small (Ncb - F - k0)) by lia. rewrite memcpy_put by lia. cbn [mbind outcome_bind].
      rewrite (take_ge (seqZ (Foffset + F) _)) by (rewrite length_seqZ; lia).
      rewrite zlen_app, !zlen_seqZ, fmap_app by lia. rewrite put_app. rewrite length_fmap, length_seqZ.
      do 2 f_equal. lia.
  - set (ind := skip_filler F Foffset k0).
    assert (Foffset + F <= ind <= Ncb) as Hind.
    { unfold ind. rewrite skip_filler_eq by lia. unfold is_coded. rewrite (proj2 (Z.ltb_ge _ _)) by lia. cbn [orb].
      destruct (Foffset + F <=? k0) eqn:E2; zify_bool; lia. }
    rewrite (proj2 (Z.ltb_ge ind Foffset)) by lia. cbv zeta. rewrite (u32_small (Ncb - ind)) by lia.
    destruct (E <=? Ncb - ind) eqn:E2; zify_bool; change e with ([] ++ e) at 1;
      rewrite memcpy_put by (done || (rewrite ?zlen_nil; lia)); cbn [mbind outcome_bind].
    + by rewrite take_seqZ, zlen_seqZ by lia.
    + by rewrite (take_ge (seqZ ind _)), zlen_seqZ by (rewrite ?length_seqZ; lia).
Qed.

Lemma rm_tx_ok k0 e : 0 <= k0 < Ncb -> E <= zlen e ->
  ('(k, e) ← rm_first Ncb F Foffset E (skip_filler F Foffset k0) w e; rm_repeat (Z.to_nat E) Ncb E w k e)
  = Ok (put [] e (wv w <$> selected Ncb F Foffset k0 E)).
Proof.
  intros Hk He. pose proof (rm_first_ok k0 e Hk He) as Hfirst. cbv zeta in Hfirst. rewrite Hfirst. cbn [mbind outcome_bind].
  rewrite (selected_turns Ncb F Foffset HF Hoff Hfit k0 E (Z.to_nat E)) by lia. rewrite take_app_split.
  set (l := coded_bits F Foffset k0 (Ncb - k0)). set (ps := take (Z.to_nat E) l).
  assert (zlen ps <= E) as Hps by (unfold ps, zlen; rewrite length_take; lia).
  rewrite put_pre, app_nil_l. replace (zlen ps) with (zlen (wv w <$> ps)) by apply zlen_fmap.
  rewrite rm_repeat_ok.
  - rewrite fmap_app, put_app, app_nil_l, zlen_fmap. do 4 f_equal. unfold ps, zlen. rewrite length_take. lia.
  - by rewrite zlen_fmap.
  - rewrite zlen_fmap. unfold zlen in *. rewrite length_drop, length_fmap. lia.
  - pose proof (zlen_nonneg (wv w <$> ps)). lia.
Qed.
End Tx.

(** ** Soft combining of the receiver (PHY/CODING/nr_rate_matching.c)

    The receiver adds the soft values to the circular buffer in the order in
    which the transmitter took the bits. *)

(** ** 16 bit sums *)

Lemma i16_small x : - 2 ^ 15 <= x < 2 ^ 15 -> i16 x = x.
Proof. intros Hx. unfold i16. rewrite Z.mod_small by lia. lia. Qed.

Lemma i16_add x y : i16 (i16 x + y) = i16 (x + y).
Proof.
  unfold i16. f_equal. replace ((x + 2 ^ 15) mod 2 ^ 16 - 2 ^ 15 + y + 2 ^ 15) with ((x + 2 ^ 15) mod 2 ^ 16 + y) by lia.
  rewrite Z.add_mod_idemp_l by lia. f_equal. lia.
Qed.

(** ** Adding values at positions *)

Definition acc1 (w : list Z) (ps : Z * Z) : list Z := alter (fun x => i16 (x + snd ps)) (Z.to_nat (fst ps)) w.
Definition acc (w : list Z) (l : list (Z * Z)) : list Z := foldl acc1 w l.

Lemma acc_len w l : zlen (acc w l) = zlen w.
Proof.
  revert w. induction l as [|p l IH]; intros w; [done|]. cbn [acc foldl]. fold (acc (acc1 w p) l). rewrite IH.
  unfold zlen, acc1. by rewrite length_alter.
Qed.

Lemma acc_app w l1 l2 : acc w (l1 ++ l2) = acc (acc w l1) l2.
Proof. apply foldl_app. Qed.

(** The values for position [i]. *)
Definition values_at (i : nat) (l : list (Z * Z)) : list (Z * Z) := filter (fun ps => fst ps = Z.of_nat i) l.

Lemma acc_lookup w l i : (forall p, p ∈ l -> 0 <= fst p) -> (forall x, w !! i = Some x -> - 2 ^ 15 <= x < 2 ^ 15) ->
  acc w l !! i = (fun x => i16 (x + zsum snd (values_at i l))) <$> w !! i.
Proof.
  intros Hl Hw.
  assert (forall (w : list Z), acc w l !! i
    = if bool_decide (values_at i l = []) then w !! i else (fun x => i16 (x + zsum snd (values_at i l))) <$> w !! i) as H.
  { clear w Hw. induction l as [|[p s] l IH]; intros w; [done|].
    change (acc w ((p, s) :: l)) with (acc (acc1 w (p, s)) l). rewrite IH by (intros q Hq; apply Hl; by right).
    unfold values_at. rewrite filter_cons. cbn [fst]. pose proof (Hl (p, s) ltac:(left)) as Hp. cbn [fst] in Hp.
    fold (values_at i l). unfold acc1. cbn [fst snd]. destruct (decide (p = Z.of_nat i)) as [->|Hne].
    - rewrite Nat2Z.id, list_lookup_alter, decide_True by done. rewrite (bool_decide_false ((Z.of_nat i, s) :: values_at i l = [])) by done.
      rewrite zsum_cons. cbn [snd]. destruct (w !! i) as [x|]; cbn [fmap option_fmap option_map]; [|by destruct (bool_decide _)].
      case_bool_decide as Hnil.
      + by rewrite Hnil, zsum_nil, Z.add_0_r.
      + by rewrite i16_add, Z.add_assoc.
    - rewrite list_lookup_alter_ne by lia. done. }
  rewrite H. case_bool_decide as Hnil; [|done]. rewrite Hnil, zsum_nil. destruct (w !! i) as [x|] eqn:E; [|done].
  cbn [fmap option_fmap option_map]. rewrite Z.add_0_r, i16_small; [done|]. by apply Hw.
Qed.

Lemma zip_snoc (soft ps : list Z) p : zlen ps < zlen soft ->
  zip (ps ++ [p]) soft = zip ps soft ++ [(p, nth (length ps) soft 0)].
Proof.
  revert soft. induction ps as [|q ps IH]; intros [|x soft] Hl; rewrite ?zlen_nil, ?zlen_cons in Hl;
    try (exfalso; first [lia|pose proof (zlen_nonneg ps); lia]).
  - done.
  - cbn [app zip_with length nth]. f_equal. apply IH. lia.
Qed.

Section Rx.
Context (Ncb F Foffset E : Z) (soft w0 : list Z).
Context (HF : 0 <= F) (Hoff : 0 <= Foffset) (Hfit : Foffset + F <= Ncb) (HFN : F < Ncb).
Context (Hw : Ncb <= zlen w0) (HE : Foffset <= E < 2 ^ 31) (HN31 : Ncb < 2 ^ 31) (Hsoft : E <= zlen soft).

(** The buffer once [soft] has been added at the positions [ps]. *)
Definition added (ps : list Z) : list Z := acc w0 (zip ps soft).

Lemma rx_run_ok n ind ps : 0 <= ind -> ind + Z.of_nat n <= Ncb -> zlen ps <= E ->
  let qs := take (Z.to_nat (E - zlen ps)) (seqZ ind (Z.of_nat n)) in
  rx_run n E soft ind (zlen ps) (added ps) = Ok (ind + zlen qs, zlen (ps ++ qs), added (ps ++ qs)).
Proof.
  revert ind ps. induction n as [|n IH]; intros ind ps Hi Hn Hp qs.
  - unfold qs. change (seqZ ind (Z.of_nat 0)) with (@nil Z). rewrite take_nil, app_nil_r. cbn [rx_run]. by rewrite zlen_nil, Z.add_0_r.
  - cbn [rx_run]. destruct (zlen ps <? E) eqn:EP; zify_bool.
    2: { unfold qs. replace (Z.to_nat (E - zlen ps)) with 0%nat by lia. rewrite take_0, app_nil_r. by rewrite zlen_nil, Z.add_0_r. }
    pose proof (zlen_nonneg ps) as Hps.
    rewrite (zget_wv (added ps)) by (unfold added; rewrite acc_len; lia). rewrite (zget_wv soft) by lia. cbn [of_option mbind outcome_bind].
    assert (zset (added ps) ind (i16 (wv (added ps) ind + wv soft (zlen ps))) = Some (added (ps ++ [ind]))) as ->.
    { unfold added at 3. rewrite zip_snoc, acc_app by lia. fold (added ps). cbn [acc foldl]. unfold acc1. cbn [fst snd].
      pose proof (acc_len w0 (zip ps soft)) as Hal. fold (added ps) in Hal. pose proof (zget_wv (added ps) ind ltac:(lia)) as Hg.
      unfold zget in Hg. rewrite (proj2 (Z.leb_le _ _)) in Hg by lia. unfold zset.
      rewrite (proj2 (Z.leb_le _ _)), (proj2 (Z.ltb_lt _ _)) by lia. cbn [andb]. f_equal. symmetry.
      rewrite list_insert_alter. apply list_alter_ext; [|done]. intros x Hx. assert (x = wv (added ps) ind) as -> by congruence.
      assert (wv soft (zlen ps) = nth (length ps) soft 0) as -> by (unfold wv, zlen; by rewrite Nat2Z.id). done. }
    cbn [of_option mbind outcome_bind].
    replace (zlen ps + 1) with (zlen (ps ++ [ind])) by (by rewrite zlen_app).
    assert (zlen (ps ++ [ind]) = zlen ps + 1) as Hl1 by (by rewrite zlen_app).
    rewrite IH by lia. rewrite Hl1. unfold qs. rewrite (seqZ_cons ind (Z.of_nat (S n))) by lia. replace (Z.pred (Z.of_nat (S n))) with (Z.of_nat n) by lia.
    replace (Z.to_nat (E - zlen ps)) with (S (Z.to_nat (E - (zlen ps + 1)))) by lia. cbn [take].
    change (ind :: take (Z.to_nat (E - (zlen ps + 1))) (seqZ (Z.succ ind) (Z.of_nat n)))
      with ([ind] ++ take (Z.to_nat (E - (zlen ps + 1))) (seqZ (ind + 1) (Z.of_nat n))).
    rewrite app_assoc. do 2 f_equal. rewrite (zlen_app [ind]). change (zlen [ind]) with 1. f_equal. lia.
Qed.

(** Two runs one behind the other are a run over both. *)
Lemma take_runs (ps l1 l2 : list Z) :
  (ps ++ take (Z.to_nat (E - zlen ps)) l1) ++ take (Z.to_nat (E - zlen (ps ++ take (Z.to_nat (E - zlen ps)) l1))) l2
  = ps ++ take (Z.to_nat (E - zlen ps)) (l1 ++ l2).
Proof.
  rewrite <- app_assoc, take_app_split. do 3 f_equal. rewrite zlen_app. unfold zlen. rewrite length_take. lia.
Qed.

Lemma rx_repeat_ok fuel ps : zlen ps <= E -> E - zlen ps <= Z.of_nat fuel ->
  rx_repeat fuel Ncb F Foffset E soft (zlen ps) (added ps)
  = Ok (added (ps ++ take (Z.to_nat (E - zlen ps)) (turns Ncb F Foffset fuel))).
Proof.
  revert ps. induction fuel as [|fuel IH]; intros ps Hp Hf; cbn [rx_repeat]; destruct (zlen ps <? E) eqn:EP; zify_bool; try lia.
  - replace (Z.to_nat (E - zlen ps)) with 0%nat by lia. by rewrite take_0, app_nil_r.
  - pose proof (rx_run_ok (Z.to_nat Foffset) 0 ps ltac:(lia) ltac:(lia) Hp) as H1. cbv zeta in H1. rewrite Z2Nat.id in H1 by lia.
    rewrite H1. clear H1. cbn [mbind outcome_bind]. rewrite (u32_small (Foffset + F)) by lia.
    set (ps1 := ps ++ take (Z.to_nat (E - zlen ps)) (seqZ 0 Foffset)).
    assert (zlen ps1 <= E) as Hp1 by (unfold ps1, zlen in *; rewrite length_app, length_take; lia).
    pose proof (rx_run_ok (Z.to_nat (Ncb - (Foffset + F))) (Foffset + F) ps1 ltac:(lia) ltac:(lia) Hp1) as H2. cbv zeta in H2.
    rewrite Z2Nat.id in H2 by lia. rewrite H2. clear H2. cbn [mbind outcome_bind]. unfold ps1. rewrite take_runs.
    assert (coded_bits F Foffset 0 Ncb = seqZ 0 Foffset ++ seqZ (Foffset + F) (Ncb - (Foffset + F))) as <-.
    { rewrite coded_split by lia. f_equal; f_equal; lia. }
    pose proof (turn_len Ncb F Foffset HF Hoff Hfit) as Htl.
    change (turns Ncb F Foffset (S fuel)) with (coded_bits F Foffset 0 Ncb ++ turns Ncb F Foffset fuel).
    set (l := coded_bits F Foffset 0 Ncb) in *.
    assert (zlen (ps ++ take (Z.to_nat (E - zlen ps)) l) = zlen ps + Z.min (E - zlen ps) (Ncb - F)) as Hl.
    { rewrite zlen_app. unfold zlen in *. rewrite length_take. lia. }
    rewrite IH by lia. by rewrite take_runs.
  - replace (Z.to_nat (E - zlen ps)) with 0%nat by lia. by rewrite take_0, app_nil_r.
Qed.

Lemma rm_rx_ok k0 : 0 <= k0 < Ncb ->
  ('(ind, k, w) ← rx_run (Z.to_nat (Foffset - k0)) E soft k0 0 w0;
   let ind := skip_filler F Foffset ind in
   '(_, k, w) ← rx_run (Z.to_nat (Ncb - ind)) E soft ind k w;
   rx_repeat (Z.to_nat E) Ncb F Foffset E soft k w)
  = Ok (added (selected Ncb F Foffset k0 E)).
Proof.
  intros Hk.
  pose proof (selected_turns Ncb F Foffset HF Hoff Hfit k0 E (Z.to_nat E) ltac:(lia) HFN ltac:(lia)) as Hsel.
  change w0 with (added []) at 1. change 0 with (zlen (@nil Z)) at 1.
  rewrite (rx_run_ok (Z.to_nat (Foffset - k0)) k0 []) by (rewrite ?zlen_nil; lia). cbn [mbind outcome_bind]. cbv zeta.
  rewrite zlen_nil, Z.sub_0_r. rewrite !app_nil_l.
  set (ps := take (Z.to_nat E) (seqZ k0 (Z.of_nat (Z.to_nat (Foffset - k0))))).
  assert (zlen ps = Z.min E (Z.max 0 (Foffset - k0))) as Hps by (unfold ps, zlen; rewrite length_take, length_seqZ; lia).
  rewrite Hsel, coded_end by done.
  destruct (k0 <? Foffset) eqn:E1; zify_bool.
  - (* before the filler: all of it, since Foffset <= E *)
    assert (ps = seqZ k0 (Foffset - k0)) as Eps.
    { unfold ps. rewrite Z2Nat.id by lia. apply take_ge. rewrite length_seqZ. lia. }
    rewrite Hps. replace (k0 + Z.min E (Z.max 0 (Foffset - k0))) with Foffset by lia. rewrite <- Hps.
    assert (skip_filler F Foffset Foffset = Foffset + F) as ->.
    { unfold skip_filler. rewrite (u32_small (F + Foffset)) by lia.
      destruct (Foffset >=? Foffset) eqn:E2, (Foffset <? F + Foffset) eqn:E3; cbn [andb]; zify_bool; lia. }
    rewrite rx_run_ok by lia. cbn [mbind outcome_bind]. rewrite Z2Nat.id by lia.
    set (ps' := ps ++ take _ _). assert (zlen ps' <= E) as Hp' by (unfold ps'; rewrite zlen_app; unfold zlen in *; rewrite length_take; lia).
    pose proof (zlen_nonneg ps'). rewrite rx_repeat_ok by lia. do 2 f_equal. unfold ps'. rewrite take_runs, Eps.
    replace (Ncb - (Foffset + F)) with (Ncb - Foffset - F) by lia.
    rewrite <- (app_assoc (seqZ k0 _) (seqZ (Foffset + F) _)), (take_app_split (seqZ k0 (Foffset - k0)) _ (Z.to_nat E)).
    rewrite (take_ge (seqZ k0 _)), length_seqZ, zlen_seqZ by (rewrite ?length_seqZ; lia). f_equal. f_equal. lia.
  - assert (ps = []) as Eps by (unfold ps; rewrite seqZ_nil by lia; by rewrite take_nil).
    rewrite Eps, zlen_nil, Z.add_0_r. set (ind := skip_filler F Foffset k0).
    assert (Foffset + F <= ind <= Ncb) as Hind.
    { unfold ind. rewrite (skip_filler_eq Ncb F Foffset) by lia. unfold is_coded. rewrite (proj2 (Z.ltb_ge _ _)) by lia. cbn [orb].
      destruct (Foffset + F <=? k0) eqn:E2; zify_bool; lia. }
    change 0 with (zlen (@nil Z)) at 1. rewrite rx_run_ok by (rewrite ?zlen_nil; lia). cbn [mbind outcome_bind]. rewrite Z2Nat.id by lia.
    set (ps' := [] ++ take _ _). assert (zlen ps' <= E) as Hp' by (unfold ps'; rewrite zlen_app, zlen_nil; unfold zlen; rewrite length_take; unfold zlen; cbn; lia).
    pose proof (zlen_nonneg ps'). rewrite rx_repeat_ok by lia. do 2 f_equal. unfold ps'. rewrite take_runs. by rewrite zlen_nil, Z.sub_0_r.
Qed.
End Rx.
