(* ===== verification/NrCodeword.v ===== *)
(** * Interleaving, and one block of a codeword (PHY/CODING/nr_rate_matching.c,
      PHY/NR_TRANSPORT/nr_tbs_tools.c)

    Interleaving and deinterleaving are loops over a grid of positions, each
    written once; the second undoes the first.  Then a block in both directions,
    and the lengths and offsets of blocks. *)

From S2P Require Import Prelude Crc NrSegmentation NrRateMatching NrRateProps.

Lemma zset_zget (l l' : list Z) i x q : zset l i x = Some l' -> zget l' q = if q =? i then Some x else zget l q.
Proof.
  unfold zset, zget. destruct ((0 <=? i) && (i <? zlen l)) eqn:Ei; [|done]. intros [= <-]. zify_bool. unfold zlen in *.
  destruct (q =? i) eqn:Eq; zify_bool.
  - subst q. rewrite (proj2 (Z.leb_le _ _)) by lia. apply list_lookup_insert_eq. lia.
  - destruct (0 <=? q) eqn:E0; zify_bool; [|done]. apply list_lookup_insert_ne. lia.
Qed.

Section Grid.
Context (n m : Z) (pos val : Z -> Z -> Z) (l0 : list Z).
Context (Hn : 0 <= n) (Hm : 0 <= m) (Hl0 : n * m <= zlen l0).
Context (Hpos : forall i j, 0 <= i < n -> 0 <= j < m -> 0 <= pos i j < n * m).
Context (Hinj : forall i j i' j', 0 <= i < n -> 0 <= j < m -> 0 <= i' < n -> 0 <= j' < m -> pos i j = pos i' j' -> i = i' /\ j = j').

(** The positions before column [j], and those of column [j] before row [i]. *)
Definition grid_inv (j i : Z) (l : list Z) : Prop :=
  zlen l = zlen l0 /\
  (forall i' j', 0 <= i' < n -> 0 <= j' < m -> j' < j \/ (j' = j /\ i' < i) -> zget l (pos i' j') = Some (val i' j')) /\
  (forall q, n * m <= q -> zget l q = zget l0 q).

Lemma grid_ok (body : Z -> Z -> list Z -> outcome (list Z)) :
  (forall j i l, 0 <= i < n -> 0 <= j < m -> zlen l = zlen l0 ->
    body j i l = of_option OutOfBounds (zset l (pos i j) (val i j))) ->
  exists l, cfor (Z.to_nat m) 0 (fun j l => cfor (Z.to_nat n) 0 (body j) l) l0 = Ok l /\ zlen l = zlen l0 /\
    (forall i j, 0 <= i < n -> 0 <= j < m -> zget l (pos i j) = Some (val i j)) /\
    (forall q, n * m <= q -> zget l q = zget l0 q).
Proof.
  intros Hbody.
  edestruct (cfor_inv (fun j l => grid_inv j 0 l) (Z.to_nat m) 0 (fun j l => cfor (Z.to_nat n) 0 (body j) l) l0) as (l & -> & Hl).
  - split_and!; [done| |done]. intros i' j' Hi Hj [?|[? ?]]; lia.
  - intros j l Hj Hl.
    edestruct (cfor_inv (fun i l => grid_inv j i l) (Z.to_nat n) 0 (body j) l) as (l' & -> & Hl'); [exact Hl| |].
    + intros i l1 Hi (Hz & Hd & Ht). rewrite Hbody by lia.
      assert (exists l2, zset l1 (pos i j) (val i j) = Some l2) as [l2 H2] by (pose proof (Hpos i j ltac:(lia) ltac:(lia)); rewrite zset_ok by lia; by eexists).
      exists l2. rewrite H2. split; [done|]. split_and!.
      * rewrite <- Hz. by apply zset_len in H2.
      * intros i' j' Hi' Hj' Hb. rewrite (zset_zget _ _ _ _ _ H2). destruct (pos i' j' =? pos i j) eqn:E; zify_bool.
        -- apply Hinj in E as [-> ->]; [done|lia..].
        -- apply Hd; [done|done|]. destruct Hb as [?|[? ?]]; [by left|]. right. split; [done|].
           destruct (Z.eq_dec i' i) as [->|]; [subst j'; done|lia].
      * intros q Hq. rewrite (zset_zget _ _ _ _ _ H2). pose proof (Hpos i j ltac:(lia) ltac:(lia)).
        rewrite (proj2 (Z.eqb_neq _ _)) by lia. by apply Ht.
    + exists l'. split; [done|]. destruct Hl' as (Hz & Hd & Ht). split_and!; [done| |done].
      intros i' j' Hi' Hj' Hb. apply Hd; [done|done|]. lia.
  - exists l. destruct Hl as (Hz & Hd & Ht). split_and!; [done|done| |done]. intros i j Hi Hj. apply Hd; [done|done|]. lia.
Qed.
End Grid.

(** A position of a grid of [a] columns. *)
Lemma grid_pos a b i j : 0 <= i < a -> 0 <= j < b -> 0 <= j * a + i < a * b.
Proof. nia. Qed.
Lemma grid_inj a i j i' j' : 0 <= i < a -> 0 <= i' < a -> j * a + i = j' * a + i' -> i = i' /\ j = j'.
Proof. intros. assert (j = j') by nia. subst. lia. Qed.

Section Interleave.
Context (E Qm EQm : Z) (HQm : modulation_ok Qm = true) (HE : E = Qm * EQm) (HEQm : 0 <= EQm).

Lemma Qm_pos : 0 < Qm.
Proof. unfold modulation_ok in HQm. repeat (apply orb_true_iff in HQm as [HQm|HQm]); lia. Qed.

Lemma E_div : E / Qm = EQm.
Proof. pose proof Qm_pos. rewrite HE, Z.mul_comm. apply Z.div_mul. lia. Qed.

Lemma interleave_ok e f : E <= zlen e -> E <= zlen f ->
  exists f', nr_interleaving_ldpc E Qm e f = Ok f' /\ zlen f' = zlen f /\
    (forall i j, 0 <= i < Qm -> 0 <= j < EQm -> zget f' (j * Qm + i) = Some (wv e (i * EQm + j))) /\
    (forall q, E <= q -> zget f' q = zget f q).
Proof.
  intros He Hf. pose proof Qm_pos as Hq. unfold nr_interleaving_ldpc. rewrite (proj2 (Z.eqb_neq Qm 0)) by lia.
  cbn [negb require mbind outcome_bind]. rewrite E_div.
  pose proof (zblit_put [] f (replicate (Z.to_nat E) 0) 0 eq_refl) as Hb. cbn [app] in Hb.
  assert (zlen (replicate (Z.to_nat E) 0) = E) as Hr by (unfold zlen; rewrite length_replicate; nia).
  rewrite Hb by lia. cbn [of_option mbind outcome_bind]. rewrite HQm. cbn [require mbind outcome_bind]. clear Hb.
  set (f0 := put [] f _).
  assert (zlen f0 = zlen f) as Hz.
  { unfold f0. rewrite put_pre, app_nil_l, zlen_app, Hr. unfold zlen in *. rewrite length_drop, length_replicate. nia. }
  destruct (grid_ok Qm EQm (fun i j => j * Qm + i) (fun i j => wv e (i * EQm + j)) f0) with
    (body := fun j i f => x ← of_option OutOfBounds (zget e (i * EQm + j)); of_option OutOfBounds (zset f (j * Qm + i) x))
    as (f' & Hf' & Hz' & Hv & Ht); try lia.
  - intros i j Hi Hj. by apply grid_pos.
  - intros i j i' j' Hi Hj Hi' Hj' Heq. by apply (grid_inj Qm).
  - intros j i l Hi Hj Hl. rewrite zget_wv by nia. done.
  - exists f'. split_and!; [exact Hf'|lia|exact Hv|]. intros q Hq'. rewrite Ht by lia. unfold f0. rewrite put_pre, app_nil_l.
    unfold zget. destruct (0 <=? q) eqn:E0; zify_bool; [|done]. rewrite lookup_app_r by (rewrite length_replicate; lia).
    rewrite lookup_drop, length_replicate. f_equal. lia.
Qed.

Lemma deinterleave_ok e f : E <= zlen e -> E <= zlen f ->
  exists e', nr_deinterleaving_ldpc E Qm e f = Ok e' /\ zlen e' = zlen e /\
    (forall i j, 0 <= i < Qm -> 0 <= j < EQm -> zget e' (i * EQm + j) = Some (wv f (j * Qm + i))).
Proof.
  intros He Hf. pose proof Qm_pos as Hq. unfold nr_deinterleaving_ldpc. rewrite HQm. cbn [require mbind outcome_bind].
  assert (E mod Qm = 0) as Hmod by (rewrite HE, Z.mul_comm; apply Z.mod_mul; lia).
  rewrite Hmod, E_div. cbn [Z.eqb require mbind outcome_bind].
  destruct (grid_ok Qm EQm (fun i j => i * EQm + j) (fun i j => wv f (j * Qm + i)) e) with
    (body := fun j i e => x ← of_option OutOfBounds (zget f (j * Qm + i)); of_option OutOfBounds (zset e (i * EQm + j) x))
    as (e' & He' & Hz' & Hv & _); try lia.
  - intros i j Hi Hj. pose proof (grid_pos EQm Qm j i Hj Hi). lia.
  - intros i j i' j' Hi Hj Hi' Hj' Heq. destruct (grid_inj EQm j i j' i' Hj Hj' Heq). done.
  - intros j i l Hi Hj Hl. rewrite zget_wv by nia. done.
  - exists e'. split_and!; [exact He'|exact Hz'|exact Hv].
Qed.

(** Soft values of interleaved bits come back in the order of the bits. *)
Lemma interleave_roundtrip (g : Z -> Z) e f f' rest e0 : zlen e = E -> E <= zlen f -> zlen e0 = E ->
  nr_interleaving_ldpc E Qm e f = Ok f' ->
  nr_deinterleaving_ldpc E Qm e0 (take (Z.to_nat E) (g <$> f') ++ rest) = Ok (g <$> e).
Proof.
  intros He Hf He0 Hint. pose proof Qm_pos as Hq. destruct (interleave_ok e f ltac:(lia) Hf) as (f1 & H1 & Hz1 & Hv1 & _).
  assert (f1 = f') as -> by congruence.
  assert (zlen (take (Z.to_nat E) (g <$> f')) = E) as Hzt by (unfold zlen in *; rewrite length_take, length_fmap; nia).
  destruct (deinterleave_ok e0 (take (Z.to_nat E) (g <$> f') ++ rest) ltac:(lia)) as (e' & -> & Hz & Hv).
  { rewrite zlen_app. pose proof (zlen_nonneg rest). lia. }
  f_equal. apply list_eq. intros k. rewrite list_lookup_fmap. destruct (Nat.lt_ge_cases k (Z.to_nat E)) as [Hk|Hk].
  - set (i := Z.of_nat k / EQm). set (j := Z.of_nat k mod EQm).
    assert (0 < EQm) as Hpos by nia.
    pose proof (Z.div_mod (Z.of_nat k) EQm ltac:(lia)) as Hdm. pose proof (Z.mod_pos_bound (Z.of_nat k) EQm Hpos) as Hj.
    fold i j in Hdm, Hj. assert (0 <= i < Qm) as Hi by nia.
    specialize (Hv i j Hi Hj). specialize (Hv1 i j Hi Hj). pose proof (grid_pos Qm EQm i j Hi Hj) as Hg.
    assert (zget e' (Z.of_nat k) = Some (g (wv e (Z.of_nat k)))) as Hk'.
    { replace (Z.of_nat k) with (i * EQm + j) by lia. rewrite Hv. f_equal.
      assert (zget (take (Z.to_nat E) (g <$> f') ++ rest) (j * Qm + i) = Some (g (wv e (i * EQm + j)))) as Hr.
      { unfold zget in *. rewrite (proj2 (Z.leb_le _ _)) in * by lia. rewrite lookup_app_l by (unfold zlen in Hzt; lia).
        rewrite lookup_take_lt, list_lookup_fmap, Hv1 by lia. done. }
      rewrite zget_wv in Hr by (rewrite zlen_app; pose proof (zlen_nonneg rest); lia). congruence. }
    pose proof (zget_wv e (Z.of_nat k) ltac:(lia)) as Hek. unfold zget in Hk', Hek.
    rewrite (proj2 (Z.leb_le _ _)), Nat2Z.id in Hk', Hek by lia. by rewrite Hk', Hek.
  - rewrite !lookup_ge_None_2 by (unfold zlen in *; lia). done.
Qed.
End Interleave.

(** ** Rate matching of one block, and the places of the blocks in the codeword
      (PHY/CODING/nr_rate_matching.c, PHY/NR_TRANSPORT/nr_tbs_tools.c) *)

(** ** The first bit *)

Lemma rm_k0_ok BG rvidx Ncb Z_ : BG = 1 \/ BG = 2 -> 0 <= rvidx < 4 -> 1 <= Z_ <= 384 -> 0 < Ncb <= rm_N BG Z_ ->
  exists k0, rm_k0 BG rvidx Ncb (rm_N BG Z_) Z_ = Ok k0 /\ 0 <= k0 < Ncb.
Proof.
  intros HBG Hrv HZ HN. unfold rm_N in *.
  assert (exists row c, zget index_k0 (BG - 1) = Some row /\ zget row rvidx = Some c /\ 0 <= c /\ c < (if BG =? 1 then 66 else 50))
    as (row & c & Hrow & Hc & Hc0 & Hc1).
  { assert (rvidx = 0 \/ rvidx = 1 \/ rvidx = 2 \/ rvidx = 3) as Hcases by lia.
    destruct HBG as [-> | ->]; destruct Hcases as [E|[E|[E|E]]]; subst rvidx; eexists _, _; (split; [reflexivity|]); (split; [reflexivity|]); cbn; lia. }
  unfold rm_k0. rewrite Hrow. cbn [of_option mbind outcome_bind]. rewrite Hc. cbn [of_option mbind outcome_bind].
  set (N := if BG =? 1 then 66 * Z_ else 50 * Z_) in *.
  assert (exists n, N = n * Z_ /\ c < n /\ 50 <= n <= 66) as (n & HNn & Hcn & Hn).
  { unfold N in *. destruct (BG =? 1); eexists; split; [reflexivity|lia|reflexivity|lia]. }
  rewrite (proj2 (Z.eqb_neq N 0)) by nia. cbn [negb require mbind outcome_bind].
  assert (0 <= c * Ncb < 2 ^ 32) as Hb by nia. rewrite (u32_small (c * Ncb)) by lia.
  pose proof (Z.div_mod (c * Ncb) N ltac:(nia)) as Hdm. pose proof (Z.mod_pos_bound (c * Ncb) N ltac:(nia)) as Hm.
  pose proof (Z.div_pos (c * Ncb) N ltac:(nia) ltac:(nia)) as Hq. set (q := c * Ncb / N) in *.
  assert (q * Z_ < Ncb) as Hlt.
  { assert (n * (q * Z_) <= c * Ncb) by (rewrite HNn in *; nia). nia. }
  eexists. split; [reflexivity|]. rewrite u32_small by nia. nia.
Qed.

(** ** One block *)

Section Block.
Context (Tbslbrm BG Z_ C F Foffset rvidx E : Z).
Definition bm_Ncb : Z := rm_Ncb Tbslbrm C (rm_N BG Z_).

Definition block_ok : Prop :=
  (BG = 1 \/ BG = 2) /\ 0 <= rvidx < 4 /\ 1 <= Z_ <= 384 /\ 1 <= C < 256 /\ 0 <= Tbslbrm < 2 ^ 30 /\
  0 <= F /\ 0 <= Foffset /\ Foffset + F <= bm_Ncb /\ F < bm_Ncb /\ Foffset <= E < 2 ^ 31.
Context (Hok : block_ok).

Lemma Ncb_bounds : bm_Ncb <= rm_N BG Z_ /\ 0 < bm_Ncb /\ rm_N BG Z_ < 2 ^ 20.
Proof.
  destruct Hok as (HBG & _ & HZ & HC & HT & HF & Ho & Hfit & HFN & _). unfold rm_N in *. split_and!; [|lia|].
  - unfold bm_Ncb, rm_Ncb, rm_N. destruct (Tbslbrm =? 0); [lia|]. apply Z.le_min_l.
  - destruct HBG as [-> | ->]; cbn; lia.
Qed.

Definition bm_k0 : Z := match rm_k0 BG rvidx bm_Ncb (rm_N BG Z_) Z_ with Ok k0 => k0 | Fault _ => 0 end.

Lemma bm_k0_ok : rm_k0 BG rvidx bm_Ncb (rm_N BG Z_) Z_ = Ok bm_k0 /\ 0 <= bm_k0 < bm_Ncb.
Proof.
  pose proof Ncb_bounds as (H1 & H2 & H3). destruct Hok as (HBG & Hrv & HZ & _).
  destruct (rm_k0_ok BG rvidx bm_Ncb Z_ HBG Hrv HZ ltac:(lia)) as (k0 & Hk & Hk0). unfold bm_k0. by rewrite Hk.
Qed.

(** The order in which the bits of the block are taken. *)
Definition order : list Z := selected bm_Ncb F Foffset bm_k0 E.

Lemma order_len : zlen order = E.
Proof.
  pose proof bm_k0_ok as [_ Hk]. destruct Hok as (_ & _ & _ & _ & _ & HF & Ho & Hfit & HFN & HE).
  apply selected_len; lia.
Qed.

Lemma order_elem i : i ∈ order -> 0 <= i < bm_Ncb /\ is_coded F Foffset i = true.
Proof.
  pose proof bm_k0_ok as [_ Hk]. destruct Hok as (_ & _ & _ & _ & _ & HF & Ho & Hfit & HFN & HE).
  apply elem_of_selected; lia.
Qed.

(** The encoder's output with the filler marked. *)
Definition filled (coded d : list Z) : Prop :=
  zlen d = zlen coded /\ (forall i, 0 <= i < bm_Ncb -> wv d i = if is_coded F Foffset i then wv coded i else NR_NULL).
Definition coded_ok (coded : list Z) : Prop :=
  bm_Ncb <= zlen coded /\ forall i, 0 <= i < bm_Ncb -> is_coded F Foffset i = true -> wv coded i <> NR_NULL.

Lemma block_tx coded d e : coded_ok coded -> filled coded d -> zlen e = E ->
  nr_rate_matching_ldpc Tbslbrm BG Z_ d e C F Foffset rvidx E = Ok (0, wv coded <$> order).
Proof.
  intros [Hc1 Hc2] [Hd1 Hd2] He. pose proof Ncb_bounds as (HN1 & HN2 & HN3). pose proof bm_k0_ok as [Hk Hk0].
  pose proof order_len as Hol. pose proof order_elem as Hoe.
  pose proof Hok as (_ & _ & _ & HC & _ & HF & Ho & Hfit & HFN & HE).
  unfold nr_rate_matching_ldpc. rewrite (proj2 (Z.eqb_neq C 0)) by lia. cbv zeta. fold bm_Ncb. rewrite Hk. cbn [mbind outcome_bind].
  assert ((Foffset >? E) = false) as -> by (rewrite Z.gtb_ltb; apply Z.ltb_ge; lia).
  assert ((Foffset >? bm_Ncb) = false) as -> by (rewrite Z.gtb_ltb; apply Z.ltb_ge; lia).
  pose proof (rm_tx_ok bm_Ncb F Foffset E d HF Ho Hfit HFN ltac:(lia) ltac:(lia) ltac:(lia)) as Htx.
  specialize (Htx ltac:(intros i Hi; rewrite (Hd2 i Hi); destruct (is_coded F Foffset i) eqn:Ei; [by apply Z.eqb_neq, Hc2|done]) bm_k0 e Hk0 ltac:(lia)).
  destruct (rm_first _ _ _ _ _ _ _) as [[k e1]|] eqn:E1; cbn [mbind outcome_bind] in *; [|done]. rewrite Htx. cbn [mbind outcome_bind].
  f_equal. f_equal. fold order. rewrite put_pre, app_nil_l, length_fmap.
  rewrite (drop_ge e) by (unfold zlen in *; lia). rewrite app_nil_r. apply list_fmap_ext. intros j i Hi.
  apply list_elem_of_lookup_2, Hoe in Hi as [Hi1 Hi2]. by rewrite Hd2, Hi2.
Qed.

Lemma block_rx clear soft w : bm_Ncb <= zlen w -> zlen soft = E ->
  nr_rate_matching_ldpc_rx Tbslbrm BG Z_ w soft C rvidx (b2z clear) E F Foffset
  = Ok (0, acc (if clear then put [] w (replicate (Z.to_nat bm_Ncb) 0) else w) (zip order soft)).
Proof.
  intros Hw Hs. pose proof Ncb_bounds as (HN1 & HN2 & HN3). pose proof bm_k0_ok as [Hk Hk0].
  pose proof Hok as (_ & _ & _ & HC & _ & HF & Ho & Hfit & HFN & HE).
  unfold nr_rate_matching_ldpc_rx. rewrite (proj2 (Z.eqb_neq C 0)) by lia. cbv zeta. fold bm_Ncb. rewrite Hk. cbn [mbind outcome_bind].
  assert ((Foffset >? E) = false) as -> by (rewrite Z.gtb_ltb; apply Z.ltb_ge; lia).
  assert ((Foffset >? bm_Ncb) = false) as -> by (rewrite Z.gtb_ltb; apply Z.ltb_ge; lia).
  set (w0 := if clear then _ else _).
  assert (zlen w0 = zlen w) as Hw0.
  { unfold w0. destruct clear; [|done]. rewrite put_pre, app_nil_l, zlen_app. unfold zlen in *. rewrite length_drop, !length_replicate. lia. }
  assert ((if b2z clear =? 1 then of_option OutOfBounds (zblit w 0 (replicate (Z.to_nat bm_Ncb) 0)) else Ok w) = Ok w0) as ->.
  { unfold w0. destruct clear; [|done]. cbn [b2z Z.eqb Pos.eqb]. change w with ([] ++ w) at 1.
    by rewrite zblit_put by (done || (unfold zlen in *; rewrite length_replicate; lia)). }
  cbn [mbind outcome_bind].
  pose proof (rm_rx_ok bm_Ncb F Foffset E soft w0 HF Ho Hfit HFN ltac:(lia) ltac:(lia) ltac:(lia) ltac:(lia) bm_k0 Hk0) as Hrx.
  cbv zeta in Hrx. destruct (rx_run _ _ _ bm_k0 0 w0) as [[[ind k] w1]|]; cbn [mbind outcome_bind] in *; [|done].
  destruct (rx_run _ _ _ (skip_filler F Foffset ind) k w1) as [[[ind2 k2] w2]|]; cbn [mbind outcome_bind] in *; [|done].
  by rewrite Hrx.
Qed.
End Block.

(** ** Lengths and offsets *)

Section Offsets.
Context (p : dl_params).
Definition unit_bits : Z := dl_Nl p * dl_Qm p.
Definition share : Z := dl_G p / unit_bits / dl_n_segments p.
Definition extra : Z := (dl_G p / unit_bits) mod dl_n_segments p.

Definition lengths_ok : Prop :=
  1 <= dl_n_segments p < 256 /\ modulation_ok (dl_Qm p) = true /\ 1 <= dl_Nl p <= 4 /\
  0 <= dl_G p < 2 ^ 28 /\ dl_G p mod unit_bits = 0.
Context (Hok : lengths_ok).

Lemma unit_bounds : 0 < unit_bits <= 32.
Proof.
  destruct Hok as (_ & HQm & HNl & _). unfold unit_bits. unfold modulation_ok in HQm.
  repeat (apply orb_true_iff in HQm as [HQm|HQm]); zify_bool; nia.
Qed.

(** The length of block [r]. *)
Definition E_of (r : Z) : Z := unit_bits * (share + (if r <? dl_n_segments p - extra then 0 else 1)).
(** Where block [r] begins. *)
Definition off (r : Z) : Z := unit_bits * (r * share + Z.max 0 (r - (dl_n_segments p - extra))).

Lemma extra_bounds : 0 <= extra < dl_n_segments p /\ 0 <= share /\ dl_G p = unit_bits * (dl_n_segments p * share + extra).
Proof.
  pose proof unit_bounds as Hu. destruct Hok as (HC & _ & _ & HG & Hmod). unfold extra, share.
  set (u := dl_G p / unit_bits). assert (0 <= u) by (apply Z.div_pos; lia).
  split; [apply Z.mod_pos_bound; lia|]. split; [apply Z.div_pos; lia|].
  pose proof (Z.div_mod (dl_G p) unit_bits ltac:(lia)) as H1. rewrite Hmod in H1. fold u in H1.
  pose proof (Z.div_mod u (dl_n_segments p) ltac:(lia)). nia.
Qed.

Lemma off_0 : off 0 = 0.
Proof. pose proof extra_bounds. unfold off. rewrite Z.max_l by lia. lia. Qed.
Lemma off_S r : off (r + 1) = off r + E_of r.
Proof.
  unfold off, E_of. destruct (r <? dl_n_segments p - extra) eqn:E; zify_bool; [rewrite !Z.max_l by lia|rewrite !Z.max_r by lia]; ring.
Qed.
Lemma off_all : off (dl_n_segments p) = dl_G p.
Proof. pose proof extra_bounds as (H1 & H2 & H3). unfold off. rewrite H3. rewrite Z.max_r by lia. lia. Qed.
Lemma E_of_nonneg r : 0 <= E_of r.
Proof. pose proof extra_bounds. pose proof unit_bounds. unfold E_of. case_if; nia. Qed.
Lemma off_mono a b : a <= b -> off a <= off b.
Proof.
  intros Hab. pose proof extra_bounds. pose proof unit_bounds. unfold off. apply Z.mul_le_mono_nonneg_l; [lia|].
  assert (a * share <= b * share) by (apply Z.mul_le_mono_nonneg_r; lia). lia.
Qed.
Lemma off_range r : 0 <= r <= dl_n_segments p -> 0 <= off r <= dl_G p.
Proof.
  intros Hr. rewrite <- off_all. rewrite <- off_0 at 1. split; apply off_mono; lia.
Qed.

Lemma dl_E_ok r : 0 <= r < dl_n_segments p -> dl_E p r = Ok (E_of r).
Proof.
  intros Hr. pose proof extra_bounds as (Hx & Hs & HG). pose proof unit_bounds as Hu. pose proof Hok as (HC & _ & _ & HG2 & _).
  pose proof (off_range (r + 1) ltac:(lia)) as Ho. pose proof (off_range r ltac:(lia)) as Ho2. rewrite off_S in Ho.
  unfold dl_E, nr_get_E. fold unit_bits. unfold u8. rewrite !Z.mod_small by lia.
  rewrite (proj2 (Z.eqb_neq (unit_bits * dl_n_segments p) 0)) by nia. cbn [negb require mbind outcome_bind].
  rewrite <- Z.div_div by lia. fold share. fold extra.
  rewrite (u32_small (dl_n_segments p - extra)), (u32_small (_ - 1)) by lia. unfold E_of in *.
  destruct (r <? dl_n_segments p - extra) eqn:E; zify_bool.
  - rewrite (proj2 (Z.leb_le _ _)), u32_small by lia. f_equal. lia.
  - rewrite (proj2 (Z.leb_gt _ _)), u32_small by lia. done.
Qed.

Lemma E_of_units r : E_of r = dl_Qm p * (dl_Nl p * (share + (if r <? dl_n_segments p - extra then 0 else 1))).
Proof. unfold E_of, unit_bits. lia. Qed.

Lemma dl_offset_ok n : 0 <= n <= dl_n_segments p -> dl_offset p n = Ok (off n).
Proof.
  intros Hn. unfold dl_offset. pose proof Hok as (HC & _ & _ & HG & _).
  destruct (cfor_inv (fun i o => o = off i) (Z.to_nat n) 0 (fun i o => E ← dl_E p i; Ok (u32 (o + E))) 0) as (o & -> & ->).
  - by rewrite off_0.
  - intros i o Hi ->. rewrite dl_E_ok by lia. cbn [mbind outcome_bind]. eexists. split; [reflexivity|].
    rewrite <- off_S. pose proof (off_range (i + 1) ltac:(lia)). by rewrite u32_small by lia.
  - do 2 f_equal. lia.
Qed.
End Offsets.

(** ** Frames *)

Lemma zslice_ext (l l' : list Z) o n : zlen l = zlen l' -> 0 <= o -> (forall q, o <= q < o + n -> zget l q = zget l' q) ->
  zslice l o n = zslice l' o n.
Proof.
  intros Hl Ho Hq. destruct (decide (0 <= n /\ o + n <= zlen l)) as [[Hn Hfit]|Hno].
  - rewrite !zslice_wv by lia. f_equal. apply list_fmap_ext. intros k i Hi.
    apply list_elem_of_lookup_2, elem_of_seqZ in Hi. specialize (Hq i Hi). rewrite !zget_wv in Hq by lia. congruence.
  - unfold zslice. rewrite <- Hl. destruct ((0 <=? o) && (0 <=? n) && (o + n <=? zlen l)) eqn:E; [|done]. zify_bool. lia.
Qed.
