(* ===== verification/NrCodewordMain.v ===== *)
(** * A codeword from code blocks and back
      (PHY/NR_TRANSPORT/nr_dlsch_coding.c, nr_ulsch_decoding.c, nr_tbs_tools.c,
      PHY/CODING/nr_rate_matching.c) *)

From S2P Require Import Prelude Crc NrSegmentation NrRateMatching NrRateProps NrCodeword.

Section Codeword.
Context (p : dl_params).

(** The parameters of a transport block: lengths, and for every block a buffer
    of coded bits of which it sends at least the bits before the filler. *)
Definition dl_ok : Prop :=
  lengths_ok p /\
  forall r, 0 <= r < dl_n_segments p ->
    block_ok (dl_Tbslbrm p) (dl_BG p) (dl_Zc p) (dl_n_segments p) (dl_F p) (dl_Foffset p) (dl_rv p) (E_of p r).

(** The size of the circular buffers, and the order in which block [r] is sent. *)
Definition buffer_size : Z := bm_Ncb (dl_Tbslbrm p) (dl_BG p) (dl_Zc p) (dl_n_segments p).
Definition order_of (r : Z) : list Z :=
  order (dl_Tbslbrm p) (dl_BG p) (dl_Zc p) (dl_n_segments p) (dl_F p) (dl_Foffset p) (dl_rv p) (E_of p r).

(** The encoder's bits: none of them is the mark of the filler. *)
Definition encoded (coded : list Z) : Prop :=
  coded_ok (dl_Tbslbrm p) (dl_BG p) (dl_Zc p) (dl_n_segments p) (dl_F p) (dl_Foffset p) coded.

Context (Hok : dl_ok).

Lemma order_of_len r : 0 <= r < dl_n_segments p -> zlen (order_of r) = E_of p r.
Proof. intros Hr. apply order_len. by apply (proj2 Hok). Qed.

Lemma fill_ok coded : encoded coded -> exists d,
  (if dl_F p >? 0 then of_option OutOfBounds (zblit coded (dl_Foffset p) (replicate (Z.to_nat (dl_F p)) NR_NULL)) else Ok coded) = Ok d /\
  filled (dl_Tbslbrm p) (dl_BG p) (dl_Zc p) (dl_n_segments p) (dl_F p) (dl_Foffset p) coded d.
Proof.
  intros [Hc _]. destruct Hok as [[HC _] Hb]. destruct (Hb 0 ltac:(lia)) as (_ & _ & _ & _ & _ & HF & Ho & Hfit & HFN & _).
  destruct (dl_F p >? 0) eqn:EF; zify_bool.
  - assert (zlen (replicate (Z.to_nat (dl_F p)) NR_NULL) = dl_F p) as Hr by (unfold zlen; rewrite length_replicate; lia).
    destruct (firstn_split coded (dl_Foffset p)) as (l1 & l2 & -> & Hl1); [lia|].
    rewrite zlen_app in Hc.
    rewrite (zblit_put l1 l2) by lia. cbn [of_option]. eexists. split; [done|].
    assert (zlen (put l1 l2 (replicate (Z.to_nat (dl_F p)) NR_NULL)) = zlen (l1 ++ l2)) as Hlen.
    { unfold put. rewrite !zlen_app, Hr. unfold zlen in *. rewrite length_drop, length_replicate. lia. }
    split; [exact Hlen|]. intros i Hi. unfold wv, put, is_coded. unfold zlen in Hl1.
    destruct (i <? dl_Foffset p) eqn:E1; zify_bool; cbn [orb].
    + rewrite !app_nth1 by lia. done.
    + rewrite app_nth2 by lia. destruct (dl_Foffset p + dl_F p <=? i) eqn:E2; zify_bool.
      * rewrite app_nth2 by (rewrite length_replicate; lia). rewrite app_nth2 by lia. rewrite nth_skipn. f_equal. rewrite length_replicate. lia.
      * rewrite app_nth1 by (rewrite length_replicate; lia). apply nth_lookup_Some, lookup_replicate_2. lia.
  - eexists. split; [done|]. split; [done|]. intros i Hi. unfold is_coded.
    destruct (i <? dl_Foffset p) eqn:E1, (dl_Foffset p + dl_F p <=? i) eqn:E2; cbn [orb]; zify_bool; done || lia.
Qed.

(** Block [r] is where it belongs. *)
Definition placed (coded : list Z) (r : Z) (output : list Z) : Prop :=
  exists f f', E_of p r <= zlen f /\
    nr_interleaving_ldpc (E_of p r) (dl_Qm p) (wv coded <$> order_of r) f = Ok f' /\
    zslice output (off p r) (E_of p r) = Some (take (Z.to_nat (E_of p r)) f').

Lemma placed_ext coded r o1 o2 : 0 <= off p r -> zlen o1 = zlen o2 ->
  (forall q, off p r <= q < off p (r + 1) -> zget o1 q = zget o2 q) -> placed coded r o1 -> placed coded r o2.
Proof.
  intros Hr Hl Hq (f & f' & H1 & H2 & H3). exists f, f'. split_and!; [done|done|]. rewrite <- H3.
  apply zslice_ext; [done|done|]. intros q Hqr. symmetry. apply Hq. rewrite off_S. lia.
Qed.

Lemma ldpc_block_ok coded r output : encoded coded -> 0 <= r < dl_n_segments p -> dl_G p <= zlen output ->
  exists output', ldpc_block p coded r (off p r) output = Ok (off p (r + 1), output') /\ zlen output' = zlen output /\
    placed coded r output' /\ (forall q, q < off p r \/ off p (r + 1) <= q -> zget output' q = zget output q).
Proof.
  intros Hc Hr Hout. destruct (fill_ok coded Hc) as (d & Hd & Hfill). pose proof Hok as [Hl Hb]. pose proof Hl as (HC & HQm & _ & HG & _).
  pose proof (E_of_nonneg p Hl r) as HE0. pose proof (off_range p Hl r ltac:(lia)) as Ho1. pose proof (off_range p Hl (r + 1) ltac:(lia)) as Ho2.
  rewrite off_S in *. unfold ldpc_block. rewrite Hd, (dl_E_ok p Hl r Hr). cbn [mbind outcome_bind].
  assert (u8 (dl_n_segments p) = dl_n_segments p) as Hu8 by (apply Z.mod_small; lia). rewrite Hu8.
  rewrite (block_tx _ _ _ _ _ _ _ _ (Hb r Hr) coded d) by (done || (unfold zlen; rewrite length_replicate; lia)).
  cbn [mbind outcome_bind]. fold (order_of r). pose proof (order_of_len r Hr) as Hol.
  destruct (firstn_split output (off p r)) as (l1 & l2 & -> & Hl1); [lia|]. rewrite zlen_app in *.
  assert (zslice (l1 ++ l2) (off p r) (zlen l1 + zlen l2 - off p r) = Some l2) as ->.
  { rewrite <- Hl1. apply zslice_app_r. lia. }
  cbn [of_option mbind outcome_bind].
  destruct (interleave_ok (E_of p r) (dl_Qm p) _ HQm (E_of_units p r)) with (e := wv coded <$> order_of r) (f := l2)
    as (f' & Hf' & Hz' & _ & Ht').
  { pose proof (unit_bounds p Hl). pose proof (extra_bounds p Hl) as (_ & Hs & _). destruct Hl as (_ & _ & HNl & _). case_if; nia. }
  { rewrite zlen_fmap. lia. }
  { lia. }
  rewrite Hf'. cbn [mbind outcome_bind]. rewrite (zblit_put l1 l2) by lia. cbn [of_option mbind outcome_bind].
  rewrite put_pre, (drop_ge l2), app_nil_r by (unfold zlen in *; lia).
  exists (l1 ++ f'). rewrite u32_small by lia. split_and!; [done|rewrite zlen_app; lia| |].
  - exists l2, f'. split_and!; [lia|done|]. rewrite zslice_ok by (rewrite ?zlen_app; lia). f_equal.
    rewrite drop_app_length' by (unfold zlen in Hl1; lia). done.
  - intros q Hq. unfold zget. destruct (0 <=? q) eqn:E0; zify_bool; [|done].
    destruct Hq as [Hq|Hq].
    + rewrite !lookup_app_l by (unfold zlen in Hl1; lia). done.
    + rewrite !lookup_app_r by (unfold zlen in Hl1; lia). specialize (Ht' (q - zlen l1) ltac:(lia)). unfold zget in Ht'.
      rewrite (proj2 (Z.leb_le _ _)) in Ht' by lia. unfold zlen in *.
      replace (Z.to_nat q - length l1)%nat with (Z.to_nat (q - Z.of_nat (length l1))) by lia. exact Ht'.
Qed.
(** ** The threads *)

(** The blocks of thread [i]. *)
Definition thread_end (i : Z) : Z := Z.min (dl_n_segments p) ((i + 1) * 8).

Lemma ldpc8blocks_ok coded i output :
  (forall r d, zget coded r = Some d -> encoded d) -> zlen coded = dl_n_segments p ->
  0 <= i -> i * 8 < dl_n_segments p -> dl_G p <= zlen output ->
  exists output', ldpc8blocks p coded i output = Ok output' /\ zlen output' = zlen output /\
    (forall r, i * 8 <= r < thread_end i -> placed (nth (Z.to_nat r) coded []) r output') /\
    (forall q, q < off p (i * 8) \/ off p (thread_end i) <= q -> zget output' q = zget output q).
Proof.
  intros Hc Hlc Hi Hi8 Hout. pose proof Hok as [Hl _]. unfold ldpc8blocks. rewrite dl_offset_ok by (done || lia).
  cbn [mbind outcome_bind]. fold (thread_end i). assert (i * 8 <= thread_end i <= dl_n_segments p) as Hte by (unfold thread_end; lia).
  edestruct (cfor_inv (fun r '(o, out) => o = off p r /\ zlen out = zlen output /\
      (forall r', i * 8 <= r' < r -> placed (nth (Z.to_nat r') coded []) r' out) /\
      (forall q, q < off p (i * 8) \/ off p r <= q -> zget out q = zget output q))
    (Z.to_nat (thread_end i - i * 8)) (i * 8)) as ([o out] & -> & Ho & Hz & Hp & Hq).
  - split_and!; [done|done|intros; lia|done].
  - intros r [o out] Hr (-> & Hz & Hp & Hq). destruct (zget_ok coded r) as [d Hd]; [lia|]. rewrite Hd. cbn [of_option mbind outcome_bind].
    destruct (ldpc_block_ok d r out (Hc r d Hd) ltac:(lia) ltac:(lia)) as (out' & -> & Hz' & Hp' & Hq').
    pose proof (off_range p Hl (i * 8) ltac:(lia)) as Hoi.
    eexists. split; [reflexivity|]. split_and!; [done|lia| |].
    + intros r' Hr'. destruct (Z.eq_dec r' r) as [->|Hne].
      * unfold zget in Hd. rewrite (proj2 (Z.leb_le _ _)) in Hd by lia. by rewrite (nth_lookup_Some _ _ [] _ Hd).
      * apply (placed_ext _ _ out); [|lia| |apply Hp; lia].
        -- apply (off_range p Hl). lia.
        -- intros q Hqr. symmetry. apply Hq'. left. pose proof (off_mono p Hl (r' + 1) r ltac:(lia)). lia.
    + intros q Hqr. pose proof (off_mono p Hl (i * 8) r ltac:(lia)). pose proof (off_mono p Hl r (r + 1) ltac:(lia)).
      rewrite Hq' by lia. apply Hq. lia.
  - cbn [mbind outcome_bind]. exists out. replace (i * 8 + Z.of_nat (Z.to_nat (thread_end i - i * 8))) with (thread_end i) in * by lia.
    split_and!; done.
Qed.

Lemma ldpc_threads_ok coded macros output :
  (forall r d, zget coded r = Some d -> encoded d) -> zlen coded = dl_n_segments p -> dl_G p <= zlen output ->
  NoDup macros -> (forall i, i ∈ macros -> 0 <= i /\ i * 8 < dl_n_segments p) ->
  exists output', ldpc_threads p coded macros output = Ok output' /\ zlen output' = zlen output /\
    (forall r, 0 <= r < dl_n_segments p -> r / 8 ∈ macros -> placed (nth (Z.to_nat r) coded []) r output') /\
    (forall r q, 0 <= r < dl_n_segments p -> r / 8 ∉ macros -> off p r <= q < off p (r + 1) -> zget output' q = zget output q).
Proof.
  intros Hc Hlc Hout Hnd Hm. pose proof Hok as [Hl _]. revert output Hout. induction macros as [|i macros IH]; intros output Hout.
  - exists output. split_and!; [done|done|by intros r _ ?%not_elem_of_nil|done].
  - apply NoDup_cons in Hnd as [Hi Hnd]. destruct (Hm i ltac:(left)) as [Hi0 Hi8].
    destruct (ldpc8blocks_ok coded i output Hc Hlc Hi0 Hi8 Hout) as (o1 & H1 & Hz1 & Hp1 & Hq1).
    destruct (IH Hnd ltac:(intros j Hj; apply Hm; by right) o1 ltac:(lia)) as (o2 & H2 & Hz2 & Hp2 & Hq2).
    cbn [ldpc_threads]. rewrite H1. cbn [mbind outcome_bind]. exists o2. split_and!; [done|lia| |].
    + intros r Hr [E|Hin]%elem_of_cons; [|by apply Hp2].
      pose proof (Z.div_mod r 8 ltac:(lia)) as Hdm. pose proof (Z.mod_pos_bound r 8 ltac:(lia)) as Hmod.
      apply (placed_ext _ _ o1); [apply (off_range p Hl); lia|lia| |].
      * intros q Hq. symmetry. apply (Hq2 r q Hr); [by rewrite E|done].
      * apply Hp1. unfold thread_end. lia.
    + intros r q Hr [Hne Hnin]%not_elem_of_cons Hq. rewrite (Hq2 r q Hr Hnin Hq). apply Hq1.
      pose proof (Z.div_mod r 8 ltac:(lia)) as Hdm. pose proof (Z.mod_pos_bound r 8 ltac:(lia)) as Hmod.
      assert (r + 1 <= i * 8 \/ thread_end i <= r) as [H|H] by (unfold thread_end; lia).
      * left. pose proof (off_mono p Hl (r + 1) (i * 8) H). lia.
      * right. pose proof (off_mono p Hl (thread_end i) r H). lia.
Qed.

(** ** The receiver *)

(** How often bit [i] of block [r] is sent. *)
Definition times_sent (r i : Z) : Z := zlen (filter (fun j => j = i) (order_of r)).

Lemma repeated_sum (g : Z -> Z) (w l : list Z) i :
  zsum snd (values_at i (zip l (g <$> (wv w <$> l)))) = zlen (filter (fun j => j = Z.of_nat i) l) * g (wv w (Z.of_nat i)).
Proof.
  induction l as [|j l IH]; [done|]. cbn [fmap list_fmap zip_with]. unfold values_at in *. rewrite !filter_cons. cbn [fst].
  destruct (decide (j = Z.of_nat i)) as [->|Hne].
  - rewrite zsum_cons, zlen_cons, IH. cbn [snd]. lia.
  - exact IH.
Qed.

Lemma ul_segment_ok coded r output (g : Z -> Z) clear d :
  encoded coded -> 0 <= r < dl_n_segments p -> placed coded r output -> buffer_size <= zlen d ->
  (forall x, x ∈ d -> - 2 ^ 15 <= x < 2 ^ 15) ->
  exists d', ul_segment p (g <$> output) r (off p r) clear d = Ok (Some d') /\ zlen d' = zlen d /\
    (forall i x, zget d i = Some x ->
       zget d' i = Some (i16 ((if clear && (i <? buffer_size) then 0 else x) + times_sent r i * g (wv coded i)))).
Proof.
  intros Hc Hr (f & f' & Hf & Hint & Hsl) Hd Hrange. pose proof Hok as [Hl Hb]. pose proof Hl as (HC & HQm & HNl & HG & _).
  pose proof (E_of_nonneg p Hl r) as HE0. pose proof (order_of_len r Hr) as Hol. specialize (Hb r Hr).
  unfold ul_segment. rewrite (dl_E_ok p Hl r Hr). cbn [mbind outcome_bind].
  apply zslice_Some in Hsl as (Ho1 & _ & Ho2 & Hsl). rewrite zlen_fmap.
  rewrite zslice_ok by (rewrite ?zlen_fmap; lia). cbn [of_option mbind outcome_bind].
  assert (take (Z.to_nat (zlen output - off p r)) (drop (Z.to_nat (off p r)) (g <$> output))
    = take (Z.to_nat (E_of p r)) (g <$> f') ++ drop (Z.to_nat (E_of p r)) (drop (Z.to_nat (off p r)) (g <$> output))) as ->.
  { rewrite take_ge by (rewrite length_drop, length_fmap; unfold zlen in *; lia).
    rewrite <- (take_drop (Z.to_nat (E_of p r)) (drop _ _)) at 1. f_equal. by rewrite <- fmap_drop, <- !fmap_take, Hsl. }
  rewrite (interleave_roundtrip (E_of p r) (dl_Qm p) _ HQm (E_of_units p r)
    ltac:(pose proof (extra_bounds p Hl) as (_ & Hs & _); case_if; nia) g (wv coded <$> order_of r) f f').
  all: try (rewrite ?zlen_fmap; done || lia).
  2: { unfold zlen. rewrite length_replicate. lia. }
  cbn [mbind outcome_bind]. assert (u8 (dl_n_segments p) = dl_n_segments p) as -> by (apply Z.mod_small; lia).
  rewrite (block_rx _ _ _ _ _ _ _ _ Hb) by (rewrite ?zlen_fmap; done). cbn [mbind outcome_bind]. change (0 =? -1) with false. cbv iota.
  fold buffer_size. fold (order_of r). set (d0 := if clear then _ else d).
  assert (zlen d0 = zlen d) as Hd0.
  { unfold d0. destruct clear; [|done]. rewrite put_pre, app_nil_l, zlen_app. unfold zlen in *. rewrite length_drop, !length_replicate. lia. }
  eexists. split; [done|]. split; [by rewrite acc_len|]. intros i x Hx.
  assert (0 <= i < zlen d) as Hi by (unfold zget in Hx; destruct (0 <=? i) eqn:E0; [zify_bool; apply lookup_lt_Some in Hx; unfold zlen; lia|done]).
  assert (zget d0 i = Some (if clear && (i <? buffer_size) then 0 else x)) as H0.
  { unfold d0. destruct clear; [|done]. cbn [andb]. rewrite put_pre, app_nil_l. unfold zget in *. rewrite (proj2 (Z.leb_le _ _)) in * by lia.
    destruct (i <? buffer_size) eqn:E1; zify_bool.
    - rewrite lookup_app_l by (rewrite length_replicate; lia). apply lookup_replicate_2. lia.
    - rewrite lookup_app_r by (rewrite length_replicate; lia). rewrite lookup_drop, <- Hx, !length_replicate. f_equal. lia. }
  unfold zget in *. rewrite (proj2 (Z.leb_le _ _)) in * by lia. rewrite acc_lookup.
  - rewrite H0. cbn [fmap option_fmap option_map]. rewrite repeated_sum, Z2Nat.id by lia. done.
  - intros [q s] Hq. apply elem_of_zip_l in Hq. cbn [fst]. apply (order_elem _ _ _ _ _ _ _ _ Hb) in Hq. lia.
  - intros y Hy. rewrite H0 in Hy. injection Hy as <-. destruct (clear && (i <? buffer_size)); [lia|]. apply Hrange.
    by apply list_elem_of_lookup_2 in Hx.
Qed.
End Codeword.


(** Ten blocks with four filler bits, two threads, the second one first. *)
Definition toy_params : dl_params := mk_dl_params 2 2 10 20 4 250 2 1 0 2.
Definition toy_coded : list (list Z) := replicate 10 (replicate 100 1).

Lemma toy_ok : dl_ok toy_params.
Proof.
  split.
  - unfold lengths_ok, toy_params, unit_bits. cbn [dl_n_segments dl_Qm dl_Nl dl_G]. split_and!; try lia; reflexivity.
  - intros r Hr. cbn [toy_params dl_n_segments] in Hr. unfold block_ok. change (dl_BG toy_params) with 2.
    change (bm_Ncb _ _ _ _) with 100. change (dl_Foffset toy_params) with 12.
    unfold toy_params, E_of, share, unit_bits, extra. cbn [dl_rv dl_Zc dl_n_segments dl_F dl_Tbslbrm dl_Nl dl_Qm dl_G].
    change (250 / (1 * 2) / 10) with 12. destruct (r <? _); split_and!; lia || (by right).
Qed.

Lemma toy_encoded r d : zget toy_coded r = Some d -> encoded toy_params d.
Proof.
  intros Hd. assert (d = replicate 100 1) as ->.
  { unfold zget in Hd. destruct (0 <=? r); [|done]. unfold toy_coded in Hd. by apply lookup_replicate in Hd as [-> _]. }
  change (encoded toy_params (replicate 100 1)) with (coded_ok 0 2 2 10 4 12 (replicate 100 1)).
  split; [vm_compute; discriminate|]. change (bm_Ncb 0 2 2 10) with 100. intros i Hi _. unfold wv.
  rewrite (nth_lookup_Some _ _ 0 1); [vm_compute; discriminate|]. apply lookup_replicate_2. lia.
Qed.


(** A block too short for the bits before its filler: the receiver refuses it,
    the transmitter sends zeros, since it does not test the result. *)
Example short_block_sends_zeros :
  let p := mk_dl_params 2 2 1 20 4 10 2 1 0 0 in
  ldpc_threads p [replicate 100 1] [0] (replicate 10 9) = Ok (replicate 10 0) /\
  ul_segment p (replicate 10 5) 0 0 true (replicate 100 7) = Ok None.
Proof. vm_compute. auto. Qed.
